(* ===== verification/_CoqProject ===== *)
-Q . S2P
Prelude.v
GoStd.v
Policy.v
Config.v
RateLimit.v
Guards.v
Controller.v
Events.v
Escalation.v
Gate.v
AuditFile.v
Kube.v
K8s.v
ScopeSettings.v
Fixes.v
Approvals.v
ApprovalsQueue.v
Wire.v
ApprovalsStore.v
FixTracker.v
Learning.v
Calendar.v
Scaler.v
Baselines.v
Sha256.v
Metrics.v
ReloadRefs.v
Findings.v
Admission.v
ReloadWatch.v
Reload.v
Terminal.v
GitopsContent.v
Scheduling.v
Nodes.v
PodStates.v
Handlers.v
Watcher.v
Workloads.v
Jobs.v
Correlation.v
Routing.v
SlackActions.v
HttpReads.v
Replication.v
Detectors.v
WorkloadChecks.v
NetChecks.v
ClusterChecks.v
SecurityChecks.v
MetricChecks.v
NetProbe.v
Retention.v
SelfCheck.v
Compliance.v
Passes.v
Confinement.v
Regex.v
Base64.v
Http.v
Redact.v
Tickets.v
PullRequests.v
Outgoing.v
Cost.v
Resources.v
Storage.v
TermView.v
Webhook.v
Pages.v
Leader.v
Run.v
Agent.v
