(* ===== verification/Prelude.v ===== *)
(** * auto-agent-k8s: verification development

    The program is an agent that watches the workloads of a Kubernetes
    cluster, tells people what is wrong, and, where its policy lets it, fixes
    it.  One binary runs in two roles: a node agent per node (a DaemonSet)
    watches the pods of its node, and a controller (two replicas, one of which
    leads) runs the periodic checks, the scaler, the approvals and the
    dashboard.  Its design rests on a few promises: every change of the
    cluster goes through one gate; the gate acts only in fix mode and inside
    the fix scope, under guardrails, and leaves an audit entry; what cannot be
    fixed at once waits for a listed approver; nothing leaves the cluster
    unredacted.  This development models the Go code and proves these
    promises of it, with what each component must do for them to hold.

    ** How the code is modelled

    A function of the code is a definition of the same name where that is
    possible.  Code with state is a function of the state it can reach
    through its pointers ([st S A], below), code that fails returns an option
    or a sum, code that panics [None]; a loop is a recursion on its list, or
    has fuel where it has no list.  A mutex makes a step atomic; what may
    happen between two steps is a step relation ([Inductive ..._step]) or a
    function [others] of what other processes do.  Machine integers are [Z]
    with their wrap-around written out ([wrap32], [wrap64]), floating point is
    binary64 of [SpecFloat], rounded after each operation as amd64 does, a
    time is the number of nanoseconds since the Unix epoch, texts are byte
    strings.  A map the code ranges over is visited in the order
    [RangeOrder] gives, any order at all.

    Code that is not the repository's is a parameter: a class of operations
    ([ClusterAPI], [ConfigMapAPI], [HttpServer], [AuditFiles], ...), or an
    argument of a section (the decoding of JSON, YAML and X.509).  Where a
    theorem relies on it, a class of laws states what its documentation
    promises ([ConfigMapLaws], [QueueCodec], [AuditFilesLaws], [one_run]), and
    a concrete instance or run shows that it can hold.  Go's standard library
    is modelled, in GoStd and the files named for its packages (Calendar,
    Sha256, Base64, Regex).

    Left out of every definition: log lines, Prometheus counters and trace
    spans, which nothing reads back; contexts and their deadlines, but where a
    bound on time is the point (Run); goroutines themselves, which enter
    as the steps they take.

    ** The files

    - Foundations.  Prelude: notation, automation, lemmas on lists.  GoStd: Go
      and its library.  Calendar: RFC 3339.  Sha256, Base64, Regex.  K8s:
      ConfigMaps and quantities of the API server, and [SimpleAPI], a server
      that obeys the laws.  Http: requests, and traces of what is sent.  Kube:
      the objects the checks read, and kube/helpers.go, namespaces.go.
    - What the agent may do.  Policy: internal/policy (policy.go, scope.go,
      reload.go).  Config: internal/config.  RateLimit: internal/ratelimit.
      Guards: kube/auditlog.go (blast radius, quiet hours), dryrun.go,
      policycheck.go, crd/store.go.  Controller: crd/controller.go.
    - The gate.  Gate: kube/gate.go, guardrails.go, gate_preview.go.
      AuditFile: the audit log of kube/auditlog.go.  ScopeSettings:
      kube/scope_settings.go, httpapi/scope.go.
    - Approvals.  Fixes: kube/approval_fixes.go.  Approvals: approvals.go,
      approval_store.go.  ApprovalsQueue: the queue as a state machine.  Wire:
      a codec to run it with.  ApprovalsStore: the stored queue refines the
      machine.
    - Events.  Events: internal/events.  Replication: the same, across the
      pods.  Compliance: kube/compliance.go.  Escalation: internal/escalation.
    - Loops of the leader.  Learning, Baselines: kube/learning.go.  Scaler:
      scaler.go.  FixTracker: fixtracker.go.  ReloadRefs, Reload,
      ReloadWatch: reload*.go.  Findings: findings.go.  Detectors: what the
      checks share.  PodStates: podstate.go.  WorkloadChecks:
      workload_extended.go.  NetChecks: netchecks.go, storage_network.go.
      ClusterChecks: storage_network.go, lifecycle.go, pvc.go, nodecheck.go,
      node_extended.go.  SecurityChecks: security.go, quotas.go,
      anomalies.go.  MetricChecks: promchecks.go.  Workloads: workloads.go.
      Jobs: jobs.go, pod_extended.go.  Correlation: correlation.go.
      Scheduling: scheduling.go.  Passes: the checks with the stored queue
      behind them.  Metrics: internal/metrics/provider.go.
    - The node agent.  Watcher: watcher.go.  Handlers: handlers.go,
      handlers_extended.go, pod_extended.go.  GitopsContent:
      gitops_content.go.  Nodes: nodes.go.  NetProbe: netprobe.go.
      Retention: retention.go.  SelfCheck: selfcheck.go.
    - What leaves the cluster.  Redact: internal/redact.  Tickets,
      PullRequests: internal/integrations.  Outgoing: internal/slack,
      alertmanager, llm, httpx and the channels of escalation.  Storage:
      internal/storage.
    - The dashboard (internal/httpapi).  Routing: http.go, proxy.go.
      HttpReads: http.go, ingest.go, api_extended.go.  SlackActions:
      slack_actions.go, approvals.go.  Terminal, TermView: terminal*.go.
      Cost: cost.go.  Resources: resources.go.  Pages: the status and the
      trackers' pages.
    - Admission, Webhook: internal/webhook.  Leader: internal/leader.  Run:
      cmd/auto-agent.
    - The whole.  Confinement: what each component can change, and where.
      Agent: the process, its state (kube/deps.go) and its steps.

    ** How the components meet

    [Gate.applyMutation] is the one door to the cluster: Handlers, Nodes,
    Scaler, Reload, Workloads, Jobs and Approvals call it, and each is proved
    to change nothing but through it ([watcher_changes_little],
    [node_pressure_confined], [scaler_changes_only_what_it_reports],
    [ApproveFix_write_ahead]).  The checks report through
    [Findings.report], which puts a proposal into a [ProposalQueue]; Passes
    instantiates it with the stored queue.  Of the checks of run.go the four
    that may act (scaling, failed jobs, stuck rollouts, evicted pods) act
    through the gate; the others only propose, whatever the order they run
    in ([checks_only_propose]).  The queue is proved as a machine
    (ApprovalsQueue) that one compare-and-swap against the API server refines
    ([updateQueue_atomic]); SlackActions drives it from signed requests
    ([slack_acts_as_signed]).  Policy gives the gate its scope; the dashboard
    changes it in ScopeSettings, and the reloader picks it up
    ([putScope_takes_effect]).  Routing says which requests reach which
    handler ([api_needs_token]); Replication runs the posts of Events through
    the servers of Routing and HttpReads ([batch_is_stored_once]).

    Agent puts them together: one state, one step per callback of the
    watchers, per check named in run.go ([Agent.leader_check], all of them),
    per tick of the config reloads, per request of Slack or of the approvals
    page, and per event of the hot reloader, in any order, with others free to
    change the cluster in between.  The main theorem,
    [agent_answers_for_its_changes], follows from the gate
    ([Gate.gate_cluster], [Gate.gate_audited]), from Policy (the grant is
    fixed) and from a lemma per component in Confinement; it relies on
    [NamespacedCalls], that a call on the API changes nothing outside the
    namespace it names.  [change_is_on_disk] carries it to the file of
    AuditFile: the entry is a whole line there, or a failure was counted.

    ** What is proved

    - Safety of changes: [agent_answers_for_its_changes] (of the whole
      process), [gate_acts_only_in_fix_scope], [gate_decision] (the
      gate implements a decision table), [dryrun_predicts_the_gate],
      [gate_audits_every_decision], [reload_never_widens_grant],
      [approved_at_most_once], [ApproveFix_write_ahead], [slack_acts_as_signed],
      [waits_for_healthy], [stalled_version_never_again],
      [checks_only_propose].
    - Invariants of the state: [queue_invariant_kept], [no_action_lost],
      [every_workload_accounted], [watcher_changes_little], the inventories of
      RateLimit and Guards ([blast_radius_bounded],
      [breaker_bounds_actions]).
    - Nothing is lost: [forwarder_no_loss], [Recorder_restart],
      [audit_file_holds_every_entry], [batch_is_stored_once].
    - Bounds: [Allow_sliding_window], [patch_raises_one_limit],
      [scale_limits_ordered], [shutdown_waits_then_closes].
    - Termination and progress: [drain_terminates], [fix_verdict],
      [reload_wait_is_bounded], [every_service_is_dialled].
    - Equivalence with a reference: [templateRefs_exact],
      [hash_covers_what_is_used], [policyBlocks_exact],
      [mirror_rewrites_once], [ends_exact], [renewals_are_picked_up].
    - Confinement of reads and of what leaves: [terminal_reads_in_scope],
      [terminal_never_reads_secrets], [pages_read_in_scope],
      [cost_page_names_its_source], [nothing_leaves_unredacted],
      [bundles_stay_under_base], [Describe_hides_secrets].
    - Conversations keep to a script: [proposal_follows_its_script],
      [ticket_opened_only_when_missing], [delivery_keeps_to_its_script].  The
      script is a [dialogue] of Http, which says for each answer what is
      asked next, or that it ends and with which result.
    - Round trips: [base64_roundtrip], [written_file_reads_back],
      the stored queue, RFC 3339, canonical scope lists, paths of Storage.

    A theorem that shows the code fall short of what it means to do has a
    comment that says how (for example [Leader.lost_lease_is_final],
    [Replication.two_leaders_bounce_copies], [Policy.Load_accepts_NaN_threshold]).

    ** Bounds and fuel

    [Events.drain] takes fuel; [drain_terminates] shows that [n] flushes are
    enough when what waits and what is recorded around them is fewer than
    [n] full batches; against a recorder that keeps pace no bound holds.  [Replication.deliver] takes two hops: a standby marks
    what it sends on, and nobody sends that on again ([forwarded_once]).
    [Approvals.updateQueue] retries a number of times that is a parameter
    (client-go's default), and fails after that, as the code does.  Cutting functions of GoStd
    ([strings_Fields], [strings_TrimSpace]) use the length of their text as
    fuel, which drops at each step.  The constants of the code (20 handlers,
    200 items, 200 events a batch, 2000 events buffered, 1000 samples, 64 KiB
    and 1 MiB of body) are definitions of their own.

    ** What is not modelled

    - internal/obs, internal/tracing, internal/logging, kube/apierrors.go:
      counters, spans, log lines.  The counters of the audit file are a list,
      for they are all that tells of its failures.
    - The processes around the code: goroutines, tickers, informers and their
      caches, the election of client-go, the listening and serving of net/http
      and TLS, the building of API clients, the log level flag
      (cmd/auto-agent/main.go, parts of run.go and watcher.go).
    - internal/httpx/httpxtest and the tests; the dashboard's JavaScript, the
      chart and the scripts. *)
From Stdlib Require Export ZArith Lia Bool.
From stdpp Require Export base gmap strings list sorting pretty fin_maps.

#[global] Set Default Goal Selector "!".

(** ** Notation of the development

    [st S A] is the state monad the stateful Go code is written in: a
    function takes the state the pointers reach and returns the result with
    the state afterwards. *)
Declare Scope agent_scope.
Delimit Scope agent_scope with agent.

Definition st (S A : Type) : Type := S → A * S.

Definition st_ret {S A} (a : A) : st S A := λ s, (a, s).
Definition st_bind {S A B} (m : st S A) (k : A → st S B) : st S B :=
  λ s, let '(a, s') := m s in k a s'.
Definition st_get {S} : st S S := λ s, (s, s).
Definition st_modify {S} (f : S → S) : st S unit := λ s, (tt, f s).

Notation "'let!' x ':=' m 'in' k" := (st_bind m (λ x, k))
  (at level 10, x binder, m at level 100, k at level 200) : agent_scope.
Notation "m ';;;' k" := (st_bind m (λ _, k))
  (at level 199, right associativity) : agent_scope.
Notation "'return!' a" := (st_ret a) (at level 100) : agent_scope.

(** [keeps R m]: whatever state it starts in, [m] ends in a related one. *)
Definition keeps {S A} (R : S → S → Prop) (m : st S A) : Prop :=
  ∀ s, R s (m s).2.

Section keeps.
Context {S : Type} (R : S → S → Prop) `{!PreOrder R}.

Lemma keeps_ret {A} (a : A) : keeps R (st_ret a).
Proof. intros s. simpl. reflexivity. Qed.
Lemma keeps_bind {A B} (m : st S A) (k : A → st S B) :
  keeps R m → (∀ a, keeps R (k a)) → keeps R (st_bind m k).
Proof.
  intros Hm Hk s. unfold st_bind. specialize (Hm s).
  destruct (m s) as [a s'] eqn:?. simpl in *. etrans; [exact Hm|apply Hk].
Qed.
Lemma keeps_get : keeps R st_get.
Proof. intros s. simpl. reflexivity. Qed.
Lemma keeps_modify f : (∀ s, R s (f s)) → keeps R (st_modify f).
Proof. intros Hf s. apply Hf. Qed.
End keeps.

(** Reasoning about a sequence: what the first step is known to do, then
    the rest from there. *)
Lemma bind_spec {S A B} (P : A * S → Prop) (m : st S A) (k : A → st S B) s (Q : B * S → Prop) :
  P (m s) → (∀ a s', P (a, s') → Q (k a s')) → Q (st_bind m k s).
Proof. intros Hm Hk. unfold st_bind. destruct (m s) as [a s']. by apply Hk. Qed.

(** Running a step on one side of a paired state. *)
Definition st_left {S T A} (m : st S A) : st (S * T) A :=
  λ p, let '(a, s') := m p.1 in (a, (s', p.2)).
Definition st_right {S T A} (m : st T A) : st (S * T) A :=
  λ p, let '(a, t') := m p.2 in (a, (p.1, t')).

Create HintDb agent.
Create Rewrite HintDb agent.
#[export] Hint Resolve keeps_ret keeps_bind keeps_get keeps_modify : agent.

(** ** Capped logs

    The agent's in-memory logs share one shape: append, and drop the oldest
    entry first when the log is full ([entries = entries[1:]]). *)
Definition push_capped {A} (cap : Z) (l : list A) (x : A) : list A :=
  (if decide (cap ≤ Z.of_nat (length l))%Z then tail l else l) ++ [x].

(** The last [n] entries of a list, in order. *)
Definition lastn {A} (n : nat) (l : list A) : list A := drop (length l - n) l.

(** Go's [Recent(n)] on a log: newest first, everything when [n] is not
    positive or exceeds the length. *)
Definition recent {A} (n : Z) (l : list A) : list A :=
  let total := length l in
  let k := if decide (n ≤ 0 ∨ Z.of_nat total < n)%Z then total else Z.to_nat n in
  take k (reverse l).

Section capped.
Context {A : Type}.
Implicit Types (l xs : list A) (x : A) (cap : Z).

Lemma push_capped_length cap l x :
  (0 < cap)%Z → (Z.of_nat (length l) ≤ cap)%Z →
  (Z.of_nat (length (push_capped cap l x)) ≤ cap)%Z.
Proof.
  intros Hc Hl. unfold push_capped. rewrite length_app. simpl.
  case_decide; [|lia]. destruct l; simpl in *; lia.
Qed.

Lemma lastn_snoc n l x : lastn (S n) (l ++ [x]) = lastn n l ++ [x].
Proof.
  unfold lastn. rewrite length_app. simpl.
  replace (length l + 1 - S n) with (length l - n) by lia.
  rewrite drop_app_le by lia. done.
Qed.

Lemma lastn_length n l : length (lastn n l) = min n (length l).
Proof. unfold lastn. rewrite length_drop. lia. Qed.

Lemma lastn_all n l : length l ≤ n → lastn n l = l.
Proof. intros. unfold lastn. replace (_ - _) with 0 by lia. done. Qed.

Lemma tail_lastn n l : n < length l → lastn n l = tail (lastn (S n) l).
Proof.
  intros H. unfold lastn.
  replace (length l - n) with (length l - S n + 1) by lia.
  rewrite <-drop_drop. by destruct (drop _ l).
Qed.

(** Appending to a log that holds the last [cap] entries of [l] gives the
    log that holds the last [cap] entries of [l ++ [x]]. *)
Lemma push_capped_lastn cap l x :
  (0 < cap)%Z →
  push_capped cap (lastn (Z.to_nat cap) l) x = lastn (Z.to_nat cap) (l ++ [x]).
Proof.
  intros Hc. unfold push_capped. rewrite lastn_length.
  destruct (Z.to_nat cap) as [|n] eqn:Hn; [lia|].
  rewrite lastn_snoc. f_equal. case_decide.
  - symmetry. apply tail_lastn. lia.
  - rewrite !lastn_all by lia. done.
Qed.

(** The whole history: a capped log fed [xs] holds the last [cap] of them. *)
Lemma push_capped_foldl cap xs :
  (0 < cap)%Z → foldl (push_capped cap) [] xs = lastn (Z.to_nat cap) xs.
Proof.
  intros Hc. induction xs as [|x xs IH] using rev_ind; [done|].
  rewrite foldl_app. simpl. rewrite IH. by apply push_capped_lastn.
Qed.

Lemma recent_all n l : (n ≤ 0)%Z → recent n l = reverse l.
Proof.
  intros. unfold recent. rewrite decide_True by lia.
  apply take_ge. rewrite length_reverse. done.
Qed.

Lemma recent_pos n l :
  (0 < n)%Z → recent n l = reverse (lastn (Z.to_nat n) l).
Proof.
  intros Hn. unfold recent, lastn. case_decide.
  - rewrite take_ge by (rewrite length_reverse; lia).
    replace (_ - _) with 0 by lia. done.
  - rewrite <-(take_drop (length l - Z.to_nat n) l) at 1.
    rewrite reverse_app. apply take_app_length'.
    rewrite length_reverse, length_drop. lia.
Qed.
End capped.
#[export] Hint Rewrite @lastn_snoc @lastn_length : agent.

(** ** Lists related element by element *)
Section forall2.
Context {A B : Type}.
Implicit Types (P Q : A → B → Prop).
Lemma Forall2_impl_in P Q l k :
  Forall2 P l k → (∀ x y, x ∈ l → P x y → Q x y) → Forall2 Q l k.
Proof.
  intros Hall Hi. induction Hall; constructor; [apply Hi; [left|done]|].
  apply IHHall. intros ???. apply Hi. by right.
Qed.
Lemma Forall2_in_l P l k x : Forall2 P l k → x ∈ l → ∃ y, y ∈ k ∧ P x y.
Proof.
  intros Hall. induction Hall; intros Hx; [set_solver|]. apply elem_of_cons in Hx as [->|Hx]; set_solver.
Qed.
Lemma Forall2_in_r P l k y : Forall2 P l k → y ∈ k → ∃ x, x ∈ l ∧ P x y.
Proof.
  intros Hall. induction Hall; intros Hy; [set_solver|]. apply elem_of_cons in Hy as [->|Hy]; set_solver.
Qed.
End forall2.

(** ** Sorted strings

    [sort.Strings] orders by bytes; any enumeration of the same elements
    sorts to the same list. *)
Definition sort_strings (l : list string) : list string := merge_sort String.le l.

Lemma sort_strings_perm l : sort_strings l ≡ₚ l.
Proof. apply merge_sort_Permutation. Qed.

Lemma sort_strings_sorted l : StronglySorted String.le (sort_strings l).
Proof. apply (StronglySorted_merge_sort _ _). Qed.

Lemma sort_strings_unique l1 l2 : l1 ≡ₚ l2 → sort_strings l1 = sort_strings l2.
Proof.
  intros Hp. apply (StronglySorted_unique String.le).
  - apply sort_strings_sorted.
  - apply sort_strings_sorted.
  - by rewrite !sort_strings_perm.
Qed.

Lemma elem_of_sort_strings x l : x ∈ sort_strings l ↔ x ∈ l.
Proof. by rewrite sort_strings_perm. Qed.

(** ** Tactics *)

(** Split every [if decide], [match] and boolean test in sight, keeping the
    equations. *)
Ltac crush_match :=
  repeat (case_match || case_decide; simplify_eq/=).

(** [lia] on goals whose integer tests are booleans. *)
Ltac blia :=
  repeat match goal with
  | H : (_ <=? _)%Z = true |- _ => apply Z.leb_le in H
  | H : (_ <=? _)%Z = false |- _ => apply Z.leb_gt in H
  | H : (_ <? _)%Z = true |- _ => apply Z.ltb_lt in H
  | H : (_ <? _)%Z = false |- _ => apply Z.ltb_ge in H
  | H : (_ =? _)%Z = true |- _ => apply Z.eqb_eq in H
  | H : (_ =? _)%Z = false |- _ => apply Z.eqb_neq in H
  | H : _ && _ = true |- _ => apply andb_true_iff in H as [? ?]
  | H : _ || _ = false |- _ => apply orb_false_iff in H as [? ?]
  | |- (_ <=? _)%Z = true => apply Z.leb_le
  | |- (_ <=? _)%Z = false => apply Z.leb_gt
  | |- (_ <? _)%Z = true => apply Z.ltb_lt
  | |- (_ <? _)%Z = false => apply Z.ltb_ge
  | |- (_ =? _)%Z = true => apply Z.eqb_eq
  | |- (_ =? _)%Z = false => apply Z.eqb_neq
  end; lia.
