(* ===== verification/GoStd.v ===== *)
(** * GoStd: the part of Go and its standard library the program uses

    Machine integers, [time.Time] and [time.Duration], [strings], [strconv]
    and IEEE 754 binary64 floating point ([SpecFloat], the executable
    reference definition), each as the Go documentation and sources define
    them.  Nothing here models code of the repository. *)
From S2P Require Import Prelude.
From Stdlib Require Import Ascii SpecFloat.
#[local] Open Scope Z_scope.

(** ** Machine integers *)
Definition min_int64 : Z := - 2 ^ 63.
Definition max_int64 : Z := 2 ^ 63 - 1.
Definition wrap32 (z : Z) : Z := (z + 2 ^ 31) mod 2 ^ 32 - 2 ^ 31.
Definition wrap64 (z : Z) : Z := (z + 2 ^ 63) mod 2 ^ 64 - 2 ^ 63.
Definition int32_ok (z : Z) : Prop := - 2 ^ 31 ≤ z < 2 ^ 31.
Definition int64_ok (z : Z) : Prop := - 2 ^ 63 ≤ z < 2 ^ 63.

Lemma wrap32_id z : int32_ok z → wrap32 z = z.
Proof. unfold int32_ok, wrap32. intros. rewrite Z.mod_small; lia. Qed.
Lemma wrap32_ok z : int32_ok (wrap32 z).
Proof.
  unfold int32_ok, wrap32.
  pose proof (Z.mod_pos_bound (z + 2 ^ 31) (2 ^ 32)). lia.
Qed.
Lemma wrap64_id z : int64_ok z → wrap64 z = z.
Proof. unfold int64_ok, wrap64. intros. rewrite Z.mod_small; lia. Qed.

(** ** time

    A [Time] is nanoseconds since the zero time (1 January of year 1, UTC),
    so [IsZero] is [t = 0].  A [Duration] is a 64-bit count of nanoseconds;
    [Sub] saturates at its bounds. *)
Abbreviation Time := Z (only parsing).
Abbreviation Duration := Z (only parsing).
Definition nanosecond : Duration := 1.
Definition millisecond : Duration := 1000000.
Definition second : Duration := 1000000000.
Definition minute : Duration := 60 * second.
Definition hour : Duration := 60 * minute.

Definition time_IsZero (t : Time) : bool := t =? 0.
Definition time_Before (t u : Time) : bool := t <? u.
Definition time_After (t u : Time) : bool := u <? t.
Definition time_Add (t : Time) (d : Duration) : Time := t + d.
Definition time_Sub (t u : Time) : Duration :=
  Z.max min_int64 (Z.min max_int64 (t - u)).
(** Negating a [Duration] wraps at the smallest one. *)
Definition dur_neg (d : Duration) : Duration := wrap64 (- d).

Lemma time_Sub_lt t u d :
  0 < d ≤ max_int64 → (time_Sub t u <? d) = (t - u <? d).
Proof. unfold time_Sub, min_int64, max_int64. intros. lia. Qed.
Lemma time_Sub_ge t u d :
  0 < d ≤ max_int64 → (d <=? time_Sub t u) = (d <=? t - u).
Proof. unfold time_Sub, min_int64, max_int64. intros. lia. Qed.
Lemma dur_neg_pos d : 0 < d ≤ max_int64 → dur_neg d = - d.
Proof. intros. apply wrap64_id. unfold int64_ok, max_int64 in *. lia. Qed.

(** ** strings

    Strings are byte strings. *)
Definition str_eqb (a b : string) : bool := bool_decide (a = b).
Definition str_leb (a b : string) : bool := String.leb a b.
Definition str_ltb (a b : string) : bool := String.ltb a b.
Definition str_len (s : string) : Z := Z.of_nat (String.length s).

Fixpoint strings_HasPrefix (s p : string) : bool :=
  match p, s with
  | EmptyString, _ => true
  | String a p', String b s' => bool_decide (a = b) && strings_HasPrefix s' p'
  | _, _ => false
  end.
Definition str_drop (n : nat) (s : string) : string :=
  String.substring n (String.length s - n) s.
Definition str_take (n : nat) (s : string) : string := String.substring 0 n s.
Definition strings_TrimPrefix (s p : string) : string :=
  if strings_HasPrefix s p then str_drop (String.length p) s else s.
Definition str_rev (s : string) : string :=
  String.string_of_list_ascii (rev (String.list_ascii_of_string s)).
Definition strings_HasSuffix (s p : string) : bool :=
  strings_HasPrefix (str_rev s) (str_rev p).
Definition strings_TrimSuffix (s p : string) : string :=
  if strings_HasSuffix s p then str_take (String.length s - String.length p) s else s.

Fixpoint strings_Contains (s p : string) : bool :=
  strings_HasPrefix s p ||
  match s with EmptyString => false | String _ s' => strings_Contains s' p end.

(** [strings.Index] and [strings.Cut] of a string. *)
Fixpoint strings_Index (s p : string) : option nat :=
  if strings_HasPrefix s p then Some O
  else match s with EmptyString => None | String _ s' => S <$> strings_Index s' p end.
Definition strings_CutS (s sep : string) : option (string * string) :=
  i ← strings_Index s sep; Some (str_take i s, str_drop (i + String.length sep) s).

(** [strings.Split] on a one-byte separator: never empty. *)
Fixpoint strings_Split (s : string) (sep : ascii) : list string :=
  match s with
  | EmptyString => [""]
  | String c s' =>
    if bool_decide (c = sep) then "" :: strings_Split s' sep
    else match strings_Split s' sep with
         | w :: ws => String c w :: ws
         | [] => [String c ""]
         end
  end.
Definition strings_Join (l : list string) (sep : string) : string :=
  match l with
  | [] => ""
  | x :: l' => foldl (λ acc y, acc +:+ sep +:+ y) x l'
  end.
Definition lower_ascii (c : ascii) : ascii :=
  let n := N_of_ascii c in
  if ((65 <=? n) && (n <=? 90))%N then ascii_of_N (n + 32) else c.
Fixpoint str_map (f : ascii → ascii) (s : string) : string :=
  match s with EmptyString => "" | String c s' => String (f c) (str_map f s') end.

(** [strings.EqualFold s t] for a constant [t] of lower-case ASCII letters
    other than [k] and [s], the two with non-ASCII case variants. *)
Definition strings_EqualFold_lower (s t : string) : bool :=
  str_eqb (str_map lower_ascii s) t.

(** [strings.EqualFold s t] for a constant [t] of lower-case ASCII letters:
    [s] and [k] also match the two non-ASCII letters that fold to them
    (U+017F and U+212A). *)
Fixpoint fold_ascii (s : string) : string :=
  match s with
  | String "197" (String "191" s') => String "s" (fold_ascii s')
  | String "226" (String "132" (String "170" s')) => String "k" (fold_ascii s')
  | String c s' => String (lower_ascii c) (fold_ascii s')
  | EmptyString => ""
  end.
Definition strings_EqualFold_const (s t : string) : bool := str_eqb (fold_ascii s) t.

(** The UTF-8 encodings of the characters [unicode.IsSpace] accepts. *)
Definition bytes_of (l : list N) : string :=
  String.string_of_list_ascii (ascii_of_N <$> l).
Definition space_runes : list string :=
  Eval vm_compute in
  bytes_of <$> ([ [9]; [10]; [11]; [12]; [13]; [32]; [194;133]; [194;160];
    [225;154;128]; [226;128;128]; [226;128;129]; [226;128;130];
    [226;128;131]; [226;128;132]; [226;128;133]; [226;128;134];
    [226;128;135]; [226;128;136]; [226;128;137]; [226;128;138];
    [226;128;168]; [226;128;169]; [226;128;175]; [226;129;159];
    [227;128;128] ]%N).
(** Drop leading occurrences of any word of [ws]; [n] is at least the
    length of [s], and every word is at least one byte. *)
Fixpoint trim_words (ws : list string) (n : nat) (s : string) : string :=
  match n with
  | O => s
  | S n' =>
    match filter (λ w, strings_HasPrefix s w = true) ws with
    | w :: _ => trim_words ws n' (str_drop (String.length w) s)
    | [] => s
    end
  end.
Definition trim_left_space (s : string) : string :=
  trim_words space_runes (String.length s) s.
Definition trim_right_space (s : string) : string :=
  str_rev (trim_words (str_rev <$> space_runes) (String.length s) (str_rev s)).
Definition strings_TrimSpace (s : string) : string :=
  trim_right_space (trim_left_space s).

(** [strings.Fields]: the words between runs of white space; [n] is at least
    the length of [s], [w] the word so far. *)
Fixpoint fields_from (n : nat) (w s : string) : list string :=
  let word := if bool_decide (w = "") then [] else [w] in
  match n, s with
  | _, EmptyString | O, _ => word
  | S n', String c s' =>
    match filter (λ sp, strings_HasPrefix s sp = true) space_runes with
    | sp :: _ => word ++ fields_from n' "" (str_drop (String.length sp) s)
    | [] => fields_from n' (w +:+ String c "") s'
    end
  end.
Definition strings_Fields (s : string) : list string := fields_from (String.length s) "" s.
Example strings_Fields_ok : strings_Fields "  get  pods -A " = ["get"; "pods"; "-A"].
Proof. vm_compute. reflexivity. Qed.

(** [strings.SplitN(s, sep, 2)] and [strings.LastIndex] on one byte. *)
Fixpoint strings_cut (s : string) (sep : ascii) : option (string * string) :=
  match s with
  | EmptyString => None
  | String c s' =>
    if bool_decide (c = sep) then Some ("", s')
    else match strings_cut s' sep with
         | Some (a, b) => Some (String c a, b)
         | None => None
         end
  end.
Fixpoint strings_LastIndex (s : string) (sep : ascii) : option nat :=
  match s with
  | EmptyString => None
  | String c s' =>
    match strings_LastIndex s' sep with
    | Some i => Some (S i)
    | None => if bool_decide (c = sep) then Some O else None
    end
  end.

(** [net.SplitHostPort]: the host and the port of an address; [None] is an
    error. *)
Definition net_SplitHostPort (hostport : string) : option (string * string) :=
  match strings_LastIndex hostport ":"%char with
  | None => None
  | Some i =>
    let clean n c := negb (strings_Contains (str_drop n hostport) c) in
    let port := str_drop (S i) hostport in
    if strings_HasPrefix hostport "[" then
      match strings_Index hostport "]" with
      | Some e => if (S e =? i)%nat && clean 1%nat "[" && clean (S e) "]"
                  then Some (str_take (e - 1) (str_drop 1 hostport), port) else None
      | None => None
      end
    else let host := str_take i hostport in
         if negb (strings_Contains host ":") && clean 0%nat "[" && clean 0%nat "]" then Some (host, port) else None
  end.
Example split_host_port :
  net_SplitHostPort "10.0.0.9:4312" = Some ("10.0.0.9", "4312") ∧ net_SplitHostPort "[::1]:80" = Some ("::1", "80")
  ∧ net_SplitHostPort "::1:80" = None ∧ net_SplitHostPort "10.0.0.9" = None ∧ net_SplitHostPort "[::1]" = None
  ∧ net_SplitHostPort "[::1]x:80" = None ∧ net_SplitHostPort "a[b:80" = None ∧ net_SplitHostPort ":80" = Some ("", "80").
Proof. vm_compute. done. Qed.

(** The newline of a message. *)
Definition nl : string := String "010"%char "".
(** A double quote. *)
Definition dq : string := String "034"%char "".

(** [strconv.Quote]: exact on ASCII; other characters are taken to be
    printable and stay as they are. *)
Definition hex_char (n : N) : ascii := ascii_of_N (if n <? 10 then 48 + n else 87 + n)%N.
Definition quote_char (c : ascii) : string :=
  let n := N_of_ascii c in
  let esc (x : ascii) := String "\" (String x "") in
  if (n =? 34)%N then esc "034"%char else if (n =? 92)%N then esc "\"%char
  else if (n =? 7)%N then esc "a"%char else if (n =? 8)%N then esc "b"%char
  else if (n =? 12)%N then esc "f"%char else if (n =? 10)%N then esc "n"%char
  else if (n =? 13)%N then esc "r"%char else if (n =? 9)%N then esc "t"%char
  else if (n =? 11)%N then esc "v"%char
  else if ((n <? 32) || (n =? 127))%N
  then esc "x"%char +:+ String (hex_char (n / 16)) (String (hex_char (n mod 16)) "")
  else String c "".
Fixpoint quote_chars (s : string) : string :=
  match s with EmptyString => "" | String c s' => quote_char c +:+ quote_chars s' end.
Definition strconv_Quote (s : string) : string := dq +:+ quote_chars s +:+ dq.

(** ** strconv *)
Definition digit_val (c : ascii) : option Z :=
  let n := Z.of_N (N_of_ascii c) in
  if (48 <=? n) && (n <=? 57) then Some (n - 48) else None.
Fixpoint digits_val (s : string) (acc : Z) : option Z :=
  match s with
  | EmptyString => Some acc
  | String c s' =>
    match digit_val c with
    | Some d => digits_val s' (acc * 10 + d)
    | None => None
    end
  end.
Definition unsigned_val (s : string) : option Z :=
  match s with EmptyString => None | _ => digits_val s 0 end.
(** [strconv.Atoi]: base 10, one optional sign, 64-bit range; [None] is an
    error. *)
Definition strconv_Atoi (s : string) : option Z :=
  let v :=
    match s with
    | String "-" s' => Z.opp <$> unsigned_val s'
    | String "+" s' => unsigned_val s'
    | _ => unsigned_val s
    end in
  match v with
  | Some z => if (min_int64 <=? z) && (z <=? max_int64) then Some z else None
  | None => None
  end.
Definition strconv_ParseBool (s : string) : option bool :=
  if bool_decide (s ∈ ["1"; "t"; "T"; "TRUE"; "true"; "True"]) then Some true
  else if bool_decide (s ∈ ["0"; "f"; "F"; "FALSE"; "false"; "False"]) then Some false
  else None.
(** Decimal text of an integer, as [%d] prints it. *)
Definition itoa (z : Z) : string := pretty z.

(** *** Floating point: binary64 by its reference definition *)
Abbreviation float64 := spec_float (only parsing).
Definition f64_prec : Z := 53.
Definition f64_emax : Z := 1024.
Definition f64_add (a b : float64) : float64 := SFadd f64_prec f64_emax a b.
Definition f64_sub (a b : float64) : float64 := SFsub f64_prec f64_emax a b.
Definition f64_mul (a b : float64) : float64 := SFmul f64_prec f64_emax a b.
Definition f64_div (a b : float64) : float64 := SFdiv f64_prec f64_emax a b.
Definition f64_sqrt (a : float64) : float64 := SFsqrt f64_prec f64_emax a.
Definition f64_ltb (a b : float64) : bool := SFltb a b.
Definition f64_leb (a b : float64) : bool := SFleb a b.
Definition f64_zero : float64 := S754_zero false.
Definition f64_inf (neg : bool) : float64 := S754_infinity neg.
Definition f64_is_inf (a : float64) : bool :=
  match a with S754_infinity _ => true | _ => false end.
(** [float64(n)] for an integer, rounded to nearest even. *)
Definition f64_of_Z (z : Z) : float64 := binary_normalize f64_prec f64_emax z 0 false.
(** The correctly rounded value of [m * 10^e] or, in base 2, [m * 2^e], for
    a positive [m]. *)
Definition f64_scaled (base : Z) (neg : bool) (m : positive) (e : Z) : float64 :=
  if 0 <=? e then
    binary_normalize f64_prec f64_emax
      (cond_Zopp neg (Z.pos m * base ^ e)) 0 neg
  else
    match base ^ (- e) with
    | Z.pos q => SFdiv f64_prec f64_emax (S754_finite neg m 0) (S754_finite false q 0)
    | _ => S754_nan
    end.
(** A decimal constant of the Go source, [m / 10^k]. *)
Definition f64_const (m : positive) (k : Z) : float64 := f64_scaled 10 false m (- k).
(** [math.Max] and [math.Min]: NaN if either is NaN, infinities first, and
    the zeros ordered by sign. *)
Definition f64_is_nan (a : float64) : bool :=
  match a with S754_nan => true | _ => false end.
Definition math_Max (x y : float64) : float64 :=
  match x, y with
  | S754_infinity false, _ | _, S754_infinity false => S754_infinity false
  | S754_nan, _ | _, S754_nan => S754_nan
  | S754_zero sx, S754_zero _ => if sx then y else x
  | _, _ => if f64_ltb y x then x else y
  end.
Definition math_Min (x y : float64) : float64 :=
  match x, y with
  | S754_infinity true, _ | _, S754_infinity true => S754_infinity true
  | S754_nan, _ | _, S754_nan => S754_nan
  | S754_zero sx, S754_zero _ => if sx then x else y
  | _, _ => if f64_ltb x y then x else y
  end.

(** [strconv.ParseFloat(s, 64)]: decimal and hexadecimal floating point
    literals, [inf], [infinity] and [nan] in any case, underscores as Go
    literals allow them; a value too large is an error.  The reader keeps
    the mantissa and the position of the point, as [readFloat] does. *)
Module ParseFloat.
Definition hex_val (c : ascii) : option Z :=
  match digit_val c with
  | Some d => Some d
  | None =>
    let n := Z.of_N (N_of_ascii (lower_ascii c)) in
    if (97 <=? n) && (n <=? 102) then Some (n - 87) else None
  end.
(** State of the mantissa loop: value, digits after the point, whether a
    point and a digit were seen; the unread text. *)
Fixpoint mantissa (hex : bool) (s : string) (v frac : Z) (dot dig : bool)
  : Z * Z * bool * string :=
  match s with
  | EmptyString => (v, frac, dig, s)
  | String c s' =>
    if bool_decide (c = "_"%char) then mantissa hex s' v frac dot dig
    else if bool_decide (c = "."%char) then
      if dot then (v, frac, dig, s) else mantissa hex s' v frac true dig
    else
      match (if hex then hex_val c else digit_val c) with
      | Some d => mantissa hex s' (v * (if hex then 16 else 10) + d)
                    (if dot then frac + 1 else frac) dot true
      | None => (v, frac, dig, s)
      end
  end.
Fixpoint exponent (s : string) (e : Z) : Z * string :=
  match s with
  | EmptyString => (e, s)
  | String c s' =>
    if bool_decide (c = "_"%char) then exponent s' e
    else match digit_val c with
         | Some d => exponent s' (if e <? 10000 then e * 10 + d else e)
         | None => (e, s)
         end
  end.
Definition signed (s : string) : bool * string :=
  match s with
  | String "-" s' => (true, s')
  | String "+" s' => (false, s')
  | _ => (false, s)
  end.
(** [underscoreOK] after the sign: [prev] is 0 for a digit (or a base
    prefix), 1 for an underscore, 2 for anything else. *)
Fixpoint underscores (hex : bool) (s : string) (prev : N) : bool :=
  match s with
  | EmptyString => negb (prev =? 1)%N
  | String c s' =>
    match (if hex then hex_val c else digit_val c) with
    | Some _ => underscores hex s' 0
    | None =>
      if bool_decide (c = "_"%char) then (prev =? 0)%N && underscores hex s' 1
      else negb (prev =? 1)%N && underscores hex s' 2
    end
  end.
Definition has_underscore (s : string) : bool := strings_Contains s "_".
Definition special (neg : bool) (s : string) : option float64 :=
  let l := str_map lower_ascii s in
  if bool_decide (l = "inf" ∨ l = "infinity") then Some (f64_inf neg)
  else None.
(** The value of [m * base^e], with exponents far outside the range of
    binary64 decided without computing the power. *)
Definition value (neg hex : bool) (m e : Z) : option float64 :=
  match m with
  | Z.pos p =>
    let base := if hex then 2 else 10 in
    let mag := Z.log2 m + (if hex then 1 else 3) * e in
    if (0 <? e) && (1100 <? mag) then None
    else if mag <? -2000 * (if hex then 1 else 3) then Some (S754_zero neg)
    else let f := f64_scaled base neg p e in
         if f64_is_inf f then None else Some f
  | _ => Some (S754_zero neg)
  end.
End ParseFloat.

Definition strconv_ParseFloat (s : string) : option float64 :=
  let '(neg, t) := ParseFloat.signed s in
  if bool_decide (str_map lower_ascii s = "nan") then Some S754_nan
  else match ParseFloat.special neg t with
  | Some f => Some f
  | None =>
    let '(hex, body) :=
      match t with
      | String "0" (String c (String d r)) =>
        if bool_decide (lower_ascii c = "x"%char) then (true, String d r) else (false, t)
      | _ => (false, t)
      end in
    let '(v, frac, dig, rest) := ParseFloat.mantissa hex body 0 0 false false in
    if negb dig then None
    else
      let ok_us := negb (ParseFloat.has_underscore t)
                   || ParseFloat.underscores hex body (if hex then 0 else 2)%N in
      let frac2 := if hex then 4 * frac else frac in
      match rest with
      | EmptyString =>
        if hex || negb ok_us then None else ParseFloat.value neg hex v (- frac2)
      | String c rest' =>
        if bool_decide (lower_ascii c = (if hex then "p" else "e")%char) then
          let '(eneg, er) := ParseFloat.signed rest' in
          match er with
          | String d _ =>
            match digit_val d with
            | None => None
            | Some _ =>
              let '(e, tail) := ParseFloat.exponent er 0 in
              if bool_decide (tail = "") && ok_us
              then ParseFloat.value neg hex v ((if eneg then - e else e) - frac2)
              else None
            end
          | EmptyString => None
          end
        else None
      end
  end.

(** *** fmt: [%.2f], [%.1f], [%.0f] and [%t]

    The exact value rounded to that many decimals, half to even. *)
Definition round_half_even (num den : Z) : Z :=
  let q := num / den in
  let r := 2 * (num mod den) in
  if r <? den then q else if den <? r then q + 1 else if Z.even q then q else q + 1.
Definition fmt_2f (f : float64) : string :=
  match f with
  | S754_nan => "NaN"
  | S754_infinity s => if s then "-Inf" else "+Inf"
  | S754_zero s => (if s then "-" else "") +:+ "0.00"
  | S754_finite s m e =>
    let n := if 0 <=? e then Z.pos m * 2 ^ e * 100 else round_half_even (Z.pos m * 100) (2 ^ (- e)) in
    (if s then "-" else "") +:+ itoa (n / 100) +:+ "." +:+ itoa (n / 10 mod 10) +:+ itoa (n mod 10)
  end.
Definition fmt_1f (f : float64) : string :=
  match f with
  | S754_nan => "NaN"
  | S754_infinity s => if s then "-Inf" else "+Inf"
  | S754_zero s => (if s then "-" else "") +:+ "0.0"
  | S754_finite s m e =>
    let n := if 0 <=? e then Z.pos m * 2 ^ e * 10 else round_half_even (Z.pos m * 10) (2 ^ (- e)) in
    (if s then "-" else "") +:+ itoa (n / 10) +:+ "." +:+ itoa (n mod 10)
  end.
Definition fmt_0f (f : float64) : string :=
  match f with
  | S754_nan => "NaN"
  | S754_infinity s => if s then "-Inf" else "+Inf"
  | S754_zero s => (if s then "-" else "") +:+ "0"
  | S754_finite s m e =>
    (if s then "-" else "") +:+ itoa (if 0 <=? e then Z.pos m * 2 ^ e else round_half_even (Z.pos m) (2 ^ (- e)))
  end.
Definition fmt_4f (f : float64) : string :=
  match f with
  | S754_nan => "NaN"
  | S754_infinity s => if s then "-Inf" else "+Inf"
  | S754_zero s => (if s then "-" else "") +:+ "0.0000"
  | S754_finite s m e =>
    let n := if 0 <=? e then Z.pos m * 2 ^ e * 10000 else round_half_even (Z.pos m * 10000) (2 ^ (- e)) in
    (if s then "-" else "") +:+ itoa (n / 10000) +:+ "." +:+ itoa (n / 1000 mod 10) +:+ itoa (n / 100 mod 10)
    +:+ itoa (n / 10 mod 10) +:+ itoa (n mod 10)
  end.
Definition fmt_t (b : bool) : string := if b then "true" else "false".

(** *** time.ParseDuration

    The reader of [time]: a sign, then one or more numbers each with a unit;
    an overflow of 63 bits is an error. *)
Module ParseDuration.
Definition two63 : Z := 2 ^ 63.
(** [leadingInt]: [None] is an overflow. *)
Fixpoint leadingInt (s : string) (x : Z) : option (Z * string) :=
  match s with
  | EmptyString => Some (x, s)
  | String c s' =>
    match digit_val c with
    | None => Some (x, s)
    | Some d =>
      if two63 / 10 <? x then None
      else let y := x * 10 + d in
           if two63 <? y then None else leadingInt s' y
    end
  end.
(** [leadingFraction]: the digits read, their power of ten, the rest. *)
Fixpoint leadingFraction (s : string) (x : Z) (scale : float64) (over : bool)
  : Z * float64 * string :=
  match s with
  | EmptyString => (x, scale, s)
  | String c s' =>
    match digit_val c with
    | None => (x, scale, s)
    | Some d =>
      let y := x * 10 + d in
      if over || ((two63 - 1) / 10 <? x) || (two63 <? y)
      then leadingFraction s' x scale true
      else leadingFraction s' y (f64_mul scale (f64_of_Z 10)) false
    end
  end.
Fixpoint unit_span (s : string) : string * string :=
  match s with
  | EmptyString => ("", "")
  | String c s' =>
    if bool_decide (c = "."%char) || bool_decide (is_Some (digit_val c)) then ("", s)
    else let '(u, r) := unit_span s' in (String c u, r)
  end.
Definition unit_of (u : string) : option Z :=
  if bool_decide (u = "ns") then Some nanosecond
  else if bool_decide (u ∈ ["us"; bytes_of [194; 181; 115]%N; bytes_of [206; 188; 115]%N])
       then Some 1000
  else if bool_decide (u = "ms") then Some millisecond
  else if bool_decide (u = "s") then Some second
  else if bool_decide (u = "m") then Some minute
  else if bool_decide (u = "h") then Some hour
  else None.
(** [uint64(f)] of a non-negative float. *)
Definition f64_trunc (f : float64) : Z :=
  match f with
  | S754_finite _ m e => if 0 <=? e then Z.pos m * 2 ^ e else Z.pos m / 2 ^ (- e)
  | _ => 0
  end.
Fixpoint terms (fuel : nat) (s : string) (d : Z) : option Z :=
  match fuel, s with
  | _, EmptyString => Some d
  | O, _ => None
  | S fuel', String c _ =>
    if negb (bool_decide (c = "."%char) || bool_decide (is_Some (digit_val c)))
    then None
    else match leadingInt s 0 with
    | None => None
    | Some (v, s1) =>
      let pre := negb (str_len s =? str_len s1) in
      let '(f, scale, s2, post) :=
        match s1 with
        | String "." s1' =>
          let '(f, scale, r) := leadingFraction s1' 0 (f64_of_Z 1) false in
          (f, scale, r, negb (str_len s1' =? str_len r))
        | _ => (0, f64_of_Z 1, s1, false)
        end in
      if negb pre && negb post then None
      else let '(u, s3) := unit_span s2 in
      match unit_of u with
      | None => None
      | Some unit =>
        if two63 / unit <? v then None
        else
          let v1 := v * unit in
          let v2 := if 0 <? f
                    then v1 + f64_trunc (f64_mul (f64_of_Z f) (f64_div (f64_of_Z unit) scale))
                    else v1 in
          if two63 <? v2 then None
          else if two63 <? d + v2 then None
          else terms fuel' s3 (d + v2)
      end
    end
  end.
End ParseDuration.
(** [int(f)] of a float in range. *)
Definition f64_int (f : float64) : Z :=
  match f with S754_finite true _ _ => - ParseDuration.f64_trunc f | _ => ParseDuration.f64_trunc f end.
(** [d.Seconds()], [d.Minutes()], [d.Hours()]. *)
Definition dur_in (unit d : Duration) : float64 :=
  f64_add (f64_of_Z (Z.quot d unit)) (f64_div (f64_of_Z (Z.rem d unit)) (f64_of_Z unit)).

Definition time_ParseDuration (s : string) : option Duration :=
  let '(neg, t) := ParseFloat.signed s in
  if bool_decide (t = "0") then Some 0
  else if bool_decide (t = "") then None
  else match ParseDuration.terms (String.length t) t 0 with
       | None => None
       | Some d =>
         if neg then Some (wrap64 (- d))
         else if max_int64 <? d then None else Some d
       end.

(** [Duration.Round(time.Second)], half away from zero, and
    [Duration.String] of a whole number of seconds. *)
Definition dur_Round_second (d : Duration) : Duration :=
  let r := Z.abs d mod second in
  let base := Z.abs d - r in
  Z.sgn d * (if 2 * r <? second then base else base + second).
Definition dur_String_seconds (d : Duration) : string :=
  let s := Z.abs d / second in
  let h := s / 3600 in let m := s / 60 mod 60 in
  (if d <? 0 then "-" else "") +:+
  (if 0 <? h then itoa h +:+ "h" else "") +:+
  (if (0 <? h) || (0 <? m) then itoa m +:+ "m" else "") +:+
  itoa (s mod 60) +:+ "s".

(** ** Ranging over a map

    Go ranges over a map in an unspecified order, possibly different each
    time.  A function that ranges takes the order as a parameter: any
    enumeration of the map's entries. *)
Class RangeOrder := {
  range_map : ∀ {V : Type}, gmap string V → list (string * V);
  range_map_perm : ∀ {V} (m : gmap string V), range_map m ≡ₚ map_to_list m
}.

(** One such order, used to evaluate the definitions. *)
Definition range_sorted : RangeOrder :=
  {| range_map := λ V m, map_to_list m; range_map_perm := λ V m, Permutation_refl _ |}.

Section range.
Context `{RangeOrder} {V : Type}.
Implicit Types m : gmap string V.

Lemma elem_of_range_map m k v : (k, v) ∈ range_map m ↔ m !! k = Some v.
Proof. rewrite range_map_perm. apply elem_of_map_to_list. Qed.
Lemma range_map_NoDup m : NoDup (range_map m).*1.
Proof. rewrite range_map_perm. apply NoDup_fst_map_to_list. Qed.
End range.
#[export] Hint Resolve range_map_NoDup : agent.

(** ** Facts about strings *)
Lemma str_eqb_eq a b : str_eqb a b = true ↔ a = b.
Proof. unfold str_eqb. by rewrite bool_decide_eq_true. Qed.
Lemma str_eqb_decide a b : str_eqb a b = bool_decide (a = b).
Proof. apply eq_true_iff_eq. by rewrite str_eqb_eq, bool_decide_eq_true. Qed.
Lemma str_eqb_refl a : str_eqb a a = true.
Proof. by apply str_eqb_eq. Qed.
Lemma str_eqb_ne a b : str_eqb a b = false ↔ a ≠ b.
Proof. unfold str_eqb. by rewrite bool_decide_eq_false. Qed.
#[export] Hint Rewrite str_eqb_refl : agent.

Lemma str_app_cons c a b : String c a +:+ b = String c (a +:+ b).
Proof. done. Qed.
Lemma str_app_nil_l a : "" +:+ a = a.
Proof. done. Qed.
Lemma str_app_nil_r a : a +:+ "" = a.
Proof. induction a as [|c a IH]; [done|]. by rewrite str_app_cons, IH. Qed.
Lemma str_app_assoc a b c : (a +:+ b) +:+ c = a +:+ b +:+ c.
Proof. induction a as [|x a IH]; [done|]. by rewrite !str_app_cons, IH. Qed.

(** Splitting at a separator splits each side. *)
Lemma strings_Split_cons s sep : ∃ w ws, strings_Split s sep = w :: ws.
Proof.
  induction s as [|c s [w [ws IH]]]; simpl; [by eexists _, _|].
  rewrite IH. case_bool_decide; by eexists _, _.
Qed.
Lemma strings_Split_app a b sep :
  strings_Split (a +:+ String sep b) sep = strings_Split a sep ++ strings_Split b sep.
Proof.
  induction a as [|c a IH].
  - simpl. by rewrite bool_decide_true.
  - rewrite str_app_cons. simpl. rewrite IH.
    destruct (strings_Split_cons a sep) as (w & ws & ->).
    by case_bool_decide.
Qed.
Definition no_byte (sep : ascii) (s : string) : Prop := strings_Split s sep = [s].
Lemma strings_Join_snoc l x y sep :
  strings_Join (l ++ [x] ++ [y]) sep = strings_Join (l ++ [x]) sep +:+ sep +:+ y.
Proof.
  destruct l as [|z l]; [done|]. simpl. rewrite !foldl_app. simpl.
  by rewrite !str_app_assoc.
Qed.
Lemma strings_Join_head a y l sep : strings_Join ((a +:+ y) :: l) sep = a +:+ strings_Join (y :: l) sep.
Proof.
  unfold strings_Join. revert y. induction l as [|z l IH]; intros y; [done|]. simpl.
  by rewrite str_app_assoc, IH.
Qed.
Lemma strings_Join_cons x y l sep : strings_Join (x :: y :: l) sep = x +:+ sep +:+ strings_Join (y :: l) sep.
Proof.
  change (strings_Join (x :: y :: l) sep) with (strings_Join ((x +:+ sep +:+ y) :: l) sep).
  by rewrite <-str_app_assoc, strings_Join_head, str_app_assoc.
Qed.
(** [Split] undoes [Join] when no element holds the separator. *)
Lemma strings_Split_Join l sep :
  l ≠ [] →
  strings_Split (strings_Join l (String sep "")) sep
  = mjoin ((λ s, strings_Split s sep) <$> l).
Proof.
  induction l as [|y l IH] using rev_ind; [done|]. intros _.
  destruct l as [|x l _] using rev_ind.
  { simpl. by rewrite app_nil_r. }
  rewrite <-app_assoc, strings_Join_snoc, str_app_cons, strings_Split_app.
  rewrite IH by (by destruct l). rewrite app_assoc, (fmap_app _ (l ++ [x])), join_app.
  simpl. by rewrite app_nil_r.
Qed.

(** A prefix without the separator joins the first piece. *)
Lemma strings_Split_app_none a b sep :
  no_byte sep a →
  strings_Split (a +:+ b) sep
  = match strings_Split b sep with w :: ws => (a +:+ w) :: ws | [] => [] end.
Proof.
  unfold no_byte. destruct (strings_Split_cons b sep) as (w & ws & Hb). rewrite Hb.
  induction a as [|c a IH]; intros Ha; [done|]. rewrite str_app_cons. simpl in *.
  case_bool_decide; [done|].
  destruct (strings_Split_cons a sep) as (u & us & Hu). rewrite Hu in Ha. simplify_eq.
  rewrite IH by done. done.
Qed.

(** The pieces of a split hold no separator, nor does any part of a text
    without one. *)
Lemma no_byte_app sep a b : no_byte sep (a +:+ b) ↔ no_byte sep a ∧ no_byte sep b.
Proof.
  unfold no_byte. induction a as [|c a IH]; [simpl; tauto|]. rewrite str_app_cons. simpl.
  destruct (strings_Split_cons (a +:+ b) sep) as (u & us & Hu).
  destruct (strings_Split_cons a sep) as (v & vs & Hv). rewrite Hu, Hv in *.
  case_bool_decide; [split; [done|intros [? _]; done]|].
  split.
  - intros [= -> ->]. destruct IH as [IH _]. destruct IH as [Hv' Hb]; [done|]. by simplify_eq.
  - intros [[= -> ->] Hb]. destruct IH as [_ IH]. rewrite Hb in IH. specialize (IH (conj eq_refl eq_refl)). by simplify_eq.
Qed.
Lemma no_byte_cons sep c s : no_byte sep (String c s) → c ≠ sep ∧ no_byte sep s.
Proof.
  unfold no_byte. simpl. destruct (strings_Split_cons s sep) as (w & ws & ->).
  case_bool_decide; [done|]. intros [= -> ->]. done.
Qed.
Lemma strings_Split_no_byte s sep w : w ∈ strings_Split s sep → no_byte sep w.
Proof.
  revert w. induction s as [|c s IH]; intros w; simpl; [by intros ->%list_elem_of_singleton|].
  destruct (strings_Split_cons s sep) as (u & us & Hu). rewrite Hu in *.
  case_bool_decide as Hc; intros [->|Hw]%elem_of_cons.
  - done.
  - by apply IH.
  - unfold no_byte. simpl. rewrite bool_decide_false by done.
    specialize (IH u ltac:(left)). unfold no_byte in IH. by rewrite IH.
  - apply IH. by right.
Qed.

Lemma strings_HasPrefix_spec s p : strings_HasPrefix s p = true ↔ ∃ t, s = p +:+ t.
Proof.
  revert s. induction p as [|a p IH]; intros s.
  - split; [by exists s|by destruct s].
  - destruct s as [|b s].
    + split; [done|]. intros [t Ht]. by rewrite str_app_cons in Ht.
    + cbn [strings_HasPrefix]. rewrite andb_true_iff, bool_decide_eq_true, IH. split.
      * intros [-> [t ->]]. by exists t.
      * intros [t Ht]. rewrite str_app_cons in Ht. simplify_eq. split; [done|by exists t].
Qed.
Lemma str_length_app a b : String.length (a +:+ b) = (String.length a + String.length b)%nat.
Proof. induction a as [|c a IH]; [done|]. rewrite str_app_cons. simpl. by rewrite IH. Qed.
Lemma str_substring_all s : String.substring 0 (String.length s) s = s.
Proof. induction s as [|c s IH]; [done|]. simpl. by rewrite IH. Qed.
Lemma str_drop_app p t : str_drop (String.length p) (p +:+ t) = t.
Proof.
  unfold str_drop. rewrite str_length_app.
  replace (_ + _ - _)%nat with (String.length t) by lia.
  induction p as [|c p IH]; [apply str_substring_all|]. rewrite str_app_cons. simpl. exact IH.
Qed.
Lemma str_rev_app a b : str_rev (a +:+ b) = str_rev b +:+ str_rev a.
Proof.
  unfold str_rev. 
  assert (∀ a b, String.list_ascii_of_string (a +:+ b)
    = String.list_ascii_of_string a ++ String.list_ascii_of_string b) as ->.
  { intros x y. induction x as [|c x IH]; [done|]. rewrite str_app_cons. simpl. by rewrite IH. }
  rewrite rev_app_distr. generalize (rev (String.list_ascii_of_string b)). intros l.
  induction l as [|c l IH]; [done|]. simpl. by rewrite IH.
Qed.
Lemma str_rev_involutive s : str_rev (str_rev s) = s.
Proof.
  unfold str_rev. by rewrite String.list_ascii_of_string_of_list_ascii, rev_involutive,
    String.string_of_list_ascii_of_string.
Qed.
Lemma str_rev_length s : String.length (str_rev s) = String.length s.
Proof.
  unfold str_rev. rewrite <-(String.string_of_list_ascii_of_string s) at 2.
  generalize (String.list_ascii_of_string s). intros l.
  assert (∀ l, String.length (String.string_of_list_ascii l) = length l) as Hl.
  { clear. induction l as [|c l IH]; [done|]. simpl. by rewrite IH. }
  rewrite !Hl. apply length_rev.
Qed.

(** *** Trimming *)
Definition starts_with_none (ws : list string) (s : string) : Prop :=
  Forall (λ w, strings_HasPrefix s w = false) ws.
Lemma starts_with_none_filter ws s :
  starts_with_none ws s ↔ filter (λ w, strings_HasPrefix s w = true) ws = [].
Proof.
  unfold starts_with_none. induction ws as [|w ws IH]; [done|].
  rewrite Forall_cons, filter_cons, IH. destruct (strings_HasPrefix s w); simpl; [|naive_solver].
  split; [by intros [? _]|done].
Qed.
Lemma trim_words_id ws n s : starts_with_none ws s → trim_words ws n s = s.
Proof. intros H%starts_with_none_filter. destruct n; [done|]. simpl. by rewrite H. Qed.
Lemma trim_words_spec ws n s :
  Forall (λ w, w ≠ "") ws → (String.length s ≤ n)%nat →
  starts_with_none ws (trim_words ws n s) ∧ ∃ p, s = p +:+ trim_words ws n s.
Proof.
  intros Hws. revert s. induction n as [|n IH]; intros s Hn; simpl.
  - destruct s; [|simpl in Hn; lia]. split; [|by exists ""].
    unfold starts_with_none. eapply Forall_impl; [exact Hws|]. by intros [|] ?.
  - destruct (filter _ ws) as [|w l] eqn:Hf.
    + split; [by apply starts_with_none_filter|by exists ""].
    + assert (w ∈ filter (λ w, strings_HasPrefix s w = true) ws) as Hw by (rewrite Hf; left).
      apply list_elem_of_filter in Hw as [[t ->]%strings_HasPrefix_spec Hw].
      rewrite str_drop_app. rewrite Forall_forall in Hws. specialize (Hws w Hw).
      destruct (IH t) as [H1 [p Hp]].
      { rewrite str_length_app in Hn. destruct w; [done|]. simpl in Hn. lia. }
      split; [done|]. exists (w +:+ p). by rewrite str_app_assoc, <-Hp.
Qed.
Lemma starts_with_none_prefix ws a b :
  starts_with_none ws (a +:+ b) → starts_with_none ws a.
Proof.
  intros H. eapply Forall_impl; [exact H|]. intros w Hw. simpl in *.
  apply not_true_iff_false. intros [t ->]%strings_HasPrefix_spec.
  apply not_true_iff_false in Hw. apply Hw, strings_HasPrefix_spec. eexists. apply str_app_assoc.
Qed.
Lemma space_runes_nonempty : Forall (λ w, w ≠ "") space_runes ∧ Forall (λ w, w ≠ "") (str_rev <$> space_runes).
Proof. split; apply (bool_decide_unpack _); vm_compute; exact I. Qed.

(** [strings.TrimSpace] leaves a middle part with no white space at its
    ends; trimming again changes nothing. *)
Lemma strings_TrimSpace_spec s :
  (∃ p q, s = p +:+ strings_TrimSpace s +:+ q)
  ∧ starts_with_none space_runes (strings_TrimSpace s)
  ∧ starts_with_none (str_rev <$> space_runes) (str_rev (strings_TrimSpace s)).
Proof.
  destruct space_runes_nonempty as [Hn1 Hn2]. unfold strings_TrimSpace, trim_right_space.
  set (t := trim_left_space s).
  destruct (trim_words_spec space_runes (String.length s) s Hn1) as [Hl [p Hp]]; [lia|].
  fold (trim_left_space s) in Hl, Hp. fold t in Hl, Hp.
  destruct (trim_words_spec _ (String.length t) (str_rev t) Hn2) as [Hr [q Hq]];
    [by rewrite str_rev_length|].
  set (r := trim_words _ _ _) in *.
  assert (t = str_rev r +:+ str_rev q) as Ht.
  { rewrite <-(str_rev_involutive t), Hq, str_rev_app. done. }
  split_and!.
  - exists p, (str_rev q). by rewrite <-Ht.
  - eapply starts_with_none_prefix. by rewrite <-Ht.
  - by rewrite str_rev_involutive.
Qed.
Lemma strings_TrimSpace_idemp s : strings_TrimSpace (strings_TrimSpace s) = strings_TrimSpace s.
Proof.
  destruct (strings_TrimSpace_spec s) as (_ & Hl & Hr).
  unfold strings_TrimSpace at 1, trim_left_space, trim_right_space.
  rewrite (trim_words_id _ _ (strings_TrimSpace s)) by done.
  by rewrite trim_words_id, str_rev_involutive.
Qed.
Lemma strings_TrimSpace_no_byte sep s : no_byte sep s → no_byte sep (strings_TrimSpace s).
Proof.
  destruct (strings_TrimSpace_spec s) as ((p & q & Hs) & _). rewrite Hs at 1.
  rewrite !no_byte_app. tauto.
Qed.

(** *** Suffixes *)
Lemma str_take_app a b : str_take (String.length a) (a +:+ b) = a.
Proof.
  unfold str_take. induction a as [|c a IH]; [by destruct b|].
  rewrite str_app_cons. simpl. by rewrite IH.
Qed.
Lemma strings_HasSuffix_app a b : strings_HasSuffix (a +:+ b) b = true.
Proof.
  unfold strings_HasSuffix. rewrite str_rev_app. apply strings_HasPrefix_spec. by eexists.
Qed.
Lemma strings_TrimSuffix_app a b : strings_TrimSuffix (a +:+ b) b = a.
Proof.
  unfold strings_TrimSuffix. rewrite strings_HasSuffix_app, str_length_app.
  replace (_ + _ - _)%nat with (String.length a) by lia. apply str_take_app.
Qed.
Lemma strings_LastIndex_none sep s : no_byte sep s → strings_LastIndex s sep = None.
Proof.
  unfold no_byte. induction s as [|c s IH]; [done|]. simpl.
  destruct (strings_Split_cons s sep) as (w & ws & Hs). rewrite Hs in *.
  case_bool_decide; [done|]. intros [= -> ->]. rewrite IH by done. done.
Qed.
Lemma strings_LastIndex_app sep a b :
  no_byte sep b → strings_LastIndex (a +:+ String sep b) sep = Some (String.length a).
Proof.
  intros Hb. induction a as [|c a IH].
  - simpl. rewrite strings_LastIndex_none by done. by rewrite bool_decide_true.
  - rewrite str_app_cons. simpl. by rewrite IH.
Qed.
