(* ===== verification/Policy.v ===== *)
(** * Policy: internal/policy

    [policy.go] (modes, thresholds, loading and validation), [scope.go] (the
    watch scope, the fix ceiling and the fix scope of ADR-002) and
    [reload.go] (the hot reloader, as a state machine over ConfigMap
    events).  Go maps used as sets are [gset string]; log calls are left
    out. *)
From S2P Require Import Prelude GoStd.
From Stdlib Require Import Ascii SpecFloat.
#[local] Open Scope Z_scope.

(** ** Namespace sets and the policy snapshot *)

Abbreviation Mode := string (only parsing).
Definition Observe : Mode := "observe".
Definition Suggest : Mode := "suggest".
Definition Fix : Mode := "fix".
Definition DryRun : Mode := "dry-run".

Record Policy := mkPolicy {
  Mode_ : Mode;
  HPACoexistence : bool;
  CPUThreshold : float64;
  ScaleWindow : string;
  MaxScaleStep : Z;
  MaxActionsPer10m : Z;
  ExcludedAnnotation : string;
  LLMEnabled : bool;
  LogLevel : string;
  CooldownUp : string;
  CooldownDown : string;
  MaxReplicas : Z;
  MinReplicas : Z;
  DedupTTLSeconds : Z;
  LLMTimeoutSec : Z;
  SlackTimeoutSec : Z;
  WatchAll : bool;
  WatchNamespaces : gset string;
  System : gset string;
  FixNamespaces : gset string;
  FixCeiling : gset string;
  FixAnywhere : bool;
  FixOverride : option (gset string)
}.

Definition systemNamespaces : list string := ["kube-system"; "kube-public"; "kube-node-lease"].

Definition nsSet_has (s : gset string) (ns : string) : bool := bool_decide (ns ∈ s).
Definition nsSet_sorted (s : gset string) : list string := sort_strings (elements s).

Definition NamespaceSet (names : list string) : gset string :=
  foldl (λ s n, let n := strings_TrimSpace n in
                if str_eqb n "" then s else {[n]} ∪ s) ∅ names.
Definition parseNamespaceList (s : string) : gset string :=
  NamespaceSet (strings_Split s ","%char).
Definition isAll (v : string) : bool :=
  let v := strings_TrimSpace v in
  str_eqb v "" || str_eqb v "*" || strings_EqualFold_lower v "all".

Definition Watched (p : Policy) (ns : string) : bool :=
  if str_eqb ns "" then false
  else if WatchAll p then negb (nsSet_has (System p) ns)
  else nsSet_has (WatchNamespaces p) ns.
Definition InCeiling (p : Policy) (ns : string) : bool :=
  if negb (Watched p ns) then false
  else if FixAnywhere p then negb (nsSet_has (System p) ns)
  else nsSet_has (FixCeiling p) ns.
Definition fixChoice (p : Policy) : gset string :=
  match FixOverride p with Some o => o | None => FixNamespaces p end.
Definition Fixable (p : Policy) (ns : string) : bool :=
  InCeiling p ns && nsSet_has (fixChoice p) ns.
Definition FixScope (p : Policy) : list string :=
  filter (λ ns, InCeiling p ns = true) (nsSet_sorted (fixChoice p)).
Definition WatchList (p : Policy) : list string * bool :=
  if WatchAll p then ([], true) else (nsSet_sorted (WatchNamespaces p), false).

(** [WithFixOverride]: the copy with another dashboard choice. *)
Definition WithFixOverride (p : Policy) (names : option (list string)) : Policy :=
  mkPolicy (Mode_ p) (HPACoexistence p) (CPUThreshold p) (ScaleWindow p) (MaxScaleStep p)
    (MaxActionsPer10m p) (ExcludedAnnotation p) (LLMEnabled p) (LogLevel p)
    (CooldownUp p) (CooldownDown p) (MaxReplicas p) (MinReplicas p)
    (DedupTTLSeconds p) (LLMTimeoutSec p) (SlackTimeoutSec p)
    (WatchAll p) (WatchNamespaces p) (System p) (FixNamespaces p) (FixCeiling p)
    (FixAnywhere p) (NamespaceSet <$> names).

Definition ScopeConfigMap : string := "auto-agent-scope".
Definition ScopeKey : string := "fixNamespaces".
Definition ScopeChoice (data : gmap string string) : option (list string) :=
  match data !! ScopeKey with
  | None => None
  | Some v => Some (nsSet_sorted (parseNamespaceList v))
  end.

(** ** Validation and loading *)

Inductive validate_error :=
| ErrNoWatchNamespace
| ErrCPUThreshold (v : float64)
| ErrMaxScaleStep (v : Z)
| ErrMaxActions (v : Z)
| ErrReplicas (max min : Z).

(** The limits of [Validate]: 1.0 as a float. *)
Definition one : float64 := f64_of_Z 1.

Definition Validate (p : Policy) : option validate_error :=
  if negb (WatchAll p) && bool_decide (size (WatchNamespaces p) = 0%nat)
  then Some ErrNoWatchNamespace
  else if f64_leb (CPUThreshold p) f64_zero || f64_ltb one (CPUThreshold p)
  then Some (ErrCPUThreshold (CPUThreshold p))
  else if MaxScaleStep p <? 1 then Some (ErrMaxScaleStep (MaxScaleStep p))
  else if MaxActionsPer10m p <? 1 then Some (ErrMaxActions (MaxActionsPer10m p))
  else if MaxReplicas p <? MinReplicas p
  then Some (ErrReplicas (MaxReplicas p) (MinReplicas p))
  else None.

Definition envIntVal (s : string) (fallback : Z) : Z :=
  match strconv_Atoi s with Some i => i | None => fallback end.
Definition envFloatVal (s : string) (fallback : float64) : float64 :=
  match strconv_ParseFloat s with Some f => f | None => fallback end.

(** [Getenv]: a variable that is not set reads as the empty string. *)
Abbreviation Getenv := (string → string) (only parsing).

Module envReader.
Section reader.
Variable get : Getenv.
Definition str (key fallback : string) : string :=
  let v := get key in if str_eqb v "" then fallback else v.
Definition bool (key : string) (fallback : bool) : bool :=
  let v := get key in
  if str_eqb v "" then fallback
  else match strconv_ParseBool v with Some b => b | None => fallback end.
Definition float (key : string) (fallback : float64) : float64 :=
  let v := get key in
  if str_eqb v "" then fallback
  else match strconv_ParseFloat v with Some f => f | None => fallback end.
Definition int (key : string) (fallback : Z) : Z :=
  let v := get key in
  if str_eqb v "" then fallback
  else match strconv_Atoi v with Some i => i | None => fallback end.
End reader.
End envReader.

Record scope_fields := mkScope {
  sf_System : gset string; sf_WatchAll : bool; sf_Watch : gset string;
  sf_Fix : gset string; sf_Ceiling : gset string; sf_Anywhere : bool
}.
(** [loadScope]: the scope fields it fills, from the environment. *)
Definition loadScope (get : Getenv) : scope_fields :=
  let legacy := envReader.str get "NAMESPACE_ALLOWLIST" "" in
  let watch := envReader.str get "WATCH_NAMESPACES" legacy in
  let fix_ := envReader.str get "FIX_NAMESPACES" legacy in
  {| sf_System := NamespaceSet (systemNamespaces ++ [envReader.str get "POD_NAMESPACE" ""]);
     sf_WatchAll := isAll watch;
     sf_Watch := if isAll watch then ∅ else parseNamespaceList watch;
     sf_Fix := parseNamespaceList fix_;
     sf_Ceiling := parseNamespaceList (envReader.str get "FIX_CEILING" fix_);
     sf_Anywhere := envReader.bool get "FIX_ANYWHERE" false |}.

Definition loadMode (m : Mode) : Mode :=
  if bool_decide (m ∈ [Observe; Suggest; Fix; DryRun]) then m else Observe.

(** [Load]; [inr] is the [klog.Fatalf] that ends the process. *)
Definition Load (get : Getenv) : Policy + validate_error :=
  let s := loadScope get in
  let p := {|
    Mode_ := loadMode (envReader.str get "AUTO_MODE" DryRun);
    HPACoexistence := envReader.bool get "HPA_COEXISTENCE" true;
    CPUThreshold := envReader.float get "SCALE_CPU_THRESHOLD" (f64_const 8 1);
    ScaleWindow := envReader.str get "SCALE_WINDOW" "5m";
    MaxScaleStep := envReader.int get "MAX_SCALE_STEP" 2;
    MaxActionsPer10m := envReader.int get "MAX_ACTIONS_PER_10M" 10;
    ExcludedAnnotation := envReader.str get "EXCLUDED_ANNOTATION" "auto-agent.io/disable";
    LLMEnabled := envReader.bool get "LLM_ENABLED" false;
    LogLevel := envReader.str get "LOG_LEVEL" "info";
    CooldownUp := envReader.str get "COOLDOWN_UP" "2m";
    CooldownDown := envReader.str get "COOLDOWN_DOWN" "10m";
    MaxReplicas := wrap32 (envReader.int get "MAX_REPLICAS" 50);
    MinReplicas := wrap32 (envReader.int get "MIN_REPLICAS" 1);
    DedupTTLSeconds := envReader.int get "DEDUP_TTL_SECONDS" 300;
    LLMTimeoutSec := envReader.int get "LLM_TIMEOUT_SEC" 10;
    SlackTimeoutSec := envReader.int get "SLACK_TIMEOUT_SEC" 5;
    WatchAll := sf_WatchAll s;
    WatchNamespaces := sf_Watch s;
    System := sf_System s;
    FixNamespaces := sf_Fix s;
    FixCeiling := sf_Ceiling s;
    FixAnywhere := sf_Anywhere s;
    FixOverride := None
  |} in
  match Validate p with Some e => inr e | None => inl p end.

(** ** Hot reload *)

Definition scopeValue (data : gmap string string) (key : string) : option string :=
  match data !! key with
  | Some v => Some v
  | None =>
    match data !! "NAMESPACE_ALLOWLIST" with
    | Some v => if str_eqb v "" then None else Some v
    | None => None
    end
  end.

Definition cm_get (data : gmap string string) (key fallback : string) : string :=
  match data !! key with
  | Some v => if str_eqb v "" then fallback else v
  | None => fallback
  end.

Definition applyConfigMapData (existing : Policy) (data : gmap string string) : Policy :=
  let p := existing in
  let m := cm_get data "AUTO_MODE" (Mode_ p) in
  let over {A} (key : string) (keep : A) (f : string → A) : A :=
    let v := cm_get data key "" in if str_eqb v "" then keep else f v in
  let watch := scopeValue data "WATCH_NAMESPACES" in
  {|
    Mode_ := if bool_decide (m ∈ [Observe; Suggest; Fix; DryRun]) then m else Mode_ p;
    HPACoexistence := HPACoexistence p;
    CPUThreshold := over "SCALE_CPU_THRESHOLD" (CPUThreshold p)
                      (λ v, envFloatVal v (CPUThreshold p));
    ScaleWindow := ScaleWindow p;
    MaxScaleStep := over "MAX_SCALE_STEP" (MaxScaleStep p)
                      (λ v, envIntVal v (MaxScaleStep p));
    MaxActionsPer10m := over "MAX_ACTIONS_PER_10M" (MaxActionsPer10m p)
                      (λ v, envIntVal v (MaxActionsPer10m p));
    ExcludedAnnotation := ExcludedAnnotation p;
    LLMEnabled := LLMEnabled p;
    LogLevel := LogLevel p;
    CooldownUp := over "COOLDOWN_UP" (CooldownUp p) id;
    CooldownDown := over "COOLDOWN_DOWN" (CooldownDown p) id;
    MaxReplicas := over "MAX_REPLICAS" (MaxReplicas p)
                      (λ v, wrap32 (envIntVal v (MaxReplicas p)));
    MinReplicas := over "MIN_REPLICAS" (MinReplicas p)
                      (λ v, wrap32 (envIntVal v (MinReplicas p)));
    DedupTTLSeconds := DedupTTLSeconds p;
    LLMTimeoutSec := LLMTimeoutSec p;
    SlackTimeoutSec := SlackTimeoutSec p;
    WatchAll := match watch with Some v => isAll v | None => WatchAll p end;
    WatchNamespaces := match watch with
                       | Some v => if isAll v then ∅ else parseNamespaceList v
                       | None => WatchNamespaces p
                       end;
    System := System p;
    FixNamespaces := match scopeValue data "FIX_NAMESPACES" with
                     | Some v => parseNamespaceList v
                     | None => FixNamespaces p
                     end;
    FixCeiling := FixCeiling p;
    FixAnywhere := FixAnywhere p;
    FixOverride := FixOverride p
  |}.

(** ** The hot reloader

    Its state, and one transition per informer callback of [Start].  The
    scope map name is [""] until [WatchScope] sets it. *)
Record HotReloader := mkReloader {
  hr_policy : Policy;
  hr_configMap : string;
  hr_namespace : string;
  hr_scopeMap : string
}.
Record ConfigMap := mkConfigMap { cm_Name : string; cm_Data : gmap string string }.

Definition NewHotReloader (initial : Policy) (namespace configMap : string) : HotReloader :=
  mkReloader initial configMap namespace "".
Definition hr_update (hr : HotReloader) (fn : Policy → Policy) : HotReloader :=
  mkReloader (fn (hr_policy hr)) (hr_configMap hr) (hr_namespace hr) (hr_scopeMap hr).
Definition WatchScope (hr : HotReloader) (name : string) : HotReloader :=
  let hr' := hr_update hr (λ p, WithFixOverride p (Some [])) in
  mkReloader (hr_policy hr') (hr_configMap hr') (hr_namespace hr') name.
Definition setScope (hr : HotReloader) (names : option (list string)) : HotReloader :=
  hr_update hr (λ p, WithFixOverride p names).
Definition applyScope (hr : HotReloader) (cm : ConfigMap) : HotReloader :=
  if str_eqb (hr_scopeMap hr) "" || negb (str_eqb (cm_Name cm) (hr_scopeMap hr)) then hr
  else setScope hr (ScopeChoice (cm_Data cm)).
Definition reload (hr : HotReloader) (data : gmap string string) : HotReloader :=
  hr_update hr (λ old,
    let newPol := applyConfigMapData old data in
    match Validate newPol with Some _ => old | None => newPol end).

(** The callbacks: add, update and delete of a ConfigMap of the agent's
    namespace, and the check after the cache has synced ([exists_] tells
    whether the scope ConfigMap is in it). *)
Inductive hr_event :=
| EvAdd (cm : ConfigMap)
| EvUpdate (cm : ConfigMap)
| EvDelete (cm : ConfigMap)
| EvSynced (exists_ : bool).

Definition on_event (hr : HotReloader) (e : hr_event) : HotReloader :=
  match e with
  | EvAdd cm => applyScope hr cm
  | EvUpdate cm =>
    let hr := if str_eqb (cm_Name cm) (hr_configMap hr) then reload hr (cm_Data cm) else hr in
    applyScope hr cm
  | EvDelete cm =>
    if negb (str_eqb (hr_scopeMap hr) "") && str_eqb (cm_Name cm) (hr_scopeMap hr)
    then setScope hr None else hr
  | EvSynced exists_ =>
    if negb (str_eqb (hr_scopeMap hr) "") && negb exists_ then setScope hr None else hr
  end.

Definition hr_step (hr hr' : HotReloader) : Prop := ∃ e, hr' = on_event hr e.

(** ** Facts about namespace sets *)

Lemma nsSet_has_true s ns : nsSet_has s ns = true ↔ ns ∈ s.
Proof. apply bool_decide_eq_true. Qed.
Lemma elem_of_nsSet_sorted s ns : ns ∈ nsSet_sorted s ↔ ns ∈ s.
Proof. unfold nsSet_sorted. by rewrite elem_of_sort_strings, elem_of_elements. Qed.
#[export] Hint Rewrite nsSet_has_true elem_of_nsSet_sorted : agent.

Lemma NamespaceSet_snoc l n :
  NamespaceSet (l ++ [n])
  = let n := strings_TrimSpace n in
    if str_eqb n "" then NamespaceSet l else {[n]} ∪ NamespaceSet l.
Proof. unfold NamespaceSet. by rewrite foldl_app. Qed.

Lemma elem_of_NamespaceSet l ns :
  ns ∈ NamespaceSet l ↔ ns ≠ "" ∧ ∃ n, n ∈ l ∧ strings_TrimSpace n = ns.
Proof.
  induction l as [|n l IH] using rev_ind; [set_solver|].
  rewrite NamespaceSet_snoc. simpl. case_match eqn:E.
  - apply str_eqb_eq in E. set_solver.
  - apply str_eqb_ne in E. set_solver.
Qed.

Lemma Fixable_InCeiling p ns : Fixable p ns = true → InCeiling p ns = true.
Proof. unfold Fixable. intros [??]%andb_true_iff. done. Qed.

Lemma InCeiling_grant p ns :
  InCeiling p ns = true →
  ns ≠ "" ∧ if FixAnywhere p then ns ∉ System p else ns ∈ FixCeiling p.
Proof.
  unfold InCeiling, Watched. intros H.
  destruct (str_eqb ns "") eqn:E; [done|]. apply str_eqb_ne in E. split; [done|].
  destruct (negb _); [done|]. destruct (FixAnywhere p).
  - rewrite negb_true_iff in H. by apply bool_decide_eq_false in H.
  - by apply nsSet_has_true.
Qed.

Lemma sorted_filter (P : string → Prop) `{∀ x, Decision (P x)} l :
  StronglySorted String.le l → StronglySorted String.le (filter P l).
Proof.
  induction 1 as [|x l Hl IH Hx]; [constructor|].
  rewrite filter_cons. case_decide; [|done]. constructor; [done|].
  apply Forall_forall. intros y [_ Hy]%list_elem_of_filter.
  rewrite Forall_forall in Hx. auto.
Qed.

(** ** The fix scope *)

(** [FixScope], the list the agent shows and audits, holds exactly the
    namespaces in which [Fixable] lets the gate act, in byte order and
    without repetition. *)
Theorem FixScope_exact p :
  (∀ ns, ns ∈ FixScope p ↔ Fixable p ns = true)
  ∧ StronglySorted String.le (FixScope p) ∧ NoDup (FixScope p).
Proof.
  split; [|split].
  - intros ns. unfold FixScope, Fixable.
    rewrite list_elem_of_filter, elem_of_nsSet_sorted, andb_true_iff, nsSet_has_true. done.
  - apply sorted_filter, sort_strings_sorted.
  - apply NoDup_filter. unfold nsSet_sorted.
    rewrite sort_strings_perm. apply NoDup_elements.
Qed.

(** ** The hot reloader *)

(** What no event changes: the grant (ceiling, system set) the chart made. *)
Definition same_grant (p q : Policy) : Prop :=
  FixAnywhere p = FixAnywhere q ∧ FixCeiling p = FixCeiling q ∧ System p = System q.
#[export] Instance same_grant_preorder : PreOrder same_grant.
Proof. split; [done|]. intros ??? (?&?&?) (?&?&?). repeat split; congruence. Qed.

(** [hr_update] is the only way an event changes the reloader: an invariant
    of the policy needs checking on the two functions events apply. *)
Lemma on_event_policy (P : Policy → Policy → Prop) `{!Reflexive P, !Transitive P} hr e :
  (∀ p names, P p (WithFixOverride p names)) →
  (∀ p data, Validate (applyConfigMapData p data) = None → P p (applyConfigMapData p data)) →
  P (hr_policy hr) (hr_policy (on_event hr e)).
Proof.
  intros Hw Ha.
  assert (∀ hr data, P (hr_policy hr) (hr_policy (reload hr data))) as Hr.
  { intros h data. unfold reload, hr_update. simpl.
    destruct (Validate _) eqn:?; [done|by apply Ha]. }
  assert (∀ hr cm, P (hr_policy hr) (hr_policy (applyScope hr cm))) as Hs.
  { intros h cm. unfold applyScope. case_match; [done|apply Hw]. }
  destruct e; simpl; [done| |case_match; [apply Hw|done]..].
  etrans; [|apply Hs]. by case_match.
Qed.

Lemma steps_policy (P : Policy → Policy → Prop) `{!Reflexive P, !Transitive P} hr hr' :
  (∀ p names, P p (WithFixOverride p names)) →
  (∀ p data, Validate (applyConfigMapData p data) = None → P p (applyConfigMapData p data)) →
  rtc hr_step hr hr' → P (hr_policy hr) (hr_policy hr').
Proof.
  intros Hw Ha. induction 1 as [|h1 h2 h3 [e ->] _ IH]; [done|].
  transitivity (hr_policy (on_event h1 e)); [|exact IH].
  by apply (on_event_policy P).
Qed.

(** C12: Whatever ConfigMaps are added, edited or deleted, and whatever the
    dashboard chooses, a namespace the agent may act in was granted by the
    chart at start: it is in [FIX_CEILING] (or not a system namespace, when
    [FIX_ANYWHERE] was set) and is not the empty name of cluster-scoped
    objects. *)
Theorem reload_never_widens_grant p0 n cm scope hr ns :
  rtc hr_step (WatchScope (NewHotReloader p0 n cm) scope) hr →
  Fixable (hr_policy hr) ns = true →
  ns ≠ "" ∧ (if FixAnywhere p0 then ns ∉ System p0 else ns ∈ FixCeiling p0).
Proof.
  intros Hsteps Hf%Fixable_InCeiling%InCeiling_grant.
  assert (same_grant p0 (hr_policy hr)) as (-> & -> & ->); [|done].
  apply (steps_policy same_grant _ _ (λ _ _, conj eq_refl (conj eq_refl eq_refl))
    (λ _ _ _, conj eq_refl (conj eq_refl eq_refl)) Hsteps).
Qed.

Definition valid_mode (m : Mode) : Prop := m ∈ [Observe; Suggest; Fix; DryRun].

Lemma Validate_WithFixOverride p names : Validate (WithFixOverride p names) = Validate p.
Proof. done. Qed.

(** Every snapshot the reloader ever serves passes [Validate] and has
    one of the four modes, when the initial one does: an invalid edit of the
    ConfigMap keeps the policy in force. *)
Theorem reload_serves_valid p0 n cm hr :
  Validate p0 = None → valid_mode (Mode_ p0) →
  rtc hr_step (NewHotReloader p0 n cm) hr →
  Validate (hr_policy hr) = None ∧ valid_mode (Mode_ (hr_policy hr)).
Proof.
  intros Hv Hm Hsteps.
  pose (P := λ p q : Policy,
    (Validate p = None → Validate q = None) ∧ (valid_mode (Mode_ p) → valid_mode (Mode_ q))).
  assert (PreOrder P) as [??].
  { split; [by split|]. intros ??? [??] [??]. split; auto. }
  enough (P p0 (hr_policy hr)) as [??] by auto.
  refine (steps_policy P _ _ _ _ Hsteps); [by split|].
  intros p data Hd. split; [done|]. intros Hp. simpl. by case_bool_decide.
Qed.

(** What an event says about the dashboard's choice, if anything. *)
Definition scope_said (scopeMap : string) (e : hr_event) : option (option (list string)) :=
  match e with
  | EvAdd cm | EvUpdate cm =>
    if str_eqb (cm_Name cm) scopeMap then Some (ScopeChoice (cm_Data cm)) else None
  | EvDelete cm => if str_eqb (cm_Name cm) scopeMap then Some None else None
  | EvSynced exists_ => if exists_ then None else Some None
  end.
Definition last_said (scopeMap : string) (init : option (list string)) (es : list hr_event)
  : option (list string) :=
  foldl (λ acc e, default acc (scope_said scopeMap e)) init es.

Lemma on_event_scopeMap hr e : hr_scopeMap (on_event hr e) = hr_scopeMap hr.
Proof.
  destruct e; simpl; unfold applyScope, setScope; repeat case_match; done.
Qed.

Lemma reload_FixOverride hr data :
  FixOverride (hr_policy (reload hr data)) = FixOverride (hr_policy hr).
Proof. unfold reload. simpl. by case_match. Qed.

Lemma reload_scopeMap hr data : hr_scopeMap (reload hr data) = hr_scopeMap hr.
Proof. done. Qed.

Lemma applyScope_FixOverride hr cm :
  hr_scopeMap hr ≠ "" →
  FixOverride (hr_policy (applyScope hr cm))
  = if str_eqb (cm_Name cm) (hr_scopeMap hr)
    then NamespaceSet <$> ScopeChoice (cm_Data cm) else FixOverride (hr_policy hr).
Proof.
  intros Hne. apply str_eqb_ne in Hne. unfold applyScope. rewrite Hne, orb_false_l.
  by destruct (str_eqb (cm_Name cm) _).
Qed.

Lemma on_event_FixOverride hr e :
  hr_scopeMap hr ≠ "" →
  FixOverride (hr_policy (on_event hr e))
  = match scope_said (hr_scopeMap hr) e with
    | Some c => NamespaceSet <$> c
    | None => FixOverride (hr_policy hr)
    end.
Proof.
  intros Hne. assert (str_eqb (hr_scopeMap hr) "" = false) as Hf by by apply str_eqb_ne.
  destruct e as [cm|cm|cm|b]; simpl.
  - rewrite applyScope_FixOverride by done. by case_match.
  - rewrite applyScope_FixOverride by by case_match.
    destruct (str_eqb (cm_Name cm) (hr_configMap hr));
      rewrite ?reload_scopeMap, ?reload_FixOverride; by case_match.
  - rewrite Hf. simpl. by case_match.
  - rewrite Hf. by destruct b.
Qed.

(** The dashboard's fix scope is decided by the last event about it
    alone: edits of the policy ConfigMap, valid or not, in any order and
    number, neither apply nor undo a choice.  Before the first such event
    the scope is empty, so the agent acts nowhere until its choice has been
    read. *)
Theorem scope_choice_last_wins p0 n cm scope es :
  scope ≠ "" →
  let hr := foldl on_event (WatchScope (NewHotReloader p0 n cm) scope) es in
  FixOverride (hr_policy hr) = NamespaceSet <$> last_said scope (Some []) es
  ∧ (Forall (λ e, scope_said scope e = None) es →
     ∀ ns, Fixable (hr_policy hr) ns = false).
Proof.
  intros Hne hr.
  assert (FixOverride (hr_policy hr) = NamespaceSet <$> last_said scope (Some []) es
    ∧ hr_scopeMap hr = scope) as [Ho _].
  { subst hr. induction es as [|e es IH] using rev_ind; [done|].
    unfold last_said in *. rewrite !foldl_app. simpl. destruct IH as [IH Hs].
    rewrite on_event_scopeMap, Hs. split; [|done].
    rewrite on_event_FixOverride by by rewrite Hs. rewrite Hs, IH.
    by destruct (scope_said scope e). }
  split; [done|]. intros Hnone ns.
  assert (last_said scope (Some []) es = Some []) as Hl.
  { clear Ho hr. unfold last_said. induction es as [|e es IH] using rev_ind; [done|].
    apply Forall_app in Hnone as [? [He _]%Forall_cons].
    rewrite foldl_app. simpl. rewrite He. simpl. auto. }
  unfold Fixable, fixChoice. rewrite Ho, Hl. apply andb_false_r.
Qed.

(** ** Loading *)

Lemma Validate_replicas p : Validate p = None → MinReplicas p ≤ MaxReplicas p.
Proof. unfold Validate. intros. repeat (case_match; try done). lia. Qed.
Lemma parseNamespaceList_empty : parseNamespaceList "" = ∅.
Proof. by vm_compute. Qed.

(** A policy that loads is usable: it passes [Validate], its mode is one
    of the four, its replica bounds fit 32 bits and no dashboard choice is in
    force; and where neither [FIX_NAMESPACES] nor [NAMESPACE_ALLOWLIST] is
    set its fix scope is empty. *)
Theorem Load_sound get p :
  Load get = inl p →
  Validate p = None ∧ valid_mode (Mode_ p)
  ∧ int32_ok (MinReplicas p) ∧ int32_ok (MaxReplicas p) ∧ MinReplicas p ≤ MaxReplicas p
  ∧ FixOverride p = None
  ∧ (get "FIX_NAMESPACES" = "" → get "NAMESPACE_ALLOWLIST" = "" → FixScope p = []).
Proof.
  unfold Load. intros H. destruct (Validate _) eqn:Hv in H; [done|]. simplify_eq.
  split; [exact Hv|]. simpl. split.
  { unfold loadMode, valid_mode. case_bool_decide; [done|set_solver]. }
  split; [apply wrap32_ok|]. split; [apply wrap32_ok|].
  split; [exact (Validate_replicas _ Hv)|].
  split; [done|]. intros Hf Hl. unfold FixScope, fixChoice, loadScope, envReader.str. simpl.
  rewrite Hf, Hl. change (str_eqb "" "") with true. cbv iota.
  by rewrite parseNamespaceList_empty.
Qed.

(** [SCALE_CPU_THRESHOLD=NaN] passes [Validate]: both of its comparisons
    are false on a NaN. *)
Example Load_accepts_NaN_threshold :
  match Load (λ k, if str_eqb k "SCALE_CPU_THRESHOLD" then "NaN" else "") with
  | inl p => CPUThreshold p = S754_nan
  | inr _ => False
  end.
Proof. vm_compute. reflexivity. Qed.

(** A 64-bit [MAX_REPLICAS] is cut to its low 32 bits before it is
    validated: 2^32 + 7 loads as 7. *)
Example Load_truncates_MAX_REPLICAS :
  match Load (λ k, if str_eqb k "MAX_REPLICAS" then "4294967303" else "") with
  | inl p => MaxReplicas p = 7
  | inr _ => False
  end.
Proof. vm_compute. reflexivity. Qed.

(** ** A concrete policy for the witnesses *)
Module Demo.
Definition policy : Policy := {|
  Mode_ := Fix; HPACoexistence := true; CPUThreshold := f64_const 8 1;
  ScaleWindow := "5m"; MaxScaleStep := 2; MaxActionsPer10m := 10;
  ExcludedAnnotation := "auto-agent.io/disable"; LLMEnabled := false; LogLevel := "info";
  CooldownUp := "2m"; CooldownDown := "10m"; MaxReplicas := 50; MinReplicas := 1;
  DedupTTLSeconds := 300; LLMTimeoutSec := 10; SlackTimeoutSec := 5;
  WatchAll := true; WatchNamespaces := ∅;
  System := NamespaceSet systemNamespaces;
  FixNamespaces := NamespaceSet ["shop"; "pay"];
  FixCeiling := NamespaceSet ["shop"; "pay"; "web"];
  FixAnywhere := false; FixOverride := None |}.
Definition choose (v : string) : hr_event :=
  EvUpdate (mkConfigMap ScopeConfigMap {[ ScopeKey := v ]}).
Definition edit (k v : string) : hr_event :=
  EvUpdate (mkConfigMap "agent-config" {[ k := v ]}).
Definition start : HotReloader :=
  WatchScope (NewHotReloader policy "auto-agent" "agent-config") ScopeConfigMap.
End Demo.

Lemma reload_never_widens_grant_witness :
  let hr := on_event Demo.start (Demo.choose "web,kube-system,other") in
  FixScope (hr_policy hr) = ["web"] ∧ "web" ∈ FixCeiling Demo.policy.
Proof.
  intros hr. split; [vm_compute; reflexivity|].
  refine (proj2 (reload_never_widens_grant Demo.policy "auto-agent" "agent-config"
    ScopeConfigMap hr "web" _ _)).
  - apply rtc_once. by eexists.
  - vm_compute. reflexivity.
Defined.

Lemma reload_serves_valid_witness :
  let hr0 := NewHotReloader Demo.policy "auto-agent" "agent-config" in
  let hr := on_event hr0 (Demo.edit "MAX_SCALE_STEP" "0") in
  Validate Demo.policy = None ∧ Validate (hr_policy hr) = None ∧ MaxScaleStep (hr_policy hr) = 2.
Proof.
  intros hr0 hr. split; [vm_compute; reflexivity|]. split; [|vm_compute; reflexivity].
  refine (proj1 (reload_serves_valid Demo.policy "auto-agent" "agent-config" hr _ _ _)).
  - vm_compute. reflexivity.
  - apply (bool_decide_unpack _). vm_compute. exact I.
  - apply rtc_once. by eexists.
Defined.

Lemma scope_choice_last_wins_witness :
  let es := [Demo.choose "web"; Demo.edit "AUTO_MODE" "fix"; Demo.choose "pay";
             Demo.edit "FIX_NAMESPACES" "shop"] in
  let hr := foldl on_event Demo.start es in
  FixOverride (hr_policy hr) = Some (NamespaceSet ["pay"]).
Proof.
  intros es hr.
  refine (proj1 (scope_choice_last_wins Demo.policy "auto-agent" "agent-config"
    ScopeConfigMap es _)).
  discriminate.
Defined.

Lemma Load_sound_witness :
  ∃ p, Load (λ _, "") = inl p ∧ Mode_ p = DryRun ∧ FixScope p = [].
Proof.
  eexists. split; [vm_compute; reflexivity|]. split; [vm_compute; reflexivity|].
  apply (Load_sound (λ _, "")); vm_compute; reflexivity.
Defined.
