(* ===== verification/Config.v ===== *)
(** * Configuration: internal/config/config.go, check.go

    The settings the agent reads from its environment.  A reading is a
    function of the environment that also gives the variables it asks for, in
    order; [Load], [Names], [UnknownKeys] and [Describe] follow the code on
    them.  The regular expressions of check.go are written as readers. *)
From S2P Require Import Prelude GoStd Policy.
From Stdlib Require Import Ascii SpecFloat.
#[local] Open Scope Z_scope.

(** ** Readings *)

Definition reading (A : Type) : Type := Getenv → list string * A.
Definition rd_ret {A} (a : A) : reading A := λ _, ([], a).
Definition rd_bind {A B} (m : reading A) (f : A → reading B) : reading B :=
  λ get, let r := m get in let r' := f r.2 get in (r.1 ++ r'.1, r'.2).
Declare Scope reading_scope.
Delimit Scope reading_scope with reading.
Notation "'ask!' x ':=' m 'in' k" := (rd_bind m (λ x, k))
  (at level 200, x pattern, m at level 100, k at level 200, right associativity) : reading_scope.
#[local] Open Scope reading_scope.
(** The value of one variable. *)
Definition rd_get (key : string) : reading string := λ get, ([key], get key).

Definition float32 : Type := spec_float.
Definition f32_of_Z (z : Z) : float32 := binary_normalize 24 128 z 0 false.

(** [reader]: one method per kind of setting. *)
Module reader.
Definition str (key def : string) : reading string :=
  ask! v := rd_get key in rd_ret (if str_eqb v "" then def else v).
(** What a value reads as, or the default. *)
Definition positive_of (v : string) (def : Z) : Z :=
  match strconv_Atoi v with Some n => if n <=? 0 then def else n | None => def end.
Definition positiveInt (key : string) (def : Z) : reading Z :=
  ask! v := rd_get key in rd_ret (positive_of v def).
Definition duration_of (v : string) (def : Duration) : Duration :=
  match time_ParseDuration v with Some d => if d <=? 0 then def else d | None => def end.
Definition duration (key : string) (def : Duration) : reading Duration :=
  ask! v := rd_get key in rd_ret (duration_of v def).
Definition boolean (key : string) (def : bool) : reading bool :=
  ask! v := rd_get key in rd_ret (match strconv_ParseBool v with Some b => b | None => def end).
(** The warning about a value that is not allowed is a log line. *)
Definition one_of (v def : string) (allowed : list string) : string :=
  let v := strings_TrimSpace v in
  if str_eqb v "" then def else if bool_decide (v ∈ allowed) then v else def.
Definition oneOf (key def : string) (allowed : list string) : reading string :=
  ask! v := rd_get key in rd_ret (one_of v def allowed).
Definition list_of (v : string) : list string :=
  filter (λ x, str_eqb x "" = false) (strings_TrimSpace <$> strings_Split v ","%char).
Definition list (key : string) : reading (Datatypes.list string) :=
  ask! v := rd_get key in rd_ret (list_of v).
Definition add_pair (out : gmap string string) (kv : string) : gmap string string :=
  match strings_cut kv "="%char with
  | Some (k, v) =>
      if str_eqb (strings_TrimSpace k) "" then out
      else <[strings_TrimSpace k := strings_TrimSpace v]> out
  | None => out
  end.
Definition pairs (key : string) : reading (gmap string string) :=
  ask! l := list key in rd_ret (foldl add_pair ∅ l).
(** A setting that is on, or off, only for one value. *)
Definition is_true (key : string) : reading bool :=
  ask! v := str key "" in rd_ret (str_eqb v "true").
Definition not_false (key : string) : reading bool :=
  ask! v := str key "" in rd_ret (negb (str_eqb v "false")).
End reader.

(** ** The configuration *)

Module config.
Definition RoleAll : string := "all".
Definition RoleNode : string := "node".
Definition RoleController : string := "controller".
Definition DefaultLogDir : string := "/var/log/auto-agent".

Record Reload := mkReload { rl_Enabled : bool; rl_Secrets : bool; rl_On : string; rl_Debounce : Duration }.
Record Probes := mkProbes {
  pr_Interval : Duration; pr_DNS : bool; pr_ClusterDomain : string; pr_ExternalName : string;
  pr_Services : bool; pr_EgressTarget : string }.
Record Approvals := mkApprovals { ap_TTL : Duration; ap_Approvers : list string }.
Record ScalingGates := mkGates { gt_QueueDepth : string; gt_ErrorRate : string; gt_P95Latency : string }.
Definition Configured (g : ScalingGates) : bool :=
  negb (str_eqb (gt_QueueDepth g) "") || negb (str_eqb (gt_ErrorRate g) "") || negb (str_eqb (gt_P95Latency g) "").
Record Storage := mkStorage { so_Store : string; so_EFSPath : string; so_S3Bucket : string; so_S3Prefix : string }.
Record Webhook := mkWebhook {
  wh_CertFile : string; wh_KeyFile : string; wh_RequireLimits : bool; wh_RequireReadiness : bool;
  wh_BlockedImages : list string }.
Definition Enabled (w : Webhook) : bool := negb (str_eqb (wh_CertFile w) "") && negb (str_eqb (wh_KeyFile w) "").
Record Escalation := mkEscalation {
  es_PagerDutyRoutingKey : string; es_OpsGenieAPIKey : string; es_SMTPHost : string; es_SMTPPort : string;
  es_SMTPUser : string; es_SMTPPass : string; es_SMTPFrom : string; es_EmailTo : string }.
Record Cost := mkCost {
  co_CPUPerHour : string; co_MemPerGiBHour : string; co_Currency : string; co_InstancePrices : string;
  co_KubecostURL : string; co_OpenCostURL : string }.

Record Config := mkConfig {
  c_Policy : Policy; NodeName : string; PodName : string; PodNamespace : string;
  c_Reload : Reload; c_Probes : Probes;
  ImageMirrorEnabled : bool; ImageMirrorPrefix : string; ImageMirrorAllowList : list string;
  TracingEnabled : bool; TracingEndpoint : string; c_Approvals : Approvals;
  APIQPS : float32; APIBurst : Z; Role : string; ControllerURL : string; InternalToken : string;
  BlastRadiusMaxNamespaces : Z; HousekeepingMaxPer10m : Z; CircuitBreakerThreshold : Z;
  QuietHours : string; LeaderLeaseNamespace : string;
  ScaleInterval : Duration; JobInterval : Duration; QuotaInterval : Duration; HealthInterval : Duration;
  c_ScalingGates : ScalingGates; MetricsProvider : string; PrometheusURL : string;
  SlackWebhookURL : string; SlackChannelWebhooks : gmap string string; SlackSigningSecret : string;
  AlertmanagerURL : string; LLMAPIURL : string; LLMAPIKey : string; LLMModel : string;
  TicketsEnabled : bool; TicketsProvider : string; GitHubRepo : string; GitHubToken : string;
  JiraBaseURL : string; JiraProjectKey : string; JiraToken : string; JiraEmail : string;
  GitToken : string; GitOpsRepo : string; GitOpsBranch : string; GitOpsMode : string;
  GitOpsValuesFile : string; GitOpsAuthorName : string; GitOpsAuthorEmail : string; GitOpsProvider : string;
  c_Storage : Storage; LogRetentionDays : Z; AuditLogPath : string; LogFormat : string;
  DashboardToken : string; TLSCertCheck : bool; c_Webhook : Webhook; c_Escalation : Escalation;
  LearningEnabled : bool; LearningPeriodDays : Z; c_Cost : Cost
}.

(** The variables [policy.Load] reads, in its order; [policy_reads] below
    shows it depends on no other. *)
Definition policy_keys : list string := [
  "AUTO_MODE"; "HPA_COEXISTENCE"; "SCALE_CPU_THRESHOLD"; "SCALE_WINDOW"; "MAX_SCALE_STEP"; "MAX_ACTIONS_PER_10M";
  "EXCLUDED_ANNOTATION"; "LLM_ENABLED"; "LOG_LEVEL"; "COOLDOWN_UP"; "COOLDOWN_DOWN"; "MAX_REPLICAS"; "MIN_REPLICAS";
  "DEDUP_TTL_SECONDS"; "LLM_TIMEOUT_SEC"; "SLACK_TIMEOUT_SEC"; "POD_NAMESPACE"; "NAMESPACE_ALLOWLIST";
  "WATCH_NAMESPACES"; "FIX_NAMESPACES"; "FIX_CEILING"; "FIX_ANYWHERE"].
Definition policy_Load : reading (Policy + validate_error) := λ get, (policy_keys, Policy.Load get).

(** The settings besides the policy, in the order [Load] reads them. *)
Definition settings (p : Policy) : reading Config :=
  ask! NodeName' := reader.str "NODE_NAME" "" in
  ask! PodName' := reader.str "POD_NAME" "" in
  ask! PodNamespace' := reader.str "POD_NAMESPACE" "" in
  ask! Reload_Enabled' := reader.boolean "RELOAD_ENABLED" true in
  ask! Reload_Secrets' := reader.boolean "RELOAD_SECRETS" false in
  ask! Reload_On' := reader.str "RELOAD_ON" "auto" in
  ask! Reload_Debounce' := reader.duration "RELOAD_DEBOUNCE" (10 * second) in
  ask! Probes_Interval' := reader.duration "NET_PROBE_INTERVAL" minute in
  ask! Probes_DNS' := reader.boolean "DNS_PROBE_ENABLED" true in
  ask! Probes_ClusterDomain' := reader.str "DNS_CLUSTER_DOMAIN" "cluster.local" in
  ask! Probes_ExternalName' := reader.str "DNS_PROBE_EXTERNAL" "" in
  ask! Probes_Services' := reader.boolean "SERVICE_PROBE_ENABLED" false in
  ask! Probes_EgressTarget' := reader.str "EGRESS_PROBE_TARGET" "" in
  ask! ImageMirrorEnabled' := reader.boolean "IMAGE_MIRROR_ENABLED" false in
  ask! ImageMirrorPrefix' := reader.str "IMAGE_MIRROR_PREFIX" "" in
  ask! ImageMirrorAllowList' := reader.list "IMAGE_MIRROR_ALLOWLIST" in
  ask! TracingEnabled' := reader.boolean "TRACING_ENABLED" false in
  ask! TracingEndpoint' := reader.str "TRACING_ENDPOINT" "" in
  ask! Approvals_TTL' := reader.duration "APPROVAL_TTL" (30 * minute) in
  ask! Approvals_Approvers' := reader.list "APPROVAL_GROUPS" in
  ask! APIQPS' := reader.positiveInt "KUBE_API_QPS" 50 in
  ask! APIBurst' := reader.positiveInt "KUBE_API_BURST" 100 in
  ask! Role' := reader.str "AGENT_ROLE" RoleAll in
  ask! ControllerURL' := reader.str "CONTROLLER_URL" "" in
  ask! InternalToken' := reader.str "INTERNAL_TOKEN" "" in
  ask! BlastRadiusMaxNamespaces' := reader.positiveInt "BLAST_RADIUS_MAX_NAMESPACES" 5 in
  ask! HousekeepingMaxPer10m' := reader.positiveInt "HOUSEKEEPING_MAX_ACTIONS_PER_10M" 10 in
  ask! CircuitBreakerThreshold' := reader.positiveInt "CIRCUIT_BREAKER_THRESHOLD" 5 in
  ask! QuietHours' := reader.str "QUIET_HOURS" "" in
  ask! LeaderLeaseNamespace' := reader.str "LEADER_LEASE_NAMESPACE" "kube-system" in
  ask! ScaleInterval' := reader.duration "SCALE_INTERVAL" (30 * second) in
  ask! JobInterval' := reader.duration "JOB_INTERVAL" (2 * minute) in
  ask! QuotaInterval' := reader.duration "QUOTA_INTERVAL" (5 * minute) in
  ask! HealthInterval' := reader.duration "HEALTH_INTERVAL" (3 * minute) in
  ask! ScalingGates_QueueDepth' := reader.str "PROM_QUEUE_DEPTH" "" in
  ask! ScalingGates_ErrorRate' := reader.str "PROM_ERROR_RATE" "" in
  ask! ScalingGates_P95Latency' := reader.str "PROM_P95_LATENCY" "" in
  ask! MetricsProvider' := reader.str "METRICS_PROVIDER" "metrics-server" in
  ask! PrometheusURL' := reader.str "PROMETHEUS_URL" "" in
  ask! SlackWebhookURL' := reader.str "SLACK_WEBHOOK_URL" "" in
  ask! SlackChannelWebhooks' := reader.pairs "SLACK_CHANNEL_WEBHOOKS" in
  ask! SlackSigningSecret' := reader.str "SLACK_SIGNING_SECRET" "" in
  ask! AlertmanagerURL' := reader.str "ALERTMANAGER_URL" "" in
  ask! LLMAPIURL' := reader.str "LLM_API_URL" "" in
  ask! LLMAPIKey' := reader.str "LLM_API_KEY" "" in
  ask! LLMModel' := reader.str "LLM_MODEL" "" in
  ask! TicketsEnabled' := reader.is_true "TICKETS_ENABLED" in
  ask! TicketsProvider' := reader.str "TICKETS_PROVIDER" "" in
  ask! GitHubRepo' := reader.str "GITHUB_REPO" "" in
  ask! GitHubToken' := reader.str "GITHUB_TOKEN" "" in
  ask! JiraBaseURL' := reader.str "JIRA_BASE_URL" "" in
  ask! JiraProjectKey' := reader.str "JIRA_PROJECT_KEY" "" in
  ask! JiraToken' := reader.str "JIRA_TOKEN" "" in
  ask! JiraEmail' := reader.str "JIRA_EMAIL" "" in
  ask! GitToken' := reader.str "GIT_TOKEN" "" in
  ask! GitOpsRepo' := reader.str "GITOPS_REPO" "" in
  ask! GitOpsBranch' := reader.str "GITOPS_BRANCH" "" in
  ask! GitOpsMode' := reader.oneOf "GITOPS_MODE" "pr" ["pr"; "live"] in
  ask! GitOpsValuesFile' := reader.str "GITOPS_VALUES_FILE" "" in
  ask! GitOpsAuthorName' := reader.str "GITOPS_AUTHOR_NAME" "" in
  ask! GitOpsAuthorEmail' := reader.str "GITOPS_AUTHOR_EMAIL" "" in
  ask! GitOpsProvider' := reader.str "GITOPS_PROVIDER" "github" in
  ask! Storage_Store' := reader.str "LOG_STORE" "" in
  ask! Storage_EFSPath' := reader.str "LOG_EFS_PATH" DefaultLogDir in
  ask! Storage_S3Bucket' := reader.str "LOG_S3_BUCKET" "" in
  ask! Storage_S3Prefix' := reader.str "LOG_S3_PREFIX" "" in
  ask! LogRetentionDays' := reader.positiveInt "LOG_RETENTION_DAYS" 7 in
  ask! AuditLogPath' := reader.str "AUDIT_LOG_PATH" (DefaultLogDir +:+ "/audit.jsonl") in
  ask! LogFormat' := reader.str "LOG_FORMAT" "text" in
  ask! DashboardToken' := reader.str "DASHBOARD_TOKEN" "" in
  ask! TLSCertCheck' := reader.is_true "TLS_CERT_CHECK" in
  ask! Webhook_CertFile' := reader.str "WEBHOOK_CERT_FILE" "" in
  ask! Webhook_KeyFile' := reader.str "WEBHOOK_KEY_FILE" "" in
  ask! Webhook_RequireLimits' := reader.not_false "WEBHOOK_REQUIRE_LIMITS" in
  ask! Webhook_RequireReadiness' := reader.not_false "WEBHOOK_REQUIRE_READINESS" in
  ask! Webhook_BlockedImages' := reader.list "WEBHOOK_BLOCKED_IMAGES" in
  ask! Escalation_PagerDutyRoutingKey' := reader.str "PAGERDUTY_ROUTING_KEY" "" in
  ask! Escalation_OpsGenieAPIKey' := reader.str "OPSGENIE_API_KEY" "" in
  ask! Escalation_SMTPHost' := reader.str "SMTP_HOST" "" in
  ask! Escalation_SMTPPort' := reader.str "SMTP_PORT" "" in
  ask! Escalation_SMTPUser' := reader.str "SMTP_USER" "" in
  ask! Escalation_SMTPPass' := reader.str "SMTP_PASS" "" in
  ask! Escalation_SMTPFrom' := reader.str "SMTP_FROM" "" in
  ask! Escalation_EmailTo' := reader.str "ESCALATION_EMAIL_TO" "" in
  ask! LearningEnabled' := reader.is_true "LEARNING_ENABLED" in
  ask! LearningPeriodDays' := reader.positiveInt "LEARNING_PERIOD_DAYS" 14 in
  ask! Cost_CPUPerHour' := reader.str "COST_CPU_PER_HOUR" "" in
  ask! Cost_MemPerGiBHour' := reader.str "COST_MEM_PER_GIB_HOUR" "" in
  ask! Cost_Currency' := reader.str "COST_CURRENCY" "" in
  ask! Cost_InstancePrices' := reader.str "COST_INSTANCE_PRICES" "" in
  ask! Cost_KubecostURL' := reader.str "KUBECOST_URL" "" in
  ask! Cost_OpenCostURL' := reader.str "OPENCOST_URL" "" in
  rd_ret (mkConfig p NodeName' PodName' PodNamespace' (mkReload Reload_Enabled' Reload_Secrets' Reload_On'
    Reload_Debounce') (mkProbes Probes_Interval' Probes_DNS' Probes_ClusterDomain' Probes_ExternalName'
    Probes_Services' Probes_EgressTarget') ImageMirrorEnabled' ImageMirrorPrefix' ImageMirrorAllowList'
    TracingEnabled' TracingEndpoint' (mkApprovals Approvals_TTL' Approvals_Approvers') (f32_of_Z APIQPS')
    APIBurst' Role' ControllerURL' InternalToken' BlastRadiusMaxNamespaces' HousekeepingMaxPer10m'
    CircuitBreakerThreshold' QuietHours' LeaderLeaseNamespace' ScaleInterval' JobInterval' QuotaInterval'
    HealthInterval' (mkGates ScalingGates_QueueDepth' ScalingGates_ErrorRate' ScalingGates_P95Latency')
    MetricsProvider' PrometheusURL' SlackWebhookURL' SlackChannelWebhooks' SlackSigningSecret'
    AlertmanagerURL' LLMAPIURL' LLMAPIKey' LLMModel' TicketsEnabled' TicketsProvider' GitHubRepo' GitHubToken'
    JiraBaseURL' JiraProjectKey' JiraToken' JiraEmail' GitToken' GitOpsRepo' GitOpsBranch' GitOpsMode'
    GitOpsValuesFile' GitOpsAuthorName' GitOpsAuthorEmail' GitOpsProvider' (mkStorage Storage_Store'
    Storage_EFSPath' Storage_S3Bucket' Storage_S3Prefix') LogRetentionDays' AuditLogPath' LogFormat'
    DashboardToken' TLSCertCheck' (mkWebhook Webhook_CertFile' Webhook_KeyFile' Webhook_RequireLimits'
    Webhook_RequireReadiness' Webhook_BlockedImages') (mkEscalation Escalation_PagerDutyRoutingKey'
    Escalation_OpsGenieAPIKey' Escalation_SMTPHost' Escalation_SMTPPort' Escalation_SMTPUser'
    Escalation_SMTPPass' Escalation_SMTPFrom' Escalation_EmailTo') LearningEnabled' LearningPeriodDays'
    (mkCost Cost_CPUPerHour' Cost_MemPerGiBHour' Cost_Currency' Cost_InstancePrices' Cost_KubecostURL'
    Cost_OpenCostURL')).
(** [Load]; [inr] is the [klog.Fatalf] of the policy, which ends the process
    before anything else is read. *)
Definition Load : reading (Config + validate_error) :=
  ask! p := policy_Load in
  match p with
  | inl p => ask! c := settings p in rd_ret (inl c)
  | inr e => rd_ret (inr e)
  end.

(** [Names]: what [Load] asks a getter that answers nothing, each name
    once. *)
Definition first_seen (l : list string) : list string :=
  foldl (λ names k, if bool_decide (k ∈ names) then names else names ++ [k]) [] l.
Definition Names : list string := first_seen (Load (λ _, "")).1.

(** ** Log level *)

(** [strings.ToLower], as far as a comparison with ASCII text tells: the two
    other characters whose lower case is an ASCII letter are U+0130 and
    U+212A. *)
Fixpoint to_lower (s : string) : string :=
  match s with
  | String "196" (String "176" s') => String "i" (to_lower s')
  | String "226" (String "132" (String "170" s')) => String "k" (to_lower s')
  | String c s' => String (lower_ascii c) (to_lower s')
  | EmptyString => ""
  end.
Definition KlogVerbosity (level : string) : option Z :=
  let l := to_lower (strings_TrimSpace level) in
  if bool_decide (l ∈ [""; "error"; "warn"; "warning"; "info"]) then Some 0
  else if str_eqb l "debug" then Some 4
  else if str_eqb l "trace" then Some 6
  else match strconv_Atoi (strings_TrimSpace level) with
       | Some n => if (n <? 0) || (10 <? n) then None else Some n
       | None => None
       end.

(** ** check-config *)

Definition is_upper (c : ascii) : bool := let n := N_of_ascii c in ((65 <=? n) && (n <=? 90))%N.
Definition is_dec (c : ascii) : bool := let n := N_of_ascii c in ((48 <=? n) && (n <=? 57))%N.
Definition is_word (c : ascii) : bool := is_upper c || is_dec c || bool_decide (c = "_"%char).
Fixpoint every (f : ascii → bool) (s : string) : bool :=
  match s with EmptyString => true | String c s' => f c && every f s' end.
(** One or more characters. *)
Definition some_of (f : ascii → bool) (s : string) : bool := negb (str_eqb s "") && every f s.
(** A suffix of the text that a matcher accepts whole. *)
Fixpoint ends_as (f : string → bool) (s : string) : bool :=
  f s || match s with EmptyString => false | String _ s' => ends_as f s' end.
(** What follows a prefix. *)
Definition after (p s : string) : option string :=
  if strings_HasPrefix s p then Some (str_drop (String.length p) s) else None.
Definition after_then (p : string) (f : string → bool) (s : string) : bool :=
  match after p s with Some s' => f s' | None => false end.

(** [^[A-Z][A-Z0-9_]*$] *)
Definition settingName (k : string) : bool :=
  match k with String c k' => is_upper c && every is_word k' | EmptyString => false end.
(** [TOKEN|SECRET|PASSWORD|API_KEY|ROUTING_KEY|WEBHOOK_URL|_DSN$] *)
Definition secretName (k : string) : bool :=
  existsb (strings_Contains k) ["TOKEN"; "SECRET"; "PASSWORD"; "API_KEY"; "ROUTING_KEY"; "WEBHOOK_URL"]
  || strings_HasSuffix k "_DSN".
(** The three alternatives of [platformName]: the names of the runtime, and
    the two shapes of a service link. *)
Definition runtimeName (k : string) : bool :=
  bool_decide (k ∈ ["PATH"; "HOME"; "HOSTNAME"; "TERM"; "SHLVL"; "PWD"; "OLDPWD"; "USER"; "SHELL"; "TMPDIR"; "LANG";
                    "TZ"; "KUBECONFIG"; "SSL_CERT_FILE"; "SSL_CERT_DIR"])
  || after_then "LC_" (some_of is_upper) k.
Definition or_end (f : string → bool) (s : string) : bool := str_eqb s "" || f s.
Definition service_link (s : string) : bool :=
  existsb (λ p, after_then p (or_end (after_then "_" (some_of is_word))) s) ["_SERVICE_HOST"; "_SERVICE_PORT"].
Fixpoint digits_then (f : string → bool) (s : string) : bool :=
  match s with
  | String c s' => is_dec c && (f s' || digits_then f s')
  | EmptyString => false
  end.
Definition protocol_part (s : string) : bool :=
  existsb (λ p, after_then p (or_end (after_then "_" (some_of is_upper))) s) ["_TCP"; "_UDP"; "_SCTP"].
Definition port_link (s : string) : bool := after_then "_PORT" (or_end (after_then "_" (digits_then protocol_part))) s.
Definition platformName (k : string) : bool := runtimeName k || ends_as service_link k || ends_as port_link k.

Definition Reserved : list string := [].
(** The key of a [KEY=value] entry. *)
Definition key_of (kv : string) : string := match strings_cut kv "="%char with Some (k, _) => k | None => kv end.
Definition unknown (k : string) : bool :=
  settingName k && negb (bool_decide (k ∈ Names ++ Reserved)) && negb (platformName k).
Definition UnknownKeys (env : list string) : list string := sort_strings (filter (λ k, unknown k = true) (key_of <$> env)).

(** What [Describe] shows of a value. *)
Definition shown (n v : string) : string :=
  if str_eqb v "" then "(unset: default)" else if secretName n then "(set, redacted)" else v.
Definition Describe (get : Getenv) : list string := (λ n, n +:+ "=" +:+ shown n (get n)) <$> Names.

Example config_run :
  length Names = 113%nat
  ∧ UnknownKeys ["LOG_LEVLE=debug"; "PATH=/bin"; "WEB_SERVICE_HOST=10.0.0.1"; "API_PORT_8080_TCP_ADDR=10.0.0.2"; "LOG_LEVEL=info"; "lower=1"]
    = ["LOG_LEVLE"]
  ∧ KlogVerbosity " Debug" = Some 4 ∧ KlogVerbosity "11" = None.
Proof. vm_compute. done. Qed.
End config.

(** ** Logic of readings

    [reads m ks]: [m] asks for [ks], whatever the answers, and depends on
    nothing else.  [gives get m P]: what it gives in an environment
    satisfies [P]. *)
Definition agree_on (ks : list string) (get get' : Getenv) : Prop := ∀ k, k ∈ ks → get k = get' k.
Definition reads {A} (m : reading A) (ks : list string) : Prop :=
  (∀ get, (m get).1 = ks) ∧ ∀ get get', agree_on ks get get' → (m get).2 = (m get').2.
Definition gives {A} (get : Getenv) (m : reading A) (P : A → Prop) : Prop := P (m get).2.

Lemma agree_app ks ks' get get' : agree_on (ks ++ ks') get get' ↔ agree_on ks get get' ∧ agree_on ks' get get'.
Proof. unfold agree_on. set_solver. Qed.
Lemma reads_ret {A} (a : A) : reads (rd_ret a) [].
Proof. done. Qed.
Lemma reads_get k : reads (rd_get k) [k].
Proof. split; [done|]. intros get get' H. apply H. left. Qed.
Lemma reads_bind {A B} (m : reading A) (f : A → reading B) ks ks' :
  reads m ks → (∀ a, reads (f a) ks') → reads (rd_bind m f) (ks ++ ks').
Proof.
  intros [H1 H2] Hf. split.
  - intros get. cbn. rewrite H1. f_equal. apply Hf.
  - intros get get' [Ha Ha']%agree_app. cbn. rewrite (H2 get get' Ha). by apply Hf.
Qed.
Lemma reads_of {A} k (f : string → A) : reads (rd_bind (rd_get k) (λ v, rd_ret (f v))) [k].
Proof. apply (reads_bind _ _ [k] []); [apply reads_get|]. intros v. apply reads_ret. Qed.
Lemma reading_then {A B} (m : reading A) (f : A → B) k :
  reads m [k] → reads (rd_bind m (λ v, rd_ret (f v))) [k].
Proof. intros H. apply (reads_bind _ _ [k] []); [done|]. intros v. apply reads_ret. Qed.
Lemma reads_cons {A B} (m : reading A) (f : A → reading B) k ks :
  reads m [k] → (∀ a, reads (f a) ks) → reads (rd_bind m f) (k :: ks).
Proof. apply (reads_bind m f [k]). Qed.

Lemma gives_ret {A} get (a : A) (P : A → Prop) : P a → gives get (rd_ret a) P.
Proof. done. Qed.
Lemma gives_bind {A B} get (m : reading A) (f : A → reading B) (P : A → Prop) (Q : B → Prop) :
  gives get m P → (∀ a, P a → gives get (f a) Q) → gives get (rd_bind m f) Q.
Proof. intros Hm Hf. apply Hf, Hm. Qed.
Lemma gives_any {A} get (m : reading A) : gives get m (λ _, True).
Proof. done. Qed.

(** *** The readers *)
Lemma reads_str k d : reads (reader.str k d) [k].
Proof. apply reads_of. Qed.
Lemma reads_positiveInt k d : reads (reader.positiveInt k d) [k].
Proof. apply reads_of. Qed.
Lemma reads_duration k d : reads (reader.duration k d) [k].
Proof. apply reads_of. Qed.
Lemma reads_boolean k d : reads (reader.boolean k d) [k].
Proof. apply reads_of. Qed.
Lemma reads_oneOf k d l : reads (reader.oneOf k d l) [k].
Proof. apply reads_of. Qed.
Lemma reads_list k : reads (reader.list k) [k].
Proof. apply reads_of. Qed.
Lemma reads_pairs k : reads (reader.pairs k) [k].
Proof. apply reading_then, reads_list. Qed.
Lemma reads_is_true k : reads (reader.is_true k) [k].
Proof. apply reading_then, reads_str. Qed.
Lemma reads_not_false k : reads (reader.not_false k) [k].
Proof. apply reading_then, reads_str. Qed.
Create HintDb readers.
#[export] Hint Resolve reads_str reads_positiveInt reads_duration reads_boolean reads_oneOf reads_list reads_pairs
  reads_is_true reads_not_false : readers.

Lemma policy_reads : reads config.policy_Load config.policy_keys.
Proof.
  split; [done|]. intros get get' H. unfold config.policy_Load, Policy.Load. cbn [snd].
  assert (∀ k, k ∈ config.policy_keys → get k = get' k) as Hk by exact H.
  unfold loadScope, envReader.str, envReader.bool, envReader.float, envReader.int.
  repeat match goal with
    |- context [get ?k] => rewrite (Hk k) by (apply (bool_decide_unpack _); vm_compute; exact I)
  end.
  done.
Qed.
Lemma settings_reads : ∃ ks, ∀ p, reads (config.settings p) ks.
Proof.
  eexists. intros p. unfold config.settings.
  repeat (apply reads_cons; [auto with readers|intros ?]). apply reads_ret.
Qed.

(** *** What the readers give *)
Definition pos_int (z : Z) : Prop := 0 < z ≤ max_int64.
(** An entry of a list: not blank, and with no white space around it. *)
Definition clean_entry (x : string) : Prop := x ≠ "" ∧ strings_TrimSpace x = x.

Lemma Atoi_range s n : strconv_Atoi s = Some n → int64_ok n.
Proof.
  unfold strconv_Atoi. destruct (match s with String _ _ => _ | EmptyString => _ end) as [z|]; [|done].
  destruct (_ && _) eqn:E; [|done]. intros [= ->]. unfold int64_ok, min_int64, max_int64 in *. blia.
Qed.
Lemma ParseDuration_max s d : time_ParseDuration s = Some d → d ≤ max_int64.
Proof.
  unfold time_ParseDuration. destruct (ParseFloat.signed s) as [neg t].
  case_bool_decide; [intros [= <-]; unfold max_int64; lia|]. case_bool_decide; [done|].
  destruct (ParseDuration.terms _ _ _) as [z|]; [|done]. destruct neg.
  - intros [= <-]. unfold wrap64, max_int64. pose proof (Z.mod_pos_bound (- z + 2 ^ 63) (2 ^ 64)). lia.
  - destruct (max_int64 <? z) eqn:E; [done|]. intros [= <-]. blia.
Qed.
(** A setting that has to be positive: the number (or the span of time) that
    its variable says, when that is positive, and else its default. *)
Definition positive_setting (parse : string → option Z) (get : Getenv) (key : string) (def v : Z) : Prop :=
  pos_int v
  ∧ ((∃ n, parse (get key) = Some n ∧ 0 < n ∧ v = n)
     ∨ (∀ n, parse (get key) = Some n → n ≤ 0) ∧ v = def).
Lemma gives_positiveInt get k d : pos_int d → gives get (reader.positiveInt k d) (positive_setting strconv_Atoi get k d).
Proof.
  intros Hd. unfold gives, positive_setting. cbn. unfold reader.positive_of.
  destruct (strconv_Atoi (get k)) as [n|] eqn:E; [|split; [done|by right]].
  destruct (n <=? 0) eqn:E0.
  - split; [done|]. right. split; [|done]. intros m [= <-]. blia.
  - split; [|left; exists n; split_and!; [done|blia|done]].
    apply Atoi_range in E. unfold pos_int, int64_ok, max_int64 in *. blia.
Qed.
Lemma gives_duration get k d : pos_int d → gives get (reader.duration k d) (positive_setting time_ParseDuration get k d).
Proof.
  intros Hd. unfold gives, positive_setting. cbn. unfold reader.duration_of.
  destruct (time_ParseDuration (get k)) as [n|] eqn:E; [|split; [done|by right]].
  destruct (n <=? 0) eqn:E0.
  - split; [done|]. right. split; [|done]. intros m [= <-]. blia.
  - split; [|left; exists n; split_and!; [done|blia|done]]. apply ParseDuration_max in E. unfold pos_int. blia.
Qed.
(** A choice: what the variable says but for white space around it, when that
    is allowed, and else the default. *)
Definition choice (get : Getenv) (key def : string) (l : list string) (v : string) : Prop :=
  (v = def ∨ v ∈ l) ∧ (v ≠ def → v = strings_TrimSpace (get key))
  ∧ (strings_TrimSpace (get key) ≠ "" → strings_TrimSpace (get key) ∈ l → v = strings_TrimSpace (get key)).
Lemma gives_oneOf get k d l : gives get (reader.oneOf k d l) (choice get k d l).
Proof.
  unfold gives, choice. cbn. unfold reader.one_of, str_eqb. case_bool_decide as E; [split_and!; [by left|done|done]|].
  case_bool_decide; [split_and!; [by right|done|done]|split_and!; [by left|done|done]].
Qed.
Lemma gives_str_default get k d : d ≠ "" → gives get (reader.str k d) (λ v, v ≠ "").
Proof. intros Hd. unfold gives. cbn. unfold str_eqb. by case_bool_decide. Qed.
Lemma list_of_clean v : Forall clean_entry (reader.list_of v).
Proof.
  apply Forall_forall. unfold reader.list_of. intros x [Hx (y & -> & _)%list_elem_of_fmap]%list_elem_of_filter.
  split; [|apply strings_TrimSpace_idemp]. intros E. rewrite E in Hx. done.
Qed.
Lemma gives_list get k : gives get (reader.list k) (Forall clean_entry).
Proof. apply list_of_clean. Qed.
Definition clean_pairs (m : gmap string string) : Prop := map_Forall (λ c v, clean_entry c ∧ strings_TrimSpace v = v) m.
Lemma add_pair_clean l m : clean_pairs m → clean_pairs (foldl reader.add_pair m l).
Proof.
  revert m. induction l as [|kv l IH]; intros m Hm; cbn [foldl]; [done|]. apply IH. unfold reader.add_pair.
  destruct (strings_cut kv _) as [[c v]|]; [|done]. unfold str_eqb. case_bool_decide; [done|].
  apply map_Forall_insert_2; [|done]. split; [split|]; [done|apply strings_TrimSpace_idemp..].
Qed.
Lemma gives_pairs get k : gives get (reader.pairs k) clean_pairs.
Proof. apply add_pair_clean, map_Forall_empty. Qed.

(** ** What [Load] promises *)
Section load.
Import config.

(** Every limit and interval that [Config] reads itself is positive and fits
    64 bits, and is what its variable says when that is positive; the rate of
    API calls is such a number as a float; every list holds only clean
    entries; and GitOps commits to the base branch just when its variable
    says so. *)
Record settings_ok (get : Getenv) (c : Config) : Prop := {
  limits_ok : Forall (λ x : string * Z * Z, positive_setting strconv_Atoi get x.1.1 x.1.2 x.2)
    [("KUBE_API_BURST", 100, APIBurst c); ("BLAST_RADIUS_MAX_NAMESPACES", 5, BlastRadiusMaxNamespaces c);
     ("HOUSEKEEPING_MAX_ACTIONS_PER_10M", 10, HousekeepingMaxPer10m c);
     ("CIRCUIT_BREAKER_THRESHOLD", 5, CircuitBreakerThreshold c);
     ("LOG_RETENTION_DAYS", 7, LogRetentionDays c); ("LEARNING_PERIOD_DAYS", 14, LearningPeriodDays c)];
  rate_ok : ∃ n, positive_setting strconv_Atoi get "KUBE_API_QPS" 50 n ∧ APIQPS c = f32_of_Z n;
  intervals_ok : Forall (λ x : string * Z * Z, positive_setting time_ParseDuration get x.1.1 x.1.2 x.2)
    [("RELOAD_DEBOUNCE", 10 * second, rl_Debounce (c_Reload c)); ("NET_PROBE_INTERVAL", minute, pr_Interval (c_Probes c));
     ("APPROVAL_TTL", 30 * minute, ap_TTL (c_Approvals c)); ("SCALE_INTERVAL", 30 * second, ScaleInterval c);
     ("JOB_INTERVAL", 2 * minute, JobInterval c); ("QUOTA_INTERVAL", 5 * minute, QuotaInterval c);
     ("HEALTH_INTERVAL", 3 * minute, HealthInterval c)];
  lists_ok : Forall (Forall clean_entry) [ImageMirrorAllowList c; ap_Approvers (c_Approvals c);
               wh_BlockedImages (c_Webhook c)];
  channels_ok : clean_pairs (SlackChannelWebhooks c);
  mode_ok : GitOpsMode c = if bool_decide (strings_TrimSpace (get "GITOPS_MODE") = "live") then "live" else "pr";
  paths_ok : Forall (λ v, v ≠ "") [Role c; rl_On (c_Reload c); LeaderLeaseNamespace c; so_EFSPath (c_Storage c);
               AuditLogPath c; LogFormat c; MetricsProvider c; GitOpsProvider c; pr_ClusterDomain (c_Probes c)]
}.

Lemma choice_live get m :
  choice get "GITOPS_MODE" "pr" ["pr"; "live"] m →
  m = if bool_decide (strings_TrimSpace (get "GITOPS_MODE") = "live") then "live" else "pr".
Proof.
  intros (Hin & Hv & Hset). case_bool_decide as E.
  - rewrite E in Hset. apply Hset; [done|set_solver].
  - destruct (decide (m = "pr")) as [|Hne]; [done|]. destruct E. rewrite <-Hv by done. set_solver.
Qed.

Ltac pos := unfold pos_int, max_int64, hour, minute, second; lia.
(** One more setting, with what its reader gives. *)
Ltac setting :=
  lazymatch goal with
  | |- gives ?g (rd_bind (reader.positiveInt ?k ?d) _) _ => apply (gives_bind g _ _ _ _ (gives_positiveInt g k d ltac:(pos)))
  | |- gives ?g (rd_bind (reader.duration ?k ?d) _) _ => apply (gives_bind g _ _ _ _ (gives_duration g k d ltac:(pos)))
  | |- gives ?g (rd_bind (reader.oneOf ?k ?d ?l) _) _ => apply (gives_bind g _ _ _ _ (gives_oneOf g k d l))
  | |- gives ?g (rd_bind (reader.list ?k) _) _ => apply (gives_bind g _ _ _ _ (gives_list g k))
  | |- gives ?g (rd_bind (reader.pairs ?k) _) _ => apply (gives_bind g _ _ _ _ (gives_pairs g k))
  | |- gives ?g (rd_bind (reader.str ?k EmptyString) _) _ => apply (gives_bind g _ _ _ _ (gives_any g _))
  | |- gives ?g (rd_bind (reader.str ?k ?d) _) _ => apply (gives_bind g _ _ _ _ (gives_str_default g k d ltac:(discriminate)))
  | |- gives ?g (rd_bind _ _) _ => apply (gives_bind g _ _ _ _ (gives_any g _))
  end; intros ? ?.
Lemma settings_gives get p : gives get (settings p) (λ c, settings_ok get c ∧ c_Policy c = p).
Proof.
  unfold settings. repeat setting.
  apply gives_ret. split; [|done]. split; cbn [APIQPS GitOpsMode SlackChannelWebhooks]; try done.
  - repeat (apply Forall_cons; split; [done|]). by apply Forall_nil.
  - eexists. by split.
  - repeat (apply Forall_cons; split; [done|]). by apply Forall_nil.
  - repeat (apply Forall_cons; split; [done|]). by apply Forall_nil.
  - by apply choice_live.
  - repeat (apply Forall_cons; split; [done|]). by apply Forall_nil.
Qed.

Lemma Load_eq get : Load get =
  match Policy.Load get with
  | inl p => (policy_keys ++ (settings p get).1, inl (settings p get).2)
  | inr e => (policy_keys, inr e)
  end.
Proof.
  unfold Load, policy_Load, rd_bind, rd_ret. cbn [fst snd].
  destruct (Policy.Load get); cbn [fst snd]; by rewrite ?app_nil_r.
Qed.

Lemma Load_settings get c : (Load get).2 = inl c → settings_ok get c.
Proof.
  rewrite Load_eq. destruct (Policy.Load get) as [p|e]; [|done]. cbn [snd]. intros H.
  assert (c = (settings p get).2) as -> by congruence. apply settings_gives.
Qed.

(** C14: A configuration that loads is what its variables say.  Every limit and
    interval read here (the rate and burst of API calls, the blast radius,
    the budgets and thresholds, the retention, and the seven intervals) is
    positive, fits 64 bits, and is the value of its variable when that is a
    positive number, its default when not; lists hold no blank entry; GitOps
    commits to the base branch exactly when GITOPS_MODE says live, and any
    other text means a pull request; and the policy in it is the one
    [policy.Load] validated, with that package's own limits. *)
Theorem Load_settings_ok get c :
  (Load get).2 = inl c → settings_ok get c ∧ Policy.Load get = inl (c_Policy c).
Proof.
  intros H. split; [by apply (Load_settings get)|]. rewrite Load_eq in H.
  destruct (Policy.Load get) as [p|e] eqn:E; [|done]. cbn [snd] in H.
  assert (c = (settings p get).2) as -> by congruence.
  by rewrite (proj2 (settings_gives get p)).
Qed.

Lemma elem_of_first_seen k l : k ∈ first_seen l ↔ k ∈ l.
Proof.
  unfold first_seen.
  assert (∀ acc, k ∈ foldl (λ names k, if bool_decide (k ∈ names) then names else names ++ [k]) acc l ↔ k ∈ acc ∨ k ∈ l) as H.
  { induction l as [|x l IH]; intros acc; cbn [foldl]; [set_solver|]. rewrite IH. case_bool_decide; set_solver. }
  rewrite H. set_solver.
Qed.
Lemma first_seen_NoDup l : NoDup (first_seen l).
Proof.
  unfold first_seen.
  assert (∀ acc, NoDup acc → NoDup (foldl (λ names k, if bool_decide (k ∈ names) then names else names ++ [k]) acc l)) as H.
  { induction l as [|x l IH]; intros acc Ha; cbn [foldl]; [done|]. apply IH. case_bool_decide; [done|].
    apply NoDup_app. split_and!; [done|set_solver|apply NoDup_singleton]. }
  apply H, NoDup_nil_2.
Qed.

(** [Names] is what the agent reads: a load that succeeds asks for exactly
    these variables, each listed once, and two environments that agree on
    them load alike, down to the error. *)
Theorem Load_reads_Names get get' :
  NoDup Names
  ∧ (∀ c, (Load get).2 = inl c → first_seen (Load get).1 = Names)
  ∧ (agree_on Names get get' → Load get = Load get').
Proof.
  destruct settings_reads as [ks Hks], policy_reads as [Hp1 Hp2].
  assert (∀ g c, (Load g).2 = inl c → (Load g).1 = policy_keys ++ ks) as Hkeys.
  { intros g c. rewrite Load_eq. destruct (Policy.Load g) as [p|e]; [|done]. cbn [fst snd]. intros _.
    f_equal. apply Hks. }
  assert (∃ c, (Load (λ _, "")).2 = inl c) as [c0 H0] by (eexists; vm_compute; reflexivity).
  assert (Names = first_seen (policy_keys ++ ks)) as HN by (unfold Names; by rewrite (Hkeys _ _ H0)).
  split_and!.
  - apply first_seen_NoDup.
  - intros c Hc. by rewrite HN, (Hkeys _ _ Hc).
  - intros Ha. assert (agree_on (policy_keys ++ ks) get get') as [Hap Has]%agree_app.
    { intros k Hk. apply Ha. rewrite HN. by apply elem_of_first_seen. }
    specialize (Hp2 get get' Hap). unfold policy_Load in Hp2. cbn [snd] in Hp2. rewrite !Load_eq, Hp2.
    destruct (Policy.Load get') as [p|e]; [|done].
    destruct (Hks p) as [Hk1 Hk2]. by rewrite (Hk1 get), (Hk1 get'), (Hk2 get get' Has).
Qed.

(** Though [Load] falls back to defaults elsewhere, a policy that does not
    validate ends the process. *)
Example Load_can_fail : (Load (λ k, if str_eqb k "MAX_SCALE_STEP" then "0" else "")).2 = inr (ErrMaxScaleStep 0).
Proof. vm_compute. done. Qed.

(** check-config shows nothing of a setting whose name says it is secret:
    the lines it prints are the same for any two values of it, of which it
    only tells whether there is one. *)
Theorem Describe_hides_secrets get get' :
  (∀ n, n ∈ Names → if secretName n then (get n = "" ↔ get' n = "") else get n = get' n) →
  Describe get = Describe get'.
Proof.
  intros H. unfold Describe. apply list_fmap_ext. intros i n Hn%list_elem_of_lookup_2. specialize (H n Hn).
  unfold shown, str_eqb. destruct (secretName n); [|by rewrite H].
  repeat case_bool_decide; tauto.
Qed.

(** The password of the mail server and the webhooks of the channels are not
    among them: check-config prints both. *)
Lemma named n : bool_decide (n ∈ Names) = true → n ∈ Names.
Proof. apply bool_decide_eq_true_1. Qed.
Theorem Describe_prints_the_mail_password get n :
  n ∈ ["SMTP_PASS"; "SLACK_CHANNEL_WEBHOOKS"] → get n ≠ "" → n +:+ "=" +:+ get n ∈ Describe get.
Proof.
  intros Hn Hv. unfold Describe. apply list_elem_of_fmap. exists n. split.
  - unfold shown, str_eqb. rewrite bool_decide_eq_false_2 by done.
    by apply elem_of_cons in Hn as [-> | ->%list_elem_of_singleton].
  - apply named. apply elem_of_cons in Hn as [-> | ->%list_elem_of_singleton]; vm_compute; done.
Qed.

(** *** Names the check skips *)
Lemma ends_as_spec f s : ends_as f s = true ↔ ∃ p q, s = p +:+ q ∧ f q = true.
Proof.
  induction s as [|c s IH]; cbn [ends_as].
  - rewrite orb_false_r. split; [intros H; by exists "", ""|].
    intros (p & q & E & Hq). destruct p; [|done]. by destruct q.
  - rewrite orb_true_iff, IH. split.
    + intros [H | (p & q & -> & Hq)]; [by exists "", (String c s)|]. by exists (String c p), q.
    + intros (p & q & E & Hq). destruct p as [|c' p]; [left; cbn in E; by rewrite E|].
      right. exists p, q. by injection E as -> ->.
Qed.
(** A setting that is misspelt is not reported when its name ends like the
    port of a service link. *)
Theorem port_names_are_not_reported p : unknown (p +:+ "_PORT") = false.
Proof.
  unfold unknown, platformName. replace (ends_as port_link (p +:+ "_PORT")) with true.
  - by rewrite orb_true_r, andb_false_r.
  - symmetry. apply ends_as_spec. by exists p, "_PORT".
Qed.
Example misspelt_port : UnknownKeys ["SMPT_PORT=25"; "SMPT_HOST=mail"] = ["SMPT_HOST"].
Proof. vm_compute. done. Qed.
End load.

(** ** Runs *)
Section runs.
Import config.
Definition production (k : string) : string :=
  if str_eqb k "AUTO_MODE" then "fix" else if str_eqb k "SMTP_PASS" then "hunter2"
  else if str_eqb k "GITOPS_MODE" then "Live" else if str_eqb k "SCALE_INTERVAL" then "-30s"
  else if str_eqb k "INTERNAL_TOKEN" then "t0ken"
  else if str_eqb k "SLACK_CHANNEL_WEBHOOKS" then "ops = https://a?x=1 ,=b,c" else "".
Lemma Load_settings_ok_witness : ∃ c,
  (Load production).2 = inl c ∧ GitOpsMode c = "pr" ∧ ScaleInterval c = 30 * second
  ∧ SlackChannelWebhooks c = {["ops" := "https://a?x=1"]}
  ∧ settings_ok production c ∧ Policy.Load production = inl (c_Policy c).
Proof.
  eexists. split; [vm_compute; reflexivity|]. split; [vm_compute; reflexivity|].
  split; [vm_compute; reflexivity|]. split; [vm_compute; reflexivity|].
  apply Load_settings_ok. vm_compute. reflexivity.
Defined.
Lemma Load_reads_Names_witness :
  NoDup Names
  ∧ (∀ c, (Load production).2 = inl c → first_seen (Load production).1 = Names)
  ∧ (agree_on Names production (λ k, if str_eqb k "UNRELATED" then "1" else production k) →
     Load production = Load (λ k, if str_eqb k "UNRELATED" then "1" else production k))
  ∧ agree_on Names production (λ k, if str_eqb k "UNRELATED" then "1" else production k).
Proof.
  assert (agree_on Names production (λ k, if str_eqb k "UNRELATED" then "1" else production k)) as H.
  { intros k Hk. unfold str_eqb. case_bool_decide as E; [|done]. subst k.
    assert (bool_decide ("UNRELATED" ∈ Names) = true) as C by (by apply bool_decide_eq_true_2).
    vm_compute in C. done. }
  destruct (Load_reads_Names production (λ k, if str_eqb k "UNRELATED" then "1" else production k)) as (H1 & H2 & H3).
  split_and!; assumption.
Defined.
Lemma Describe_hides_secrets_witness :
  (∀ n, n ∈ Names → if secretName n
     then (production n = "" ↔ (if str_eqb n "INTERNAL_TOKEN" then "other" else production n) = "")
     else production n = (if str_eqb n "INTERNAL_TOKEN" then "other" else production n))
  ∧ Describe production = Describe (λ n, if str_eqb n "INTERNAL_TOKEN" then "other" else production n)
  ∧ "INTERNAL_TOKEN=(set, redacted)" ∈ Describe production.
Proof.
  assert (∀ n, n ∈ Names → if secretName n
     then (production n = "" ↔ (if str_eqb n "INTERNAL_TOKEN" then "other" else production n) = "")
     else production n = (if str_eqb n "INTERNAL_TOKEN" then "other" else production n)) as H.
  { intros n _. unfold str_eqb. case_bool_decide as E; [rewrite E; vm_compute; done|]. by destruct (secretName n). }
  split; [exact H|]. split; [exact (Describe_hides_secrets production _ H)|].
  apply (bool_decide_eq_true_1 ("INTERNAL_TOKEN=(set, redacted)" ∈ Describe production)). vm_compute. reflexivity.
Defined.
End runs.
