(* ===== verification/RateLimit.v ===== *)
(** * RateLimit: internal/ratelimit

    The deduplicator and the sliding-window action limiter of
    [ratelimit.go] and the per-workload circuit breaker of [circuit.go].
    Each method is a function of the receiver and of the clock readings it
    takes, in the order it takes them; the mutex makes each one atomic. *)
From S2P Require Import Prelude GoStd.
From Stdlib Require Import Ascii.
#[local] Open Scope Z_scope.

(** How many elements of a history satisfy a test. *)
Definition countP {A} (f : A → bool) (l : list A) : Z := Z.of_nat (length (filter (λ x, f x = true) l)).

Lemma countP_app {A} (f : A → bool) l1 l2 : countP f (l1 ++ l2) = countP f l1 + countP f l2.
Proof. unfold countP. rewrite filter_app, length_app. lia. Qed.
Lemma countP_one {A} (f : A → bool) x : countP f [x] = if f x then 1 else 0.
Proof. unfold countP. rewrite filter_cons. by destruct (f x). Qed.
Lemma countP_nonneg {A} (f : A → bool) l : 0 ≤ countP f l.
Proof. unfold countP. lia. Qed.
Lemma countP_le_length {A} (f : A → bool) l : countP f l ≤ Z.of_nat (length l).
Proof. unfold countP. pose proof (length_filter (λ x, f x = true) l). lia. Qed.
Lemma countP_weaken {A} (f g : A → bool) l :
  Forall (λ x, f x = true → g x = true) l → countP f l ≤ countP g l.
Proof.
  induction 1 as [|x l Hx _ IH]; [done|]. unfold countP in *. rewrite !filter_cons.
  destruct (f x) eqn:Ef.
  - rewrite (decide_True (P := g x = true)) by auto. simpl. lia.
  - rewrite (decide_False (P := false = true)) by done. case_decide; simpl; lia.
Qed.
Lemma countP_all {A} (f : A → bool) l :
  Forall (λ x, f x = true) l → countP f l = Z.of_nat (length l).
Proof.
  induction 1 as [|x l Hx _ IH]; [done|]. unfold countP in *.
  rewrite filter_cons, decide_True by done. simpl. lia.
Qed.
Lemma countP_none {A} (f : A → bool) l : Forall (λ x, f x = false) l → countP f l = 0.
Proof.
  induction 1 as [|x l Hx _ IH]; [done|]. unfold countP in *. rewrite filter_cons, Hx. done.
Qed.
Lemma countP_filter {A} (f g : A → bool) l :
  (∀ x, f x = true → g x = true) → countP f (filter (λ x, g x = true) l) = countP f l.
Proof.
  intros Hfg. induction l as [|x l IH]; [done|]. unfold countP in *. rewrite !filter_cons.
  destruct (g x) eqn:Eg; destruct (f x) eqn:Ef; simpl;
    rewrite ?filter_cons, ?Ef; simpl; try (rewrite ?Hfg in Eg by done; done); try lia.
Qed.
#[export] Hint Rewrite @countP_app @countP_one : agent.

(** ** Deduplicator *)

Record Deduplicator := mkDedup { seen : gmap string Time; dd_ttl : Duration }.

Definition NewDeduplicator (ttl : Duration) : Deduplicator := mkDedup ∅ ttl.

(** [CheckFor], with the clock reading [now]. *)
Definition CheckFor (now : Time) (key : string) (ttl : Duration) (d : Deduplicator)
  : bool * Deduplicator :=
  match seen d !! key with
  | Some until =>
    if time_Before now until then (false, d)
    else (true, mkDedup (<[key := time_Add now ttl]> (seen d)) (dd_ttl d))
  | None => (true, mkDedup (<[key := time_Add now ttl]> (seen d)) (dd_ttl d))
  end.
Definition Check (now : Time) (key : string) (d : Deduplicator) : bool * Deduplicator :=
  CheckFor now key (dd_ttl d) d.
Definition Reset (key : string) (d : Deduplicator) : Deduplicator :=
  mkDedup (delete key (seen d)) (dd_ttl d).

(** Go's integer division truncates toward zero. *)
Definition cleanupInterval (ttl : Duration) : Duration := Z.quot ttl 2.
(** [cleanup] starts a ticker, which panics on an interval that is not
    positive: [None]. *)
Definition cleanup_start (d : Deduplicator) : option Duration :=
  let every := cleanupInterval (dd_ttl d) in if every <=? 0 then None else Some every.
(** One tick of [cleanup]: drop what has expired. *)
Definition cleanup_sweep (now : Time) (d : Deduplicator) : Deduplicator :=
  mkDedup (filter (λ kv, time_Before now kv.2 = true) (seen d)) (dd_ttl d).

(** ** ActionLimiter *)

Record ActionLimiter := mkLimiter { events : list Time; lim_max : Z; lim_window : Duration }.

Definition NewActionLimiter (max : Z) (window : Duration) : ActionLimiter :=
  mkLimiter [] max window.

Fixpoint drop_before (cutoff : Time) (l : list Time) : list Time :=
  match l with
  | [] => []
  | t :: l' => if time_Before t cutoff then drop_before cutoff l' else l
  end.
Definition prune (now : Time) (l : ActionLimiter) : ActionLimiter :=
  let cutoff := time_Add now (dur_neg (lim_window l)) in
  mkLimiter (drop_before cutoff (events l)) (lim_max l) (lim_window l).

(** [Allow] reads the clock to prune and again to record. *)
Definition Allow (now1 now2 : Time) (l : ActionLimiter) : bool * ActionLimiter :=
  let l := prune now1 l in
  if lim_max l <=? Z.of_nat (length (events l)) then (false, l)
  else (true, mkLimiter (events l ++ [now2]) (lim_max l) (lim_window l)).
Definition Count (now : Time) (l : ActionLimiter) : Z * ActionLimiter :=
  let l := prune now l in (Z.of_nat (length (events l)), l).
Definition Remaining (now : Time) (l : ActionLimiter) : Z * ActionLimiter :=
  let l := prune now l in (Z.max (lim_max l - Z.of_nat (length (events l))) 0, l).

(** ** CircuitBreaker *)

Record CircuitBreaker := mkBreaker {
  cb_actions : gmap string (list Time);
  cb_threshold : Z;
  cb_window : Duration;
  cb_tripped : gmap string Time
}.

Definition NewCircuitBreaker (threshold : Z) (window : Duration) : CircuitBreaker :=
  mkBreaker ∅ (if threshold <=? 0 then 5 else threshold)
    (if window <=? 0 then 1 * hour else window) ∅.

Definition cb_key (ns workload : string) : string := ns +:+ "/" +:+ workload.

Definition cb_reset (key : string) (cb : CircuitBreaker) : CircuitBreaker :=
  mkBreaker (delete key (cb_actions cb)) (cb_threshold cb) (cb_window cb)
    (delete key (cb_tripped cb)).

(** The part of [RecordAndCheck] after the tripped check: prune, record this
    action, compare with the threshold. *)
Definition cb_record (now : Time) (key : string) (cb : CircuitBreaker) : bool * CircuitBreaker :=
  let cutoff := time_Add now (dur_neg (cb_window cb)) in
  let existing := default [] (cb_actions cb !! key) in
  let pruned := filter (λ t, time_After t cutoff = true) existing ++ [now] in
  let actions := <[key := pruned]> (cb_actions cb) in
  if cb_threshold cb <=? Z.of_nat (length pruned)
  then (false, mkBreaker actions (cb_threshold cb) (cb_window cb) (<[key := now]> (cb_tripped cb)))
  else (true, mkBreaker actions (cb_threshold cb) (cb_window cb) (cb_tripped cb)).

Definition RecordAndCheck (now : Time) (ns workload : string) (cb : CircuitBreaker)
  : bool * CircuitBreaker :=
  let key := cb_key ns workload in
  match cb_tripped cb !! key with
  | Some tripTime =>
    if time_Sub now tripTime <? cb_window cb then (false, cb)
    else cb_record now key (cb_reset key cb)
  | None => cb_record now key cb
  end.
Definition IsTripped (now : Time) (ns workload : string) (cb : CircuitBreaker)
  : bool * CircuitBreaker :=
  let key := cb_key ns workload in
  match cb_tripped cb !! key with
  | None => (false, cb)
  | Some tripTime =>
    if cb_window cb <=? time_Sub now tripTime then (false, cb_reset key cb) else (true, cb)
  end.
Definition TrippedWorkloads `{RangeOrder} (now : Time) (cb : CircuitBreaker) : list string :=
  (filter (λ kt, (time_Sub now kt.2 <? cb_window cb) = true) (range_map (cb_tripped cb))).*1.

(** The values the constructors allow: a window that is a positive
    [Duration], a positive threshold. *)
Definition window_ok (w : Duration) : Prop := 0 < w ≤ max_int64.

(** ** The deduplicator *)

(** Reading the clock never goes back. *)
Lemma CheckFor_lookup now key ttl d :
  (CheckFor now key ttl d).1
  = match seen d !! key with Some u => negb (time_Before now u) | None => true end.
Proof. unfold CheckFor. repeat case_match; simplify_eq/=; done. Qed.

(** The background sweep is invisible: whenever it runs, every later
    [CheckFor] answers as if it had not run, and leaves the same entries for
    the keys it has not expired. *)
Theorem cleanup_sweep_unobservable d t now key ttl :
  t ≤ now →
  (CheckFor now key ttl (cleanup_sweep t d)).1 = (CheckFor now key ttl d).1
  ∧ seen (CheckFor now key ttl (cleanup_sweep t d)).2 !! key
    = seen (CheckFor now key ttl d).2 !! key.
Proof.
  intros Ht. unfold CheckFor, cleanup_sweep, time_Before. simpl.
  rewrite map_lookup_filter. destruct (seen d !! key) as [u|] eqn:E; simpl.
  - destruct (decide (u ≤ t)).
    + rewrite option_guard_False by (simpl; lia).
      assert ((now <? u) = false) as -> by lia. simpl. by simplify_map_eq.
    + rewrite option_guard_True by (simpl; lia). simpl.
      destruct (now <? u); simpl; [|by simplify_map_eq].
      rewrite map_lookup_filter, E. simpl. by rewrite option_guard_True by lia.
  - by simplify_map_eq.
Qed.

(** A run of checks and sweeps, each at its own time. *)
Inductive dd_op := DdCheck (now : Time) (key : string) (ttl : Duration) | DdSweep (now : Time).
Definition dd_time (o : dd_op) : Time :=
  match o with DdCheck t _ _ | DdSweep t => t end.
Definition dd_step (d : Deduplicator) (o : dd_op) : bool * Deduplicator :=
  match o with
  | DdCheck now key ttl => CheckFor now key ttl d
  | DdSweep now => (false, cleanup_sweep now d)
  end.
(** The times, in order, at which the checks of [key] passed. *)
Fixpoint dd_passed (key : string) (d : Deduplicator) (os : list dd_op) : list Time :=
  match os with
  | [] => []
  | o :: os' =>
    let r := dd_step d o in
    (match o with
     | DdCheck now k _ => if r.1 && str_eqb k key then [now] else []
     | DdSweep _ => []
     end) ++ dd_passed key r.2 os'
  end.

Lemma dd_passed_bound key d os last :
  StronglySorted Z.le (last :: (dd_time <$> os)) →
  Forall (λ t, last ≤ t ∧ ∀ u, seen d !! key = Some u → u ≤ t) (dd_passed key d os).
Proof.
  revert d last. induction os as [|o os IH]; intros d last Hs; [constructor|].
  inversion_clear Hs as [|?? Hs' Hle]. apply Forall_cons in Hle as [Hlo _].
  pose proof (λ d, IH d _ Hs') as IH'. simpl. apply Forall_app_2.
  - destruct o as [now k t|]; [|constructor]. case_match eqn:E; [|constructor].
    apply andb_true_iff in E as [Hr ->%str_eqb_eq]. constructor; [|constructor].
    simpl in *. rewrite CheckFor_lookup in Hr. split; [lia|]. intros u Hu.
    rewrite Hu in Hr. unfold time_Before in Hr. lia.
  - eapply Forall_impl; [apply IH'|]. intros t [Ht Hu]. split; [lia|].
    intros u Hd. destruct o as [now k tt|now]; simpl in *.
    + unfold CheckFor, time_Before in Hu.
      destruct (decide (k = key)) as [->|?].
      * rewrite Hd in Hu. destruct (now <? u) eqn:?; simpl in Hu; [eauto|lia].
      * apply Hu. repeat case_match; simpl; by simplify_map_eq.
    + destruct (decide (u ≤ now)); [lia|]. apply Hu.
      apply map_lookup_filter_Some. split; [done|]. unfold time_Before. simpl. lia.
Qed.

(** A key passes at most once per window: in any run of checks and
    background sweeps, two passes of a key checked with the window [ttl] are
    at least [ttl] apart. *)
Theorem CheckFor_once_per_window key ttl d os last :
  (∀ now t, DdCheck now key t ∈ os → t = ttl) →
  StronglySorted Z.le (last :: (dd_time <$> os)) →
  StronglySorted (λ a b, a + ttl ≤ b) (dd_passed key d os).
Proof.
  revert d last. induction os as [|o os IH]; intros d last Hk Hs; [constructor|].
  inversion_clear Hs as [|?? Hs' _]. simpl.
  assert (∀ d, StronglySorted (λ a b, a + ttl ≤ b) (dd_passed key d os)) as IH'.
  { intros d'. eapply IH; [|exact Hs']. set_solver. }
  destruct o as [now k t|]; [|apply IH']. case_match eqn:E; [|apply IH'].
  apply andb_true_iff in E as [Hr ->%str_eqb_eq]. simpl. constructor; [apply IH'|].
  assert (t = ttl) as -> by (eapply Hk; left).
  eapply Forall_impl; [apply (dd_passed_bound _ _ _ _ Hs')|].
  intros t' [_ Hu]. apply Hu. simpl in *. unfold CheckFor, time_Before, time_Add in *.
  repeat case_match; simplify_eq/=; by simplify_map_eq.
Qed.

(** ** The action limiter *)

(** [Remaining] says whether [Allow] lets the next action through. *)
Lemma Allow_Remaining now now2 l : (Allow now now2 l).1 = (0 <? (Remaining now l).1).
Proof.
  unfold Allow, Remaining. generalize (prune now l). clear l. intros l.
  destruct (_ <=? _) eqn:?; cbn [fst]; symmetry; blia.
Qed.

(** The events of the limiter are what a history kept by [drop_before]
    leaves: nothing at or after the cutoff is lost. *)
Lemma drop_before_countP a cutoff l :
  cutoff ≤ a → countP (λ t, a <=? t) (drop_before cutoff l) = countP (λ t, a <=? t) l.
Proof.
  intros Ha. induction l as [|t l IH]; [done|]. simpl. unfold time_Before.
  destruct (t <? cutoff) eqn:?; [|done]. rewrite IH. symmetry.
  change (t :: l) with ([t] ++ l). rewrite countP_app, countP_one.
  assert ((a <=? t) = false) as -> by lia. lia.
Qed.

(** A run of [Allow] calls, each with its two clock readings, with the
    history of the times it recorded. *)
Definition allow_step (hl : list Time * ActionLimiter) (call : Time * Time)
  : list Time * ActionLimiter :=
  let r := Allow call.1 call.2 hl.2 in
  (if r.1 then hl.1 ++ [call.2] else hl.1, r.2).
Fixpoint clock_ok (last : Time) (calls : list (Time * Time)) : Prop :=
  match calls with
  | [] => True
  | c :: calls' => last ≤ c.1 ∧ c.1 ≤ c.2 ∧ clock_ok c.2 calls'
  end.
Definition in_window (a w : Z) (t : Time) : bool := (a <=? t) && (t <=? a + w).

Record limiter_inv (mx w : Z) (H : list Time) (l : ActionLimiter) (last : Time) : Prop := {
  li_max : lim_max l = mx;
  li_window : lim_window l = w;
  li_past : Forall (λ t, t ≤ last) H;
  li_kept : ∀ a, last - w ≤ a →
    countP (λ t, a <=? t) H ≤ countP (λ t, a <=? t) (events l);
  li_bound : ∀ a, countP (in_window a w) H ≤ Z.max 0 mx
}.

Lemma Forall_le_weaken (l : list Time) a b : a ≤ b → Forall (λ t, t ≤ a) l → Forall (λ t, t ≤ b) l.
Proof. intros ? H. eapply Forall_impl; [exact H|]. intros; simpl in *; lia. Qed.

(** A window that ends now or later sees only what is after its start. *)
Lemma in_window_countP a w H last :
  Forall (λ t, t ≤ last) H → countP (in_window a w) H ≤ countP (λ t, a <=? t) H.
Proof.
  intros Hp. apply countP_weaken. eapply Forall_impl; [exact Hp|].
  intros t Ht. unfold in_window. simpl in *. lia.
Qed.

Lemma limiter_inv_step mx w H l last c1 c2 :
  window_ok w → last ≤ c1 → c1 ≤ c2 → limiter_inv mx w H l last →
  limiter_inv mx w (allow_step (H, l) (c1, c2)).1 (allow_step (H, l) (c1, c2)).2 c2.
Proof.
  intros Hw H1 H2 [<- <- Hp Hk Hb]. unfold allow_step, Allow. simpl.
  set (evs := drop_before _ (events l)).
  assert (∀ a, c1 - lim_window l ≤ a →
    countP (λ t, a <=? t) H ≤ countP (λ t, a <=? t) evs) as Hk'.
  { intros a Ha. subst evs. rewrite drop_before_countP; [apply Hk; lia|].
    rewrite dur_neg_pos by done. unfold time_Add. lia. }
  pose proof (Forall_le_weaken _ last c2 ltac:(lia) Hp) as Hp2.
  destruct (_ <=? _) eqn:Hfull; simpl.
  { constructor; simpl; [done|done|done| |done]. intros a Ha. apply Hk'. lia. }
  constructor; simpl; [done|done| | |].
  - apply Forall_app. repeat constructor; [done|lia].
  - intros a Ha. rewrite !countP_app. specialize (Hk' a ltac:(lia)). lia.
  - intros a. rewrite countP_app, countP_one. specialize (Hb a).
    destruct (in_window a (lim_window l) c2) eqn:Hin; [|lia].
    pose proof (in_window_countP a (lim_window l) _ _ Hp2).
    pose proof (countP_le_length (λ t, a <=? t) evs).
    unfold in_window in Hin. specialize (Hk' a ltac:(lia)). lia.
Qed.

(** C22: The limiter's promise: whatever the callers ask, and when, no window
    of the limiter's length ever holds more recorded actions than the
    limit. *)
Theorem Allow_sliding_window mx w calls start :
  window_ok w → clock_ok start calls →
  ∀ a, countP (in_window a w)
         (foldl allow_step ([], NewActionLimiter mx w) calls).1 ≤ Z.max 0 mx.
Proof.
  intros Hw Hc. enough (∀ H l, limiter_inv mx w H l start →
    ∃ last, limiter_inv mx w (foldl allow_step (H, l) calls).1
              (foldl allow_step (H, l) calls).2 last) as Hgen.
  { destruct (Hgen [] (NewActionLimiter mx w)) as [last Hi]; [|apply Hi].
    constructor; [done|done|constructor|done|]. intros. unfold countP. simpl. lia. }
  revert start Hc. induction calls as [|[c1 c2] calls IH]; intros start Hc H l Hi; [by exists start|].
  destruct Hc as (H1 & H2 & Hc). simpl in *.
  pose proof (limiter_inv_step _ _ _ _ _ _ _ Hw H1 H2 Hi) as Hi'.
  destruct (allow_step (H, l) (c1, c2)) as [H' l']. by apply (IH c2).
Qed.

(** An allowance is refused only when the window really is full: a
    call is allowed exactly when fewer than [max] recorded actions are at
    most a window old. *)
Theorem Allow_exact l c1 c2 :
  window_ok (lim_window l) → StronglySorted Z.le (events l) →
  (Allow c1 c2 l).1
  = (countP (λ t, c1 - lim_window l <=? t) (events l) <? lim_max l).
Proof.
  intros Hw Hs. unfold Allow, prune. simpl.
  assert (Z.of_nat (length (drop_before (time_Add c1 (dur_neg (lim_window l))) (events l)))
    = countP (λ t, c1 - lim_window l <=? t) (events l)) as ->; [|by destruct (_ <=? _) eqn:?; simpl; lia].
  rewrite dur_neg_pos by done. unfold time_Add.
  replace (c1 + - lim_window l) with (c1 - lim_window l) by lia.
  rewrite <-(drop_before_countP _ (c1 - lim_window l)) by lia.
  induction Hs as [|t evs Hs IH Ht]; [done|]. simpl. unfold time_Before.
  destruct (t <? c1 - lim_window l) eqn:Hlt; [done|].
  symmetry. apply countP_all. constructor; [lia|].
  eapply Forall_impl; [exact Ht|]. intros; simpl in *. lia.
Qed.

(** ** The circuit breaker *)

(** Keys of different workloads differ, as a namespace holds no slash. *)
Fixpoint has_byte (c : ascii) (s : string) : bool :=
  match s with
  | EmptyString => false
  | String a s' => bool_decide (a = c) || has_byte c s'
  end.
Lemma cb_key_inj ns wl ns' wl' :
  has_byte "/" ns = false → has_byte "/" ns' = false →
  cb_key ns wl = cb_key ns' wl' → ns = ns' ∧ wl = wl'.
Proof.
  unfold cb_key. revert ns'. induction ns as [|c ns IH]; intros [|c' ns'] H H' Heq.
  - by simplify_eq/=.
  - rewrite str_app_cons in Heq. change ("" +:+ "/" +:+ wl) with (String "/" wl) in Heq.
    injection Heq as <- _. by vm_compute in H'.
  - rewrite str_app_cons in Heq. change ("" +:+ "/" +:+ wl') with (String "/" wl') in Heq.
    injection Heq as -> _. by vm_compute in H.
  - rewrite !str_app_cons in Heq. injection Heq as -> Heq. simpl in *.
    apply orb_false_iff in H as [_ H]. apply orb_false_iff in H' as [_ H'].
    by destruct (IH ns' H H' Heq) as [-> ->].
Qed.

Inductive cb_op :=
| CbRecord (now : Time) (ns workload : string)
| CbIsTripped (now : Time) (ns workload : string).
Definition cb_time (o : cb_op) : Time :=
  match o with CbRecord t _ _ | CbIsTripped t _ _ => t end.
Definition cb_op_key (o : cb_op) : string :=
  match o with CbRecord _ ns wl | CbIsTripped _ ns wl => cb_key ns wl end.

(** One call, with the history of the times an action of [key] was
    allowed. *)
Definition cb_step (key : string) (hc : list Time * CircuitBreaker) (o : cb_op)
  : list Time * CircuitBreaker :=
  match o with
  | CbRecord now ns wl =>
    let r := RecordAndCheck now ns wl hc.2 in
    (if r.1 && str_eqb (cb_key ns wl) key then hc.1 ++ [now] else hc.1, r.2)
  | CbIsTripped now ns wl => (hc.1, (IsTripped now ns wl hc.2).2)
  end.

Definition in_window_half (a w : Z) (t : Time) : bool := (a <=? t) && (t <? a + w).

Record breaker_inv (key : string) (thr w : Z) (H : list Time) (cb : CircuitBreaker)
  (last : Time) : Prop := {
  bi_thr : cb_threshold cb = thr;
  bi_window : cb_window cb = w;
  bi_past : Forall (λ t, t ≤ last) H;
  bi_kept : match cb_tripped cb !! key with
    | Some T => T ≤ last ∧ Forall (λ t, t ≤ T) H
    | None => ∀ a, last - w < a →
        countP (λ t, a <=? t) H ≤ countP (λ t, a <=? t) (default [] (cb_actions cb !! key))
    end;
  bi_bound : ∀ a, countP (in_window_half a w) H ≤ Z.max 0 (thr - 1)
}.

(** Later, the same breaker satisfies the invariant. *)
Lemma breaker_inv_later key thr w H cb last now :
  last ≤ now → breaker_inv key thr w H cb last → breaker_inv key thr w H cb now.
Proof.
  intros Hle [? ? Hp Hk ?]. constructor; auto.
  - by eapply Forall_le_weaken.
  - case_match; [|intros; apply Hk; lia]. destruct Hk. split; [lia|done].
Qed.

(** The tests of other keys leave the invariant alone. *)
Lemma breaker_inv_ext key thr w H cb cb' last :
  cb_threshold cb' = cb_threshold cb → cb_window cb' = cb_window cb →
  cb_actions cb' !! key = cb_actions cb !! key →
  cb_tripped cb' !! key = cb_tripped cb !! key →
  breaker_inv key thr w H cb last → breaker_inv key thr w H cb' last.
Proof.
  intros H1 H2 H3 H4 [? ? ? Hk ?]. constructor; [congruence|congruence|done| |done].
  by rewrite H3, H4.
Qed.

(** An expired trip leaves nothing inside the window. *)
Lemma breaker_inv_reset key thr w H cb now T :
  cb_tripped cb !! key = Some T → T + w ≤ now →
  breaker_inv key thr w H cb now → breaker_inv key thr w H (cb_reset key cb) now.
Proof.
  intros HT Hexp [? ? ? Hk ?]. rewrite HT in Hk. destruct Hk as [_ HkT].
  constructor; auto. unfold cb_reset. simpl. rewrite !lookup_delete_eq. simpl.
  intros a Ha. rewrite (countP_none _ H); [done|].
  eapply Forall_impl; [exact HkT|]. intros t Ht. simpl in *. lia.
Qed.

Lemma cb_record_inv key thr w H cb now :
  window_ok w → cb_tripped cb !! key = None → breaker_inv key thr w H cb now →
  let r := cb_record now key cb in
  breaker_inv key thr w (if r.1 then H ++ [now] else H) r.2 now.
Proof.
  intros Hw HT [<- <- Hp Hk Hb]. rewrite HT in Hk. unfold cb_record.
  set (old := default [] (cb_actions cb !! key)) in *.
  set (kept := filter _ old).
  assert (∀ a, now - cb_window cb < a →
    countP (λ t, a <=? t) H ≤ countP (λ t, a <=? t) kept) as Hk'.
  { intros a Ha. subst kept. rewrite countP_filter; [auto|].
    intros t Ht. unfold time_After, time_Add. rewrite dur_neg_pos by done. lia. }
  destruct (_ <=? _) eqn:Hfull; simpl.
  - constructor; simpl; auto. rewrite lookup_insert_eq. split; [lia|done].
  - constructor; simpl; auto.
    + apply Forall_app. repeat constructor; [done|lia].
    + rewrite HT, lookup_insert_eq. simpl. intros a Ha. rewrite !countP_app.
      specialize (Hk' a Ha). lia.
    + intros a. rewrite countP_app, countP_one. specialize (Hb a).
      destruct (in_window_half _ _ now) eqn:Hin; [|lia]. unfold in_window_half in Hin.
      rewrite length_app in Hfull. simpl in Hfull.
      pose proof (countP_le_length (λ t, a <=? t) kept).
      specialize (Hk' a ltac:(lia)).
      assert (countP (in_window_half a (cb_window cb)) H ≤ countP (λ t, a <=? t) H).
      { apply countP_weaken, Forall_true. intros t. unfold in_window_half. simpl. lia. }
      blia.
Qed.

Lemma breaker_inv_step key thr w H cb last o :
  window_ok w → last ≤ cb_time o → breaker_inv key thr w H cb last →
  breaker_inv key thr w (cb_step key (H, cb) o).1 (cb_step key (H, cb) o).2 (cb_time o).
Proof.
  intros Hw Hle Hi. apply (breaker_inv_later _ _ _ _ _ _ _ Hle) in Hi.
  pose proof (bi_window _ _ _ _ _ _ Hi) as Hwin. destruct o as [now ns wl|now ns wl]; simpl in *.
  - unfold RecordAndCheck. destruct (str_eqb (cb_key ns wl) key) eqn:Ek.
    + apply str_eqb_eq in Ek. rewrite Ek. destruct (cb_tripped cb !! key) as [T|] eqn:HT.
      * rewrite time_Sub_lt by (rewrite Hwin; apply Hw).
        destruct (_ <? _) eqn:Hlt; simpl; [done|]. rewrite andb_true_r.
        apply cb_record_inv; [done|apply lookup_delete_eq|].
        apply (breaker_inv_reset _ _ _ _ _ _ T); [done|lia|done].
      * simpl. rewrite andb_true_r. by apply cb_record_inv.
    + apply str_eqb_ne in Ek. rewrite andb_false_r.
      eapply breaker_inv_ext; [..|exact Hi]; unfold cb_record, cb_reset;
        repeat case_match; simpl; by simplify_map_eq.
  - unfold IsTripped. destruct (cb_tripped cb !! cb_key ns wl) as [T|] eqn:HT; [|done].
    rewrite time_Sub_ge by (rewrite Hwin; apply Hw). destruct (_ <=? _) eqn:Hge; simpl; [|done].
    destruct (decide (cb_key ns wl = key)) as [Ek|Ek].
    + rewrite Ek in *. apply (breaker_inv_reset _ _ _ _ _ _ T); [done|lia|done].
    + eapply breaker_inv_ext; [..|exact Hi]; simpl; by simplify_map_eq.
Qed.

(** The breaker's promise: whatever calls are made, for any workloads
    and in any interleaving, no window of its length holds more than
    [threshold - 1] allowed actions of one workload. *)
Theorem breaker_bounds_actions threshold window key os start a :
  let cb := NewCircuitBreaker threshold window in
  cb_window cb ≤ max_int64 →
  StronglySorted Z.le (start :: (cb_time <$> os)) →
  countP (in_window_half a (cb_window cb)) (foldl (cb_step key) ([], cb) os).1
    ≤ cb_threshold cb - 1.
Proof.
  intros cb Hmax Hs.
  assert (window_ok (cb_window cb)) as Hw.
  { split; [|done]. subst cb. simpl. unfold hour, minute, second. destruct (_ <=? _) eqn:?; lia. }
  assert (1 ≤ cb_threshold cb) as Ht.
  { subst cb. simpl. destruct (_ <=? _) eqn:?; lia. }
  enough (∀ H c, breaker_inv key (cb_threshold cb) (cb_window cb) H c start →
    ∃ last, breaker_inv key (cb_threshold cb) (cb_window cb)
      (foldl (cb_step key) (H, c) os).1 (foldl (cb_step key) (H, c) os).2 last) as Hgen.
  { destruct (Hgen [] cb) as [last [? ? ? ? Hb]]; [|specialize (Hb a); lia].
    constructor; [done|done|constructor| |].
    - simpl. rewrite lookup_empty. intros. unfold countP. simpl. lia.
    - intros. unfold countP. simpl. lia. }
  revert start Hs. induction os as [|o os IH]; intros start Hs H c Hi; [by exists start|].
  inversion_clear Hs as [|?? Hs' Hle]. apply Forall_cons in Hle as [Hle _]. simpl.
  pose proof (breaker_inv_step _ _ _ _ _ _ _ Hw Hle Hi) as Hi'.
  destruct (cb_step key (H, c) o) as [H' c']. by apply (IH (cb_time o)).
Qed.

Lemma cb_record_clean now key cb :
  2 ≤ cb_threshold cb → cb_actions cb !! key = None →
  cb_record now key cb
  = (true, mkBreaker (<[key := [now]]> (cb_actions cb)) (cb_threshold cb) (cb_window cb)
             (cb_tripped cb)).
Proof. intros Ht Ha. unfold cb_record. rewrite Ha. simpl. case_match eqn:E; [blia|done]. Qed.

(** A tripped workload is refused, with nothing recorded, until exactly
    one window after the trip; from then on the next action is allowed on a
    clean record (the threshold being at least 2), whether or not
    [IsTripped] was asked in between. *)
Theorem breaker_recovers_exactly cb ns wl T now :
  window_ok (cb_window cb) → 2 ≤ cb_threshold cb →
  cb_tripped cb !! cb_key ns wl = Some T →
  (now < T + cb_window cb → RecordAndCheck now ns wl cb = (false, cb)
     ∧ IsTripped now ns wl cb = (true, cb))
  ∧ (T + cb_window cb ≤ now →
     let r := RecordAndCheck now ns wl cb in
     r.1 = true ∧ cb_actions r.2 !! cb_key ns wl = Some [now]
     ∧ cb_tripped r.2 !! cb_key ns wl = None
     ∧ RecordAndCheck now ns wl (IsTripped now ns wl cb).2 = r).
Proof.
  intros Hw Ht HT. unfold RecordAndCheck, IsTripped. rewrite HT.
  rewrite time_Sub_lt, time_Sub_ge by done. split; intros Hnow.
  - assert ((now - T <? cb_window cb) = true) as -> by lia.
    by assert ((cb_window cb <=? now - T) = false) as -> by blia.
  - assert ((now - T <? cb_window cb) = false) as -> by lia.
    assert ((cb_window cb <=? now - T) = true) as -> by lia. simpl.
    rewrite lookup_delete_eq, cb_record_clean; [|done|apply lookup_delete_eq]. simpl.
    by simplify_map_eq.
Qed.

(** With a threshold of 1 the breaker allows nothing at all: the action
    that reaches the threshold is itself refused. *)
Theorem breaker_threshold_one_blocks_all cb now ns wl :
  window_ok (cb_window cb) → cb_threshold cb = 1 →
  (RecordAndCheck now ns wl cb).1 = false.
Proof.
  intros Hw Ht.
  assert (∀ c, cb_threshold c = 1 → (cb_record now (cb_key ns wl) c).1 = false) as Hr.
  { intros c Hc. unfold cb_record. rewrite Hc, length_app. simpl.
    case_match eqn:E; [done|blia]. }
  unfold RecordAndCheck. destruct (cb_tripped cb !! _); [|by apply Hr].
  destruct (_ <? _); [done|by apply Hr].
Qed.

(** ** Witnesses *)

Lemma cleanup_sweep_unobservable_witness :
  let d := (CheckFor 0 "ns/app/Crash" 10 (NewDeduplicator 10)).2 in
  seen (cleanup_sweep 10 d) = ∅ ∧ (CheckFor 12 "ns/app/Crash" 10 (cleanup_sweep 10 d)).1 = true.
Proof.
  intros d. split; [vm_compute; reflexivity|].
  rewrite (proj1 (cleanup_sweep_unobservable d 10 12 "ns/app/Crash" 10 ltac:(lia))).
  vm_compute. reflexivity.
Defined.

Lemma CheckFor_once_per_window_witness :
  let os := [DdCheck 0 "k" 10; DdCheck 5 "k" 10; DdSweep 7; DdCheck 11 "k" 10] in
  dd_passed "k" (NewDeduplicator 10) os = [0; 11]
  ∧ StronglySorted (λ a b, a + 10 ≤ b) (dd_passed "k" (NewDeduplicator 10) os).
Proof.
  intros os. split; [vm_compute; reflexivity|].
  apply (CheckFor_once_per_window "k" 10 (NewDeduplicator 10) os 0).
  - subst os. intros now t Hin. rewrite !elem_of_cons, elem_of_nil in Hin.
    destruct Hin as [?|[?|[?|[?|[]]]]]; congruence.
  - subst os. simpl. repeat constructor; lia.
Defined.

Lemma Allow_sliding_window_witness :
  let calls := [(0, 0); (1, 1); (2, 2); (11, 11); (12, 12)] in
  (foldl allow_step ([], NewActionLimiter 2 10) calls).1 = [0; 1; 11; 12]
  ∧ countP (in_window 1 10) [0; 1; 11; 12] ≤ 2.
Proof.
  intros calls. split; [vm_compute; reflexivity|].
  apply (Allow_sliding_window 2 10 calls 0); [unfold window_ok, max_int64; lia|].
  subst calls. simpl. lia.
Defined.

Lemma Allow_exact_witness :
  let l := mkLimiter [0; 1] 2 10 in (Allow 11 11 l).1 = true ∧ (Allow 10 10 l).1 = false.
Proof.
  intros l.
  assert (∀ c, (Allow c c l).1 = (countP (λ t, c - 10 <=? t) [0; 1] <? 2)) as Hl.
  { intros c. apply (Allow_exact l c c); [unfold window_ok, max_int64; simpl; lia|].
    subst l. simpl. repeat constructor; lia. }
  rewrite !Hl. split; vm_compute; reflexivity.
Defined.

Lemma breaker_bounds_actions_witness :
  let os := [CbRecord 0 "shop" "web"; CbRecord 1 "shop" "api"; CbRecord 2 "shop" "web";
             CbIsTripped 3 "shop" "web"; CbRecord 4 "shop" "web"] in
  let cb := NewCircuitBreaker 3 (10 * second) in
  (foldl (cb_step "shop/web") ([], cb) os).1 = [0; 2]
  ∧ countP (in_window_half 0 (10 * second)) [0; 2] ≤ 2.
Proof.
  intros os cb. split; [vm_compute; reflexivity|].
  apply (breaker_bounds_actions 3 (10 * second) "shop/web" os 0 0).
  - vm_compute. discriminate.
  - subst os. simpl. repeat constructor; lia.
Defined.

Lemma breaker_recovers_exactly_witness :
  let cb := mkBreaker ∅ 3 100 {[ "shop/web" := 50 ]} in
  RecordAndCheck 149 "shop" "web" cb = (false, cb)
  ∧ (RecordAndCheck 150 "shop" "web" cb).1 = true.
Proof.
  intros cb.
  assert (window_ok (cb_window cb)) as Hw by (unfold window_ok, max_int64; simpl; lia).
  split.
  - refine (proj1 (proj1 (breaker_recovers_exactly cb "shop" "web" 50 149 Hw _ eq_refl) _));
      subst cb; simpl; lia.
  - refine (proj1 (proj2 (breaker_recovers_exactly cb "shop" "web" 50 150 Hw _ eq_refl) _));
      subst cb; simpl; lia.
Defined.

Lemma breaker_threshold_one_blocks_all_witness :
  (RecordAndCheck 7 "shop" "web" (NewCircuitBreaker 1 hour)).1 = false.
Proof.
  apply breaker_threshold_one_blocks_all; [|reflexivity].
  split; vm_compute; [reflexivity|discriminate].
Defined.

(** [DEDUP_TTL_SECONDS=0] passes [Validate], and the deduplicator built from
    it starts a ticker with an interval of zero, which panics. *)
Example cleanup_panics_without_ttl : cleanup_start (NewDeduplicator (0 * second)) = None.
Proof. reflexivity. Qed.
