(* ===== verification/Guards.v ===== *)
(** * Guards: the guardrails of internal/kube and the policy CRD store

    [auditlog.go] (blast radius, quiet hours), [dryrun.go] (the dry-run
    log), [policycheck.go] (AutoRemediationPolicy refusals and their hourly
    budget) and [internal/crd/store.go]. *)
From S2P Require Import Prelude GoStd Policy RateLimit.
From Stdlib Require Import Ascii.
#[local] Open Scope Z_scope.

(** ** Blast radius *)

Record BlastRadiusTracker := mkBlast {
  namespaceCounts : gmap string Z;
  br_window : Duration;
  maxNamespaces : Z;
  lastReset : Time
}.

Definition NewBlastRadiusTracker (now : Time) (maxNs : Z) (window : Duration) : BlastRadiusTracker :=
  mkBlast ∅ window maxNs now.

(** [AllowAction]: the first clock reading decides whether the window has
    expired, the second dates the new one. *)
Definition AllowAction (now1 now2 : Time) (ns : string) (b : BlastRadiusTracker)
  : bool * BlastRadiusTracker :=
  let b := if br_window b <=? time_Sub now1 (lastReset b)
           then mkBlast ∅ (br_window b) (maxNamespaces b) now2 else b in
  let bump := mkBlast (<[ns := default 0 (namespaceCounts b !! ns) + 1]> (namespaceCounts b))
                (br_window b) (maxNamespaces b) (lastReset b) in
  match namespaceCounts b !! ns with
  | None =>
    if maxNamespaces b <=? Z.of_nat (size (namespaceCounts b)) then (false, b) else (true, bump)
  | Some _ => (true, bump)
  end.
(** Whether [AllowAction] takes its second clock reading. *)
Definition blast_expired (now : Time) (b : BlastRadiusTracker) : bool :=
  br_window b <=? time_Sub now (lastReset b).
Definition WouldAllow (now : Time) (ns : string) (b : BlastRadiusTracker) : bool :=
  if br_window b <=? time_Sub now (lastReset b) then 0 <? maxNamespaces b
  else match namespaceCounts b !! ns with
       | Some _ => true
       | None => Z.of_nat (size (namespaceCounts b)) <? maxNamespaces b
       end.
Definition AffectedNamespaces (b : BlastRadiusTracker) : Z :=
  Z.of_nat (size (namespaceCounts b)).

(** ** Quiet hours *)

Record TimeWindow := mkWindow { tw_Start : string; tw_End : string }.
Record QuietHours := mkQuiet { qh_enabled : bool; qh_windows : list TimeWindow }.

(** [splitBy] cuts at each separator; [start] is the piece being read,
    reversed. *)
Fixpoint splitBy_from (s : string) (sep : ascii) (piece : string) : list string :=
  match s with
  | EmptyString => [piece]
  | String c s' =>
    if bool_decide (c = sep) then piece :: splitBy_from s' sep ""
    else splitBy_from s' sep (piece +:+ String c "")
  end.
Definition splitBy (s : string) (sep : ascii) : list string := splitBy_from s sep "".

Definition is_blank (c : ascii) : bool := bool_decide (c = " "%char ∨ c = "009"%char).
Fixpoint trim_front (s : string) : string :=
  match s with
  | String c s' => if is_blank c then trim_front s' else s
  | EmptyString => s
  end.
Definition trimSpace (s : string) : string := str_rev (trim_front (str_rev (trim_front s))).

Definition splitComma (s : string) : list string :=
  filter (λ p, p ≠ "") (trimSpace <$> splitBy s ","%char).
Definition splitDash (s : string) : list string := splitBy s "-"%char.

Definition parse_window (w : string) : option TimeWindow :=
  match splitDash w with [a; b] => Some (mkWindow a b) | _ => None end.
Definition NewQuietHours (windows : string) : QuietHours :=
  if str_eqb windows "" then mkQuiet false []
  else mkQuiet true
    (omap parse_window (splitComma windows)).

(** [fmt.Sprintf("%02d:%02d", now.Hour(), now.Minute())]. *)
Definition two_digits (z : Z) : string := (if z <? 10 then "0" else "") +:+ itoa z.
Definition minute_of_day (now : Time) : Z := (now / minute) mod 1440.
Definition hhmm (m : Z) : string := two_digits (m / 60) +:+ ":" +:+ two_digits (m mod 60).

Definition in_TimeWindow (nowStr : string) (w : TimeWindow) : bool :=
  if str_leb (tw_Start w) (tw_End w)
  then str_leb (tw_Start w) nowStr && str_ltb nowStr (tw_End w)
  else str_leb (tw_Start w) nowStr || str_ltb nowStr (tw_End w).
Definition IsQuiet (now : Time) (qh : QuietHours) : bool :=
  if negb (qh_enabled qh) || bool_decide (qh_windows qh = []) then false
  else existsb (in_TimeWindow (hhmm (minute_of_day now))) (qh_windows qh).

(** ** The dry-run log *)

Record DryRunEntry := mkDryRun {
  de_Timestamp : Time; de_Namespace : string; de_Workload : string; de_Pod : string;
  de_Reason : string; de_Action : string; de_Detail : string; de_Blocked : string
}.
Record DryRunLog := mkDryRunLog { dl_entries : list DryRunEntry; dl_maxLen : Z }.

Definition NewDryRunLog (maxLen : Z) : DryRunLog :=
  mkDryRunLog [] (if maxLen <=? 0 then 200 else maxLen).
Definition DryRunLog_Record (now : Time) (e : DryRunEntry) (d : DryRunLog) : DryRunLog :=
  let e := if time_IsZero (de_Timestamp e)
           then mkDryRun now (de_Namespace e) (de_Workload e) (de_Pod e) (de_Reason e)
                  (de_Action e) (de_Detail e) (de_Blocked e) else e in
  mkDryRunLog (push_capped (dl_maxLen d) (dl_entries d) e) (dl_maxLen d).
Definition DryRunLog_Recent (n : Z) (d : DryRunLog) : list DryRunEntry := recent n (dl_entries d).

(** ** AutoRemediationPolicy store (internal/crd) *)
Module crd.
Record ScaleConfig := mkScale {
  sc_Enabled : bool; sc_MinReplicas : Z; sc_MaxReplicas : Z; sc_Step : Z;
  sc_AllowHPAOverride : bool
}.
Record Ticketing := mkTicketing {
  tk_Provider : string; tk_ProjectOrRepo : string;
  tk_Assignees : list string; tk_Labels : list string
}.
Record AnomalyRule := mkAnomaly {
  an_Name : string; an_PromQL : string; an_ZScoreThreshold : float64; an_MinSamples : Z
}.
(** [labels.Selector] is Kubernetes code: it enters as the function its
    [Matches] computes. *)
Record Policy := mkPolicy {
  Namespace : string;
  Name : string;
  Selector : gmap string string → bool;
  RestartStuckPods : option bool;
  BumpMemoryPercent : Z;
  Scale : ScaleConfig;
  SlackChannel : string;
  PTicketing : Ticketing;
  RunbookURL : string;
  Cooldown : string;
  MaxActionsPerHour : Z;
  RequireApproval : bool;
  Anomalies : list AnomalyRule
}.
(** The store; a nil store is [None] where it is used. *)
Abbreviation Store := (gmap string (list Policy)) (only parsing).
Definition NewStore : Store := ∅.
Definition Update (s : Store) (ns : string) (ps : list Policy) : Store := <[ns := ps]> s.
Definition Delete (s : Store) (ns : string) : Store := delete ns s.
Definition List (s : option Store) (ns : string) : list Policy :=
  match s with None => [] | Some s => default [] (s !! ns) end.
Definition Match (s : option Store) (ns : string) (lbls : gmap string string) : list Policy :=
  match s with
  | None => []
  | Some s => filter (λ p, Selector p lbls = true) (default [] (s !! ns))
  end.
Definition AllNamespaces `{RangeOrder} (s : Store) : list string := (range_map s).*1.
Definition AllPolicies `{RangeOrder} (s : Store) : list Policy := mjoin (range_map s).*2.
End crd.

(** ** Policy refusals and the hourly budget *)

(** [effectivePolicy]: the first matching policy; labels that are nil match
    none. *)
Definition effectivePolicy (store : option (gmap string (list crd.Policy))) (ns : string)
  (labels : option (gmap string string)) : option crd.Policy :=
  match labels with
  | None => None
  | Some l => head (crd.Match store ns l)
  end.

(** [parseDuration]: the fallback, when it is itself wrong, gives zero. *)
Definition parseDuration (s fallback : string) : Duration :=
  match time_ParseDuration s with
  | Some d => d
  | None => default 0 (time_ParseDuration fallback)
  end.
Definition effectiveCooldown (pol : option crd.Policy) (globalUp globalDown : string)
  : Duration * Duration :=
  let up := parseDuration globalUp "2m" in
  let down := parseDuration globalDown "10m" in
  match pol with
  | Some p =>
    if str_eqb (crd.Cooldown p) "" then (up, down)
    else let cd := parseDuration (crd.Cooldown p) "" in
         if 0 <? cd then (cd, cd) else (up, down)
  | None => (up, down)
  end.

Abbreviation PolicyBudget := (gmap string (list Time)) (only parsing).
Definition NewPolicyBudget : PolicyBudget := ∅.
Definition Used (key : string) (now : Time) (b : PolicyBudget) : Z * PolicyBudget :=
  let kept := filter (λ t, (time_Sub now t <? hour) = true) (default [] (b !! key)) in
  (Z.of_nat (length kept), <[key := kept]> b).
Definition budget_Record (key : string) (now : Time) (b : PolicyBudget) : PolicyBudget :=
  <[key := default [] (b !! key) ++ [now]]> b.

Definition policyKey (pol : crd.Policy) : string := crd.Namespace pol +:+ "/" +:+ crd.Name pol.

(** The refusals that need no budget, [""] being none, and whether the
    budget decides. *)
Inductive refusal := RefuseNow (why : string) | AskBudget (limit : Z).
Definition policyRefusal_static (pol : option crd.Policy) (actionType : string) : refusal :=
  match pol with
  | None => RefuseNow ""
  | Some p =>
    if crd.RequireApproval p then RefuseNow "CRD policy requires manual approval"
    else if str_eqb actionType "delete_pod" && bool_decide (crd.RestartStuckPods p = Some false)
    then RefuseNow ("CRD policy " +:+ crd.Name p
                    +:+ " turns off pod restarts (actions.restartStuckPods: false)")
    else if crd.MaxActionsPerHour p <=? 0 then RefuseNow ""
    else AskBudget (crd.MaxActionsPerHour p)
  end.
(** [policyRefusal]; the clock is read only when the budget is asked. *)
Definition policyRefusal (now : Time) (budget : option PolicyBudget) (pol : option crd.Policy)
  (actionType : string) : string * option PolicyBudget :=
  match policyRefusal_static pol actionType, pol with
  | RefuseNow why, _ => (why, budget)
  | AskBudget _, None => ("", budget)
  | AskBudget limit, Some p =>
    match budget with
    | None => ("CRD policy " +:+ crd.Name p
               +:+ " sets maxActionsPerHour but no budget tracker is configured", None)
    | Some b =>
      let '(used, b') := Used (policyKey p) now b in
      ((if limit <=? used
        then "CRD policy " +:+ crd.Name p +:+ " allows " +:+ itoa limit
             +:+ " actions per hour, " +:+ itoa used +:+ " used"
        else ""), Some b')
    end
  end.

(** ** The blast radius *)

(** [WouldAllow], which dry-run and the preview ask, foretells what
    [AllowAction] answers at that moment, for every namespace and state. *)
Theorem WouldAllow_predicts now now2 ns b :
  (AllowAction now now2 ns b).1 = WouldAllow now ns b.
Proof.
  unfold AllowAction, WouldAllow. destruct (br_window b <=? _); cbn [namespaceCounts maxNamespaces].
  - rewrite lookup_empty, map_size_empty.
    destruct (maxNamespaces b <=? _) eqn:?; cbn [fst]; symmetry; blia.
  - destruct (namespaceCounts b !! ns); [done|].
    destruct (maxNamespaces b <=? _) eqn:?; cbn [fst]; symmetry; blia.
Qed.

(** A run of requests, with the set of namespaces allowed. *)
Definition blast_step (sb : gset string * BlastRadiusTracker) (call : Time * Time * string)
  : gset string * BlastRadiusTracker :=
  let '(now1, now2, ns) := call in
  let r := AllowAction now1 now2 ns sb.2 in
  (if r.1 then {[ns]} ∪ sb.1 else sb.1, r.2).

Lemma AllowAction_dom now now2 ns b :
  blast_expired now b = false →
  let r := AllowAction now now2 ns b in
  maxNamespaces r.2 = maxNamespaces b ∧ br_window r.2 = br_window b ∧ lastReset r.2 = lastReset b
  ∧ dom (namespaceCounts r.2) = (if r.1 then {[ns]} ∪ dom (namespaceCounts b) else dom (namespaceCounts b))
  ∧ (Z.of_nat (size (namespaceCounts b)) ≤ Z.max 0 (maxNamespaces b) →
     Z.of_nat (size (namespaceCounts r.2)) ≤ Z.max 0 (maxNamespaces b)).
Proof.
  unfold blast_expired, AllowAction. intros ->.
  destruct (namespaceCounts b !! ns) as [n|] eqn:E; simpl.
  - rewrite dom_insert_L. split_and!; try done. by rewrite map_size_insert, E. 
  - destruct (maxNamespaces b <=? _) eqn:?; simpl; [done|].
    rewrite dom_insert_L. split_and!; try done. intros.
    rewrite map_size_insert, E. simpl. blia.
Qed.

(** While one window lasts, the namespaces allowed, together with those
    already counted in it, never exceed the limit, whatever is asked. *)
Theorem blast_radius_bounded b calls :
  Z.of_nat (size (namespaceCounts b)) ≤ Z.max 0 (maxNamespaces b) →
  Forall (λ c, blast_expired c.1.1 b = false) calls →
  Z.of_nat (size ((foldl blast_step (∅, b) calls).1 ∪ dom (namespaceCounts b)))
    ≤ Z.max 0 (maxNamespaces b).
Proof.
  intros Hb Hc.
  enough (∀ s c, maxNamespaces c = maxNamespaces b → br_window c = br_window b →
    lastReset c = lastReset b → s ∪ dom (namespaceCounts b) = dom (namespaceCounts c) →
    Z.of_nat (size (namespaceCounts c)) ≤ Z.max 0 (maxNamespaces b) →
    let r := foldl blast_step (s, c) calls in
    r.1 ∪ dom (namespaceCounts b) = dom (namespaceCounts r.2)
    ∧ Z.of_nat (size (namespaceCounts r.2)) ≤ Z.max 0 (maxNamespaces b)) as Hgen.
  { destruct (Hgen ∅ b) as [-> Hs]; [done..|set_solver|done|]. by rewrite size_dom. }
  induction Hc as [|[[now now2] ns] calls Hx _ IH]; [done|]. intros s c Hm Hw Hr Hd Hs. simpl.
  assert (blast_expired now c = false) as Hx'.
  { unfold blast_expired in *. by rewrite Hw, Hr. }
  destruct (AllowAction_dom now now2 ns c Hx') as (H1 & H2 & H3 & H4 & H5).
  apply IH; [congruence..| |].
  - rewrite H4, <-Hd. destruct (AllowAction now now2 ns c).1; simpl; set_solver.
  - rewrite Hm in H5. auto.
Qed.

(** ** Quiet hours *)

Lemma splitBy_Split s sep : splitBy s sep = strings_Split s sep.
Proof.
  unfold splitBy.
  enough (∀ p, splitBy_from s sep p
    = match strings_Split s sep with w :: ws => (p +:+ w) :: ws | [] => [] end) as ->.
  { by destruct (strings_Split_cons s sep) as (w & ws & ->). }
  induction s as [|c s IH]; intros p; simpl; [by rewrite str_app_nil_r|].
  case_bool_decide; rewrite IH.
  - destruct (strings_Split_cons s sep) as (w & ws & ->). by rewrite str_app_nil_r.
  - destruct (strings_Split_cons s sep) as (w & ws & ->). by rewrite str_app_assoc.
Qed.

(** A text whose first and last bytes are not blank is left alone. *)
Definition tight (s : string) : bool :=
  match s, str_rev s with
  | String a _, String b _ => negb (is_blank a) && negb (is_blank b)
  | _, _ => false
  end.
Lemma trim_front_id s t : match s with String a _ => is_blank a = false | _ => False end →
  trim_front (s +:+ t) = s +:+ t.
Proof. destruct s as [|a s]; [done|]. intros Ha. rewrite str_app_cons. simpl. by rewrite Ha. Qed.
Lemma trimSpace_tight a b : tight a = true → tight b = true → trimSpace (a +:+ "-" +:+ b) = a +:+ "-" +:+ b.
Proof.
  unfold tight, trimSpace. intros Ha Hb.
  rewrite trim_front_id.
  - rewrite !str_rev_app, str_app_assoc, trim_front_id.
    + by rewrite !str_rev_app, !str_rev_involutive, str_app_assoc.
    + destruct b; [done|]. destruct (str_rev _); [done|]. by apply andb_true_iff in Hb as [_ ?%negb_true_iff].
  - destruct a; [done|]. destruct (str_rev _); [done|]. by apply andb_true_iff in Ha as [?%negb_true_iff _].
Qed.

(** What the 1440 minute texts satisfy, checked one by one. *)
Definition hhmm_ok (m : Z) : bool :=
  tight (hhmm m)
  && bool_decide (strings_Split (hhmm m) "-"%char = [hhmm m])
  && bool_decide (strings_Split (hhmm m) ","%char = [hhmm m])
  && (str_leb (hhmm m) (hhmm (m + 1)) && negb (str_leb (hhmm (m + 1)) (hhmm m))
      || bool_decide (m = 1439)).
Definition minute_ok (m : Z) : Prop := 0 ≤ m < 1440.

Lemma hhmm_ok_all : forallb hhmm_ok (seqZ 0 1440) = true.
Proof. vm_compute. reflexivity. Qed.
Lemma hhmm_facts m : minute_ok m → hhmm_ok m = true.
Proof.
  intros Hm. pose proof hhmm_ok_all as H. rewrite forallb_forall in H. apply H.
  apply list_elem_of_In, elem_of_seqZ. unfold minute_ok in Hm. lia.
Qed.

Lemma str_leb_trans a b c : str_leb a b = true → str_leb b c = true → str_leb a c = true.
Proof.
  unfold str_leb. rewrite <-!Is_true_true. apply (transitivity (R := String.le)).
Qed.
Lemma str_ltb_leb a b : str_ltb a b = negb (str_leb b a).
Proof.
  unfold str_ltb, str_leb, String.ltb, String.leb. rewrite String.compare_antisym.
  by destruct (String.compare b a).
Qed.

(** The text order of [HH:MM] is the order of minutes. *)
Lemma hhmm_step m : 0 ≤ m < 1439 →
  str_leb (hhmm m) (hhmm (m + 1)) = true ∧ str_leb (hhmm (m + 1)) (hhmm m) = false.
Proof.
  intros Hm. pose proof (hhmm_facts m ltac:(unfold minute_ok; lia)) as H.
  unfold hhmm_ok in H. rewrite (bool_decide_false (m = 1439)) in H by lia.
  rewrite orb_false_r, !andb_true_iff, negb_true_iff in H. tauto.
Qed.
Lemma hhmm_mono a b : 0 ≤ a ≤ b → b < 1440 → str_leb (hhmm a) (hhmm b) = true.
Proof.
  intros Hab Hb.
  assert (∀ n : nat, a + Z.of_nat n < 1440 → str_leb (hhmm a) (hhmm (a + Z.of_nat n)) = true) as Hn.
  { induction n as [|n IH]; intros Hlt.
    - rewrite Z.add_0_r. destruct (String.leb_total (hhmm a) (hhmm a)); done.
    - eapply str_leb_trans; [apply IH; lia|].
      replace (a + Z.of_nat (S n)) with (a + Z.of_nat n + 1) by lia. apply hhmm_step. lia. }
  specialize (Hn (Z.to_nat (b - a))). rewrite Z2Nat.id in Hn by lia.
  replace (a + (b - a)) with b in Hn by lia. auto.
Qed.
Lemma hhmm_leb a b : minute_ok a → minute_ok b → str_leb (hhmm a) (hhmm b) = (a <=? b).
Proof.
  unfold minute_ok. intros Ha Hb. destruct (a <=? b) eqn:Hab.
  - apply hhmm_mono; blia.
  - destruct (str_leb (hhmm a) (hhmm b)) eqn:E; [|done].
    destruct (hhmm_step b) as [_ Hs]; [blia|].
    rewrite (str_leb_trans _ _ _ (hhmm_mono (b + 1) a ltac:(blia) ltac:(lia)) E) in Hs. done.
Qed.

(** A quiet window in minutes of the day, and its text. *)
Definition in_minutes (w : Z * Z) (m : Z) : bool :=
  if w.1 <=? w.2 then (w.1 <=? m) && (m <? w.2) else (w.1 <=? m) || (m <? w.2).
Definition window_text (w : Z * Z) : string := hhmm w.1 +:+ "-" +:+ hhmm w.2.

Lemma window_text_facts w : minute_ok w.1 → minute_ok w.2 →
  no_byte ","%char (window_text w) ∧ splitDash (window_text w) = [hhmm w.1; hhmm w.2]
  ∧ trimSpace (window_text w) = window_text w ∧ window_text w ≠ "".
Proof.
  intros H1%hhmm_facts H2%hhmm_facts. unfold hhmm_ok in *.
  rewrite !andb_true_iff, !bool_decide_eq_true in H1, H2.
  destruct H1 as [[[Ht1 Hd1] Hc1] _], H2 as [[[Ht2 Hd2] Hc2] _].
  unfold window_text. split_and!.
  - unfold no_byte. rewrite strings_Split_app_none by done.
    by rewrite (strings_Split_app_none "-") , Hc2 by done.
  - unfold splitDash. rewrite splitBy_Split. change ("-" +:+ hhmm w.2) with (String "-" (hhmm w.2)).
    by rewrite strings_Split_app, Hd1, Hd2.
  - by apply trimSpace_tight.
  - by destruct (hhmm w.1).
Qed.

(** Quiet hours written as [HH:MM-HH:MM,...] mean what they say: the
    parsed windows are quiet at exactly the minutes of the UTC day that lie
    in one of them, an end before its start wrapping over midnight, although
    the code compares texts. *)
Theorem QuietHours_minutes ws now :
  Forall (λ w, minute_ok w.1 ∧ minute_ok w.2) ws →
  IsQuiet now (NewQuietHours (strings_Join (window_text <$> ws) ","))
  = existsb (λ w, in_minutes w (minute_of_day now)) ws.
Proof.
  intros Hws. destruct ws as [|w0 ws0]; [done|]. set (ws := w0 :: ws0) in *.
  assert (qh_windows (NewQuietHours (strings_Join (window_text <$> ws) ","))
    = (λ w, mkWindow (hhmm w.1) (hhmm w.2)) <$> ws
    ∧ qh_enabled (NewQuietHours (strings_Join (window_text <$> ws) ",")) = true) as [Hw He].
  { assert (splitComma (strings_Join (window_text <$> ws) ",") = window_text <$> ws) as Hsplit.
    { unfold splitComma. rewrite splitBy_Split, strings_Split_Join by done.
      clearbody ws. induction Hws as [|w ws [H1 H2] _ IH]; [done|].
      destruct (window_text_facts w H1 H2) as (Hc & _ & Ht & Hne). unfold no_byte in Hc.
      rewrite !fmap_cons.
      change (mjoin (?x :: ?l)) with (x ++ mjoin l). rewrite Hc, fmap_app, filter_app, IH.
      change (trimSpace <$> [window_text w]) with [trimSpace (window_text w)].
      by rewrite Ht, filter_cons, decide_True. }
    unfold NewQuietHours. destruct (str_eqb _ "") eqn:E.
    { apply str_eqb_eq in E. rewrite E in Hsplit. by vm_compute in Hsplit. }
    cbn [qh_windows qh_enabled]. split; [|done]. rewrite Hsplit. clear - Hws. clearbody ws.
    induction Hws as [|w ws [H1 H2] _ IH]; [done|].
    destruct (window_text_facts w H1 H2) as (_ & Hd & _). rewrite !fmap_cons, <-IH.
    assert (parse_window (window_text w) = Some (mkWindow (hhmm w.1) (hhmm w.2))) as Hp
      by (unfold parse_window; by rewrite Hd).
    change (omap parse_window (?x :: ?l))
      with (match parse_window x with Some y => y :: omap parse_window l | None => omap parse_window l end).
    by rewrite Hp. }
  unfold IsQuiet. rewrite Hw, He. rewrite bool_decide_false by (by subst ws). simpl negb.
  cbv [orb]. clear - Hws. clearbody ws. pose proof (Z.mod_pos_bound (now / minute) 1440 ltac:(lia)) as Hm.
  fold (minute_of_day now) in Hm.
  induction Hws as [|w ws [H1 H2] _ IH]; [done|]. rewrite fmap_cons. simpl. rewrite IH. f_equal.
  unfold in_TimeWindow, in_minutes. simpl. rewrite str_ltb_leb, !hhmm_leb by done.
  destruct (w.1 <=? w.2), (w.1 <=? minute_of_day now); simpl; try done;
    destruct (w.2 <=? minute_of_day now) eqn:?; simpl; symmetry; blia.
Qed.

(** ** The hourly budget of a policy *)

(** One action under a policy: asked at the first reading, and, when it was
    not refused and went through, recorded at the second; with the times
    recorded for the policy [key]. *)
Record budget_call := mkBudgetCall {
  bc_ask : Time; bc_record : Time; bc_policy : crd.Policy; bc_action : string; bc_applied : bool
}.
Definition budget_step (key : string) (hb : list Time * PolicyBudget) (c : budget_call)
  : list Time * PolicyBudget :=
  let r := policyRefusal (bc_ask c) (Some hb.2) (Some (bc_policy c)) (bc_action c) in
  let b := default hb.2 r.2 in
  if str_eqb r.1 "" && bc_applied c && (0 <? crd.MaxActionsPerHour (bc_policy c))
  then (if str_eqb (policyKey (bc_policy c)) key then hb.1 ++ [bc_record c] else hb.1,
        budget_Record (policyKey (bc_policy c)) (bc_record c) b)
  else (hb.1, b).
Fixpoint budget_clock (last : Time) (cs : list budget_call) : Prop :=
  match cs with
  | [] => True
  | c :: cs' => last ≤ bc_ask c ∧ bc_ask c ≤ bc_record c ∧ budget_clock (bc_record c) cs'
  end.

Record budget_inv (key : string) (n : Z) (H : list Time) (b : PolicyBudget) (last : Time) : Prop := {
  pb_past : Forall (λ t, t ≤ last) H;
  pb_kept : ∀ a, last - hour < a →
    countP (λ t, a <=? t) H ≤ countP (λ t, a <=? t) (default [] (b !! key));
  pb_bound : ∀ a, countP (in_window_half a hour) H ≤ Z.max 0 n
}.

(** What the gate asks keeps what it needs: a policy's own hits of the last
    hour, and every other policy's. *)
Lemma policyRefusal_kept now b p action key a :
  now - hour < a →
  countP (λ t, a <=? t) (default [] (default b (policyRefusal now (Some b) (Some p) action).2 !! key))
  = countP (λ t, a <=? t) (default [] (b !! key)).
Proof.
  intros Ha. unfold policyRefusal. destruct (policyRefusal_static _ _); [done|]. simpl.
  destruct (decide (policyKey p = key)) as [->|?]; simplify_map_eq; [|done].
  apply countP_filter. intros t Ht. rewrite time_Sub_lt by (unfold hour, max_int64; vm_compute; split; congruence).
  blia.
Qed.
Lemma policyRefusal_full now b p action :
  (policyRefusal now (Some b) (Some p) action).1 = "" → 0 < crd.MaxActionsPerHour p →
  countP (λ t, time_Sub now t <? hour) (default [] (b !! policyKey p)) < crd.MaxActionsPerHour p.
Proof.
  unfold policyRefusal, policyRefusal_static. intros Hr Hpos.
  destruct (crd.RequireApproval p); [done|].
  destruct (str_eqb _ _ && _); [done|]. destruct (_ <=? 0) eqn:Hz; [blia|clear Hz].
  unfold Used in Hr. cbn [fst snd] in Hr.
  destruct (crd.MaxActionsPerHour p <=? _) eqn:E; [done|]. unfold countP. blia.
Qed.

Lemma budget_inv_step key n H b last c :
  last ≤ bc_ask c → bc_ask c ≤ bc_record c →
  (policyKey (bc_policy c) = key → crd.MaxActionsPerHour (bc_policy c) = n) →
  budget_inv key n H b last →
  budget_inv key n (budget_step key (H, b) c).1 (budget_step key (H, b) c).2 (bc_record c).
Proof.
  intros H1 H2 Hn [Hp Hk Hb]. unfold budget_step. cbn [fst snd].
  pose proof (Forall_le_weaken _ last (bc_record c) ltac:(lia) Hp) as Hp2.
  assert (∀ a, bc_ask c - hour < a → countP (λ t, a <=? t) H ≤ countP (λ t, a <=? t) (default []
    (default b (policyRefusal (bc_ask c) (Some b) (Some (bc_policy c)) (bc_action c)).2 !! key))) as Hk'.
  { intros a Ha. rewrite policyRefusal_kept by done. apply Hk. lia. }
  set (b' := default b _) in *. destruct (str_eqb _ "" && _ && _) eqn:Hgo; cbn [fst snd].
  2:{ constructor; [done| |done]. intros a Ha. apply Hk'. lia. }
  apply andb_true_iff in Hgo as [[Hr%str_eqb_eq _]%andb_true_iff Hpos].
  unfold budget_Record. rewrite str_eqb_decide. case_bool_decide as Hkey; last first.
  { constructor; [done| |done]. intros a Ha. rewrite lookup_insert_ne by done. apply Hk'. lia. }
  subst key. constructor.
  - apply Forall_app. repeat constructor; [done|lia].
  - intros a Ha. rewrite lookup_insert_eq. change (default [] (Some ?x)) with x.
    rewrite !countP_app. specialize (Hk' a ltac:(lia)). lia.
  - intros a. rewrite countP_app, countP_one. specialize (Hb a).
    destruct (in_window_half a hour (bc_record c)) eqn:Hin; [|lia].
    unfold in_window_half in Hin.
    pose proof (policyRefusal_full _ _ _ _ Hr ltac:(blia)) as Hfull. rewrite Hn in Hfull by done.
    assert (countP (in_window_half a hour) H ≤ countP (λ t, a <=? t) H).
    { apply countP_weaken, Forall_true. unfold in_window_half. intros; blia. }
    specialize (Hk a ltac:(blia)).
    assert (countP (λ t, a <=? t) (default [] (b !! policyKey (bc_policy c)))
      ≤ countP (λ t, time_Sub (bc_ask c) t <? hour) (default [] (b !! policyKey (bc_policy c)))); [|lia].
    apply countP_weaken, Forall_true. intros t Ht.
    rewrite time_Sub_lt by (vm_compute; split; congruence). blia.
Qed.

(** [maxActionsPerHour] is a promise about every hour: in any sequence
    of actions, under this policy and others, no window of an hour holds more
    recorded actions of the policy than it allows. *)
Theorem policy_budget_bounded key n cs start :
  budget_clock start cs →
  Forall (λ c, policyKey (bc_policy c) = key → crd.MaxActionsPerHour (bc_policy c) = n) cs →
  ∀ a, countP (in_window_half a hour) (foldl (budget_step key) ([], NewPolicyBudget) cs).1
    ≤ Z.max 0 n.
Proof.
  intros Hc Hn. enough (∀ H b, budget_inv key n H b start →
    ∃ last, budget_inv key n (foldl (budget_step key) (H, b) cs).1
              (foldl (budget_step key) (H, b) cs).2 last) as Hgen.
  { destruct (Hgen [] NewPolicyBudget) as [last Hi]; [|apply Hi].
    constructor; [constructor|done|]. intros. unfold countP. simpl. lia. }
  revert start Hc. induction Hn as [|c cs Hx _ IH]; intros start Hc H b Hi; [by exists start|].
  destruct Hc as (H1 & H2 & Hc). simpl.
  pose proof (budget_inv_step _ _ _ _ _ _ H1 H2 Hx Hi) as Hi'.
  destruct (budget_step key (H, b) c) as [H' b']. by apply (IH (bc_record c)).
Qed.

(** ** Witnesses *)

Lemma blast_radius_bounded_witness :
  let b := NewBlastRadiusTracker 0 2 (10 * second) in
  let calls := [(1, 1, "a"); (2, 2, "b"); (3, 3, "c"); (4, 4, "a")] in
  elements (foldl blast_step (∅, b) calls).1 = ["a"; "b"]
  ∧ Z.of_nat (size ((foldl blast_step (∅, b) calls).1 ∪ dom (namespaceCounts b))) ≤ 2.
Proof.
  intros b calls. split; [vm_compute; reflexivity|].
  apply (blast_radius_bounded b calls).
  - vm_compute. discriminate.
  - subst calls. repeat constructor.
Defined.

Lemma QuietHours_minutes_witness :
  let qh := NewQuietHours "22:00-06:00,14:00-14:30" in
  IsQuiet (23 * hour) qh = true ∧ IsQuiet (14 * hour + 30 * minute) qh = false.
Proof.
  intros qh.
  assert (∀ now, IsQuiet now qh
    = existsb (λ w, in_minutes w (minute_of_day now)) [(1320, 360); (840, 870)]) as Hq.
  { intros now. apply (QuietHours_minutes [(1320, 360); (840, 870)] now).
    repeat constructor; vm_compute; (discriminate || reflexivity). }
  rewrite !Hq. split; vm_compute; reflexivity.
Defined.

Definition demo_policy (limit : Z) : crd.Policy :=
  crd.mkPolicy "shop" "p" (λ _, true) None 0 (crd.mkScale false 0 0 0 false) ""
    (crd.mkTicketing "" "" [] []) "" "" limit false [].

Lemma policy_budget_bounded_witness :
  let cs := (λ t, mkBudgetCall t (t + 1) (demo_policy 2) "delete_pod" true) <$> [10; 20; 30; 40] in
  let H := (foldl (budget_step "shop/p") ([], NewPolicyBudget) cs).1 in
  H = [11; 21] ∧ ∀ a, countP (in_window_half a hour) H ≤ 2.
Proof.
  intros cs H. split; [vm_compute; reflexivity|].
  apply (policy_budget_bounded "shop/p" 2 cs 0).
  - repeat split; vm_compute; discriminate.
  - subst cs. repeat constructor.
Defined.

(** [AffectedNamespaces] keeps the counts of a window that has ended until
    the next [AllowAction]. *)
Example AffectedNamespaces_is_stale :
  let b := (AllowAction 1 1 "shop" (NewBlastRadiusTracker 0 1 10)).2 in
  blast_expired 100 b = true ∧ AffectedNamespaces b = 1.
Proof. vm_compute. done. Qed.
