(* ===== verification/Controller.v ===== *)
(** * Policy controller: internal/crd/controller.go

    How an AutoRemediationPolicy object becomes a [crd.Policy], and how the
    store is brought in line with the objects the informer knows.  An object
    is the untyped tree the dynamic client decodes. *)
From S2P Require Import Prelude GoStd Guards.
From Stdlib Require Import SpecFloat.
#[local] Open Scope Z_scope.

(** ** Untyped objects *)

(** [interface{}] as the decoder of unstructured objects fills it: a whole
    number that fits is an [int64], any other number a [float64]. *)
Inductive value :=
| VNull | VBool (b : bool) | VInt (z : Z) | VFloat (f : float64) | VString (s : string)
| VList (l : list value) | VMap (m : list (string * value)).
Fixpoint field (m : list (string * value)) (k : string) : value :=
  match m with
  | [] => VNull
  | (k', v) :: m' => if str_eqb k' k then v else field m' k
  end.
(** The type assertions [v.(T)], with their second result. *)
Definition as_map (v : value) : option (list (string * value)) := match v with VMap m => Some m | _ => None end.
Definition as_list (v : value) : option (list value) := match v with VList l => Some l | _ => None end.
Definition as_bool (v : value) : option bool := match v with VBool b => Some b | _ => None end.
Definition as_string (v : value) : option string := match v with VString s => Some s | _ => None end.
Definition as_float (v : value) : option float64 := match v with VFloat f => Some f | _ => None end.

(** [int(f)] and [int32(f)]: towards zero; what does not fit gives the least
    value, as on amd64. *)
Definition to_int (lo hi : Z) (f : float64) : Z :=
  match f with
  | S754_nan | S754_infinity _ => lo
  | _ => let z := f64_int f in if (lo <=? z) && (z <=? hi) then z else lo
  end.
Definition float_int : float64 → Z := to_int min_int64 max_int64.
Definition float_int32 : float64 → Z := to_int (- 2 ^ 31) (2 ^ 31 - 1).
(** A number read as an [int64] and then as a [float64], as an [int] and as
    an [int32]; what is neither leaves zero. *)
Definition read_int (v : value) : Z :=
  match v with VInt z => z | VFloat f => float_int f | _ => 0 end.
Definition read_int32 (v : value) : Z :=
  match v with VInt z => wrap32 z | VFloat f => float_int32 f | _ => 0 end.
Definition read_string (v : value) : string := default "" (as_string v).
Definition read_bool (v : value) : bool := default false (as_bool v).
Definition read_strings (v : value) : list string := omap as_string (default [] (as_list v)).

Section controller.
(** Kubernetes' selectors, and [%v] of a value that is not a text, a
    boolean or a whole number. *)
Context (SelectorFromSet : gmap string string → gmap string string → bool) (other_text : value → string).

Definition fmt_v (v : value) : string :=
  match v with VString s => s | VBool b => fmt_t b | VInt z => itoa z | _ => other_text v end.

(** ** Parsing *)
Definition parseScaleConfig (sc : list (string * value)) : crd.ScaleConfig :=
  crd.mkScale (read_bool (field sc "enabled")) (read_int32 (field sc "minReplicas")) (read_int32 (field sc "maxReplicas"))
    (read_int32 (field sc "step")) (read_bool (field sc "allowHPAOverride")).
Definition parseTicketing (t : list (string * value)) : crd.Ticketing :=
  crd.mkTicketing (read_string (field t "provider")) (read_string (field t "projectOrRepo"))
    (read_strings (field t "assignees")) (read_strings (field t "labels")).
Definition parse_anomaly (v : value) : option crd.AnomalyRule :=
  m ← as_map v;
  Some (crd.mkAnomaly (read_string (field m "name")) (read_string (field m "promql"))
          (default f64_zero (as_float (field m "zscoreThreshold"))) (read_int (field m "minSamples"))).
(** The labels of [matchLabels]; the only part of a selector that is read. *)
Definition match_labels (ts : list (string * value)) : gmap string string :=
  list_to_map ((λ kv : string * value, (kv.1, fmt_v kv.2)) <$> default [] (as_map (field ts "matchLabels"))).
Definition selector_of (spec : list (string * value)) : gmap string string → bool :=
  match as_map (field spec "targetSelector") with
  | Some ts => SelectorFromSet (match_labels ts)
  | None => λ _, true
  end.
Definition section_of (spec : list (string * value)) (k : string) : list (string * value) :=
  default [] (as_map (field spec k)).

(** What is read of an object: its namespace and name, and its content. *)
Record Unstructured := mkObject { u_Namespace : string; u_Name : string; u_Object : list (string * value) }.
(** [None] is an object without a [spec]. *)
Definition parse (u : Unstructured) : option crd.Policy :=
  spec ← as_map (field (u_Object u) "spec");
  let act := section_of spec "actions" in
  let esc := section_of spec "escalation" in
  let sa := section_of spec "safety" in
  Some {|
    crd.Namespace := u_Namespace u; crd.Name := u_Name u; crd.Selector := selector_of spec;
    crd.RestartStuckPods := as_bool (field act "restartStuckPods");
    crd.BumpMemoryPercent := read_int (field act "bumpMemoryPercent");
    crd.Scale := parseScaleConfig (section_of act "scale");
    crd.SlackChannel := read_string (field esc "slackChannel");
    crd.PTicketing := parseTicketing (section_of esc "ticketing");
    crd.RunbookURL := read_string (field esc "runbookURL");
    crd.Cooldown := read_string (field sa "cooldown");
    crd.MaxActionsPerHour := read_int (field sa "maxActionsPerHour");
    crd.RequireApproval := read_bool (field sa "requireApproval");
    crd.Anomalies := omap parse_anomaly (default [] (as_list (field spec "anomalies")))
  |}.

(** ** Keeping the store in line *)

(** The objects of the informer's cache; what is no such object is
    skipped. *)
Definition add_policy (m : gmap string (list crd.Policy)) (u : Unstructured) : gmap string (list crd.Policy) :=
  match parse u with
  | Some p => <[u_Namespace u := default [] (m !! u_Namespace u) ++ [p]]> m
  | None => m
  end.
Definition policies_of (objs : list Unstructured) : gmap string (list crd.Policy) := foldl add_policy ∅ objs.
Definition syncAll `{RangeOrder} (store : gmap string (list crd.Policy)) (objs : list Unstructured)
  : gmap string (list crd.Policy) :=
  let nsMap := policies_of objs in
  let kept := foldl (λ s ns, match nsMap !! ns with Some _ => s | None => crd.Delete s ns end) store
                (crd.AllNamespaces store) in
  foldl (λ s (e : string * list crd.Policy), crd.Update s e.1 e.2) kept (range_map nsMap).

(** *** What the store holds *)
Definition parsed_in (objs : list Unstructured) (ns : string) : list crd.Policy :=
  omap parse (filter (λ u, u_Namespace u = ns) objs).

Lemma policies_of_lookup objs ns :
  policies_of objs !! ns = match parsed_in objs ns with [] => None | l => Some l end.
Proof.
  unfold policies_of, parsed_in.
  assert (∀ m : gmap string (list crd.Policy), foldl add_policy m objs !! ns =
    match omap parse (filter (λ u, u_Namespace u = ns) objs) with
    | [] => m !! ns | l => Some (default [] (m !! ns) ++ l) end) as H.
  { induction objs as [|u objs IH]; intros m; cbn [foldl]; [done|]. rewrite IH. clear IH. unfold add_policy.
    rewrite filter_cons. destruct (parse u) as [p|] eqn:E.
    - destruct (decide (u_Namespace u = ns)) as [<-|Hn]; cbn [omap list_omap].
      + rewrite E, lookup_insert_eq. cbn. destruct (omap parse _); [done|]. by rewrite <-(assoc_L (++)).
      + by rewrite lookup_insert_ne by done.
    - destruct (decide (u_Namespace u = ns)); cbn [omap list_omap]; [by rewrite E|done]. }
  rewrite H, lookup_empty. done.
Qed.

Lemma updates_lookup (l : list (string * list crd.Policy)) s ns :
  NoDup l.*1 →
  foldl (λ s (e : string * list crd.Policy), crd.Update s e.1 e.2) s l !! ns =
    match (list_to_map l : gmap string (list crd.Policy)) !! ns with Some v => Some v | None => s !! ns end.
Proof.
  revert s. induction l as [|[k v] l IH]; intros s; cbn [foldl fst snd list_to_map fmap list_fmap]; [done|].
  intros [Hk Hl]%NoDup_cons. rewrite IH by done. unfold crd.Update. destruct (decide (k = ns)) as [->|Hn].
  - rewrite list_to_map_cons, !lookup_insert_eq, not_elem_of_list_to_map_1; done.
  - rewrite list_to_map_cons, !lookup_insert_ne; done.
Qed.
Lemma deletes_lookup (keep : gmap string (list crd.Policy)) l s ns :
  foldl (λ s ns, match keep !! ns with Some _ => s | None => crd.Delete s ns end) s l !! ns =
    if bool_decide (ns ∈ l ∧ keep !! ns = None) then None else s !! ns.
Proof.
  revert s. induction l as [|k l IH]; intros s; cbn [foldl].
  - rewrite bool_decide_eq_false_2; [done|set_solver].
  - rewrite IH. clear IH. destruct (decide (k = ns)) as [->|Hn].
    + destruct (keep !! ns) eqn:E.
      * rewrite !bool_decide_eq_false_2; [done|by intros [_ ?]..].
      * rewrite (bool_decide_eq_true_2 (ns ∈ ns :: l ∧ None = None)) by (split; [left|done]).
        case_bool_decide; [done|]. apply lookup_delete_eq.
    + assert (ns ∈ k :: l ↔ ns ∈ l) as Hin by set_solver.
      rewrite (bool_decide_ext (ns ∈ k :: l ∧ keep !! ns = None) (ns ∈ l ∧ keep !! ns = None)) by (by rewrite Hin).
      case_bool_decide; [done|]. destruct (keep !! k); [done|]. unfold crd.Delete. by rewrite lookup_delete_ne.
Qed.

(** After any notification the store says exactly what the objects say,
    whatever it held: in each namespace the policies of its objects that have
    a spec, in their order, and no namespace but theirs. *)
Theorem syncAll_exact `{RangeOrder} store objs ns :
  syncAll store objs !! ns = match parsed_in objs ns with [] => None | l => Some l end.
Proof.
  unfold syncAll. rewrite updates_lookup by apply range_map_NoDup.
  rewrite (list_to_map_proper _ _ (range_map_NoDup _) (range_map_perm _)), list_to_map_to_list.
  rewrite deletes_lookup, policies_of_lookup.
  destruct (parsed_in objs ns) eqn:E; [|done].
  case_bool_decide as Hk; [done|].
  destruct (store !! ns) as [l|] eqn:Es; [|done]. exfalso. apply Hk. split; [|done].
  unfold crd.AllNamespaces. apply list_elem_of_fmap. exists (ns, l). split; [done|]. by apply elem_of_range_map.
Qed.

(** ** What is not read *)

(** A selector by expressions alone selects every workload of the
    namespace. *)
Theorem expressions_select_everything spec exprs lbls :
  (∀ l, SelectorFromSet ∅ l = true) →
  as_map (field spec "targetSelector") = Some [("matchExpressions", exprs)] →
  selector_of spec lbls = true.
Proof. intros Hnil E. unfold selector_of. rewrite E. apply Hnil. Qed.

(** A threshold given as a whole number is dropped. *)
Theorem whole_threshold_is_dropped m z a :
  field m "zscoreThreshold" = VInt z → parse_anomaly (VMap m) = Some a → crd.an_ZScoreThreshold a = f64_zero.
Proof. intros E [= <-]. cbn. by rewrite E. Qed.
End controller.

(** ** A run

    Two objects of one namespace and one without a spec, over a store that
    still has a namespace whose objects are gone. *)
Module ControllerDemo.
#[export] Existing Instance range_sorted.
Definition sel (l lbls : gmap string string) : bool := bool_decide (l ⊆ lbls).
Definition spec : list (string * value) := [
  ("targetSelector", VMap [("matchLabels", VMap [("app", VString "web"); ("tier", VInt 2)])]);
  ("actions", VMap [("restartStuckPods", VBool false); ("bumpMemoryPercent", VInt 25);
                    ("scale", VMap [("enabled", VBool true); ("minReplicas", VInt 2); ("maxReplicas", VInt 4294967298)])]);
  ("safety", VMap [("maxActionsPerHour", VInt 3); ("cooldown", VString "5m")]);
  ("anomalies", VList [VMap [("name", VString "errors"); ("promql", VString "up"); ("zscoreThreshold", VInt 2);
                             ("minSamples", VInt 5)]])].
Definition objs : list Unstructured := [
  mkObject "shop" "web" [("spec", VMap spec)]; mkObject "shop" "all" [("spec", VMap [])]; mkObject "pay" "bad" []].
Definition store : gmap string (list crd.Policy) := crd.Update crd.NewStore "old" [].
Definition synced : gmap string (list crd.Policy) := syncAll sel (λ _, "?") store objs.
End ControllerDemo.
Example syncAll_run :
  let web := parse ControllerDemo.sel (λ _, "?") (mkObject "shop" "web" [("spec", VMap ControllerDemo.spec)]) in
  crd.AllNamespaces (H := range_sorted) ControllerDemo.synced = ["shop"]
  ∧ crd.Name <$> crd.List (Some ControllerDemo.synced) "shop" = ["web"; "all"]
  ∧ (λ p, crd.Selector p {["app" := "web"; "tier" := "2"; "x" := "y"]}) <$> web = Some true
  ∧ (λ p, crd.Selector p {["app" := "web"]}) <$> web = Some false
  ∧ (λ p, crd.sc_MaxReplicas (crd.Scale p)) <$> web = Some 2
  ∧ (λ p, crd.an_ZScoreThreshold <$> crd.Anomalies p) <$> web = Some [f64_zero].
Proof. vm_compute. done. Qed.
