(* ===== verification/Events.v ===== *)
(** * Events: internal/events

    The controller's event log ([recorder.go]: a ring of the latest events
    backed by a file), the node agents' forwarder ([forwarder.go]) and the
    replication between controllers ([replicate.go]). *)
From S2P Require Import Prelude GoStd.
From Stdlib Require Import Ascii.
#[local] Open Scope Z_scope.

(** ** Events *)

Abbreviation EventType := string (only parsing).
Definition Incident : EventType := "incident".
Definition Action : EventType := "action".
Definition Scaling : EventType := "scaling".
Definition Anomaly : EventType := "anomaly".
Definition Info : EventType := "info".
Definition Audit : EventType := "audit".

Abbreviation Severity := string (only parsing).
Definition SevCritical : Severity := "critical".
Definition SevWarning : Severity := "warning".
Definition SevInfo : Severity := "info".

Record Event := mkEvent {
  ev_ID : Z; ev_Timestamp : Time; ev_Type : EventType; ev_Severity : Severity;
  ev_Namespace : string; ev_Workload : string; ev_Pod : string; ev_Node : string;
  ev_Reason : string; ev_Message : string; ev_Action : string;
  ev_LogURL : string; ev_PRURL : string; ev_TicketURL : string;
  ev_Result : string; ev_Rung : string
}.
#[export] Instance Event_eq_dec : EqDecision Event.
Proof. solve_decision. Defined.

Definition ev_set_ID (id : Z) (e : Event) : Event :=
  mkEvent id (ev_Timestamp e) (ev_Type e) (ev_Severity e) (ev_Namespace e) (ev_Workload e)
    (ev_Pod e) (ev_Node e) (ev_Reason e) (ev_Message e) (ev_Action e) (ev_LogURL e)
    (ev_PRURL e) (ev_TicketURL e) (ev_Result e) (ev_Rung e).
Definition ev_set_stamp (t : Time) (e : Event) : Event :=
  mkEvent (ev_ID e) t (ev_Type e) (ev_Severity e) (ev_Namespace e) (ev_Workload e)
    (ev_Pod e) (ev_Node e) (ev_Reason e) (ev_Message e) (ev_Action e) (ev_LogURL e)
    (ev_PRURL e) (ev_TicketURL e) (ev_Result e) (ev_Rung e).
Definition ev_set_Node (n : string) (e : Event) : Event :=
  mkEvent (ev_ID e) (ev_Timestamp e) (ev_Type e) (ev_Severity e) (ev_Namespace e) (ev_Workload e)
    (ev_Pod e) n (ev_Reason e) (ev_Message e) (ev_Action e) (ev_LogURL e)
    (ev_PRURL e) (ev_TicketURL e) (ev_Result e) (ev_Rung e).
(** [if e.Timestamp.IsZero() { e.Timestamp = now }]. *)
Definition ev_stamp (now : Time) (e : Event) : Event :=
  if time_IsZero (ev_Timestamp e) then ev_set_stamp now e else e.

(** ** Recorder

    The history file is the list of its lines, each as the reader sees it:
    an event, a line that does not parse, or one longer than the scanner's
    buffer, where reading stops.  [encoding/json] enters only through this
    view: a line the encoder wrote reads back as the event written. *)
Inductive file_line := LineEvent (e : Event) | LineBad | LineTooLong.

Record Recorder := mkRecorder {
  rc_events : list Event;
  rc_maxLen : Z;
  rc_nextID : Z;
  rc_encoder : bool (* the history file is open *)
}.

Definition NewRecorder (maxLen : Z) : Recorder :=
  mkRecorder [] (if maxLen <=? 0 then 500 else maxLen) 1 false.

Fixpoint loadFromFile (lines : list file_line) (r : Recorder) : Recorder :=
  match lines with
  | [] => r
  | LineTooLong :: _ => r
  | LineBad :: ls => loadFromFile ls r
  | LineEvent e :: ls =>
    let next := if rc_nextID r <=? ev_ID e then ev_ID e + 1 else rc_nextID r in
    loadFromFile ls (mkRecorder (push_capped (rc_maxLen r) (rc_events r) e)
                       (rc_maxLen r) next (rc_encoder r))
  end.
(** [EnablePersistence]: [file] is the history found ([None]: it cannot be
    read or does not exist) and [open_ok] whether it opens for appending. *)
Definition EnablePersistence (file : option (list file_line)) (open_ok : bool) (r : Recorder)
  : Recorder :=
  let r := match file with Some ls => loadFromFile ls r | None => r end in
  mkRecorder (rc_events r) (rc_maxLen r) (rc_nextID r) (rc_encoder r || open_ok).

(** [Record]: the new state and the line written, if any. *)
Definition Recorder_Record (now : Time) (e : Event) (r : Recorder) : Recorder * option file_line :=
  let e := ev_stamp now (ev_set_ID (rc_nextID r) e) in
  (mkRecorder (push_capped (rc_maxLen r) (rc_events r) e) (rc_maxLen r) (rc_nextID r + 1)
     (rc_encoder r),
   if rc_encoder r then Some (LineEvent e) else None).
Definition Recent (n : Z) (r : Recorder) : list Event := recent n (rc_events r).
Fixpoint since_from (t : Time) (newest_first : list Event) : list Event :=
  match newest_first with
  | e :: es => if time_After (ev_Timestamp e) t then e :: since_from t es else []
  | [] => []
  end.
Definition Since (t : Time) (r : Recorder) : list Event := since_from t (reverse (rc_events r)).
Definition Recorder_Count (r : Recorder) : Z := Z.of_nat (length (rc_events r)).
Definition Stats (r : Recorder) : gmap string Z :=
  foldl (λ m e, <[ev_Type e := default 0 (m !! ev_Type e) + 1]> m) ∅ (rc_events r).
Definition Recorder_Close (r : Recorder) : Recorder :=
  mkRecorder (rc_events r) (rc_maxLen r) (rc_nextID r) false.

(** ** Forwarder *)

Definition MaxBatch : nat := 200.
Definition forwardBuffer : Z := 2000.

Record queued := mkQueued { q_seq : Z; q_ev : Event }.
Record Forwarder := mkForwarder {
  f_node : string;
  f_max : Z;
  f_buf : list queued;
  f_nextSeq : Z
}.
Definition NewForwarder (node : string) : Forwarder := mkForwarder node forwardBuffer [] 0.

(** [Record]: queue the event, dropping the oldest when full; the event
    dropped is returned with the state. *)
Definition Forwarder_Record (now : Time) (e : Event) (f : Forwarder) : Forwarder * list queued :=
  let e := ev_stamp now e in
  let e := if str_eqb (ev_Node e) "" then ev_set_Node (f_node f) e else e in
  let full := f_max f <=? Z.of_nat (length (f_buf f)) in
  (mkForwarder (f_node f) (f_max f)
     ((if full then tail (f_buf f) else f_buf f) ++ [mkQueued (f_nextSeq f + 1) e])
     (f_nextSeq f + 1),
   if full then take 1 (f_buf f) else []).
Definition Pending (f : Forwarder) : Z := Z.of_nat (length (f_buf f)).

(** [Flush] takes the lock twice.  [flush_begin] reads the batch and the
    last sequence number in it; [flush_end], after every post succeeded,
    drops what was sent.  [Record] may run in between. *)
Definition flush_begin (f : Forwarder) : list Event * Z :=
  let batch := take MaxBatch (f_buf f) in
  (q_ev <$> batch, default 0 (q_seq <$> last batch)).
Fixpoint drop_sent (lastSeq : Z) (buf : list queued) : list queued :=
  match buf with
  | q :: buf' => if q_seq q <=? lastSeq then drop_sent lastSeq buf' else buf
  | [] => []
  end.
Definition flush_end (lastSeq : Z) (f : Forwarder) : Forwarder :=
  mkForwarder (f_node f) (f_max f) (drop_sent lastSeq (f_buf f)) (f_nextSeq f).

(** Where a batch goes: the controller, or every peer the lookup returns. *)
Definition flush_targets (url : string) (peers : option (option (list string))) : option (list string) :=
  match peers with
  | None => Some [url]
  | Some None => None
  | Some (Some bases) => Some ((λ b, b +:+ "/internal/v1/events") <$> bases)
  end.
(** Posts in order; the first failure ends the flush. *)
Fixpoint post_all (post : string → list Event → bool) (targets : list string) (batch : list Event)
  : bool :=
  match targets with
  | [] => true
  | u :: us => post u batch && post_all post us batch
  end.
(** What a handler records while others run: in order, at their times. *)
Definition records (calls : list (Time * Event)) (f : Forwarder) : Forwarder :=
  foldl (λ f c, (Forwarder_Record c.1 c.2 f).1) f calls.
(** What one flush of a drain meets: what the peer lookup answers, what each
    post answers (a context that ended fails them), what is recorded while
    it posts, and what is recorded after it, before the next flush. *)
Record round := mkRound {
  rd_peers : option (option (list string)); rd_post : string → list Event → bool;
  rd_during : list (Time * Event); rd_after : list (Time * Event)
}.
(** [Flush]: [None] is an error. *)
Definition Flush (url : string) (r : round) (f : Forwarder) : option Z * Forwarder :=
  let '(batch, lastSeq) := flush_begin f in
  if bool_decide (batch = []) then (Some 0, f)
  else
    let f := records (rd_during r) f in
    match flush_targets url (rd_peers r) with
    | None => (None, f)
    | Some targets =>
      if post_all (rd_post r) targets batch
      then (Some (Z.of_nat (length batch)), flush_end lastSeq f) else (None, f)
    end.
(** [drain]: flush until a short batch or an error; the k-th flush meets
    [rounds k].  [fuel] bounds the loop. [None]: out of fuel. *)
Fixpoint drain (fuel : nat) (url : string) (rounds : nat → round) (k : nat) (f : Forwarder) : option Forwarder :=
  match fuel with
  | O => None
  | S fuel' =>
    match Flush url (rounds k) f with
    | (None, f') => Some f'
    | (Some n, f') =>
      if n <? Z.of_nat MaxBatch then Some f'
      else drain fuel' url rounds (S k) (records (rd_after (rounds k)) f')
    end
  end.

(** ** Replication *)

(** [Tee]: the sinks it records to, in order. *)
Inductive tee_target := TeeLocal | TeeCopy.
Definition Tee_Record (has_copy : bool) (leading : option bool) : list tee_target :=
  TeeLocal :: (if has_copy && bool_decide (leading = Some true) then [TeeCopy] else []).

(** [Backfill]: [bases] is the peer lookup ([None]: it failed), [fetch]
    the log a peer answers, newest first ([None]: an error), and [clock]
    the readings of [Record].  The result is the number imported, or [None]
    with an error. *)
Fixpoint record_all (clock : nat → Time) (k : nat) (es : list Event) (r : Recorder) : Recorder :=
  match es with
  | [] => r
  | e :: es' => record_all clock (S k) es' (Recorder_Record (clock k) (ev_set_ID 0 e) r).1
  end.
Fixpoint backfill_from (clock : nat → Time) (fetch : string → option (list Event))
  (bases : list string) (err : bool) (into : Recorder) : option Z * Recorder :=
  match bases with
  | [] => (if err then None else Some 0, into)
  | b :: bs =>
    match fetch (b +:+ "/internal/v1/events") with
    | None => backfill_from clock fetch bs true into
    | Some [] => backfill_from clock fetch bs err into
    | Some evts => (Some (Z.of_nat (length evts)), record_all clock 0 (reverse evts) into)
    end
  end.
Definition Backfill (clock : nat → Time) (bases : option (list string))
  (fetch : string → option (list Event)) (into : Recorder) : option Z * Recorder :=
  if 0 <? Recorder_Count into then (Some 0, into)
  else match bases with
       | None => (None, into)
       | Some bs => backfill_from clock fetch bs false into
       end.

(** ** The event log *)

Lemma ev_stamp_ID now e : ev_ID (ev_stamp now e) = ev_ID e.
Proof. unfold ev_stamp. by destruct (time_IsZero _). Qed.
#[export] Hint Rewrite ev_stamp_ID : agent.

(** A run of [Record] calls, with the lines written. *)
Definition rec_step (rl : Recorder * list file_line) (call : Time * Event)
  : Recorder * list file_line :=
  let r := Recorder_Record call.1 call.2 rl.1 in
  (r.1, rl.2 ++ option_list r.2).
(** The events as numbered and dated, from [id] on. *)
Fixpoint numbered (id : Z) (calls : list (Time * Event)) : list Event :=
  match calls with
  | [] => []
  | (now, e) :: cs => ev_stamp now (ev_set_ID id e) :: numbered (id + 1) cs
  end.

Lemma numbered_snoc id calls c :
  numbered id (calls ++ [c])
  = numbered id calls ++ [ev_stamp c.1 (ev_set_ID (id + Z.of_nat (length calls)) c.2)].
Proof.
  revert id. induction calls as [|[now e] cs IH]; intros id; simpl.
  - destruct c. simpl. by rewrite Z.add_0_r.
  - rewrite IH. by replace (id + 1 + Z.of_nat (length cs)) with (id + Z.of_nat (S (length cs))) by lia.
Qed.

Lemma rec_run rl calls id :
  rc_nextID rl.1 = id → 0 < rc_maxLen rl.1 →
  let r := foldl rec_step rl calls in
  rc_events r.1 = foldl (push_capped (rc_maxLen rl.1)) (rc_events rl.1) (numbered id calls)
  ∧ rc_nextID r.1 = id + Z.of_nat (length calls)
  ∧ rc_maxLen r.1 = rc_maxLen rl.1 ∧ rc_encoder r.1 = rc_encoder rl.1
  ∧ r.2 = rl.2 ++ (if rc_encoder rl.1 then LineEvent <$> numbered id calls else []).
Proof.
  intros Hid Hm. induction calls as [|c calls IH] using rev_ind.
  { simpl. split_and!; [done|lia|done|done|]. destruct (rc_encoder _); by rewrite app_nil_r. }
  rewrite foldl_app, numbered_snoc, foldl_app, length_app, fmap_app. simpl.
  destruct IH as (He & Hn & Hx & Hc & Hl). rewrite He, Hn, Hx, Hc, Hl.
  split_and!; [done|lia|done|done|].
  destruct (rc_encoder rl.1); simpl; [by rewrite app_assoc|by rewrite app_nil_r].
Qed.

Lemma NewRecorder_maxLen n : 0 < rc_maxLen (NewRecorder n).
Proof. simpl. destruct (n <=? 0) eqn:?; blia. Qed.

(** The log holds the latest events: after any calls of [Record] it has
    the last [maxLen] of them in order, numbered without gap from 1 in the
    order they came, and [Recent] reads them newest first. *)
Theorem Recorder_keeps_latest n calls k :
  let r := (foldl rec_step (NewRecorder n, []) calls).1 in
  let all := numbered 1 calls in
  rc_events r = lastn (Z.to_nat (rc_maxLen (NewRecorder n))) all
  ∧ rc_nextID r = Z.of_nat (length calls) + 1
  ∧ Recent k r
    = reverse (if k <=? 0 then rc_events r else lastn (Z.to_nat k) (rc_events r)).
Proof.
  intros r all.
  destruct (rec_run (NewRecorder n, []) calls 1 eq_refl (NewRecorder_maxLen n))
    as (He & Hn & _). split_and!.
  - subst r all. rewrite He. apply (push_capped_foldl _ _ (NewRecorder_maxLen n)).
  - subst r. rewrite Hn. apply Z.add_comm.
  - unfold Recent. destruct (k <=? 0) eqn:?; [apply recent_all|apply recent_pos]; blia.
Qed.

Definition readable (l : file_line) : bool := match l with LineTooLong => false | _ => true end.
Definition is_event (l : file_line) : bool := match l with LineEvent _ => true | _ => false end.

Lemma loadFromFile_skip_bad ls r :
  Forall (λ l, readable l = true) ls →
  loadFromFile ls r = loadFromFile (filter (λ l, is_event l = true) ls) r.
Proof.
  intros H. revert r. induction H as [|l ls Hl _ IH]; intros r; [done|].
  rewrite filter_cons. destruct l; simpl; [apply IH|apply IH|done].
Qed.

Lemma loadFromFile_numbered calls r id :
  rc_nextID r = id →
  let r' := loadFromFile (LineEvent <$> numbered id calls) r in
  rc_events r' = foldl (push_capped (rc_maxLen r)) (rc_events r) (numbered id calls)
  ∧ rc_nextID r' = id + Z.of_nat (length calls) ∧ rc_maxLen r' = rc_maxLen r
  ∧ rc_encoder r' = rc_encoder r.
Proof.
  revert r id. induction calls as [|[now e] cs IH]; intros r id Hid; simpl.
  { split_and!; [done|lia|done|done]. }
  set (r1 := mkRecorder _ _ _ _).
  assert (rc_nextID r1 = id + 1) as H1.
  { subst r1. cbn [rc_nextID]. rewrite Hid, ev_stamp_ID. cbn [ev_ID ev_set_ID].
    by rewrite Z.leb_refl. }
  destruct (IH r1 (id + 1) H1) as (? & ? & ? & ?). split_and!; [done| |done|done].
  transitivity (id + 1 + Z.of_nat (length cs)); [done|lia].
Qed.

(** C26: The log survives a restart: reading back the history file of a log
    that was persisted from the start, with any number of damaged lines in
    between, gives the same events, and the next number continues the
    series, so no number is used twice. *)
Theorem Recorder_restart n calls lines :
  let run := foldl rec_step (EnablePersistence None true (NewRecorder n), []) calls in
  Forall (λ l, readable l = true) lines →
  filter (λ l, is_event l = true) lines = run.2 →
  EnablePersistence (Some lines) true (NewRecorder n) = run.1.
Proof.
  intros run Hread Hlines. set (r0 := EnablePersistence None true (NewRecorder n)) in *.
  destruct (rec_run (r0, []) calls 1 eq_refl (NewRecorder_maxLen n)) as (He & Hn & Hm & Hc & Hl).
  fold run in He, Hn, Hm, Hc, Hl.
  destruct (loadFromFile_numbered calls (NewRecorder n) 1 eq_refl) as (He' & Hn' & Hm' & Hc').
  unfold EnablePersistence. rewrite loadFromFile_skip_bad, Hlines, Hl by done.
  change ([] ++ (if rc_encoder (r0, []).1 then ?a else ?b)) with a.
  change ((r0, []).2 ++ (if rc_encoder (r0, []).1 then ?a else ?b)) with a.
  rewrite He', Hn', Hm', Hc'. simpl.
  clearbody run. destruct run as [[? ? ? ?] ?]. simpl in *. by rewrite He, Hn, Hm, Hc.
Qed.

(** ** The forwarder *)

(** One forwarder and its single flusher: handlers record at any time; a
    flush begins, posts, and ends well or badly.  [fs_sent] and [fs_dropped]
    are the sequence numbers accepted by the controller and dropped by a
    full buffer. *)
Record fwd_state := mkFwd {
  fs_f : Forwarder;
  fs_inflight : option (list Z * Z);
  fs_sent : list Z;
  fs_dropped : list Z
}.
Definition seqs (buf : list queued) : list Z := q_seq <$> buf.

Inductive fwd_step : fwd_state → fwd_state → Prop :=
| FsRecord now e f fl sent dropped :
    fwd_step (mkFwd f fl sent dropped)
      (mkFwd (Forwarder_Record now e f).1 fl sent
         (dropped ++ seqs (Forwarder_Record now e f).2))
| FsBegin f sent dropped :
    f_buf f ≠ [] →
    fwd_step (mkFwd f None sent dropped)
      (mkFwd f (Some (seqs (take MaxBatch (f_buf f)), (flush_begin f).2)) sent dropped)
| FsEndOk f batch lastSeq sent dropped :
    fwd_step (mkFwd f (Some (batch, lastSeq)) sent dropped)
      (mkFwd (flush_end lastSeq f) None (sent ++ batch) dropped)
| FsEndFail f fl sent dropped :
    fwd_step (mkFwd f (Some fl) sent dropped) (mkFwd f None sent dropped).

Definition sorted_seqs (l : list Z) : Prop := StronglySorted Z.lt l.

Lemma sorted_app l k :
  sorted_seqs (l ++ k) ↔ sorted_seqs l ∧ sorted_seqs k ∧ ∀ x y, x ∈ l → y ∈ k → x < y.
Proof.
  unfold sorted_seqs. induction l as [|a l IH]; simpl.
  { split; [intros; split_and!; [constructor|done|set_solver]|tauto]. }
  split.
  - intros H. inversion_clear H as [|?? Hs Hall]. apply IH in Hs as (Hl & Hk & Hlk).
    rewrite Forall_app in Hall. destruct Hall as [Ha1 Ha2]. rewrite Forall_forall in Ha2.
    split_and!; [by constructor|done|].
    intros x y [->|Hx]%elem_of_cons Hy; [by apply Ha2|by apply Hlk].
  - intros (Hl & Hk & Hlk). inversion_clear Hl as [|?? Hs Hall]. constructor.
    + apply IH. split_and!; [done|done|]. intros. apply Hlk; [by right|done].
    + rewrite Forall_app, (Forall_forall _ k). split; [done|]. intros. apply Hlk; [by left|done].
Qed.

(** The batch is what [flush_end] removes, whatever was recorded since. *)
Lemma drop_sent_seqs m buf :
  sorted_seqs (seqs buf) →
  ∃ pre, buf = pre ++ drop_sent m buf ∧ Forall (λ k, k ≤ m) (seqs pre)
    ∧ Forall (λ k, m < k) (seqs (drop_sent m buf)).
Proof.
  unfold seqs. induction buf as [|q buf IH]; intros Hs; [by exists []; repeat constructor|].
  simpl in *. inversion_clear Hs as [|?? Hs' Hall]. destruct (q_seq q <=? m) eqn:Hm.
  - destruct (IH Hs') as (pre & Hb & Hp & Hd). exists (q :: pre).
    split_and!; [by rewrite Hb at 1|simpl; constructor; [blia|done]|done].
  - exists []. split_and!; [done|constructor|]. simpl. constructor; [blia|].
    eapply Forall_impl; [exact Hall|]. intros; simpl in *. blia.
Qed.

Ltac split_Forall :=
  repeat match goal with
  | H : Forall _ (_ ++ _) |- _ => apply Forall_app in H as [? ?]
  end.

Record fwd_inv (mx : Z) (s : fwd_state) : Prop := {
  fi_max : f_max (fs_f s) = mx;
  fi_len : Z.of_nat (length (f_buf (fs_f s))) ≤ mx;
  fi_order : sorted_seqs (fs_sent s ++ default [] (fst <$> fs_inflight s));
  fi_buf : sorted_seqs (fs_sent s ++ seqs (f_buf (fs_f s)));
  fi_range : Forall (λ k, 1 ≤ k ≤ f_nextSeq (fs_f s))
    (fs_sent s ++ default [] (fst <$> fs_inflight s) ++ seqs (f_buf (fs_f s)));
  fi_next : 0 ≤ f_nextSeq (fs_f s);
  fi_covered : ∀ k, 1 ≤ k ≤ f_nextSeq (fs_f s) →
    k ∈ fs_sent s ++ fs_dropped s ++ seqs (f_buf (fs_f s));
  fi_batch : match fs_inflight s with
    | Some (batch, m) => Forall (λ k, k ≤ m) batch ∧ m ≤ f_nextSeq (fs_f s)
        ∧ ∀ k, k ∈ seqs (f_buf (fs_f s)) → k ≤ m → k ∈ batch
    | None => True
    end
}.

Lemma seqs_app l k : seqs (l ++ k) = seqs l ++ seqs k.
Proof. apply fmap_app. Qed.

Lemma last_take_seq buf :
  sorted_seqs (seqs buf) → buf ≠ [] →
  let batch := take MaxBatch buf in
  let m := default 0 (q_seq <$> last batch) in
  Forall (λ k, k ≤ m) (seqs batch) ∧ m ∈ seqs batch
  ∧ ∀ k, k ∈ seqs buf → k ≤ m → k ∈ seqs batch.
Proof.
  intros Hs Hne batch m.
  assert (batch ≠ []) as Hb by (subst batch; by destruct buf).
  destruct (exists_last Hb) as (pre & q & Hq).
  assert (m = q_seq q) as -> by (subst m; by rewrite Hq, last_snoc).
  assert (q_seq q ∈ seqs batch) as Hin by (rewrite Hq, seqs_app; set_solver).
  assert (sorted_seqs (seqs batch ++ seqs (drop MaxBatch buf))) as Hs'.
  { rewrite <-seqs_app. subst batch. by rewrite take_drop. }
  apply sorted_app in Hs' as (Hsb & _ & Hlt). split_and!; [|done|].
  - rewrite Hq, seqs_app in Hsb. apply sorted_app in Hsb as (_ & _ & Hp).
    rewrite Hq, seqs_app. apply Forall_app. split; [|repeat constructor; lia].
    apply Forall_forall. intros k Hk. pose proof (Hp k (q_seq q) Hk ltac:(set_solver)). lia.
  - intros k Hk Hle. rewrite <-(take_drop MaxBatch buf), seqs_app in Hk.
    apply elem_of_app in Hk as [?|Hk]; [done|]. pose proof (Hlt _ _ Hin Hk). lia.
Qed.

Lemma fwd_inv_record mx now e f fl sent dropped :
  0 < mx → fwd_inv mx (mkFwd f fl sent dropped) →
  fwd_inv mx (mkFwd (Forwarder_Record now e f).1 fl sent
                (dropped ++ seqs (Forwarder_Record now e f).2)).
Proof.
  intros Hmx [<- Hlen Hord Hbuf Hrange Hnext Hcov Hb]. simpl in *.
  unfold Forwarder_Record.
  generalize (if str_eqb (ev_Node (ev_stamp now e)) "" then ev_set_Node (f_node f) (ev_stamp now e)
              else ev_stamp now e) as e'. intros e'.
  remember (f_max f <=? Z.of_nat (length (f_buf f))) as full eqn:Hf. symmetry in Hf.
  assert (∃ gone, f_buf f = gone ++ (if full then tail (f_buf f) else f_buf f)
    ∧ (if full then take 1 (f_buf f) else []) = gone
    ∧ (full = true → gone ≠ [])) as (gone & Hg & -> & Hne).
  { destruct full; [|by exists []].
    destruct (f_buf f) as [|q l]; [|exists [q]; done]. simpl in Hf. blia. }
  set (kept := if full then _ else _) in *.
  rewrite Hg, seqs_app in Hbuf, Hcov, Hrange, Hb.
  assert (seqs (kept ++ [mkQueued (f_nextSeq f + 1) e']) = seqs kept ++ [f_nextSeq f + 1]) as Hk
    by by rewrite seqs_app.
  constructor; simpl; [done| |done| | |lia| |].
  - rewrite Hg in Hlen. rewrite length_app in Hlen |- *. simpl.
    destruct full; [destruct gone; [by destruct Hne|simpl in *; lia]|].
    rewrite Hg, length_app in Hf. blia.
  - rewrite Hk, app_assoc, sorted_app. split_and!.
    + apply sorted_app in Hbuf as (? & [? [? ?]]%sorted_app & Hx).
      apply sorted_app. split_and!; [done|done|]. intros; apply Hx; set_solver.
    + repeat constructor.
    + intros x y Hx ->%list_elem_of_singleton. rewrite !Forall_app, !Forall_forall in Hrange.
      destruct Hrange as (Hr1 & _ & _ & Hr4).
      apply elem_of_app in Hx as [Hx|Hx]; [specialize (Hr1 _ Hx)|specialize (Hr4 _ Hx)];
        simpl in *; lia.
  - rewrite Hk. rewrite !Forall_app in Hrange |- *. destruct Hrange as (H1 & H2 & _ & H3).
    split_and!; [..|repeat constructor; lia];
      eapply Forall_impl; try eassumption; intros; simpl in *; lia.
  - intros k Hkr. rewrite Hk, !elem_of_app. destruct (decide (k = f_nextSeq f + 1)) as [->|];
      [set_solver|]. specialize (Hcov k ltac:(lia)). set_solver.
  - destruct fl as [[batch m]|]; [|done]. destruct Hb as (? & ? & Hb). split_and!; [done|lia|].
    rewrite Hk. intros k [Hin| ->%list_elem_of_singleton]%elem_of_app Hle; [|lia].
    apply Hb; [set_solver|done].
Qed.

Lemma fwd_inv_step mx s s' : 0 < mx → fwd_inv mx s → fwd_step s s' → fwd_inv mx s'.
Proof.
  intros Hmx Hi Hstep. destruct Hstep as [now e f fl sent dropped|f sent dropped Hne
    |f batch m sent dropped|f fl sent dropped]; [by apply fwd_inv_record| | |].
  - destruct Hi as [<- Hlen Hord Hbuf Hrange Hnext Hcov _]. simpl in *.
    pose proof Hbuf as (Hs1 & Hs2 & Hs3)%sorted_app.
    destruct (last_take_seq (f_buf f) Hs2 Hne) as (Hle & Hin & Hall).
    assert (∀ k, k ∈ seqs (take MaxBatch (f_buf f)) → k ∈ seqs (f_buf f)) as Hsub.
    { intros k. rewrite <-(take_drop MaxBatch (f_buf f)) at 2. rewrite seqs_app. set_solver. }
    rewrite Forall_app in Hrange. destruct Hrange as [Hr1 Hr2]. rewrite Forall_forall in Hr2.
    constructor; simpl; auto.
    + apply sorted_app. split_and!; [done| |intros; apply Hs3; auto].
      rewrite <-(take_drop MaxBatch (f_buf f)), seqs_app in Hs2.
      exact (proj1 (proj1 (sorted_app _ _) Hs2)).
    + rewrite !Forall_app, !(Forall_forall _ (seqs _)). split_and!; auto.
    + split_and!; [done|by apply Hr2, Hsub|done].
  - destruct Hi as [<- Hlen Hord Hbuf Hrange Hnext Hcov (Hle & Hm & Hb)]. simpl in *.
    pose proof Hbuf as (Hs1 & Hs2 & Hs3)%sorted_app.
    destruct (drop_sent_seqs m (f_buf f) Hs2) as (pre & Heq & Hpre & Hpost).
    assert (∀ k, k ∈ seqs pre → k ∈ batch) as Hpb.
    { rewrite Forall_forall in Hpre. intros k Hk. apply Hb; [|by apply Hpre].
      rewrite Heq, seqs_app. set_solver. }
    assert (seqs (f_buf f) = seqs pre ++ seqs (drop_sent m (f_buf f))) as Hq
      by (by rewrite <-seqs_app, <-Heq).
    rewrite Hq in Hs2, Hs3, Hcov, Hrange.
    constructor; simpl; [done| |by rewrite app_nil_r| | |done| |done].
    + rewrite Heq in Hlen. rewrite length_app in Hlen. lia.
    + apply sorted_app. split_and!; [done|exact (proj1 (proj2 (proj1 (sorted_app _ _) Hs2)))|].
      rewrite Forall_forall in Hpost, Hle. intros x y [Hx|Hx]%elem_of_app Hy.
      * apply Hs3; set_solver.
      * specialize (Hle _ Hx). specialize (Hpost _ Hy). simpl in *. lia.
    + rewrite !Forall_app. split_Forall. split_and!; first [done|constructor].
    + intros k Hk. specialize (Hcov k Hk). set_solver.
  - destruct Hi as [<- Hlen Hord Hbuf Hrange Hnext Hcov _]. simpl in *.
    constructor; simpl; auto.
    + rewrite app_nil_r. exact (proj1 (proj1 (sorted_app _ _) Hord)).
    + rewrite !Forall_app. split_Forall. split_and!; first [done|constructor].
Qed.

(** C23: The forwarder loses nothing by itself: whatever handlers record
    while batches are in flight, and whichever posts fail, every event
    recorded so far was accepted by the controller, was dropped by a full
    buffer, or still waits; nothing waiting has been accepted already, and
    events are accepted in order and once. *)
Theorem forwarder_no_loss node s :
  rtc fwd_step (mkFwd (NewForwarder node) None [] []) s →
  (∀ k, 1 ≤ k ≤ f_nextSeq (fs_f s) →
     k ∈ fs_sent s ∨ k ∈ fs_dropped s ∨ k ∈ seqs (f_buf (fs_f s)))
  ∧ sorted_seqs (fs_sent s ++ seqs (f_buf (fs_f s)))
  ∧ Pending (fs_f s) ≤ forwardBuffer.
Proof.
  intros Hsteps. enough (fwd_inv forwardBuffer s) as [_ Hl _ Ho _ _ Hc _].
  { split_and!; [|done|done]. intros k Hk. specialize (Hc k Hk). set_solver. }
  assert (fwd_inv forwardBuffer (mkFwd (NewForwarder node) None [] [])) as Hi.
  { constructor; simpl; unfold forwardBuffer; try done; try constructor; lia. }
  induction Hsteps as [|s1 s2 s3 H12 _ IH]; [done|].
  apply IH. eapply fwd_inv_step; [|exact Hi|exact H12]. done.
Qed.

Lemma drop_sent_app m a b :
  Forall (λ k, k ≤ m) (seqs a) → Forall (λ k, m < k) (seqs b) → drop_sent m (a ++ b) = b.
Proof.
  unfold seqs. induction a as [|q a IH]; simpl; intros Ha Hb.
  - destruct b as [|q b]; [done|]. simpl in *. inversion_clear Hb.
    by destruct (q_seq q <=? m) eqn:?; [blia|].
  - inversion_clear Ha. destruct (q_seq q <=? m) eqn:?; [auto|blia].
Qed.

Lemma flush_end_drop f :
  sorted_seqs (seqs (f_buf f)) → f_buf f ≠ [] →
  f_buf (flush_end (flush_begin f).2 f) = drop MaxBatch (f_buf f).
Proof.
  intros Hs Hne. simpl. destruct (last_take_seq _ Hs Hne) as (Hle & Hin & _).
  set (m := default 0 _) in *. rewrite <-(take_drop MaxBatch (f_buf f)) at 1.
  apply drop_sent_app; [done|]. rewrite <-(take_drop MaxBatch (f_buf f)), seqs_app in Hs.
  apply sorted_app in Hs as (_ & _ & Hlt). apply Forall_forall. intros k Hk. by apply Hlt.
Qed.

(** *** Draining while others record *)

(** The numbers of what waits rise, up to the last one given. *)
Definition numbered_ok (f : Forwarder) : Prop :=
  sorted_seqs (seqs (f_buf f)) ∧ Forall (λ k, k ≤ f_nextSeq f) (seqs (f_buf f)).
Lemma sorted_drop n l : sorted_seqs (seqs l) → sorted_seqs (seqs (drop n l)).
Proof.
  rewrite <-(take_drop n l) at 1. rewrite seqs_app. intros H. by apply sorted_app in H as (_ & ? & _).
Qed.
Lemma Forall_seqs_drop (P : Z → Prop) n l : Forall P (seqs l) → Forall P (seqs (drop n l)).
Proof. rewrite <-(take_drop n l) at 1. rewrite seqs_app. by intros [_ ?]%Forall_app. Qed.
(** Records append what is new, and may drop from the front. *)
Lemma records_spec calls f :
  numbered_ok f →
  let f' := records calls f in
  numbered_ok f'
  ∧ ∃ d new, f_buf f' = drop d (f_buf f ++ new) ∧ length new = length calls
    ∧ Forall (λ k, f_nextSeq f < k) (seqs new).
Proof.
  cbv zeta. revert f. induction calls as [|[now e] calls IH]; intros f Hf; cbn [records foldl].
  { split; [done|]. exists 0%nat, []. split_and!; [by rewrite app_nil_r|done|constructor]. }
  set (f1 := (Forwarder_Record now e f).1).
  assert (∃ q d, f_buf f1 = drop d (f_buf f ++ [q]) ∧ q_seq q = f_nextSeq f + 1 ∧ f_nextSeq f1 = f_nextSeq f + 1) as (q & d & Hb & Hq & Hn).
  { unfold f1, Forwarder_Record. cbn. set (ev := if str_eqb _ _ then _ else _). exists (mkQueued (f_nextSeq f + 1) ev).
    destruct (f_max f <=? _); [exists (Nat.min 1 (length (f_buf f)))|exists 0%nat]; [|done].
    split; [by destruct (f_buf f)|done]. }
  assert (sorted_seqs (seqs (f_buf f ++ [q])) ∧ Forall (λ k, k ≤ f_nextSeq f1) (seqs (f_buf f ++ [q]))) as [Hs1 Hl1].
  { destruct Hf as [Hs Hl]. rewrite seqs_app, Hn. cbn. rewrite Hq. split.
    - apply sorted_app. split_and!; [done|repeat constructor|]. rewrite Forall_forall in Hl.
      intros x y Hx%Hl ->%list_elem_of_singleton. lia.
    - apply Forall_app. split; [|repeat constructor; lia]. eapply Forall_impl; [exact Hl|]. cbn. lia. }
  assert (numbered_ok f1) as Hf1 by (split; rewrite Hb; [by apply sorted_drop|by apply Forall_seqs_drop]).
  destruct (IH f1 Hf1) as (Hok & d' & new & Hbuf & Hlen & Hnew). split; [done|].
  change (∃ d0 new0, f_buf (records calls f1) = drop d0 (f_buf f ++ new0) ∧ length new0 = S (length calls)
    ∧ Forall (λ k, f_nextSeq f < k) (seqs new0)). rewrite Hbuf, Hb.
  destruct (decide (d ≤ length (f_buf f ++ [q]))%nat) as [Hd|Hd].
  - exists (d + d')%nat, (q :: new). split_and!.
    + rewrite <-drop_drop. f_equal. change (q :: new) with ([q] ++ new). rewrite (assoc_L (++)).
      by rewrite (drop_app_le (f_buf f ++ [q])).
    + cbn. by rewrite Hlen.
    + cbn. constructor; [lia|]. eapply Forall_impl; [exact Hnew|]. cbn. lia.
  - exists (length (f_buf f ++ [q]) + d')%nat, (q :: new). split_and!.
    + rewrite <-drop_drop. f_equal. rewrite (drop_ge (f_buf f ++ [q])) by lia.
      change (q :: new) with ([q] ++ new). rewrite (assoc_L (++)). by rewrite drop_app_length.
    + cbn. by rewrite Hlen.
    + cbn. constructor; [lia|]. eapply Forall_impl; [exact Hnew|]. cbn. lia.
Qed.
(** What is left of a buffer when all of the front up to [m] was sent. *)
Lemma drop_sent_drop m d A B :
  Forall (λ k, k ≤ m) (seqs A) → Forall (λ k, m < k) (seqs B) →
  drop_sent m (drop d (A ++ B)) = drop (d - length A) B.
Proof.
  intros HA HB. destruct (decide (d ≤ length A)%nat).
  - rewrite drop_app_le by lia. replace (d - length A)%nat with 0%nat by lia.
    apply drop_sent_app; [by apply Forall_seqs_drop|done].
  - rewrite drop_app_ge by lia. apply (drop_sent_app m []); [constructor|by apply Forall_seqs_drop].
Qed.

(** A flush that succeeds takes its whole batch off the buffer, and nothing
    that was recorded meanwhile. *)
Lemma Flush_sent url r f n f' :
  numbered_ok f → Flush url r f = (Some n, f') →
  numbered_ok f' ∧ f_nextSeq f ≤ f_nextSeq f'
  ∧ n = Z.of_nat (length (take MaxBatch (f_buf f)))
  ∧ ∃ d new, f_buf f' = drop d (drop MaxBatch (f_buf f) ++ new)
    ∧ (length new ≤ length (rd_during r))%nat ∧ Forall (λ k, f_nextSeq f < k) (seqs new).
Proof.
  intros Hf. unfold Flush, flush_begin. case_bool_decide as He.
  { intros [= <- <-]. destruct (f_buf f) eqn:Hb; [|done]. split_and!; [done|done|done|].
    exists 0%nat, []. split_and!; [done|cbn; lia|constructor]. }
  destruct (flush_targets _ _); [|done]. destruct (post_all _ _ _); [|done]. intros [= <- <-].
  assert (f_buf f ≠ []) as Hne by (intros E; by rewrite E in He). destruct Hf as [Hs Hl].
  destruct (last_take_seq _ Hs Hne) as (Hle & Hin & _). set (m := default 0 _) in *.
  destruct (records_spec (rd_during r) f (conj Hs Hl)) as ([Hs' Hl'] & d & new & Hbuf & Hlen & Hnew).
  assert (m ≤ f_nextSeq f) as Hm.
  { rewrite Forall_forall in Hl. apply Hl. rewrite <-(take_drop MaxBatch (f_buf f)), seqs_app. set_solver. }
  assert (drop_sent m (f_buf (records (rd_during r) f))
    = drop (d - length (take MaxBatch (f_buf f))) (drop MaxBatch (f_buf f) ++ new)) as Hd.
  { rewrite Hbuf. rewrite <-(take_drop MaxBatch (f_buf f)) at 1. rewrite <-(assoc_L (++)).
    apply drop_sent_drop; [done|]. rewrite seqs_app. apply Forall_app. split.
    - rewrite <-(take_drop MaxBatch (f_buf f)), seqs_app in Hs. apply sorted_app in Hs as (_ & _ & Hlt).
      apply Forall_forall. intros k Hk. by apply Hlt.
    - eapply Forall_impl; [exact Hnew|]. cbn. lia. }
  split_and!.
  - destruct (drop_sent_seqs m _ Hs') as (pre & Heq & _). unfold numbered_ok. cbn [f_buf f_nextSeq flush_end].
    rewrite Heq, seqs_app in Hs', Hl'. apply sorted_app in Hs' as (_ & ? & _). by apply Forall_app in Hl' as [_ ?].
  - cbn. clear. generalize (rd_during r). intros l. revert f. induction l as [|c l IH]; intros f; cbn; [done|].
    etrans; [|apply IH]. cbn. lia.
  - by rewrite length_fmap.
  - exists (d - length (take MaxBatch (f_buf f)))%nat, new. cbn [f_buf flush_end]. rewrite Hd. by rewrite Hlen.
Qed.

(** The flushes of a drain that sent a whole batch, up to the k-th. *)
Inductive full_flushes (url : string) (rounds : nat → round) (f : Forwarder) : nat → Forwarder → Prop :=
| full_none : full_flushes url rounds f 0 f
| full_more k g g' :
    full_flushes url rounds f k g → Flush url (rounds k) g = (Some (Z.of_nat MaxBatch), g') →
    full_flushes url rounds f (S k) (records (rd_after (rounds k)) g').
(** How the last flush ends a drain. *)
Definition drain_end (url : string) (r : round) (f f' : Forwarder) : Prop :=
  match Flush url r f with
  | (None, g) => f' = g ∧ match flush_targets url (rd_peers r) with
                               | None => True
                               | Some targets => ∃ u, u ∈ targets ∧ rd_post r u (flush_begin f).1 = false
                               end
  | (Some n, g) =>
    f' = g ∧ n < Z.of_nat MaxBatch ∧ (length (f_buf g) ≤ length (rd_during r))%nat
    ∧ Forall (λ k, f_nextSeq f < k) (seqs (f_buf g))
  end.
(** How much is recorded around [n] flushes, from the k-th. *)
Fixpoint recorded_in (rounds : nat → round) (k n : nat) : nat :=
  match n with
  | O => 0
  | S n => length (rd_during (rounds k)) + length (rd_after (rounds k)) + recorded_in rounds (S k) n
  end.

Lemma post_all_fails post targets batch : post_all post targets batch = false → ∃ u, u ∈ targets ∧ post u batch = false.
Proof.
  induction targets as [|u us IH]; cbn; [done|]. destruct (post u batch) eqn:E; [|intros _; exists u; by split; [left|]].
  intros (v & ? & ?)%IH. exists v. by split; [right|].
Qed.
Lemma short_flush_ends url r f n f' :
  numbered_ok f → Flush url r f = (Some n, f') → n < Z.of_nat MaxBatch → drain_end url r f f'.
Proof.
  intros Hf HF Hn. destruct (Flush_sent _ _ _ _ _ Hf HF) as (_ & _ & -> & d & new & Hb & Hl & Hnew).
  unfold drain_end. rewrite HF. rewrite length_take in Hn.
  rewrite (drop_ge (f_buf f)) in Hb by lia. rewrite app_nil_l in Hb. split_and!; [done|rewrite length_take; lia| |].
  - rewrite Hb, length_drop. lia.
  - rewrite Hb. by apply Forall_seqs_drop.
Qed.
Lemma failed_flush_ends url r f f' : Flush url r f = (None, f') → drain_end url r f f'.
Proof.
  intros HF. unfold drain_end. rewrite HF. split; [done|]. unfold Flush in HF. destruct (flush_begin f) as [batch m].
  case_bool_decide; [done|]. destruct (flush_targets url (rd_peers r)) as [targets|]; [|done].
  destruct (post_all _ _ _) eqn:E; [done|]. by apply post_all_fails.
Qed.
Lemma full_flush_shrinks url r f f' :
  numbered_ok f → Flush url r f = (Some (Z.of_nat MaxBatch), f') →
  numbered_ok (records (rd_after r) f')
  ∧ (length (f_buf (records (rd_after r) f')) + MaxBatch ≤ length (f_buf f) + length (rd_during r) + length (rd_after r))%nat.
Proof.
  intros Hf HF. destruct (Flush_sent _ _ _ _ _ Hf HF) as (Hok & _ & Hn & d & new & Hb & Hl & _).
  destruct (records_spec (rd_after r) f' Hok) as (Hok' & d' & new' & Hb' & Hl' & _). split; [done|].
  rewrite length_take in Hn. rewrite Hb', length_drop, length_app, Hl', Hb, length_drop, length_app, length_drop. lia.
Qed.
Lemma drain_steps url rounds f fuel k g :
  full_flushes url rounds f k g → numbered_ok g →
  (length (f_buf g) + recorded_in rounds k fuel < MaxBatch * fuel)%nat →
  ∃ f' j fj, drain fuel url rounds k g = Some f' ∧ (j < k + fuel)%nat ∧ full_flushes url rounds f j fj
    ∧ drain_end url (rounds j) fj f'.
Proof.
  revert k g. induction fuel as [|fuel IH]; intros k g Hfull Hg Hlt; [lia|]. cbn [drain].
  destruct (Flush url (rounds k) g) as [[n|] g'] eqn:HF.
  2:{ exists g', k, g. split_and!; [done|lia|done|by apply failed_flush_ends]. }
  destruct (n <? Z.of_nat MaxBatch) eqn:Hn.
  { exists g', k, g. split_and!; [done|lia|done|]. eapply short_flush_ends; [done..|blia]. }
  assert (n = Z.of_nat MaxBatch) as ->.
  { destruct (Flush_sent _ _ _ _ _ Hg HF) as (_ & _ & -> & _). rewrite length_take in *. blia. }
  destruct (full_flush_shrinks _ _ _ _ Hg HF) as [Hok Hlen].
  destruct (IH (S k) (records (rd_after (rounds k)) g')) as (f' & j & fj & Hd & Hj & Hf & He).
  - by apply (full_more url rounds f k g).
  - done.
  - cbn [recorded_in] in Hlt. lia.
  - exists f', j, fj. split_and!; [done|lia|done|done].
Qed.

(** C25: [drain] ends as soon as it gains on what is recorded: when the events
    waiting, and those recorded around its first [n] flushes, are fewer than
    [n] full batches, it ends within [n] flushes.  It ends with the flush
    that failed, because the lookup of the peers or a post did; or with one
    that sent all that waited when it began, and then what waits is what was
    recorded while it posted: nothing, when nothing was. *)
Theorem drain_terminates url rounds n f :
  numbered_ok f → (length (f_buf f) + recorded_in rounds 0 n < MaxBatch * n)%nat →
  ∃ f' j fj, drain n url rounds 0 f = Some f' ∧ (j < n)%nat ∧ full_flushes url rounds f j fj
    ∧ drain_end url (rounds j) fj f'.
Proof. intros Hf Hn. by apply (drain_steps url rounds f n 0 f); [constructor|..]. Qed.

(** ** Replication *)

Lemma record_all_run clock k es r :
  (record_all clock k es r)
  = (foldl rec_step (r, []) (imap (λ i e, (clock (k + i)%nat, ev_set_ID 0 e)) es)).1.
Proof.
  assert (∀ es k r ls, record_all clock k es r
    = (foldl rec_step (r, ls) (imap (λ i e, (clock (k + i)%nat, ev_set_ID 0 e)) es)).1) as H; [|apply H].
  clear. induction es as [|e es IH]; intros k r ls; [done|]. simpl.
  rewrite Nat.add_0_r. erewrite IH. unfold rec_step at 3. simpl. do 2 f_equal.
  apply imap_ext. intros i x _. simpl. by replace (k + S i)%nat with (S (k + i)) by lia.
Qed.

Lemma numbered_same id calls :
  Forall (λ c, ev_Timestamp c.2 ≠ 0) calls →
  ev_set_ID 0 <$> numbered id calls = ev_set_ID 0 <$> calls.*2.
Proof.
  intros H. revert id. induction H as [|[now e] cs He _ IH]; intros id; [done|].
  simpl in *. rewrite IH. f_equal. unfold ev_stamp, time_IsZero. simpl.
  by rewrite (proj2 (Z.eqb_neq _ _) He).
Qed.

Lemma lastn_fmap {A B} (f : A → B) n l : f <$> lastn n l = lastn n (f <$> l).
Proof. unfold lastn. by rewrite fmap_drop, length_fmap. Qed.

(** A controller that starts empty ends with its peer's history: from
    the first peer that answers with events, [Backfill] imports the latest
    of them in the peer's order, changing only their numbers; a log that
    already holds events is left alone. *)
Theorem Backfill_copies clock dead b bs fetch n (peer : Recorder) :
  Forall (λ d, fetch (d +:+ "/internal/v1/events") = None
               ∨ fetch (d +:+ "/internal/v1/events") = Some []) dead →
  fetch (b +:+ "/internal/v1/events") = Some (Recent 0 peer) →
  rc_events peer ≠ [] →
  Forall (λ e, ev_Timestamp e ≠ 0) (rc_events peer) →
  let r := Backfill clock (Some (dead ++ b :: bs)) fetch (NewRecorder n) in
  r.1 = Some (Recorder_Count peer)
  ∧ ev_set_ID 0 <$> rc_events r.2
    = lastn (Z.to_nat (rc_maxLen (NewRecorder n))) (ev_set_ID 0 <$> rc_events peer)
  ∧ Backfill clock (Some (dead ++ b :: bs)) fetch peer = (Some 0, peer).
Proof.
  intros Hdead Hb Hne Hts r.
  assert (r = (Some (Recorder_Count peer),
    record_all clock 0 (rc_events peer) (NewRecorder n))) as ->.
  { subst r. unfold Backfill. simpl. generalize false as err.
    induction Hdead as [|d ds Hd _ IH]; intros err; simpl.
    - rewrite Hb. unfold Recent. rewrite recent_all by done.
      destruct (reverse (rc_events peer)) as [|e es] eqn:Hr.
      { apply (f_equal reverse) in Hr. by rewrite reverse_involutive in Hr. }
      rewrite <-Hr, reverse_involutive, length_reverse. done.
    - destruct Hd as [-> | ->]; apply IH. }
  split_and!; [done| |].
  - simpl snd. rewrite record_all_run.
    set (calls := imap _ _).
    destruct (rec_run (NewRecorder n, []) calls 1 eq_refl (NewRecorder_maxLen n)) as (-> & _).
    rewrite (push_capped_foldl _ _ (NewRecorder_maxLen n) : foldl _ (rc_events (NewRecorder n, []).1) _ = _).
    rewrite lastn_fmap. f_equal. rewrite numbered_same.
    + subst calls. rewrite fmap_imap. clear. generalize 0%nat as k.
      induction (rc_events peer) as [|e es IH]; intros; [done|]. simpl.
      f_equal. apply (IH k).
    + subst calls. apply Forall_forall. intros c Hc.
      apply elem_of_lookup_imap in Hc as (i & e & -> & He). simpl.
      rewrite Forall_forall in Hts. apply Hts. by apply list_elem_of_lookup_2 in He.
  - unfold Backfill, Recorder_Count. destruct (rc_events peer); [done|]. simpl length.
    by destruct (_ <? _) eqn:?; [|blia].
Qed.

(** ** Witnesses *)
Module EvDemo.
Definition ev (reason : string) : Event :=
  mkEvent 0 7 Incident SevWarning "shop" "deployment/web" "" "" reason "" "" "" "" "" "" "".
Definition calls : list (Time * Event) := [(10, ev "A"); (11, ev "B"); (12, ev "C")].
End EvDemo.

Lemma Recorder_restart_witness :
  let run := foldl rec_step (EnablePersistence None true (NewRecorder 2), []) EvDemo.calls in
  let lines := LineBad :: run.2 in
  EnablePersistence (Some lines) true (NewRecorder 2) = run.1
  ∧ ev_ID <$> rc_events run.1 = [2; 3] ∧ rc_nextID run.1 = 4.
Proof.
  intros run lines. split.
  - apply (Recorder_restart 2 EvDemo.calls lines).
    + subst lines run. repeat constructor.
    + vm_compute. reflexivity.
  - vm_compute. split; reflexivity.
Defined.

Lemma forwarder_no_loss_witness :
  let f := (Forwarder_Record 1 (EvDemo.ev "A") (NewForwarder "n1")).1 in
  Pending f = 1 ∧ (1 ∈ [] ∨ 1 ∈ [] ∨ 1 ∈ seqs (f_buf f)).
Proof.
  intros f. split; [reflexivity|].
  apply (forwarder_no_loss "n1" (mkFwd f None [] [])).
  - apply rtc_once. apply (FsRecord 1 (EvDemo.ev "A") (NewForwarder "n1") None [] []).
  - subst f. simpl. lia.
Defined.

(** 450 events wait; seven are recorded while the second batch is posted and
    five while the last one is. *)
Lemma drain_terminates_witness :
  let f := foldl (λ f e, (Forwarder_Record 1 e f).1) (NewForwarder "n1") (replicate 450 (EvDemo.ev "A")) in
  let rounds := λ k, mkRound None (λ _ _, true) (replicate (nth k [0; 7; 5] 0)%nat (2, EvDemo.ev "B")) [] in
  (∃ f' j fj, drain 4 "http://c" rounds 0 f = Some f' ∧ (j < 4)%nat ∧ full_flushes "http://c" rounds f j fj
    ∧ drain_end "http://c" (rounds j) fj f')
  ∧ Pending <$> drain 4 "http://c" rounds 0 f = Some 5.
Proof.
  intros f rounds. split; [|vm_compute; reflexivity].
  apply (drain_terminates "http://c" rounds 4 f).
  - split; [|apply (bool_decide_unpack _); vm_compute; exact I].
    assert (Sorted Z.lt (seqs (f_buf f))) as Hs.
    { apply (bool_decide_unpack _). vm_compute. exact I. }
    apply Sorted_StronglySorted; [|exact Hs]. intros x y z Hxy Hyz. lia.
  - apply Nat.ltb_lt. vm_compute. reflexivity.
Defined.

Lemma Backfill_copies_witness :
  let peer := (foldl rec_step (NewRecorder 5, []) EvDemo.calls).1 in
  let fetch := λ u, if str_eqb u "b/internal/v1/events" then Some (Recent 0 peer) else None in
  (Backfill (λ _, 99) (Some ["a"; "b"]) fetch (NewRecorder 2)).1 = Some 3.
Proof.
  intros peer fetch.
  refine (proj1 (Backfill_copies (λ _, 99) ["a"] "b" [] fetch 2 peer _ _ _ _)).
  - repeat constructor.
  - reflexivity.
  - discriminate.
  - repeat constructor; discriminate.
Defined.
