(* ===== verification/Escalation.v ===== *)
(** * Escalation: internal/escalation

    The routing of an incident to PagerDuty, OpsGenie and email by
    severity, and the bound on escalations in flight ([escalation.go]).
    Whether what a channel sends arrives is a parameter; the
    channels themselves are in Outgoing. *)
From S2P Require Import Prelude GoStd.
#[local] Open Scope Z_scope.

Definition maxInFlight : nat := 4.
Definition SevCritical : string := "critical".
Definition SevWarning : string := "warning".
Definition SevInfo : string := "info".

Record Incident := mkIncident {
  inc_Title : string; inc_Body : string; inc_Severity : string;
  inc_Namespace : string; inc_Workload : string; inc_Source : string
}.

(** The settings [NewChain] reads. *)
Record EscalationConfig := mkEscCfg {
  PagerDutyRoutingKey : string; OpsGenieAPIKey : string; SMTPHost : string
}.
(** Which channels exist, and the escalations being sent. *)
Record Chain := mkChain {
  ch_pagerduty : bool; ch_opsgenie : bool; ch_email : bool;
  ch_inFlight : list Incident
}.
Definition NewChain (cfg : EscalationConfig) : Chain :=
  mkChain (negb (str_eqb (PagerDutyRoutingKey cfg) "")) (negb (str_eqb (OpsGenieAPIKey cfg) ""))
    (negb (str_eqb (SMTPHost cfg) "")) [].

Definition Configured (c : option Chain) : bool :=
  match c with
  | None => false
  | Some c => ch_pagerduty c || ch_opsgenie c || ch_email c
  end.

Inductive channel := PagerDuty | OpsGenie | Email.
Definition channel_name (ch : channel) : string :=
  match ch with PagerDuty => "pagerduty" | OpsGenie => "opsgenie" | Email => "email" end.

(** The channels [Escalate] tries, in order. *)
Definition pages (inc : Incident) : bool :=
  str_eqb (inc_Severity inc) SevCritical || str_eqb (inc_Severity inc) SevWarning.
Definition channels_for (c : Chain) (inc : Incident) : list channel :=
  (if ch_pagerduty c && pages inc then [PagerDuty] else [])
  ++ (if ch_opsgenie c && pages inc then [OpsGenie] else [])
  ++ (if ch_email c && str_eqb (inc_Severity inc) SevCritical then [Email] else []).

(** [Escalate]: [send] is what a channel answers ([Some err] on failure).
    The result is the channels tried and the joined errors. *)
Definition Escalate (c : option Chain) (send : channel → Incident → option string) (inc : Incident)
  : list channel * list string :=
  match c with
  | Some c0 =>
    if Configured c then
      let tried := channels_for c0 inc in
      (tried, omap (λ ch, (λ e, channel_name ch +:+ ": " +:+ e) <$> send ch inc) tried)
    else ([], [])
  | None => ([], [])
  end.

(** [Send]: start one in the background, or drop it ([false]) when
    [maxInFlight] are running; [finish] is one of them ending. *)
Definition Send (inc : Incident) (c : Chain) : bool * Chain :=
  if negb (Configured (Some c)) then (false, c)
  else if (length (ch_inFlight c) <? maxInFlight)%nat
  then (true, mkChain (ch_pagerduty c) (ch_opsgenie c) (ch_email c) (ch_inFlight c ++ [inc]))
  else (false, c).
Definition finish (i : nat) (c : Chain) : Chain :=
  mkChain (ch_pagerduty c) (ch_opsgenie c) (ch_email c) (delete i (ch_inFlight c)).

Definition pdSeverity (s : string) : string :=
  if str_eqb s SevCritical then "critical" else if str_eqb s SevWarning then "warning" else "info".
Definition ogPriority (s : string) : string :=
  if str_eqb s SevCritical then "P1" else if str_eqb s SevWarning then "P3" else "P5".
Definition truncate (s : string) (n : nat) : string :=
  if (String.length s <=? n)%nat then s else str_take n s +:+ "...".

(** Every configured channel that an incident's severity reaches is
    tried, even after another has failed, no other is, and the errors are
    exactly those of the channels that failed. *)
Theorem Escalate_reaches_every_channel c send inc ch :
  let r := Escalate (Some c) send inc in
  (ch ∈ r.1 ↔
    match ch with
    | PagerDuty => ch_pagerduty c = true ∧ inc_Severity inc ∈ [SevCritical; SevWarning]
    | OpsGenie => ch_opsgenie c = true ∧ inc_Severity inc ∈ [SevCritical; SevWarning]
    | Email => ch_email c = true ∧ inc_Severity inc = SevCritical
    end)
  ∧ (r.2 = [] ↔ ∀ x, x ∈ r.1 → send x inc = None).
Proof.
  intros r.
  assert (r.1 = channels_for c inc
    ∧ r.2 = omap (λ ch, (λ e, channel_name ch +:+ ": " +:+ e) <$> send ch inc) r.1) as [Hr1 Hr2].
  { subst r. unfold Escalate. destruct (Configured (Some c)) eqn:E; [done|].
    simpl in E. apply orb_false_iff in E as [[Hp Ho]%orb_false_iff He].
    unfold channels_for. by rewrite Hp, Ho, He. }
  split.
  - rewrite Hr1. unfold channels_for, pages, str_eqb.
    destruct ch; rewrite ?elem_of_cons;
      destruct (ch_pagerduty c), (ch_opsgenie c), (ch_email c); simpl;
      repeat case_bool_decide; simpl; rewrite ?elem_of_cons, ?elem_of_nil; naive_solver.
  - rewrite Hr2. clear. induction r.1 as [|x l IH]; simpl; [set_solver|].
    destruct (send x inc) eqn:E; simpl.
    + split; [done|]. intros H. specialize (H x). rewrite E in H. set_solver.
    + rewrite IH. set_solver.
Qed.
