(* ===== verification/Gate.v ===== *)
(** * Gate: the mutation gate of internal/kube

    [gate.go] ([applyMutation], the only path by which the agent changes
    the cluster), [guardrails.go], the simulation of [dryrun.go] and the
    preview of [gate_preview.go].

    A call sees one policy snapshot and reads the clock as often as the code
    does: the environment holds the sequence of readings.  The cluster is an
    abstract state [C] and a mutation's [Apply] a function on it that may
    fail.  Calls on the audit log, the event sink, Alertmanager and the
    escalation chain are recorded in order.  Logs, spans and Prometheus
    counters are left out: nothing reads them back. *)
From S2P Require Import Prelude GoStd Policy RateLimit Guards Events Escalation.
From Stdlib Require Import Ascii.
#[local] Open Scope Z_scope.
#[local] Open Scope agent_scope.

Inductive gateOutcome :=
| gateSkipped | gateSuggested | gateSimulated | gateBlocked | gateFailed | gateApplied.
#[export] Instance gateOutcome_eq_dec : EqDecision gateOutcome.
Proof. solve_decision. Defined.

Definition outcomeNames (o : gateOutcome) : string :=
  match o with
  | gateSkipped => "skipped" | gateSuggested => "suggested" | gateSimulated => "simulated"
  | gateBlocked => "blocked" | gateFailed => "failed" | gateApplied => "applied"
  end.

(** The change of an R3 proposal as data ([approval_fixes.go]). *)
Record fixSpec := mkFixSpec {
  fx_Action : string; fx_Namespace : string; fx_Name : string; fx_Kind : string;
  fx_Target : string; fx_From : Z; fx_To : Z; fx_Size : string; fx_Pods : list string;
  fx_Container : string; fx_CPU : string; fx_Job : string
}.

Record mutation {C : Type} := mkMutation {
  m_Namespace : string;
  m_Workload : string;
  m_Pod : string;
  m_Labels : option (gmap string string);
  m_Reason : string;
  m_ActionType : string;
  m_SuccessMsg : string;
  m_SuggestMsg : string;
  m_Apply : C → C * option string;
  m_ApprovedBy : string;
  m_Fix : option fixSpec;
  m_Housekeeping : bool
}.
Arguments mutation : clear implicits.

(** Arguments of [AuditLog.RecordAction]. *)
Record AuditEntry := mkAudit {
  au_Action : string; au_Namespace : string; au_Workload : string; au_Pod : string;
  au_Reason : string; au_Result : string; au_Detail : string; au_Mode : string
}.

(** Calls out of the gate and of the loops that use it, in order. *)
Inductive effect :=
| EAudit (a : AuditEntry)
| EEvent (e : Event)
| EAlert (ns workload : string)
| EEscalate (inc : Incident)
| EApply (action ns workload : string)
| ESlack (msg : string)
| EChannel (channel msg : string)
| ETicket (ticketer key title body : string) (assignees labels : list string)
| ESave (key : string)
| EPullRequest (branch path : string)
| EIncident (reason ns wl pod msg severity : string).

(** What [Deps] holds that a gate call only reads. *)
Record Env := mkEnv {
  env_Policy : Policy;
  env_Clock : nat → Time;
  env_Quiet : option QuietHours;
  env_CRD : option (gmap string (list crd.Policy));
  env_AuditLog : bool;
  env_Recorder : bool;
  env_AlertManager : bool;
  env_Escalation : bool; (* [deps.Escalation.Configured()] *)
  env_NodeName : string
}.

(** What it changes. *)
Record GState {C : Type} := mkGState {
  gs_tick : nat;
  gs_blast : option BlastRadiusTracker;
  gs_budget : option (gmap string (list Time));
  gs_breaker : option CircuitBreaker;
  gs_limiter : option ActionLimiter;
  gs_housekeeping : option ActionLimiter;
  gs_dedup : option Deduplicator;
  gs_dryrun : option DryRunLog;
  gs_cluster : C;
  gs_trace : list effect
}.
Arguments GState : clear implicits.

Section setters.
Context {C : Type}.
Implicit Types s : GState C.
Definition set_tick n s := mkGState C n (gs_blast s) (gs_budget s) (gs_breaker s)
  (gs_limiter s) (gs_housekeeping s) (gs_dedup s) (gs_dryrun s) (gs_cluster s) (gs_trace s).
Definition set_blast b s := mkGState C (gs_tick s) b (gs_budget s) (gs_breaker s)
  (gs_limiter s) (gs_housekeeping s) (gs_dedup s) (gs_dryrun s) (gs_cluster s) (gs_trace s).
Definition set_budget b s := mkGState C (gs_tick s) (gs_blast s) b (gs_breaker s)
  (gs_limiter s) (gs_housekeeping s) (gs_dedup s) (gs_dryrun s) (gs_cluster s) (gs_trace s).
Definition set_breaker b s := mkGState C (gs_tick s) (gs_blast s) (gs_budget s) b
  (gs_limiter s) (gs_housekeeping s) (gs_dedup s) (gs_dryrun s) (gs_cluster s) (gs_trace s).
Definition set_limiter l s := mkGState C (gs_tick s) (gs_blast s) (gs_budget s) (gs_breaker s)
  l (gs_housekeeping s) (gs_dedup s) (gs_dryrun s) (gs_cluster s) (gs_trace s).
Definition set_housekeeping l s := mkGState C (gs_tick s) (gs_blast s) (gs_budget s) (gs_breaker s)
  (gs_limiter s) l (gs_dedup s) (gs_dryrun s) (gs_cluster s) (gs_trace s).
Definition set_dedup d s := mkGState C (gs_tick s) (gs_blast s) (gs_budget s) (gs_breaker s)
  (gs_limiter s) (gs_housekeeping s) d (gs_dryrun s) (gs_cluster s) (gs_trace s).
Definition set_dryrun d s := mkGState C (gs_tick s) (gs_blast s) (gs_budget s) (gs_breaker s)
  (gs_limiter s) (gs_housekeeping s) (gs_dedup s) d (gs_cluster s) (gs_trace s).
Definition set_cluster c s := mkGState C (gs_tick s) (gs_blast s) (gs_budget s) (gs_breaker s)
  (gs_limiter s) (gs_housekeeping s) (gs_dedup s) (gs_dryrun s) c (gs_trace s).
Definition add_effect e s := mkGState C (gs_tick s) (gs_blast s) (gs_budget s) (gs_breaker s)
  (gs_limiter s) (gs_housekeeping s) (gs_dedup s) (gs_dryrun s) (gs_cluster s) (gs_trace s ++ [e]).
End setters.

Section gate.
Context {C : Type} (env : Env).
Abbreviation M := (st (GState C)).
Implicit Types m : mutation C.

Definition pol : Policy := env_Policy env.

(** [deps.clock()] and the clocks of the trackers. *)
Definition clock : M Time := λ s, (env_Clock env (gs_tick s), set_tick (S (gs_tick s)) s).
Definition emit (e : effect) : M unit := st_modify (add_effect e).
Definition when (b : bool) (k : M unit) : M unit := if b then k else st_ret tt.

Definition recordEvent (e : Event) : M unit := when (env_Recorder env) (emit (EEvent e)).

(** [postSlack]; a failed post is only logged. *)
Definition postSlack (msg : string) : M unit := emit (ESlack msg).

(** [fireAlert]. *)
Definition fireAlert (reason ns wl pod msg severity : string) : M unit :=
  when (env_AlertManager env) (emit (EIncident reason ns wl pod msg severity)).

(** [dedupKey]. *)
Definition dedupKey (ns workloadOrName reason : string) : string :=
  ns +:+ "/" +:+ workloadOrName +:+ "/" +:+ reason.

Definition auditAction (action ns wl pod reason result detail : string) : M unit :=
  when (env_AuditLog env)
    (emit (EAudit (mkAudit action ns wl pod reason result detail (Mode_ pol)))) ;;;
  let sev := if str_eqb result "blocked" then Events.SevWarning
             else if str_eqb result "failed" then Events.SevCritical else Events.SevInfo in
  recordEvent (mkEvent 0 0 Audit sev ns wl pod (env_NodeName env) reason detail action "" "" ""
                 result "").

Definition approvalNote (m : mutation C) (detail : string) : string :=
  if str_eqb (m_ApprovedBy m) "" then detail
  else if str_eqb detail "" then "approved by " +:+ m_ApprovedBy m
  else detail +:+ "; approved by " +:+ m_ApprovedBy m.

(** ** The guardrails *)

Definition quiet_now : M bool :=
  match env_Quiet env with
  | None => return! false
  | Some qh =>
    if qh_enabled qh && bool_decide (qh_windows qh ≠ [])
    then let! now := clock in return! (IsQuiet now qh)
    else return! (IsQuiet 0 qh)
  end.

Definition blast_allow (ns : string) : M bool :=
  let! s := st_get in
  match gs_blast s with
  | None => return! true
  | Some b =>
    let! now1 := clock in
    let! now2 := (if blast_expired now1 b then clock else return! now1) in
    let r := AllowAction now1 now2 ns b in
    st_modify (set_blast (Some r.2)) ;;; return! r.1
  end.

(** [policyRefusal] with the budget and the clock of [deps]. *)
Definition ask_policy (p : option crd.Policy) (actionType : string) : M string :=
  let! s := st_get in
  match policyRefusal_static p actionType, gs_budget s with
  | AskBudget _, Some _ =>
    let! now := clock in
    let r := policyRefusal now (gs_budget s) p actionType in
    st_modify (set_budget r.2) ;;; return! r.1
  | _, _ => return! (policyRefusal 0 (gs_budget s) p actionType).1
  end.

Definition breaker_allow (ns wl : string) : M bool :=
  let! s := st_get in
  match gs_breaker s with
  | None => return! true
  | Some cb =>
    let! now := clock in
    let r := RecordAndCheck now ns wl cb in
    st_modify (set_breaker (Some r.2)) ;;; return! r.1
  end.

(** [checkGuardrails]: why the action is blocked, [""] when it is not. *)
Definition checkGuardrails (m : mutation C) : M string :=
  let ns := m_Namespace m in let wl := m_Workload m in
  let! quiet := quiet_now in
  if quiet then return! "quiet hours active: actions suppressed"
  else
  let! blast := (if m_Housekeeping m then return! true else blast_allow ns) in
  if negb blast then return! "blast radius limit: too many namespaces affected this hour"
  else
  let! why := ask_policy (effectivePolicy (env_CRD env) ns (m_Labels m)) (m_ActionType m) in
  if negb (str_eqb why "") then return! why
  else
  let! ok := (if m_Housekeeping m then return! true else breaker_allow ns wl) in
  if negb ok then
    when (env_AlertManager env) (emit (EAlert ns wl)) ;;;
    return! "circuit breaker tripped: too many actions on this workload"
  else return! "".

(** ** Dry-run *)

(** What would block the action; read-only but for the breaker, which
    forgets an expired trip, and the budget, which drops old hits. *)
Definition simulate_blocked (m : mutation C) : M string :=
  let ns := m_Namespace m in
  let! quiet := quiet_now in
  if quiet then return! "quiet hours"
  else
  let! s := st_get in
  let! blast :=
    match gs_blast s with
    | None => return! true
    | Some b => let! now := clock in return! (WouldAllow now ns b)
    end in
  if negb blast then return! "blast radius"
  else
  let! why := ask_policy (effectivePolicy (env_CRD env) ns (m_Labels m)) (m_ActionType m) in
  if negb (str_eqb why "") then return! why
  else
  let! s := st_get in
  match gs_breaker s with
  | None => return! ""
  | Some cb =>
    let! now := clock in
    let r := IsTripped now ns (m_Workload m) cb in
    st_modify (set_breaker (Some r.2)) ;;;
    return! (if r.1 then "circuit breaker" else "")
  end.

Definition SimulateAction (m : mutation C) : M string :=
  let! s := st_get in
  match gs_dryrun s with
  | None => return! ""
  | Some _ =>
    let! blocked := simulate_blocked m in
    let! now := clock in
    let entry := mkDryRun 0 (m_Namespace m) (m_Workload m) (m_Pod m) (m_Reason m)
                   (m_ActionType m) (m_SuccessMsg m) blocked in
    st_modify (λ s, set_dryrun (DryRunLog_Record now entry <$> gs_dryrun s) s) ;;;
    let msg := if str_eqb blocked "" then m_SuccessMsg m
               else "[WOULD BE BLOCKED: " +:+ blocked +:+ "] " +:+ m_SuccessMsg m in
    recordEvent (mkEvent 0 0 Action Events.SevInfo (m_Namespace m) (m_Workload m) (m_Pod m) ""
                   (m_Reason m) msg ("dry-run:" +:+ m_ActionType m) "" "" "" "" "") ;;;
    return! (if str_eqb blocked "" then "_Dry-run_: WOULD " +:+ m_SuccessMsg m +:+ "." +:+ nl
             else "_Dry-run_: WOULD " +:+ m_SuccessMsg m +:+ " but blocked by "
                  +:+ blocked +:+ "." +:+ nl)
  end.

(** ** Escalation of a failed fix *)

Definition escalate (reason ns wl body : string) : M unit :=
  when (env_Escalation env)
    (emit (EEscalate (mkIncident
      (if str_eqb ns "" then reason +:+ " " +:+ wl else reason +:+ " " +:+ ns +:+ "/" +:+ wl)
      body Escalation.SevCritical ns wl "auto-agent"))).

Definition escalateFailedFix (m : mutation C) (err : string) : M unit :=
  let! s := st_get in
  match gs_dedup s with
  | Some d =>
    if env_Escalation env then
      let! now := clock in
      let r := Check now (dedupKey (m_Namespace m) (m_Workload m)
                            ("EscalateFailedFix/" +:+ m_ActionType m)) d in
      st_modify (set_dedup (Some r.2)) ;;;
      when r.1 (escalate "FixFailed" (m_Namespace m) (m_Workload m)
        (m_ActionType m +:+ " failed for " +:+ m_Workload m +:+ " (" +:+ m_Reason m
         +:+ "): " +:+ err))
    else return! tt
  | None => return! tt
  end.

(** ** The gate *)

Definition recordPolicyAction (m : mutation C) : M unit :=
  let! s := st_get in
  match effectivePolicy (env_CRD env) (m_Namespace m) (m_Labels m), gs_budget s with
  | Some p, Some b =>
    if 0 <? crd.MaxActionsPerHour p then
      let! now := clock in st_modify (set_budget (Some (budget_Record (policyKey p) now b)))
    else return! tt
  | _, _ => return! tt
  end.

(** The limiter an action spends; a missing one refuses. *)
Definition limiter_allow (m : mutation C) : M bool :=
  let! s := st_get in
  match (if m_Housekeeping m then gs_housekeeping s else gs_limiter s) with
  | None => return! false
  | Some l =>
    let! now1 := clock in
    let! now2 := (if (Allow now1 now1 l).1 then clock else return! now1) in
    let r := Allow now1 now2 l in
    st_modify (if m_Housekeeping m then set_housekeeping (Some r.2) else set_limiter (Some r.2)) ;;;
    return! r.1
  end.

(** [m.Apply()]: the call, and its error. *)
Definition run_apply (m : mutation C) : M (option string) := λ s,
  let '(c, err) := m_Apply m (gs_cluster s) in
  (err, add_effect (EApply (m_ActionType m) (m_Namespace m) (m_Workload m)) (set_cluster c s)).

Definition audit (m : mutation C) (result detail : string) : M unit :=
  auditAction (m_ActionType m) (m_Namespace m) (m_Workload m) (m_Pod m) (m_Reason m) result detail.

Definition applyMutation (m : mutation C) : M (gateOutcome * string) :=
  let ns := m_Namespace m in
  if negb (str_eqb ns "") && negb (Fixable pol ns) && negb (str_eqb (Mode_ pol) Observe) then
    let why := ns +:+ " is outside the fix scope" in
    audit m "suggested" (why +:+ ": " +:+ m_SuggestMsg m) ;;;
    return! (gateSuggested, "_Suggest_ (" +:+ why +:+ "): " +:+ m_SuggestMsg m +:+ "." +:+ nl)
  else if str_eqb (Mode_ pol) Suggest then
    audit m "suggested" (m_SuggestMsg m) ;;;
    return! (gateSuggested, "_Suggest_: " +:+ m_SuggestMsg m +:+ "." +:+ nl)
  else if str_eqb (Mode_ pol) DryRun then
    let! msg := SimulateAction m in
    audit m "simulated" (m_SuccessMsg m) ;;;
    return! (gateSimulated, msg)
  else if negb (str_eqb (Mode_ pol) Fix) then return! (gateSkipped, "")
  else
  let! why := checkGuardrails m in
  if negb (str_eqb why "") then
    audit m "blocked" (approvalNote m why) ;;;
    return! (gateBlocked, "_Blocked_: " +:+ why +:+ "." +:+ nl)
  else
  let! allowed := limiter_allow m in
  if negb allowed then
    audit m "blocked" (approvalNote m "rate limited") ;;;
    return! (gateBlocked, "_Action_: rate limited, skipping." +:+ nl)
  else
  let! err := run_apply m in
  match err with
  | Some e =>
    audit m "failed" (approvalNote m e) ;;;
    escalateFailedFix m e ;;;
    return! (gateFailed, "_Action_: " +:+ m_ActionType m +:+ " failed: " +:+ e +:+ nl)
  | None =>
    recordPolicyAction m ;;;
    audit m "success" (approvalNote m "") ;;;
    return! (gateApplied, "_Action_: " +:+ m_SuccessMsg m +:+ "." +:+ nl)
  end.

(** ** The preview *)

Record GateCheck := mkCheck { gc_Check : string; gc_Pass : bool; gc_Detail : string }.

Definition modeDetail (md : Mode) : string :=
  if str_eqb md Fix then "fix: changes are applied"
  else if str_eqb md DryRun then "dry-run: changes are simulated and recorded"
  else if str_eqb md Suggest then "suggest: changes are described only"
  else md +:+ ": nothing is done".

Definition policy_limits (p : crd.Policy) : list string :=
  (if crd.RequireApproval p then ["requires approval"] else [])
  ++ (if bool_decide (crd.RestartStuckPods p = Some false) then ["no pod restarts"] else [])
  ++ (if 0 <? crd.MaxActionsPerHour p
      then [itoa (crd.MaxActionsPerHour p) +:+ " actions per hour"] else []).
Definition policyChecks (ns : string) : GateCheck :=
  let ps := crd.List (env_CRD env) ns in
  let limits := omap (λ p, match policy_limits p with
                           | [] => None
                           | what => Some (crd.Name p +:+ " (" +:+ strings_Join what ", " +:+ ")")
                           end) ps in
  let approval := existsb crd.RequireApproval ps in
  if bool_decide (limits = [])
  then mkCheck "policy limits" true "no AutoRemediationPolicy here limits actions"
  else mkCheck "policy limits" (negb approval)
         ("for the workloads they select: " +:+ strings_Join limits "; ").

Definition GatePreview `{RangeOrder} (ns : string) : M (list GateCheck) :=
  let fixable := Fixable pol ns in
  let c_mode := mkCheck "mode" (str_eqb (Mode_ pol) Fix) (modeDetail (Mode_ pol)) in
  let c_scope := mkCheck "fix scope" fixable
    (ns +:+ (if fixable then " is in the fix scope"
             else " is outside the fix scope: fixes are only suggested")) in
  let! quiet := quiet_now in
  let c_quiet := mkCheck "quiet hours" (negb quiet)
    (if quiet then "quiet hours are active" else "not in quiet hours") in
  let! s := st_get in
  let! c_blast :=
    match gs_blast s with
    | None => return! []
    | Some b =>
      let! now := clock in
      return! [mkCheck "blast radius" (WouldAllow now ns b)
                 (itoa (AffectedNamespaces b) +:+ " namespaces acted on this hour")]
    end in
  let! c_rate :=
    match gs_limiter s with
    | None => return! mkCheck "rate limit" false "no rate limiter: the gate fails closed"
    | Some l =>
      let! now := clock in
      let r := Remaining now l in
      st_modify (set_limiter (Some r.2)) ;;;
      return! mkCheck "rate limit" (0 <? r.1) (itoa r.1 +:+ " actions left in the window")
    end in
  let! c_breaker :=
    match gs_breaker s with
    | None => return! []
    | Some cb =>
      let! now := clock in
      let tripped := (λ w, strings_TrimPrefix w (ns +:+ "/")) <$>
        filter (λ w, strings_HasPrefix w (ns +:+ "/") = true) (TrippedWorkloads now cb) in
      return! [mkCheck "circuit breaker" true
                 (if bool_decide (tripped = []) then "no workload tripped"
                  else "tripped, so blocked: " +:+ strings_Join tripped ", "
                       +:+ "; other workloads pass")]
    end in
  return! ([c_mode; c_scope; c_quiet] ++ c_blast ++ [c_rate] ++ c_breaker ++ [policyChecks ns]).
End gate.

(** ** Frames

    What a step of the gate leaves alone, as relations between the states
    before and after. *)
Definition is_apply (e : effect) : bool := match e with EApply _ _ _ => true | _ => false end.
Definition applies (l : list effect) : list effect := filter (λ e, is_apply e = true) l.
Definition audits (l : list effect) : list AuditEntry :=
  omap (λ e, match e with EAudit a => Some a | _ => None end) l.

(** The audit log is only added to. *)
Definition audits_grow {C} (s s' : GState C) : Prop := audits (gs_trace s) `prefix_of` audits (gs_trace s').
Definition same_cluster {C} (s s' : GState C) : Prop :=
  gs_cluster s' = gs_cluster s ∧ applies (gs_trace s') = applies (gs_trace s) ∧ audits_grow s s'.
Definition same_audits {C} (s s' : GState C) : Prop := audits (gs_trace s') = audits (gs_trace s).
Definition same_main_budgets {C} (s s' : GState C) : Prop :=
  gs_blast s' = gs_blast s ∧ gs_breaker s' = gs_breaker s ∧ gs_limiter s' = gs_limiter s.
Definition same_housekeeping {C} (s s' : GState C) : Prop := gs_housekeeping s' = gs_housekeeping s.
Definition same_spending {C} (s s' : GState C) : Prop :=
  gs_blast s' = gs_blast s ∧ gs_limiter s' = gs_limiter s
  ∧ gs_housekeeping s' = gs_housekeeping s ∧ gs_dedup s' = gs_dedup s.

#[export] Instance audits_grow_preorder {C} : PreOrder (@audits_grow C).
Proof. unfold audits_grow. split; [by intros s|]. intros x y z ??. by etrans. Qed.
#[export] Instance same_cluster_preorder {C} : PreOrder (@same_cluster C).
Proof.
  split; [by intros s|]. intros x y z (?&?&?) (?&?&?). split_and!; [congruence..|]. by etrans.
Qed.
#[export] Instance same_audits_preorder {C} : PreOrder (@same_audits C).
Proof. split; [done|]. unfold same_audits. intros ??? ??. congruence. Qed.
#[export] Instance same_main_budgets_preorder {C} : PreOrder (@same_main_budgets C).
Proof. split; [done|]. intros ??? (?&?&?) (?&?&?). split_and!; congruence. Qed.
#[export] Instance same_housekeeping_preorder {C} : PreOrder (@same_housekeeping C).
Proof. split; [done|]. unfold same_housekeeping. intros ??? ??. congruence. Qed.
#[export] Instance same_spending_preorder {C} : PreOrder (@same_spending C).
Proof. split; [done|]. intros ??? (?&?&?&?) (?&?&?&?). split_and!; congruence. Qed.

Lemma applies_snoc l e : is_apply e = false → applies (l ++ [e]) = applies l.
Proof. intros He. unfold applies. by rewrite filter_app, filter_cons, He, app_nil_r. Qed.
Lemma audits_snoc l e :
  audits (l ++ [e]) = audits l ++ match e with EAudit a => [a] | _ => [] end.
Proof. unfold audits. rewrite omap_app. by destruct e. Qed.

Lemma add_effect_audits {C} e (s : GState C) : audits_grow s (add_effect e s).
Proof. unfold audits_grow. cbn [gs_trace add_effect]. rewrite audits_snoc. by eexists. Qed.
Lemma same_cluster_frame {C} (s s' : GState C) :
  gs_cluster s' = gs_cluster s → gs_trace s' = gs_trace s → same_cluster s s'.
Proof. intros Hc Ht. unfold same_cluster, audits_grow. by rewrite Hc, Ht. Qed.
#[export] Hint Extern 0 (audits_grow _ _) => exact (reflexivity (R := prefix) _) : core.
#[export] Hint Extern 0 (same_cluster _ _) => exact (same_cluster_frame _ _ eq_refl eq_refl) : core.
Lemma add_effect_same {C} e (s : GState C) : is_apply e = false → same_cluster s (add_effect e s).
Proof. intros He. split_and!; [done|by apply applies_snoc|apply add_effect_audits]. Qed.

(** Walk through a step of the gate; what is left are the primitive
    changes. *)
Ltac keeps_step :=
  match goal with
  | |- keeps _ (st_bind _ _) => apply (keeps_bind _); [|intros ?]
  | |- keeps _ (st_ret _) => apply (keeps_ret _)
  | |- keeps _ st_get => apply (keeps_get _)
  | |- keeps _ (when _ _) => unfold when
  | |- keeps _ (clock _) => intros ?
  | |- keeps _ (emit _) => unfold emit
  | |- keeps _ (st_modify _) => apply (keeps_modify _); intros ?
  | |- keeps _ (match ?x with _ => _ end) => destruct x
  end.
Ltac solve_keeps :=
  repeat keeps_step; repeat case_match; try done; try (by apply same_cluster_frame); try (by apply add_effect_same).

(** A step that keeps [R], then the rest. *)
Lemma bind_keeps {S A B} (R : S → S → Prop) (m : st S A) (k : A → st S B) s (Q : B * S → Prop) :
  keeps R m → (∀ a s', R s s' → Q (k a s')) → Q (st_bind m k s).
Proof.
  intros Hm Hk. unfold st_bind. specialize (Hm s). destruct (m s) as [a s']. by apply Hk.
Qed.
Lemma keeps_weaken {S A} (R R' : S → S → Prop) (m : st S A) :
  (∀ s s', R s s' → R' s s') → keeps R m → keeps R' m.
Proof. intros H Hm s. apply H, Hm. Qed.

Lemma bind_answer {S A B} (m : st S A) (f : A → B) s :
  st_bind m (λ a, st_ret (f a)) s = (f (m s).1, (m s).2).
Proof. unfold st_bind. by destruct (m s). Qed.
Lemma bind_tt {S A B} (m : st S A) (b : B) s : st_bind m (λ _, st_ret b) s = (b, (m s).2).
Proof. unfold st_bind. by destruct (m s). Qed.

Section frames.
Context {C : Type} (env : Env).
Implicit Types m : mutation C.

(** No step before [run_apply] reaches the cluster, nor one after it. *)
Lemma auditAction_cluster a b c d e f g : keeps (@same_cluster C) (auditAction env a b c d e f g).
Proof. unfold auditAction, recordEvent. solve_keeps. Qed.
Lemma audit_cluster m r d : keeps same_cluster (audit env m r d).
Proof. apply auditAction_cluster. Qed.
Lemma ask_policy_cluster p a : keeps (@same_cluster C) (ask_policy env p a).
Proof. unfold ask_policy. solve_keeps. Qed.
Lemma quiet_now_cluster : keeps (@same_cluster C) (quiet_now env).
Proof. unfold quiet_now. solve_keeps. Qed.
Lemma blast_allow_cluster ns : keeps (@same_cluster C) (blast_allow env ns).
Proof. unfold blast_allow. solve_keeps. Qed.
Lemma breaker_allow_cluster ns w : keeps (@same_cluster C) (breaker_allow env ns w).
Proof. unfold breaker_allow. solve_keeps. Qed.
Lemma limiter_allow_cluster m : keeps same_cluster (limiter_allow env m).
Proof. unfold limiter_allow. solve_keeps. Qed.
Hint Resolve auditAction_cluster audit_cluster ask_policy_cluster quiet_now_cluster
  blast_allow_cluster breaker_allow_cluster limiter_allow_cluster : core.
Lemma checkGuardrails_cluster m : keeps same_cluster (checkGuardrails env m).
Proof. unfold checkGuardrails. solve_keeps; auto. Qed.
Lemma simulate_blocked_cluster m : keeps same_cluster (simulate_blocked env m).
Proof. unfold simulate_blocked. solve_keeps; auto. Qed.
Hint Resolve simulate_blocked_cluster : core.
Lemma SimulateAction_cluster m : keeps same_cluster (SimulateAction env m).
Proof. unfold SimulateAction, recordEvent. solve_keeps; auto. Qed.
Lemma escalateFailedFix_cluster m e : keeps same_cluster (escalateFailedFix env m e).
Proof. unfold escalateFailedFix, escalate. solve_keeps. Qed.
Lemma recordPolicyAction_cluster m : keeps same_cluster (recordPolicyAction env m).
Proof. unfold recordPolicyAction. solve_keeps. Qed.
End frames.
#[export] Hint Resolve auditAction_cluster audit_cluster ask_policy_cluster quiet_now_cluster
  blast_allow_cluster breaker_allow_cluster limiter_allow_cluster checkGuardrails_cluster
  simulate_blocked_cluster SimulateAction_cluster escalateFailedFix_cluster
  recordPolicyAction_cluster : agent.

(** The ways through the gate, for a relation [R] that the steps before
    [Apply] keep: a property of the result is checked at each way out. *)
Definition in_fix_scope (p : Policy) (ns : string) : Prop := ns = "" ∨ Fixable p ns = true.
Definition after_apply {C} (env : Env) (m : mutation C) : st (GState C) (gateOutcome * string) :=
  (let! err := run_apply m in
   match err with
   | Some e =>
     audit env m "failed" (approvalNote m e) ;;;
     escalateFailedFix env m e ;;;
     return! (gateFailed, "_Action_: " +:+ m_ActionType m +:+ " failed: " +:+ e +:+ nl)
   | None =>
     recordPolicyAction env m ;;;
     audit env m "success" (approvalNote m "") ;;;
     return! (gateApplied, "_Action_: " +:+ m_SuccessMsg m +:+ "." +:+ nl)
   end)%agent.

Lemma gate_ways {C} env (m : mutation C) (R : GState C → GState C → Prop) `{!PreOrder R} s
  (Q : (gateOutcome * string) * GState C → Prop) :
  (Mode_ (env_Policy env) = DryRun → keeps R (SimulateAction env m)) →
  (Mode_ (env_Policy env) = Fix → keeps R (checkGuardrails env m)) →
  (Mode_ (env_Policy env) = Fix → keeps R (limiter_allow env m)) →
  (∀ d msg, Q ((gateSuggested, msg), (audit env m "suggested" d s).2)) →
  (∀ s1 msg, Mode_ (env_Policy env) = DryRun → R s s1 →
     Q ((gateSimulated, msg), (audit env m "simulated" (m_SuccessMsg m) s1).2)) →
  Q ((gateSkipped, ""), s) →
  (∀ s1 why msg, Mode_ (env_Policy env) = Fix → R s s1 →
     Q ((gateBlocked, msg), (audit env m "blocked" (approvalNote m why) s1).2)) →
  (∀ s2, R s s2 → Mode_ (env_Policy env) = Fix → in_fix_scope (env_Policy env) (m_Namespace m) →
     Q (after_apply env m s2)) →
  Q (applyMutation env m s).
Proof.
  intros HS HG HL Hsug Hsim Hskip Hblk Hrun.
  unfold applyMutation, pol. destruct (negb _ && _ && _) eqn:Hscope; [rewrite bind_tt; apply Hsug|].
  destruct (str_eqb _ Suggest); [rewrite bind_tt; apply Hsug|].
  destruct (str_eqb _ DryRun) eqn:Hdry.
  { apply str_eqb_eq in Hdry. apply (bind_keeps R); [auto|]. intros msg s1 H1. rewrite bind_tt. by apply Hsim. }
  destruct (str_eqb _ Fix) eqn:Hfix; cbn [negb]; [|done].
  apply str_eqb_eq in Hfix. apply (bind_keeps R); [auto|]. intros why s1 H1.
  destruct (negb (str_eqb why "")); [rewrite bind_tt; by apply Hblk|].
  apply (bind_keeps R); [auto|]. intros [] s2 H2; cbn [negb]; [|rewrite bind_tt; apply Hblk; [done|by etrans]].
  apply Hrun; [by etrans|done|]. rewrite Hfix in Hscope. cbn in Hscope.
  rewrite andb_true_r in Hscope. unfold in_fix_scope.
  apply andb_false_iff in Hscope as [->%negb_false_iff%str_eqb_eq| ->%negb_false_iff]; auto.
Qed.

(** ** What the gate does to the cluster *)

(** How a gate call ended, told by what it did to the cluster. *)
Definition cluster_effect {C} (m : mutation C) (r : (gateOutcome * string) * GState C) (s : GState C)
  : Prop :=
  match r.1.1 with
  | gateApplied | gateFailed =>
    gs_cluster r.2 = (m_Apply m (gs_cluster s)).1
    ∧ applies (gs_trace r.2)
      = applies (gs_trace s) ++ [EApply (m_ActionType m) (m_Namespace m) (m_Workload m)]
    ∧ (r.1.1 = gateFailed ↔ (m_Apply m (gs_cluster s)).2 ≠ None)
  | _ => gs_cluster r.2 = gs_cluster s ∧ applies (gs_trace r.2) = applies (gs_trace s)
  end.

Lemma after_apply_cluster {C} env (m : mutation C) s s2 :
  same_cluster s s2 → cluster_effect m (after_apply env m s2) s.
Proof.
  intros (Hc & Ht & _). unfold after_apply, run_apply, st_bind at 1.
  destruct (m_Apply m (gs_cluster s2)) as [c err] eqn:Ha. rewrite Hc in Ha.
  assert (∀ s3, same_cluster (add_effect (EApply (m_ActionType m) (m_Namespace m) (m_Workload m))
      (set_cluster c s2)) s3 → gs_cluster s3 = c ∧ applies (gs_trace s3) = applies (gs_trace s)
      ++ [EApply (m_ActionType m) (m_Namespace m) (m_Workload m)]) as Hdone.
  { intros s3 (-> & -> & _). split; [done|]. simpl. unfold applies in *. by rewrite filter_app, Ht. }
  destruct err as [e|];
    (apply (bind_keeps same_cluster); [auto with agent|]; intros [] s3 H3;
     apply (bind_keeps same_cluster); [auto with agent|]; intros [] s4 H4;
     unfold cluster_effect; simpl; rewrite Ha; destruct (Hdone s4) as [-> ->]; [by etrans|done]).
Qed.

(** What a call does to the cluster, and when. *)
Lemma gate_cluster {C} env (m : mutation C) s :
  let r := applyMutation env m s in
  cluster_effect m r s
  ∧ (r.1.1 = gateApplied ∨ r.1.1 = gateFailed →
     Mode_ (env_Policy env) = Fix ∧ in_fix_scope (env_Policy env) (m_Namespace m)).
Proof.
  assert (∀ o msg s' d r s1, o ≠ gateApplied → o ≠ gateFailed → same_cluster s s1 →
    s' = (audit env m r d s1).2 → 
    cluster_effect m ((o, msg), s') s ∧ ((o, msg, s').1.1 = gateApplied ∨ (o, msg, s').1.1 = gateFailed
      → Mode_ (env_Policy env) = Fix ∧ in_fix_scope (env_Policy env) (m_Namespace m))) as Hno.
  { intros o msg s' d r s1 ?? H1 ->. split; [|intros [|]; done].
    assert (same_cluster s (audit env m r d s1).2) as (? & ? & _)
      by (etrans; [exact H1|apply audit_cluster]).
    unfold cluster_effect. by destruct o. }
  apply (gate_ways env m same_cluster); [auto with agent..| | | | |].
  - intros. by eapply Hno.
  - intros. by eapply Hno.
  - split; [done|]. intros [[=]|[=]].
  - intros. by eapply Hno.
  - intros s2 H2 Hm Hs. split; [by apply after_apply_cluster|done].
Qed.

Lemma gate_audits_grow {C} env (m : mutation C) s : audits_grow s (applyMutation env m s).2.
Proof.
  assert (∀ s s' : GState C, same_cluster s s' → audits_grow s s') as Hw by (by intros ?? (_ & _ & ?)).
  assert (∀ s r d s1, audits_grow s s1 → audits_grow s (audit env m r d s1).2) as Haudit.
  { intros s' r d s1 H. etrans; [exact H|]. by apply Hw, audit_cluster. }
  assert (∀ A (k : st (GState C) A), keeps same_cluster k → keeps audits_grow k) as Hk by (intros A k Hs s0; by apply Hw).
  apply (gate_ways env m audits_grow s (λ r, audits_grow s r.2)); cbn [snd]; intros;
    [apply Hk; auto with agent..|by apply Haudit|by apply Haudit|done|by apply Haudit|].
  unfold after_apply, run_apply, st_bind at 1. destruct (m_Apply m (gs_cluster _)) as [c err]. destruct err as [e|];
      (apply (bind_keeps same_cluster); [auto with agent|]; intros [] s3 H3%Hw;
       apply (bind_keeps same_cluster); [auto with agent|]; intros [] s4 H4%Hw; cbn [snd st_ret];
       etrans; [eassumption|]; etrans; [|exact H4]; etrans; [|exact H3]; exact (add_effect_audits _ (set_cluster c _))).
Qed.
(** A call that ran nothing left the cluster alone. *)
Lemma gate_same {C} env (m : mutation C) s :
  let r := applyMutation env m s in
  r.1.1 ≠ gateApplied → r.1.1 ≠ gateFailed → same_cluster s r.2.
Proof.
  cbv zeta. destruct (gate_cluster env m s) as [Hc _]. pose proof (gate_audits_grow env m s) as Ha.
  unfold cluster_effect in Hc. destruct (applyMutation env m s) as [[[] msg] s']; cbn [fst snd] in *; try done;
    intros _ _; destruct Hc; by split_and!.
Qed.

(** C2: The central safety claim: a gate call changes the cluster only in
    fix mode and only in a namespace of the fix scope, by exactly one run of
    the mutation's [Apply], and it says "applied" or "failed" then and only
    then, according to the error; every other outcome leaves the cluster as it
    was. *)
Theorem gate_acts_only_in_fix_scope {C} env (m : mutation C) s :
  let r := applyMutation env m s in
  cluster_effect m r s
  ∧ (r.1.1 = gateApplied ∨ r.1.1 = gateFailed →
     Mode_ (env_Policy env) = Fix ∧ in_fix_scope (env_Policy env) (m_Namespace m)).
Proof. exact (gate_cluster env m s). Qed.

(** ** The audit trail *)

Definition audit_result (o : gateOutcome) : string :=
  match o with
  | gateSkipped => "" | gateSuggested => "suggested" | gateSimulated => "simulated"
  | gateBlocked => "blocked" | gateFailed => "failed" | gateApplied => "success"
  end.

Section audit_frames.
Context {C : Type} (env : Env).
Implicit Types m : mutation C.
Ltac solve_audits :=
  solve_keeps; try (unfold same_audits; simpl; rewrite audits_snoc; apply app_nil_r).
Lemma ask_policy_audits p a : keeps (@same_audits C) (ask_policy env p a).
Proof. unfold ask_policy. solve_audits. Qed.
Lemma quiet_now_audits : keeps (@same_audits C) (quiet_now env).
Proof. unfold quiet_now. solve_audits. Qed.
Lemma checkGuardrails_audits m : keeps same_audits (checkGuardrails env m).
Proof.
  unfold checkGuardrails, blast_allow, breaker_allow.
  solve_audits; auto using ask_policy_audits, quiet_now_audits.
Qed.
Lemma SimulateAction_audits m : keeps same_audits (SimulateAction env m).
Proof.
  unfold SimulateAction, simulate_blocked, recordEvent.
  solve_audits; auto using ask_policy_audits, quiet_now_audits.
Qed.
Lemma limiter_allow_audits m : keeps same_audits (limiter_allow env m).
Proof. unfold limiter_allow. solve_audits. Qed.
Lemma escalateFailedFix_audits m e : keeps same_audits (escalateFailedFix env m e).
Proof. unfold escalateFailedFix, escalate. solve_audits. Qed.
Lemma recordPolicyAction_audits m : keeps same_audits (recordPolicyAction env m).
Proof. unfold recordPolicyAction. solve_audits. Qed.
End audit_frames.

Lemma audit_audits {C} env (m : mutation C) r d s :
  env_AuditLog env = true →
  audits (gs_trace (audit env m r d s).2) = audits (gs_trace s)
    ++ [mkAudit (m_ActionType m) (m_Namespace m) (m_Workload m) (m_Pod m) (m_Reason m) r d
          (Mode_ (env_Policy env))].
Proof.
  intros Hl. unfold audit, auditAction, recordEvent. rewrite Hl. unfold when, emit, st_bind. simpl.
  destruct (env_Recorder env); simpl; by rewrite !audits_snoc, ?app_nil_r.
Qed.

Definition audited {C} (env : Env) (m : mutation C) (s : GState C)
  (r : (gateOutcome * string) * GState C) : Prop :=
  if decide (r.1.1 = gateSkipped) then r.2 = s
  else ∃ detail,
    audits (gs_trace r.2) = audits (gs_trace s)
      ++ [mkAudit (m_ActionType m) (m_Namespace m) (m_Workload m) (m_Pod m) (m_Reason m)
            (audit_result r.1.1) detail (Mode_ (env_Policy env))]
    ∧ (r.1.1 ∈ [gateBlocked; gateFailed; gateApplied] → ∃ d, detail = approvalNote m d).

Lemma gate_audited {C} env (m : mutation C) s :
  env_AuditLog env = true → audited env m s (applyMutation env m s).
Proof.
  intros Hl.
  assert (∀ o (msg : string) s1 d, o ≠ gateSkipped → same_audits s s1 →
    (o ∈ [gateBlocked; gateFailed; gateApplied] → ∃ d', d = approvalNote m d') →
    audited env m s ((o, msg), (audit env m (audit_result o) d s1).2)) as Hone.
  { intros o msg s1 d Ho H1 Hd. unfold audited. cbn [fst snd]. rewrite decide_False by done.
    exists d. by rewrite audit_audits, H1. }
  apply (gate_ways env m same_audits);
    [intros; apply SimulateAction_audits|intros; apply checkGuardrails_audits
    |intros; apply limiter_allow_audits| | | | |].
  - intros d msg. apply Hone; [done..|]. set_solver.
  - intros s1 msg _ H1. apply Hone; [done..|]. set_solver.
  - done.
  - intros s1 why msg _ H1. apply Hone; eauto.
  - intros s2 H2 _ _. unfold after_apply, run_apply, st_bind at 1.
    destruct (m_Apply m (gs_cluster s2)) as [c err].
    set (s3 := add_effect _ _).
    assert (same_audits s s3) as H3.
    { unfold same_audits. subst s3. simpl. rewrite audits_snoc, H2. apply app_nil_r. }
    destruct err as [e|].
    + destruct (Hone gateFailed "" s3 (approvalNote m e)) as (d & Hd & Hn); [done..|by eauto|].
      unfold st_bind at 1. destruct (audit env m _ _ s3) as [[] s4] eqn:E4. rewrite bind_tt.
      exists d. split; [|done]. cbn [fst snd]. rewrite (escalateFailedFix_audits env m e s4).
      unfold audit_result in *. cbn [fst snd] in *. done.
    + apply (bind_keeps same_audits); [apply recordPolicyAction_audits|]. intros [] s4 H4.
      rewrite bind_tt. apply Hone; [done|by etrans|eauto].
Qed.

(** C20: Nothing the gate decides goes unrecorded: with an audit log, a call
    that is not skipped (observe mode, which changes nothing) appends exactly
    one audit entry, for this action, with the result that matches its outcome
    and the mode it ran under; when the mutation was approved, a blocked,
    failed or applied entry names the approver. *)
Theorem gate_audits_every_decision {C} env (m : mutation C) s :
  env_AuditLog env = true → audited env m s (applyMutation env m s).
Proof. exact (gate_audited env m s). Qed.

(** ** The decision as a table

    At one instant, the answers of the guards are those of the state the
    call starts in: no guard disturbs what a later one asks. *)
Section verdict.
Context {C : Type} (env : Env) (now : Time).
Implicit Types m : mutation C.

Definition quiet_at : bool :=
  match env_Quiet env with Some qh => IsQuiet now qh | None => false end.
Definition blast_ok (m : mutation C) (s : GState C) : bool :=
  match gs_blast s with Some b => WouldAllow now (m_Namespace m) b | None => true end.
Definition policy_says (m : mutation C) (s : GState C) : string :=
  (policyRefusal now (gs_budget s)
     (effectivePolicy (env_CRD env) (m_Namespace m) (m_Labels m)) (m_ActionType m)).1.
Definition breaker_ok (m : mutation C) (s : GState C) : bool :=
  match gs_breaker s with
  | Some cb => (RecordAndCheck now (m_Namespace m) (m_Workload m) cb).1
  | None => true
  end.
Definition limit_left (m : mutation C) (s : GState C) : bool :=
  match (if m_Housekeeping m then gs_housekeeping s else gs_limiter s) with
  | Some l => 0 <? (Remaining now l).1
  | None => false
  end.

(** The reasons to block, in order of precedence. *)
Definition refusals (m : mutation C) (s : GState C) : list (bool * string) :=
  [ (quiet_at, "quiet hours active: actions suppressed");
    (negb (m_Housekeeping m) && negb (blast_ok m s),
     "blast radius limit: too many namespaces affected this hour");
    (negb (str_eqb (policy_says m s) ""), policy_says m s);
    (negb (m_Housekeeping m) && negb (breaker_ok m s),
     "circuit breaker tripped: too many actions on this workload") ].
Fixpoint first_refusal (l : list (bool * string)) : string :=
  match l with [] => "" | (b, why) :: l' => if b then why else first_refusal l' end.

Definition gate_verdict (m : mutation C) (s : GState C) : gateOutcome :=
  let md := Mode_ (env_Policy env) in
  if bool_decide (¬ in_fix_scope (env_Policy env) (m_Namespace m) ∧ md ≠ Observe) then gateSuggested
  else if bool_decide (md = Suggest) then gateSuggested
  else if bool_decide (md = DryRun) then gateSimulated
  else if bool_decide (md ≠ Fix) then gateSkipped
  else if bool_decide (first_refusal (refusals m s) ≠ "") then gateBlocked
  else if negb (limit_left m s) then gateBlocked
  else match (m_Apply m (gs_cluster s)).2 with Some _ => gateFailed | None => gateApplied end.
End verdict.

(** What a guard may change beyond its own tracker: nothing that a later
    guard or [Apply] asks. *)
Record others {C} (own : nat) (s s' : GState C) : Prop := {
  ot_blast : own ≠ 0%nat → gs_blast s' = gs_blast s;
  ot_budget : own ≠ 1%nat → gs_budget s' = gs_budget s;
  ot_breaker : own ≠ 2%nat → gs_breaker s' = gs_breaker s;
  ot_limiter : gs_limiter s' = gs_limiter s;
  ot_housekeeping : gs_housekeeping s' = gs_housekeeping s;
  ot_cluster : gs_cluster s' = gs_cluster s
}.
Definition answers {C A} (own : nat) (g : st (GState C) A) (s : GState C) (a : A) : Prop :=
  (g s).1 = a ∧ others own s (g s).2.

Lemma bind_answers {C A B} own (g : st (GState C) A) (k : A → st (GState C) B) s a
  (Q : B * GState C → Prop) :
  answers own g s a → (∀ s', others own s s' → Q (k a s')) → Q (st_bind g k s).
Proof.
  intros [Ha Ho] Hk. unfold st_bind. destruct (g s) as [a' s']. simpl in *. subst. by apply Hk.
Qed.

Section verdict_steps.
Context {C : Type} (env : Env) (now : Time).
Hypothesis Hclock : ∀ i, env_Clock env i = now.
Implicit Types (m : mutation C) (s : GState C).

Lemma quiet_now_answers s : answers 3 (quiet_now env) s (quiet_at env now).
Proof.
  unfold answers, quiet_now, quiet_at. destruct (env_Quiet env) as [qh|]; [|by split].
  unfold st_bind, clock, st_ret. destruct (qh_enabled qh && _) eqn:E; (split; [|by split]); simpl.
  - by rewrite Hclock.
  - unfold IsQuiet. destruct (qh_enabled qh); [|done]. simpl in *.
    apply bool_decide_eq_false in E. by rewrite bool_decide_true by (by apply dec_stable).
Qed.
Lemma blast_allow_answers m s :
  answers 0 (blast_allow env (m_Namespace m)) s (blast_ok now m s).
Proof.
  unfold answers, blast_allow, blast_ok, st_bind, st_get, clock, st_ret, st_modify.
  destruct (gs_blast s) as [b|] eqn:E; [|by split].
  destruct (blast_expired _ b); simpl; rewrite Hclock, WouldAllow_predicts; by split.
Qed.
Lemma ask_policy_answers m s :
  answers 1 (ask_policy env (effectivePolicy (env_CRD env) (m_Namespace m) (m_Labels m))
               (m_ActionType m)) s (policy_says env now m s).
Proof.
  unfold answers, ask_policy, policy_says, st_bind, st_get, clock, st_ret, st_modify, policyRefusal.
  set (p := effectivePolicy _ _ _).
  destruct (policyRefusal_static p (m_ActionType m)), p, (gs_budget s) as [b|];
    simpl; rewrite ?Hclock; by split.
Qed.
Lemma breaker_allow_answers m s :
  answers 2 (breaker_allow env (m_Namespace m) (m_Workload m)) s (breaker_ok now m s).
Proof.
  unfold answers, breaker_allow, breaker_ok, st_bind, st_get, clock, st_ret, st_modify.
  destruct (gs_breaker s) as [cb|] eqn:E; [|by split]. rewrite Hclock. by split.
Qed.
Lemma limiter_allow_answers m s : (limiter_allow env m s).1 = limit_left now m s
  ∧ gs_cluster (limiter_allow env m s).2 = gs_cluster s.
Proof.
  unfold limiter_allow, limit_left, st_bind, st_get, clock, st_ret, st_modify.
  destruct (if m_Housekeeping m then _ else _) as [l|]; [|done].
  destruct (Allow _ _ l).1; simpl; (split; [|by destruct (m_Housekeeping m)]);
    by rewrite !Hclock, Allow_Remaining.
Qed.
Lemma when_others own s b (g : st (GState C) unit) :
  (∀ s, others own s (g s).2) → others own s (when b g s).2.
Proof. intros Hg. destruct b; [apply Hg|by split]. Qed.

Definition guarded s (why : string) (r : string * GState C) : Prop :=
  r.1 = why ∧ gs_limiter r.2 = gs_limiter s ∧ gs_housekeeping r.2 = gs_housekeeping s
  ∧ gs_cluster r.2 = gs_cluster s.
Ltac solve_guarded := unfold guarded; cbn; split_and!; congruence.
Lemma checkGuardrails_answers m s :
  guarded s (first_refusal (refusals env now m s)) (checkGuardrails env m s).
Proof.
  unfold checkGuardrails. apply (bind_answers _ _ _ _ _ _ (quiet_now_answers s)).
  intros s1 [H1 H2 H3 H4 H5 H6]. unfold refusals. cbn [first_refusal].
  destruct (quiet_at env now); [solve_guarded|].
  specialize (H1 ltac:(done)); specialize (H2 ltac:(done)); specialize (H3 ltac:(done)).
  assert (answers 0 (if m_Housekeeping m then st_ret true else blast_allow env (m_Namespace m)) s1
    (m_Housekeeping m || blast_ok now m s)) as Hb.
  { destruct (m_Housekeeping m); [by split|]. unfold blast_ok. rewrite <-H1. apply blast_allow_answers. }
  apply (bind_answers _ _ _ _ _ _ Hb). intros s2 [_ J2 J3 J4 J5 J6].
  rewrite <-negb_orb. destruct (m_Housekeeping m || blast_ok now m s); cbn [negb];
    [|solve_guarded].
  specialize (J2 ltac:(done)); specialize (J3 ltac:(done)).
  apply (bind_answers _ _ _ _ _ _ (ask_policy_answers m s2)). intros s3 [_ _ K3 K4 K5 K6].
  specialize (K3 ltac:(done)).
  assert (policy_says env now m s2 = policy_says env now m s) as ->
    by (unfold policy_says; by rewrite J2, H2).
  destruct (negb (str_eqb (policy_says env now m s) "")); [solve_guarded|].
  assert (answers 2 (if m_Housekeeping m then st_ret true else breaker_allow env (m_Namespace m)
      (m_Workload m)) s3 (m_Housekeeping m || breaker_ok now m s)) as Hk.
  { destruct (m_Housekeeping m); [by split|].
    replace (breaker_ok now m s) with (breaker_ok now m s3)
      by (unfold breaker_ok; by rewrite K3, J3, H3). apply breaker_allow_answers. }
  apply (bind_answers _ _ _ _ _ _ Hk). intros s4 [_ _ _ L4 L5 L6].
  rewrite <-negb_orb. destruct (m_Housekeeping m || breaker_ok now m s); cbn [negb];
    [solve_guarded|].
  rewrite bind_tt. destruct (env_AlertManager env); solve_guarded.
Qed.
End verdict_steps.

(** C3: The gate decides by a table: at one instant, the outcome of a call
    is the one its mode, its scope, the first refusal in order of precedence
    and the limiter give from the state before the call, and the error of
    [Apply] tells "failed" from "applied". *)
Theorem gate_decision {C} env now (m : mutation C) s :
  (∀ i, env_Clock env i = now) → (applyMutation env m s).1.1 = gate_verdict env now m s.
Proof.
  intros Hclock. unfold applyMutation, gate_verdict, pol.
  assert ((negb (str_eqb (m_Namespace m) "") && negb (Fixable (env_Policy env) (m_Namespace m))
    && negb (str_eqb (Mode_ (env_Policy env)) Observe))
    = bool_decide (¬ in_fix_scope (env_Policy env) (m_Namespace m) ∧ Mode_ (env_Policy env) ≠ Observe)) as ->.
  { apply eq_true_iff_eq. rewrite bool_decide_eq_true. unfold in_fix_scope.
    rewrite !andb_true_iff, !negb_true_iff, !str_eqb_ne, <-not_true_iff_false. tauto. }
  case_bool_decide; [by rewrite bind_tt|]. rewrite !(str_eqb_decide (Mode_ _)).
  case_bool_decide; [by rewrite bind_tt|].
  case_bool_decide.
  { unfold st_bind at 1. destruct (SimulateAction env m s) as [msg s1]. by rewrite bind_tt. }
  rewrite <-bool_decide_not. case_bool_decide; [done|].
  unfold st_bind at 1. destruct (checkGuardrails_answers env now Hclock m s) as (Hw & Hl & Hh & Hc).
  destruct (checkGuardrails env m s) as [why s1]. cbn [fst snd] in *. subst why.
  rewrite str_eqb_decide, <-bool_decide_not. case_bool_decide; [by rewrite bind_tt|].
  unfold st_bind at 1. destruct (limiter_allow_answers env now Hclock m s1) as [Hw Hc2].
  destruct (limiter_allow env m s1) as [ok s2]. cbn [fst snd] in *. subst ok.
  assert (limit_left now m s1 = limit_left now m s) as -> by (unfold limit_left; by rewrite Hl, Hh).
  destruct (limit_left now m s); cbn [negb]; [|by rewrite bind_tt].
  unfold run_apply, st_bind at 1. rewrite Hc2, Hc. destruct (m_Apply m (gs_cluster s)) as [c [e|]]; simpl.
  - unfold st_bind at 1. destruct (audit _ _ _ _ _) as [[] s3]. by rewrite bind_tt.
  - unfold st_bind at 1. destruct (recordPolicyAction _ _ _) as [[] s3]. by rewrite bind_tt.
Qed.

(** ** Housekeeping and the budgets of fixes *)

Section budgets.
Context {C : Type} (env : Env).
Implicit Types m : mutation C.

Lemma audit_main m r d : keeps same_main_budgets (audit env m r d).
Proof. unfold audit, auditAction, recordEvent. solve_keeps. Qed.
Lemma audit_housekeeping m r d : keeps same_housekeeping (audit env m r d).
Proof. unfold audit, auditAction, recordEvent. solve_keeps. Qed.
Lemma ask_policy_main p a : keeps (@same_main_budgets C) (ask_policy env p a).
Proof. unfold ask_policy. solve_keeps. Qed.
Lemma ask_policy_housekeeping p a : keeps (@same_housekeeping C) (ask_policy env p a).
Proof. unfold ask_policy. solve_keeps. Qed.
Lemma quiet_now_main : keeps (@same_main_budgets C) (quiet_now env).
Proof. unfold quiet_now. solve_keeps. Qed.
Lemma quiet_now_housekeeping : keeps (@same_housekeeping C) (quiet_now env).
Proof. unfold quiet_now. solve_keeps. Qed.
Lemma SimulateAction_housekeeping m : keeps same_housekeeping (SimulateAction env m).
Proof.
  unfold SimulateAction, simulate_blocked, recordEvent.
  solve_keeps; auto using ask_policy_housekeeping, quiet_now_housekeeping.
Qed.
Lemma checkGuardrails_housekeeping m : keeps same_housekeeping (checkGuardrails env m).
Proof.
  unfold checkGuardrails, blast_allow, breaker_allow.
  solve_keeps; auto using ask_policy_housekeeping, quiet_now_housekeeping.
Qed.
Lemma checkGuardrails_main m :
  m_Housekeeping m = true → keeps same_main_budgets (checkGuardrails env m).
Proof.
  intros Hh. unfold checkGuardrails. rewrite Hh.
  solve_keeps; auto using ask_policy_main, quiet_now_main.
Qed.
Lemma limiter_allow_main m : m_Housekeeping m = true → keeps same_main_budgets (limiter_allow env m).
Proof. intros Hh. unfold limiter_allow. rewrite Hh. solve_keeps. Qed.
Lemma limiter_allow_housekeeping m :
  m_Housekeeping m = false → keeps same_housekeeping (limiter_allow env m).
Proof. intros Hh. unfold limiter_allow. rewrite Hh. solve_keeps. Qed.
Lemma after_apply_main m : keeps same_main_budgets (after_apply env m).
Proof.
  unfold after_apply, escalateFailedFix, escalate, recordPolicyAction.
  apply (keeps_bind _).
  { intros s. unfold run_apply. by destruct (m_Apply m _). }
  intros []; solve_keeps; apply audit_main.
Qed.
Lemma after_apply_housekeeping m : keeps same_housekeeping (after_apply env m).
Proof.
  unfold after_apply, escalateFailedFix, escalate, recordPolicyAction.
  apply (keeps_bind _).
  { intros s. unfold run_apply. by destruct (m_Apply m _). }
  intros []; solve_keeps; apply audit_housekeeping.
Qed.
Lemma SimulateAction_spending m : keeps same_spending (SimulateAction env m).
Proof.
  unfold SimulateAction, simulate_blocked, recordEvent, ask_policy, quiet_now.
  solve_keeps.
Qed.
Lemma audit_spending m r d : keeps same_spending (audit env m r d).
Proof. unfold audit, auditAction, recordEvent. solve_keeps. Qed.
End budgets.

(** Housekeeping and fixes do not spend each other's budget: a
    housekeeping change in fix mode leaves the blast radius, the breaker and
    the action limiter as they were, and any other change leaves the
    housekeeping limiter as it was. *)
Theorem housekeeping_has_its_own_budget {C} env (m : mutation C) s :
  if m_Housekeeping m
  then Mode_ (env_Policy env) = Fix → same_main_budgets s (applyMutation env m s).2
  else same_housekeeping s (applyMutation env m s).2.
Proof.
  destruct (m_Housekeeping m) eqn:Hh.
  - intros Hfix. apply (gate_ways env m same_main_budgets); rewrite ?Hfix; intros; try discriminate;
      auto using checkGuardrails_main, limiter_allow_main; cbn [snd]; try apply audit_main.
    + done.
    + etrans; [eassumption|apply audit_main].
    + etrans; [eassumption|apply after_apply_main].
  - apply (gate_ways env m same_housekeeping); intros;
      auto using SimulateAction_housekeeping, checkGuardrails_housekeeping,
        limiter_allow_housekeeping; cbn [snd].
    all: first [ apply audit_housekeeping | etrans; [eassumption|apply audit_housekeeping]
               | etrans; [eassumption|apply after_apply_housekeeping] | done ].
Qed.

(** ** Dry-run *)

(** What a simulation answers at one instant. *)
Section simulation.
Context {C : Type} (env : Env) (now : Time).
Hypothesis Hclock : ∀ i, env_Clock env i = now.
Implicit Types (m : mutation C) (s : GState C).

Definition tripped_at m s : bool :=
  match gs_breaker s with
  | Some cb => (IsTripped now (m_Namespace m) (m_Workload m) cb).1
  | None => false
  end.
Definition predictions m s : list (bool * string) :=
  [ (quiet_at env now, "quiet hours"); (negb (blast_ok now m s), "blast radius");
    (negb (str_eqb (policy_says env now m s) ""), policy_says env now m s);
    (tripped_at m s, "circuit breaker") ].

Lemma simulate_blocked_answers m s :
  (simulate_blocked env m s).1 = first_refusal (predictions m s).
Proof.
  unfold simulate_blocked. apply (bind_answers _ _ _ _ _ (λ r, r.1 = _) (quiet_now_answers env now Hclock s)).
  intros s1 [H1 H2 H3 _ _ _]. unfold predictions. cbn [first_refusal].
  destruct (quiet_at env now); [done|].
  specialize (H1 ltac:(done)); specialize (H2 ltac:(done)); specialize (H3 ltac:(done)).
  change (st_bind st_get ?k s1) with (k s1 s1). cbv beta.
  assert (answers 0 (match gs_blast s1 with
    | None => st_ret true
    | Some b => st_bind (clock env) (λ now, st_ret (WouldAllow now (m_Namespace m) b))
    end) s1 (blast_ok now m s)) as Hb.
  { unfold blast_ok. rewrite <-H1. destruct (gs_blast s1); [|by split].
    unfold answers, st_bind, clock, st_ret. rewrite Hclock. by split. }
  apply (bind_answers _ _ _ _ _ (λ r, r.1 = _) Hb). intros s2 [_ J2 J3 _ _ _].
  destruct (blast_ok now m s); cbn [negb]; [|done].
  specialize (J2 ltac:(done)); specialize (J3 ltac:(done)).
  apply (bind_answers _ _ _ _ _ (λ r, r.1 = _) (ask_policy_answers env now Hclock m s2)).
  intros s3 [_ _ K3 _ _ _]. specialize (K3 ltac:(done)).
  assert (policy_says env now m s2 = policy_says env now m s) as ->
    by (unfold policy_says; by rewrite J2, H2).
  destruct (negb (str_eqb (policy_says env now m s) "")); [done|].
  unfold st_bind at 1. cbn. unfold tripped_at. rewrite K3, J3, H3.
  destruct (gs_breaker s) as [cb|]; [|done]. unfold st_bind, clock. cbn.
  by rewrite Hclock.
Qed.
End simulation.

(** An action the breaker lets through did not find it tripped. *)
Lemma RecordAndCheck_not_tripped now ns wl cb :
  (RecordAndCheck now ns wl cb).1 = true → (IsTripped now ns wl cb).1 = false.
Proof.
  unfold RecordAndCheck, IsTripped. destruct (cb_tripped cb !! _); [|done].
  destruct (_ <? _) eqn:Ht; [done|]. intros _. destruct (_ <=? _) eqn:?; [done|blia].
Qed.

(** C19: Dry-run foretells the gate: for a fix (not housekeeping), at one
    instant and from one state, the simulation names a blocker only when fix
    mode would block too, and when it names none the only guardrail that can
    still block is the circuit breaker, on the very action that trips it. *)
Theorem dryrun_predicts_the_gate {C} env now (m : mutation C) s :
  (∀ i, env_Clock env i = now) → m_Housekeeping m = false →
  let blocked := (simulate_blocked env m s).1 in
  let why := (checkGuardrails env m s).1 in
  (blocked ≠ "" → why ≠ "")
  ∧ (blocked = "" → why = "" ∨ tripped_at now m s = false ∧ breaker_ok now m s = false
       ∧ why = "circuit breaker tripped: too many actions on this workload").
Proof.
  intros Hclock Hh. cbv zeta. rewrite (simulate_blocked_answers env now Hclock).
  destruct (checkGuardrails_answers env now Hclock m s) as [-> _].
  assert (breaker_ok now m s = true → tripped_at now m s = false) as Ht.
  { unfold breaker_ok, tripped_at. destruct (gs_breaker s); [|done]. apply RecordAndCheck_not_tripped. }
  unfold predictions, refusals. cbn [first_refusal]. rewrite Hh. cbn [negb andb].
  destruct (quiet_at env now); [done|]. destruct (blast_ok now m s); cbn [negb]; [|done].
  rewrite str_eqb_decide, <-bool_decide_not. case_bool_decide; [done|].
  destruct (breaker_ok now m s); cbn [negb]; [rewrite Ht by done; auto|].
  split; [done|]. destruct (tripped_at now m s); [done|auto].
Qed.

(** Dry-run acts on nothing and spends nothing: the cluster, the blast
    radius, both limiters and the deduplicator are as before, and no
    [Apply] ran. *)
Theorem dryrun_spends_nothing {C} env (m : mutation C) s :
  Mode_ (env_Policy env) = DryRun →
  same_spending s (applyMutation env m s).2 ∧ same_cluster s (applyMutation env m s).2.
Proof.
  intros Hdry. split.
  - apply (gate_ways env m same_spending); rewrite ?Hdry; intros; try discriminate;
      auto using SimulateAction_spending; cbn [snd]; try apply audit_spending; [|done].
    etrans; [eassumption|apply audit_spending].
  - apply (gate_ways env m same_cluster); rewrite ?Hdry; intros; try discriminate;
      auto with agent; cbn [snd]; try apply audit_cluster.
    etrans; [eassumption|apply audit_cluster].
Qed.

(** ** Witnesses *)
Module GateDemo.
(** A cluster that counts deletions; the deletion of [fails] is refused. *)
Definition delete (ns wl : string) (hk fails : bool) : mutation Z :=
  mkMutation Z ns wl (wl +:+ "-0") (Some ∅) "CrashLoopBackOff" "delete_pod" "deleted the pod"
    "delete the pod" (λ c, if fails then (c, Some "forbidden") else (c + 1, None)) "" None hk.
Definition policy_in (md : Mode) : Policy := {|
  Mode_ := md; HPACoexistence := true; CPUThreshold := f64_const 8 1;
  ScaleWindow := "5m"; MaxScaleStep := 2; MaxActionsPer10m := 10;
  ExcludedAnnotation := "auto-agent.io/disable"; LLMEnabled := false; LogLevel := "info";
  CooldownUp := "2m"; CooldownDown := "10m"; MaxReplicas := 50; MinReplicas := 1;
  DedupTTLSeconds := 300; LLMTimeoutSec := 10; SlackTimeoutSec := 5;
  WatchAll := true; WatchNamespaces := ∅;
  System := NamespaceSet systemNamespaces;
  FixNamespaces := NamespaceSet ["shop"; "pay"];
  FixCeiling := NamespaceSet ["shop"; "pay"; "web"];
  FixAnywhere := false; FixOverride := None |}.
Definition now : Time := 1000 * hour.
Definition env (md : Mode) : Env :=
  mkEnv (policy_in md) (λ _, now) None None true true true true "node-1".
(** One namespace per window, ten actions, a breaker at two. *)
Definition start : GState Z :=
  mkGState Z 0 (Some (NewBlastRadiusTracker now 1 hour)) (Some NewPolicyBudget)
    (Some (NewCircuitBreaker 2 hour)) (Some (NewActionLimiter 10 (10 * minute)))
    (Some (NewActionLimiter 10 (10 * minute))) (Some (NewDeduplicator hour))
    (Some (NewDryRunLog 10)) 0 [].
(** After one deletion in [pay]. *)
Definition after_pay : GState Z := (applyMutation (env Fix) (delete "pay" "api" false false) start).2.
End GateDemo.

Lemma gate_audits_every_decision_witness :
  let m := GateDemo.delete "shop" "web" false true in
  let r := applyMutation (GateDemo.env Fix) m GateDemo.start in
  r.1.1 = gateFailed ∧ audited (GateDemo.env Fix) m GateDemo.start r.
Proof.
  intros m r. split; [vm_compute; reflexivity|].
  apply (gate_audits_every_decision (GateDemo.env Fix) m GateDemo.start). reflexivity.
Defined.

Lemma gate_decision_witness :
  let m := GateDemo.delete "shop" "web" false false in
  (applyMutation (GateDemo.env Fix) m GateDemo.after_pay).1.1 = gateBlocked
  ∧ gate_verdict (GateDemo.env Fix) GateDemo.now m GateDemo.start = gateApplied.
Proof.
  intros m. split; [vm_compute; reflexivity|].
  rewrite <-(gate_decision (GateDemo.env Fix) GateDemo.now m GateDemo.start) by reflexivity.
  vm_compute. reflexivity.
Defined.

Lemma housekeeping_has_its_own_budget_witness :
  let m := GateDemo.delete "shop" "job" true false in
  let r := applyMutation (GateDemo.env Fix) m GateDemo.after_pay in
  r.1.1 = gateApplied ∧ same_main_budgets GateDemo.after_pay r.2.
Proof.
  intros m r. split; [vm_compute; reflexivity|].
  apply (housekeeping_has_its_own_budget (GateDemo.env Fix) m GateDemo.after_pay). reflexivity.
Defined.

Lemma dryrun_predicts_the_gate_witness :
  let m := GateDemo.delete "shop" "web" false false in
  let blocked := (simulate_blocked (GateDemo.env DryRun) m GateDemo.after_pay).1 in
  blocked = "blast radius" ∧ (checkGuardrails (GateDemo.env DryRun) m GateDemo.after_pay).1 ≠ "".
Proof.
  intros m blocked. split; [vm_compute; reflexivity|].
  apply (proj1 (dryrun_predicts_the_gate (GateDemo.env DryRun) GateDemo.now m GateDemo.after_pay
    (λ _, eq_refl) eq_refl)).
  vm_compute. discriminate.
Defined.

Lemma dryrun_spends_nothing_witness :
  let r := applyMutation (GateDemo.env DryRun) (GateDemo.delete "shop" "web" false false) GateDemo.start in
  r.1.1 = gateSimulated ∧ same_spending GateDemo.start r.2.
Proof.
  intros r. split; [vm_compute; reflexivity|].
  apply (proj1 (dryrun_spends_nothing (GateDemo.env DryRun)
    (GateDemo.delete "shop" "web" false false) GateDemo.start eq_refl)).
Defined.

(** ** What modelling the gate showed *)

(** Dry-run does not know housekeeping: it says the blast radius would block
    a change that fix mode applies. *)
Example dryrun_mispredicts_housekeeping :
  let m := GateDemo.delete "shop" "job" true false in
  (simulate_blocked (GateDemo.env DryRun) m GateDemo.after_pay).1 = "blast radius"
  ∧ (applyMutation (GateDemo.env Fix) m GateDemo.after_pay).1.1 = gateApplied.
Proof. vm_compute. done. Qed.

(** Nor does it ask the rate limiter. *)
Example dryrun_ignores_rate_limit :
  let m := GateDemo.delete "pay" "web" false false in
  let s := set_limiter (Some (NewActionLimiter 0 hour)) GateDemo.start in
  (simulate_blocked (GateDemo.env DryRun) m s).1 = ""
  ∧ (applyMutation (GateDemo.env Fix) m s).1.1 = gateBlocked.
Proof. vm_compute. done. Qed.

(** A blocked action spends the blast radius: with a limiter that is full,
    an action on [shop] takes the one namespace of the window, and [pay] is
    refused after it although nothing was acted on. *)
Example blocked_action_spends_blast_radius :
  let s := set_limiter (Some (NewActionLimiter 0 hour)) GateDemo.start in
  let r := applyMutation (GateDemo.env Fix) (GateDemo.delete "shop" "web" false false) s in
  r.1.1 = gateBlocked ∧ gs_cluster r.2 = 0
  ∧ (checkGuardrails (GateDemo.env Fix) (GateDemo.delete "pay" "api" false false) r.2).1
    = "blast radius limit: too many namespaces affected this hour".
Proof. vm_compute. done. Qed.
