(* ===== verification/AuditFile.v ===== *)
(** * The audit log's file: AuditLog of internal/kube/auditlog.go

    Every gate call and every saved scope is one line of a file that is only
    appended to.  The file system is a parameter ([AuditFiles]); what the
    theorems rely on of it is [AuditFilesLaws]: a file changes by what is
    written to it, and a write that fails may have written the front of its
    text.  [encoding/json] is a parameter; the counter of failures, which is
    all that tells of them, is a list. *)
From S2P Require Import Prelude GoStd.
From S2P Require Import Policy RateLimit Guards Events Escalation Gate.
#[local] Open Scope Z_scope.
#[local] Open Scope agent_scope.

(** ** The log *)
(** [AuditEntry]; a time that is not set is Go's zero time. *)
Record Entry := mkEntry {
  en_Timestamp : Time; en_Action : string; en_Namespace : string; en_Workload : string; en_Pod : string;
  en_Node : string; en_Reason : string; en_Result : string; en_Detail : string; en_Mode : string;
  en_Extras : gmap string string
}.
Definition en_set_Timestamp (t : Time) (e : Entry) : Entry :=
  mkEntry t (en_Action e) (en_Namespace e) (en_Workload e) (en_Pod e) (en_Node e) (en_Reason e) (en_Result e)
    (en_Detail e) (en_Mode e) (en_Extras e).

(** [os.MkdirAll], [os.OpenFile] with [O_APPEND|O_CREATE|O_WRONLY], and
    [Write] and [Close] of what it opens. *)
Class AuditFiles (W H : Type) := {
  os_MkdirAll : string → W → option string * W;
  os_OpenAppend : string → W → (H + string) * W;
  os_Write : H → string → W → option string * W;
  os_Close : H → W → option string * W
}.
(** The log's path and its open file. *)
Record AuditLog (H : Type) := mkLog { al_path : string; al_file : option H }.
Arguments mkLog {H}.
Arguments al_path {H}.
Arguments al_file {H}.
Inductive audit_failure := OpenFailed (e : string) | WriteFailed (e : string).

Section log.
Context {W H : Type} `{!AuditFiles W H}.
(** [filepath.Dir], and [json.Marshal] of an entry. *)
Context (dir : string → string) (marshal : Entry → string + string).
(** The log, the file system, and the failures counted. *)
Record run := mkRun { ru_log : AuditLog H; ru_fs : W; ru_failed : list audit_failure }.

Definition on_fs {A} (f : W → A * W) : st run A :=
  λ s, let a := f (ru_fs s) in (a.1, mkRun (ru_log s) a.2 (ru_failed s)).
Definition set_file (f : option H) : st run unit :=
  st_modify (λ s, mkRun (mkLog (al_path (ru_log s)) f) (ru_fs s) (ru_failed s)).
Definition auditFailed (x : audit_failure) : st run unit :=
  st_modify (λ s, mkRun (ru_log s) (ru_fs s) (ru_failed s ++ [x])).

Definition default_path : string := "/var/log/auto-agent/audit.jsonl".
Definition NewAuditLog (path : string) (w : W) : run :=
  let path := if str_eqb path "" then default_path else path in
  let m := os_MkdirAll (dir path) w in
  match m.1 with
  | Some e => mkRun (mkLog path None) m.2 [OpenFailed e]
  | None =>
      let f := os_OpenAppend path m.2 in
      match f.1 with
      | inr e => mkRun (mkLog path None) f.2 [OpenFailed e]
      | inl h => mkRun (mkLog path (Some h)) f.2 []
      end
  end.
Definition closeLocked : st run unit :=
  let! s := st_get in
  match al_file (ru_log s) with
  | None => return! tt
  | Some h =>
      let! r := on_fs (os_Close h) in
      match r with Some e => auditFailed (WriteFailed e) | None => return! tt end ;;;
      set_file None
  end.
(** The file as it is, or opened now. *)
Definition opened : st run (option H) :=
  let! s := st_get in
  match al_file (ru_log s) with
  | Some h => return! Some h
  | None =>
      let! r := on_fs (os_OpenAppend (al_path (ru_log s))) in
      match r with
      | inr e => auditFailed (OpenFailed e) ;;; return! None
      | inl h => set_file (Some h) ;;; return! Some h
      end
  end.
(** [Encode]: the text and a line feed, in one write. *)
Definition line_of (text : string) : string := text +:+ nl.
Definition Encode (h : H) (e : Entry) : st run (option string) :=
  match marshal e with
  | inr err => return! Some err
  | inl text => on_fs (os_Write h (line_of text))
  end.
Definition stamped (now : Time) (e : Entry) : Entry := if time_IsZero (en_Timestamp e) then en_set_Timestamp now e else e.
Definition Record_ (now : Time) (e : Entry) : st run unit :=
  let e := stamped now e in
  let! f := opened in
  match f with
  | None => return! tt
  | Some h =>
      let! r := Encode h e in
      match r with
      | Some err => auditFailed (WriteFailed err) ;;; closeLocked
      | None => return! tt
      end
  end.
Definition Close : st run unit := closeLocked.
(** [RecordAction], from the arguments the gate gives it. *)
Definition entry_of (a : AuditEntry) : Entry :=
  mkEntry 0 (au_Action a) (au_Namespace a) (au_Workload a) (au_Pod a) "" (au_Reason a) (au_Result a) (au_Detail a)
    (au_Mode a) ∅.
Definition RecordAction (now : Time) (a : AuditEntry) : st run unit := Record_ now (entry_of a).
End log.
Arguments run : clear implicits.

(** ** What the file holds *)
Class AuditFilesLaws (W H : Type) `{!AuditFiles W H} := {
  text_of : string → W → string;
  path_of : H → string;
  mkdir_text d p w : text_of p (os_MkdirAll d w).2 = text_of p w;
  open_text p q w : text_of q (os_OpenAppend p w).2 = text_of q w;
  open_path p w h : (os_OpenAppend p w).1 = inl h → path_of h = p;
  close_text h p w : text_of p (os_Close h w).2 = text_of p w;
  write_text h s w : ∃ part rest, part +:+ rest = s
    ∧ text_of (path_of h) (os_Write h s w).2 = text_of (path_of h) w +:+ part
    ∧ ((os_Write h s w).1 = None → rest = "")
}.

Section theorems.
Context {W H : Type} `{!AuditFiles W H, !AuditFilesLaws W H} (dir : string → string) (marshal : Entry → string + string).
Implicit Type s : run W H.

Definition log_ok s : Prop := ∀ h, al_file (ru_log s) = Some h → path_of h = al_path (ru_log s).
Definition own_text s : string := text_of (al_path (ru_log s)) (ru_fs s).
(** A step of the log at its path: it appends [part] and notes [fs]. *)
Definition appends s s' (part : string) (fs : list audit_failure) : Prop :=
  log_ok s' ∧ al_path (ru_log s') = al_path (ru_log s) ∧ own_text s' = own_text s +:+ part
  ∧ ru_failed s' = ru_failed s ++ fs.
Lemma appends_refl s : log_ok s → appends s s "" [].
Proof. intros Hs. split_and!; [done..| |]; [by rewrite str_app_nil_r|by rewrite app_nil_r]. Qed.
Lemma appends_trans s1 s2 s3 p q fs gs : appends s1 s2 p fs → appends s2 s3 q gs → appends s1 s3 (p +:+ q) (fs ++ gs).
Proof.
  intros (_ & Hp1 & Ht1 & Hf1) (Hs & Hp2 & Ht2 & Hf2). split_and!; [done|congruence| |].
  - by rewrite Ht2, Ht1, str_app_assoc.
  - by rewrite Hf2, Hf1, (assoc_L (++)).
Qed.

Lemma closeLocked_appends s : log_ok s →
  ∃ fs, appends s (closeLocked s).2 "" fs ∧ al_file (ru_log (closeLocked s).2) = None.
Proof.
  intros Hs. unfold closeLocked, st_bind, st_get. destruct (al_file (ru_log s)) as [h|] eqn:E.
  2:{ exists []. split; [by apply appends_refl|done]. }
  destruct s as [[path f] fs failed]. cbn in *. unfold own_text, log_ok in *.
  pose proof (close_text h path fs) as Hc. destruct (os_Close h fs) as [[e|] w]; cbn in Hc |- *.
  - exists [WriteFailed e]. unfold appends, own_text, log_ok. cbn. rewrite Hc, str_app_nil_r. done.
  - exists []. unfold appends, own_text, log_ok. cbn. rewrite Hc, str_app_nil_r, app_nil_r. done.
Qed.
Lemma opened_appends s : log_ok s →
  let r := opened s in
  ∃ fs, appends s r.2 "" fs ∧ al_file (ru_log r.2) = r.1 ∧ (r.1 ≠ None → fs = []) ∧ (r.1 = None → fs ≠ []).
Proof.
  intros Hs. unfold opened, st_bind, st_get. destruct (al_file (ru_log s)) as [h|] eqn:E.
  { exists []. split_and!; [by apply appends_refl|done..]. }
  destruct s as [[path f] fs failed]. cbn in *.
  pose proof (open_text path path fs) as Ht. pose proof (open_path path fs) as Hp.
  destruct (os_OpenAppend path fs) as [[h|e] w]; cbn in Ht, Hp |- *.
  - exists []. unfold appends, own_text, log_ok. cbn. rewrite Ht, str_app_nil_r, app_nil_r.
    split_and!; try done. intros h' [= <-]. by apply Hp.
  - exists [OpenFailed e]. unfold appends, own_text, log_ok. cbn. rewrite Ht, str_app_nil_r.
    by split_and!.
Qed.

(** What one call leaves of its entry in the file: the whole line, or the
    front of it and a failure noted. *)
Inductive call := CRecord (now : Time) (e : Entry) | CClose.
Definition run_call s (c : call) : run W H :=
  match c with CRecord now e => (Record_ marshal now e s).2 | CClose => (Close s).2 end.
Definition wrote (c : call) (part : string) (fs : list audit_failure) : Prop :=
  match c with
  | CClose => part = ""
  | CRecord now e =>
      match marshal (stamped now e) with
      | inl text => ∃ rest, part +:+ rest = line_of text ∧ (rest = "" ∨ fs ≠ [])
      | inr _ => part = "" ∧ fs ≠ []
      end
  end.
Lemma Encode_appends h e s : log_ok s → al_file (ru_log s) = Some h →
  let r := Encode marshal h e s in
  ∃ part, appends s r.2 part []
    ∧ match marshal e with
      | inl text => ∃ rest, part +:+ rest = line_of text ∧ (r.1 = None → rest = "")
      | inr _ => part = "" ∧ r.1 ≠ None
      end.
Proof.
  intros Hs Hf. unfold Encode. destruct (marshal e) as [text|err].
  2:{ exists "". split; [by apply appends_refl|done]. }
  destruct (write_text h (line_of text) (ru_fs s)) as (part & rest & Hl & Ht & Hr). exists part.
  split; [|by exists rest]. unfold on_fs, appends, own_text, log_ok in *. cbn.
  rewrite <-(Hs _ Hf), Ht, app_nil_r, (Hs _ Hf). done.
Qed.
Lemma Record_wrote now e s : log_ok s →
  ∃ part fs, appends s (Record_ marshal now e s).2 part fs ∧ wrote (CRecord now e) part fs.
Proof.
  intros Hs. unfold Record_, st_bind. destruct (opened_appends s Hs) as (fs & Ha & Hf & Hok & Hno).
  destruct (opened s) as [[h|] s1]; cbn in Ha, Hf, Hok, Hno.
  2:{ exists "", fs. split; [done|]. cbn. specialize (Hno eq_refl). destruct (marshal _) as [text|]; [|done].
      exists (line_of text). by rewrite str_app_nil_l; auto. }
  rewrite (Hok ltac:(done)) in Ha. pose proof (proj1 Ha) as Hs1.
  destruct (Encode_appends h (stamped now e) s1 Hs1 Hf) as (part & Hb & Hw).
  destruct (Encode marshal h (stamped now e) s1) as [[err|] s2]; cbn in Hb, Hw |- *.
  - set (s3 := mkRun _ _ _). assert (appends s2 s3 "" [WriteFailed err]) as Hn.
    { unfold s3, appends, own_text, log_ok. cbn. rewrite str_app_nil_r. split_and!; try done. exact (proj1 Hb). }
    destruct (closeLocked_appends s3 (proj1 Hn)) as (gs & Hc & _).
    pose proof (appends_trans _ _ _ _ _ _ _ (appends_trans _ _ _ _ _ _ _ (appends_trans _ _ _ _ _ _ _ Ha Hb) Hn) Hc) as H4.
    rewrite str_app_nil_l, !str_app_nil_r in H4. eexists part, _. split; [exact H4|].
    unfold wrote. destruct (marshal _) as [text|]; [|by destruct Hw].
    destruct Hw as (rest & Hl & _). exists rest. split; [done|by right].
  - pose proof (appends_trans _ _ _ _ _ _ _ Ha Hb) as H2. rewrite str_app_nil_l in H2.
    eexists part, _. split; [exact H2|]. unfold wrote. destruct (marshal _) as [text|]; [|by destruct Hw].
    destruct Hw as (rest & Hl & Hr). exists rest. split; [done|left; by apply Hr].
Qed.
Lemma NewAuditLog_ok path w : log_ok (NewAuditLog dir path w).
Proof.
  unfold NewAuditLog. set (p := if str_eqb path "" then _ else _).
  destruct (os_MkdirAll (dir p) w) as [[e|] w1]; [done|]. cbn. pose proof (open_path p w1) as Hp.
  destruct (os_OpenAppend p w1) as [[h|e] w2]; [|done]. intros h' [= <-]. by apply Hp.
Qed.
Lemma NewAuditLog_text path w : own_text (NewAuditLog dir path w) = text_of (al_path (ru_log (NewAuditLog dir path w))) w.
Proof.
  unfold NewAuditLog, own_text. set (p := if str_eqb path "" then _ else _).
  pose proof (mkdir_text (dir p) p w) as Hm. destruct (os_MkdirAll (dir p) w) as [[e|] w1]; cbn in *; [done|].
  pose proof (open_text p p w1) as Ho. destruct (os_OpenAppend p w1) as [[h|e] w2]; cbn in *; congruence.
Qed.

(** What the file holds after any calls: a part of each, in order. *)
Lemma audit_file_parts path w calls :
  let s0 := NewAuditLog dir path w in
  let s := foldl run_call s0 calls in
  ∃ parts : list (string * list audit_failure),
    Forall2 (λ c p, wrote c p.1 p.2) calls parts
    ∧ own_text s = text_of (al_path (ru_log s0)) w +:+ foldr String.append "" parts.*1
    ∧ ru_failed s = ru_failed s0 ++ concat parts.*2.
Proof.
  cbv zeta. rewrite <-NewAuditLog_text. generalize (NewAuditLog_ok path w). generalize (NewAuditLog dir path w).
  induction calls as [|c calls IH]; intros s Hs; cbn [foldl].
  { exists []. split_and!; [done|by rewrite str_app_nil_r|by rewrite app_nil_r]. }
  assert (∃ part fs, appends s (run_call s c) part fs ∧ wrote c part fs) as (part & fs & (Hs' & _ & Ht & Hf) & Hw).
  { destruct c as [now e|]; [by apply Record_wrote|]. destruct (closeLocked_appends s Hs) as (fs & Ha & _).
    by exists "", fs. }
  destruct (IH _ Hs') as (parts & Hws & Hts & Hfs). exists ((part, fs) :: parts). split_and!; [by constructor| |].
  - rewrite Hts, Ht. cbn. by rewrite str_app_assoc.
  - rewrite Hfs, Hf. cbn. by rewrite (assoc_L (++)).
Qed.
(** A recorded entry is in the file as a whole line, or a failure is noted. *)
Lemma recorded_entry_in_file path w calls now e :
  CRecord now e ∈ calls →
  let s := foldl run_call (NewAuditLog dir path w) calls in
  (∃ text before after, marshal (stamped now e) = inl text ∧ own_text s = before +:+ line_of text +:+ after)
  ∨ ru_failed s ≠ [].
Proof.
  intros Hin. cbv zeta. destruct (audit_file_parts path w calls) as (parts & Hw & Ht & Hf).
  apply list_elem_of_split in Hin as (c1 & c2 & ->). apply Forall2_app_inv_l in Hw as (p1 & p2' & _ & H2 & ->).
  apply Forall2_cons_inv_l in H2 as ([part fs] & p2 & Hw & _ & ->). cbn in Hw.
  assert ((∃ text, marshal (stamped now e) = inl text ∧ part = line_of text) ∨ fs ≠ []) as [(text & Hm & ->)|Hne].
  { destruct (marshal (stamped now e)) as [text|]; [|right; by destruct Hw].
    destruct Hw as (rest & Hl & [->|?]); [left|by right]. exists text. by rewrite str_app_nil_r in Hl. }
  - left. exists text. rewrite Ht, fmap_app, foldr_app. cbn [fmap list_fmap foldr fst].
    exists (text_of (al_path (ru_log (NewAuditLog dir path w))) w +:+ foldr String.append "" p1.*1), (foldr String.append "" p2.*1).
    split; [done|]. rewrite str_app_assoc. apply (f_equal (String.append _)).
    generalize (line_of text +:+ foldr String.append "" p2.*1). intros r.
    induction (p1.*1) as [|x l IH]; cbn; [done|]. by rewrite IH, str_app_assoc.
  - right. rewrite Hf, fmap_app, concat_app. cbn. destruct fs; [done|]. intros Hn%app_nil. destruct Hn as [_ Hn%app_nil]. by destruct Hn.
Qed.

(** C21: Nothing is lost silently: whatever fails, the file is what was found
    there and then, in the order of the calls, the line of each entry whole,
    or the front of it and a failure noted; closing the log in between
    changes nothing of that. *)
Theorem audit_file_holds_every_entry path w calls :
  let s0 := NewAuditLog dir path w in
  let s := foldl run_call s0 calls in
  ∃ parts : list (string * list audit_failure),
    Forall2 (λ c p, wrote c p.1 p.2) calls parts
    ∧ own_text s = text_of (al_path (ru_log s0)) w +:+ foldr String.append "" parts.*1
    ∧ ru_failed s = ru_failed s0 ++ concat parts.*2.
Proof. exact (audit_file_parts path w calls). Qed.

(** After a failure the file is opened anew by the next call, and an entry
    recorded while it can be opened and written is written whole. *)
Lemma log_recovers now e s text :
  let p := al_path (ru_log s) in
  log_ok s → marshal (stamped now e) = inl text → (∀ h w, path_of h = p → (os_Write h (line_of text) w).1 = None) →
  (al_file (ru_log s) = None → ∃ h, (os_OpenAppend p (ru_fs s)).1 = inl h) →
  own_text (Record_ marshal now e s).2 = own_text s +:+ line_of text ∧ ru_failed (Record_ marshal now e s).2 = ru_failed s.
Proof.
  cbv zeta. intros Hs Hm Hw Ho. unfold Record_, st_bind. destruct (opened_appends s Hs) as (fs & Ha & Hf & Hok & _).
  assert ((opened s).1 ≠ None) as Hopen.
  { unfold opened, st_bind, st_get. destruct (al_file (ru_log s)) as [h|]; [done|]. destruct Ho as [h Ho]; [done|].
    unfold on_fs. cbn. by rewrite Ho. }
  destruct (opened s) as [[h|] s1]; cbn in Ha, Hf, Hok, Hopen; [|done]. rewrite (Hok Hopen) in Ha.
  destruct Ha as (Hs1 & Hp & Ht & Hn).
  destruct (Encode_appends h (stamped now e) s1 Hs1 Hf) as (part & (_ & _ & Hb & Hn2) & He). rewrite Hm in He.
  destruct He as (rest & Hl & Hr).
  assert ((Encode marshal h (stamped now e) s1).1 = None) as Hnone.
  { unfold Encode. rewrite Hm. unfold on_fs. cbn. apply Hw. by rewrite <-Hp, <-(Hs1 _ Hf). }
  specialize (Hr Hnone). subst rest. rewrite str_app_nil_r in Hl. subst part.
  destruct (Encode marshal h (stamped now e) s1) as [r s2]. cbn in *. subst r. cbn.
  rewrite Hb, Ht, Hn2, Hn, str_app_nil_r, !app_nil_r. done.
Qed.
Lemma failed_call_closes now e s : ru_failed (Record_ marshal now e s).2 ≠ ru_failed s → log_ok s →
  al_file (ru_log (Record_ marshal now e s).2) = None.
Proof.
  intros Hn Hs. unfold Record_, st_bind in *. destruct (opened_appends s Hs) as (fs & Ha & Hf & Hok & _).
  destruct (opened s) as [[h|] s1]; cbn in Ha, Hf, Hok, Hn |- *; [|done]. rewrite (Hok ltac:(done)) in Ha.
  destruct Ha as (Hs1 & _ & _ & Hn1). destruct (Encode_appends h (stamped now e) s1 Hs1 Hf) as (part & Hb & _).
  destruct (Encode marshal h (stamped now e) s1) as [[err|] s2]; cbn in *.
  - change (al_file (ru_log (closeLocked (mkRun (ru_log s2) (ru_fs s2) (ru_failed s2 ++ [WriteFailed err]))).2) = None).
    edestruct closeLocked_appends as (? & _ & Hc); [|exact Hc]. exact (proj1 Hb).
  - destruct Hb as (_ & _ & _ & Hn2). by rewrite Hn2, Hn1, !app_nil_r in Hn.
Qed.
End theorems.

(** ** A disk to run it on *)
Module Demo.
(** One directory, whether it exists, whether it can be written, the log's
    text, and the room left. *)
Record disk := mkDisk { dk_dir : bool; dk_readonly : bool; dk_text : string; dk_room : nat }.
#[export] Instance disk_files : AuditFiles disk string := {
  os_MkdirAll _ d := if dk_readonly d then (Some "read-only file system", d)
                     else (None, mkDisk true false (dk_text d) (dk_room d));
  os_OpenAppend p d := (if dk_dir d then inl p else inr "no such file or directory", d);
  os_Write _ s d :=
    let n := Nat.min (dk_room d) (String.length s) in
    (if (dk_room d <? String.length s)%nat then Some "no space left on device" else None,
     mkDisk (dk_dir d) (dk_readonly d) (dk_text d +:+ str_take n s) (dk_room d - n)%nat);
  os_Close _ d := (None, d)
}.
Lemma take_drop n s : str_take n s +:+ str_drop n s = s.
Proof.
  unfold str_take, str_drop. revert n. induction s as [|c s IH]; intros [|n]; [done..| |].
  - cbn [String.substring]. rewrite str_app_nil_l, Nat.sub_0_r. exact (str_substring_all (String c s)).
  - cbn [String.substring String.length Nat.sub]. by rewrite str_app_cons, IH.
Qed.
Lemma drop_all n s : (String.length s ≤ n)%nat → str_drop n s = "".
Proof.
  unfold str_drop. revert n. induction s as [|c s IH]; intros [|n] Hn; cbn in *; [done..|lia|]. apply IH. lia.
Qed.
#[export] Instance disk_laws : AuditFilesLaws disk string.
Proof.
  refine {| text_of _ d := dk_text d; path_of p := p |}; try done.
  - intros d p w. cbn. by destruct (dk_readonly w).
  - intros p w h. cbn. by destruct (dk_dir w); intros [= ->].
  - intros h s w. set (n := Nat.min (dk_room w) (String.length s)). exists (str_take n s), (str_drop n s).
    split_and!; [apply take_drop|done|]. cbn [os_Write disk_files fst].
    destruct (dk_room w <? String.length s)%nat eqn:E; [done|]. intros _. apply drop_all.
    apply Nat.ltb_ge in E. unfold n. lia.
Defined.
Definition act (name : string) : AuditEntry := mkAudit name "shop" "web" "" "" "success" "" "fix".
Definition text (e : Entry) : string + string := inl ("{" +:+ en_Action e +:+ "}").
Definition room (n : nat) (s : run disk string) : run disk string :=
  mkRun (ru_log s) (mkDisk true false (dk_text (ru_fs s)) n) (ru_failed s).
Definition then_writable (s : run disk string) : run disk string :=
  mkRun (ru_log s) (mkDisk (dk_dir (ru_fs s)) false (dk_text (ru_fs s)) 100) (ru_failed s).
Definition record (a : string) (s : run disk string) : run disk string := (RecordAction text 5 (act a) s).2.
Definition start (d : disk) : run disk string := NewAuditLog (λ _, "/var/log/auto-agent") "" d.
End Demo.
Import Demo.

(** A directory that cannot be made at the start is never made: the log
    opens its file again on every entry, but the directory is asked for only
    once, so every entry is lost when the volume can be written a moment
    later. *)
Example missing_directory_is_never_made :
  let s := record "restart" (record "scale" (then_writable (start (mkDisk false true "" 100)))) in
  dk_text (ru_fs s) = "" ∧ length (ru_failed s) = 3%nat
  ∧ dk_text (ru_fs (record "scale" (start (ru_fs s)))) = "{scale}" +:+ nl.
Proof. vm_compute. done. Qed.
(** A line cut short by a full disk is not ended: the next entry is written
    behind it, and a reader that takes a line for an entry loses both. *)
Example torn_line_takes_the_next :
  dk_text (ru_fs (record "scale" (room 100 (record "restart" (room 4 (start (mkDisk true false "" 100)))))))
  = "{res{scale}" +:+ nl.
Proof. vm_compute. done. Qed.
Lemma audit_log_run :
  let s := record "restart" (Close (record "scale" (start (mkDisk false false "" 100)))).2 in
  dk_text (ru_fs s) = "{scale}" +:+ nl +:+ "{restart}" +:+ nl ∧ ru_failed s = [].
Proof. vm_compute. done. Qed.
