(* ===== verification/Kube.v ===== *)
(** * Kube: the Kubernetes objects the agent reads, and what it derives

    The fields of Pods and Deployments the modelled code looks at, the
    helpers of [internal/kube/helpers.go] and [namespaces.go].  The objects
    are Kubernetes' types; reading them from the API server is a parameter
    where it is used.  Kinds and class names are ASCII, so [strings.ToLower]
    on them is [lower_ascii]. *)
From S2P Require Import Prelude GoStd Policy.
From Stdlib Require Import Ascii.
#[local] Open Scope Z_scope.

(** ** Objects *)
Record OwnerReference := mkOwner { ow_Kind : string; ow_Name : string; ow_Controller : option bool }.
Record Probe := mkProbe {
  pr_InitialDelay : Z; pr_Period : Z; pr_Timeout : Z; pr_FailureThreshold : Z
}.
(** The memory limit is the quantity as it prints. *)
Record Container := mkContainer {
  ct_Name : string; ct_Image : string; ct_MemoryLimit : option string;
  ct_Liveness : option Probe; ct_Readiness : option Probe; ct_Startup : option Probe
}.
Record Waiting := mkWaiting { w_Reason : string; w_Message : string }.
#[export] Instance Waiting_eq_dec : EqDecision Waiting.
Proof. solve_decision. Defined.
(** [State.Waiting]; when [State.Running] started; the reason of
    [LastTerminationState.Terminated]. *)
Record ContainerStatus := mkStatus {
  cs_Name : string; cs_Ready : bool; cs_RestartCount : Z;
  cs_Waiting : option Waiting; cs_Running : option Time; cs_LastTerminated : option string
}.
Record PodCondition := mkPodCondition {
  pc_Type : string; pc_Status : string; pc_Reason : string; pc_Message : string;
  pc_Transition : Time
}.
Record Pod := mkPod {
  p_Namespace : string; p_Name : string; p_UID : string; p_Labels : gmap string string;
  p_Annotations : gmap string string; p_Owners : list OwnerReference;
  p_Creation : Time; p_Deletion : option Time; p_Finalizers : list string;
  (* spec *)
  p_NodeName : string; p_PriorityClassName : string; p_Priority : option Z;
  p_ActiveDeadline : option Z; p_PullSecrets : list string; p_ReadinessGates : list string;
  p_Containers : list Container;
  (* status *)
  p_Phase : string; p_Reason : string; p_Message : string;
  p_Conditions : list PodCondition; p_InitStatuses : list ContainerStatus;
  p_Statuses : list ContainerStatus
}.
(** A map the API server sent no entry of is nil. *)
Definition nil_if_empty (m : gmap string string) : option (gmap string string) :=
  if decide (m = ∅) then None else Some m.
Definition pod_labels (p : Pod) : option (gmap string string) := nil_if_empty (p_Labels p).

(** An event of the cluster, with the object it is about. *)
Record KEvent := mkKEvent {
  ke_UID : string; ke_Kind : string; ke_Name : string; ke_FieldPath : string;
  ke_Type : string; ke_Reason : string; ke_Message : string;
  ke_Count : Z; ke_Series : option (Z * Time); (* count, last observed *)
  ke_LastTimestamp : Time; ke_EventTime : Time; ke_Creation : Time
}.

Record DeployCondition := mkDeployCondition {
  dc_Type : string; dc_Status : string; dc_Reason : string; dc_Message : string;
  dc_LastUpdate : Time
}.
Record Deployment := mkDeployment {
  d_Namespace : string; d_Name : string; d_Annotations : gmap string string;
  d_Creation : Time; d_Generation : Z;
  d_Replicas : option Z; (* spec *)
  d_TemplateLabels : option (gmap string string); d_Containers : list Container;
  d_ObservedGeneration : Z; d_UpdatedReplicas : Z; d_ReadyReplicas : Z;
  d_AvailableReplicas : Z; d_UnavailableReplicas : Z; d_Conditions : list DeployCondition
}.
(** An unset [spec.replicas] is 1. *)
Definition replicas_of (d : Deployment) : Z := default 1 (d_Replicas d).

(** ** helpers.go *)
Definition is_controller (o : OwnerReference) : bool :=
  bool_decide (ow_Controller o = Some true).

(** The Deployment a ReplicaSet belongs to: its name less the hash the pod's
    label tells. *)
Definition rs_deployment (rs : string) (labels : gmap string string) : option string :=
  let hash := default "" (labels !! "pod-template-hash") in
  if negb (str_eqb hash "") && strings_HasSuffix rs ("-" +:+ hash)
  then Some (strings_TrimSuffix rs ("-" +:+ hash)) else None.

Definition ownerName (p : Pod) : string :=
  match filter (λ o, is_controller o = true) (p_Owners p) with
  | [] => "pod/" +:+ p_Name p
  | o :: _ =>
    let own := str_map lower_ascii (ow_Kind o) +:+ "/" +:+ ow_Name o in
    if str_eqb (ow_Kind o) "ReplicaSet" then
      match rs_deployment (ow_Name o) (p_Labels p) with
      | Some d => "deployment/" +:+ d
      | None => own
      end
    else own
  end.

Definition imageOf (p : Pod) (cname : string) : string :=
  match filter (λ c, ct_Name c = cname) (p_Containers p) with
  | c :: _ => ct_Image c
  | [] => ""
  end.
Definition hasAnnotation (p : Pod) (key : string) : bool :=
  if str_eqb key "" then false else bool_decide (is_Some (p_Annotations p !! key)).
Definition isCriticalPod (p : Pod) : bool :=
  let pc := p_PriorityClassName p in
  strings_HasPrefix pc "system-" || strings_Contains (str_map lower_ascii pc) "critical"
  || str_eqb (p_Namespace p) "kube-system".
Definition isStatefulSetPod (p : Pod) : bool :=
  existsb (λ o, str_eqb (ow_Kind o) "StatefulSet") (p_Owners p).

(** ** namespaces.go: [listed] is the API server's answer, [None] an
    error. *)
Definition watchedNamespaces (pol : Policy) (listed : option (list string)) : list string :=
  let '(names, all) := WatchList pol in
  if negb all then names
  else match listed with
       | None => []
       | Some l => sort_strings (filter (λ ns, Watched pol ns = true) l)
       end.

Lemma elem_of_watchedNamespaces pol listed ns :
  ns ∈ watchedNamespaces pol listed → ns = "" ∨ Watched pol ns = true.
Proof.
  unfold watchedNamespaces, WatchList, Watched. destruct (str_eqb ns "") eqn:E.
  { apply str_eqb_eq in E. auto. }
  intros H. right. destruct (WatchAll pol); cbn [negb] in H.
  - destruct listed; [|by apply elem_of_nil in H].
    rewrite elem_of_sort_strings, list_elem_of_filter in H. destruct H as [H _]. by rewrite E in H.
  - by autorewrite with agent in *.
Qed.
