(* ===== verification/K8s.v ===== *)
(** * K8s: what the agent relies on of the Kubernetes API

    The API server is not code of the repository: its ConfigMap operations
    are a parameter.  [ConfigMapLaws] states the documented behaviour the
    agent's own settings rest on: a resourceVersion is never given twice, a
    merge patch touches the keys it names, a patch that carries a
    resourceVersion succeeds only when the object still has it, a create only
    when there is none.  Any call may fail; one that fails with another error
    (a timeout) may have been carried out.  [SimpleAPI] is a server that obeys
    the laws, for evaluation.  A resource quantity is what the agent reads of
    it. *)
From S2P Require Import Prelude GoStd.

(** A quantity: [AsApproximateFloat64] and [String]. *)
Record Quantity := mkQuantity { q_float : float64; q_text : string }.

Inductive api_error :=
| ApiNotFound | ApiConflict | ApiAlreadyExists | ApiOther (msg : string).
#[export] Instance api_error_eq_dec : EqDecision api_error.
Proof. solve_decision. Defined.

Abbreviation cm_data := (gmap string string) (only parsing).
Abbreviation cm_changes := (gmap string (option string)) (only parsing).

(** The effect of a JSON merge patch on the data: a value sets its key, a
    null deletes it. *)
Definition merge_data (ch : cm_changes) (d : cm_data) : cm_data :=
  omap id ch ∪ filter (λ kv, ch !! kv.1 = None) d.

Class ConfigMapAPI (W : Type) := {
  cm_Get : string → string → st W ((string * cm_data) + api_error);
  cm_Create : string → string → cm_data → st W (option api_error);
  (** [Patch] with the resourceVersion precondition, if any. *)
  cm_Patch : string → string → option string → cm_changes → st W (option api_error);
  api_Error : api_error → string
}.

(** What is stored, and the resourceVersions given so far. *)
Class ConfigMapView (W : Type) := {
  cm_view : W → string → string → option (string * cm_data);
  cm_used : W → gset string
}.

Section laws.
Context {W : Type} `{!ConfigMapAPI W, !ConfigMapView W}.

(** How the store may change under the agent's feet: versions accumulate,
    and an object that shows a version it was seen to have before is
    unchanged. *)
Record later (w w' : W) : Prop := {
  later_used : cm_used w ⊆ cm_used w';
  later_same : ∀ ns n rv d, cm_view w' ns n = Some (rv, d) → rv ∈ cm_used w →
    cm_view w ns n = Some (rv, d)
}.
Definition others_same (ns n : string) (w w' : W) : Prop :=
  ∀ ns' n', (ns', n') ≠ (ns, n) → cm_view w' ns' n' = cm_view w ns' n'.

Definition created (ns n : string) (d : cm_data) (w w' : W) : Prop :=
  cm_view w ns n = None
  ∧ (∃ rv, rv ≠ "" ∧ (rv ∉ cm_used w) ∧ cm_view w' ns n = Some (rv, d)).
Definition patched (ns n : string) (rv : option string) (ch : cm_changes) (w w' : W) : Prop :=
  ∃ rv0 d, cm_view w ns n = Some (rv0, d) ∧ (rv = None ∨ rv = Some rv0)
  ∧ (∃ rv', rv' ≠ "" ∧ (rv' ∉ cm_used w) ∧ cm_view w' ns n = Some (rv', merge_data ch d)).
Definition untouched (ns n : string) (w w' : W) : Prop := cm_view w' ns n = cm_view w ns n.

Class ConfigMapLaws : Prop := {
  view_used w ns n rv d : cm_view w ns n = Some (rv, d) → rv ∈ cm_used w ∧ rv ≠ "";
  get_pure ns n w : (cm_Get ns n w).2 = w;
  get_ok ns n w r : (cm_Get ns n w).1 = inl r → cm_view w ns n = Some r;
  get_missing ns n w : (cm_Get ns n w).1 = inr ApiNotFound → cm_view w ns n = None;
  create_later ns n d w : later w (cm_Create ns n d w).2 ∧ others_same ns n w (cm_Create ns n d w).2;
  create_law ns n d w :
    match (cm_Create ns n d w).1 with
    | None => created ns n d w (cm_Create ns n d w).2
    | Some (ApiOther _) => untouched ns n w (cm_Create ns n d w).2
                           ∨ created ns n d w (cm_Create ns n d w).2
    | Some _ => untouched ns n w (cm_Create ns n d w).2
    end;
  patch_later ns n rv ch w :
    later w (cm_Patch ns n rv ch w).2 ∧ others_same ns n w (cm_Patch ns n rv ch w).2;
  patch_law ns n rv ch w :
    match (cm_Patch ns n rv ch w).1 with
    | None => patched ns n rv ch w (cm_Patch ns n rv ch w).2
    | Some (ApiOther _) => untouched ns n w (cm_Patch ns n rv ch w).2
                           ∨ patched ns n rv ch w (cm_Patch ns n rv ch w).2
    | Some ApiNotFound => cm_view w ns n = None ∧ untouched ns n w (cm_Patch ns n rv ch w).2
    | Some _ => untouched ns n w (cm_Patch ns n rv ch w).2
    end
}.

#[export] Instance later_preorder : PreOrder later.
Proof.
  split; [by split|]. intros w1 w2 w3 [H1 H2] [H3 H4]. split; [by etrans|].
  intros. apply H2; [|done]. apply H4; [done|]. by apply H1.
Qed.
End laws.
Arguments ConfigMapLaws _ {_ _}.

Lemma lookup_merge_data ch d k :
  merge_data ch d !! k = match ch !! k with Some v => v | None => d !! k end.
Proof.
  unfold merge_data. rewrite lookup_union, lookup_omap, map_lookup_filter.
  destruct (ch !! k) as [[v|]|] eqn:E, (d !! k) eqn:E'; simpl; rewrite ?E; simpl; try done.
  all: by rewrite ?option_guard_True, ?option_guard_False.
Qed.

(** ** A server that obeys the laws *)
Module SimpleAPI.
(** The objects, each with the number of its version, and a number past
    those of deleted ones. *)
Definition World : Type := gmap (string * string) (nat * cm_data) * nat.
Definition version (n : nat) : string := "v" +:+ pretty n.
Definition next (w : World) : nat := 
  max_list (w.2 :: ((λ x, S x.2.1) <$> map_to_list w.1)).
Definition put (k : string * string) (d : cm_data) (w : World) : World :=
  (<[k := (next w, d)]> w.1, S (next w)).

Definition get (ns n : string) : st World ((string * cm_data) + api_error) := λ w,
  (match w.1 !! (ns, n) with Some (v, d) => inl (version v, d) | None => inr ApiNotFound end, w).
Definition create (ns n : string) (d : cm_data) : st World (option api_error) := λ w,
  match w.1 !! (ns, n) with
  | Some _ => (Some ApiAlreadyExists, w)
  | None => (None, put (ns, n) d w)
  end.
Definition patch (ns n : string) (rv : option string) (ch : cm_changes)
  : st World (option api_error) := λ w,
  match w.1 !! (ns, n) with
  | None => (Some ApiNotFound, w)
  | Some (v, d) =>
    if bool_decide (rv = None ∨ rv = Some (version v))
    then (None, put (ns, n) (merge_data ch d) w)
    else (Some ApiConflict, w)
  end.
#[export] Instance api : ConfigMapAPI World :=
  Build_ConfigMapAPI World get create patch
    (λ e, match e with ApiNotFound => "not found" | ApiConflict => "conflict"
                       | ApiAlreadyExists => "already exists" | ApiOther m => m end).
#[export] Instance view : ConfigMapView World := {|
  cm_view w ns n := prod_map version id <$> w.1 !! (ns, n);
  cm_used w := list_to_set (version <$> seq 0 (next w))
|}.

Lemma version_inj m n : version m = version n → m = n.
Proof. unfold version. intros H. simplify_eq/=. by apply (inj pretty). Qed.
Lemma elem_of_used w m : version m ∈ cm_used w ↔ m < next w.
Proof.
  simpl. rewrite elem_of_list_to_set, list_elem_of_fmap. split.
  - intros (k & ->%version_inj & Hk%elem_of_seq). lia.
  - intros. exists m. split; [done|]. apply elem_of_seq. lia.
Qed.
Lemma next_stored w k v d : w.1 !! k = Some (v, d) → v < next w.
Proof.
  intros H%elem_of_map_to_list. unfold next. apply max_list_elem_of_le.
  right. apply list_elem_of_fmap. by exists (k, (v, d)).
Qed.
Lemma next_put k d w : next w < next (put k d w).
Proof. unfold put at 1. apply Nat.lt_le_trans with (S (next w)); [lia|].
  unfold next at 2. apply max_list_elem_of_le. left. Qed.
Lemma put_view k d w ns n :
  cm_view (put k d w) ns n
  = if decide (k = (ns, n)) then Some (version (next w), d) else cm_view w ns n.
Proof. simpl. case_decide; subst; by simplify_map_eq. Qed.
Lemma put_later k d w : later w (put k d w).
Proof.
  split.
  - intros x (m & -> & Hm%elem_of_seq)%elem_of_list_to_set%list_elem_of_fmap.
    apply elem_of_used. pose proof (next_put k d w). lia.
  - intros ns n rv d'. rewrite put_view. case_decide; [|done].
    intros [= <- <-] Hin%elem_of_used. lia.
Qed.
Lemma put_others k d w : others_same k.1 k.2 w (put k d w).
Proof. intros ns n Hne. rewrite put_view. rewrite decide_False; [done|]. by destruct k. Qed.
Lemma put_fresh w : version (next w) ≠ "" ∧ version (next w) ∉ cm_used w.
Proof. split; [done|]. rewrite elem_of_used. lia. Qed.

#[export] Instance laws : ConfigMapLaws World.
Proof.
  split; unfold cm_Get, cm_Create, cm_Patch, api.
  - intros w ns n rv d. simpl. destruct (w.1 !! _) as [[v d']|] eqn:E; [|done].
    intros [= <- <-]. split; [|done]. apply elem_of_used. by eapply next_stored.
  - done.
  - intros ns n w r. simpl. by destruct (w.1 !! _) as [[]|]; intros [= <-].
  - intros ns n w. simpl. by destruct (w.1 !! _) as [[]|].
  - intros ns n d w. unfold create. destruct (w.1 !! _); simpl; [done|].
    split; [apply put_later|apply (put_others (ns, n))].
  - intros ns n d w. unfold create. destruct (w.1 !! _) eqn:E; [done|].
    split; [simpl; by rewrite E|]. exists (version (next w)).
    destruct (put_fresh w). cbn [fst snd]. by rewrite put_view, decide_True.
  - intros ns n rv ch w. unfold patch. destruct (w.1 !! _) as [[v d]|] eqn:E; simpl; [|done].
    case_bool_decide; simpl; [|done]. split; [apply put_later|apply (put_others (ns, n))].
  - intros ns n rv ch w. unfold patch. destruct (w.1 !! _) as [[v d]|] eqn:E; [|by simpl; rewrite E].
    case_bool_decide as Hrv; [|done]. exists (version v), d. split; [simpl; by rewrite E|].
    split; [done|]. exists (version (next w)).
    destruct (put_fresh w). cbn [fst snd]. by rewrite put_view, decide_True.
Qed.
End SimpleAPI.
