(* ===== verification/ScopeSettings.v ===== *)
(** * ScopeSettings: the dashboard's fix scope

    [internal/kube/scope_settings.go] ([SaveFixScope], the gate's second
    entry point, which writes only the agent's own ConfigMap) and the handlers
    of [internal/httpapi/scope.go].  The state pairs the gate's with the API
    server's. *)
From S2P Require Import Prelude GoStd Policy RateLimit Guards Events Escalation Gate K8s.
From Stdlib Require Import Ascii.
#[local] Open Scope Z_scope.
#[local] Open Scope agent_scope.

Definition ApprovalsConfigMap : string := "auto-agent-approvals".
Definition agentSettings : list string := [ScopeConfigMap; ApprovalsConfigMap].

Inductive setting_error :=
| ErrOutsideCeiling (ns : string)
| ErrNotAgentSetting (name : string)
| ErrApi (e : api_error).

Section settings.
Context {C W : Type} `{!ConfigMapAPI W} (env : Env).

Definition error_text (e : setting_error) : string :=
  match e with
  | ErrOutsideCeiling n => n +:+ ": outside the fix ceiling"
  | ErrNotAgentSetting n => n +:+ ": not one of the agent's own ConfigMaps"
  | ErrApi e => api_Error e
  end.

(** [writeAgentSetting]. *)
Definition writeAgentSetting {S} (name : string) (write : st S (option api_error))
  : st S (option setting_error) :=
  if bool_decide (name ∉ agentSettings) then return! Some (ErrNotAgentSetting name)
  else let! err := write in return! (ErrApi <$> err).

(** [writeScopeConfigMap]: the patch sets the one key, or deletes it when
    there is no choice. *)
Definition writeScopeConfigMap (ns : string) (names : option (list string))
  : st W (option setting_error) :=
  let value := (λ l, strings_Join l ",") <$> names in
  writeAgentSetting ScopeConfigMap (
    let! err := cm_Patch ns ScopeConfigMap None {[ ScopeKey := value ]} in
    if negb (bool_decide (err = Some ApiNotFound)) then return! err
    else match names with
         | None => return! None
         | Some l => cm_Create ns ScopeConfigMap {[ ScopeKey := strings_Join l "," ]}
         end).

Definition auditScope (ns result detail : string) : st (GState C * W) unit :=
  st_left (auditAction env "set_fix_scope" ns ScopeConfigMap "" "FixScopeChanged" result detail).

Definition SaveFixScope (ns : string) (names : option (list string)) (from : string)
  : st (GState C * W) (option setting_error) :=
  let pol := env_Policy env in
  let after := match names with
               | Some l => "[" +:+ strings_Join l "," +:+ "]"
               | None => "Helm default ("
                         +:+ strings_Join (FixScope (WithFixOverride pol None)) "," +:+ ")"
               end in
  let detail := "fix scope [" +:+ strings_Join (FixScope pol) "," +:+ "] -> " +:+ after
                +:+ ", from " +:+ from in
  match list_find (λ n, InCeiling pol n = false) (default [] names) with
  | Some (_, n) =>
    let err := ErrOutsideCeiling n in
    auditScope ns "blocked" (detail +:+ ": " +:+ error_text err) ;;;
    return! Some err
  | None =>
    let! err := st_right (writeScopeConfigMap ns names) in
    match err with
    | Some e =>
      auditScope ns "failed" (detail +:+ ": " +:+ error_text e) ;;;
      return! Some e
    | None => auditScope ns "success" detail ;;; return! None
    end
  end.

(** ** The handlers *)

Record scopeRequest := mkScopeRequest {
  sq_FixNamespaces : option (list string); sq_Confirm : list string
}.
Record response := mkResponse { rs_Status : Z; rs_Body : string }.
Definition http_Error (status : Z) (msg : string) : response := mkResponse status (msg +:+ nl).

Definition unconfirmed (pol : Policy) (names confirm : list string) : list string :=
  filter (λ n, negb (bool_decide (n ∈ NamespaceSet confirm)) && negb (Fixable pol n) = true) names.

Definition saveScope (ns : string) (names : option (list string)) (from : string)
  : st (GState C * W) response :=
  let! err := SaveFixScope ns names from in
  return! match err with
  | None => mkResponse 204 ""
  | Some (ErrOutsideCeiling n as e) =>
    http_Error 400 (error_text e +:+ ": change agent.fixCeiling in Helm to allow it")
  | Some e => http_Error 502 ("saving the fix scope failed: " +:+ error_text e)
  end.
(** [putScope]; the body is [None] when it does not decode. *)
Definition putScope (ns : string) (body : option scopeRequest) (from : string)
  : st (GState C * W) response :=
  match body with
  | Some (mkScopeRequest (Some fixNs) confirm) =>
    let names := ScopeChoice {[ ScopeKey := strings_Join fixNs "," ]} in
    match unconfirmed (env_Policy env) (default [] names) confirm with
    | [] => saveScope ns names from
    | missing =>
      return! http_Error 400 ("type each namespace you enable to confirm it: "
                              +:+ strings_Join missing ", ")
    end
  | _ => return! http_Error 400 ("body must be {" +:+ dq +:+ "fixNamespaces" +:+ dq +:+ ": [...], "
                             +:+ dq +:+ "confirm" +:+ dq +:+ ": [...]}")
  end.

Record scopeNamespace := mkScopeNs { sn_Name : string; sn_InCeiling : bool; sn_Fixable : bool }.
Record scopeView := mkScopeView {
  sv_WatchAll : bool; sv_FixAnywhere : bool; sv_FixScope : list string; sv_HelmFix : list string;
  sv_Choice : option (list string); sv_Namespaces : list scopeNamespace
}.
(** [getScope]; [listed] answers the list of the cluster's namespaces,
    which is asked only when everything is watched. *)
Definition getScope (listed : list string + string) : scopeView + response :=
  let pol := env_Policy env in
  let view names := mkScopeView (WatchAll pol) (FixAnywhere pol) (FixScope pol)
    (FixScope (WithFixOverride pol None)) ((λ _, FixScope pol) <$> FixOverride pol)
    ((λ n, mkScopeNs n (InCeiling pol n) (Fixable pol n))
       <$> filter (λ n, Watched pol n = true) names) in
  let '(names, all) := WatchList pol in
  if all then
    match listed with
    | inl l => inl (view (sort_strings (names ++ l)))
    | inr err => inr (http_Error 502 ("cannot list namespaces: " +:+ err))
    end
  else inl (view names).
End settings.

(** ** The choice survives the ConfigMap *)

(** Names as [ScopeChoice] gives them. *)
Definition canonical_names (l : list string) : Prop :=
  StronglySorted String.le l ∧ NoDup l
  ∧ Forall (λ n, n ≠ "" ∧ strings_TrimSpace n = n ∧ no_byte ","%char n) l.

Lemma nsSet_sorted_canonical v : canonical_names (nsSet_sorted (parseNamespaceList v)).
Proof.
  unfold canonical_names, nsSet_sorted. split_and!.
  - apply sort_strings_sorted.
  - rewrite sort_strings_perm. apply NoDup_elements.
  - apply Forall_forall. intros n. rewrite elem_of_sort_strings, elem_of_elements.
    intros (Hne & w & Hw & <-)%elem_of_NamespaceSet. split; [done|].
    split; [apply strings_TrimSpace_idemp|]. apply strings_TrimSpace_no_byte.
    by eapply strings_Split_no_byte.
Qed.

Lemma NamespaceSet_canonical l : canonical_names l → NamespaceSet l = list_to_set l.
Proof.
  intros (_ & _ & Hl). apply set_eq. intros n. rewrite elem_of_NamespaceSet, elem_of_list_to_set.
  rewrite Forall_forall in Hl. split.
  - intros (_ & m & Hm & <-). by rewrite (proj1 (proj2 (Hl _ Hm))).
  - intros Hn. split; [apply Hl, Hn|]. exists n. split; [done|]. apply (Hl _ Hn).
Qed.

Lemma parse_Join_canonical l : canonical_names l → parseNamespaceList (strings_Join l ",") = list_to_set l.
Proof.
  intros Hl. unfold parseNamespaceList. destruct l as [|x l]; [by vm_compute|].
  rewrite strings_Split_Join by done. rewrite <-NamespaceSet_canonical by done. f_equal.
  destruct Hl as (_ & _ & Hl). generalize dependent (x :: l). intros k Hk.
  induction Hk as [|n k [_ [_ Hn]] _ IH]; [done|]. unfold no_byte in Hn.
  rewrite fmap_cons. change (mjoin (?a :: ?b)) with (a ++ mjoin b). by rewrite Hn, IH.
Qed.

Lemma nsSet_sorted_list l : canonical_names l → nsSet_sorted (list_to_set l) = l.
Proof.
  intros (Hs & Hn & _). unfold nsSet_sorted. apply (StronglySorted_unique String.le).
  - apply sort_strings_sorted.
  - done.
  - rewrite sort_strings_perm. by apply elements_list_to_set.
Qed.

Lemma ScopeChoice_singleton v :
  ScopeChoice {[ ScopeKey := v ]} = Some (nsSet_sorted (parseNamespaceList v)).
Proof. unfold ScopeChoice. by rewrite lookup_singleton_eq. Qed.
(** What the handler stores is what a reloader reads back. *)
Lemma ScopeChoice_Join l data :
  canonical_names l → data !! ScopeKey = Some (strings_Join l ",") → ScopeChoice data = Some l.
Proof.
  intros Hl Hd. unfold ScopeChoice. rewrite Hd, parse_Join_canonical, nsSet_sorted_list by done. done.
Qed.

Section theorems.
Context {C W : Type} `{!ConfigMapAPI W, !ConfigMapView W, !ConfigMapLaws W} (env : Env).
Implicit Types (w : W) (gs : GState C).

(** The choice is what the store holds. *)
Definition choice_stored (ns : string) (names : option (list string)) (w : W) : Prop :=
  ∀ rv d, cm_view w ns ScopeConfigMap = Some (rv, d) →
    d !! ScopeKey = (λ l, strings_Join l ",") <$> names.
(** Nothing but the one key of the one ConfigMap changes. *)
Definition only_choice (ns : string) (w w' : W) : Prop :=
  others_same ns ScopeConfigMap w w'
  ∧ ∀ rv d, cm_view w ns ScopeConfigMap = Some (rv, d) →
    ∃ rv' d', cm_view w' ns ScopeConfigMap = Some (rv', d')
      ∧ ∀ k, k ≠ ScopeKey → d' !! k = d !! k.

Lemma only_choice_refl ns w : only_choice ns w w.
Proof. split; [done|]. intros rv d ?. by exists rv, d. Qed.

Definition choice_written ns names w (r : option setting_error * W) : Prop :=
  only_choice ns w r.2
  ∧ (r.1 = None → choice_stored ns names r.2
       ∧ (names ≠ None → cm_view r.2 ns ScopeConfigMap ≠ None))
  ∧ (∀ n, r.1 ≠ Some (ErrOutsideCeiling n)).
Lemma only_choice_untouched ns w w' :
  others_same ns ScopeConfigMap w w' → untouched ns ScopeConfigMap w w' → only_choice ns w w'.
Proof. intros Ho Hu. split; [done|]. intros rv d Hv. exists rv, d. by rewrite Hu. Qed.
Lemma patched_choice ns names w w' :
  others_same ns ScopeConfigMap w w' →
  patched ns ScopeConfigMap None {[ ScopeKey := (λ l, strings_Join l ",") <$> names ]} w w' →
  only_choice ns w w' ∧ choice_stored ns names w' ∧ cm_view w' ns ScopeConfigMap ≠ None.
Proof.
  intros Ho (rv0 & d & Hv & _ & rv' & _ & _ & Hv'). split_and!; [split; [done|]| |by rewrite Hv'].
  - intros rv d0. rewrite Hv, Hv'. intros [= <- <-]. eexists _, _. split; [done|].
    intros k Hk. rewrite lookup_merge_data. by rewrite lookup_singleton_ne.
  - intros rv d0. rewrite Hv'. intros [= <- <-]. rewrite lookup_merge_data.
    by rewrite lookup_singleton_eq.
Qed.
Lemma created_choice ns l w w1 w' :
  cm_view w ns ScopeConfigMap = None → others_same ns ScopeConfigMap w w1 →
  others_same ns ScopeConfigMap w1 w' →
  (created ns ScopeConfigMap {[ ScopeKey := strings_Join l "," ]} w1 w' →
     choice_stored ns (Some l) w' ∧ cm_view w' ns ScopeConfigMap ≠ None)
  ∧ only_choice ns w w'.
Proof.
  intros Hnone Ho1 Ho2. split.
  - intros (_ & rv & _ & _ & Hv). split; [|by rewrite Hv]. intros rv' d. rewrite Hv.
    intros [= <- <-]. by rewrite lookup_singleton_eq.
  - split; [|intros ??; by rewrite Hnone]. intros ns' n' Hn. rewrite Ho2 by done. by apply Ho1.
Qed.

Lemma writeScopeConfigMap_spec ns names w :
  choice_written ns names w (writeScopeConfigMap ns names w).
Proof.
  unfold writeScopeConfigMap, writeAgentSetting.
  rewrite bool_decide_false by (by vm_compute; set_solver).
  apply (bind_spec (λ r, only_choice ns w r.2 ∧ (r.1 = None → choice_stored ns names r.2
       ∧ (names ≠ None → cm_view r.2 ns ScopeConfigMap ≠ None)))).
  2:{ intros err w' [H1 H2]. unfold choice_written. destruct err; split_and!; auto; done. }
  set (ch := {[ ScopeKey := (λ l, strings_Join l ",") <$> names ]}).
  apply (bind_spec (λ r, others_same ns ScopeConfigMap w r.2 ∧ match r.1 with
    | None => patched ns ScopeConfigMap None ch w r.2
    | Some (ApiOther _) => untouched ns ScopeConfigMap w r.2 ∨ patched ns ScopeConfigMap None ch w r.2
    | Some ApiNotFound => cm_view w ns ScopeConfigMap = None ∧ untouched ns ScopeConfigMap w r.2
    | Some _ => untouched ns ScopeConfigMap w r.2
    end)).
  { split; [apply patch_later|apply patch_law]. }
  cbn [fst snd]. intros err w1 [Ho Hp].
  destruct (decide (err = Some ApiNotFound)) as [->|Hne].
  - rewrite bool_decide_true by done. cbn [negb]. destruct Hp as [Hnone Hu].
    destruct names as [l|]; cbn [fst snd st_ret].
    + pose proof (create_law ns ScopeConfigMap {[ ScopeKey := strings_Join l "," ]} w1) as Hc.
      destruct (created_choice ns l w w1 (cm_Create ns ScopeConfigMap
        {[ ScopeKey := strings_Join l "," ]} w1).2 Hnone Ho) as [H1 H2]; [apply create_later|].
      split; [done|]. intros Hr. rewrite Hr in Hc. destruct (H1 Hc). auto.
    + split; [by apply only_choice_untouched|]. intros _. split; [|done]. intros rv d. cbn.
      unfold untouched in Hu. by rewrite Hu, Hnone.
  - rewrite bool_decide_false by done. cbn.
    pose proof (patched_choice ns names w w1 Ho) as Hpc. fold ch in Hpc.
    pose proof (only_choice_untouched ns w w1 Ho) as Huc.
    destruct err as [[]|]; [done|split; [auto|done]..| |].
    + split; [|done]. destruct Hp as [?|Hp]; [auto|]. by destruct (Hpc Hp).
    + destruct (Hpc Hp) as (? & ? & ?). auto.
Qed.

Lemma auditScope_spec ns r d gs w :
  env_AuditLog env = true →
  (auditScope env ns r d (gs, w)).2.2 = w
  ∧ gs_cluster (auditScope env ns r d (gs, w)).2.1 = gs_cluster gs
  ∧ audits (gs_trace (auditScope env ns r d (gs, w)).2.1) = audits (gs_trace gs)
      ++ [mkAudit "set_fix_scope" ns ScopeConfigMap "" "FixScopeChanged" r d
            (Mode_ (env_Policy env))].
Proof.
  intros Hl. unfold auditScope, st_left, auditAction, recordEvent. rewrite Hl. cbn [fst].
  unfold when, emit, st_bind. destruct (env_Recorder env); simpl;
    by rewrite !audits_snoc, ?app_nil_r.
Qed.

Definition saved_result (r : option setting_error) : string :=
  match r with None => "success" | Some (ErrOutsideCeiling _) => "blocked" | Some _ => "failed" end.

Definition saved ns names gs w (r : option setting_error * (GState C * W)) : Prop :=
  gs_cluster r.2.1 = gs_cluster gs
  ∧ only_choice ns w r.2.2
  ∧ (Exists (λ n, InCeiling (env_Policy env) n = false) (default [] names) →
       r.2.2 = w ∧ ∃ n, r.1 = Some (ErrOutsideCeiling n))
  ∧ (r.1 = None → Forall (λ n, InCeiling (env_Policy env) n = true) (default [] names)
       ∧ choice_stored ns names r.2.2
       ∧ (names ≠ None → cm_view r.2.2 ns ScopeConfigMap ≠ None))
  ∧ ∃ detail, audits (gs_trace r.2.1) = audits (gs_trace gs)
      ++ [mkAudit "set_fix_scope" ns ScopeConfigMap "" "FixScopeChanged" (saved_result r.1) detail
            (Mode_ (env_Policy env))].

(** The gate's second entry point stays in its bounds: saving a fix
    scope never touches the cluster's workloads and changes at most one key
    of the agent's own ConfigMap; a choice that names a namespace outside
    the ceiling writes nothing at all; a save that succeeds has stored the
    choice, all of it inside the ceiling; and every attempt leaves exactly
    one audit entry that tells which it was. *)
Theorem SaveFixScope_confined ns names from gs w :
  env_AuditLog env = true → saved ns names gs w (SaveFixScope env ns names from (gs, w)).
Proof.
  intros Hl. unfold SaveFixScope. set (detail := _ +:+ strings_Join _ _ +:+ _).
  destruct (list_find _ _) as [[i n]|] eqn:Hf.
  - rewrite bind_tt. destruct (auditScope_spec ns "blocked"
      (detail +:+ ": " +:+ error_text (ErrOutsideCeiling n)) gs w Hl) as (H1 & H2 & H3).
    unfold saved. cbn [fst snd]. rewrite H1, H2, H3.
    split_and!; [done|apply only_choice_refl|by eauto|done|by eauto].
  - apply (bind_spec (λ r, r.2.1 = gs ∧ choice_written ns names w (r.1, r.2.2))).
    { unfold st_right. cbn [fst snd]. pose proof (writeScopeConfigMap_spec ns names w).
      by destruct (writeScopeConfigMap ns names w). }
    intros err [gs1 w1] [Hgs (Ho & Hs & Hk)]. cbn [fst snd] in *. subst gs1.
    assert (Forall (λ n, InCeiling (env_Policy env) n = true) (default [] names)) as Hall.
    { apply list_find_None in Hf. eapply Forall_impl; [exact Hf|]. intros n. simpl.
      by destruct (InCeiling _ n). }
    assert (¬ Exists (λ n, InCeiling (env_Policy env) n = false) (default [] names)) as Hno.
    { intros (n & Hn & Hc)%Exists_exists. rewrite Forall_forall in Hall. by rewrite Hall in Hc. }
    destruct err as [e|]; rewrite bind_tt; unfold saved; cbn [fst snd].
    + destruct (auditScope_spec ns "failed" (detail +:+ ": " +:+ error_text e) gs w1 Hl) as (-> & -> & ->).
      split_and!; [done|done|done|done|]. exists (detail +:+ ": " +:+ error_text e).
      destruct e; [by edestruct Hk|done|done].
    + destruct (auditScope_spec ns "success" detail gs w1 Hl) as (-> & -> & ->).
      split_and!; [done|done|done|auto|by eauto].
Qed.

(** C13: What a person confirms on the Settings tab is what the agent does:
    when a PUT answers 204, every namespace of the new scope is inside the
    ceiling and was fixable before or typed again to confirm it, and any
    reloader of the same policy that is told of the stored ConfigMap then
    fixes in exactly those namespaces. *)
Theorem putScope_takes_effect ns req from gs w :
  env_AuditLog env = true →
  rs_Status (putScope env ns (Some req) from (gs, w)).1 = 204 →
  ∃ l, ScopeChoice {[ ScopeKey := strings_Join (default [] (sq_FixNamespaces req)) "," ]} = Some l
  ∧ Forall (λ n, InCeiling (env_Policy env) n = true
      ∧ (Fixable (env_Policy env) n = true ∨ n ∈ NamespaceSet (sq_Confirm req))) l
  ∧ ∃ rv d, cm_view (putScope env ns (Some req) from (gs, w)).2.2 ns ScopeConfigMap = Some (rv, d)
    ∧ ∀ hr, hr_policy hr = env_Policy env → hr_scopeMap hr = ScopeConfigMap →
        hr_configMap hr ≠ ScopeConfigMap →
        FixScope (hr_policy (on_event hr (EvUpdate (mkConfigMap ScopeConfigMap d)))) = l.
Proof.
  intros Hl. unfold putScope. destruct req as [[fixNs|] confirm]; [|done]. cbn [sq_FixNamespaces sq_Confirm].
  change (default [] (Some fixNs)) with fixNs.
  rewrite ScopeChoice_singleton.
  pose proof (nsSet_sorted_canonical (strings_Join fixNs ",")) as Hcan.
  set (l := nsSet_sorted _) in *. clearbody l.
  change (default [] (Some l)) with l.
  destruct (unconfirmed _ l confirm) eqn:Hu; [|done].
  unfold saveScope. pose proof (SaveFixScope_confined ns (Some l) from gs w Hl) as Hs.
  unfold st_bind. destruct (SaveFixScope env ns (Some l) from (gs, w)) as [err [gs1 w1]].
  destruct Hs as (_ & _ & _ & Hok & _). cbn [fst snd st_ret] in *.
  destruct err as [e|]; [by destruct e|]. intros _. destruct (Hok eq_refl) as (Hin & Hst & Hsome).
  destruct (cm_view w1 ns ScopeConfigMap) as [[rv d]|] eqn:Hv; [|by destruct (Hsome ltac:(done))].
  exists l. split; [done|]. split.
  - apply Forall_forall. intros n Hn. change (default [] (Some l)) with l in Hin.
    rewrite Forall_forall in Hin. split; [auto|].
    assert (n ∉ unconfirmed (env_Policy env) l confirm) as Hnu by (rewrite Hu; set_solver).
    unfold unconfirmed in Hnu. rewrite list_elem_of_filter in Hnu.
    destruct (Fixable (env_Policy env) n); [auto|]. right.
    apply dec_stable. intros Hno. apply Hnu. split; [|done].
    by rewrite bool_decide_false.
  - exists rv, d. split; [done|]. intros hr Hp Hsm Hcm. pose proof (Hst _ _ Hv) as Hd.
    simpl. destruct (str_eqb ScopeConfigMap (hr_configMap hr)) eqn:E;
      [apply str_eqb_eq in E; by rewrite E in Hcm|].
    unfold applyScope. rewrite Hsm, str_eqb_refl. cbn [negb].
    rewrite orb_false_r. change (str_eqb ScopeConfigMap "") with false. cbv iota. cbn [cm_Data].
    rewrite (ScopeChoice_Join l d) by done. unfold setScope, hr_update. cbn [hr_policy].
    rewrite Hp. unfold FixScope, fixChoice. cbn [FixOverride WithFixOverride fmap option_fmap option_map].
    rewrite NamespaceSet_canonical, nsSet_sorted_list by done.
    clear -Hin. change (default [] (Some l)) with l in Hin.
    generalize (Some l). intros o. induction Hin as [|n k Hn _ IH]; [done|].
    rewrite filter_cons, decide_True by exact Hn. f_equal. exact IH.
Qed.
End theorems.

(** ** Witnesses *)
#[local] Existing Instances SimpleAPI.api SimpleAPI.view SimpleAPI.laws.
Module ScopeDemo.
Definition world : SimpleAPI.World := (∅, 0%nat).
Definition req : scopeRequest := mkScopeRequest (Some [" web"; "shop"]) ["web"].
Definition env : Env := GateDemo.env Fix.
Definition put := putScope env "auto-agent" (Some req) "test" (GateDemo.start, world).
Definition outside := SaveFixScope env "auto-agent" (Some ["shop"; "other"]) "test"
  (GateDemo.start, world).
End ScopeDemo.

Lemma SaveFixScope_confined_witness :
  ScopeDemo.outside.1 = Some (ErrOutsideCeiling "other")
  ∧ gs_cluster ScopeDemo.outside.2.1 = gs_cluster GateDemo.start.
Proof.
  split; [vm_compute; reflexivity|].
  exact (proj1 (SaveFixScope_confined ScopeDemo.env "auto-agent" (Some ["shop"; "other"]) "test"
    GateDemo.start ScopeDemo.world eq_refl)).
Defined.

Lemma putScope_takes_effect_witness :
  rs_Status ScopeDemo.put.1 = 204
  ∧ ∃ l, ScopeChoice {[ ScopeKey := " web,shop" ]} = Some l.
Proof.
  split; [vm_compute; reflexivity|].
  destruct (putScope_takes_effect ScopeDemo.env "auto-agent" ScopeDemo.req "test"
    GateDemo.start ScopeDemo.world eq_refl) as (l & Hl & _).
  - vm_compute. reflexivity.
  - exists l. exact Hl.
Defined.
