(* ===== verification/Fixes.v ===== *)
(** * Fixes: the R3 fixes of internal/kube/approval_fixes.go

    Each fix is data ([fixSpec], declared in Gate) that [buildFix] turns into
    the mutation the gate applies.  The calls a mutation makes on the
    Kubernetes API are data too; what a call does to the cluster is a
    parameter ([ClusterAPI]). *)
From S2P Require Import Prelude GoStd Policy RateLimit Guards Events Escalation Gate Kube.
From Stdlib Require Import Ascii.
#[local] Open Scope Z_scope.

(** ** The objects and the calls *)

Record CronJob {Spec : Type} := mkCronJob {
  cj_Namespace : string; cj_Name : string;
  cj_Annotations : gmap string string; (* of the job template *)
  cj_Labels : gmap string string;
  cj_Spec : Spec
}.
Arguments CronJob : clear implicits.
Record Job {Spec : Type} := mkJob {
  j_Name : string; j_Namespace : string; j_Labels : gmap string string;
  j_Annotations : gmap string string; j_Owner : string; j_Spec : Spec
}.
Arguments Job : clear implicits.

(** The writes; each patch sets the one field its name says. *)
Inductive kubeCall {Spec : Type} :=
| PatchHPAMaxReplicas (ns name : string) (to : Z)
| PatchDeploymentPaused (ns name : string) (paused : bool)
| PatchPVCStorage (ns claim size : string)
| DeletePod (ns name : string)
| CreateJob (ns : string) (job : Job Spec)
| PatchCPULimit (kind ns name container cpu : string).
Arguments kubeCall : clear implicits.

Class ClusterAPI (C Spec : Type) := {
  kube_call : kubeCall Spec → C → C * option string;
  get_cronjob : string → string → C → CronJob Spec + string
}.

Definition jobFromCronJob {Spec} (cj : CronJob Spec) (name : string) : Job Spec :=
  mkJob Spec name (cj_Namespace cj) (cj_Labels cj)
    (cj_Annotations cj ∪ {[ "cronjob.kubernetes.io/instantiate" := "manual" ]})
    (cj_Name cj) (cj_Spec cj).

(** [time.Time.Unix]: seconds since 1970. *)
Definition unix_epoch : Z := 62135596800.
Definition time_Unix (t : Time) : Z := t / second - unix_epoch.

(** [strings.TrimRight(s, "-.")]. *)
Fixpoint drop_dash_dot (s : string) : string :=
  match s with
  | String c s' => if bool_decide (c = "-"%char ∨ c = "."%char) then drop_dash_dot s' else s
  | EmptyString => s
  end.
Definition trimRight_dash_dot (s : string) : string := str_rev (drop_dash_dot (str_rev s)).

Definition manualJobName (cron : string) (now : Time) : string :=
  let cron := if Nat.ltb 45 (String.length cron) then trimRight_dash_dot (str_take 45 cron) else cron in
  cron +:+ "-manual-" +:+ itoa (time_Unix now).

(** ** The fixes *)

Inductive fix_error := errUnknownFix (action : string) | errUnknownKind (kind : string).

Section fixes.
Context {C Spec : Type} `{!ClusterAPI C Spec}.

Definition mkFix (ns workload reason : string) (s : fixSpec) (success suggest : string)
  (apply : C → C * option string) : mutation C :=
  mkMutation C ns workload "" None reason (fx_Action s) success suggest apply "" None false.

Definition hpaMaxFix (s : fixSpec) : mutation C :=
  let name := fx_Name s in let to := fx_To s in
  mkFix (fx_Namespace s) (fx_Target s) "HPAMaxedOut" s
    ("raised maxReplicas of autoscaler " +:+ name +:+ " to " +:+ itoa to)
    ("raise maxReplicas of autoscaler " +:+ name +:+ " from " +:+ itoa (fx_From s)
     +:+ " to " +:+ itoa to)
    (kube_call (PatchHPAMaxReplicas (fx_Namespace s) name to)).

Definition resumeFix (s : fixSpec) : mutation C :=
  let name := fx_Name s in
  mkFix (fx_Namespace s) ("deployment/" +:+ name) "DeploymentPaused" s
    ("resumed deployment " +:+ name) ("resume deployment " +:+ name)
    (kube_call (PatchDeploymentPaused (fx_Namespace s) name false)).

Definition expandPVCFix (s : fixSpec) : mutation C :=
  let claim := fx_Name s in let size := fx_Size s in
  mkFix (fx_Namespace s) ("pvc/" +:+ claim) "VolumeAlmostFull" s
    ("asked to expand claim " +:+ claim +:+ " to " +:+ size)
    ("expand claim " +:+ claim +:+ " to " +:+ size)
    (kube_call (PatchPVCStorage (fx_Namespace s) claim size)).

(** Pods are deleted one by one, up to the first error. *)
Fixpoint delete_pods (ns : string) (pods : list string) (c : C) : C * option string :=
  match pods with
  | [] => (c, None)
  | p :: pods' =>
    let '(c', err) := kube_call (DeletePod ns p) c in
    match err with
    | Some e => (c', Some ("delete pod " +:+ p +:+ ": " +:+ e))
    | None => delete_pods ns pods' c'
    end
  end.
Definition deleteStuckFix (s : fixSpec) : mutation C :=
  mkFix (fx_Namespace s) ("daemonset/" +:+ fx_Name s) "DaemonSetMissing" s
    ("deleted stuck pods " +:+ strings_Join (fx_Pods s) ", ")
    ("delete stuck pods " +:+ strings_Join (fx_Pods s) ", " +:+ " so the DaemonSet recreates them")
    (delete_pods (fx_Namespace s) (fx_Pods s)).

(** The CronJob is read when the change is applied. *)
Definition runNowFix (s : fixSpec) : mutation C :=
  let cron := fx_Name s in
  mkFix (fx_Namespace s) ("cronjob/" +:+ cron) "CronJobMissed" s
    ("started job " +:+ fx_Job s)
    ("start job " +:+ fx_Job s +:+ " from cronjob " +:+ cron +:+ " now")
    (λ c, match get_cronjob (fx_Namespace s) cron c with
          | inr e => (c, Some ("read cronjob " +:+ cron +:+ ": " +:+ e))
          | inl cj => kube_call (CreateJob (fx_Namespace s) (jobFromCronJob cj (fx_Job s))) c
          end).

Definition cpuLimitFix (s : fixSpec) : mutation C + fix_error :=
  let kind := fx_Kind s in
  if bool_decide (kind ≠ "Deployment" ∧ kind ≠ "StatefulSet" ∧ kind ≠ "DaemonSet")
  then inr (errUnknownKind kind)
  else
    let workload := str_map lower_ascii kind +:+ "/" +:+ fx_Name s in
    inl (mkFix (fx_Namespace s) workload "CPUThrottled" s
      ("raised the CPU limit of " +:+ fx_Container s +:+ " in " +:+ workload +:+ " to " +:+ fx_CPU s)
      ("raise the CPU limit of container " +:+ fx_Container s +:+ " in " +:+ workload
       +:+ " to " +:+ fx_CPU s +:+ " (rolls the pods)")
      (kube_call (PatchCPULimit kind (fx_Namespace s) (fx_Name s) (fx_Container s) (fx_CPU s)))).

Definition with_fix (s : fixSpec) (m : mutation C) : mutation C :=
  mkMutation C (m_Namespace m) (m_Workload m) (m_Pod m) (m_Labels m) (m_Reason m)
    (m_ActionType m) (m_SuccessMsg m) (m_SuggestMsg m) (m_Apply m) (m_ApprovedBy m) (Some s)
    (m_Housekeeping m).

Definition buildFix (s : fixSpec) : mutation C + fix_error :=
  let action := fx_Action s in
  let built : mutation C + fix_error :=
    if str_eqb action "raise_hpa_max" then inl (hpaMaxFix s)
    else if str_eqb action "resume_deployment" then inl (resumeFix s)
    else if str_eqb action "expand_pvc" then inl (expandPVCFix s)
    else if str_eqb action "delete_stuck_pods" then inl (deleteStuckFix s)
    else if str_eqb action "run_cronjob_now" then inl (runNowFix s)
    else if str_eqb action "raise_cpu_limit" then cpuLimitFix s
    else inr (errUnknownFix action) in
  match built with
  | inl m => inl (with_fix s m)
  | inr e => inr e
  end.

(** [mustFix]: [None] is the panic. *)
Definition mustFix (s : fixSpec) : option (mutation C) :=
  match buildFix s with inl m => Some m | inr _ => None end.

Definition proposeHPAMax (ns name : string) (maxReplicas : Z) (target : string) (to : Z) :=
  mustFix (mkFixSpec "raise_hpa_max" ns name "" target maxReplicas to "" [] "" "" "").
Definition proposeResume (ns name : string) :=
  mustFix (mkFixSpec "resume_deployment" ns name "" "" 0 0 "" [] "" "" "").
Definition proposeExpandPVC (ns claim : string) (gi : Z) :=
  mustFix (mkFixSpec "expand_pvc" ns claim "" "" 0 0 (itoa gi +:+ "Gi") [] "" "" "").
Definition proposeDeleteStuck (ns ds : string) (pods : list string) :=
  mustFix (mkFixSpec "delete_stuck_pods" ns ds "" "" 0 0 "" pods "" "" "").
Definition proposeRunNow (ns cron : string) (now : Time) :=
  mustFix (mkFixSpec "run_cronjob_now" ns cron "" "" 0 0 "" [] "" "" (manualJobName cron now)).

(** ** The workload of a pod *)

Fixpoint templateOwner_of (owners : list OwnerReference) (labels : gmap string string)
  : option (string * string) :=
  match owners with
  | [] => None
  | o :: owners' =>
    if negb (is_controller o) then templateOwner_of owners' labels
    else if str_eqb (ow_Kind o) "StatefulSet" || str_eqb (ow_Kind o) "DaemonSet"
    then Some (ow_Kind o, ow_Name o)
    else if str_eqb (ow_Kind o) "ReplicaSet" then
      match rs_deployment (ow_Name o) labels with
      | Some d => Some ("Deployment", d)
      | None => templateOwner_of owners' labels
      end
    else templateOwner_of owners' labels
  end.
Definition templateOwner (p : Pod) : option (string * string) :=
  templateOwner_of (p_Owners p) (p_Labels p).

Definition proposeCPULimit (p : Pod) (container to : string) : option (mutation C) + fix_error :=
  match templateOwner p with
  | None => inl None
  | Some (kind, name) =>
    match buildFix (mkFixSpec "raise_cpu_limit" (p_Namespace p) name kind "" 0 0 "" [] container to "") with
    | inl m => inl (Some m)
    | inr e => inr e
    end
  end.
End fixes.

(** ** What a fix is *)
Section theorems.
Context {C Spec : Type} `{!ClusterAPI C Spec}.

Definition built_from (s : fixSpec) (m : mutation C) : Prop :=
  m_Fix m = Some s ∧ m_Namespace m = fx_Namespace s ∧ m_ActionType m = fx_Action s
  ∧ m_Housekeeping m = false ∧ m_ApprovedBy m = "" ∧ m_Labels m = None.

Lemma buildFix_built s m : buildFix s = inl m → built_from s m.
Proof.
  unfold buildFix, cpuLimitFix. repeat case_match; intros; simplify_eq/=; done.
Qed.

(** A spec that was built once builds to the same mutation again. *)
Lemma buildFix_again s m s' : buildFix s = inl m → m_Fix m = Some s' → buildFix s' = inl m.
Proof. intros H Hf. destruct (buildFix_built s m H) as (Hs & _). by simplify_eq. Qed.

(** The kinds [templateOwner] names are the ones [cpuLimitFix] knows. *)
Lemma templateOwner_kind p kind name :
  templateOwner p = Some (kind, name) →
  kind = "Deployment" ∨ kind = "StatefulSet" ∨ kind = "DaemonSet".
Proof.
  unfold templateOwner. induction (p_Owners p) as [|o owners IH]; [done|]. simpl. intros H.
  repeat case_match; simplify_eq; auto.
  match goal with H : _ || _ = true |- _ => apply orb_true_iff in H as [->%str_eqb_eq| ->%str_eqb_eq] end; auto.
Qed.

(** Every change the detectors propose builds: no propose function panics, a
    CPU proposal never fails, and what they build carries its own spec, is
    for the namespace it was proposed in, and is neither housekeeping nor
    approved. *)
Theorem proposals_build ns name target maxReplicas to gi pods now p container cpu :
  let ok (m : option (mutation C)) := ∃ m' s, m = Some m' ∧ built_from s m' ∧ fx_Namespace s = ns in
  ok (proposeHPAMax ns name maxReplicas target to) ∧ ok (proposeResume ns name)
  ∧ ok (proposeExpandPVC ns name gi) ∧ ok (proposeDeleteStuck ns name pods)
  ∧ ok (proposeRunNow ns name now)
  ∧ (templateOwner p = None ∧ proposeCPULimit p container cpu = inl (None : option (mutation C))
     ∨ ∃ m s, proposeCPULimit p container cpu = inl (Some m) ∧ built_from s m
         ∧ fx_Namespace s = p_Namespace p).
Proof.
  intros ok.
  assert (∀ s m, buildFix s = inl m → fx_Namespace s = ns → ok (mustFix s)) as Hok.
  { intros s m Hm Hs. exists m, s. unfold mustFix. rewrite Hm. split_and!; [done|by apply buildFix_built|done]. }
  split_and!; try (by eapply Hok; [reflexivity|]).
  unfold proposeCPULimit. destruct (templateOwner p) as [[kind n]|] eqn:Ho; [right|by left].
  set (s := mkFixSpec _ _ _ _ _ _ _ _ _ _ _ _).
  destruct (buildFix s) as [m|e] eqn:Hm.
  - exists m, s. split_and!; [done|by apply buildFix_built|done].
  - exfalso. unfold buildFix, cpuLimitFix in Hm. subst s. simpl in Hm.
    rewrite bool_decide_false in Hm; [done|].
    destruct (templateOwner_kind p kind n Ho) as [->|[->| ->]]; tauto.
Qed.
End theorems.
