(* ===== verification/Approvals.v ===== *)
(** * Approvals: the approval queue of internal/kube

    [approvals.go] (propose, approve, reject, expire, prune) and
    [approval_store.go] (the queue in the agent's own ConfigMap, one compare
    and swap per step).  A step of the queue is a function on the items in
    memory; [updateQueue] runs it against the stored copy.

    The state [QSys] is the gate's state, the items in memory and the API
    server's.  Other controllers act on the server between two of our calls:
    [others] is what they do, a parameter. *)
From S2P Require Import Prelude GoStd Policy RateLimit Guards Events Escalation Gate K8s.
From S2P Require Import ScopeSettings Fixes.
From Stdlib Require Import Ascii.
#[local] Open Scope Z_scope.
#[local] Open Scope agent_scope.

Definition approvalPending : string := "pending".
Definition approvalApproved : string := "approved".
Definition approvalRejected : string := "rejected".
Definition approvalExpired : string := "expired".
Definition maxApprovals : Z := 200.
Definition approvalsKey : string := "queue.json".
Definition maxStoredBytes : Z := 900 * 1024.

Inductive store_error :=
| StoreRead (e : api_error) | StoreNoVersion | StoreParse | StoreEncode
| StoreTooBig (bytes : Z) | StoreCannotStore (action : string) | StoreBroken (why : string)
| StoreWrite (e : setting_error).
Inductive approval_error :=
| ErrApprovalsOff | ErrApprovalUnknown | ErrApprovalDecided (state : string) | ErrNotApprover
| errApprovalQueueFull | errApprovalID | errApprovalStore (e : store_error).

(** What [apierrors.IsConflict] sees through the wrapping. *)
Definition IsConflict (e : approval_error) : bool :=
  match e with
  | errApprovalStore (StoreRead ApiConflict) | errApprovalStore (StoreWrite (ErrApi ApiConflict)) => true
  | _ => false
  end.

Record pendingApproval {C : Type} := mkPending {
  pa_id : string; pa_m : mutation C; pa_summary : string; pa_created : Time; pa_expires : Time;
  pa_state : string; pa_by : string; pa_result : string; pa_broken : option string
}.
Arguments pendingApproval : clear implicits.

Record approvalRecord := mkRecord {
  ar_ID : string; ar_Fix : fixSpec; ar_Summary : string; ar_Created : Time; ar_Expires : Time;
  ar_State : string; ar_By : string; ar_Result : string
}.

(** [Approvals] less its items; the store is the namespace it is in. *)
Record Approvals := mkApprovals {
  ap_ttl : Duration; ap_approvers : gset string; ap_store : option string
}.
Definition NewApprovals (ttl : Duration) (approvers : list string) : Approvals :=
  mkApprovals ttl (list_to_set (filter (λ id, id ≠ "") approvers)) None.
Definition StoreIn (ns : string) (a : Approvals) : Approvals :=
  if str_eqb ns "" then a else mkApprovals (ap_ttl a) (ap_approvers a) (Some ns).
Definition Enabled (a : option Approvals) : bool :=
  match a with Some a => bool_decide (ap_approvers a ≠ ∅) | None => false end.
Definition IsApprover (a : option Approvals) (id : string) : bool :=
  match a with Some a' => Enabled a && bool_decide (id ∈ ap_approvers a') | None => false end.

(** ** Steps on the items in memory *)
Section steps.
Context {C : Type}.
Abbreviation items := (gmap string (pendingApproval C)).

Definition set_state (p : pendingApproval C) (state by_ result : string) : pendingApproval C :=
  mkPending C (pa_id p) (pa_m p) (pa_summary p) (pa_created p) (pa_expires p) state by_ result
    (pa_broken p).

Definition expire_one (now : Time) (p : pendingApproval C) : pendingApproval C :=
  if str_eqb (pa_state p) approvalPending && negb (time_Before now (pa_expires p))
  then set_state p approvalExpired (pa_by p) (pa_result p) else p.
Definition expireLocked (now : Time) (q : items) : items := expire_one now <$> q.

Definition by_created (p p' : pendingApproval C) : Prop := pa_created p ≤ pa_created p'.
#[export] Instance by_created_dec : RelDecision by_created.
Proof. intros p p'. unfold by_created. apply _. Defined.

(** The loop over the decided items, oldest first. *)
Fixpoint prune_loop (decided : list (pendingApproval C)) (q : items) : items :=
  match decided with
  | [] => q
  | p :: decided' =>
    if Z.of_nat (size q) <? maxApprovals then q else prune_loop decided' (delete (pa_id p) q)
  end.
Definition pruneLocked `{RangeOrder} (q : items) : bool * items :=
  if Z.of_nat (size q) <? maxApprovals then (true, q)
  else
    let decided := filter (λ p, pa_state p ≠ approvalPending) (range_map q).*2 in
    let q' := prune_loop (merge_sort by_created decided) q in
    (Z.of_nat (size q') <? maxApprovals, q').

Definition sameChange (a b : mutation C) : bool :=
  if negb (str_eqb (m_ActionType a) (m_ActionType b) && str_eqb (m_Namespace a) (m_Namespace b)
           && str_eqb (m_Workload a) (m_Workload b)) then false
  else if str_eqb (m_ActionType a) "run_cronjob_now" then true
  else str_eqb (m_SuggestMsg a) (m_SuggestMsg b).

(** What a step does to the items, whether it changed them, and its
    result. *)
Definition step (A : Type) : Type := items → items * ((bool * A) + approval_error).

Definition propose_step `{RangeOrder} (ttl : Duration) (m : mutation C) (summary : string)
  (now : Time) (newID : option string) : step (pendingApproval C * bool) := λ q,
  let q := expireLocked now q in
  match head (filter (λ p, str_eqb (pa_state p) approvalPending && sameChange (pa_m p) m = true)
                (range_map q).*2) with
  | Some p => (q, inl (false, (p, false)))
  | None =>
    let '(room, q) := pruneLocked q in
    if negb room then (q, inr errApprovalQueueFull)
    else match newID with
         | None => (q, inr errApprovalID)
         | Some id =>
           let p := mkPending C id m summary now (time_Add now ttl) approvalPending "" "" None in
           (<[id := p]> q, inl (true, (p, true)))
         end
  end.

(** [ApproveFix]'s step; with the error it tells the change, when there is
    one, for the audit. *)
Definition approve_step (approvers : gset string) (id user : string) (now : Time)
  : step (mutation C) := λ q,
  match q !! id with
  | None => (q, inr ErrApprovalUnknown)
  | Some _ =>
    if negb (bool_decide (user ∈ approvers)) then (q, inr ErrNotApprover)
    else
      let q := expireLocked now q in
      match q !! id with
      | None => (q, inr ErrApprovalUnknown)
      | Some p =>
        if negb (str_eqb (pa_state p) approvalPending)
        then (q, inr (ErrApprovalDecided (pa_state p)))
        else match pa_broken p with
             | Some why => (q, inr (errApprovalStore (StoreBroken why)))
             | None => (<[id := set_state p approvalApproved user (pa_result p)]> q,
                        inl (true, pa_m p))
             end
      end
  end.

Definition result_step (id result : string) : step unit := λ q,
  match q !! id with
  | None => (q, inr ErrApprovalUnknown)
  | Some p => (<[id := set_state p (pa_state p) (pa_by p) result]> q, inl (true, tt))
  end.

Definition reject_step (id by_ : string) (now : Time) : step (mutation C) := λ q,
  match q !! id with
  | None => (q, inr ErrApprovalUnknown)
  | Some _ =>
    let q := expireLocked now q in
    match q !! id with
    | None => (q, inr ErrApprovalUnknown)
    | Some p =>
      if negb (str_eqb (pa_state p) approvalPending)
      then (q, inr (ErrApprovalDecided (pa_state p)))
      else (<[id := set_state p approvalRejected by_ (pa_result p)]> q, inl (true, pa_m p))
    end
  end.
End steps.

(** ** The stored queue *)

(** [encoding/json] on the queue. *)
Class QueueCodec := {
  json_Marshal : list approvalRecord → option string;
  json_Unmarshal : string → option (list approvalRecord);
  (** Documented: what [Marshal] writes, [Unmarshal] reads back. *)
  json_roundtrip recs raw : json_Marshal recs = Some raw → json_Unmarshal raw = Some recs ∧ raw ≠ ""
}.

Record QSys {C W : Type} := mkQSys {
  qs_gate : GState C;
  qs_items : gmap string (pendingApproval C);
  qs_world : W;
  qs_calls : nat (* API calls made so far *)
}.
Arguments QSys : clear implicits.

Section queue.
Context {C Spec W : Type} `{!ClusterAPI C Spec, !ConfigMapAPI W, !QueueCodec, !RangeOrder}.
Context (env : Env) (others : nat → W → W).
(** [errors.New(...).Error] of a fix that does not build, and the
    attempts of [retry.DefaultRetry] less one. *)
Context (fix_error_text : fix_error → string) (retries : nat) (fmt_RFC3339 : Time → string).
Abbreviation Q := (QSys C W).
Abbreviation M := (st Q).
Abbreviation items := (gmap string (pendingApproval C)).

Definition on_gate {A} (m : st (GState C) A) : M A := λ s,
  let '(a, g) := m (qs_gate s) in (a, mkQSys C W g (qs_items s) (qs_world s) (qs_calls s)).
Definition get_items : M items := λ s, (qs_items s, s).
Definition set_items (q : items) : M unit := λ s,
  (tt, mkQSys C W (qs_gate s) q (qs_world s) (qs_calls s)).
(** An API call: the others first, then ours. *)
Definition api {A} (m : st W A) : M A := λ s,
  let '(a, w) := m (others (qs_calls s) (qs_world s)) in
  (a, mkQSys C W (qs_gate s) (qs_items s) w (S (qs_calls s))).

Definition zeroFix : fixSpec := mkFixSpec "" "" "" "" "" 0 0 "" [] "" "" "".
Definition toRecord (p : pendingApproval C) : approvalRecord :=
  mkRecord (pa_id p) (default zeroFix (m_Fix (pa_m p))) (pa_summary p) (pa_created p)
    (pa_expires p) (pa_state p) (pa_by p) (pa_result p).
Definition fromRecord (r : approvalRecord) : pendingApproval C :=
  let fx := ar_Fix r in
  match buildFix fx with
  | inl m => mkPending C (ar_ID r) m (ar_Summary r) (ar_Created r) (ar_Expires r) (ar_State r)
               (ar_By r) (ar_Result r) None
  | inr err =>
    let why := fix_error_text err in
    mkPending C (ar_ID r)
      (mkMutation C (fx_Namespace fx) (fx_Name fx) "" None "" (fx_Action fx) ""
         ("unreadable stored change: " +:+ why) (λ c, (c, None)) "" (Some fx) false)
      (ar_Summary r) (ar_Created r) (ar_Expires r) (ar_State r) (ar_By r) (ar_Result r) (Some why)
  end.

(** [readApprovals]. *)
Definition loadQueue (ns : string) : M (list approvalRecord * string + approval_error) :=
  let! got := api (cm_Get ns ApprovalsConfigMap) in
  return! match got with
  | inr ApiNotFound => inl ([], "")
  | inr e => inr (errApprovalStore (StoreRead e))
  | inl (version, data) =>
    if str_eqb version "" then inr (errApprovalStore StoreNoVersion)
    else
      let raw := default "" (data !! approvalsKey) in
      if str_eqb raw "" then inl ([], version)
      else match json_Unmarshal raw with
           | None => inr (errApprovalStore StoreParse)
           | Some recs => inl (recs, version)
           end
  end.
(** [writeApprovals]. *)
Definition saveQueue (ns : string) (recs : list approvalRecord) (version : string)
  : M (option approval_error) :=
  match json_Marshal recs with
  | None => return! Some (errApprovalStore StoreEncode)
  | Some raw =>
    if maxStoredBytes <? str_len raw then return! Some (errApprovalStore (StoreTooBig (str_len raw)))
    else
      let! err := writeAgentSetting ApprovalsConfigMap (api
        (if str_eqb version "" then
           let! err := cm_Create ns ApprovalsConfigMap {[ approvalsKey := raw ]} in
           return! (if bool_decide (err = Some ApiAlreadyExists) then Some ApiConflict else err)
         else cm_Patch ns ApprovalsConfigMap (Some version) {[ approvalsKey := Some raw ]})) in
      return! ((λ e, errApprovalStore (StoreWrite e)) <$> err)
  end.

Definition items_of (recs : list approvalRecord) : items :=
  foldl (λ q r, <[ar_ID r := fromRecord r]> q) ∅ recs.
Definition reloadLocked (ns : string) : M (string + approval_error) :=
  let! got := loadQueue ns in
  match got with
  | inr e => return! inr e
  | inl (recs, version) => set_items (items_of recs) ;;; return! inl version
  end.
Definition recordsLocked (q : items) : list approvalRecord := toRecord <$> (range_map q).*2.

(** [retry.RetryOnConflict]: the last conflict is the error. *)
Fixpoint RetryOnConflict {A} (n : nat) (fn : M (A + approval_error)) : M (A + approval_error) :=
  let! r := fn in
  match r, n with
  | inr e, S n' => if IsConflict e then RetryOnConflict n' fn else return! inr e
  | _, _ => return! r
  end.

(** One attempt of [updateQueue]. *)
Definition attempt {A} (ns : string) (stp : M ((bool * A) + approval_error)) : M (A + approval_error) :=
  let! loaded := reloadLocked ns in
  match loaded with
  | inr e => return! inr e
  | inl version =>
    let! r := stp in
    match r with
    | inr e => return! inr e
    | inl (false, a) => return! inl a
    | inl (true, a) =>
      let! q := get_items in
      let! err := saveQueue ns (recordsLocked q) version in
      return! match err with Some e => inr e | None => inl a end
    end
  end.
Definition updateQueue {A} (a : Approvals) (stp : M ((bool * A) + approval_error))
  : M (A + approval_error) :=
  match ap_store a with
  | None => let! r := stp in
            return! match r with inl (_, x) => inl x | inr e => inr e end
  | Some ns => RetryOnConflict retries (attempt ns stp)
  end.

Definition run_step {A} (f : step (C := C) A) : M ((bool * A) + approval_error) :=
  let! q := get_items in let r := f q in set_items r.1 ;;; return! r.2.

(** ** The operations *)

Definition propose (a : Approvals) (m : mutation C) (summary : string) (now : Time)
  (newID : option string) : M (pendingApproval C * bool + approval_error) :=
  if bool_decide (ap_store a ≠ None) && bool_decide (m_Fix m = None)
  then return! inr (errApprovalStore (StoreCannotStore (m_ActionType m)))
  else updateQueue a (run_step (propose_step (ap_ttl a) m summary now newID)).

Definition proposable (pol : Policy) (m : mutation C) : bool :=
  str_eqb (Mode_ pol) Fix && (str_eqb (m_Namespace m) "" || Fixable pol (m_Namespace m)).

Definition queueApproval (oa : option Approvals) (m : mutation C) (summary : string)
  (newID : option string) (err_text : approval_error → string)
  : M (option (pendingApproval C) * bool * string) :=
  match oa with
  | Some a =>
    if negb (Enabled oa)
    then return! (None, false, "approve to fix is off: no approvers are set (approvals.groups)")
    else if negb (proposable (env_Policy env) m)
    then return! (None, false,
           "approve to fix needs fix mode and this namespace inside the fix scope")
    else
      let! now := on_gate (clock env) in
      let! r := propose a m summary now newID in
      return! match r with
      | inr e => (None, false, "approve to fix could not queue this change: " +:+ err_text e)
      | inl (p, isNew) =>
        (Some p, isNew, "approval `" +:+ pa_id p +:+ "` waits for an approver until "
                        +:+ fmt_RFC3339 (pa_expires p) +:+ ": " +:+ m_SuggestMsg m)
      end
  | None => return! (None, false, "approve to fix is off: no approvers are set (approvals.groups)")
  end.

Definition approved_by (user : string) (m : mutation C) : mutation C :=
  mkMutation C (m_Namespace m) (m_Workload m) (m_Pod m) (m_Labels m) (m_Reason m)
    (m_ActionType m) (m_SuccessMsg m) (m_SuggestMsg m) (m_Apply m) user (m_Fix m)
    (m_Housekeeping m).

(** The clock is read once the approver is known. *)
Definition approve_m (a : Approvals) (id user : string) : M ((bool * mutation C) + approval_error) :=
  let! q := get_items in
  let! now := (if bool_decide (q !! id ≠ None) && bool_decide (user ∈ ap_approvers a)
               then on_gate (clock env) else return! 0) in
  run_step (approve_step (ap_approvers a) id user now).

Definition recordResult (a : Approvals) (id result : string) : M unit :=
  let! _ := updateQueue a (run_step (result_step id result)) in return! tt.

Definition ApproveFix (oa : option Approvals) (id user : string) : M (string + approval_error) :=
  match oa with
  | Some a =>
    if negb (Enabled oa) then return! inr ErrApprovalsOff
    else
      let! r := updateQueue a (approve_m a id user) in
      match r with
      | inr e =>
        let! q := get_items in
        match e, q !! id with
        | ErrNotApprover, Some p =>
          let m := pa_m p in
          on_gate (audit env m "blocked" ("approval refused: " +:+ user +:+ " is not an approver"))
        | _, _ => return! tt
        end ;;;
        return! inr e
      | inl m =>
        let! out := on_gate (applyMutation env (approved_by user m)) in
        recordResult a id (outcomeNames out.1) ;;;
        return! inl out.2
      end
  | None => return! inr ErrApprovalsOff
  end.

Definition RejectFix (oa : option Approvals) (id by_ : string) : M (option approval_error) :=
  match oa with
  | Some a =>
    if negb (Enabled oa) then return! Some ErrApprovalsOff
    else
      let! r := updateQueue a (
        let! q := get_items in
        let! now := (if bool_decide (q !! id ≠ None) then on_gate (clock env) else return! 0) in
        run_step (reject_step id by_ now)) in
      match r with
      | inr e => return! Some e
      | inl m => on_gate (audit env m "rejected" ("rejected by " +:+ by_)) ;;; return! None
      end
  | None => return! Some ErrApprovalsOff
  end.

Record ApprovalView := mkView {
  av_ID : string; av_Namespace : string; av_Workload : string; av_Reason : string;
  av_Action : string; av_Change : string; av_Summary : string; av_State : string; av_By : string;
  av_Result : string; av_Created : Time; av_Expires : Time
}.
Definition view_of (p : pendingApproval C) : ApprovalView :=
  let m := pa_m p in
  mkView (pa_id p) (m_Namespace m) (m_Workload m) (m_Reason m) (m_ActionType m) (m_SuggestMsg m)
    (pa_summary p) (pa_state p) (pa_by p) (pa_result p) (pa_created p) (pa_expires p).
Definition newest_first (v v' : ApprovalView) : Prop := av_Created v' ≤ av_Created v.
#[export] Instance newest_first_dec : RelDecision newest_first.
Proof. intros v v'. unfold newest_first. apply _. Defined.

Definition ListApprovals (oa : option Approvals) : M (list ApprovalView) :=
  match oa with
  | None => return! []
  | Some a =>
    match ap_store a with
    | Some ns => let! _ := reloadLocked ns in return! tt
    | None => return! tt
    end ;;;
    let! now := on_gate (clock env) in
    let! q := get_items in
    let q' := expireLocked now q in
    set_items q' ;;;
    return! merge_sort newest_first (view_of <$> (range_map q').*2)
  end.
End queue.
