(* ===== verification/ApprovalsQueue.v ===== *)
(** * ApprovalsQueue: what the approval queue guarantees

    The queue as a state machine: every change of it, by any controller, is
    one of the steps of Approvals on the items.  This file proves what any
    run of such steps keeps; ApprovalsStore proves that a step against the
    stored copy is one atomic step of this machine. *)
From S2P Require Import Prelude GoStd Policy RateLimit Guards Events Escalation Gate K8s.
From S2P Require Import ScopeSettings Fixes Approvals.
From Stdlib Require Import Ascii.
#[local] Open Scope Z_scope.

Section machine.
Context {C Spec W : Type} `{!ClusterAPI C Spec, !RangeOrder}.
Context (fix_error_text : fix_error → string) (ttl : Duration) (approvers : gset string).
Abbreviation items := (gmap string (pendingApproval C)).
Abbreviation rebuild := (fromRecord fix_error_text).
Implicit Types (q : items) (p : pendingApproval C).

Inductive qevent :=
| QPropose (m : mutation C) (summary : string) (now : Time) (newID : option string)
| QApprove (id user : string) (now : Time)
| QReject (id by_ : string) (now : Time)
| QResult (id result : string)
| QExpire (now : Time)
| QReload. (* stored, and read back *)

Definition qstep q (e : qevent) : items :=
  match e with
  | QPropose m summary now newID => (propose_step ttl m summary now newID q).1
  | QApprove id user now => (approve_step approvers id user now q).1
  | QReject id by_ now => (reject_step id by_ now q).1
  | QResult id result => (result_step id result q).1
  | QExpire now => expireLocked now q
  | QReload => items_of fix_error_text (recordsLocked q)
  end.

(** ** The invariant *)
Definition pending p : Prop := pa_state p = approvalPending.
Record queue_inv q : Prop := {
  qi_keys : ∀ id p, q !! id = Some p → pa_id p = id;
  qi_size : Z.of_nat (size q) ≤ maxApprovals;
  qi_unique : ∀ i j p p', q !! i = Some p → q !! j = Some p' → pending p → pending p' →
    sameChange (pa_m p) (pa_m p') = true → i = j;
  qi_rebuilt : ∀ id p, q !! id = Some p → rebuild (toRecord p) = p
}.

Lemma sameChange_sym (a b : mutation C) : sameChange a b = sameChange b a.
Proof.
  unfold sameChange, str_eqb. rewrite (bool_decide_ext _ _ (symmetry_iff _ (m_ActionType a) _)).
  rewrite (bool_decide_ext _ _ (symmetry_iff _ (m_Namespace a) _)).
  rewrite (bool_decide_ext _ _ (symmetry_iff _ (m_Workload a) _)).
  rewrite (bool_decide_ext _ _ (symmetry_iff _ (m_SuggestMsg a) _)).
  repeat case_bool_decide; simpl; congruence.
Qed.

(** *** Expiry *)
Lemma lookup_expire now q id : expireLocked now q !! id = expire_one now <$> q !! id.
Proof. apply lookup_fmap. Qed.
Lemma expire_one_frame now p :
  pa_id (expire_one now p) = pa_id p ∧ pa_m (expire_one now p) = pa_m p
  ∧ (pending (expire_one now p) → expire_one now p = p).
Proof. unfold expire_one. case_match; [|done]. split_and!; done. Qed.
Lemma set_state_rebuilt p s b r : rebuild (toRecord p) = p → rebuild (toRecord (set_state p s b r)) = set_state p s b r.
Proof.
  unfold fromRecord, toRecord, set_state. simpl. intros Hrb. destruct p as [i m su c x st by_ re br]. simpl in *.
  destruct (buildFix _); congruence.
Qed.
(** Changing the state of one item to a decided one, or its note, keeps the
    invariant. *)
Lemma set_state_inv q id p s b r :
  queue_inv q → q !! id = Some p → (s = approvalPending → pending p) →
  queue_inv (<[id := set_state p s b r]> q).
Proof.
  intros [Hk Hs Hu Hr] Hp Hs'. split.
  - intros i x [[<- <-]|[? ?]]%lookup_insert_Some; eauto.
    simpl. eauto.
  - by rewrite map_size_insert_Some by eauto.
  - intros i j x y [[<- <-]|[? Hx]]%lookup_insert_Some [[<- <-]|[? Hy]]%lookup_insert_Some Px Py Hxy;
      unfold pending in *; simpl in *; eauto.
  - intros i x [[<- <-]|[? ?]]%lookup_insert_Some; [|eauto]. apply set_state_rebuilt. eauto.
Qed.
Lemma expire_inv now q : queue_inv q → queue_inv (expireLocked now q).
Proof.
  intros [Hk Hs Hu Hr]. split.
  - intros id p. rewrite lookup_expire. destruct (q !! id) eqn:E; [|done]. intros [= <-].
    rewrite (proj1 (expire_one_frame _ _)). eauto.
  - unfold expireLocked. by rewrite map_size_fmap.
  - intros i j p p'. rewrite !lookup_expire.
    destruct (q !! i) as [x|] eqn:E, (q !! j) as [y|] eqn:E'; try done. intros [= <-] [= <-].
    destruct (expire_one_frame now x) as (_ & _ & Hx), (expire_one_frame now y) as (_ & _ & Hy).
    intros Px Py. specialize (Hx Px). specialize (Hy Py). rewrite Hx in *. rewrite Hy in *. eauto.
  - intros id p. rewrite lookup_expire. destruct (q !! id) as [x|] eqn:E; [|done]. intros [= <-].
    unfold expire_one. case_match; [|eauto]. apply set_state_rebuilt. eauto.
Qed.
(** *** Pruning *)
Lemma sub_inv q q' : q' ⊆ q → queue_inv q → queue_inv q'.
Proof.
  intros Hsub [Hk Hs Hu Hr]. pose proof (λ i x Hx, lookup_weaken q' q i x Hx Hsub) as Hw. split; eauto.
  apply map_subseteq_size in Hsub. lia.
Qed.
Lemma prune_loop_sub l q : prune_loop l q ⊆ q.
Proof.
  revert q. induction l as [|p l IH]; intros q; simpl; [done|]. case_match; [done|].
  etrans; [apply IH|]. apply delete_subseteq.
Qed.
Lemma prune_loop_keeps l q id p :
  q !! id = Some p → (∀ x, x ∈ l → pa_id x ≠ id) → prune_loop l q !! id = Some p.
Proof.
  revert q. induction l as [|x l IH]; intros q Hq Hl; simpl; [done|]. case_match; [done|].
  apply IH; [|set_solver]. rewrite lookup_delete_ne; [done|]. apply Hl. left.
Qed.

(** Pruning drops only decided items, and as few as it must. *)
Lemma pruneLocked_spec q :
  queue_inv q →
  (pruneLocked q).2 ⊆ q
  ∧ (∀ id p, q !! id = Some p → pending p → (pruneLocked q).2 !! id = Some p)
  ∧ ((pruneLocked q).1 = true → Z.of_nat (size (pruneLocked q).2) < maxApprovals).
Proof.
  intros Hq. unfold pruneLocked. destruct (_ <? _) eqn:Hroom; [split_and!; [done..|simpl; intros; blia]|].
  cbn [fst snd]. split_and!; [apply prune_loop_sub| |intros; blia].
  intros id p Hp Pp. apply prune_loop_keeps; [done|]. intros x Hx Hid.
  rewrite merge_sort_Permutation in Hx. apply list_elem_of_filter in Hx as [Hn Hx].
  apply list_elem_of_fmap in Hx as ([i y] & -> & Hy%elem_of_range_map). simpl in *.
  pose proof (qi_keys _ Hq _ _ Hy) as Hi. rewrite Hid in Hi. subst. by simplify_eq.
Qed.

(** *** The steps *)
Definition buildable (m : mutation C) : Prop := ∃ s, buildFix s = inl m.
Definition event_ok (e : qevent) : Prop :=
  match e with QPropose m _ _ _ => buildable m | _ => True end.

Lemma fresh_rebuilt id m summary now exp st_ :
  buildable m → rebuild (toRecord (mkPending C id m summary now exp st_ "" "" None))
                = mkPending C id m summary now exp st_ "" "" None.
Proof.
  intros [s Hs]. destruct (buildFix_built s m Hs) as (Hf & _).
  unfold fromRecord, toRecord. simpl. rewrite Hf. simpl. by rewrite Hs.
Qed.

Lemma head_filter_none {A} (f : A → bool) (l : list A) :
  head (filter (λ x, f x = true) l) = None → ∀ x, x ∈ l → f x = false.
Proof.
  intros Hh x Hx. destruct (f x) eqn:E; [|done]. exfalso.
  assert (x ∈ filter (λ x, f x = true) l) as Hin by by apply list_elem_of_filter.
  destruct (filter _ l); [set_solver|done].
Qed.

Lemma propose_inv q m summary now newID :
  queue_inv q → buildable m → queue_inv (propose_step ttl m summary now newID q).1.
Proof.
  intros Hq%(expire_inv now) Hm. unfold propose_step.
  set (q1 := expireLocked now q) in *. clearbody q1.
  destruct (head (filter _ _)) eqn:Hh; [done|].
  destruct (pruneLocked_spec q1 Hq) as (Hsub & _ & Hroom).
  pose proof (sub_inv _ _ Hsub Hq) as Hq2. destruct (pruneLocked q1) as [room q2]. simpl in *.
  destruct room; [|done]. destruct newID as [id|]; [|done]. specialize (Hroom eq_refl).
  assert (∀ i p, q2 !! i = Some p → pending p → sameChange (pa_m p) m = false) as Hnone.
  { intros i p Hp Pp. pose proof (lookup_weaken _ _ _ _ Hp Hsub) as Hp1.
    pose proof (head_filter_none _ _ Hh p) as Hf. cbv beta in Hf.
    unfold pending in Pp. rewrite Pp, str_eqb_refl in Hf. apply Hf.
    apply list_elem_of_fmap. exists (i, p). by rewrite elem_of_range_map. }
  destruct Hq2 as [Hk Hs Hu Hr]. cbn [negb fst]. split.
  - intros i p [[<- <-]|[_ Hp]]%lookup_insert_Some; [done|eauto].
  - rewrite map_size_insert. destruct (q2 !! id); simpl in *; unfold maxApprovals in *; lia.
  - intros i j p p' [[<- <-]|[Hi Hp]]%lookup_insert_Some [[<- <-]|[Hj Hp']]%lookup_insert_Some Pp Pp' Hsame;
      simpl in *; eauto.
    + rewrite sameChange_sym, (Hnone j p') in Hsame by done. done.
    + rewrite (Hnone i p) in Hsame by done. done.
  - intros i p [[<- <-]|[_ Hp]]%lookup_insert_Some; [by apply fresh_rebuilt|eauto].
Qed.

(** What is stored is read back as it was: a restart or a change of leader
    loses no item and changes none. *)
Lemma items_of_snoc l r :
  items_of fix_error_text (l ++ [r]) = <[ar_ID r := rebuild r]> (items_of fix_error_text l).
Proof. unfold items_of. by rewrite foldl_app. Qed.
Lemma items_of_recordsLocked q :
  (∀ id p, q !! id = Some p → pa_id p = id) →
  (∀ id p, q !! id = Some p → rebuild (toRecord p) = p) →
  items_of fix_error_text (recordsLocked q) = q.
Proof.
  intros Hk Hr. unfold recordsLocked.
  assert (∀ l : list (string * pendingApproval C), NoDup l.*1 →
    (∀ i p, (i, p) ∈ l → pa_id p = i ∧ rebuild (toRecord p) = p) →
    items_of fix_error_text (toRecord <$> l.*2) = list_to_map l) as Hgen.
  { induction l as [|[i p] l IH] using rev_ind; intros Hn Hl; [done|].
    rewrite !fmap_app in *. cbn [fmap list_fmap fst snd] in *. rewrite items_of_snoc.
    destruct (Hl i p) as [Hi Hp]; [set_solver|]. rewrite Hp.
    apply NoDup_app in Hn as (Hn & Hd & _). rewrite IH by set_solver.
    cbn [ar_ID toRecord snd]. rewrite Hi. cbn [fst] in Hd.
    rewrite list_to_map_snoc; [done|]. intros Hin. apply (Hd _ Hin). set_solver. }
  rewrite Hgen.
  - rewrite (list_to_map_proper _ (map_to_list q)).
    + apply list_to_map_to_list.
    + apply range_map_NoDup.
    + apply range_map_perm.
  - apply range_map_NoDup.
  - intros i p Hp%elem_of_range_map. eauto.
Qed.

Lemma approve_step_cases q id user now :
  (∃ e, approve_step approvers id user now q = (q, inr e))
  ∨ (∃ e, approve_step approvers id user now q = (expireLocked now q, inr e))
  ∨ ∃ p, q !! id = Some p ∧ pending p ∧ time_Before now (pa_expires p) = true
      ∧ user ∈ approvers ∧ pa_broken p = None
      ∧ approve_step approvers id user now q
        = (<[id := set_state p approvalApproved user (pa_result p)]> (expireLocked now q),
           inl (true, pa_m p)).
Proof.
  unfold approve_step. destruct (q !! id) as [p|] eqn:E; [|eauto].
  case_bool_decide; cbn [negb]; [|eauto]. rewrite lookup_expire, E. cbn [fmap option_fmap option_map].
  destruct (str_eqb (pa_state (expire_one now p)) approvalPending) eqn:Hs; cbn [negb]; [|eauto].
  apply str_eqb_eq in Hs. destruct (expire_one_frame now p) as (_ & _ & Hf).
  pose proof (Hf Hs) as Hf'. rewrite Hf' in *.
  destruct (pa_broken p) eqn:Hb; [eauto|]. right; right. exists p. split_and!; try done.
  unfold expire_one in Hf'. rewrite Hs, str_eqb_refl in Hf'. cbn [andb] in Hf'.
  destruct (time_Before now (pa_expires p)); [done|]. cbn [negb] in Hf'.
  apply (f_equal pa_state) in Hf'. by rewrite Hs in Hf'.
Qed.

Lemma qstep_inv q e : queue_inv q → event_ok e → queue_inv (qstep q e).
Proof.
  intros Hq He. destruct e as [m su now nid|id user now|id b now|id r|now|]; simpl.
  - by apply propose_inv.
  - destruct (approve_step_cases q id user now) as [[? ->]|[[? ->]|(p & Hp & Pp & Ht & _ & _ & ->)]];
      [done|by apply expire_inv|]. apply set_state_inv; [by apply expire_inv| |done].
    rewrite lookup_expire, Hp. simpl. unfold expire_one. rewrite Ht. by rewrite andb_false_r.
  - unfold reject_step. destruct (q !! id) eqn:E; [|done].
    rewrite lookup_expire, E. cbn [fmap option_fmap option_map].
    pose proof (expire_inv now q Hq). case_match; [done|]. simpl.
    apply set_state_inv; [done|by rewrite lookup_expire, E|done].
  - unfold result_step. destruct (q !! id) eqn:E; [|done]. by apply set_state_inv.
  - by apply expire_inv.
  - rewrite items_of_recordsLocked; [done|apply Hq..].
Qed.

(** C9: The queue stays well formed whatever happens to it: items are
    filed under their ids, there are never more than 200, no two pending
    items are the same change on the same workload, and each can be stored
    and rebuilt exactly. *)
Theorem queue_invariant_kept q es :
  queue_inv q → Forall event_ok es → queue_inv (foldl qstep q es).
Proof.
  intros Hq Hes. revert q Hq. induction Hes as [|e es He _ IH]; intros q Hq; [done|].
  simpl. by apply IH, qstep_inv.
Qed.

(** A restart loses nothing: the queue stored and read back is the
    queue, in whatever order the map was walked. *)
Theorem queue_restart q :
  queue_inv q → items_of fix_error_text (recordsLocked q) = q.
Proof. intros Hq. apply items_of_recordsLocked; apply Hq. Qed.

(** ** Each approval once *)

(** The approvals of [id] a run commits, with who gave them and when. *)
Definition approval_by (id : string) q (e : qevent) : option (string * Time) :=
  match e with
  | QApprove id' user now =>
    match (approve_step approvers id' user now q).2 with
    | inl (true, _) => if str_eqb id' id then Some (user, now) else None
    | _ => None
    end
  | _ => None
  end.
Fixpoint approvals_of (id : string) q (es : list qevent) : list (string * Time) :=
  match es with
  | [] => []
  | e :: es' => option_list (approval_by id q e) ++ approvals_of id (qstep q e) es'
  end.
Definition proposed_id (e : qevent) : option string :=
  match e with QPropose _ _ _ newID => newID | _ => None end.

(** An id is settled when no pending item has it. *)
Definition settled (id : string) q : Prop := ∀ p, q !! id = Some p → ¬ pending p.

Lemma settled_expire id now q : settled id q → settled id (expireLocked now q).
Proof.
  intros Hs p. rewrite lookup_expire. destruct (q !! id) as [x|] eqn:E; [|done]. intros [= <-] Px.
  destruct (expire_one_frame now x) as (_ & _ & Hx). rewrite (Hx Px) in Px. by apply (Hs x).
Qed.
Lemma settled_sub id q q' : q' ⊆ q → settled id q → settled id q'.
Proof. intros Hsub Hs p Hp. apply Hs. by eapply lookup_weaken. Qed.
Lemma settled_insert id i p q :
  settled id q → (i = id → ¬ pending p) → settled id (<[i := p]> q).
Proof. intros Hs Hp x [[<- <-]|[_ Hx]]%lookup_insert_Some; eauto. Qed.

Lemma settled_step id q e :
  queue_inv q → event_ok e → proposed_id e ≠ Some id → settled id q → settled id (qstep q e).
Proof.
  intros Hq He Hid Hs. destruct e as [m su now nid|i user now|i b now|i r|now|]; simpl in *.
  - unfold propose_step. pose proof (settled_expire id now q Hs) as Hs1.
    destruct (head _); [done|].
    destruct (pruneLocked_spec _ (expire_inv now q Hq)) as (Hsub & _).
    destruct (pruneLocked (expireLocked now q)) as [[] q2]; simpl in *; [|by eapply settled_sub].
    destruct nid as [i|]; [|by eapply settled_sub].
    apply settled_insert; [by eapply settled_sub|congruence].
  - destruct (approve_step_cases q i user now) as [[? ->]|[[? ->]|(p & _ & _ & _ & _ & _ & ->)]];
      [done|by apply settled_expire|]. apply settled_insert; [by apply settled_expire|done].
  - unfold reject_step. destruct (q !! i) eqn:E; [|done].
    pose proof (settled_expire id now q Hs). repeat case_match; try done. simpl.
    by apply settled_insert.
  - unfold result_step. destruct (q !! i) eqn:E; [|done]. apply settled_insert; [done|].
    intros -> Px. by apply (Hs _ E).
  - by apply settled_expire.
  - rewrite items_of_recordsLocked; [done|apply Hq..].
Qed.

Lemma approval_settles id q e x :
  approval_by id q e = Some x → x.1 ∈ approvers ∧ settled id (qstep q e)
  ∧ ∃ p, q !! id = Some p ∧ pending p ∧ time_Before x.2 (pa_expires p) = true.
Proof.
  destruct e as [| i user now| | | |]; try done. simpl.
  destruct (approve_step_cases q i user now) as [[? ->]|[[? ->]|(p & Hp & Pp & Ht & Hu & _ & ->)]];
    [done..|]. cbn [fst snd]. destruct (str_eqb i id) eqn:Ei; [|done].
  apply str_eqb_eq in Ei as ->. intros [= <-]. split_and!; [done| |by eauto].
  intros y. rewrite lookup_insert_eq. by intros [= <-].
Qed.
Lemma settled_no_approval id q e : settled id q → approval_by id q e = None.
Proof.
  intros Hs. destruct (approval_by id q e) as [x|] eqn:E; [|done].
  destruct (approval_settles _ _ _ _ E) as (_ & _ & p & Hp & Pp & _). by destruct (Hs p).
Qed.


Lemma qstep_None i q e :
  queue_inv q → event_ok e → proposed_id e ≠ Some i → q !! i = None → qstep q e !! i = None.
Proof.
  intros Hq He Hi Hn.
  assert (∀ now, expireLocked now q !! i = None) as Hx by (intros now; by rewrite lookup_expire, Hn).
  destruct e as [m su now nid|j user now|j b now|j r|now|]; simpl in *.
  - unfold propose_step. destruct (head _); [apply Hx|].
    destruct (pruneLocked_spec _ (expire_inv now q Hq)) as (Hsub & _).
    destruct (pruneLocked (expireLocked now q)) as [[] q2]; simpl in *;
      pose proof (lookup_weaken_None _ _ _ (Hx now) Hsub); [|done].
    destruct nid; [|done]. simpl. by rewrite lookup_insert_ne by congruence.
  - destruct (approve_step_cases q j user now) as [[? ->]|[[? ->]|(p & Hp & _ & _ & _ & _ & ->)]];
      [done|apply Hx|]. simpl. rewrite lookup_insert_ne by congruence. apply Hx.
  - unfold reject_step. destruct (q !! j) eqn:E; [|done]. repeat case_match; try done; try apply Hx.
    simpl. rewrite lookup_insert_ne by congruence. apply Hx.
  - unfold result_step. destruct (q !! j) eqn:E; [|done]. simpl.
    by rewrite lookup_insert_ne by congruence.
  - apply Hx.
  - by rewrite items_of_recordsLocked by apply Hq.
Qed.

(** C8: A change is approved at most once: in any run of the queue, by
    any number of controllers, in which no id is given out twice, an item
    is approved at most once, by a listed approver, before it expires. *)
Theorem approved_at_most_once id q es :
  queue_inv q → Forall event_ok es →
  NoDup (omap proposed_id es) → (∀ i, i ∈ omap proposed_id es → q !! i = None) →
  (length (approvals_of id q es) ≤ 1)%nat
  ∧ Forall (λ x, x.1 ∈ approvers) (approvals_of id q es).
Proof.
  assert (∀ q es, queue_inv q → Forall event_ok es → id ∉ omap proposed_id es →
    settled id q → approvals_of id q es = []) as Hsettled.
  { clear q es. intros q es Hq Hes. revert q Hq.
    induction Hes as [|e es He _ IH]; intros q Hq Hn Hs; [done|]. simpl.
    rewrite settled_no_approval by done. simpl. simpl in Hn.
    destruct (proposed_id e) as [i|] eqn:Ei; [apply not_elem_of_cons in Hn as [Hn1 Hn2]|];
      apply IH; try done; try (by apply qstep_inv); apply settled_step; congruence || done. }
  intros Hq Hes. revert q Hq. induction Hes as [|e es He Hes IH]; intros q Hq Hnd Hfresh.
  { split; [simpl; lia|constructor]. }
  destruct (approval_by id q e) as [x|] eqn:Ex; simpl; rewrite Ex; simpl.
  - destruct (approval_settles _ _ _ _ Ex) as (Hu & Hs & p & Hp & _).
    rewrite Hsettled; [split; [simpl; lia|by repeat constructor]|by apply qstep_inv|done| |done].
    intros Hin. rewrite Hfresh in Hp; [done|]. simpl. destruct (proposed_id e); [by right|done].
  - simpl in Hnd, Hfresh. destruct (proposed_id e) as [i|] eqn:Ei.
    + apply NoDup_cons in Hnd as [Hni Hnd]. apply IH; [by apply qstep_inv|done|].
      intros j Hj. apply qstep_None; [done..| |apply Hfresh; by right].
      rewrite Ei. intros [= ->]. done.
    + apply IH; [by apply qstep_inv|done|]. intros j Hj. apply qstep_None; [done..| |by apply Hfresh].
      by rewrite Ei.
Qed.
End machine.
