(* ===== verification/Wire.v ===== *)
(** * Wire: a codec to evaluate the stored queue with

    The theorems on the stored queue hold for any codec that reads back what
    it wrote ([QueueCodec]).  This one is concrete: each value as a
    self-delimiting run of bits. *)
From S2P Require Import Prelude GoStd Gate Approvals.
From Stdlib Require Import Ascii.

Class Wire (A : Type) := {
  put : A → list bool → list bool;
  get : list bool → option (A * list bool);
  get_put a k : get (put a k) = Some (a, k);
  put_grows a k : length k < length (put a k)
}.

#[export] Program Instance wire_bool : Wire bool :=
  {| put b k := b :: k; get l := match l with [] => None | b :: k => Some (b, k) end |}.
Next Obligation. done. Qed.
Next Obligation. intros. simpl. lia. Qed.

#[export] Program Instance wire_prod {A B} `{!Wire A, !Wire B} : Wire (A * B) :=
  {| put p k := put p.1 (put p.2 k);
     get l := match get l with
              | Some (a, k) => match get k with Some (b, k') => Some ((a, b), k') | None => None end
              | None => None
              end |}.
Next Obligation. intros A B ?? [a b] k. simpl. by rewrite !get_put. Qed.
Next Obligation.
  intros A B ?? [a b] k. simpl. pose proof (put_grows a (put b k)). pose proof (put_grows b k). lia.
Qed.

(** A list: a bit says whether another element follows. *)
Section wire_list.
Context {A} `{!Wire A}.
Fixpoint put_list (l : list A) (k : list bool) : list bool :=
  match l with [] => false :: k | x :: l' => true :: put x (put_list l' k) end.
Fixpoint get_list (n : nat) (bs : list bool) : option (list A * list bool) :=
  match n, bs with
  | _, false :: k => Some ([], k)
  | S n', true :: k =>
    match get k with
    | Some (x, k') =>
      match get_list n' k' with Some (l, k'') => Some (x :: l, k'') | None => None end
    | None => None
    end
  | _, _ => None
  end.
Lemma put_list_grows l k : length k < length (put_list l k).
Proof.
  induction l as [|x l IH]; simpl; [lia|]. pose proof (put_grows x (put_list l k)). lia.
Qed.
Lemma get_put_list n l k : length l ≤ n → get_list n (put_list l k) = Some (l, k).
Proof.
  revert n. induction l as [|x l IH]; intros [|n]; simpl; intros Hn; try done; [lia|].
  by rewrite get_put, IH by lia.
Qed.
Lemma put_list_length l k : length l ≤ length (put_list l k).
Proof.
  induction l as [|x l IH]; simpl; [lia|]. pose proof (put_grows x (put_list l k)). lia.
Qed.
#[export] Program Instance wire_list : Wire (list A) :=
  {| put := put_list; get bs := get_list (length bs) bs |}.
Next Obligation. intros. simpl. apply get_put_list, put_list_length. Qed.
Next Obligation. intros. apply put_list_grows. Qed.
End wire_list.

(** Through an injection. *)
Definition wire_inj {A B} `{!Wire B} (f : A → B) (g : B → A) (H : ∀ a, g (f a) = a) : Wire A.
Proof.
  refine {| put a k := put (f a) k;
            get l := match get l with Some (b, k) => Some (g b, k) | None => None end |}.
  - intros a k. by rewrite get_put, H.
  - intros a k. apply put_grows.
Defined.

Definition ascii_tuple (c : ascii) : bool * bool * bool * bool * bool * bool * bool * bool :=
  let '(Ascii a b c d e f g h) := c in (a, b, c, d, e, f, g, h).
Definition tuple_ascii (t : bool * bool * bool * bool * bool * bool * bool * bool) : ascii :=
  let '(a, b, c, d, e, f, g, h) := t in Ascii a b c d e f g h.
#[export] Instance wire_ascii : Wire ascii.
Proof. refine (wire_inj ascii_tuple tuple_ascii _). by intros []. Defined.
#[export] Instance wire_string : Wire string :=
  wire_inj String.list_ascii_of_string String.string_of_list_ascii
    String.string_of_list_ascii_of_string.

Fixpoint pos_bits (p : positive) : list bool :=
  match p with xH => [] | xO p => false :: pos_bits p | xI p => true :: pos_bits p end.
Fixpoint bits_pos (l : list bool) : positive :=
  match l with [] => xH | false :: l => xO (bits_pos l) | true :: l => xI (bits_pos l) end.
Lemma bits_pos_bits p : bits_pos (pos_bits p) = p.
Proof. induction p; simpl; congruence. Qed.
Definition Z_tuple (z : Z) : bool * bool * list bool :=
  match z with
  | Z0 => (false, false, [])
  | Zpos p => (true, false, pos_bits p)
  | Zneg p => (true, true, pos_bits p)
  end.
Definition tuple_Z (t : bool * bool * list bool) : Z :=
  match t with
  | (false, _, _) => Z0
  | (true, false, l) => Zpos (bits_pos l)
  | (true, true, l) => Zneg (bits_pos l)
  end.
#[export] Instance wire_Z : Wire Z.
Proof. refine (wire_inj Z_tuple tuple_Z _). intros []; simpl; by rewrite ?bits_pos_bits. Defined.

(** ** Records *)
Definition fix_tuple (f : fixSpec) :=
  (fx_Action f, fx_Namespace f, fx_Name f, fx_Kind f, fx_Target f, fx_From f, fx_To f, fx_Size f,
   fx_Pods f, fx_Container f, fx_CPU f, fx_Job f).
Definition tuple_fix (t : string * string * string * string * string * Z * Z * string
  * list string * string * string * string) : fixSpec :=
  let '(a, b, c, d, e, f, g, h, j, k, l, m) := t in mkFixSpec a b c d e f g h j k l m.
#[export] Instance wire_fix : Wire fixSpec.
Proof. refine (wire_inj fix_tuple tuple_fix _). by intros []. Defined.
Definition record_tuple (r : approvalRecord) :=
  (ar_ID r, ar_Fix r, ar_Summary r, ar_Created r, ar_Expires r, ar_State r, ar_By r, ar_Result r).
Definition tuple_record (t : string * fixSpec * string * Z * Z * string * string * string)
  : approvalRecord := let '(a, b, c, d, e, f, g, h) := t in mkRecord a b c d e f g h.
#[export] Instance wire_record : Wire approvalRecord.
Proof. refine (wire_inj record_tuple tuple_record _). by intros []. Defined.

(** Bits as text. *)
Fixpoint text_of (l : list bool) : string :=
  match l with
  | [] => ""
  | b :: l' => String (if b then "1"%char else "0"%char) (text_of l')
  end.
Fixpoint bits_of (s : string) : list bool :=
  match s with
  | EmptyString => []
  | String c s' => bool_decide (c = "1"%char) :: bits_of s'
  end.
Lemma bits_of_text l : bits_of (text_of l) = l.
Proof. induction l as [|[] l IH]; simpl; by rewrite ?IH. Qed.

Definition enc (recs : list approvalRecord) : option string := Some (text_of (put recs [])).
Definition dec (raw : string) : option (list approvalRecord) := fst <$> get (bits_of raw).
Lemma codec_law recs raw : enc recs = Some raw → dec raw = Some recs ∧ raw ≠ "".
Proof.
  unfold enc. intros Henc. assert (raw = text_of (put recs [])) as -> by congruence.
  unfold dec. rewrite bits_of_text, get_put. split; [done|].
  pose proof (put_grows recs []). by destruct (put recs []); [simpl in *; lia|].
Qed.
Definition wire_codec : QueueCodec :=
  {| json_Marshal := enc; json_Unmarshal := dec; json_roundtrip := codec_law |}.
