(* ===== verification/ApprovalsStore.v ===== *)
(** * ApprovalsStore: the stored queue and [ApproveFix]

    [updateQueue] against the agent's ConfigMap is one atomic step of the
    queue machine of ApprovalsQueue, whatever other controllers do in between
    ([updateQueue_atomic]); and [ApproveFix] runs a change through the gate
    only after its approval has been written. *)
From S2P Require Import Prelude GoStd Policy RateLimit Guards Events Escalation Gate K8s.
From S2P Require Import ScopeSettings Fixes Approvals ApprovalsQueue Wire.
From Stdlib Require Import Ascii.
#[local] Open Scope Z_scope.
#[local] Open Scope agent_scope.

Section store.
Context {C Spec W : Type} `{!ClusterAPI C Spec, !ConfigMapAPI W, !ConfigMapView W,
  !ConfigMapLaws W, !QueueCodec, !RangeOrder}.
Context (env : Env) (others : nat → W → W) (fix_error_text : fix_error → string) (retries : nat).
(** Other controllers obey the API's laws too. *)
Context (Hothers : ∀ n w, later w (others n w)).
Abbreviation Q := (QSys C W).
Implicit Types (s : Q) (w : W).

(** The queue the server holds; [None] when it does not parse. *)
Definition stored_items (ns : string) (w : W) : option (gmap string (pendingApproval C)) :=
  match cm_view w ns ApprovalsConfigMap with
  | None => Some ∅
  | Some (_, d) =>
    let raw := default "" (d !! approvalsKey) in
    if str_eqb raw "" then Some ∅ else items_of fix_error_text <$> json_Unmarshal raw
  end.

(** No call here reaches the workloads, and the server only moves on. *)
Definition moves s s' : Prop :=
  same_cluster (qs_gate s) (qs_gate s') ∧ later (qs_world s) (qs_world s').
#[export] Instance moves_preorder : PreOrder moves.
Proof.
  split; [by split|]. intros s1 s2 s3 [H1 H2] [H3 H4]. split; by etrans.
Qed.
(** What only looks at the memory and the gate's trackers. *)
Definition local_step {A} (m : st Q A) : Prop :=
  ∀ s, same_cluster (qs_gate s) (qs_gate (m s).2) ∧ qs_world (m s).2 = qs_world s.

Lemma api_moves {A} (m : st W A) :
  keeps later m → keeps moves (api (C := C) others m).
Proof.
  intros Hm s. unfold api. specialize (Hm (others (qs_calls s) (qs_world s))).
  destruct (m _) as [a w']. simpl in *. split; [done|]. simpl. etrans; [apply Hothers|done].
Qed.

Lemma loadQueue_spec ns s :
  let r := loadQueue others ns s in
  moves s r.2 ∧ qs_gate r.2 = qs_gate s ∧ qs_items r.2 = qs_items s
  ∧ ∀ recs version, r.1 = inl (recs, version) →
    stored_items ns (qs_world r.2) = Some (items_of fix_error_text recs)
    ∧ match cm_view (qs_world r.2) ns ApprovalsConfigMap with
      | None => version = ""
      | Some (rv, _) => version = rv
      end.
Proof.
  cbv zeta. unfold loadQueue.
  set (w := others (qs_calls s) (qs_world s)).
  apply (bind_spec (λ r, r.2 = mkQSys C W (qs_gate s) (qs_items s) w (S (qs_calls s))
    ∧ r.1 = (cm_Get ns ApprovalsConfigMap w).1)).
  { unfold api. fold w. pose proof (get_pure ns ApprovalsConfigMap w) as Hp.
    destruct (cm_Get _ _ w). simpl in *. by subst. }
  cbn [fst snd]. intros got s1 [-> ->]. cbn [fst snd st_ret qs_gate qs_items qs_world].
  split_and!; [split; [done|apply Hothers]|done|done|].
  pose proof (get_ok ns ApprovalsConfigMap w) as Hok. pose proof (get_missing ns ApprovalsConfigMap w) as Hm.
  unfold stored_items.
  destruct (cm_Get ns ApprovalsConfigMap w).1 as [[v d]|[]]; try done.
  - rewrite (Hok _ eq_refl). intros recs version. destruct (str_eqb v ""); [done|].
    destruct (str_eqb (default "" _) ""); [by intros [= <- <-]|].
    destruct (json_Unmarshal _); [|done]. by intros [= <- <-].
  - rewrite (Hm eq_refl). by intros ?? [= <- <-].
Qed.

(** What one write of the queue's ConfigMap makes of the server [w0]: nobody
    else's write comes in between. *)
Definition one_write ns (w0 w1 : W) : Prop :=
  (∃ data, cm_Create ns ApprovalsConfigMap data w0 = (None, w1))
  ∨ (∃ version changes, cm_Patch ns ApprovalsConfigMap version changes w0 = (None, w1)).
Definition queue_saved ns recs version s {E} (r : option E * Q) : Prop :=
  moves s r.2 ∧ qs_gate r.2 = qs_gate s ∧ qs_items r.2 = qs_items s
  ∧ (r.1 = None → ∃ w0, later (qs_world s) w0
      ∧ match cm_view w0 ns ApprovalsConfigMap with
        | None => version = ""
        | Some (rv, _) => version = rv
        end
      ∧ later w0 (qs_world r.2) ∧ one_write ns w0 (qs_world r.2)
      ∧ stored_items ns (qs_world r.2) = Some (items_of fix_error_text recs)).

Lemma queue_saved_map ns recs version s {E F} (f : E → F) (m : st Q (option E)) :
  queue_saved ns recs version s (m s) →
  queue_saved ns recs version s ((let! err := m in return! (f <$> err)) s).
Proof.
  intros Hm. unfold st_bind. destruct (m s) as [err s']. unfold queue_saved in *.
  cbn in *. destruct Hm as (? & ? & ? & Hs). split_and!; [done..|]. intros He. apply Hs. by destruct err.
Qed.

Lemma stored_items_data ns w rv d raw recs :
  cm_view w ns ApprovalsConfigMap = Some (rv, d) → d !! approvalsKey = Some raw →
  json_Marshal recs = Some raw → stored_items ns w = Some (items_of fix_error_text recs).
Proof.
  intros Hv Hd Hraw. destruct (json_roundtrip _ _ Hraw) as [Hun Hne].
  apply str_eqb_ne in Hne. unfold stored_items. rewrite Hv, Hd. simpl. by rewrite Hne, Hun.
Qed.

Lemma saveQueue_spec ns recs version s :
  queue_saved ns recs version s (saveQueue others ns recs version s).
Proof.
  unfold saveQueue, writeAgentSetting. destruct (json_Marshal recs) as [raw|] eqn:Hraw; [|by split].
  destruct (_ <? _); [by split|]. rewrite bool_decide_false by (by vm_compute; set_solver).
  apply queue_saved_map, queue_saved_map. unfold api. set (w := others (qs_calls s) (qs_world s)).
  destruct (str_eqb version "") eqn:Hver.
  - apply str_eqb_eq in Hver as ->. unfold st_bind.
    pose proof (create_later ns ApprovalsConfigMap {[ approvalsKey := raw ]} w) as [Hl _].
    pose proof (create_law ns ApprovalsConfigMap {[ approvalsKey := raw ]} w) as Hc.
    destruct (cm_Create _ _ _ w) as [err w1] eqn:Hcall.
    unfold queue_saved, st_ret. cbn [fst snd qs_gate qs_items qs_world] in *.
    split_and!; [split; [done|]; cbn; by etrans; [apply Hothers|]|done|done|].
    intros Hn. case_bool_decide; [done|]. subst err. destruct Hc as (Hnone & rv & _ & _ & Hv).
    exists w. rewrite Hnone. split_and!; [apply Hothers|done|done|left; by eexists|].
    eapply stored_items_data; [done| |done]. by rewrite lookup_singleton_eq.
  - pose proof (patch_later ns ApprovalsConfigMap (Some version) {[ approvalsKey := Some raw ]} w) as [Hl _].
    pose proof (patch_law ns ApprovalsConfigMap (Some version) {[ approvalsKey := Some raw ]} w) as Hp.
    destruct (cm_Patch _ _ _ _ w) as [err w1] eqn:Hcall.
    unfold queue_saved, st_ret. cbn [fst snd qs_gate qs_items qs_world] in *.
    split_and!; [split; [done|]; cbn; by etrans; [apply Hothers|]|done|done|].
    intros ->. destruct Hp as (rv0 & d & Hv & [|[= ->]] & rv' & _ & _ & Hv'); [done|].
    exists w. rewrite Hv. split_and!; [apply Hothers|done|done|right; by eexists _, _|].
    eapply stored_items_data; [done| |done]. by rewrite lookup_merge_data, lookup_singleton_eq.
Qed.

(** ** One step, one transition of the stored queue *)

(** What a successful [updateQueue] did: the step ran on the queue the server
    held at a moment [w0] of the call, and the server it leaves is [w0] itself
    (when the step changed nothing), or what one write of the new queue makes
    of [w0], with no write of anybody else in between. *)
Definition atomic_step {A} ns (stp : st Q ((bool * A) + approval_error)) s (a : A) s' : Prop :=
  ∃ s0 changed s1 w0,
    moves s s0 ∧ stp s0 = (inl (changed, a), s1)
    ∧ later (qs_world s) w0 ∧ stored_items ns w0 = Some (qs_items s0)
    ∧ qs_gate s' = qs_gate s1 ∧ qs_items s' = qs_items s1
    ∧ later w0 (qs_world s')
    ∧ if changed
      then one_write ns w0 (qs_world s')
           ∧ stored_items ns (qs_world s')
           = Some (items_of fix_error_text (recordsLocked (qs_items s1)))
      else qs_world s' = w0.

(** A queue read under a version is the queue stored as long as the
    version is. *)
Lemma stored_items_version ns w w' version :
  later w w' →
  match cm_view w ns ApprovalsConfigMap with None => version = "" | Some (rv, _) => version = rv end →
  match cm_view w' ns ApprovalsConfigMap with None => version = "" | Some (rv, _) => version = rv end →
  stored_items ns w' = stored_items ns w.
Proof.
  intros Hl. unfold stored_items. destruct (cm_view w ns _) as [[rv d]|] eqn:E.
  - intros ->. destruct (view_used w _ _ _ _ E) as [Hu Hne].
    destruct (cm_view w' ns _) as [[rv' d']|] eqn:E'; [|done]. intros ->.
    pose proof (later_same _ _ Hl _ _ _ _ E' Hu) as Hs. rewrite E in Hs. by simplify_eq.
  - intros ->. destruct (cm_view w' ns _) as [[rv' d']|] eqn:E'; [|done]. intros <-.
    by destruct (view_used w' _ _ _ _ E').
Qed.

Definition attempt_post {A} ns stp s (r : (A + approval_error) * Q) : Prop :=
  moves s r.2 ∧ ∀ a, r.1 = inl a → atomic_step ns stp s a r.2.

Lemma attempt_spec {A} ns (stp : st Q ((bool * A) + approval_error)) s :
  local_step stp → attempt_post ns stp s (attempt others fix_error_text ns stp s).
Proof.
  intros Hstp. unfold attempt.
  apply (bind_spec (λ r, moves s r.2 ∧ ∀ version, r.1 = inl version →
    stored_items ns (qs_world r.2) = Some (qs_items r.2)
    ∧ match cm_view (qs_world r.2) ns ApprovalsConfigMap with
      | None => version = ""
      | Some (rv, _) => version = rv
      end)).
  { unfold reloadLocked. pose proof (loadQueue_spec ns s) as (Hm & Hg & Hi & Hok). cbv zeta in *.
    unfold st_bind. destruct (loadQueue others ns s) as [[[recs version]|e] s1]; cbn in *.
    - destruct (Hok _ _ eq_refl). split; [done|]. by intros ? [= <-].
    - by split. }
  intros loaded s0 [Hm0 Hload]. cbn [fst snd] in *.
  destruct loaded as [version|e]; [|by split]. destruct (Hload _ eq_refl) as [Hst0 Hver0].
  destruct (Hstp s0) as [Hc1 Hw1]. unfold st_bind. destruct (stp s0) as [r s1] eqn:Hrun. cbn [snd] in *.
  assert (moves s s1) as Hm1.
  { etrans; [exact Hm0|]. split; [done|]. by rewrite Hw1. }
  destruct r as [[[] a]|e]; [|split; [done|]; intros ? [= <-]|by split].
  - unfold get_items. cbn.
    pose proof (saveQueue_spec ns (recordsLocked (qs_items s1)) version s1) as (Hm2 & Hg2 & Hi2 & Hok).
    destruct (saveQueue _ _ _ _ _) as [err s2]. cbn in *. split; [by etrans|].
    destruct err as [e|]; [done|]. intros ? [= <-].
    destruct (Hok eq_refl) as (w0 & Hl0 & Hver & Hl1 & Hone & Hst). exists s0, true, s1, w0.
    rewrite Hw1 in Hl0. split_and!; try done.
    + etrans; [apply Hm0|done].
    + rewrite <-Hst0. by eapply stored_items_version.
  - exists s0, false, s1, (qs_world s0).
    cbn [fst snd st_ret]. rewrite Hw1. split_and!; try done. apply Hm0.
Qed.

Lemma atomic_step_later {A} ns (stp : st Q ((bool * A) + approval_error)) s s1 a s' :
  moves s s1 → atomic_step ns stp s1 a s' → atomic_step ns stp s a s'.
Proof.
  intros Hm (s0 & ch & s2 & w0 & H1 & H2 & H3 & H4). exists s0, ch, s2, w0.
  split; [by etrans|]. split; [done|]. split; [|done]. etrans; [apply Hm|done].
Qed.

Lemma RetryOnConflict_spec {A} n ns (stp : st Q ((bool * A) + approval_error)) s :
  local_step stp →
  attempt_post ns stp s (RetryOnConflict n (attempt others fix_error_text ns stp) s).
Proof.
  intros Hstp. revert s. induction n as [|n IH]; intros s; simpl;
    apply (bind_spec (attempt_post ns stp s) _ _ _ _ (attempt_spec ns stp s Hstp));
    intros r s1 [Hm Hok]; cbn [fst snd] in *.
  - by destruct r.
  - destruct r as [a|e]; [done|]. destruct (IsConflict e); [|by split].
    destruct (IH s1) as [Hm1 Hok1]. split; [by etrans|]. intros a Ha.
    eapply atomic_step_later; eauto.
Qed.

(** C7: Two controllers never overwrite each other's step: whatever the
    others write to the queue between our read and our write, and however
    often a conflict made the step run again, an [updateQueue] that
    succeeds ran its step on the queue the server held at a moment, and
    wrote the outcome onto that very server: what another controller wrote
    was there for the step to see, or comes after our write, and is never
    overwritten.  A step that changed something has stored exactly the queue
    it leaves in memory. *)
Theorem updateQueue_atomic {A} a ns (stp : st Q ((bool * A) + approval_error)) s x s' :
  ap_store a = Some ns → local_step stp →
  updateQueue others fix_error_text retries a stp s = (inl x, s') →
  atomic_step ns stp s x s'.
Proof.
  intros Ha Hstp. unfold updateQueue. rewrite Ha. intros Hr.
  destruct (RetryOnConflict_spec retries ns stp s Hstp) as [_ Hok]. rewrite Hr in Hok. by apply Hok.
Qed.

(** ** Approving *)

Definition filed (q : gmap string (pendingApproval C)) : Prop :=
  ∀ id p, q !! id = Some p → pa_id p = id ∧ fromRecord fix_error_text (toRecord p) = p.

Lemma fromRecord_filed r :
  pa_id (fromRecord fix_error_text r) = ar_ID r
  ∧ fromRecord fix_error_text (toRecord (fromRecord fix_error_text r)) = fromRecord fix_error_text r.
Proof.
  unfold fromRecord. destruct (buildFix (ar_Fix r)) as [m|e] eqn:E; (split; [done|]).
  - destruct (buildFix_built _ _ E) as (Hf & _). unfold toRecord. simpl. rewrite Hf. simpl. by rewrite E.
  - unfold toRecord. simpl. by rewrite E.
Qed.
Lemma items_of_filed recs : filed (items_of fix_error_text recs).
Proof.
  induction recs as [|r recs IH] using rev_ind; [done|]. rewrite items_of_snoc.
  intros id p [[<- <-]|[_ Hp]]%lookup_insert_Some; [apply fromRecord_filed|by apply IH].
Qed.
Lemma stored_items_filed ns w q : stored_items ns w = Some q → filed q.
Proof.
  unfold stored_items. destruct (cm_view w ns _) as [[rv d]|]; [|by intros [= <-]].
  destruct (str_eqb _ ""); [by intros [= <-]|]. destruct (json_Unmarshal _); [|done].
  intros [= <-]. apply items_of_filed.
Qed.

(** The item of [id] was pending, could be applied and had not expired;
    [user] may approve; now it is approved by [user]. *)
Definition approval_taken (a : Approvals) (id user : string) (m : mutation C)
  (q0 q1 : gmap string (pendingApproval C)) : Prop :=
  ∃ p now, q0 !! id = Some p ∧ pending p ∧ time_Before now (pa_expires p) = true
  ∧ pa_broken p = None ∧ pa_m p = m ∧ user ∈ ap_approvers a
  ∧ q1 !! id = Some (set_state p approvalApproved user (pa_result p)).

Lemma maybe_clock (b : bool) s :
  let r := (if b then on_gate (clock env) else st_ret 0) s in
  same_cluster (qs_gate s) (qs_gate r.2) ∧ qs_items r.2 = qs_items s ∧ qs_world r.2 = qs_world s.
Proof. by destruct b. Qed.
Lemma approve_m_spec a id user s changed m s1 :
  approve_m env a id user s = (inl (changed, m), s1) →
  changed = true ∧ approval_taken a id user m (qs_items s) (qs_items s1)
  ∧ (filed (qs_items s) → filed (qs_items s1)).
Proof.
  unfold approve_m, get_items, run_step, set_items, st_bind.
  set (b := _ && _). destruct (maybe_clock b s) as (_ & Hi & _).
  destruct ((if b then on_gate (clock env) else st_ret 0) s) as [now s0]. cbn in Hi |- *. rewrite Hi.
  destruct (approve_step_cases (ap_approvers a) (qs_items s) id user now)
    as [[e Hr]|[[e Hr]|(p & Hp & Pp & Ht & Hu & Hb & Hr)]]; rewrite Hr; cbn; [done..|].
  intros [= <- <- <-]. cbn. split_and!; [done| |].
  - exists p, now. by rewrite lookup_insert_eq.
  - intros Hf i x [[<- <-]|[_ Hx]]%lookup_insert_Some.
    + destruct (Hf _ _ Hp) as [? ?]. split; [done|]. by apply set_state_rebuilt.
    + rewrite lookup_expire in Hx. destruct (qs_items s !! i) as [y|] eqn:Ey; [|done].
      simpl in Hx. simplify_eq. destruct (Hf _ _ Ey). unfold expire_one.
      case_match; [|done]. split; [done|]. by apply set_state_rebuilt.
Qed.

Lemma approve_m_local a id user : local_step (approve_m (W := W) (C := C) env a id user).
Proof.
  intros s. unfold approve_m, get_items, run_step, set_items, st_bind.
  set (b := _ && _). destruct (maybe_clock b s) as (Hc & _ & Hw).
  destruct ((if b then on_gate (clock env) else st_ret 0) s) as [now s0]. by cbn in *.
Qed.
Lemma result_local id r : local_step (run_step (W := W) (result_step (C := C) id r)).
Proof. intros s. unfold run_step, get_items, set_items, st_bind. cbn. done. Qed.

Lemma updateQueue_moves {A} a (stp : st Q ((bool * A) + approval_error)) s :
  local_step stp → moves s (updateQueue others fix_error_text retries a stp s).2.
Proof.
  intros Hstp. unfold updateQueue. destruct (ap_store a) as [ns|].
  - apply (RetryOnConflict_spec retries ns stp s Hstp).
  - unfold st_bind. destruct (Hstp s) as [H1 H2]. destruct (stp s) as [r s1]. cbn in *.
    split; [done|]. by rewrite H2.
Qed.

(** When the gate runs, in state [s2], the approval has been recorded: in
    the store when there is one. *)
Definition approval_recorded (a : Approvals) (id user : string) (m : mutation C) s s2 : Prop :=
  match ap_store a with
  | None => approval_taken a id user m (qs_items s) (qs_items s2)
  | Some ns => ∃ w0 q0 q1,
      later (qs_world s) w0 ∧ stored_items ns w0 = Some q0
      ∧ later w0 (qs_world s2) ∧ stored_items ns (qs_world s2) = Some q1
      ∧ approval_taken a id user m q0 q1
  end.

Lemma approve_recorded a id user s m s2 :
  updateQueue others fix_error_text retries a (approve_m env a id user) s = (inl m, s2) →
  approval_recorded a id user m s s2.
Proof.
  unfold approval_recorded. destruct (ap_store a) as [ns|] eqn:Ha.
  - intros Hu. pose proof (RetryOnConflict_spec retries ns (approve_m env a id user) s
      (approve_m_local a id user)) as [_ Hok].
    unfold updateQueue in Hu. rewrite Ha in Hu. rewrite Hu in Hok.
    destruct (Hok _ eq_refl) as (s0 & ch & s1 & w0 & _ & Hstp & Hl & Hst & _ & Hi & Hl1 & Hst1).
    destruct (approve_m_spec _ _ _ _ _ _ _ Hstp) as (-> & Ht & Hf). destruct Hst1 as [_ Hst1]. cbn [snd] in *.
    exists w0, (qs_items s0), (qs_items s1). split_and!; try done. rewrite Hst1. f_equal.
    apply items_of_recordsLocked; intros i p Hp;
      by apply (Hf (stored_items_filed _ _ _ Hst) _ _ Hp).
  - unfold updateQueue. rewrite Ha. unfold st_bind.
    destruct (approve_m env a id user s) as [[[ch x]|e] s1] eqn:E; cbn; [|done].
    intros [= <- <-]. by destruct (approve_m_spec _ _ _ _ _ _ _ E) as (_ & Ht & _).
Qed.

Definition approve_contract (a : Approvals) (id user : string) s
  (r : (string + approval_error) * Q) : Prop :=
  match r.1 with
  | inr _ => same_cluster (qs_gate s) (qs_gate r.2)
  | inl msg => ∃ m s2,
      same_cluster (qs_gate s) (qs_gate s2)
      ∧ approval_recorded a id user m s s2
      ∧ later (qs_world s2) (qs_world r.2)
      ∧ msg = (applyMutation env (approved_by user m) (qs_gate s2)).1.2
      ∧ same_cluster (applyMutation env (approved_by user m) (qs_gate s2)).2 (qs_gate r.2)
  end.

Lemma ApproveFix_contract a id user s :
  approve_contract a id user s
    (ApproveFix env others fix_error_text retries (Some a) id user s).
Proof.
  unfold ApproveFix. destruct (Enabled (Some a)); cbn [negb]; [|done].
  unfold st_bind at 1.
  pose proof (updateQueue_moves a _ s (approve_m_local a id user)) as Hm.
  destruct (updateQueue _ _ _ a (approve_m env a id user) s) as [[m|e] s2] eqn:Hu; cbn [snd] in Hm.
  - pose proof (approve_recorded _ _ _ _ _ _ Hu) as Hrec.
    apply (bind_spec (λ r, r.1 = (applyMutation env (approved_by user m) (qs_gate s2)).1
      ∧ qs_gate r.2 = (applyMutation env (approved_by user m) (qs_gate s2)).2
      ∧ qs_world r.2 = qs_world s2)).
    { unfold on_gate. by destruct (applyMutation _ _ _). }
    cbn [fst snd]. intros out s3 (-> & Hg & Hw). rewrite bind_tt. exists m, s2.
    unfold recordResult. rewrite bind_tt. cbn [fst snd].
    pose proof (updateQueue_moves a _ s3 (result_local id
      (outcomeNames (applyMutation env (approved_by user m) (qs_gate s2)).1.1))) as [Hc Hl].
    rewrite Hg in Hc. rewrite Hw in Hl. split_and!; try done. apply Hm.
  - destruct Hm as [Hm _]. unfold get_items, st_bind at 1.
    assert (∀ k : st Q unit, keeps (λ s s', same_cluster (qs_gate s) (qs_gate s')) k →
      approve_contract a id user s ((k ;;; return! inr e) s2)) as Hk.
    { intros k Hk. rewrite bind_tt. unfold approve_contract. cbn. etrans; [exact Hm|apply Hk]. }
    assert (∀ k : st Q unit, k = st_ret tt →
      approve_contract a id user s ((k ;;; return! inr e) s2)) as Hnone by (intros k ->; by apply Hk).
    destruct e, (qs_items s2 !! id); try (by apply Hnone).
    apply Hk. intros s'. unfold on_gate.
    pose proof (audit_cluster env (pa_m p) "blocked"
      ("approval refused: " +:+ user +:+ " is not an approver") (qs_gate s')).
    by destruct (audit _ _ _ _ _).
Qed.

(** C5: Nothing is applied without a recorded approval: [ApproveFix]
    either answers an error and has not touched the cluster, or the change
    that it sent through the gate, once, as [user], was the one of a
    pending item that had not expired, [user] is a listed approver, and
    before the gate ran the queue (the stored one, when there is a store)
    held the item as approved by [user]. *)
Theorem ApproveFix_write_ahead a id user s :
  approve_contract a id user s
    (ApproveFix env others fix_error_text retries (Some a) id user s).
Proof. apply ApproveFix_contract. Qed.
End store.

(** ** Witnesses *)
Module QueueDemo.
(** A cluster that counts the calls made on it. *)
#[export] Instance cluster : ClusterAPI Z unit :=
  {| kube_call _ c := (c + 1, None); get_cronjob _ _ _ := inr "not found" |}.
#[export] Existing Instances range_sorted wire_codec SimpleAPI.api SimpleAPI.view SimpleAPI.laws.

Definition env : Env := GateDemo.env Fix.
Definition resume : fixSpec := mkFixSpec "resume_deployment" "shop" "web" "" "" 0 0 "" [] "" "" "".
Definition change : mutation Z := with_fix resume (resumeFix resume).
Definition queue : Approvals := StoreIn "auto-agent" (NewApprovals hour ["slack:U1"]).
Definition no_text (e : fix_error) : string := "unknown fix".
Definition sys : Type := QSys Z SimpleAPI.World.

(** Another controller rewrites the stored queue just before our second
    call, once. *)
Definition others (n : nat) (w : SimpleAPI.World) : SimpleAPI.World :=
  if bool_decide (n = 3%nat) then (cm_Patch "auto-agent" ApprovalsConfigMap None ∅ w).2 else w.
Lemma others_later n w : later w (others n w).
Proof.
  unfold others. case_bool_decide; [|done].
  exact (proj1 (patch_later "auto-agent" ApprovalsConfigMap None ∅ w)).
Qed.
Definition start : sys := mkQSys Z SimpleAPI.World GateDemo.start ∅ (∅, 0%nat) 0.
(** Propose, then approve while the other controller writes. *)
Definition proposed := propose others no_text 4 queue change "paused" GateDemo.now (Some "id1") start.
Definition approved := ApproveFix env others no_text 4 (Some queue) "id1" "slack:U1" proposed.2.
End QueueDemo.
Import QueueDemo.

Lemma empty_queue_inv : queue_inv (C := Z) no_text ∅.
Proof. split; [done|vm_compute; discriminate|done|done]. Qed.
Lemma change_buildable : buildable change.
Proof. by exists resume. Qed.

Definition demo_run : list (qevent (C := Z)) :=
  [QPropose change "paused" 10 (Some "a"); QPropose change "paused" 20 (Some "b");
   QApprove "a" "slack:U1" 30; QApprove "a" "slack:U1" 40; QReload; QApprove "a" "slack:U1" 50].

Lemma queue_invariant_kept_witness :
  let q := foldl (qstep no_text hour {["slack:U1"]}) ∅ demo_run in
  size q = 1%nat ∧ queue_inv no_text q.
Proof.
  intros q. split; [vm_compute; reflexivity|].
  apply (queue_invariant_kept no_text hour {["slack:U1"]} ∅ demo_run).
  - apply empty_queue_inv.
  - repeat constructor; apply change_buildable.
Defined.

Lemma queue_restart_witness :
  let q := {[ "a" := mkPending Z "a" change "paused" 10 20 "approved" "slack:U1" "applied" None ]} in
  items_of no_text (recordsLocked q) = q.
Proof.
  intros q. apply (queue_restart no_text q). subst q. split.
  - intros id p [<- <-]%lookup_singleton_Some. reflexivity.
  - vm_compute. discriminate.
  - intros i j p p' [<- _]%lookup_singleton_Some [<- _]%lookup_singleton_Some. reflexivity.
  - intros id p [<- <-]%lookup_singleton_Some. vm_compute. reflexivity.
Defined.

Lemma approved_at_most_once_witness :
  approvals_of no_text hour {["slack:U1"]} "a" ∅ demo_run = [("slack:U1", 30)]
  ∧ (length (approvals_of no_text hour {["slack:U1"]} "a" ∅ demo_run) ≤ 1)%nat.
Proof.
  split; [vm_compute; reflexivity|].
  apply (approved_at_most_once no_text hour {["slack:U1"]} "a" ∅ demo_run).
  - apply empty_queue_inv.
  - repeat constructor; apply change_buildable.
  - apply (bool_decide_unpack _). vm_compute. exact I.
  - intros i _. reflexivity.
Defined.

(** The approval met a conflict and ran again. *)
Lemma updateQueue_atomic_witness :
  (updateQueue others no_text 4 queue (approve_m env queue "id1" "slack:U1") proposed.2).1
    = inl change
  ∧ atomic_step no_text "auto-agent" (approve_m env queue "id1" "slack:U1") proposed.2 change
      (updateQueue others no_text 4 queue (approve_m env queue "id1" "slack:U1") proposed.2).2.
Proof.
  assert ((updateQueue others no_text 4 queue (approve_m env queue "id1" "slack:U1") proposed.2).1
    = inl change) as Hr by (vm_compute; reflexivity).
  split; [exact Hr|].
  apply (updateQueue_atomic others no_text 4 others_later queue).
  - reflexivity.
  - apply approve_m_local.
  - rewrite <-Hr. apply surjective_pairing.
Defined.

Lemma ApproveFix_write_ahead_witness :
  approved.1 = inl ("_Action_: resumed deployment web." +:+ nl)
  ∧ approve_contract env no_text queue "id1" "slack:U1" proposed.2 approved.
Proof.
  split; [vm_compute; reflexivity|].
  apply (ApproveFix_write_ahead env others no_text 4 others_later queue "id1" "slack:U1" proposed.2).
Defined.
