(* ===== verification/FixTracker.v ===== *)
(** * FixTracker: whether a fix worked, of internal/kube/fixtracker.go

    The tracker of actions taken, and the pass of the leader loop that
    checks each pending one against the cluster.  The code locks the tracker
    for the snapshot, for each record that leaves and for the write back, so
    actions may be recorded in between: the pass is three kinds of step, and
    [ft_step] interleaves them with [RecordAction].  [VerifyFixes] is the
    pass nothing interrupts.  One goroutine, the leader loop, runs it. *)
From S2P Require Import Prelude GoStd Policy RateLimit Guards Events Escalation Gate Kube.
From Stdlib Require Import Ascii.
#[local] Open Scope Z_scope.
#[local] Open Scope agent_scope.

Record FixRecord := mkFixRecord {
  fr_Timestamp : Time; fr_Namespace : string; fr_Workload : string; fr_Pod : string;
  fr_Reason : string; fr_Action : string; fr_Status : string;
  fr_VerifiedAt : Time; fr_Detail : string; fr_HealthySince : Time
}.
Definition fr_settle (status : string) (at_ : Time) (detail : string) (r : FixRecord) : FixRecord :=
  mkFixRecord (fr_Timestamp r) (fr_Namespace r) (fr_Workload r) (fr_Pod r) (fr_Reason r)
    (fr_Action r) status at_ detail (fr_HealthySince r).
Definition fr_since (t : Time) (r : FixRecord) : FixRecord :=
  mkFixRecord (fr_Timestamp r) (fr_Namespace r) (fr_Workload r) (fr_Pod r) (fr_Reason r)
    (fr_Action r) (fr_Status r) (fr_VerifiedAt r) (fr_Detail r) t.

Definition fixSettleAfter : Duration := 30 * second.
Definition fixStableFor : Duration := minute.
Definition fixGiveUpAfter : Duration := 15 * minute.

Record FixTracker := mkTracker {
  ft_pending : list FixRecord; ft_fixed : list FixRecord; ft_failed : list FixRecord;
  ft_maxLen : Z
}.
Definition NewFixTracker (maxLen : Z) : FixTracker :=
  mkTracker [] [] [] (if maxLen <=? 0 then 200 else maxLen).

(** [RecordAction], with the clock reading it takes. *)
Definition RecordAction (now : Time) (ns workload pod reason action : string) (ft : FixTracker)
  : FixTracker :=
  mkTracker (ft_pending ft ++ [mkFixRecord now ns workload pod reason action "pending" 0 "" 0])
    (ft_fixed ft) (ft_failed ft) (ft_maxLen ft).
Definition addFixed (r : FixRecord) (ft : FixTracker) : FixTracker :=
  mkTracker (ft_pending ft) (push_capped (ft_maxLen ft) (ft_fixed ft) r) (ft_failed ft) (ft_maxLen ft).
Definition addFailed (r : FixRecord) (ft : FixTracker) : FixTracker :=
  mkTracker (ft_pending ft) (ft_fixed ft) (push_capped (ft_maxLen ft) (ft_failed ft) r) (ft_maxLen ft).
(** Newest first. *)
Definition Fixed (ft : FixTracker) : list FixRecord := reverse (ft_fixed ft).
Definition Failed (ft : FixTracker) : list FixRecord := reverse (ft_failed ft).
Definition Pending (ft : FixTracker) : list FixRecord := ft_pending ft.

(** ** Is the workload healthy? *)

(** The reads of the API server the check makes. *)
Inductive getError := NotFound | OtherError (e : string).
Class ClusterReader (C : Type) := {
  get_deployment : string → string → C → Deployment + getError;
  list_pods : string → C → list Pod + string
}.

Definition resolveDeploymentName (workload : string) : string :=
  match strings_cut workload "/"%char with
  | None => workload
  | Some (kind, name) =>
    if str_eqb kind "replicaset" then
      match strings_LastIndex name "-"%char with
      | Some idx =>
        let suffix := str_drop (S idx) name in
        if (0 <? idx)%nat && (5 <=? str_len suffix) && (str_len suffix <=? 15)
        then str_take idx name else name
      | None => name
      end
    else name
  end.

Definition deploymentRecovered (d : Deployment) : bool * string :=
  let desired := replicas_of d in
  let detail := "deployment " +:+ d_Name d +:+ ": " +:+ itoa (d_ReadyReplicas d) +:+ "/"
    +:+ itoa desired +:+ " ready, " +:+ itoa (d_UpdatedReplicas d) +:+ " updated" in
  if d_ObservedGeneration d <? d_Generation d
  then (false, detail +:+ ", spec change not yet observed")
  else if d_UpdatedReplicas d <? desired then (false, detail +:+ ", rollout in progress")
  else ((desired <=? d_ReadyReplicas d) && (d_UnavailableReplicas d =? 0), detail).

Definition pod_of_workload (workload : string) (p : Pod) : bool :=
  str_eqb (ownerName p) workload || str_eqb ("pod/" +:+ p_Name p) workload.
Definition pod_ready (p : Pod) : bool :=
  forallb (λ cs, cs_Ready cs && bool_decide (cs_Waiting cs = None)) (p_Statuses p)
  && str_eqb (p_Phase p) "Running".

Definition isWorkloadHealthy {C} `{!ClusterReader C} (ns workload : string) (c : C) : bool * string :=
  match get_deployment ns (resolveDeploymentName workload) c with
  | inl d => deploymentRecovered d
  | inr (OtherError e) => (false, "cannot read deployment: " +:+ e)
  | inr NotFound =>
    match list_pods ns c with
    | inr _ => (false, "")
    | inl pods =>
      let matching := filter (λ p, pod_of_workload workload p = true) pods in
      let n := Z.of_nat (length matching) in
      let ready := Z.of_nat (length (filter (λ p, pod_ready p = true) matching)) in
      if n =? 0 then (false, "no matching pods")
      else if ready =? n then (true, itoa ready +:+ "/" +:+ itoa n +:+ " pods Running+Ready")
      else (false, itoa ready +:+ "/" +:+ itoa n +:+ " pods ready")
    end
  end.

(** ** The pass *)
Section verify.
Context {C : Type} `{!ClusterReader C} (env : Env).
Abbreviation M := (st (FixTracker * GState C)).

Definition healthy_now (r : FixRecord) : M (bool * string) :=
  st_right (λ g, (isWorkloadHealthy (fr_Namespace r) (fr_Workload r) (gs_cluster g), g)).

(** [HealthySince] after a check. *)
Definition note_health (now : Time) (healthy : bool) (r : FixRecord) : FixRecord :=
  if negb healthy then fr_since 0 r
  else if time_IsZero (fr_HealthySince r) then fr_since now r
  else r.

(** The body of the loop: [Some] is appended to [stillPending]. *)
Definition verify_record (r : FixRecord) : M (option FixRecord) :=
  let! now := st_right (clock env) in
  if fixGiveUpAfter <? time_Sub now (fr_Timestamp r) then
    let! at_ := st_right (clock env) in
    let r := fr_settle "not-fixed" at_
      "timed out: workload did not recover within 15 minutes" r in
    st_left (st_modify (addFailed r)) ;;;
    st_right (escalate env "FixNotRecovered" (fr_Namespace r) (fr_Workload r)
      (fr_Action r +:+ " for " +:+ fr_Reason r +:+ " did not bring " +:+ fr_Workload r
       +:+ " back within " +:+ dur_String_seconds fixGiveUpAfter)) ;;;
    return! None
  else if time_Sub now (fr_Timestamp r) <? fixSettleAfter then return! Some r
  else
  let! health := healthy_now r in
  let r := note_health now health.1 r in
  if health.1 && (fixStableFor <=? time_Sub now (fr_HealthySince r)) then
    let! at_ := st_right (clock env) in
    let r := fr_settle "fixed" at_ health.2 r in
    st_left (st_modify (addFixed r)) ;;;
    let! t := st_right (clock env) in
    st_right (recordEvent env (mkEvent 0 0 Action Events.SevInfo (fr_Namespace r) (fr_Workload r)
      "" "" (fr_Reason r)
      ("Fixed: " +:+ fr_Reason r +:+ " " +:+ bytes_of [226; 134; 146]%N +:+ " " +:+ fr_Action r
       +:+ " (verified healthy after "
       +:+ dur_String_seconds (dur_Round_second (time_Sub t (fr_Timestamp r))) +:+ ")")
      "verified-fix" "" "" "" "" "")) ;;;
    return! None
  else return! Some r.

Fixpoint verify_all (todo still : list FixRecord) : M (list FixRecord) :=
  match todo with
  | [] => return! still
  | r :: todo' =>
    let! kept := verify_record r in
    verify_all todo' (still ++ match kept with Some r' => [r'] | None => [] end)
  end.

(** The write back keeps what was recorded after the snapshot of [n]. *)
Definition write_back (n : nat) (still : list FixRecord) (ft : FixTracker) : FixTracker :=
  mkTracker (still ++ drop n (ft_pending ft)) (ft_fixed ft) (ft_failed ft) (ft_maxLen ft).

Definition VerifyFixes : M unit :=
  let! s := st_get in
  let pending := ft_pending s.1 in
  let! still := verify_all pending [] in
  st_left (st_modify (write_back (length pending) still)).
End verify.

(** ** One check of one record *)

(** What a record says of the action; the rest is the checks' outcome. *)
Definition fr_action (r : FixRecord) : Time * string * string * string * string * string :=
  (fr_Timestamp r, fr_Namespace r, fr_Workload r, fr_Pod r, fr_Reason r, fr_Action r).

Section verdicts.
Context {C : Type} `{!ClusterReader C}.
Implicit Types (r : FixRecord) (ft : FixTracker) (g : GState C) (s : FixTracker * GState C).

(** A check: the environment and the state it runs in. *)
Definition check : Type := Env * (FixTracker * GState C).
Definition check_time (c : check) : Time := env_Clock c.1 (gs_tick c.2.2).
Definition gave_up r (c : check) : bool := fixGiveUpAfter <? time_Sub (check_time c) (fr_Timestamp r).
Definition settled r (c : check) : bool :=
  negb (time_Sub (check_time c) (fr_Timestamp r) <? fixSettleAfter).
Definition healthy_at r (c : check) : bool :=
  (isWorkloadHealthy (fr_Namespace r) (fr_Workload r) (gs_cluster c.2.2)).1.

(** The three ways a check of a record ends. *)
Inductive verdict r (c : check) : option FixRecord → FixTracker → Prop :=
| verdict_failed r' :
    gave_up r c = true → fr_action r' = fr_action r → fr_Status r' = "not-fixed" →
    verdict r c None (addFailed r' c.2.1)
| verdict_fixed r' :
    gave_up r c = false → settled r c = true → healthy_at r c = true →
    fixStableFor ≤ time_Sub (check_time c) (fr_HealthySince (note_health (check_time c) true r)) →
    fr_action r' = fr_action r → fr_Status r' = "fixed" →
    verdict r c None (addFixed r' c.2.1)
| verdict_early : gave_up r c = false → settled r c = false → verdict r c (Some r) c.2.1
| verdict_kept :
    gave_up r c = false → settled r c = true →
    (healthy_at r c = true →
     time_Sub (check_time c) (fr_HealthySince (note_health (check_time c) true r)) < fixStableFor) →
    verdict r c (Some (note_health (check_time c) (healthy_at r c) r)) c.2.1.

Lemma note_health_action now h r : fr_action (note_health now h r) = fr_action r.
Proof. unfold note_health. by destruct (negb h), (time_IsZero (fr_HealthySince r)). Qed.

Lemma verify_record_verdict env r s :
  verdict r (env, s) (verify_record env r s).1 (verify_record env r s).2.1.
Proof.
  set (c := (env, s) : check).
  set (P := λ res : option FixRecord * (FixTracker * GState C), verdict r c res.1 res.2.1).
  change (P (verify_record env r s)). unfold verify_record.
  unfold st_bind at 1. unfold st_right at 1, clock at 1.
  change (env_Clock env (gs_tick s.2)) with (check_time c). cbv beta iota.
  destruct (fixGiveUpAfter <? time_Sub (check_time c) (fr_Timestamp r)) eqn:Hg.
  { unfold escalate, when. destruct (env_Escalation env);
      refine (verdict_failed r c (fr_settle "not-fixed" (env_Clock env (S (gs_tick s.2)))
        "timed out: workload did not recover within 15 minutes" r) _ _ _); done. }
  destruct (time_Sub (check_time c) (fr_Timestamp r) <? fixSettleAfter) eqn:Hs.
  { apply verdict_early; [done|]. unfold settled. by rewrite Hs. }
  assert (settled r c = true) as Hset by (unfold settled; by rewrite Hs).
  unfold st_bind at 1, healthy_now, st_right at 1. cbn [fst snd gs_cluster set_tick].
  change (isWorkloadHealthy _ _ (gs_cluster s.2)) with
    (isWorkloadHealthy (fr_Namespace r) (fr_Workload r) (gs_cluster c.2.2)).
  destruct (isWorkloadHealthy _ _ _) as [healthy detail] eqn:Hh. cbn [fst snd].
  assert (healthy_at r c = healthy) as Hat by (unfold healthy_at; by rewrite Hh).
  destruct healthy; cbn [andb]; [destruct (fixStableFor <=? _) eqn:Hst|].
  - assert (fixStableFor ≤ time_Sub (check_time c) (fr_HealthySince (note_health (check_time c) true r)))
      as Hst' by blia.
    pose proof (note_health_action (check_time c) true r) as Ha.
    unfold recordEvent, when. destruct (env_Recorder env);
      refine (verdict_fixed r c (fr_settle "fixed" (env_Clock env (S (gs_tick s.2))) detail (note_health (check_time c) true r)) _ _ _ _ _ _);
      done.
  - rewrite <-Hat. apply verdict_kept; [done..|]. intros _. blia.
  - rewrite <-Hat. apply verdict_kept; [done..|]. by rewrite Hat.
Qed.
End verdicts.

(** ** The pass, interleaved with actions being recorded *)

(** A tracker with the pass it is in (the records to check, those kept, the
    length of the snapshot) and, in ghost, every record ever added and every
    record that left as fixed or not. *)
Record ft_conf := mkConf {
  cf_tracker : FixTracker;
  cf_pass : option (list FixRecord * list FixRecord * nat);
  cf_recorded : list FixRecord; cf_fixed : list FixRecord; cf_failed : list FixRecord
}.

Section steps.
Context {C : Type} `{!ClusterReader C}.

Inductive ft_step : ft_conf → ft_conf → Prop :=
| step_record now ns wl pod reason action ft ps rc fx fl :
    let r := mkFixRecord now ns wl pod reason action "pending" 0 "" 0 in
    ft_step (mkConf ft ps rc fx fl)
            (mkConf (RecordAction now ns wl pod reason action ft) ps (rc ++ [r]) fx fl)
| step_begin ft rc fx fl :
    ft_step (mkConf ft None rc fx fl)
            (mkConf ft (Some (ft_pending ft, [], length (ft_pending ft))) rc fx fl)
| step_keep env g r r' g' ft todo still n rc fx fl :
    verify_record (C := C) env r (ft, g) = (Some r', (ft, g')) →
    ft_step (mkConf ft (Some (r :: todo, still, n)) rc fx fl)
            (mkConf ft (Some (todo, still ++ [r'], n)) rc fx fl)
| step_fixed env g r r' g' ft todo still n rc fx fl :
    verify_record (C := C) env r (ft, g) = (None, (addFixed r' ft, g')) →
    fr_action r' = fr_action r → fr_Status r' = "fixed" →
    ft_step (mkConf ft (Some (r :: todo, still, n)) rc fx fl)
            (mkConf (addFixed r' ft) (Some (todo, still, n)) rc (fx ++ [r']) fl)
| step_failed env g r r' g' ft todo still n rc fx fl :
    verify_record (C := C) env r (ft, g) = (None, (addFailed r' ft, g')) →
    fr_action r' = fr_action r → fr_Status r' = "not-fixed" →
    ft_step (mkConf ft (Some (r :: todo, still, n)) rc fx fl)
            (mkConf (addFailed r' ft) (Some (todo, still, n)) rc fx (fl ++ [r']))
| step_end ft still n rc fx fl :
    ft_step (mkConf ft (Some ([], still, n)) rc fx fl)
            (mkConf (write_back n still ft) None rc fx fl).

(** The records of a configuration that have not left. *)
Definition ft_open (c : ft_conf) : list FixRecord :=
  match cf_pass c with
  | None => ft_pending (cf_tracker c)
  | Some (todo, still, n) => still ++ todo ++ drop n (ft_pending (cf_tracker c))
  end.

Record ft_inv (maxLen : Z) (c : ft_conf) : Prop := {
  fi_maxLen : ft_maxLen (cf_tracker c) = maxLen;
  fi_fixed : ft_fixed (cf_tracker c) = lastn (Z.to_nat maxLen) (cf_fixed c);
  fi_failed : ft_failed (cf_tracker c) = lastn (Z.to_nat maxLen) (cf_failed c);
  fi_snapshot : match cf_pass c with
                | Some (_, _, n) => (n ≤ length (ft_pending (cf_tracker c)))%nat
                | None => True
                end;
  fi_conserved : fr_action <$> cf_recorded c
                 ≡ₚ fr_action <$> (cf_fixed c ++ cf_failed c ++ ft_open c);
  fi_fixed_status : Forall (λ r, fr_Status r = "fixed") (cf_fixed c);
  fi_failed_status : Forall (λ r, fr_Status r = "not-fixed") (cf_failed c)
}.

Definition ft_start (maxLen : Z) : ft_conf := mkConf (NewFixTracker maxLen) None [] [] [].

Lemma NewFixTracker_maxLen n : 0 < ft_maxLen (NewFixTracker n).
Proof. unfold NewFixTracker. simpl. destruct (n <=? 0) eqn:E; blia. Qed.

Lemma ft_inv_start n : ft_inv (ft_maxLen (NewFixTracker n)) (ft_start n).
Proof. by split. Qed.

(** A record that stays keeps its action. *)
Lemma verify_record_kept env r s r' :
  (verify_record (C := C) env r s).1 = Some r' → fr_action r' = fr_action r.
Proof.
  pose proof (verify_record_verdict env r s) as Hv. destruct (verify_record env r s) as [o s'].
  simpl. intros ->. simpl in Hv. inversion Hv; subst; [done|]. apply note_health_action.
Qed.

Lemma ft_inv_step mx c c' : 0 < mx → ft_inv mx c → ft_step c c' → ft_inv mx c'.
Proof.
  intros Hmx [H1 H2 H3 H4 H5 H6 H7] Hs.
  destruct Hs; cbn [cf_tracker cf_pass cf_recorded cf_fixed cf_failed] in *; split;
    cbn [cf_tracker cf_pass cf_recorded cf_fixed cf_failed ft_maxLen ft_fixed ft_failed
      RecordAction addFixed addFailed write_back ft_pending] in *; try done; unfold ft_open in *;
    cbn [cf_tracker cf_pass ft_pending RecordAction addFixed addFailed write_back] in *.
  - destruct ps as [[[todo still] n]|]; [|done]. rewrite length_app. lia.
  - rewrite fmap_app, H5, <-fmap_app. apply fmap_Permutation. rewrite <-!app_assoc.
    destruct ps as [[[todo still] n]|]; [rewrite drop_app_le by done|]; by rewrite <-?app_assoc.
  - rewrite drop_all. by rewrite app_nil_r.
  - rewrite H5, !fmap_app. cbn [fmap list_fmap].
    rewrite (verify_record_kept env r (ft, g) r') by (by rewrite H). by rewrite <-!app_assoc.
  - rewrite H1, H2. by apply push_capped_lastn.
  - rewrite H5, !fmap_app. cbn [fmap list_fmap]. rewrite H0. solve_Permutation.
  - rewrite Forall_app. auto.
  - rewrite H1, H3. by apply push_capped_lastn.
  - rewrite H5, !fmap_app. cbn [fmap list_fmap]. rewrite H0. solve_Permutation.
  - rewrite Forall_app. auto.
Qed.

Lemma ft_inv_reach n c :
  rtc ft_step (ft_start n) c → ft_inv (ft_maxLen (NewFixTracker n)) c.
Proof.
  revert c. apply rtc_ind_r; [apply ft_inv_start|]. intros x y _ Hs Hx.
  eapply ft_inv_step; [apply NewFixTracker_maxLen|exact Hx|exact Hs].
Qed.

(** The loop, record by record. *)
Lemma verify_all_steps env todo still n ft g rc fx fl :
  let r := verify_all env todo still (ft, g) in
  ∃ fx' fl', rtc ft_step (mkConf ft (Some (todo, still, n)) rc fx fl)
                         (mkConf r.2.1 (Some ([], r.1, n)) rc fx' fl').
Proof.
  revert still ft g fx fl. induction todo as [|r todo IH]; intros still ft g fx fl.
  { by exists fx, fl. }
  cbn [verify_all]. unfold st_bind.
  pose proof (verify_record_verdict env r (ft, g)) as Hv.
  destruct (verify_record env r (ft, g)) as [kept [ft' g']] eqn:Hr. cbn [fst snd] in Hv.
  inversion Hv as [r' ? ? ? Hk Hf|r' ? ? ? ? ? ? Hk Hf|? ? Hk Hf|? ? ? Hk Hf];
    cbn [fst snd] in *; subst kept ft'; rewrite ?app_nil_r.
  - destruct (IH still (addFailed r' ft) g' fx (fl ++ [r'])) as (fx' & fl' & Hs).
    exists fx', fl'. eapply rtc_l; [eapply (step_failed env g r r' g'); done|exact Hs].
  - destruct (IH still (addFixed r' ft) g' (fx ++ [r']) fl) as (fx' & fl' & Hs).
    exists fx', fl'. eapply rtc_l; [eapply (step_fixed env g r r' g'); done|exact Hs].
  - destruct (IH (still ++ [r]) ft g' fx fl) as (fx' & fl' & Hs).
    exists fx', fl'. eapply rtc_l; [eapply (step_keep env g r r g'); done|exact Hs].
  - destruct (IH (still ++ [note_health (check_time (env, (ft, g))) (healthy_at r (env, (ft, g))) r])
      ft g' fx fl) as (fx' & fl' & Hs).
    exists fx', fl'. eapply rtc_l; [eapply (step_keep env g r _ g'); done|exact Hs].
Qed.

Lemma VerifyFixes_steps env ft g rc fx fl :
  ∃ fx' fl', rtc ft_step (mkConf ft None rc fx fl)
                         (mkConf (VerifyFixes env (ft, g)).2.1 None rc fx' fl').
Proof.
  destruct (verify_all_steps env (ft_pending ft) [] (length (ft_pending ft)) ft g rc fx fl)
    as (fx' & fl' & Hs).
  exists fx', fl'. eapply rtc_l; [apply step_begin|]. eapply rtc_r; [exact Hs|].
  unfold VerifyFixes, st_bind, st_get. cbn [fst].
  destruct (verify_all env (ft_pending ft) [] (ft, g)) as [still [ft' g']]. apply step_end.
Qed.

(** C28: No action recorded is lost or doubled, whenever it was recorded and
    however often a pass ran: up to what the checks note on it, each is
    either still pending (or in the pass under way) or was moved exactly
    once, to the fixed or to the failed ones; the two logs hold the latest
    of these, as many as their bound.  An uninterrupted [VerifyFixes] is a
    run of these steps. *)
Theorem no_action_lost n c :
  rtc ft_step (ft_start n) c →
  fr_action <$> cf_recorded c ≡ₚ fr_action <$> (cf_fixed c ++ cf_failed c ++ ft_open c)
  ∧ Fixed (cf_tracker c) = reverse (lastn (Z.to_nat (if n <=? 0 then 200 else n)) (cf_fixed c))
  ∧ Failed (cf_tracker c) = reverse (lastn (Z.to_nat (if n <=? 0 then 200 else n)) (cf_failed c))
  ∧ Forall (λ r, fr_Status r = "fixed") (cf_fixed c)
  ∧ Forall (λ r, fr_Status r = "not-fixed") (cf_failed c)
  ∧ (cf_pass c = None → ∀ env g, ∃ fx fl,
       rtc ft_step (ft_start n)
         (mkConf (VerifyFixes env (cf_tracker c, g)).2.1 None (cf_recorded c) fx fl)).
Proof.
  intros Hr. destruct (ft_inv_reach n c Hr) as [_ Hfx Hfl _ Hc Hs1 Hs2].
  split_and!; [done|unfold Fixed; by rewrite Hfx|unfold Failed; by rewrite Hfl|done|done|].
  intros Hp env g. destruct c as [ft ps rc fx fl]. cbn [cf_pass cf_tracker cf_recorded] in *. subst ps.
  destruct (VerifyFixes_steps env ft g rc fx fl) as (fx' & fl' & Hs).
  exists fx', fl'. by etrans.
Qed.
End steps.

(** ** When a record leaves, and as what *)
Section outcome.
Context {C : Type} `{!ClusterReader C}.
Implicit Types (r : FixRecord) (c d e : check (C := C)) (cs : list (check (C := C))).

(** A record carried through checks, as long as each keeps it. *)
Fixpoint carry cs r : option FixRecord :=
  match cs with
  | [] => Some r
  | (env, s) :: cs' =>
    match (verify_record env r s).1 with
    | Some r' => carry cs' r'
    | None => None
    end
  end.

(** Checks that looked at the workload from [c] on all found it healthy. *)
Definition stays_healthy r c cs : Prop :=
  settled r c = true ∧ healthy_at r c = true
  ∧ Forall (λ d, settled r d = true → healthy_at r d = true) cs.
(** A healthy run of [fixStableFor] that ends with the check [c]. *)
Definition stable r cs c : Prop :=
  ∃ pre d post, cs ++ [c] = pre ++ d :: post ∧ stays_healthy r d post
    ∧ fixStableFor ≤ check_time c - check_time d.

Record carried r0 cs r : Prop := {
  ca_action : fr_action r = fr_action r0;
  ca_since : if time_IsZero (fr_HealthySince r)
    then ∀ pre d post, cs = pre ++ d :: post → ¬ stays_healthy r0 d post
    else (∃ pre d post, cs = pre ++ d :: post ∧ stays_healthy r0 d post
           ∧ check_time d = fr_HealthySince r)
         ∧ ∀ pre d post, cs = pre ++ d :: post → stays_healthy r0 d post →
             fr_HealthySince r ≤ check_time d
}.

Lemma stays_healthy_snoc r d post c :
  stays_healthy r d (post ++ [c])
  ↔ stays_healthy r d post ∧ (settled r c = true → healthy_at r c = true).
Proof. unfold stays_healthy. rewrite Forall_app, Forall_singleton. tauto. Qed.

(** The runs of [cs ++ [c]]: the one that is just [c], and those of [cs]
    that [c] continues. *)
Lemma split_snoc (P : check (C := C) → list check → Prop) cs c :
  (∀ pre d post, cs ++ [c] = pre ++ d :: post → P d post)
  ↔ P c [] ∧ ∀ pre d post, cs = pre ++ d :: post → P d (post ++ [c]).
Proof.
  split.
  - intros H. split; [by apply (H cs)|]. intros pre d post ->. apply (H pre). by rewrite <-app_assoc.
  - intros [H1 H2] pre d post. destruct post as [|e post _] using rev_ind.
    + intros [-> ->]%app_inj_tail. done.
    + rewrite app_comm_cons, app_assoc. intros [-> ->]%app_inj_tail. by apply (H2 pre).
Qed.

(** The facts of a check depend on the action only. *)
Lemma facts_of_action r r' c :
  fr_action r = fr_action r' →
  gave_up r c = gave_up r' c ∧ settled r c = settled r' c ∧ healthy_at r c = healthy_at r' c.
Proof. unfold fr_action, gave_up, settled, healthy_at. intros [= -> -> -> _ _ _]. done. Qed.

Lemma carried_step r0 cs r c r' :
  Forall (λ d, check_time d ≤ check_time c) cs → check_time c ≠ 0 →
  carried r0 cs r → (verify_record c.1 r c.2).1 = Some r' → carried r0 (cs ++ [c]) r'.
Proof.
  intros Hle Hnz [Ha Hs] Hv. pose proof (verify_record_verdict c.1 r c.2) as V.
  destruct (facts_of_action r r0 c Ha) as (_ & Hset & Hh).
  rewrite <-surjective_pairing in V. destruct (verify_record c.1 r c.2) as [o s']. cbn [fst snd] in *.
  subst o. inversion V as [| |? Ht Hr Hf|? Ht Hk Hr Hf]; subst; clear V Hf.
  - (* not looked at *)
    rewrite Hset in Ht. split; [done|]. destruct (time_IsZero _).
    + apply split_snoc. split; [unfold stays_healthy; rewrite Ht; by intros []|].
      intros pre d post Hcs. rewrite stays_healthy_snoc. intros []. by eapply Hs.
    + destruct Hs as [(pre & d & post & -> & Hd & Ht') Hmin]. split.
      * exists pre, d, (post ++ [c]). rewrite <-app_assoc, stays_healthy_snoc. split_and!; [done|done| |done].
        by rewrite Ht.
      * apply (split_snoc (λ e l, stays_healthy r0 e l → fr_HealthySince r' ≤ check_time e)). split.
        { unfold stays_healthy. rewrite Ht. by intros []. }
        intros pre' d' post' Hcs. rewrite stays_healthy_snoc. intros []. by eapply Hmin.
  - rewrite Hset in Ht. split; [by rewrite note_health_action|].
    unfold note_health. rewrite Hh. destruct (healthy_at r0 c) eqn:Hc; cbn [negb].
    + destruct (time_IsZero (fr_HealthySince r)) eqn:Hz.
      * assert (time_IsZero (check_time c) = false) as Hcz by (unfold time_IsZero; by apply Z.eqb_neq).
        cbn [fr_HealthySince fr_since]. rewrite Hcz. split.
        { exists cs, c, []. by split_and!. }
        apply (split_snoc (λ e l, stays_healthy r0 e l → check_time c ≤ check_time e)).
        split; [lia|]. intros pre d post Hcs. rewrite stays_healthy_snoc. intros [].
        exfalso. by eapply Hs.
      * rewrite Hz. destruct Hs as [(pre & d & post & -> & Hd & Ht') Hmin]. split.
        { exists pre, d, (post ++ [c]). rewrite <-app_assoc, stays_healthy_snoc. by split_and!. }
        apply (split_snoc (λ e l, stays_healthy r0 e l → fr_HealthySince r ≤ check_time e)). split.
        { intros _. rewrite <-Ht'. rewrite Forall_app, Forall_cons in Hle. by destruct Hle as (_ & ? & _). }
        intros pre' d' post' Hcs. rewrite stays_healthy_snoc. intros []. by eapply Hmin.
    + cbn. apply split_snoc. split; [unfold stays_healthy; rewrite Hc; by intros (_ & ? & _)|].
      intros pre d post _. rewrite stays_healthy_snoc, Ht, Hc. intros [_ Hx].
      by specialize (Hx eq_refl).
Qed.

Lemma carry_carried r cs r' :
  fr_HealthySince r = 0 → Forall (λ d, 0 < check_time d) cs →
  StronglySorted (λ d e, check_time d ≤ check_time e) cs →
  carry cs r = Some r' → carried r cs r'.
Proof.
  intros Hz Hpos Hsort. revert r'. induction cs as [|c cs IH] using rev_ind; intros r' Hc.
  { simplify_eq/=. split; [done|]. rewrite Hz. cbn. by intros [|] ? ?. }
  apply Forall_app in Hpos as [Hpos Hc0]. apply StronglySorted_app in Hsort as (Hle & Hsort & _).
  assert (∃ x, carry cs r = Some x ∧ (verify_record c.1 x c.2).1 = Some r') as (x & Hx & Hv).
  { clear -Hc. revert r Hc. induction cs as [|[env s] cs IH]; intros r; cbn [carry app].
    - destruct c as [env s]. intros H. exists r. split; [done|]. cbn [fst snd]. by destruct (verify_record env r s).1.
    - destruct (verify_record env r s).1; [apply IH|done]. }
  apply (carried_step r cs x c r'); [| |by apply IH|done].
  - apply Forall_forall. intros d Hd. apply Hle; [done|]. by left.
  - rewrite Forall_singleton in Hc0. lia.
Qed.

(** A later check is settled too. *)
Lemma settled_mono r c d : settled r d = true → check_time d ≤ check_time c → settled r c = true.
Proof. unfold settled. rewrite !time_Sub_lt by (unfold fixSettleAfter, second, max_int64; lia). lia. Qed.

Lemma verify_fixed_iff r cs r' c :
  carried r cs r' → 0 < check_time c → Forall (λ d, check_time d ≤ check_time c) cs →
  stable r cs c ↔
  settled r' c = true ∧ healthy_at r' c = true
  ∧ fixStableFor ≤ time_Sub (check_time c) (fr_HealthySince (note_health (check_time c) true r')).
Proof.
  intros [Ha Hs] Hpos Hle. destruct (facts_of_action r' r c Ha) as (_ & -> & ->).
  assert (∀ t, fixStableFor ≤ time_Sub (check_time c) t ↔ fixStableFor ≤ check_time c - t) as Hsub.
  { intros t. pose proof (time_Sub_ge (check_time c) t fixStableFor) as H.
    unfold fixStableFor, minute, second, max_int64 in *. specialize (H ltac:(lia)). lia. }
  rewrite Hsub. unfold note_health. cbn [negb]. split.
  - intros (pre & d & post & Hcs & Hd & Hst). destruct post as [|e post _] using rev_ind.
    { apply app_inj_tail in Hcs as [-> ->]. unfold fixStableFor, minute, second in *. lia. }
    rewrite app_comm_cons, app_assoc in Hcs. apply app_inj_tail in Hcs as [Hcs <-].
    rewrite stays_healthy_snoc in Hd. destruct Hd as [Hd Hc].
    assert (settled r c = true) as Hset.
    { apply (settled_mono r c d); [apply Hd|]. rewrite Hcs, Forall_app, Forall_cons in Hle. by destruct Hle as (_ & ? & _). }
    split_and!; [done|by apply Hc|]. destruct (time_IsZero (fr_HealthySince r')).
    + by edestruct Hs.
    + destruct Hs as [_ Hmin]. specialize (Hmin _ _ _ Hcs Hd). lia.
  - intros (Hset & Hh & Hst). destruct (time_IsZero (fr_HealthySince r')).
    + cbn in Hst. unfold fixStableFor, minute, second in *. lia.
    + destruct Hs as [(pre & d & post & -> & Hd & Ht) _].
      exists pre, d, (post ++ [c]). rewrite <-app_assoc, stays_healthy_snoc. split_and!; [done..|].
      by rewrite Ht.
Qed.

(** C27: The verdict on a recorded action, after any earlier checks that kept it,
    at increasing times: more than fifteen minutes after the action it is
    moved to the failed ones; before that it is moved to the fixed ones
    exactly when the checks show the workload healthy for a whole minute up
    to this one (no check in between found it unhealthy, and none within
    thirty seconds of the action counts); otherwise it stays. *)
Theorem fix_verdict r cs r' c :
  fr_HealthySince r = 0 → Forall (λ d, 0 < check_time d) (cs ++ [c]) →
  StronglySorted (λ d e, check_time d ≤ check_time e) (cs ++ [c]) →
  carry cs r = Some r' →
  let res := verify_record c.1 r' c.2 in
  if decide (fixGiveUpAfter < check_time c - fr_Timestamp r)
  then res.1 = None ∧ ∃ x, res.2.1 = addFailed x c.2.1 ∧ fr_action x = fr_action r
         ∧ fr_Status x = "not-fixed"
  else (stable r cs c → res.1 = None ∧ ∃ x, res.2.1 = addFixed x c.2.1
         ∧ fr_action x = fr_action r ∧ fr_Status x = "fixed")
       ∧ (¬ stable r cs c → is_Some res.1 ∧ res.2.1 = c.2.1).
Proof.
  intros Hz Hpos Hsort Hc. cbv zeta. apply Forall_app in Hpos as [Hpos Hc0].
  rewrite Forall_singleton in Hc0. apply StronglySorted_app in Hsort as (Hle & Hsort & _).
  pose proof (carry_carried r cs r' Hz Hpos Hsort Hc) as Hca.
  assert (Forall (λ d, check_time d ≤ check_time c) cs) as Hle'
    by (apply Forall_forall; intros d Hd; apply Hle; [done|by left]).
  pose proof (verify_fixed_iff r cs r' c Hca Hc0 Hle') as Hst. destruct Hca as [Ha _].
  destruct (facts_of_action r' r c Ha) as (Hg & _ & _).
  assert (gave_up r c = bool_decide (fixGiveUpAfter < check_time c - fr_Timestamp r)) as Hgu.
  { unfold gave_up, time_Sub, min_int64, max_int64, fixGiveUpAfter, minute, second.
    case_bool_decide; blia. }
  pose proof (verify_record_verdict c.1 r' c.2) as V. rewrite <-surjective_pairing in V.
  destruct (verify_record c.1 r' c.2) as [o s']. cbn [fst snd] in *.
  destruct (decide _) as [Hlt|Hlt].
  - rewrite bool_decide_true in Hgu by done. rewrite <-Hg in Hgu.
    inversion V; subst; try congruence. split; [done|]. eexists. split_and!; [done|congruence|done].
  - rewrite bool_decide_false in Hgu by done. rewrite <-Hg in Hgu.
    inversion V as [|x ? Ht Hh Hf ? ? Hk|? Ht Hk|? Ht Hf Hk]; subst; try congruence.
    + split; [|intros []; by apply Hst]. intros _. split; [done|]. eexists. split_and!; [done|congruence|done].
    + split; [|by split]. intros (? & _)%Hst. congruence.
    + split; [|by split]. intros (_ & H1 & H2)%Hst. specialize (Hf H1). lia.
Qed.
End outcome.

(** ** Which Deployment is checked *)

(** The workload name an action is recorded under leads back to the
    Deployment: for a pod of the ReplicaSet [d-hash], whether or not the pod
    carries the hash as a label, [ownerName] and then
    [resolveDeploymentName] give [d]. *)
Theorem resolve_finds_the_deployment p o os d hash :
  filter (λ o, is_controller o = true) (p_Owners p) = o :: os →
  ow_Kind o = "ReplicaSet" → ow_Name o = d +:+ String "-" hash →
  d ≠ "" → no_byte "-"%char hash → 5 ≤ str_len hash ≤ 15 →
  p_Labels p !! "pod-template-hash" = Some hash ∨ p_Labels p !! "pod-template-hash" = None →
  resolveDeploymentName (ownerName p) = d.
Proof.
  intros Ho Hk Hn Hd Hh Hlen Hlab. unfold ownerName. rewrite Ho, Hk, Hn. cbn [str_eqb].
  rewrite str_eqb_refl. unfold rs_deployment. destruct Hlab as [-> | ->]; cbn [from_option id].
  - assert (str_eqb hash "" = false) as ->
      by (apply str_eqb_ne; intros ->; by destruct Hlen as [[] _]).
    change ("-" +:+ hash) with (String "-" hash).
    rewrite strings_HasSuffix_app, strings_TrimSuffix_app. reflexivity.
  - change (negb (str_eqb "" "") && _) with false. cbv iota.
    unfold resolveDeploymentName.
    change (strings_cut (_ +:+ "/" +:+ ?x) "/"%char) with (Some ("replicaset", x)). cbv iota beta.
    rewrite str_eqb_refl, strings_LastIndex_app by done.
    assert (str_drop (S (String.length d)) (d +:+ String "-" hash) = hash) as ->.
    { pose proof (str_drop_app (d +:+ "-") hash) as H. rewrite str_length_app, str_app_assoc in H.
      by rewrite Nat.add_comm in H. }
    rewrite str_take_app.
    assert ((0 <? String.length d)%nat = true) as -> by (by destruct d).
    assert ((5 <=? str_len hash) = true) as -> by blia.
    assert ((str_len hash <=? 15) = true) as -> by blia. done.
Qed.

(** ** Witnesses *)
Module FixDemo.
Definition web : Deployment :=
  mkDeployment "shop" "web" ∅ 0 2 (Some 3) None [] 2 3 3 3 0 [].
(** A cluster of one Deployment, rolled out or one replica short. *)
#[local] Instance reader : ClusterReader bool := {
  get_deployment ns name up :=
    if str_eqb ns "shop" && str_eqb name "web"
    then inl (if up : bool then web else mkDeployment "shop" "web" ∅ 0 2 (Some 3) None [] 2 3 2 2 1 [])
    else inr NotFound;
  list_pods _ _ := inl []
}.
Definition t0 : Time := 1000 * hour.
Definition env (t : Time) : Env := mkEnv (GateDemo.policy_in Fix) (λ _, t) None None true true true true "n".
Definition world (up : bool) : GState bool := mkGState bool 0 None None None None None None None up [].
Definition acted : FixTracker :=
  RecordAction t0 "shop" "replicaset/web-8446f784fd" "web-0" "CrashLoopBackOff" "delete_pod" (NewFixTracker 10).
Definition rec : FixRecord :=
  mkFixRecord t0 "shop" "replicaset/web-8446f784fd" "web-0" "CrashLoopBackOff" "delete_pod" "pending" 0 "" 0.
(** The passes at one and three minutes, with the cluster they see. *)
Definition pass (minutes : Z) (up : bool) (ft : FixTracker) : FixTracker :=
  (VerifyFixes (env (t0 + minutes * minute)) (ft, world up)).2.1.
Definition check_at (minutes : Z) (up : bool) : check (C := bool) :=
  (env (t0 + minutes * minute), (acted, world up)).
Definition pod (labels : gmap string string) : Pod :=
  mkPod "shop" "web-8446f784fd-x2v9q" "u" labels ∅ [mkOwner "ReplicaSet" "web-8446f784fd" (Some true)]
    0 None [] "n" "" None None [] [] [] "Running" "" "" [] [] [].
End FixDemo.

Lemma no_action_lost_witness :
  let ft := FixDemo.pass 3 true (FixDemo.pass 1 true FixDemo.acted) in
  let down := FixDemo.pass 16 false FixDemo.acted in
  fr_Status <$> ft_fixed ft = ["fixed"] ∧ fr_Status <$> ft_failed down = ["not-fixed"]
  ∧ ∃ c, cf_tracker c = FixDemo.acted
    ∧ fr_action <$> cf_recorded c ≡ₚ fr_action <$> (cf_fixed c ++ cf_failed c ++ ft_open c).
Proof.
  intros ft down. split; [vm_compute; reflexivity|]. split; [vm_compute; reflexivity|].
  exists (mkConf FixDemo.acted None [FixDemo.rec] [] []). split; [done|].
  apply (no_action_lost (C := bool) (ClusterReader0 := FixDemo.reader) 10
    (mkConf FixDemo.acted None [FixDemo.rec] [] [])).
  apply rtc_once, (step_record FixDemo.t0 "shop" "replicaset/web-8446f784fd" "web-0" "CrashLoopBackOff"
    "delete_pod" (NewFixTracker 10) None [] [] []).
Defined.

Lemma fix_verdict_witness :
  let kept := carry (ClusterReader0 := FixDemo.reader) [FixDemo.check_at 1 true] FixDemo.rec in
  kept = Some (note_health (FixDemo.t0 + 1 * minute) true FixDemo.rec)
  ∧ ∃ r', kept = Some r' ∧ (verify_record (ClusterReader0 := FixDemo.reader) (FixDemo.check_at 2 true).1 r'
             (FixDemo.check_at 2 true).2).1 = None.
Proof.
  intros kept. split; [vm_compute; reflexivity|].
  exists (note_health (FixDemo.t0 + 1 * minute) true FixDemo.rec). split; [vm_compute; reflexivity|].
  pose proof (fix_verdict (ClusterReader0 := FixDemo.reader) FixDemo.rec [FixDemo.check_at 1 true]
    (note_health (FixDemo.t0 + 1 * minute) true FixDemo.rec) (FixDemo.check_at 2 true)) as H.
  cbv zeta in H. rewrite decide_False in H by (vm_compute; by intros).
  refine (proj1 (proj1 (H _ _ _ _) _)).
  - reflexivity.
  - apply Forall_cons; split; [vm_compute; reflexivity|]. apply Forall_cons; split; [vm_compute; reflexivity|done].
  - repeat constructor; vm_compute; by intros.
  - vm_compute. reflexivity.
  - exists [], (FixDemo.check_at 1 true), [FixDemo.check_at 2 true]. split; [done|]. split.
    + split; [vm_compute; reflexivity|]. split; [vm_compute; reflexivity|].
      apply Forall_cons; split; [intros _; vm_compute; reflexivity|done].
    + vm_compute. by intros.
Defined.

Lemma resolve_finds_the_deployment_witness :
  ownerName (FixDemo.pod {[ "pod-template-hash" := "8446f784fd" ]}) = "deployment/web"
  ∧ ownerName (FixDemo.pod ∅) = "replicaset/web-8446f784fd"
  ∧ resolveDeploymentName (ownerName (FixDemo.pod ∅)) = "web".
Proof.
  split; [vm_compute; reflexivity|]. split; [vm_compute; reflexivity|].
  apply (resolve_finds_the_deployment (FixDemo.pod ∅) (mkOwner "ReplicaSet" "web-8446f784fd" (Some true))
    [] "web" "8446f784fd"); try reflexivity; [done|by vm_compute|right; reflexivity].
Defined.

(** A StatefulSet that shares its name with a Deployment of the namespace is
    judged by the Deployment: the pods of [statefulset/web] are never
    looked at. *)
Example statefulset_judged_by_deployment pods :
  let reader : ClusterReader unit := {|
    get_deployment _ name _ := if str_eqb name "web" then inl FixDemo.web else inr NotFound;
    list_pods _ _ := inl pods |} in
  (isWorkloadHealthy "shop" "statefulset/web" ()).1 = true.
Proof. reflexivity. Qed.
