(* ===== verification/Learning.v ===== *)
(** * Learning: the learned CPU baselines of internal/kube/learning.go

    [LearningMode] with its file, and the scale-up threshold it gives the
    scaler.  The map of baselines may be nil, and a baseline a nil pointer,
    after a file that says [null]: then a write panics ([None]).  CPU ratios
    are binary64 numbers.  The file system is a parameter: what a read finds
    and whether the two writes succeed. *)
From S2P Require Import Prelude GoStd.
From Stdlib Require Import Ascii SpecFloat.
#[local] Open Scope Z_scope.

Definition minLearnedSamples : Z := 50.
Definition learnedThresholdMin : float64 := Eval vm_compute in f64_const 5 1.
Definition learnedThresholdMax : float64 := Eval vm_compute in f64_const 95 2.

Record WorkloadBaseline := mkBaseline {
  wb_Workload : string; wb_Namespace : string; wb_FirstSeen : Time; wb_SampleCount : Z;
  wb_CPUSamples : list float64; wb_AvgCPU : float64; wb_StdDevCPU : float64;
  wb_CPUHighThreshold : float64; wb_CPULowThreshold : float64
}.
Abbreviation Baselines := (gmap string (option WorkloadBaseline)) (only parsing).
Record LearningMode := mkLearning {
  lm_baselines : option Baselines; lm_period : Duration; lm_startTime : Time;
  lm_savePath : string
}.

(** ** The file: its fields without the samples ([json:"-"]). *)
Inductive file_read := FileMissing | FileUnreadable | FileBad | FileData (d : option Baselines).

Definition load (f : file_read) (lm : LearningMode) : LearningMode :=
  match f with
  | FileData d => mkLearning d (lm_period lm) (lm_startTime lm) (lm_savePath lm)
  | _ => lm
  end.
Definition NewLearningMode (now : Time) (savePath : string) (period : Duration) (f : file_read)
  : LearningMode :=
  load f (mkLearning (Some ∅) (if period <=? 0 then 14 * 24 * hour else period) now
    (if str_eqb savePath "" then "/var/log/auto-agent/baselines.json" else savePath)).
Definition IsLearning (now : Time) (lm : LearningMode) : bool :=
  time_Sub now (lm_startTime lm) <? lm_period lm.

(** ** A sample *)
Definition f64_of_nat (n : nat) : float64 := f64_of_Z (Z.of_nat n).
Definition mean (vals : list float64) : float64 :=
  match vals with
  | [] => f64_zero
  | _ => f64_div (foldl f64_add f64_zero vals) (f64_of_nat (length vals))
  end.
Definition stddev (vals : list float64) (avg : float64) : float64 :=
  if (length vals <? 2)%nat then f64_zero
  else f64_sqrt (f64_div
    (foldl (λ sumSq v, f64_add sumSq (f64_mul (f64_sub v avg) (f64_sub v avg))) f64_zero vals)
    (f64_of_nat (length vals - 1))).
Definition maxSamples : nat := 1000.
Definition two : float64 := Eval vm_compute in f64_of_Z 2.
Definition one_and_half : float64 := Eval vm_compute in f64_const 15 1.

(** The fields [RecordCPU] sets. *)
Definition add_sample (cpu : float64) (bl : WorkloadBaseline) : WorkloadBaseline :=
  let samples := wb_CPUSamples bl ++ [cpu] in
  let samples := if (maxSamples <? length samples)%nat
                 then drop (length samples - maxSamples) samples else samples in
  let avg := mean samples in
  let sd := stddev samples avg in
  mkBaseline (wb_Workload bl) (wb_Namespace bl) (wb_FirstSeen bl) (wb_SampleCount bl + 1) samples
    avg sd (f64_add avg (f64_mul two sd))
    (math_Max f64_zero (f64_sub avg (f64_mul one_and_half sd))).
Definition new_baseline (now : Time) (ns workload : string) : WorkloadBaseline :=
  mkBaseline workload ns now 0 [] f64_zero f64_zero f64_zero f64_zero.
Definition baseline_key (ns workload : string) : string := ns +:+ String "/"%char workload.

Definition RecordCPU (now : Time) (ns workload : string) (cpu : float64) (lm : LearningMode)
  : option LearningMode :=
  let key := baseline_key ns workload in
  let put (m : Baselines) bl :=
    mkLearning (Some (<[key := Some (add_sample cpu bl)]> m)) (lm_period lm) (lm_startTime lm)
      (lm_savePath lm) in
  match lm_baselines lm with
  | None => None (* assignment to an entry in a nil map *)
  | Some m =>
    match m !! key with
    | Some (Some bl) => Some (put m bl)
    | _ => Some (put m (new_baseline now ns workload))
    end
  end.

Definition GetBaseline (ns workload : string) (lm : LearningMode) : option WorkloadBaseline :=
  match lm_baselines lm with
  | None => None
  | Some m => match m !! baseline_key ns workload with Some bl => bl | None => None end
  end.

Definition without_samples (bl : WorkloadBaseline) : WorkloadBaseline :=
  mkBaseline (wb_Workload bl) (wb_Namespace bl) (wb_FirstSeen bl) (wb_SampleCount bl) []
    (wb_AvgCPU bl) (wb_StdDevCPU bl) (wb_CPUHighThreshold bl) (wb_CPULowThreshold bl).
(** A nil baseline is dereferenced: [None] is the panic. *)
Definition AllBaselines (lm : LearningMode) : option (gmap string WorkloadBaseline) :=
  let m := default ∅ (lm_baselines lm) in
  if bool_decide (map_Forall (λ _ bl, is_Some bl) m)
  then Some (omap (λ bl, without_samples <$> bl) m) else None.

(** [encoding/json] writes no NaN and no infinity: the whole encoding fails
    and the file stays as it was ([None]).  A nil map is written as an empty
    one, a nil baseline as [null]. *)
Definition f64_json_ok (f : float64) : bool := negb (f64_is_nan f) && negb (f64_is_inf f).
Definition json_ok (bl : option WorkloadBaseline) : bool :=
  match bl with
  | None => true
  | Some bl => f64_json_ok (wb_AvgCPU bl) && f64_json_ok (wb_StdDevCPU bl)
               && f64_json_ok (wb_CPUHighThreshold bl) && f64_json_ok (wb_CPULowThreshold bl)
  end.
Definition Save (mkdir_ok write_ok : bool) (lm : LearningMode) : option file_read :=
  let data := default ∅ (lm_baselines lm) in
  if bool_decide (map_Forall (λ _ bl, json_ok bl = true) data) && mkdir_ok && write_ok
  then Some (FileData (Some (option_map without_samples <$> data))) else None.

(** ** The threshold *)
Definition scaleUpThreshold (lm : option LearningMode) (ns name : string) (global : float64)
  : float64 * string :=
  match lm with
  | None => (global, "global")
  | Some lm =>
    match GetBaseline ns name lm with
    | None => (global, "global")
    | Some bl =>
      if (wb_SampleCount bl <? minLearnedSamples) || f64_leb (wb_CPUHighThreshold bl) f64_zero
      then (global, "global")
      else (math_Min (math_Max (wb_CPUHighThreshold bl) learnedThresholdMin) learnedThresholdMax,
            "learned")
    end
  end.

(** ** Theorems *)

Lemma f64_ltb_leb a b : f64_ltb a b = true → f64_leb a b = true.
Proof. unfold f64_ltb, f64_leb, SFltb, SFleb. by destruct (SFcompare a b) as [[]|]. Qed.

(** Clamping a number that is not NaN. *)
Lemma clamp_bounds x :
  f64_is_nan x = false →
  let t := math_Min (math_Max x learnedThresholdMin) learnedThresholdMax in
  f64_leb learnedThresholdMin t = true ∧ f64_leb t learnedThresholdMax = true.
Proof.
  intros Hx t.
  assert (math_Max x learnedThresholdMin = S754_infinity false
    ∨ math_Max x learnedThresholdMin = learnedThresholdMin
    ∨ math_Max x learnedThresholdMin = x ∧ (∃ s m e, x = S754_finite s m e)
        ∧ f64_ltb learnedThresholdMin x = true) as H.
  { destruct x as [sx|[]| |sx m e]; try done; [right; left; by destruct sx|right; by left|by left|].
    right. unfold math_Max. cbn [learnedThresholdMin]. destruct (f64_ltb _ _) eqn:E; [right|by left].
    split_and!; [done|by eexists _, _, _|done]. }
  subst t. destruct H as [-> |[-> |(-> & (s & m & e & ->) & Hlt)]]; [by vm_compute|by vm_compute|].
  unfold math_Min. cbn [learnedThresholdMax].
  destruct (f64_ltb (S754_finite s m e) _) eqn:E; [|by vm_compute].
  split; by apply f64_ltb_leb.
Qed.

(** The threshold of a scale-up is the operator's setting or, once learned,
    lies between one half and 0.95, unless the learned one is not a
    number. *)
Theorem learned_threshold_bounded lm ns name global t src :
  scaleUpThreshold lm ns name global = (t, src) →
  (src = "global" ∧ t = global)
  ∨ src = "learned" ∧ ∃ l bl, lm = Some l ∧ GetBaseline ns name l = Some bl
      ∧ minLearnedSamples ≤ wb_SampleCount bl
      ∧ (f64_is_nan (wb_CPUHighThreshold bl) = false →
         f64_leb learnedThresholdMin t = true ∧ f64_leb t learnedThresholdMax = true).
Proof.
  unfold scaleUpThreshold. destruct lm as [l|]; [|intros; simplify_eq; by left].
  destruct (GetBaseline ns name l) as [bl|] eqn:Hb; [|intros; simplify_eq; by left].
  destruct (_ || _) eqn:E; intros; simplify_eq; [by left|right].
  split; [done|]. exists l, bl. split_and!; [done|done|blia|apply clamp_bounds].
Qed.

(** *** The rolling window *)

(** The samples of one workload among those recorded. *)
Definition samples_of (ns wl : string) (calls : list (Time * string * string * float64)) : list float64 :=
  omap (λ '(_, n, w, cpu), if str_eqb n ns && str_eqb w wl then Some cpu else None) calls.
Fixpoint record_cpus (calls : list (Time * string * string * float64)) (lm : LearningMode)
  : option LearningMode :=
  match calls with
  | [] => Some lm
  | (now, ns, wl, cpu) :: calls' =>
    match RecordCPU now ns wl cpu lm with
    | Some lm' => record_cpus calls' lm'
    | None => None
    end
  end.

(** Namespaces hold no slash, so the key tells the workload. *)
Lemma baseline_key_inj ns wl ns' wl' :
  no_byte "/"%char ns → no_byte "/"%char ns' → baseline_key ns wl = baseline_key ns' wl' →
  ns = ns' ∧ wl = wl'.
Proof.
  unfold baseline_key. revert ns'. induction ns as [|c ns IH]; intros [|c' ns'] H1 H2 H.
  - by injection H as ->.
  - apply no_byte_cons in H2 as [Hc _]. rewrite str_app_cons in H. by injection H as <-.
  - apply no_byte_cons in H1 as [Hc _]. rewrite str_app_cons in H. by injection H as ->.
  - apply no_byte_cons in H1 as [_ H1]. apply no_byte_cons in H2 as [_ H2].
    rewrite !str_app_cons in H. simplify_eq. by destruct (IH ns') as [-> ->].
Qed.

(** What a baseline is, given the samples seen. *)
Definition describes (seen : list float64) (bl : WorkloadBaseline) : Prop :=
  wb_SampleCount bl = Z.of_nat (length seen)
  ∧ wb_CPUSamples bl = lastn maxSamples seen
  ∧ (seen ≠ [] → wb_AvgCPU bl = mean (lastn maxSamples seen)
     ∧ wb_StdDevCPU bl = stddev (lastn maxSamples seen) (wb_AvgCPU bl)
     ∧ wb_CPUHighThreshold bl = f64_add (wb_AvgCPU bl) (f64_mul two (wb_StdDevCPU bl))).

Lemma add_sample_describes cpu seen bl :
  describes seen bl → describes (seen ++ [cpu]) (add_sample cpu bl).
Proof.
  intros (Hn & Hs & _).
  assert (wb_CPUSamples (add_sample cpu bl) = lastn maxSamples (seen ++ [cpu])) as H.
  { unfold add_sample. cbn [wb_CPUSamples]. rewrite Hs, length_app, lastn_length.
    unfold lastn. rewrite length_app. cbn [length]. destruct (maxSamples <? _)%nat eqn:E.
    - apply Nat.ltb_lt in E. rewrite <-!drop_app_le by lia. rewrite drop_drop. f_equal. lia.
    - apply Nat.ltb_ge in E. rewrite !drop_app_le by lia. f_equal. f_equal. lia. }
  unfold describes. split_and!.
  - cbn. rewrite Hn, length_app. cbn. lia.
  - done.
  - intros _. rewrite <-H. done.
Qed.

Definition tracks (ns wl : string) (seen : list float64) (lm : LearningMode) : Prop :=
  is_Some (lm_baselines lm)
  ∧ match GetBaseline ns wl lm with
    | None => seen = []
    | Some bl => seen ≠ [] ∧ describes seen bl
    end.

Lemma RecordCPU_tracks ns wl seen now n w cpu lm :
  no_byte "/"%char ns → no_byte "/"%char n → tracks ns wl seen lm →
  ∃ lm', RecordCPU now n w cpu lm = Some lm'
    ∧ tracks ns wl (if str_eqb n ns && str_eqb w wl then seen ++ [cpu] else seen) lm'.
Proof.
  intros Hns Hn [[m Hm] Ht]. unfold RecordCPU, tracks, GetBaseline in *. rewrite Hm in *.
  destruct (str_eqb n ns && str_eqb w wl) eqn:E.
  - apply andb_true_iff in E as [->%str_eqb_eq ->%str_eqb_eq].
    destruct (m !! baseline_key ns wl) as [[bl|]|] eqn:Hk; eexists; (split; [done|]);
      cbn [lm_baselines]; rewrite lookup_insert_eq; (split; [done|]); (split; [by destruct seen|]);
      apply add_sample_describes; [apply Ht|by rewrite Ht|by rewrite Ht].
  - assert (baseline_key n w ≠ baseline_key ns wl) as Hne.
    { intros [-> ->]%baseline_key_inj; [|done..]. by rewrite !str_eqb_refl in E. }
    destruct (m !! baseline_key n w) as [[bl|]|]; eexists; (split; [done|]);
      cbn [lm_baselines]; rewrite lookup_insert_ne by done; by split.
Qed.

Lemma record_cpus_tracks ns wl calls seen lm :
  no_byte "/"%char ns → Forall (λ c, no_byte "/"%char c.1.1.2) calls → tracks ns wl seen lm →
  ∃ lm', record_cpus calls lm = Some lm' ∧ tracks ns wl (seen ++ samples_of ns wl calls) lm'.
Proof.
  intros Hns Hcalls. revert seen lm. induction calls as [|[[[now n] w] cpu] calls IH]; intros seen lm Ht.
  { exists lm. split; [done|]. by rewrite app_nil_r. }
  apply Forall_cons in Hcalls as [Hn Hcalls]. cbn in Hn.
  destruct (RecordCPU_tracks ns wl seen now n w cpu lm Hns Hn Ht) as (lm1 & H1 & Ht1).
  destruct (IH Hcalls _ lm1 Ht1) as (lm2 & H2 & Ht2). exists lm2. cbn [record_cpus]. rewrite H1.
  split; [done|]. unfold samples_of in *. cbn [omap list_omap].
  destruct (_ && _); cbn; [by rewrite <-app_assoc in Ht2|done].
Qed.

(** The baseline of a workload is that of its own latest thousand samples,
    whatever other workloads record in between: recording from a fresh start
    never panics, and afterwards [GetBaseline] gives nothing when the
    workload had no sample, and else the number of all its samples with the
    mean, the deviation and the threshold of the last thousand. *)
Theorem baseline_of_the_last_thousand start path period calls ns wl :
  no_byte "/"%char ns → Forall (λ c, no_byte "/"%char c.1.1.2) calls →
  ∃ lm, record_cpus calls (NewLearningMode start path period FileMissing) = Some lm
    ∧ match GetBaseline ns wl lm with
      | None => samples_of ns wl calls = []
      | Some bl => samples_of ns wl calls ≠ [] ∧ describes (samples_of ns wl calls) bl
      end.
Proof.
  intros Hns Hcalls.
  destruct (record_cpus_tracks ns wl calls [] (NewLearningMode start path period FileMissing) Hns Hcalls) as (lm & H1 & _ & H2).
  { split; [by eexists|]. unfold GetBaseline. cbn [NewLearningMode load lm_baselines].
    by rewrite lookup_empty. }
  by exists lm.
Qed.

(** ** Witnesses, and what modelling it showed *)
Module LearningDemo.
Definition nine_tenths : float64 := f64_const 9 1.
Definition sample (cpu : float64) : Time * string * string * float64 := (hour, "shop", "web", cpu).
Definition fresh : LearningMode := NewLearningMode 0 "" 0 FileMissing.
Definition busy : list (Time * string * string * float64) :=
  replicate 30 (sample nine_tenths) ++ [(hour, "pay", "api", f64_zero)]
  ++ replicate 30 (sample (f64_const 7 1)).
Definition get (o : option LearningMode) : LearningMode := default fresh o.
End LearningDemo.

Lemma learned_threshold_bounded_witness :
  let lm := LearningDemo.get (record_cpus LearningDemo.busy LearningDemo.fresh) in
  let r := scaleUpThreshold (Some lm) "shop" "web" (f64_const 8 1) in
  r.1 = learnedThresholdMax
  ∧ (r.2 = "global" ∧ r.1 = f64_const 8 1
     ∨ r.2 = "learned" ∧ ∃ l bl, Some lm = Some l ∧ GetBaseline "shop" "web" l = Some bl
         ∧ minLearnedSamples ≤ wb_SampleCount bl
         ∧ (f64_is_nan (wb_CPUHighThreshold bl) = false →
            f64_leb learnedThresholdMin r.1 = true ∧ f64_leb r.1 learnedThresholdMax = true)).
Proof.
  intros lm r. split; [vm_compute; reflexivity|].
  apply (learned_threshold_bounded (Some lm) "shop" "web" (f64_const 8 1) r.1 r.2).
  subst r. by destruct (scaleUpThreshold _ _ _ _).
Defined.

Lemma baseline_of_the_last_thousand_witness :
  length (samples_of "shop" "web" LearningDemo.busy) = 60%nat
  ∧ ∃ lm, record_cpus LearningDemo.busy LearningDemo.fresh = Some lm
    ∧ match GetBaseline "shop" "web" lm with
      | None => samples_of "shop" "web" LearningDemo.busy = []
      | Some bl => samples_of "shop" "web" LearningDemo.busy ≠ []
                   ∧ describes (samples_of "shop" "web" LearningDemo.busy) bl
      end.
Proof.
  split; [vm_compute; reflexivity|].
  apply (baseline_of_the_last_thousand 0 "" 0 LearningDemo.busy "shop" "web"); [by vm_compute|].
  unfold LearningDemo.busy. rewrite !Forall_app, Forall_singleton.
  split_and!; [apply Forall_replicate|..|apply Forall_replicate]; by vm_compute.
Defined.

(** After a restart the count of samples is back but the samples are not:
    the first one alone sets the threshold, though fifty are asked for. *)
Example one_sample_after_restart :
  let lm := LearningDemo.get (record_cpus LearningDemo.busy LearningDemo.fresh) in
  let again := NewLearningMode hour "" 0 (default FileMissing (Save true true lm)) in
  let lm' := LearningDemo.get (RecordCPU hour "shop" "web" (f64_const 6 1) again) in
  (length ∘ wb_CPUSamples) <$> GetBaseline "shop" "web" lm' = Some 1%nat
  ∧ scaleUpThreshold (Some lm') "shop" "web" (f64_const 8 1) = (f64_const 6 1, "learned").
Proof. vm_compute. done. Qed.

(** A sample that is not a number makes the threshold not a number, which
    no load exceeds, and the file is not written any more. *)
Example NaN_sample_disables_scale_up cpu :
  let lm := LearningDemo.get (RecordCPU hour "shop" "web" S754_nan
              (LearningDemo.get (record_cpus LearningDemo.busy LearningDemo.fresh))) in
  scaleUpThreshold (Some lm) "shop" "web" (f64_const 8 1) = (S754_nan, "learned")
  ∧ f64_ltb S754_nan cpu = false ∧ Save true true lm = None.
Proof. vm_compute. done. Qed.

(** A file of the text [null] is a nil map: the first sample panics. *)
Example null_file_panics :
  RecordCPU hour "shop" "web" f64_zero (NewLearningMode 0 "" 0 (FileData None)) = None.
Proof. reflexivity. Qed.
