(* ===== verification/Calendar.v ===== *)
(** * Calendar: RFC 3339 times of Go's [time] package

    [Time.Format(time.RFC3339)] of a UTC time and [time.Parse(time.RFC3339,
    _)], with the civil calendar behind them, as the [time] package defines
    them.  [Parse] is lenient where Go is: a one-digit hour and a fraction
    of any length are read. *)
From S2P Require Import Prelude GoStd.
From Stdlib Require Import Ascii.
#[local] Open Scope Z_scope.

(** ** The civil calendar: days since 1 January of year 1. *)
Definition is_leap (y : Z) : bool :=
  (y mod 4 =? 0) && (negb (y mod 100 =? 0) || (y mod 400 =? 0)).
Definition days_before_year (y : Z) : Z :=
  let p := y - 1 in 365 * p + p / 4 - p / 100 + p / 400.
Definition month_lengths (leap : bool) : list Z :=
  [31; if leap then 29 else 28; 31; 30; 31; 30; 31; 31; 30; 31; 30; 31].
Definition days_in (m y : Z) : Z :=
  default 0 (month_lengths (is_leap y) !! Z.to_nat (m - 1)).
Definition days_before_month (leap : bool) (m : Z) : Z :=
  foldr Z.add 0 (take (Z.to_nat (m - 1)) (month_lengths leap)).
Definition days_of_date (y m d : Z) : Z := days_before_year y + days_before_month (is_leap y) m + (d - 1).

Definition year_of_days (days : Z) : Z * Z :=
  let n400 := days / 146097 in
  let d := days mod 146097 in
  let n100 := Z.min 3 (d / 36524) in
  let d := d - 36524 * n100 in
  let n4 := d / 1461 in
  let d := d mod 1461 in
  let n1 := Z.min 3 (d / 365) in
  (400 * n400 + 100 * n100 + 4 * n4 + n1 + 1, d - 365 * n1).
(** The month and the day of a day of the year. *)
Fixpoint month_of_yday (lens : list Z) (m yday : Z) : Z * Z :=
  match lens with
  | [] => (m, yday + 1)
  | l :: lens' => if yday <? l then (m, yday + 1) else month_of_yday lens' (m + 1) (yday - l)
  end.
Definition date_of_days (days : Z) : Z * Z * Z :=
  let '(y, yday) := year_of_days days in
  let '(m, d) := month_of_yday (month_lengths (is_leap y)) 1 yday in
  (y, m, d).

(** ** Format *)
Definition digit (z : Z) : ascii := ascii_of_N (48 + Z.to_N z).
Definition pad2 (z : Z) : string := String (digit (z / 10)) (String (digit (z mod 10)) "").
Definition pad4 (z : Z) : string :=
  if z <? 10000 then pad2 (z / 100) +:+ pad2 (z mod 100) else itoa z.
Definition day_ns : Z := 24 * hour.
Definition format_RFC3339 (t : Time) : string :=
  let '(y, m, d) := date_of_days (t / day_ns) in
  let s := t mod day_ns / second in
  pad4 y +:+ "-" +:+ pad2 m +:+ "-" +:+ pad2 d +:+ "T" +:+ pad2 (s / 3600) +:+ ":"
  +:+ pad2 (s / 60 mod 60) +:+ ":" +:+ pad2 (s mod 60) +:+ "Z".

(** [Format("2006-01-02")]. *)
Definition format_date (t : Time) : string :=
  let '(y, m, d) := date_of_days (t / day_ns) in pad4 y +:+ "-" +:+ pad2 m +:+ "-" +:+ pad2 d.

(** ** Parse: a reader of the text left over. *)
Definition reader (A : Type) : Type := string → option (A * string).
Definition rd_ret {A} (a : A) : reader A := λ s, Some (a, s).
Definition rd_bind {A B} (r : reader A) (k : A → reader B) : reader B :=
  λ s, match r s with Some (a, s') => k a s' | None => None end.
Definition rd_guard (b : bool) : reader unit := λ s, if b then Some (tt, s) else None.
Definition rd_char (c : ascii) : reader unit := λ s,
  match s with
  | String c' s' => if bool_decide (c' = c) then Some (tt, s') else None
  | EmptyString => None
  end.
(** [getnum]: two digits, or one where two are not asked for. *)
Definition getnum (fixed : bool) : reader Z := λ s,
  match s with
  | String a s' =>
    match digit_val a with
    | None => None
    | Some x =>
      match s' with
      | String b s'' =>
        match digit_val b with
        | Some y => Some (10 * x + y, s'')
        | None => if fixed then None else Some (x, s')
        end
      | EmptyString => if fixed then None else Some (x, s')
      end
    end
  | EmptyString => None
  end.
Definition rd_year : reader Z :=
  rd_bind (getnum true) (λ a, rd_bind (getnum true) (λ b, rd_ret (100 * a + b))).
(** The fraction: its first nine digits count. *)
Fixpoint frac_digits (n : nat) (s : string) (acc : Z) : Z * string :=
  match s with
  | String c s' =>
    match digit_val c with
    | Some d => match n with
                | S n' => frac_digits n' s' (10 * acc + d)
                | O => frac_digits O s' acc
                end
    | None => (acc * 10 ^ Z.of_nat n, s)
    end
  | EmptyString => (acc * 10 ^ Z.of_nat n, s)
  end.
Definition rd_fraction : reader Z := λ s,
  match s with
  | String c (String d s') =>
    if bool_decide (c = "."%char ∨ c = ","%char) && bool_decide (is_Some (digit_val d))
    then Some (frac_digits 9 (String d s') 0) else Some (0, s)
  | _ => Some (0, s)
  end.
(** The zone's offset in seconds. *)
Definition rd_zone : reader Z := λ s,
  match s with
  | String c s' =>
    if bool_decide (c = "Z"%char) then Some (0, s')
    else
      rd_bind (getnum true) (λ hr, rd_bind (rd_char ":"%char) (λ _, rd_bind (getnum true) (λ mm,
        rd_bind (rd_guard ((hr <=? 24) && (mm <=? 60))) (λ _,
          let off := (hr * 60 + mm) * 60 in
          if bool_decide (c = "+"%char) then rd_ret off
          else if bool_decide (c = "-"%char) then rd_ret (- off) else λ _, None)))) s'
  | EmptyString => None
  end.
Definition rd_RFC3339 : reader Time :=
  rd_bind rd_year (λ y, rd_bind (rd_char "-"%char) (λ _,
  rd_bind (getnum true) (λ m, rd_bind (rd_guard ((1 <=? m) && (m <=? 12))) (λ _,
  rd_bind (rd_char "-"%char) (λ _, rd_bind (getnum true) (λ d,
  rd_bind (rd_char "T"%char) (λ _,
  rd_bind (getnum false) (λ h, rd_bind (rd_guard (h <? 24)) (λ _,
  rd_bind (rd_char ":"%char) (λ _,
  rd_bind (getnum true) (λ mi, rd_bind (rd_guard (mi <? 60)) (λ _,
  rd_bind (rd_char ":"%char) (λ _,
  rd_bind (getnum true) (λ sec, rd_bind (rd_guard (sec <? 60)) (λ _,
  rd_bind rd_fraction (λ ns, rd_bind rd_zone (λ off,
  rd_bind (rd_guard ((1 <=? d) && (d <=? days_in m y))) (λ _,
  rd_ret (days_of_date y m d * day_ns + (h * 3600 + mi * 60 + sec - off) * second + ns)
  )))))))))))))))))).
Definition parse_RFC3339 (s : string) : option Time :=
  match rd_RFC3339 s with Some (t, EmptyString) => Some t | _ => None end.

Example parse_offset :
  parse_RFC3339 "2024-02-29T5:30:00.25+05:30"
  = (λ t, t + 250 * millisecond) <$> parse_RFC3339 "2024-02-29T00:00:00Z".
Proof. vm_compute. done. Qed.
Example format_example :
  format_RFC3339 (default 0 (parse_RFC3339 "2024-12-31T23:59:58.9Z")) = "2024-12-31T23:59:58Z".
Proof. vm_compute. done. Qed.

(** ** The date of a day leads back to the day *)
Lemma cycle_days q a b c :
  0 ≤ a ≤ 3 → 0 ≤ b ≤ 24 → 0 ≤ c ≤ 3 →
  let y := 400 * q + 100 * a + 4 * b + c + 1 in
  days_before_year y = 146097 * q + 36524 * a + 1461 * b + 365 * c
  ∧ is_leap y = (c =? 3) && (negb (b =? 24) || (a =? 3)).
Proof.
  intros Ha Hb Hc y. split.
  - unfold days_before_year. subst y.
    replace (_ + 1 - 1) with (400 * q + 100 * a + 4 * b + c) by lia.
    assert ((400 * q + 100 * a + 4 * b + c) / 4 = 100 * q + 25 * a + b) as ->
      by (symmetry; apply (Z.div_unique _ 4 _ c); lia).
    assert ((400 * q + 100 * a + 4 * b + c) / 100 = 4 * q + a) as ->
      by (symmetry; apply (Z.div_unique _ 100 _ (4 * b + c)); lia).
    assert ((400 * q + 100 * a + 4 * b + c) / 400 = q) as ->
      by (symmetry; apply (Z.div_unique _ 400 _ (100 * a + 4 * b + c)); lia).
    lia.
  - unfold is_leap. subst y.
    assert (((400 * q + 100 * a + 4 * b + c + 1) mod 4 =? 0) = (c =? 3)) as ->
      by (apply eq_true_iff_eq; rewrite !Z.eqb_eq; Z.to_euclidean_division_equations; lia).
    assert (((400 * q + 100 * a + 4 * b + c + 1) mod 100 =? 0) = (4 * b + c =? 99)) as ->
      by (apply eq_true_iff_eq; rewrite !Z.eqb_eq; Z.to_euclidean_division_equations; lia).
    assert (((400 * q + 100 * a + 4 * b + c + 1) mod 400 =? 0) = (100 * a + 4 * b + c =? 399)) as ->
      by (apply eq_true_iff_eq; rewrite !Z.eqb_eq; Z.to_euclidean_division_equations; lia).
    destruct (c =? 3) eqn:E1, (b =? 24) eqn:E2, (a =? 3) eqn:E3,
      (4 * b + c =? 99) eqn:E4, (100 * a + 4 * b + c =? 399) eqn:E5; cbn [andb orb negb];
      first [done | exfalso; blia].
Qed.

Lemma year_of_days_spec days y yday :
  0 ≤ days → year_of_days days = (y, yday) →
  days_before_year y + yday = days ∧ 1 ≤ y ∧ 0 ≤ yday < (if is_leap y then 366 else 365).
Proof.
  intros Hd H. unfold year_of_days in H. injection H as <- <-.
  set (q := days / 146097). set (d1 := days mod 146097).
  assert (days = 146097 * q + d1 ∧ 0 ≤ d1 < 146097 ∧ 0 ≤ q) as (E1 & B1 & Hq)
    by (subst q d1; Z.to_euclidean_division_equations; lia).
  clearbody q d1. set (a := Z.min 3 (d1 / 36524)). set (d2 := d1 - 36524 * a).
  assert (d1 = 36524 * a + d2) as E2 by (subst d2; lia).
  assert (0 ≤ a ≤ 3 ∧ 0 ≤ d2 ∧ (a < 3 → d2 < 36524) ∧ d2 ≤ 36524) as (Ha & B2 & B2' & B2'')
    by (subst a d2; clear -B1; Z.to_euclidean_division_equations; lia).
  clearbody d2 a. set (b := d2 / 1461). set (d3 := d2 mod 1461).
  assert (d2 = 1461 * b + d3 ∧ 0 ≤ d3 < 1461 ∧ 0 ≤ b ≤ 24) as (E3 & B3 & Hb)
    by (subst b d3; clear -B2 B2''; Z.to_euclidean_division_equations; lia).
  clearbody b d3. set (c := Z.min 3 (d3 / 365)).
  assert (0 ≤ c ≤ 3 ∧ 0 ≤ d3 - 365 * c ≤ 365 ∧ (c < 3 → d3 - 365 * c < 365)) as (Hc & B4 & B4')
    by (subst c; clear -B3; Z.to_euclidean_division_equations; lia).
  destruct (cycle_days q a b c Ha Hb Hc) as [-> ->].
  split; [lia|]. split; [lia|]. split; [lia|].
  destruct (c =? 3) eqn:F1, (b =? 24) eqn:F2, (a =? 3) eqn:F3; cbn [andb orb negb]; blia.
Qed.

(** A day of the year is a day of one of its months. *)
Lemma month_of_yday_spec lens m yday m' d' :
  Forall (λ l, 0 < l) lens → 0 ≤ yday < foldr Z.add 0 lens → month_of_yday lens m yday = (m', d') →
  ∃ i, m' = m + Z.of_nat i ∧ (i < length lens)%nat
    ∧ yday = foldr Z.add 0 (take i lens) + (d' - 1)
    ∧ 1 ≤ d' ≤ default 0 (lens !! i).
Proof.
  revert m yday. induction lens as [|l lens IH]; intros m yday Hpos Hy H; [cbn in Hy; lia|].
  apply Forall_cons in Hpos as [Hl Hpos]. cbn in H, Hy. destruct (yday <? l) eqn:E.
  - simplify_eq. exists O. cbn. split_and!; blia.
  - destruct (IH (m + 1) (yday - l) Hpos) as (i & -> & Hi & He & Hd); [blia|done|].
    exists (S i). cbn. split_and!; [lia|lia|lia|lia|apply Hd].
Qed.

Lemma date_of_days_spec days y m d :
  0 ≤ days → date_of_days days = (y, m, d) →
  days_of_date y m d = days ∧ 1 ≤ y ∧ 1 ≤ m ≤ 12 ∧ 1 ≤ d ≤ days_in m y ∧ d ≤ 31.
Proof.
  intros Hd H. unfold date_of_days in H. destruct (year_of_days days) as [y' yday] eqn:Hy.
  destruct (year_of_days_spec days y' yday Hd Hy) as (E & Hy1 & Hb).
  destruct (month_of_yday _ 1 yday) as [m' d'] eqn:Hm. simplify_eq.
  destruct (month_of_yday_spec (month_lengths (is_leap y)) 1 yday m d) as (i & -> & Hi & Hy' & Hdd);
    [by destruct (is_leap y); repeat constructor|by destruct (is_leap y)|done|].
  unfold days_of_date, days_before_month, days_in.
  replace (Z.to_nat (1 + Z.of_nat i - 1)) with i by lia.
  assert (default 0 (month_lengths (is_leap y) !! i) ≤ 31).
  { unfold month_lengths. destruct (is_leap y); do 12 (destruct i; [by vm_compute|]); by vm_compute. }
  assert (length (month_lengths (is_leap y)) = 12%nat) as Hlen by done.
  split_and!; lia.
Qed.

(** ** Parse undoes Format *)
Lemma digit_val_digit z : 0 ≤ z < 10 → digit_val (digit z) = Some z.
Proof.
  intros H. assert (z ∈ [0; 1; 2; 3; 4; 5; 6; 7; 8; 9]) as Hz
    by (rewrite !elem_of_cons; lia).
  assert (Forall (λ z, digit_val (digit z) = Some z) [0; 1; 2; 3; 4; 5; 6; 7; 8; 9]) as Hall
    by (repeat constructor).
  rewrite Forall_forall in Hall. by apply Hall.
Qed.

Lemma getnum_pad2 fixed z s : 0 ≤ z < 100 → getnum fixed (pad2 z +:+ s) = Some (z, s).
Proof.
  intros H. unfold pad2. rewrite !str_app_cons. unfold getnum.
  rewrite !digit_val_digit by (Z.to_euclidean_division_equations; lia).
  change ("" +:+ s) with s. do 2 f_equal. Z.to_euclidean_division_equations; lia.
Qed.

Lemma rd_bind_num {B} fixed z s (k : Z → reader B) :
  0 ≤ z < 100 → rd_bind (getnum fixed) k (pad2 z +:+ s) = k z s.
Proof. intros H. unfold rd_bind. by rewrite getnum_pad2. Qed.
Lemma rd_bind_char {B} c s (k : unit → reader B) :
  rd_bind (rd_char c) k (String c "" +:+ s) = k tt s.
Proof. rewrite str_app_cons. unfold rd_bind, rd_char. by rewrite bool_decide_true. Qed.
Lemma rd_bind_guard {B} b s (k : unit → reader B) : b = true → rd_bind (rd_guard b) k s = k tt s.
Proof. by intros ->. Qed.
Lemma rd_bind_year {B} y s (k : Z → reader B) :
  0 ≤ y < 10000 → rd_bind rd_year k (pad4 y +:+ s) = k y s.
Proof.
  intros H. unfold pad4. rewrite (proj2 (Z.ltb_lt y 10000)) by lia.
  assert (rd_year ((pad2 (y / 100) +:+ pad2 (y mod 100)) +:+ s) = Some (y, s)) as E.
  { rewrite str_app_assoc. unfold rd_year.
    rewrite !rd_bind_num by (Z.to_euclidean_division_equations; lia).
    unfold rd_ret. do 2 f_equal. Z.to_euclidean_division_equations; lia. }
  unfold rd_bind at 1. by rewrite E.
Qed.

(** The last day before the year 10000. *)
Definition last_day : Z := 3652058.
Lemma year_before_10000 y yday days :
  days_before_year y + yday = days → 0 ≤ yday → days ≤ last_day → y < 10000.
Proof.
  unfold days_before_year, last_day. intros H1 H2 H3. set (p := y - 1) in *.
  assert (p < 9999); [|lia]. Z.to_euclidean_division_equations. lia.
Qed.

Lemma parse_format_RFC3339 t :
  0 ≤ t → t / day_ns ≤ last_day → parse_RFC3339 (format_RFC3339 t) = Some (t - t mod second).
Proof.
  intros Ht Hlast. unfold format_RFC3339.
  assert (0 ≤ t / day_ns) as Hd by (apply Z.div_pos; [done|by unfold day_ns, hour, minute, second]).
  destruct (date_of_days (t / day_ns)) as [[y m] d] eqn:E.
  destruct (date_of_days_spec _ y m d Hd E) as (Hdays & Hy & Hm & Hdd & Hd31).
  assert (y < 10000) as Hy2.
  { unfold date_of_days in E. destruct (year_of_days (t / day_ns)) as [y' yday] eqn:Ey.
    destruct (year_of_days_spec _ y' yday Hd Ey) as (E1 & _ & E2 & _).
    destruct (month_of_yday _ _ _). simplify_eq. by eapply year_before_10000. }
  set (s := t mod day_ns / second).
  assert (0 ≤ s < 86400 ∧ t - t mod second = t / day_ns * day_ns + s * second) as [Hs Hsum].
  { subst s. unfold day_ns, hour, minute, second. clear.
    Z.to_euclidean_division_equations. lia. }
  assert (0 ≤ s / 60 mod 60 < 60 ∧ 0 ≤ s mod 60 < 60 ∧ 0 ≤ s / 3600 < 24
    ∧ s / 3600 * 3600 + s / 60 mod 60 * 60 + s mod 60 = s) as (H1 & H2 & H3 & H4)
    by (clearbody s; clear -Hs; Z.to_euclidean_division_equations; lia).
  rewrite Hsum, <-Hdays. clearbody s. clear Hsum E Hlast Ht Hd Hdays.
  unfold parse_RFC3339, rd_RFC3339. cbv beta iota.
  rewrite rd_bind_year by lia.
  repeat first [rewrite rd_bind_char | rewrite rd_bind_num by lia | rewrite rd_bind_guard by blia].
  change (rd_bind rd_fraction ?k "Z") with (k 0 "Z"). cbv beta.
  change (rd_bind rd_zone ?k "Z") with (k 0 ""). cbv beta.
  rewrite rd_bind_guard by (apply andb_true_iff; rewrite !Z.leb_le; lia).
  unfold rd_ret. f_equal. rewrite <-H4 at 4. lia.
Qed.
