(* ===== verification/Scaler.v ===== *)
(** * Scaler: the scaling loop of internal/kube/scaler.go

    [EvaluateAndScale] over the watched namespaces: for each Deployment the
    limits of its policy, the HPA and cooldown checks, the CPU reading
    against the (learned) threshold, the PromQL gates, and a patch of the
    replica count through the mutation gate.  What the API server and
    Prometheus answer is a parameter ([ScalerAPI]).  The clocks the code
    reads directly ([time.Now], [time.Since]) are the environment's.
    Replica counts are 32-bit: sums wrap. *)
From S2P Require Import Prelude GoStd Policy RateLimit Guards Events Escalation Gate Kube Learning Calendar.
#[local] Open Scope Z_scope.
#[local] Open Scope agent_scope.

Definition annoLastScaleUp : string := "auto-agent.io/last-scale-ts".
Definition annoLastScaleDown : string := "auto-agent.io/last-scale-down-ts".

(** The reads and the one write of the scaler.  [patch_scale ns name
    replicas anno ts] is the merge patch of the replica count and of one
    annotation. *)
Class ScalerAPI (C : Type) := {
  list_namespaces : C → option (list string);
  list_deployments : string → C → list Deployment + string;
  list_hpas : string → C → list (string * string) + string; (* target kind and name *)
  avg_cpu : Deployment → string → C → float64 + string;
  query_instant : string → C → float64 + string;
  patch_scale : string → string → Z → string → string → C → C * option string
}.

Record ScalingGates := mkGates { sg_QueueDepth : string; sg_ErrorRate : string; sg_P95Latency : string }.

(** ** Limits *)
Record scaleLimits := mkLimits {
  sl_min : Z; sl_max : Z; sl_step : Z;
  sl_cooldownUp : Duration; sl_cooldownDown : Duration; sl_overrideHPA : bool
}.
Definition scaleLimitsFor (pol : Policy) (cp : option crd.Policy) : scaleLimits :=
  let cd := effectiveCooldown cp (CooldownUp pol) (CooldownDown pol) in
  let l := mkLimits (MinReplicas pol) (MaxReplicas pol) (wrap32 (MaxScaleStep pol)) cd.1 cd.2 false in
  match cp with
  | None => l
  | Some p =>
    let sc := crd.Scale p in
    if negb (crd.sc_Enabled sc) then l
    else
      let max := if 0 <? crd.sc_MaxReplicas sc then crd.sc_MaxReplicas sc else sl_max l in
      let min := if (0 <? crd.sc_MinReplicas sc) && (crd.sc_MinReplicas sc <=? max)
                 then crd.sc_MinReplicas sc else sl_min l in
      let step := if 0 <? crd.sc_Step sc then crd.sc_Step sc else sl_step l in
      mkLimits min max step cd.1 cd.2 (crd.sc_AllowHPAOverride sc)
  end.

(** ** The pass *)
Inductive direction := Up | Down.
(** A change handed to the gate, and what the gate answered. *)
Record scaling := mkScaling {
  sc_deployment : Deployment; sc_dir : direction; sc_from : Z; sc_to : Z; sc_outcome : gateOutcome
}.

Definition lowCPU : float64 := Eval vm_compute in f64_const 3 1.

(** The replica count of a step up, and of a step down. *)
Definition up_to (lim : scaleLimits) (rep : Z) : Z :=
  let newRep := wrap32 (rep + sl_step lim) in
  if sl_max lim <? newRep then sl_max lim else newRep.
Definition down_to (lim : scaleLimits) (rep : Z) : Z :=
  let newRep := wrap32 (rep - 1) in
  if newRep <? sl_min lim then sl_min lim else newRep.

(** The time an annotation tells. *)
Definition last_scaled (d : Deployment) (key : string) : option Time :=
  d_Annotations d !! key ≫= parse_RFC3339.

Section scaler.
Context {C : Type} `{!ScalerAPI C} (env : Env) (gates : ScalingGates) (learning : option LearningMode).
Abbreviation M := (st (GState C)).
Abbreviation pol := (env_Policy env).

Definition read {A} (f : C → A) : M A := λ s, (f (gs_cluster s), s).

Definition inCooldown (d : Deployment) (key : string) (cooldown : Duration) : M bool :=
  match last_scaled d key with
  | None => return! false
  | Some t => let! now := clock env in return! (time_Sub now t <? cooldown)
  end.

(** Whether a gate query answers a positive number. *)
Definition query_active (q : string) : M bool :=
  if str_eqb q "" then return! false
  else let! v := read (query_instant q) in
       return! match v with inl x => f64_ltb f64_zero x | inr _ => false end.
Definition evaluateGates : M (bool * bool) :=
  if str_eqb (sg_QueueDepth gates) "" && str_eqb (sg_ErrorRate gates) ""
     && str_eqb (sg_P95Latency gates) ""
  then return! (false, true)
  else
    let! a := query_active (sg_QueueDepth gates) in
    if a then return! (true, true)
    else
      let! b := query_active (sg_ErrorRate gates) in
      if b then return! (true, true)
      else
        let! c := query_active (sg_P95Latency gates) in
        return! (true, c).

Definition deploymentHasHPA (ns name : string) : M (bool + string) :=
  let! hpas := read (list_hpas ns) in
  return! match hpas with
  | inl l => inl (existsb (λ '(kind, target), str_eqb kind "Deployment" && str_eqb target name) l)
  | inr e => inr e
  end.

Definition scaleDeployment (d : Deployment) (from to : Z) (anno reason actionType : string)
  : M (gateOutcome * string) :=
  let! now := clock env in
  let what := d_Namespace d +:+ "/" +:+ d_Name d +:+ " from " +:+ itoa from +:+ " to "
              +:+ itoa to +:+ " replicas" in
  applyMutation env (mkMutation C (d_Namespace d) (d_Name d) "" (d_TemplateLabels d) reason actionType
    ("scaled " +:+ what) ("scale " +:+ what)
    (patch_scale (d_Namespace d) (d_Name d) to anno (format_RFC3339 now)) "" None false).

Definition scaling_event (ns : string) (d : Deployment) (reason msg : string) : M unit :=
  recordEvent env (mkEvent 0 0 Scaling Events.SevInfo ns (d_Name d) "" "" reason msg "" "" "" "" "" "").

Definition scale_up (ns : string) (d : Deployment) (lim : scaleLimits) (cpu threshold : float64)
  (source : string) : M (option scaling) :=
  let rep := replicas_of d in
  if sl_max lim <=? rep then return! None
  else
    let newRep := up_to lim rep in
    let! r := scaleDeployment d rep newRep annoLastScaleUp "ScaleUp" "scale_up" in
    let plan := Some (mkScaling d Up rep newRep r.1) in
    if negb (bool_decide (r.1 = gateApplied)) then return! plan
    else
      let over := fmt_2f cpu +:+ " over the " +:+ source +:+ " threshold " +:+ fmt_2f threshold in
      postSlack ("*ScaleUp*: `" +:+ ns +:+ "/" +:+ d_Name d +:+ "` " +:+ itoa rep +:+ " -> "
        +:+ itoa newRep +:+ " (cpu=" +:+ over +:+ ", gate=" +:+ fmt_t true +:+ ")") ;;;
      scaling_event ns d "ScaleUp" (itoa rep +:+ " -> " +:+ itoa newRep +:+ " replicas (cpu="
        +:+ over +:+ ")") ;;;
      return! plan.

Definition scale_down (ns : string) (d : Deployment) (lim : scaleLimits) (cpu : float64)
  : M (option scaling) :=
  let rep := replicas_of d in
  let! cooling := inCooldown d annoLastScaleDown (sl_cooldownDown lim) in
  if cooling then return! None
  else
    let newRep := down_to lim rep in
    if newRep =? rep then return! None
    else
      let! r := scaleDeployment d rep newRep annoLastScaleDown "ScaleDown" "scale_down" in
      let plan := Some (mkScaling d Down rep newRep r.1) in
      if negb (bool_decide (r.1 = gateApplied)) then return! plan
      else
        postSlack ("*ScaleDown*: `" +:+ ns +:+ "/" +:+ d_Name d +:+ "` " +:+ itoa rep +:+ " -> "
          +:+ itoa newRep +:+ " (cpu=" +:+ fmt_2f cpu +:+ ")") ;;;
        scaling_event ns d "ScaleDown" (itoa rep +:+ " -> " +:+ itoa newRep +:+ " replicas (cpu="
          +:+ fmt_2f cpu +:+ ")") ;;;
        return! plan.

Definition limits_of (ns : string) (d : Deployment) : scaleLimits :=
  scaleLimitsFor pol (effectivePolicy (env_CRD env) ns (d_TemplateLabels d)).

(** Whether an autoscaler, or not knowing, makes the pass skip it. *)
Definition leave_to_hpa (ns : string) (d : Deployment) (lim : scaleLimits) : M bool :=
  if HPACoexistence pol && negb (sl_overrideHPA lim) then
    let! hpa := deploymentHasHPA ns (d_Name d) in
    return! match hpa with inl has => has | inr _ => true end
  else return! false.

(** The body of the loop. *)
Definition scale_one (ns : string) (d : Deployment) : M (option scaling) :=
  let lim := limits_of ns d in
  let! leave := leave_to_hpa ns d lim in
  if leave then return! None
  else
  let! cooling := inCooldown d annoLastScaleUp (sl_cooldownUp lim) in
  if cooling then return! None
  else
  let! cpu := read (avg_cpu d (ScaleWindow pol)) in
  match cpu with
  | inr _ => return! None
  | inl cpu =>
    let! g := evaluateGates in
    let '(threshold, source) := scaleUpThreshold learning ns (d_Name d) (CPUThreshold pol) in
    if f64_ltb threshold cpu && g.2 then scale_up ns d lim cpu threshold source
    else
      let canScaleDown := negb g.1 || negb g.2 in
      if f64_ltb cpu lowCPU && canScaleDown && (sl_min lim <? replicas_of d)
      then scale_down ns d lim cpu
      else return! None
  end.

Fixpoint scale_all (ns : string) (ds : list Deployment) : M (list scaling) :=
  match ds with
  | [] => return! []
  | d :: ds' =>
    let! p := scale_one ns d in
    let! rest := scale_all ns ds' in
    return! (match p with Some x => [x] | None => [] end ++ rest)
  end.
Fixpoint scale_namespaces (nss : list string) : M (list scaling) :=
  match nss with
  | [] => return! []
  | ns :: nss' =>
    let! dl := read (list_deployments ns) in
    let! here := (match dl with inl ds => scale_all ns ds | inr _ => return! [] end) in
    let! rest := scale_namespaces nss' in
    return! (here ++ rest)
  end.
Definition EvaluateAndScale : M (list scaling) :=
  let! listed := read list_namespaces in
  scale_namespaces (watchedNamespaces pol listed).
End scaler.

(** ** Limits *)

(** The bounds are ordered when the agent's own are and the policy's maximum,
    if it sets one, is not below the minimum in force. *)
Lemma scale_limits_ordered pol cp :
  MinReplicas pol ≤ MaxReplicas pol →
  (∀ p, cp = Some p → crd.sc_Enabled (crd.Scale p) = true → 0 < crd.sc_MaxReplicas (crd.Scale p) →
     MinReplicas pol ≤ crd.sc_MaxReplicas (crd.Scale p)
     ∨ 0 < crd.sc_MinReplicas (crd.Scale p) ≤ crd.sc_MaxReplicas (crd.Scale p)) →
  sl_min (scaleLimitsFor pol cp) ≤ sl_max (scaleLimitsFor pol cp).
Proof.
  intros Hp Hcp. destruct cp as [p|]; [|done]. unfold scaleLimitsFor.
  destruct (crd.sc_Enabled (crd.Scale p)) eqn:He; cbn [negb]; [|done]. specialize (Hcp p eq_refl He).
  destruct (0 <? crd.sc_MaxReplicas (crd.Scale p)) eqn:H1; cbn [sl_min sl_max];
    destruct (0 <? crd.sc_MinReplicas (crd.Scale p)) eqn:H2; cbn [andb];
    [destruct (crd.sc_MinReplicas _ <=? _) eqn:H3| |destruct (crd.sc_MinReplicas _ <=? _) eqn:H3|];
    try blia; destruct Hcp; blia.
Qed.

(** A step up ends above the count and at most at the maximum, a step down
    one below and at least at the minimum, as long as the sum fits 32 bits. *)
Lemma up_to_bounds lim rep :
  1 ≤ sl_step lim → 0 ≤ rep → rep + sl_step lim < 2 ^ 31 → rep < sl_max lim →
  rep < up_to lim rep ≤ Z.min (sl_max lim) (rep + sl_step lim).
Proof.
  intros Hs Hr Hsum Hm. unfold up_to. rewrite wrap32_id by (unfold int32_ok; lia).
  destruct (sl_max lim <? _) eqn:E; blia.
Qed.
Lemma down_to_bounds lim rep :
  int32_ok (rep - 1) → sl_min lim < rep → down_to lim rep = rep - 1.
Proof.
  intros Hr Hm. unfold down_to. rewrite wrap32_id by done. destruct (_ <? sl_min lim) eqn:E; blia.
Qed.

(** ** Why a Deployment is scaled *)
Section justified.
Context {C : Type} `{!ScalerAPI C} (env : Env) (gates : ScalingGates) (learning : option LearningMode).
Implicit Types (s : GState C) (d : Deployment) (c : C).
Abbreviation pol := (env_Policy env).

(** What the gate queries answer in a cluster. *)
Definition active_at c (q : string) : bool :=
  negb (str_eqb q "")
  && match query_instant q c with inl x => f64_ltb f64_zero x | inr _ => false end.
Definition gates_at c : bool * bool :=
  if str_eqb (sg_QueueDepth gates) "" && str_eqb (sg_ErrorRate gates) ""
     && str_eqb (sg_P95Latency gates) ""
  then (false, true)
  else (true, active_at c (sg_QueueDepth gates) || active_at c (sg_ErrorRate gates)
              || active_at c (sg_P95Latency gates)).

Lemma query_active_at q s : query_active q s = (active_at (gs_cluster s) q, s).
Proof.
  unfold query_active, active_at. destruct (str_eqb q ""); [done|]. cbn [negb andb].
  unfold st_bind, read. by destruct (query_instant q (gs_cluster s)).
Qed.
Lemma evaluateGates_at s : evaluateGates gates s = (gates_at (gs_cluster s), s).
Proof.
  unfold evaluateGates, gates_at. destruct (_ && _); [done|].
  unfold st_bind at 1. rewrite query_active_at. destruct (active_at _ _); [done|].
  unfold st_bind at 1. rewrite query_active_at. destruct (active_at _ _); [done|].
  unfold st_bind at 1. by rewrite query_active_at.
Qed.






(** *** What reaches the gate *)
Definition anno_of (dir : direction) : string :=
  match dir with Up => annoLastScaleUp | Down => annoLastScaleDown end.



End justified.

(** ** What a pass does to the cluster *)
Section pass.
Context {C : Type} `{!ScalerAPI C} (env : Env) (gates : ScalingGates) (learning : option LearningMode).
Implicit Types (s : GState C) (d : Deployment) (c : C).

Definition ran (o : gateOutcome) : bool := bool_decide (o = gateApplied ∨ o = gateFailed).

(** The patches of a pass, in order. *)
Inductive patched : list scaling → C → C → Prop :=
| patched_nil c : patched [] c c
| patched_run p ps c c' ts :
    ran (sc_outcome p) = true →
    patched ps (patch_scale (d_Namespace (sc_deployment p)) (d_Name (sc_deployment p)) (sc_to p)
                  (anno_of (sc_dir p)) ts c).1 c' →
    patched (p :: ps) c c'
| patched_skip p ps c c' :
    ran (sc_outcome p) = false → patched ps c c' → patched (p :: ps) c c'.
Definition in_scope (p : scaling) : Prop :=
  ran (sc_outcome p) = true →
  Mode_ (env_Policy env) = Fix ∧ in_fix_scope (env_Policy env) (d_Namespace (sc_deployment p)).

Lemma patched_app ps qs c1 c2 c3 : patched ps c1 c2 → patched qs c2 c3 → patched (ps ++ qs) c1 c3.
Proof. induction 1; intros; cbn; [done|eapply patched_run|eapply patched_skip]; eauto. Qed.

(** A gate call either runs its patch, in fix mode and in scope, or leaves
    the cluster. *)
Definition patches_or_not d (to : Z) (anno : string) s (r : (gateOutcome * string) * GState C) : Prop :=
  if ran r.1.1
  then (∃ ts, gs_cluster r.2 = (patch_scale (d_Namespace d) (d_Name d) to anno ts (gs_cluster s)).1)
       ∧ Mode_ (env_Policy env) = Fix ∧ in_fix_scope (env_Policy env) (d_Namespace d)
  else gs_cluster r.2 = gs_cluster s.

Lemma scaleDeployment_effect d from to anno reason action s :
  patches_or_not d to anno s (scaleDeployment env d from to anno reason action s).
Proof.
  unfold scaleDeployment, st_bind at 1, clock.
  set (m := mkMutation _ _ _ _ _ _ _ _ _ _ _ _ _). set (s1 := set_tick _ s).
  assert (∀ o (msg : string) r text s2, ran o = false → same_cluster s1 s2 →
    patches_or_not d to anno s ((o, msg), (audit env m r text s2).2)) as Hno.
  { intros o msg r text s2 Ho [H2 _]. unfold patches_or_not. cbn [fst snd]. rewrite Ho.
    by destruct (audit_cluster env m r text s2) as [-> _]. }
  apply (gate_ways env m same_cluster s1 (patches_or_not d to anno s));
    [auto with agent..| | | | |]; [by intros; apply Hno|by intros; apply Hno|done|by intros; apply Hno|].
  intros s2 H2 Hm Hs. unfold after_apply, run_apply, st_bind at 1.
  destruct H2 as [Hc _]. change (m_Apply m) with (patch_scale (d_Namespace d) (d_Name d) to anno
    (format_RFC3339 (env_Clock env (gs_tick s)))).
  destruct (patch_scale _ _ _ _ _ _) as [c err] eqn:Hp.
  assert (∀ o msg s3, ran o = true → gs_cluster s3 = c →
    patches_or_not d to anno s ((o, msg), s3)) as Hyes.
  { intros o msg s3 Ho H3. unfold patches_or_not. cbn [fst snd]. rewrite Ho. split; [|done].
    eexists. rewrite H3. rewrite Hc in Hp. change (gs_cluster s1) with (gs_cluster s) in Hp. by rewrite Hp. }
  destruct err as [e|]; apply (bind_keeps same_cluster); try (auto with agent; fail);
    intros [] s3 H3; apply (bind_keeps same_cluster); try (auto with agent; fail);
    intros [] s4 H4; apply Hyes; try done; by rewrite (proj1 H4), (proj1 H3).
Qed.

Lemma posts_cluster ns d msg reason text :
  keeps same_cluster (postSlack (C := C) msg ;;; scaling_event env ns d reason text).
Proof. unfold postSlack, scaling_event, recordEvent. solve_keeps. Qed.
Lemma inCooldown_cluster d key cd : keeps (same_cluster (C := C)) (inCooldown env d key cd).
Proof. unfold inCooldown. solve_keeps. Qed.
Lemma reading_cluster {A} (f : C → A) : keeps same_cluster (read f).
Proof. intros s. by split. Qed.
Hint Resolve posts_cluster inCooldown_cluster reading_cluster : agent.

(** What a step hands to the gate is what happens to the cluster. *)
Definition tells s (r : option scaling * GState C) : Prop :=
  patched (option_list r.1) (gs_cluster s) (gs_cluster r.2) ∧ Forall in_scope (option_list r.1).

Lemma tells_none s s' : same_cluster s s' → tells s (None, s').
Proof. intros [H _]. split; [cbn; rewrite H; constructor|constructor]. Qed.
Lemma tells_plan d dir from to s o msg s1 s2 :
  patches_or_not d to (anno_of dir) s ((o, msg), s1) → same_cluster s1 s2 →
  tells s (Some (mkScaling d dir from to o), s2).
Proof.
  unfold patches_or_not, tells. cbn [fst snd option_list]. intros H [Hs _]. rewrite Hs.
  destruct (ran o) eqn:Ho.
  - destruct H as [[ts ->] Hin]. split; [|constructor; [by intros _|constructor]].
    eapply (patched_run (mkScaling d dir from to o)); [exact Ho|apply patched_nil].
  - rewrite H. split; [apply patched_skip; [exact Ho|apply patched_nil]|].
    constructor; [|constructor]. unfold in_scope. cbn. by rewrite Ho.
Qed.
Lemma tells_before s s1 r : same_cluster s s1 → tells s1 r → tells s r.
Proof. intros [H _]. unfold tells. by rewrite H. Qed.

Lemma scale_up_tells ns d lim cpu th src s : tells s (scale_up env ns d lim cpu th src s).
Proof.
  unfold scale_up. destruct (_ <=? _); [by apply tells_none|].
  apply (bind_spec (patches_or_not d (up_to lim (replicas_of d)) (anno_of Up) s));
    [apply scaleDeployment_effect|].
  intros [o msg] s1 H1. cbn [fst]. destruct (negb _); [by eapply tells_plan|].
  apply (bind_keeps same_cluster); [unfold postSlack; solve_keeps|]. intros [] s2 H2.
  apply (bind_keeps same_cluster); [unfold scaling_event, recordEvent; solve_keeps|]. intros [] s3 H3.
  eapply tells_plan; [exact H1|by etrans].
Qed.
Lemma scale_down_tells ns d lim cpu s : tells s (scale_down env ns d lim cpu s).
Proof.
  unfold scale_down. apply (bind_keeps same_cluster); [auto with agent|]. intros [] s0 H0;
    [by apply tells_none|]. destruct (_ =? _); [by apply tells_none|].
  apply (tells_before _ s0); [done|].
  apply (bind_spec (patches_or_not d (down_to lim (replicas_of d)) (anno_of Down) s0));
    [apply scaleDeployment_effect|].
  intros [o msg] s1 H1. cbn [fst]. destruct (negb _); [by eapply tells_plan|].
  apply (bind_keeps same_cluster); [unfold postSlack; solve_keeps|]. intros [] s2 H2.
  apply (bind_keeps same_cluster); [unfold scaling_event, recordEvent; solve_keeps|]. intros [] s3 H3.
  eapply tells_plan; [exact H1|by etrans].
Qed.
Lemma scale_one_tells ns d s : tells s (scale_one env gates learning ns d s).
Proof.
  unfold scale_one. apply (bind_keeps same_cluster).
  { unfold leave_to_hpa, deploymentHasHPA. solve_keeps; auto with agent. }
  intros [] s1 H1; [by apply tells_none|].
  apply (bind_keeps same_cluster); [auto with agent|]. intros [] s2 H2; [apply tells_none; by etrans|].
  apply (bind_keeps same_cluster); [auto with agent|]. intros [cpu|e] s3 H3;
    [|apply tells_none; by repeat (etrans; [eassumption|])].
  apply (bind_keeps same_cluster).
  { intros s'. by rewrite evaluateGates_at. }
  intros g s4 H4. assert (same_cluster s s4) as H by (by repeat (etrans; [eassumption|])).
  destruct (scaleUpThreshold _ _ _ _) as [th src]. apply (tells_before _ s4); [done|].
  destruct (_ && _); [apply scale_up_tells|].
  destruct (_ && _); [apply scale_down_tells|by apply tells_none].
Qed.

Definition all_told s (r : list scaling * GState C) : Prop :=
  patched r.1 (gs_cluster s) (gs_cluster r.2) ∧ Forall in_scope r.1.
Lemma all_told_app s s1 s2 ps qs :
  all_told s (ps, s1) → all_told s1 (qs, s2) → all_told s (ps ++ qs, s2).
Proof. intros [H1 F1] [H2 F2]. split; [by eapply patched_app|by apply Forall_app]. Qed.

Lemma scale_all_told ns ds s : all_told s (scale_all env gates learning ns ds s).
Proof.
  revert s. induction ds as [|d ds IH]; intros s; [by split; constructor|]. cbn [scale_all].
  apply (bind_spec (tells s)); [apply scale_one_tells|]. intros p s1 H1.
  apply (bind_spec (all_told s1)); [apply IH|]. intros qs s2 H2.
  eapply all_told_app; [exact H1|exact H2].
Qed.

(** A whole pass of the scaler changes the cluster by its own patches only,
    one for each change the gate applied (or tried and failed), in the order
    reported, and only in fix mode and inside the fix scope. *)
Theorem scaler_changes_only_what_it_reports s :
  let r := EvaluateAndScale env gates learning s in
  patched r.1 (gs_cluster s) (gs_cluster r.2) ∧ Forall in_scope r.1.
Proof.
  cbv zeta. change (all_told s (EvaluateAndScale env gates learning s)). unfold EvaluateAndScale, read.
  unfold st_bind at 1. cbv beta iota. generalize (watchedNamespaces (env_Policy env) (list_namespaces (gs_cluster s))).
  intros nss. revert s. induction nss as [|ns nss IH]; intros s; [by split; constructor|].
  cbn [scale_namespaces]. unfold st_bind at 1, read. cbv beta iota.
  apply (bind_spec (all_told s)).
  { destruct (list_deployments ns (gs_cluster s)); [apply scale_all_told|by split; constructor]. }
  intros ps s1 H1. apply (bind_spec (all_told s1)); [apply IH|]. intros qs s2 H2.
  eapply all_told_app; [exact H1|exact H2].
Qed.
End pass.

(** ** The cooldown *)

(** After a scaling the annotation it wrote holds the next passes back: a
    Deployment is in cooldown until at most a second before the cooldown has
    passed (the annotation holds whole seconds), and no longer than that. *)
Theorem cooldown_lasts {C} env d key cd written now (s : GState C) :
  d_Annotations d !! key = Some (format_RFC3339 written) →
  0 ≤ written → written / day_ns ≤ last_day → (∀ i, env_Clock env i = now) → 0 < cd ≤ max_int64 →
  (now - written < cd - second → (inCooldown env d key cd s).1 = true)
  ∧ (cd ≤ now - written → (inCooldown env d key cd s).1 = false).
Proof.
  intros Hd H0 Hl Hclock Hcd.
  assert (last_scaled d key = Some (written - written mod second)) as Ht
    by (unfold last_scaled; rewrite Hd; by apply parse_format_RFC3339).
  unfold inCooldown. rewrite Ht. unfold st_bind, clock, st_ret. cbn [fst]. rewrite Hclock, time_Sub_lt by done.
  pose proof (Z.mod_pos_bound written second ltac:(done)). split; intros; blia.
Qed.

(** ** Witnesses *)
Module ScalerDemo.
Definition web (replicas : Z) (annos : gmap string string) : Deployment :=
  mkDeployment "shop" "web" annos 0 1 (Some replicas) (Some ∅) [] 1 replicas replicas replicas 0 [].
(** A cluster is the replica count of [shop/web] and its annotations; every
    Deployment uses [cpu]. *)
Definition api (cpu : float64) : ScalerAPI (Z * gmap string string) := {|
  list_namespaces _ := Some ["shop"];
  list_deployments ns c := inl (if str_eqb ns "shop" then [web c.1 c.2] else []);
  list_hpas _ _ := inl [("Deployment", "api")];
  avg_cpu _ _ _ := inl cpu;
  query_instant q _ := if str_eqb q "depth" then inl (f64_of_Z 7) else inr "no data";
  patch_scale _ _ n key ts c := ((n, <[key := ts]> c.2), None)
|}.
Definition start : GState (Z * gmap string string) :=
  mkGState _ 0 (Some (NewBlastRadiusTracker GateDemo.now 5 hour)) (Some NewPolicyBudget)
    (Some (NewCircuitBreaker 5 hour)) (Some (NewActionLimiter 10 (10 * minute)))
    (Some (NewActionLimiter 10 (10 * minute))) (Some (NewDeduplicator hour)) None (4, ∅) [].
Definition gates : ScalingGates := mkGates "depth" "" "".
Definition pass (cpu : float64) (md : Mode) (s : GState (Z * gmap string string)) :=
  EvaluateAndScale (ScalerAPI0 := api cpu) (GateDemo.env md) gates None s.
Definition busy : float64 := f64_const 9 1.
End ScalerDemo.

(** Four replicas become six; in suggest mode they stay four; a second pass
    is held back by the annotation the first one wrote. *)
Example scaler_runs :
  let r := ScalerDemo.pass ScalerDemo.busy Fix ScalerDemo.start in
  (gs_cluster r.2).1 = 6
  ∧ (ScalerDemo.pass ScalerDemo.busy Fix r.2).1 = []
  ∧ (gs_cluster (ScalerDemo.pass ScalerDemo.busy Suggest ScalerDemo.start).2).1 = 4.
Proof. vm_compute. done. Qed.


Lemma cooldown_lasts_witness :
  let d := ScalerDemo.web 4 {[ annoLastScaleUp := format_RFC3339 GateDemo.now ]} in
  let env := mkEnv (GateDemo.policy_in Fix) (λ _, GateDemo.now + minute) None None true true true true "n" in
  (inCooldown (C := Z) env d annoLastScaleUp (2 * minute)
     (mkGState Z 0 None None None None None None None 0 [])).1 = true.
Proof.
  intros d env.
  refine (proj1 (cooldown_lasts env d annoLastScaleUp (2 * minute) GateDemo.now (GateDemo.now + minute)
    (mkGState Z 0 None None None None None None None 0 []) _ _ _ _ _) _);
    try reflexivity; vm_compute; intuition congruence.
Defined.

(** ** What modelling it showed *)

(** A policy's maximum below the agent's own minimum inverts the bounds: two
    replicas go up to three at most, and ten go down to five. *)
Example limits_can_invert :
  let pol := GateDemo.policy_in Fix in
  let p := crd.mkPolicy "shop" "p" (λ _, true) None 0 (crd.mkScale true 0 3 0 false) ""
             (crd.mkTicketing "" "" [] []) "" "" 0 false [] in
  let lim := scaleLimitsFor (mkPolicy Fix true (CPUThreshold pol) "5m" 2 10 "" false "" "2m" "10m"
                50 5 300 10 5 true ∅ ∅ ∅ ∅ false None) (Some p) in
  sl_min lim = 5 ∧ sl_max lim = 3 ∧ up_to lim 2 = 3 ∧ down_to lim 10 = 9.
Proof. vm_compute. done. Qed.

(** The sum of a step up wraps at 32 bits: a policy step near the maximum of
    an [int32] asks for a negative count. *)
Example step_up_overflows :
  let lim := mkLimits 1 50 2147483647 0 0 false in up_to lim 4 = -2147483645.
Proof. vm_compute. done. Qed.
