(* ===== verification/Baselines.v ===== *)
(** * Baselines: CollectBaselines of internal/kube/learning.go

    The pass of the leader loop that samples the CPU of every Deployment of
    the watched namespaces into the learned baselines, and saves them.  The
    cluster and Prometheus are read as the scaler reads them ([ScalerAPI]).
    Failed reads are counted; nothing reads the counter. *)
From S2P Require Import Prelude GoStd Policy RateLimit Guards Events Escalation Gate Kube Learning Calendar Scaler.
From Stdlib Require Import Ascii.
#[local] Open Scope Z_scope.

Section pass.
Context {C : Type} `{!ScalerAPI C} (pol : Policy).
(** The clock when the n-th sample of the pass is recorded. *)
Context (clock : nat → Time).
Definition sampleWindow : string := "5m".

(** The samples go into the map one by one; [None] is a panic. *)
Fixpoint sample_deployments (c : C) (ns : string) (ds : list Deployment) (k : nat) (lm : LearningMode)
  : option (nat * LearningMode) :=
  match ds with
  | [] => Some (k, lm)
  | d :: ds' =>
    match avg_cpu d sampleWindow c with
    | inr _ => sample_deployments c ns ds' k lm
    | inl cpu => lm' ← RecordCPU (clock k) ns (d_Name d) cpu lm; sample_deployments c ns ds' (S k) lm'
    end
  end.
Fixpoint sample_namespaces (c : C) (nss : list string) (k : nat) (lm : LearningMode) : option (nat * LearningMode) :=
  match nss with
  | [] => Some (k, lm)
  | ns :: nss' =>
    match list_deployments ns c with
    | inr _ => sample_namespaces c nss' k lm
    | inl ds => '(k', lm') ← sample_deployments c ns ds k lm; sample_namespaces c nss' k' lm'
    end
  end.
(** The baselines after the pass, and the file when it was written. *)
Definition CollectBaselines (mkdir_ok write_ok : bool) (c : C) (lm : option LearningMode)
  : option (option LearningMode * option file_read) :=
  match lm with
  | None => Some (None, None)
  | Some lm =>
    '(_, lm') ← sample_namespaces c (watchedNamespaces pol (list_namespaces c)) 0 lm;
    Some (Some lm', Save mkdir_ok write_ok lm')
  end.

(** ** The samples of a pass *)
Definition deployment_samples (c : C) (ns : string) (ds : list Deployment) : list (string * string * float64) :=
  omap (λ d, match avg_cpu d sampleWindow c with inl cpu => Some (ns, d_Name d, cpu) | inr _ => None end) ds.
Definition namespace_samples (c : C) (ns : string) : list (string * string * float64) :=
  match list_deployments ns c with inl ds => deployment_samples c ns ds | inr _ => [] end.
Definition pass_samples (c : C) : list (string * string * float64) :=
  mjoin (namespace_samples c <$> watchedNamespaces pol (list_namespaces c)).
Fixpoint timed (k : nat) (l : list (string * string * float64)) : list (Time * string * string * float64) :=
  match l with [] => [] | (ns, wl, cpu) :: l' => (clock k, ns, wl, cpu) :: timed (S k) l' end.
Lemma timed_app k l l' : timed k (l ++ l') = timed k l ++ timed (length l + k) l'.
Proof.
  revert k. induction l as [|[[ns wl] cpu] l IH]; intros k; [done|]. cbn. rewrite IH.
  do 3 f_equal. lia.
Qed.
Lemma record_cpus_app l l' lm : record_cpus (l ++ l') lm = record_cpus l lm ≫= record_cpus l'.
Proof.
  revert lm. induction l as [|[[[t ns] wl] cpu] l IH]; intros lm; [done|]. cbn. by destruct (RecordCPU t ns wl cpu lm).
Qed.
Lemma sample_deployments_spec c ns ds k lm :
  sample_deployments c ns ds k lm =
  (λ lm', (length (deployment_samples c ns ds) + k, lm')%nat) <$> record_cpus (timed k (deployment_samples c ns ds)) lm.
Proof.
  revert k lm. induction ds as [|d ds IH]; intros k lm; [done|]. cbn [sample_deployments deployment_samples omap list_omap].
  destruct (avg_cpu d sampleWindow c) as [cpu|e]; [|apply IH]. cbn [timed record_cpus length].
  destruct (RecordCPU (clock k) ns (d_Name d) cpu lm) as [lm'|]; [|done]. cbn [mbind option_bind].
  rewrite IH. unfold deployment_samples. by rewrite Nat.add_succ_r.
Qed.
Lemma sample_namespaces_spec c nss k lm :
  snd <$> sample_namespaces c nss k lm = record_cpus (timed k (mjoin (namespace_samples c <$> nss))) lm.
Proof.
  revert k lm. induction nss as [|ns nss IH]; intros k lm; [done|].
  cbn [sample_namespaces fmap list_fmap mjoin list_join]. unfold namespace_samples at 1.
  destruct (list_deployments ns c) as [ds|e]; [|apply IH]. rewrite timed_app, record_cpus_app, sample_deployments_spec.
  destruct (record_cpus _ lm) as [lm'|]; [|done]. cbn. apply IH.
Qed.
End pass.

(** ** What the passes learn *)
Section passes.
Context {C : Type} `{!ScalerAPI C} (pol : Policy).
(** The passes of the loop: each sees a cluster and a clock, and is able to
    save or not. *)
Record pass_env := mkPass { pe_cluster : C; pe_clock : nat → Time; pe_mkdir : bool; pe_write : bool }.
Definition collect (lm : option (option LearningMode * option file_read)) (p : pass_env)
  : option (option LearningMode * option file_read) :=
  '(lm, file) ← lm;
  '(lm', written) ← CollectBaselines pol (pe_clock p) (pe_mkdir p) (pe_write p) (pe_cluster p) lm;
  Some (lm', match written with Some f => Some f | None => file end).
(** The readings of one workload in a pass: its namespace is watched and
    listed, and Prometheus answers. *)
Definition readings (ns wl : string) (c : C) : list float64 :=
  mjoin ((λ n, if str_eqb n ns then
    match list_deployments ns c with
    | inl ds => omap (λ d, if str_eqb (d_Name d) wl
                           then match avg_cpu d sampleWindow c with inl cpu => Some cpu | inr _ => None end else None) ds
    | inr _ => []
    end else []) <$> watchedNamespaces pol (list_namespaces c)).

Lemma samples_of_app ns wl l l' : samples_of ns wl (l ++ l') = samples_of ns wl l ++ samples_of ns wl l'.
Proof. apply omap_app. Qed.
Lemma samples_of_deployments clock c ns wl n ds k :
  samples_of ns wl (timed clock k (deployment_samples c n ds)) =
  if str_eqb n ns then omap (λ d, if str_eqb (d_Name d) wl
    then match avg_cpu d sampleWindow c with inl cpu => Some cpu | inr _ => None end else None) ds else [].
Proof.
  revert k. induction ds as [|d ds IH]; intros k; [by destruct (str_eqb n ns)|].
  cbn [deployment_samples omap list_omap]. unfold deployment_samples in IH.
  destruct (avg_cpu d sampleWindow c) as [cpu|e].
  - cbn [timed]. unfold samples_of. cbn [omap list_omap]. unfold samples_of in IH. rewrite IH.
    destruct (str_eqb n ns), (str_eqb (d_Name d) wl); done.
  - rewrite IH. by destruct (str_eqb n ns), (str_eqb (d_Name d) wl).
Qed.
Lemma samples_of_pass clock ns wl c k : samples_of ns wl (timed clock k (pass_samples pol c)) = readings ns wl c.
Proof.
  unfold pass_samples, readings. generalize (watchedNamespaces pol (list_namespaces c)). intros nss.
  revert k. induction nss as [|n nss IH]; intros k; [done|]. cbn [fmap list_fmap mjoin list_join].
  rewrite timed_app, samples_of_app, IH. f_equal. unfold namespace_samples.
  destruct (str_eqb n ns) eqn:E.
  - apply str_eqb_eq in E as ->. destruct (list_deployments ns c); [|done].
    by rewrite samples_of_deployments, str_eqb_refl.
  - destruct (list_deployments n c); [|done]. by rewrite samples_of_deployments, E.
Qed.
Lemma timed_namespaces clock c k : (∀ n, n ∈ watchedNamespaces pol (list_namespaces c) → no_byte "/"%char n) →
  Forall (λ x, no_byte "/"%char x.1.1.2) (timed clock k (pass_samples pol c)).
Proof.
  intros H. assert (Forall (λ x : string * string * float64, no_byte "/"%char x.1.1) (pass_samples pol c)) as Hl.
  { apply Forall_forall. intros x Hx. unfold pass_samples in Hx.
    apply list_elem_of_join in Hx as (l & Hx & (n & -> & Hn)%list_elem_of_fmap).
    unfold namespace_samples in Hx. destruct (list_deployments n c) as [ds|]; [|by apply elem_of_nil in Hx].
    apply list_elem_of_omap in Hx as (d & _ & Hd). destruct (avg_cpu d sampleWindow c); [|done]. injection Hd as <-.
    by apply H. }
  revert k. induction Hl as [|[[n w] cpu] l Hn _ IH]; intros k; constructor; [done|apply IH].
Qed.

(** From a first start the baseline of a workload is that of the readings
    of all its passes, the last thousand of them: the number, the mean, the
    deviation and the threshold; a workload never read has none.  Failed
    reads and failed saves cost no more than themselves. *)
Theorem baselines_follow_the_passes start path period passes ns wl :
  no_byte "/"%char ns →
  Forall (λ p, ∀ n, n ∈ watchedNamespaces pol (list_namespaces (pe_cluster p)) → no_byte "/"%char n) passes →
  ∃ lm file, foldl collect (Some (Some (NewLearningMode start path period FileMissing), None)) passes = Some (Some lm, file)
    ∧ let seen := mjoin (readings ns wl ∘ pe_cluster <$> passes) in
      match GetBaseline ns wl lm with None => seen = [] | Some bl => seen ≠ [] ∧ describes seen bl end.
Proof.
  intros Hns Hall.
  assert (∀ seen lm file, tracks ns wl seen lm → ∃ lm' file', foldl collect (Some (Some lm, file)) passes = Some (Some lm', file')
    ∧ tracks ns wl (seen ++ mjoin (readings ns wl ∘ pe_cluster <$> passes)) lm') as H.
  { induction Hall as [|p passes Hp _ IH]; intros seen lm file Ht; cbn [foldl fmap list_fmap mjoin list_join].
    { exists lm, file. by rewrite app_nil_r. }
    destruct (record_cpus_tracks ns wl (timed (pe_clock p) 0 (pass_samples pol (pe_cluster p))) seen lm Hns) as (lm' & Hr & Ht');
      [by apply timed_namespaces|done|].
    rewrite samples_of_pass in Ht'. unfold pass_samples in Hr. rewrite <-sample_namespaces_spec in Hr.
    destruct (IH _ lm' (match Save (pe_mkdir p) (pe_write p) lm' with Some f => Some f | None => file end) Ht')
      as (lm2 & file2 & H2 & Ht2).
    exists lm2, file2. split; [|by rewrite (assoc_L (++))]. rewrite <-H2. f_equal. cbn [collect mbind option_bind].
    unfold CollectBaselines. apply fmap_Some in Hr as ([k lm3] & -> & ->). done. }
  destruct (H [] (NewLearningMode start path period FileMissing) None) as (lm & file & H1 & _ & H2).
  { split; [by eexists|]. unfold GetBaseline. cbn [NewLearningMode load lm_baselines]. by rewrite lookup_empty. }
  by exists lm, file.
Qed.
End passes.
