(* ===== verification/Metrics.v ===== *)
(** * Metrics: the metrics provider (internal/metrics/provider.go)

    The queries and their answers.  The HTTP exchange and the decoding of
    the answer's JSON are parameters; what the answer must be, and how its
    values are read, is the code's. *)
From S2P Require Import Prelude GoStd.
From Stdlib Require Import Ascii SpecFloat.
#[local] Open Scope Z_scope.

Record Sample := mkSample { sm_Labels : gmap string string; sm_Value : float64 }.
Definition sm_label (s : Sample) (k : string) : string := default "" (sm_Labels s !! k).
Inductive query_error := ErrNoPromQL | QueryFailed (text : string).
Inductive Provider := Stub | Prom.
(** [NewProvider]: the kind and the URL. *)
Definition NewProvider (kind url : string) : Provider + string :=
  if str_eqb kind "prometheus"
  then if str_eqb url "" then inr "PROMETHEUS_URL required for prometheus provider" else inl Prom
  else inl Stub.

(** ** The text of a value: [fmt.Sscanf] with [%f] *)
Section scan.
(** One character of a set, if it is there. *)
Definition accept (set : list ascii) (s : string) : option (ascii * string) :=
  match s with
  | String c s' => if bool_decide (c ∈ set) then Some (c, s') else None
  | EmptyString => None
  end.
(** The characters of a set, as many as there are. *)
Fixpoint accept_run (f : ascii → bool) (s : string) : string * string :=
  match s with
  | String c s' => if f c then (String c (accept_run f s').1, (accept_run f s').2) else ("", s)
  | EmptyString => ("", "")
  end.
Definition opt_text (r : option (ascii * string)) (s : string) : string * string :=
  match r with Some (c, s') => (String c "", s') | None => ("", s) end.
(** Three letters in any case; what is accepted of them stays accepted. *)
Fixpoint accept_word (sets : list (list ascii)) (s : string) : string * string * bool :=
  match sets with
  | [] => ("", s, true)
  | set :: sets' =>
    match accept set s with
    | Some (c, s') => let '(w, r, ok) := accept_word sets' s' in (String c w, r, ok)
    | None => ("", s, false)
    end
  end.
Definition is_digit (hex : bool) (c : ascii) : bool :=
  bool_decide (is_Some (if hex then ParseFloat.hex_val c else digit_val c)) || bool_decide (c = "_"%char).
Definition sign_set : list ascii := ["+"; "-"]%char.
(** [floatToken]. *)
Definition floatToken (s : string) : string :=
  let '(w1, s1, nan) := accept_word [["n"; "N"]; ["a"; "A"]; ["n"; "N"]]%char s in
  if nan : bool then w1
  else
    let '(w2, s2) := opt_text (accept sign_set s1) s1 in
    let '(w3, s3, inf) := accept_word [["i"; "I"]; ["n"; "N"]; ["f"; "F"]]%char s2 in
    if inf : bool then w1 +:+ w2 +:+ w3
    else
      let '(w4, s4, hex) := accept_word [["0"]; ["x"; "X"]]%char s3 in
      let '(w5, s5) := accept_run (is_digit hex) s4 in
      let '(w6, s6) :=
        match accept ["."%char] s5 with
        | Some (c, r) => let '(f, r) := accept_run (is_digit hex) r in (String c f, r)
        | None => ("", s5)
        end in
      let '(w7, _) :=
        match accept (if hex then ["p"; "P"] else ["e"; "E"; "p"; "P"])%char s6 with
        | Some (c, r) =>
          let '(sg, r) := opt_text (accept sign_set r) r in
          let '(d, r) := accept_run (is_digit false) r in (String c (sg +:+ d), r)
        | None => ("", s6)
        end in
      w1 +:+ w2 +:+ w3 +:+ w4 +:+ w5 +:+ w6 +:+ w7.
(** A decimal mantissa with a binary exponent is [math.Ldexp]'s. *)
Definition Ldexp (f : float64) (e : Z) : float64 :=
  match f with
  | S754_finite s m k => binary_normalize f64_prec f64_emax (if s then Z.neg m else Z.pos m) (k + e) s
  | _ => f
  end.
Definition scan_float (s : string) : option float64 :=
  let tok := floatToken s in
  if strings_Contains tok "p" && negb (strings_Contains tok "x") && negb (strings_Contains tok "X")
  then '(m, e) ← strings_CutS tok "p";
       f ← strconv_ParseFloat m; n ← strconv_Atoi e; Some (Ldexp f n)
  else strconv_ParseFloat tok.
(** Spaces before the token are skipped; a line end or the end of the text
    is an error. *)
Fixpoint skip_space (s : string) : option string :=
  match s with
  | String c s' =>
    if bool_decide (c ∈ ["010"; "013"]%char) then None
    else if bool_decide (c ∈ [" "; "009"; "011"; "012"]%char) then skip_space s' else Some s
  | EmptyString => None
  end.
Definition Sscanf_f (s : string) : option float64 := s ← skip_space s; scan_float s.
End scan.

(** ** Queries *)

(** An answer of the HTTP API as [encoding/json] decodes it: the status, and
    of each series the labels and the second element of its value, when
    that is a text. *)
Record PromAnswer := mkAnswer { pa_Status : string; pa_Result : list (gmap string string * option string) }.
Class PromServer (C : Type) := {
  prom_get : string → C → (Z * string) + string; (* the query; status and body *)
  prom_decode : string → PromAnswer + string
}.
Definition truncBody (b : string) : string :=
  if (200 <? String.length b)%nat then str_take 200 b +:+ "..." else b.
Fixpoint samples_of (l : list (gmap string string * option string)) : list Sample + string :=
  match l with
  | [] => inl []
  | (labels, None) :: _ => inr "prometheus: unexpected value type"
  | (labels, Some v) :: l' =>
    match Sscanf_f v with
    | None => inr ("prometheus: parse value " +:+ strconv_Quote v)
    | Some f => match samples_of l' with inl r => inl (mkSample labels f :: r) | inr e => inr e end
    end
  end.
Section queries.
Context {C : Type} `{!PromServer C}.
Definition prom_QueryVector (q : string) (c : C) : list Sample + string :=
  match prom_get q c with
  | inr e => inr ("prometheus: query: " +:+ e)
  | inl (status, body) =>
    let b := str_take (Z.to_nat (2 ^ 20)) body in
    if negb (status =? 200) then inr ("prometheus: status " +:+ itoa status +:+ ": " +:+ truncBody b)
    else match prom_decode b with
         | inr e => inr ("prometheus: unmarshal: " +:+ e)
         | inl a => if negb (str_eqb (pa_Status a) "success")
                    then inr ("prometheus: query status: " +:+ pa_Status a)
                    else samples_of (pa_Result a)
         end
  end.
Definition QueryVector (p : Provider) (q : string) (c : C) : list Sample + query_error :=
  match p with
  | Stub => inr ErrNoPromQL
  | Prom => match prom_QueryVector q c with inl v => inl v | inr e => inr (QueryFailed e) end
  end.
Definition QueryInstant (p : Provider) (q : string) (c : C) : float64 + query_error :=
  match QueryVector p q c with
  | inr e => inr e
  | inl [] => inr (QueryFailed "prometheus: no data for query")
  | inl (s :: _) => inl (sm_Value s)
  end.
(** Of ASCII text: what a label value may hold stays, the rest becomes an
    underscore. *)
Definition is_label_char (c : ascii) : bool :=
  let n := N_of_ascii c in
  ((97 <=? n) && (n <=? 122) || (65 <=? n) && (n <=? 90) || (48 <=? n) && (n <=? 57))%N
  || bool_decide (c ∈ ["_"; "-"; "."]%char).
Definition sanitizeLabelValue (s : string) : string := str_map (λ c, if is_label_char c then c else "_"%char) s.
Definition cpu_query (ns name window : string) : string :=
  "avg(rate(container_cpu_usage_seconds_total{namespace=" +:+ dq +:+ sanitizeLabelValue ns +:+ dq +:+ ",pod=~" +:+ dq
  +:+ sanitizeLabelValue name +:+ "-.*" +:+ dq +:+ ",container!=" +:+ dq +:+ dq +:+ ",image!=" +:+ dq +:+ dq +:+ "}["
  +:+ (if str_eqb window "" then "5m" else window) +:+ "]))".
Definition AvgDeploymentCPU (p : Provider) (ns name window : string) (c : C) : float64 + query_error :=
  match p with
  | Stub => inr (QueryFailed "metrics provider not implemented; configure prometheus")
  | Prom => QueryInstant Prom (cpu_query ns name window) c
  end.
End queries.

(** ** What the queries promise *)

Lemma sanitize_no_quote s : no_byte "034" (sanitizeLabelValue s).
Proof.
  unfold no_byte, sanitizeLabelValue. induction s as [|c s IH]; [done|]. cbn [str_map strings_Split].
  rewrite IH. rewrite bool_decide_false; [done|]. destruct (is_label_char c) eqn:E; [|done].
  intros ->. by vm_compute in E.
Qed.
(** Whatever the names, the query about a Deployment is the one query with
    two texts filled in, and neither can end the quotes it stands in. *)
Theorem cpu_query_injection_free ns name window :
  ∃ ns' name', no_byte "034" ns' ∧ no_byte "034" name'
    ∧ cpu_query ns name window
      = "avg(rate(container_cpu_usage_seconds_total{namespace=" +:+ dq +:+ ns' +:+ dq +:+ ",pod=~" +:+ dq
        +:+ name' +:+ "-.*" +:+ dq +:+ ",container!=" +:+ dq +:+ dq +:+ ",image!=" +:+ dq +:+ dq +:+ "}["
        +:+ (if str_eqb window "" then "5m" else window) +:+ "]))".
Proof. exists (sanitizeLabelValue ns), (sanitizeLabelValue name). split_and!; [apply sanitize_no_quote..|done]. Qed.

(** A query with samples answered them all: one per series, in order, each
    the value its text reads as. *)
Theorem QueryVector_samples {C} `{!PromServer C} p q (c : C) v :
  QueryVector p q c = inl v →
  p = Prom ∧ ∃ body a, prom_get q c = inl (200, body) ∧ prom_decode (str_take (Z.to_nat (2 ^ 20)) body) = inl a
    ∧ pa_Status a = "success"
    ∧ Forall2 (λ r s, ∃ t, r.2 = Some t ∧ Sscanf_f t = Some (sm_Value s) ∧ sm_Labels s = r.1) (pa_Result a) v.
Proof.
  unfold QueryVector, prom_QueryVector. destruct p; [done|]. destruct (prom_get q c) as [[status body]|]; [|done].
  destruct (Z.eqb_spec status 200) as [->|]; cbn [negb]; [|done].
  destruct (prom_decode _) as [a|] eqn:Ed; [|done]. unfold str_eqb. case_bool_decide as Hst; cbn [negb]; [|done].
  intros H. split; [done|]. exists body, a. split_and!; [done..|].
  assert (samples_of (pa_Result a) = inl v) as Hs by (destruct (samples_of _); by simplify_eq/=). clear H.
  revert v Hs. induction (pa_Result a) as [|[labels [t|]] l IH]; intros v Hs; simpl in Hs; simplify_eq; [done|].
  destruct (Sscanf_f t) as [f|] eqn:Ef; [|done]. destruct (samples_of l) as [r|] eqn:El; [|done]. simplify_eq.
  constructor; [by exists t|by apply IH].
Qed.

Example values_read :
  Sscanf_f "1.5" = strconv_ParseFloat "1.5" ∧ Sscanf_f "1.5e3 trailing" = strconv_ParseFloat "1500"
  ∧ Sscanf_f "NaN" = Some S754_nan ∧ Sscanf_f "+Inf" = Some (f64_inf false) ∧ Sscanf_f "" = None
  ∧ Sscanf_f "0x1p4" = strconv_ParseFloat "16" ∧ Sscanf_f "3p2" = strconv_ParseFloat "12".
Proof. vm_compute. done. Qed.
