(* ===== verification/ReloadRefs.v ===== *)
(** * ReloadRefs: which configuration a pod template uses, and the rules

    [internal/kube/reload_refs.go] and [reload_policy.go]: the ConfigMaps
    and Secrets a pod spec uses and by which keys, the keys a change touches,
    the hash of the keys in use, and the annotations that decide whether a
    change restarts a workload.  A pod spec holds the fields this code
    reads; a pointer that may be nil is an option.  Values are byte
    strings. *)
From S2P Require Import Prelude GoStd Sha256.
From Stdlib Require Import Ascii.
#[local] Open Scope Z_scope.

(** ** Pod specs *)
Record EnvVar := mkEnvVar {
  ev_ConfigMapKeyRef : option (string * string); (* name, key *)
  ev_SecretKeyRef : option (string * string)
}.
Record EnvFromSource := mkEnvFrom { ef_ConfigMapRef : option string; ef_SecretRef : option string }.
Record VolumeMount := mkMount { vm_Name : string; vm_SubPath : string; vm_SubPathExpr : string }.
Record RContainer := mkRContainer {
  rc_Env : list EnvVar; rc_EnvFrom : list EnvFromSource; rc_VolumeMounts : list VolumeMount
}.
(** An object a volume mounts, with the keys of its items. *)
Record mounted := mkMounted { mt_Name : string; mt_Items : list string }.
Record Projection := mkProjection { pj_ConfigMap : option mounted; pj_Secret : option mounted }.
Record Volume := mkVolume {
  vol_Name : string; vol_ConfigMap : option mounted; vol_Secret : option mounted;
  vol_Projected : option (list Projection)
}.
Record PodSpec := mkPodSpec {
  ps_InitContainers : list RContainer; ps_Containers : list RContainer; ps_Volumes : list Volume
}.

(** ** References *)
Inductive refKind := refConfigMap | refSecret.
#[export] Instance refKind_eq_dec : EqDecision refKind.
Proof. solve_decision. Defined.
#[export] Instance refKind_countable : Countable refKind.
Proof.
  refine (inj_countable' (λ k, match k with refConfigMap => true | refSecret => false end)
    (λ b : bool, if b then refConfigMap else refSecret) _). by intros [].
Defined.
Record objRef := mkRef { or_Kind : refKind; or_Name : string }.
#[export] Instance objRef_eq_dec : EqDecision objRef.
Proof. solve_decision. Defined.
#[export] Instance objRef_countable : Countable objRef.
Proof.
  refine (inj_countable' (λ r, (or_Kind r, or_Name r)) (λ p, mkRef p.1 p.2) _). by intros [].
Defined.
Definition objRef_String (r : objRef) : string :=
  match or_Kind r with refConfigMap => "configmap" | refSecret => "secret" end +:+ "/" +:+ or_Name r.

Record refUse := mkUse { ru_AllKeys : bool; ru_Keys : gset string; ru_NeedsRestart : bool }.
Definition no_use : refUse := mkUse false ∅ false.
Definition addKey (k : string) (u : refUse) : refUse :=
  mkUse (ru_AllKeys u) ({[ k ]} ∪ ru_Keys u) (ru_NeedsRestart u).
Definition use_restart (u : refUse) : refUse := mkUse (ru_AllKeys u) (ru_Keys u) true.
Definition use_all (u : refUse) : refUse := mkUse true (ru_Keys u) (ru_NeedsRestart u).

(** The map of [templateRefs]; [use] finds or makes an entry, which the code
    then changes through its pointer. *)
Abbreviation refs := (gmap objRef refUse) (only parsing).
Definition use (r : objRef) (f : refUse → refUse) (m : refs) : refs :=
  <[r := f (default no_use (m !! r))]> m.

Definition env_use (e : EnvVar) (m : refs) : refs :=
  let m := match ev_ConfigMapKeyRef e with
           | Some (name, key) => use (mkRef refConfigMap name) (λ u, use_restart (addKey key u)) m
           | None => m
           end in
  match ev_SecretKeyRef e with
  | Some (name, key) => use (mkRef refSecret name) (λ u, use_restart (addKey key u)) m
  | None => m
  end.
Definition envFrom_use (e : EnvFromSource) (m : refs) : refs :=
  let m := match ef_ConfigMapRef e with
           | Some name => use (mkRef refConfigMap name) (λ u, use_restart (use_all u)) m
           | None => m
           end in
  match ef_SecretRef e with
  | Some name => use (mkRef refSecret name) (λ u, use_restart (use_all u)) m
  | None => m
  end.
Definition container_use (m : refs) (c : RContainer) : refs :=
  foldl (λ m e, envFrom_use e m) (foldl (λ m e, env_use e m) m (rc_Env c)) (rc_EnvFrom c).

Record volumeRef := mkVolRef { vr_ref : objRef; vr_keys : list string }.
Definition volumeRefs (v : Volume) : list volumeRef :=
  let mount k (o : option mounted) :=
    match o with Some t => [mkVolRef (mkRef k (mt_Name t)) (mt_Items t)] | None => [] end in
  mount refConfigMap (vol_ConfigMap v) ++ mount refSecret (vol_Secret v)
  ++ mjoin ((λ s, mount refConfigMap (pj_ConfigMap s) ++ mount refSecret (pj_Secret s))
              <$> default [] (vol_Projected v)).

Definition subPathVolumes (cs : list RContainer) : gset string :=
  list_to_set (vm_Name <$> filter (λ t, vm_SubPath t ≠ "" ∨ vm_SubPathExpr t ≠ "") (mjoin (rc_VolumeMounts <$> cs))).
Definition volume_use (sub : gset string) (vol : string) (m : refs) (r : volumeRef) : refs :=
  use (vr_ref r) (λ u,
    let u := match vr_keys r with [] => use_all u | ks => foldr addKey u ks end in
    if bool_decide (vol ∈ sub) then use_restart u else u) m.

Definition templateRefs (spec : PodSpec) : refs :=
  let containers := ps_InitContainers spec ++ ps_Containers spec in
  let m := foldl container_use ∅ containers in
  let sub := subPathVolumes containers in
  foldl (λ m v, foldl (volume_use sub (vol_Name v)) m (volumeRefs v)) m (ps_Volumes spec).

(** ** Changes *)
Abbreviation data := (gmap string string) (only parsing).
Definition configMapData (Data BinaryData : data) : data := BinaryData ∪ Data.
Definition changedKeys (before after : data) : list string :=
  sort_strings ((filter (λ kv, before !! kv.1 ≠ Some kv.2) (map_to_list after)).*1
    ++ (filter (λ kv, after !! kv.1 = None) (map_to_list before)).*1).

Definition affects (u : refUse) (changed : list string) : bool :=
  if bool_decide (changed = []) then false
  else ru_AllKeys u || existsb (λ k, bool_decide (k ∈ ru_Keys u)) changed.

Definition zero_byte : string := String "000"%char "".
Definition used_keys (u : refUse) (d : data) : list string :=
  sort_strings (filter (λ k, ru_AllKeys u = true ∨ k ∈ ru_Keys u) (map_to_list d).*1).
(** What is hashed: each key and its value, each with a zero byte after. *)
Fixpoint used_bytes (keys : list string) (d : data) : string :=
  match keys with
  | [] => ""
  | k :: keys' => k +:+ zero_byte +:+ default "" (d !! k) +:+ zero_byte +:+ used_bytes keys' d
  end.
Definition usedHash (u : refUse) (d : data) : string :=
  str_take 16 (hex_encode (sha256_sum (used_bytes (used_keys u d) d))).

(** ** Rules *)
Definition annReload : string := "auto-agent.io/reload".
Definition annReloadConfigMaps : string := "auto-agent.io/reload-configmaps".
Definition annReloadSecrets : string := "auto-agent.io/reload-secrets".
Definition annReloadOn : string := "auto-agent.io/reload-on".
Definition annStakaterAuto : string := "reloader.stakater.com/auto".
Definition annStakaterCMAuto : string := "configmap.reloader.stakater.com/auto".
Definition annStakaterSecAuto : string := "secret.reloader.stakater.com/auto".
Definition annStakaterCMReload : string := "configmap.reloader.stakater.com/reload".
Definition annStakaterSecReload : string := "secret.reloader.stakater.com/reload".
Definition annStakaterSearch : string := "reloader.stakater.com/search".
Definition annStakaterMatch : string := "reloader.stakater.com/match".
Definition annStakaterIgnore : string := "reloader.stakater.com/ignore".
Definition reloadOnAuto : string := "auto".
Definition reloadOnAlways : string := "always".

(** Reading a missing annotation gives the empty text. *)
Definition ann_get (ann : gmap string string) (k : string) : string := default "" (ann !! k).
Definition isTrue (v : string) : bool := strings_EqualFold_const (strings_TrimSpace v) "true".
Definition isFalse (v : string) : bool := strings_EqualFold_const (strings_TrimSpace v) "false".

Record reloadRules := mkRules {
  rr_off : gset refKind; rr_named : gset objRef; rr_search : bool; rr_on : string
}.
Definition named_in (ann : gmap string string) (kv : string * refKind) : list objRef :=
  mkRef kv.2 <$> filter (λ n, n ≠ "")
    (strings_TrimSpace <$> strings_Split (ann_get ann kv.1) ","%char).
Definition workloadRules (ann : gmap string string) : reloadRules :=
  let has k := isFalse (ann_get ann k) in
  mkRules
    ((if has annReload || has annStakaterAuto then {[ refConfigMap; refSecret ]} else ∅)
     ∪ (if has annStakaterCMAuto then {[ refConfigMap ]} else ∅)
     ∪ (if has annStakaterSecAuto then {[ refSecret ]} else ∅))
    (list_to_set (mjoin (named_in ann <$>
       [(annReloadConfigMaps, refConfigMap); (annStakaterCMReload, refConfigMap);
        (annReloadSecrets, refSecret); (annStakaterSecReload, refSecret)])))
    (isTrue (ann_get ann annStakaterSearch)) (ann_get ann annReloadOn).

Definition objectIgnored (ann : gmap string string) : bool :=
  isTrue (ann_get ann annStakaterIgnore) || isFalse (ann_get ann annReload).

Definition shouldReload (r : reloadRules) (ref : objRef) (used : option refUse)
  (changed : list string) (objAnn : gmap string string) (defaultOn : string) : bool :=
  if bool_decide (or_Kind ref ∈ rr_off r) || objectIgnored objAnn || bool_decide (changed = [])
  then false
  else if bool_decide (ref ∈ rr_named r) then true
  else match used with
  | None => false
  | Some u =>
    if (rr_search r && negb (isTrue (ann_get objAnn annStakaterMatch))) || negb (affects u changed)
    then false
    else
      let on := if negb (str_eqb (rr_on r) reloadOnAlways) && negb (str_eqb (rr_on r) reloadOnAuto)
                then defaultOn else rr_on r in
      str_eqb on reloadOnAlways || ru_NeedsRestart u
  end.

(** ** The references of a template, as one list *)

(** A mention: the object, the key (or all of them), and whether only a
    restart shows the change. *)
Record mention := mkMention { mn_ref : objRef; mn_key : option string; mn_restart : bool }.

Definition env_mentions (e : EnvVar) : list mention :=
  (match ev_ConfigMapKeyRef e with
   | Some (n, k) => [mkMention (mkRef refConfigMap n) (Some k) true] | None => [] end)
  ++ (match ev_SecretKeyRef e with
      | Some (n, k) => [mkMention (mkRef refSecret n) (Some k) true] | None => [] end).
Definition envFrom_mentions (e : EnvFromSource) : list mention :=
  (match ef_ConfigMapRef e with Some n => [mkMention (mkRef refConfigMap n) None true] | None => [] end)
  ++ (match ef_SecretRef e with Some n => [mkMention (mkRef refSecret n) None true] | None => [] end).
Definition volume_mentions (sub : gset string) (vol : string) (r : volumeRef) : list mention :=
  let restart := bool_decide (vol ∈ sub) in
  match vr_keys r with
  | [] => [mkMention (vr_ref r) None restart]
  | ks => (λ k, mkMention (vr_ref r) (Some k) restart) <$> ks
  end.
Definition container_mentions (c : RContainer) : list mention :=
  mjoin (env_mentions <$> rc_Env c) ++ mjoin (envFrom_mentions <$> rc_EnvFrom c).
Definition mentions (spec : PodSpec) : list mention :=
  let cs := ps_InitContainers spec ++ ps_Containers spec in
  mjoin (container_mentions <$> cs)
  ++ mjoin ((λ v, mjoin (volume_mentions (subPathVolumes cs) (vol_Name v) <$> volumeRefs v)) <$> ps_Volumes spec).

(** An entry says what the mentions of its object say. *)
Definition says (u : refUse) (L : list mention) : Prop :=
  (ru_AllKeys u = true ↔ ∃ t, t ∈ L ∧ mn_key t = None)
  ∧ (∀ k, k ∈ ru_Keys u ↔ ∃ t, t ∈ L ∧ mn_key t = Some k)
  ∧ (ru_NeedsRestart u = true ↔ ∃ t, t ∈ L ∧ mn_restart t = true).
Definition of_ref (r : objRef) (L : list mention) : list mention := filter (λ t, mn_ref t = r) L.
Definition describes (m : refs) (L : list mention) : Prop :=
  ∀ r, match m !! r with
       | None => of_ref r L = []
       | Some u => of_ref r L ≠ [] ∧ says u (of_ref r L)
       end.

Lemma says_none : says no_use [].
Proof.
  unfold says, no_use. cbn. split_and!; intros; (split; [try done; set_solver|]);
    by intros (? & []%not_elem_of_nil & _).
Qed.
Lemma of_ref_app r L L' : of_ref r (L ++ L') = of_ref r L ++ of_ref r L'.
Proof. apply filter_app. Qed.
Lemma of_ref_all r L : Forall (λ t, mn_ref t = r) L → of_ref r L = L.
Proof.
  unfold of_ref. induction 1 as [|t L Ht _ IH]; [done|]. by rewrite filter_cons_True, IH.
Qed.
Lemma of_ref_other r r' L : r' ≠ r → Forall (λ t, mn_ref t = r) L → of_ref r' L = [].
Proof.
  intros Hne. unfold of_ref. induction 1 as [|t L Ht _ IH]; [done|]. by rewrite filter_cons_False by congruence.
Qed.

(** Changing one entry adds mentions of its object. *)
Lemma describes_use r f m L L' :
  describes m L → L' ≠ [] → Forall (λ t, mn_ref t = r) L' →
  (∀ u L0, says u L0 → says (f u) (L0 ++ L')) → describes (use r f m) (L ++ L').
Proof.
  intros Hm Hne HL Hf r'. unfold use. rewrite of_ref_app. specialize (Hm r').
  destruct (decide (r' = r)) as [->|Hr].
  - rewrite lookup_insert_eq, (of_ref_all r L') by done. split.
    + intros [_ ?]%app_eq_nil. done.
    + apply Hf. destruct (m !! r) as [u|]; [apply Hm|]. rewrite Hm. apply says_none.
  - rewrite lookup_insert_ne, (of_ref_other r r' L'), app_nil_r by done. done.
Qed.
Lemma describes_foldl {A} (f : refs → A → refs) (g : A → list mention) l m L :
  (∀ m L a, describes m L → describes (f m a) (L ++ g a)) →
  describes m L → describes (foldl f m l) (L ++ mjoin (g <$> l)).
Proof.
  intros Hf. revert m L. induction l as [|a l IH]; intros m L Hm; cbn; [by rewrite app_nil_r|].
  rewrite app_assoc. apply IH, Hf, Hm.
Qed.

(** The changes of an entry, one mention each. *)
Ltac solve_says :=
  unfold says; cbn; intros; destruct_and?; split_and!; intros;
  rewrite ?elem_of_union, ?elem_of_singleton; setoid_rewrite elem_of_app;
  setoid_rewrite list_elem_of_singleton; naive_solver.
Lemma says_key (r : objRef) (k : string) (b : bool) (u : refUse) (L : list mention) :
  says u L → says (if b then use_restart (addKey k u) else addKey k u) (L ++ [mkMention r (Some k) b]).
Proof. destruct b; solve_says. Qed.
Lemma says_all (r : objRef) (b : bool) (u : refUse) (L : list mention) :
  says u L → says (if b then use_restart (use_all u) else use_all u) (L ++ [mkMention r None b]).
Proof. destruct b; solve_says. Qed.
Lemma says_keys (r : objRef) (ks : list string) (b : bool) (u : refUse) (L : list mention) :
  ks ≠ [] → says u L →
  says (if b then use_restart (foldr addKey u ks) else foldr addKey u ks)
       (L ++ ((λ k, mkMention r (Some k) b) <$> ks)).
Proof.
  intros Hne (H1 & H2 & H3).
  assert (ru_AllKeys (foldr addKey u ks) = ru_AllKeys u
    ∧ ru_NeedsRestart (foldr addKey u ks) = ru_NeedsRestart u
    ∧ ∀ k, k ∈ ru_Keys (foldr addKey u ks) ↔ k ∈ ks ∨ k ∈ ru_Keys u) as (E1 & E2 & E3).
  { clear. induction ks as [|k ks (E1 & E2 & E3)]; cbn; [set_solver|].
    split_and!; [done|done|]. intros k'. rewrite elem_of_union, E3, elem_of_singleton, elem_of_cons. tauto. }
  assert (∀ t, t ∈ (λ k, mkMention r (Some k) b) <$> ks ↔ ∃ k, t = mkMention r (Some k) b ∧ k ∈ ks) as Ht
    by (intros t; apply list_elem_of_fmap).
  destruct ks as [|k0 ks]; [done|]. unfold says. setoid_rewrite elem_of_app. setoid_rewrite Ht.
  split_and!.
  - transitivity (ru_AllKeys u = true); [destruct b; cbn in *; by rewrite E1|]. rewrite H1. naive_solver.
  - intros k. transitivity (k ∈ k0 :: ks ∨ k ∈ ru_Keys u); [destruct b; apply E3|]. rewrite H2. naive_solver.
  - destruct b; cbn [use_restart ru_NeedsRestart].
    + split; [|done]. intros _. exists (mkMention r (Some k0) true). split; [|done]. right.
      exists k0. split; [done|left].
    + rewrite E2, H3. naive_solver.
Qed.

Lemma describes_env (m : refs) L e : describes m L → describes (env_use e m) (L ++ env_mentions e).
Proof.
  intros H. unfold env_use, env_mentions.
  destruct (ev_ConfigMapKeyRef e) as [[n k]|], (ev_SecretKeyRef e) as [[n' k']|]; cbn [app];
    rewrite ?app_nil_r; rewrite ?(app_assoc L [_] [_] : L ++ [_; _] = _);
    repeat (apply describes_use; [|done|by constructor|intros u L0; apply (says_key _ _ true)]); done.
Qed.
Lemma describes_envFrom (m : refs) L e : describes m L → describes (envFrom_use e m) (L ++ envFrom_mentions e).
Proof.
  intros H. unfold envFrom_use, envFrom_mentions.
  destruct (ef_ConfigMapRef e) as [n|], (ef_SecretRef e) as [n'|]; cbn [app];
    rewrite ?app_nil_r; rewrite ?(app_assoc L [_] [_] : L ++ [_; _] = _);
    repeat (apply describes_use; [|done|by constructor|intros u L0; apply (says_all _ true)]); done.
Qed.
Lemma describes_container (m : refs) L c : describes m L → describes (container_use m c) (L ++ container_mentions c).
Proof.
  intros H. unfold container_use, container_mentions. rewrite app_assoc.
  apply describes_foldl; [intros; by apply describes_envFrom|].
  apply (describes_foldl (λ m e, env_use e m)); [intros; by apply describes_env|done].
Qed.
Lemma describes_volume sub vol (m : refs) L r :
  describes m L → describes (volume_use sub vol m r) (L ++ volume_mentions sub vol r).
Proof.
  intros H. unfold volume_use, volume_mentions. destruct (vr_keys r) as [|k ks] eqn:Hk.
  - apply describes_use; [done|done|by constructor|]. intros u L0.
    case_bool_decide; [apply (says_all _ true)|apply (says_all _ false)].
  - apply describes_use; [done|done| |].
    + apply Forall_fmap, Forall_true. done.
    + intros u L0 Hu. pose proof (says_keys (vr_ref r) (k :: ks) (bool_decide (vol ∈ sub)) u L0 ltac:(done) Hu) as Hs.
      by case_bool_decide.
Qed.

Lemma templateRefs_describes spec : describes (templateRefs spec) (mentions spec).
Proof.
  unfold templateRefs, mentions. apply describes_foldl.
  - intros m L v H. apply describes_foldl; [|done]. intros. by apply describes_volume.
  - change (mjoin (container_mentions <$> ps_InitContainers spec ++ ps_Containers spec))
      with ([] ++ mjoin (container_mentions <$> ps_InitContainers spec ++ ps_Containers spec)).
    apply describes_foldl; [intros; by apply describes_container|]. intros r. by rewrite lookup_empty.
Qed.

(** ** What a pod spec says, field by field *)

(** A container reads a key of an object, or all of them ([None]), into its
    environment. *)
Inductive container_reads (c : RContainer) : refKind → string → option string → Prop :=
| reads_config_key e name key :
    e ∈ rc_Env c → ev_ConfigMapKeyRef e = Some (name, key) → container_reads c refConfigMap name (Some key)
| reads_secret_key e name key :
    e ∈ rc_Env c → ev_SecretKeyRef e = Some (name, key) → container_reads c refSecret name (Some key)
| reads_config e name :
    e ∈ rc_EnvFrom c → ef_ConfigMapRef e = Some name → container_reads c refConfigMap name None
| reads_secret e name :
    e ∈ rc_EnvFrom c → ef_SecretRef e = Some name → container_reads c refSecret name None.
(** An object in a volume, itself or in a projection. *)
Inductive volume_holds (v : Volume) : refKind → mounted → Prop :=
| holds_config t : vol_ConfigMap v = Some t → volume_holds v refConfigMap t
| holds_secret t : vol_Secret v = Some t → volume_holds v refSecret t
| projects_config l p t :
    vol_Projected v = Some l → p ∈ l → pj_ConfigMap p = Some t → volume_holds v refConfigMap t
| projects_secret l p t :
    vol_Projected v = Some l → p ∈ l → pj_Secret p = Some t → volume_holds v refSecret t.
(** The keys of it the volume shows: those of its items, or all. *)
Definition shows_key (t : mounted) (key : option string) : Prop :=
  match key with None => mt_Items t = [] | Some k => k ∈ mt_Items t end.
(** Some container mounts a part of the volume, which the kubelet does not
    update. *)
Definition mounted_in_part (spec : PodSpec) (v : Volume) : Prop :=
  ∃ c m, (c ∈ ps_InitContainers spec ∨ c ∈ ps_Containers spec) ∧ m ∈ rc_VolumeMounts c ∧ vm_Name m = vol_Name v
  ∧ (vm_SubPath m ≠ "" ∨ vm_SubPathExpr m ≠ "").
(** The template uses the object, by the key, and whether only a restart
    shows a change. *)
Inductive uses (spec : PodSpec) : objRef → option string → bool → Prop :=
| uses_env c kind name key :
    c ∈ ps_InitContainers spec ∨ c ∈ ps_Containers spec → container_reads c kind name key →
    uses spec (mkRef kind name) key true
| uses_volume v kind t key :
    v ∈ ps_Volumes spec → volume_holds v kind t → shows_key t key → ¬ mounted_in_part spec v →
    uses spec (mkRef kind (mt_Name t)) key false
| uses_volume_part v kind t key :
    v ∈ ps_Volumes spec → volume_holds v kind t → shows_key t key → mounted_in_part spec v →
    uses spec (mkRef kind (mt_Name t)) key true.

Lemma elem_of_mjoin_fmap {A B} (f : A → list B) l b : b ∈ mjoin (f <$> l) ↔ ∃ a, a ∈ l ∧ b ∈ f a.
Proof. rewrite list_elem_of_join. setoid_rewrite list_elem_of_fmap. naive_solver. Qed.
(** What an optional field mentions. *)
Lemma elem_of_mention {A} (o : option A) (f : A → mention) t :
  t ∈ match o with Some a => [f a] | None => [] end ↔ ∃ a, o = Some a ∧ t = f a.
Proof. destruct o as [a|]; [rewrite list_elem_of_singleton|rewrite elem_of_nil]; naive_solver. Qed.
Lemma elem_of_container_mentions c t :
  t ∈ container_mentions c ↔ mn_restart t = true ∧ container_reads c (or_Kind (mn_ref t)) (or_Name (mn_ref t)) (mn_key t).
Proof.
  unfold container_mentions. rewrite elem_of_app, !elem_of_mjoin_fmap. unfold env_mentions, envFrom_mentions.
  setoid_rewrite elem_of_app. setoid_rewrite (elem_of_mention _ (λ n, mkMention (mkRef _ n) None true)).
  assert (∀ k (o : option (string * string)), t ∈ match o with Some (n, key) => [mkMention (mkRef k n) (Some key) true] | None => [] end
    ↔ ∃ n key, o = Some (n, key) ∧ t = mkMention (mkRef k n) (Some key) true) as Hkey.
  { intros k [[n key]|]; [rewrite list_elem_of_singleton|rewrite elem_of_nil]; naive_solver. }
  setoid_rewrite Hkey. split.
  - intros [(e & He & [(n & k & E & ->)|(n & k & E & ->)])|(e & He & [(n & E & ->)|(n & E & ->)])];
      (split; [done|]); by econstructor.
  - destruct t as [[kind name] key b]. cbn. intros [-> [e n k He E|e n k He E|e n He E|e n He E]]; naive_solver.
Qed.
Lemma elem_of_volumeRefs v r :
  r ∈ volumeRefs v ↔ ∃ kind t, volume_holds v kind t ∧ r = mkVolRef (mkRef kind (mt_Name t)) (mt_Items t).
Proof.
  assert (∀ k (o : option mounted), r ∈ match o with Some t => [mkVolRef (mkRef k (mt_Name t)) (mt_Items t)] | None => [] end
    ↔ ∃ t, o = Some t ∧ r = mkVolRef (mkRef k (mt_Name t)) (mt_Items t)) as Hm.
  { intros k [t|]; [rewrite list_elem_of_singleton|rewrite elem_of_nil]; naive_solver. }
  unfold volumeRefs. cbv zeta. rewrite !elem_of_app, !Hm, elem_of_mjoin_fmap. setoid_rewrite elem_of_app. setoid_rewrite Hm.
  split.
  - intros [(t & E & ->)|[(t & E & ->)|(p & Hp & H)]]; [eexists _, t; split; [by constructor|done]..|].
    destruct (vol_Projected v) as [l|] eqn:El; cbn in Hp; [|by apply elem_of_nil in Hp].
    destruct H as [(t & E & ->)|(t & E & ->)]; eexists _, t; (split; [by econstructor|done]).
  - intros (kind & t & [t' E|t' E|l p t' El Hp E|l p t' El Hp E] & ->); [naive_solver..| |];
      (right; right; exists p; rewrite El; split; [done|naive_solver]).
Qed.
Lemma elem_of_subPathVolumes spec v :
  vol_Name v ∈ subPathVolumes (ps_InitContainers spec ++ ps_Containers spec) ↔ mounted_in_part spec v.
Proof.
  unfold subPathVolumes, mounted_in_part. rewrite elem_of_list_to_set, list_elem_of_fmap.
  setoid_rewrite list_elem_of_filter. setoid_rewrite elem_of_mjoin_fmap. setoid_rewrite elem_of_app. split.
  - intros (m & E & Hsub & c & Hc & Hm). exists c, m. by split_and!.
  - intros (c & m & Hc & Hm & E & Hsub). exists m. split_and!; [done|done|by exists c].
Qed.
Lemma elem_of_volume_mentions sub vol r t :
  t ∈ volume_mentions sub vol r ↔
  mn_ref t = vr_ref r ∧ mn_restart t = bool_decide (vol ∈ sub)
  ∧ match mn_key t with None => vr_keys r = [] | Some k => k ∈ vr_keys r end.
Proof.
  unfold volume_mentions. destruct t as [ref key b]. cbn [mn_ref mn_restart mn_key]. destruct (vr_keys r) as [|k0 ks].
  - rewrite list_elem_of_singleton. split; [by intros [= -> -> ->]|].
    intros (-> & -> & H). destruct key; [by apply elem_of_nil in H|done].
  - rewrite list_elem_of_fmap. split; [by intros (k & [= -> -> ->] & Hk)|].
    intros (-> & -> & H). destruct key as [k|]; [|done]. by exists k.
Qed.
Lemma elem_of_mentions spec t : t ∈ mentions spec ↔ uses spec (mn_ref t) (mn_key t) (mn_restart t).
Proof.
  unfold mentions. rewrite elem_of_app, !elem_of_mjoin_fmap. setoid_rewrite elem_of_container_mentions.
  setoid_rewrite elem_of_app. setoid_rewrite elem_of_mjoin_fmap. setoid_rewrite elem_of_volumeRefs.
  setoid_rewrite elem_of_volume_mentions. split.
  - intros [(c & Hc & Hr & H)|(v & Hv & r & (kind & m & Hm & ->) & E & Eb & Hk)].
    + rewrite Hr. destruct (mn_ref t). by eapply uses_env.
    + rewrite E, Eb. cbn [vr_ref vr_keys] in *. case_bool_decide as Hp; rewrite elem_of_subPathVolumes in Hp;
        [by eapply uses_volume_part|by eapply uses_volume].
  - destruct t as [ref key b]. cbn. intros [c kind name k Hc H|v kind m k Hv Hm Hk Hp|v kind m k Hv Hm Hk Hp].
    + left. exists c. by split_and!.
    + right. exists v. split; [done|]. eexists. split; [by exists kind, m|]. cbn.
      rewrite bool_decide_eq_false_2; [done|]. by rewrite elem_of_subPathVolumes.
    + right. exists v. split; [done|]. eexists. split; [by exists kind, m|]. cbn.
      rewrite bool_decide_eq_true_2; [done|]. by rewrite elem_of_subPathVolumes.
Qed.

(** C31: [templateRefs] finds exactly what the template uses, read off the
    fields of the pod spec: an object has an entry when an env entry or an
    envFrom of a container (init containers included) reads it, or a volume
    holds it, by itself or in a projection; all of its keys count when a use
    names no key, a key counts when a use names it; and it needs a restart
    when a use is of the environment, or of a volume some container mounts
    by a subPath or a subPathExpr. *)
Theorem templateRefs_exact spec r :
  match templateRefs spec !! r with
  | None => ∀ key restart, ¬ uses spec r key restart
  | Some u =>
    (∃ key restart, uses spec r key restart)
    ∧ (ru_AllKeys u = true ↔ ∃ restart, uses spec r None restart)
    ∧ (∀ k, k ∈ ru_Keys u ↔ ∃ restart, uses spec r (Some k) restart)
    ∧ (ru_NeedsRestart u = true ↔ ∃ key, uses spec r key true)
  end.
Proof.
  assert (∀ t, t ∈ of_ref r (mentions spec) ↔ mn_ref t = r ∧ uses spec r (mn_key t) (mn_restart t)) as Hof.
  { intros t. unfold of_ref. rewrite list_elem_of_filter, elem_of_mentions. naive_solver. }
  assert (∀ key b, uses spec r key b ↔ mkMention r key b ∈ of_ref r (mentions spec)) as Hin
    by (intros key b; rewrite Hof; cbn; tauto).
  pose proof (templateRefs_describes spec r) as Hd. destruct (templateRefs spec !! r) as [u|].
  - destruct Hd as (Hne & H1 & H2 & H3). setoid_rewrite Hin.
    assert (∀ t, t ∈ of_ref r (mentions spec) → t = mkMention r (mn_key t) (mn_restart t)) as Ht
      by (intros [] Ht%Hof; cbn in *; naive_solver).
    split_and!.
    + destruct (of_ref r (mentions spec)) as [|t L] eqn:E; [done|]. exists (mn_key t), (mn_restart t).
      rewrite <-Ht; left.
    + rewrite H1. split; [intros (t & Hl & <-); exists (mn_restart t); by rewrite <-Ht|intros [b Hb]; by eexists].
    + intros k. rewrite H2. split; [intros (t & Hl & <-); exists (mn_restart t); by rewrite <-Ht|intros [b Hb]; by eexists].
    + rewrite H3. split; [intros (t & Hl & <-); exists (mn_key t); by rewrite <-Ht|intros [k Hk]; by eexists].
  - intros key b Hu%Hin. rewrite Hd in Hu. by apply elem_of_nil in Hu.
Qed.

(** ** Changes and the hash *)
Lemma elem_of_changedKeys before after k : k ∈ changedKeys before after ↔ before !! k ≠ after !! k.
Proof.
  unfold changedKeys. rewrite elem_of_sort_strings, elem_of_app, !list_elem_of_fmap.
  setoid_rewrite list_elem_of_filter. split.
  - intros [([k' v] & -> & Hne & Hin%elem_of_map_to_list)|([k' v] & -> & Hne & Hin%elem_of_map_to_list)];
      cbn in *; congruence.
  - intros Hne. destruct (after !! k) as [v|] eqn:Ha.
    + left. exists (k, v). split_and!; [done|done|by apply elem_of_map_to_list].
    + right. destruct (before !! k) as [v|] eqn:Hb; [|done]. exists (k, v).
      split_and!; [done|done|by apply elem_of_map_to_list].
Qed.

Definition is_used (u : refUse) (k : string) : Prop := ru_AllKeys u = true ∨ k ∈ ru_Keys u.
Lemma elem_of_used_keys u d k : k ∈ used_keys u d ↔ is_used u k ∧ is_Some (d !! k).
Proof.
  unfold used_keys. rewrite elem_of_sort_strings, list_elem_of_filter, list_elem_of_fmap. unfold is_used, is_Some.
  split.
  - intros [H ([k' v] & -> & Hin%elem_of_map_to_list)]. eauto.
  - intros [H [v Hv]]. split; [done|]. exists (k, v). split; [done|by apply elem_of_map_to_list].
Qed.

(** A change affects a use exactly when a key in use differs. *)
Lemma affects_changed u d d' :
  affects u (changedKeys d d') = false ↔ ∀ k, is_used u k → d !! k = d' !! k.
Proof.
  unfold affects, is_used. case_bool_decide as Hc.
  - split; [|done]. intros _ k _. destruct (decide (d !! k = d' !! k)) as [|Hk]; [done|].
    apply elem_of_changedKeys in Hk. rewrite Hc in Hk. by apply not_elem_of_nil in Hk.
  - rewrite orb_false_iff. destruct (ru_AllKeys u).
    + split; [by intros []|]. intros H. destruct (changedKeys d d') as [|k l] eqn:E; [done|].
      assert (k ∈ changedKeys d d') as Hk by (rewrite E; left). apply elem_of_changedKeys in Hk.
      destruct Hk. apply H. by left.
    + rewrite <-(not_true_iff_false (existsb _ _)), existsb_exists. setoid_rewrite bool_decide_eq_true.
      setoid_rewrite <-list_elem_of_In. setoid_rewrite elem_of_changedKeys. split.
      * intros [_ H] k [|Hk]; [done|]. destruct (decide (d !! k = d' !! k)); [done|]. destruct H. eauto.
      * intros H. split; [done|]. intros (k & Hne & Hk). destruct Hne. apply H. by right.
Qed.

(** The bytes hashed, cut at the zero bytes. *)
Definition no_zero (d : data) : Prop :=
  map_Forall (λ k v, no_byte "000"%char k ∧ no_byte "000"%char v) d.
Lemma used_bytes_split keys d :
  no_zero d → Forall (λ k, is_Some (d !! k)) keys →
  strings_Split (used_bytes keys d) "000"%char = mjoin ((λ k, [k; default "" (d !! k)]) <$> keys) ++ [""].
Proof.
  intros Hd. induction 1 as [|k keys [v Hv] _ IH]; [done|]. cbn [used_bytes fmap list_fmap mjoin list_join].
  destruct (Hd k v Hv) as [Hk Hv0]. rewrite Hv. cbn [default from_option id].
  unfold zero_byte. rewrite !str_app_cons, !str_app_nil_l, !strings_Split_app, IH. unfold no_byte in *. by rewrite Hk, Hv0.
Qed.
Lemma pairs_inj (f g : string → string) l l' :
  mjoin ((λ k, [k; f k]) <$> l) ++ [""] = mjoin ((λ k, [k; g k]) <$> l') ++ [""] →
  l = l' ∧ Forall (λ k, f k = g k) l.
Proof.
  revert l'. induction l as [|k l IH]; intros [|k' l']; cbn; [done| | |].
  - by destruct (mjoin _).
  - by destruct (mjoin _).
  - intros [= -> Hf H]. apply IH in H as [-> H]. auto.
Qed.

(** The bytes hashed are the same just when nothing in use changed. *)
Lemma used_bytes_same u d d' :
  no_zero d → no_zero d' →
  used_bytes (used_keys u d) d = used_bytes (used_keys u d') d' ↔ affects u (changedKeys d d') = false.
Proof.
  intros Hd Hd'. rewrite affects_changed.
  assert (∀ d0, Forall (λ k, is_Some (d0 !! k)) (used_keys u d0)) as Hsome
    by (intros d0; apply Forall_forall; by intros k [_ ?]%elem_of_used_keys).
  split.
  - intros H k Hk. apply (f_equal (λ s, strings_Split s "000"%char)) in H.
    rewrite !used_bytes_split in H by auto. apply pairs_inj in H as [Hkeys Hv].
    destruct (decide (k ∈ used_keys u d)) as [Hin|Hout].
    + rewrite Forall_forall in Hv. specialize (Hv k Hin). rewrite Hkeys in Hin.
      assert (k ∈ used_keys u d) as Hin' by (by rewrite Hkeys).
      apply elem_of_used_keys in Hin as [_ [w Hw]]. apply elem_of_used_keys in Hin' as [_ [v Hv']].
      rewrite Hw, Hv' in *. cbn in Hv. congruence.
    + assert (k ∉ used_keys u d') as Hout' by (by rewrite <-Hkeys).
      rewrite elem_of_used_keys in Hout, Hout'.
      destruct (d !! k) eqn:E; [destruct Hout; by eauto|]. destruct (d' !! k) eqn:E'; [destruct Hout'; by eauto|done].
  - intros H. assert (used_keys u d = used_keys u d') as Hkeys.
    { unfold used_keys. apply sort_strings_unique, NoDup_Permutation;
        [apply NoDup_filter, NoDup_fst_map_to_list..|].
      intros k. rewrite <-!(elem_of_sort_strings k (filter _ _)).
      change (k ∈ used_keys u d ↔ k ∈ used_keys u d'). rewrite !elem_of_used_keys.
      split; intros [Hu Hs]; (split; [done|]); [by rewrite <-H|by rewrite H]. }
    rewrite <-Hkeys. assert (∀ k, k ∈ used_keys u d → d !! k = d' !! k) as Hv
      by (intros k [Hk _]%elem_of_used_keys; by apply H).
    clear -Hv. induction (used_keys u d) as [|k l IH]; [done|]. cbn [used_bytes].
    rewrite (Hv k) by left. by rewrite IH by (intros k' Hk'; apply Hv; by right).
Qed.

(** Two different texts whose SHA-256 sums begin with the same eight bytes. *)
Definition collide (x y : string) : Prop :=
  x ≠ y ∧ str_take 16 (hex_encode (sha256_sum x)) = str_take 16 (hex_encode (sha256_sum y)).

(** No key in use differs. *)
Definition same_in_use (u : refUse) (d d' : data) : Prop := ∀ k, is_used u k → d !! k = d' !! k.

(** C32: A workload is restarted for, and marked with, exactly what it uses: a
    change affects it when a key in use differs; and as long as neither keys
    nor values hold a zero byte, the version hashes of two versions are the
    same exactly when no key in use differs, or when the bytes in use of the
    two are a collision of the shortened SHA-256. *)
Theorem hash_covers_what_is_used u d d' :
  no_zero d → no_zero d' →
  (affects u (changedKeys d d') = false ↔ same_in_use u d d')
  ∧ (usedHash u d = usedHash u d' ↔
     same_in_use u d d' ∨ collide (used_bytes (used_keys u d) d) (used_bytes (used_keys u d') d')).
Proof.
  intros Hd Hd'. split; [apply affects_changed|]. unfold same_in_use.
  rewrite <-affects_changed, <-(used_bytes_same u d d') by done. unfold usedHash, collide.
  split; [intros H|by intros [->|[_ H]]].
  destruct (decide (used_bytes (used_keys u d) d = used_bytes (used_keys u d') d')); [by left|by right].
Qed.

(** ** Witnesses, and what modelling it showed *)
Module ReloadDemo.
Definition before : gmap string string := {[ "LOG" := "info"; "PORT" := "80" ]}.
Definition after : gmap string string := {[ "LOG" := "debug"; "PORT" := "80" ]}.
Definition by_key (k : string) : refUse := mkUse false {[ k ]} true.
(** Reads [LOG] of [configmap/app] by env and mounts all of it. *)
Definition spec : PodSpec := mkPodSpec []
  [mkRContainer [mkEnvVar (Some ("app", "LOG")) None] [] [mkMount "conf" "" ""]]
  [mkVolume "conf" (Some (mkMounted "app" [])) None None].
End ReloadDemo.

Lemma hash_covers_what_is_used_witness :
  same_in_use (ReloadDemo.by_key "PORT") ReloadDemo.before ReloadDemo.after
  ∧ usedHash (ReloadDemo.by_key "PORT") ReloadDemo.before = usedHash (ReloadDemo.by_key "PORT") ReloadDemo.after
  ∧ usedHash (ReloadDemo.by_key "LOG") ReloadDemo.before ≠ usedHash (ReloadDemo.by_key "LOG") ReloadDemo.after.
Proof.
  destruct (hash_covers_what_is_used (ReloadDemo.by_key "PORT") ReloadDemo.before ReloadDemo.after) as [H1 H2];
    [unfold no_zero, no_byte; apply (bool_decide_unpack _); vm_compute; exact I..|].
  assert (same_in_use (ReloadDemo.by_key "PORT") ReloadDemo.before ReloadDemo.after) as H
    by (apply H1; vm_compute; reflexivity).
  split; [exact H|]. split; [apply H2; left; exact H|vm_compute; discriminate].
Defined.

Example template_example :
  templateRefs ReloadDemo.spec
  = {[ mkRef refConfigMap "app" := mkUse true {[ "LOG" ]} true ]}
  ∧ shouldReload (workloadRules ∅) (mkRef refConfigMap "app")
      (templateRefs ReloadDemo.spec !! mkRef refConfigMap "app") ["LOG"] ∅ reloadOnAuto = true
  ∧ shouldReload (workloadRules {[ annReload := " FALSE" ]}) (mkRef refConfigMap "app")
      (templateRefs ReloadDemo.spec !! mkRef refConfigMap "app") ["LOG"] ∅ reloadOnAuto = false.
Proof. split_and!; vm_compute; reflexivity. Qed.

(** With zero bytes in a value the hash can stay while the data in use
    changes: the restart is then skipped as up to date. *)
Example zero_bytes_hide_a_change :
  let u := mkUse true ∅ true in
  let d : gmap string string := {[ "a" := "1"; "b" := "2" ]} in
  let d' : gmap string string := {[ "a" := "1" +:+ zero_byte +:+ "b" +:+ zero_byte +:+ "2" ]} in
  affects u (changedKeys d d') = true ∧ usedHash u d = usedHash u d'.
Proof. split; vm_compute; reflexivity. Qed.
