(* ===== verification/Findings.v ===== *)
(** * Findings: how a detected problem is told (internal/kube/findings.go)

    A finding, its message and [report]: once per dedup window it goes to
    Slack, Alertmanager, the escalation chain and the event log, and a
    proposed change goes to the approval queue.  The queue is an interface
    ([ProposalQueue]): what [report] promises holds for any. *)
From S2P Require Import Prelude GoStd Policy RateLimit Guards Events Escalation Gate.
#[local] Open Scope Z_scope.
#[local] Open Scope agent_scope.

Inductive Rung := RungAlert | RungGuided | RungPR | RungApprove | RungAuto.
Definition Rung_String (r : Rung) : string :=
  match r with
  | RungAlert => "R0" | RungGuided => "R1" | RungPR => "R2" | RungApprove => "R3" | RungAuto => "R4"
  end.
Definition rungNames (r : Rung) : string :=
  match r with
  | RungAlert => "alert only" | RungGuided => "guided fix" | RungPR => "pull request"
  | RungApprove => "approve to fix" | RungAuto => "automatic fix"
  end.

(** [Target] is empty ([None]) when [Rung] is final. *)
Record finding {C : Type} := mkFinding {
  fn_Reason : string; fn_Namespace : string; fn_Workload : string; fn_Pod : string; fn_Node : string;
  fn_Severity : string; fn_Rung : Rung; fn_Target : option Rung; fn_Proposal : option (mutation C);
  fn_Summary : string; fn_Details : list string; fn_Fix : string; fn_Subject : string;
  fn_approval : string
}.
Arguments finding : clear implicits.
Definition with_approval {C} (a : string) (f : finding C) : finding C :=
  mkFinding C (fn_Reason f) (fn_Namespace f) (fn_Workload f) (fn_Pod f) (fn_Node f) (fn_Severity f)
    (fn_Rung f) (fn_Target f) (fn_Proposal f) (fn_Summary f) (fn_Details f) (fn_Fix f)
    (fn_Subject f) a.

Definition message {C} (f : finding C) : string :=
  let where_ := if str_eqb (fn_Namespace f) "" then fn_Workload f
                else fn_Namespace f +:+ "/" +:+ fn_Workload f in
  let where_ := if negb (str_eqb (fn_Pod f) "") && negb (str_eqb (fn_Pod f) (fn_Workload f))
                then where_ +:+ " (pod " +:+ fn_Pod f +:+ ")" else where_ in
  "*" +:+ fn_Reason f +:+ "* `" +:+ where_ +:+ "`: " +:+ fn_Summary f +:+ nl
  +:+ foldr (λ d acc, d +:+ nl +:+ acc) "" (fn_Details f)
  +:+ (if str_eqb (fn_Fix f) "" then "" else "_Fix_: " +:+ fn_Fix f +:+ nl)
  +:+ "_Rung " +:+ Rung_String (fn_Rung f) +:+ ", " +:+ rungNames (fn_Rung f) +:+ "_"
  +:+ match fn_Target f with
      | Some t => if str_eqb (fn_approval f) "" then ""
                  else "; " +:+ Rung_String t +:+ " " +:+ rungNames t +:+ ": " +:+ fn_approval f
      | None => ""
      end
  +:+ nl.

(** What [report] needs of the approval queue: running a step of the gate in
    its state, queueing a change (is it queued anew, and what to say of it),
    and posting its buttons. *)
Class ProposalQueue (C S : Type) := {
  pq_gate : ∀ {A}, st (GState C) A → st S A;
  pq_queue : mutation C → string → st S (bool * string);
  pq_buttons : st S unit
}.
(** A loop whose findings propose nothing needs no queue. *)
#[export] Instance no_queue C : ProposalQueue C (GState C) := {|
  pq_gate A m := m;
  pq_queue _ _ := return! (false, "");
  pq_buttons := return! tt
|}.

Section report.
Context {C S : Type} `{!ProposalQueue C S} (env : Env).
Implicit Types f : finding C.

Definition report_key f : string :=
  dedupKey (fn_Namespace f) (fn_Workload f +:+ "/" +:+ fn_Subject f) (fn_Reason f).

(** [deps.Dedup.Check]; [None] is the nil dereference of a missing
    deduplicator. *)
Definition dedup_check (key : string) : st (GState C) (option bool) :=
  let! s := st_get in
  match gs_dedup s with
  | None => return! None
  | Some d =>
    let! now := clock env in
    let r := Check now key d in
    st_modify (set_dedup (Some r.2)) ;;; return! Some r.1
  end.

(** The calls of a finding that is told. *)
Definition tell f : st (GState C) unit :=
  let msg := message f in
  (if str_eqb (fn_Severity f) Events.SevCritical
   then escalate env (fn_Reason f) (fn_Namespace f) (fn_Workload f) msg else return! tt) ;;;
  fireAlert env (fn_Reason f) (fn_Namespace f) (fn_Workload f) (fn_Pod f) msg (fn_Severity f) ;;;
  recordEvent env (mkEvent 0 0 Events.Incident (fn_Severity f) (fn_Namespace f) (fn_Workload f) (fn_Pod f)
    (fn_Node f) (fn_Reason f) (fn_Summary f) "" "" "" "" "" (Rung_String (fn_Rung f))).

Definition report f : st S (option bool) :=
  let! ok := pq_gate (dedup_check (report_key f)) in
  match ok with
  | Some true =>
    let! q := (match fn_Proposal f with
               | Some m => let! r := pq_queue m (fn_Summary f) in return! Some r
               | None => return! None
               end) in
    let f := match q with Some r => with_approval r.2 f | None => f end in
    pq_gate (postSlack (message f)) ;;;
    (match q with Some (true, _) => pq_buttons | _ => return! tt end) ;;;
    pq_gate (tell f) ;;;
    return! Some true
  | _ => return! ok
  end.
End report.

(** ** What a report changes *)

(** With no proposal, a report only adds to the trace and to the
    deduplicator. *)
Definition same_but_told {C} (s s' : GState C) : Prop :=
  same_cluster s s' ∧ same_main_budgets s s' ∧ same_housekeeping s s'.
#[export] Instance same_but_told_preorder {C} : PreOrder (@same_but_told C).
Proof.
  split; [by repeat split|]. intros x y z (?&?&?) (?&?&?).
  split_and!; [by etrans|by etrans|by etrans].
Qed.

Ltac solve_told :=
  repeat keeps_step; repeat case_match; try done;
  try (split; [by apply add_effect_same|by split]).

Section told.
Context {C : Type} (env : Env).
Lemma dedup_check_told key : keeps (same_but_told (C := C)) (dedup_check env key).
Proof. unfold dedup_check. solve_told. Qed.
Lemma postSlack_told msg : keeps (same_but_told (C := C)) (postSlack msg).
Proof. unfold postSlack. solve_told. Qed.
Lemma recordEvent_told e : keeps (same_but_told (C := C)) (recordEvent env e).
Proof. unfold recordEvent. solve_told. Qed.
Lemma tell_told f : keeps (same_but_told (C := C)) (tell env f).
Proof. unfold tell, escalate, fireAlert, recordEvent. solve_told. Qed.
Lemma report_told (f : finding C) :
  fn_Proposal f = None → keeps same_but_told (report env f).
Proof.
  intros Hp. unfold report. rewrite Hp. apply (keeps_bind _); [apply dedup_check_told|].
  intros [[]|]; try apply (keeps_ret _). apply (keeps_bind _); [apply (keeps_ret _)|]. intros ?.
  apply (keeps_bind _); [apply postSlack_told|]. intros ?. apply (keeps_bind _); [solve_told|]. intros ?.
  apply (keeps_bind _); [apply tell_told|]. intros ?. apply (keeps_ret _).
Qed.
End told.
#[export] Hint Resolve dedup_check_told postSlack_told recordEvent_told tell_told report_told : agent.
