(* ===== verification/Admission.v ===== *)
(** * Admission: the webhook's answers (internal/webhook)

    The validating webhook ([validator.go]: [validate], [pinnedImage]) and
    the image mirror ([mirror.go]).  Decoding a review and a Kubernetes
    object is apimachinery's and a parameter; an object that does not decode
    is [None].  The text of a refusal or a warning is a constructor with the
    names it quotes.  The HTTP server and the certificate around these functions
    are in Webhook. *)
From S2P Require Import Prelude GoStd.
From Stdlib Require Import Ascii.
#[local] Open Scope Z_scope.

(** ** The validator *)
Record container := mkContainer {
  c_Name : string; c_Image : string; c_Limits : gset string; c_ReadinessProbe : bool
}.
Record Config := mkConfig {
  RequireLimits : bool; RequireReadiness : bool; BlockedImages : list string
}.
Inductive refusal :=
| NoLimits (name : string) | NoMemoryLimit (name : string)
| NoReadiness (name : string) | BlockedImage (name prefix : string).
Inductive warning := NoCPULimit (name : string) | Unpinned (name image : string).

(** [AdmissionResponse]: refused (with code 403), or allowed with warnings. *)
Inductive response := Denied (why : refusal) | Allowed (warnings : list warning).

Definition base_name (image : string) : string :=
  match strings_LastIndex image "/"%char with
  | Some i => str_drop (Datatypes.S i) image
  | None => image
  end.
Definition pinnedImage (image : string) : bool :=
  if strings_Contains image "@" then true
  else
    let name := base_name image in
    match strings_LastIndex name ":"%char with
    | Some i => negb (str_eqb (str_drop (Datatypes.S i) name) "latest")
    | None => false
    end.

(** The body of the loop: the refusal it returns, or the warnings it adds. *)
Definition check_container (cfg : Config) (c : container) : refusal + list warning :=
  if RequireLimits cfg && bool_decide (c_Limits c = ∅) then inl (NoLimits (c_Name c))
  else if RequireLimits cfg && bool_decide ("memory" ∉ c_Limits c) then inl (NoMemoryLimit (c_Name c))
  else
    let cpu := if RequireLimits cfg && bool_decide ("cpu" ∉ c_Limits c) then [NoCPULimit (c_Name c)] else [] in
    if RequireReadiness cfg && negb (c_ReadinessProbe c) then inl (NoReadiness (c_Name c))
    else match List.find (strings_HasPrefix (c_Image c)) (BlockedImages cfg) with
         | Some blocked => inl (BlockedImage (c_Name c) blocked)
         | None => inr (cpu ++ if pinnedImage (c_Image c) then [] else [Unpinned (c_Name c) (c_Image c)])
         end.
Fixpoint check_all (cfg : Config) (cs : list container) (warnings : list warning) : response :=
  match cs with
  | [] => Allowed warnings
  | c :: cs' =>
    match check_container cfg c with
    | inl why => Denied why
    | inr ws => check_all cfg cs' (warnings ++ ws)
    end
  end.

(** What apimachinery decodes: the containers of a workload's template. *)
Class Decoder := {
  decode_deployment : string → option (list container);
  decode_statefulset : string → option (list container)
}.
Record AdmissionRequest := mkRequest { rq_Kind : string; rq_Object : string }.

Definition pod_template `{Decoder} (req : AdmissionRequest) : option (list container) :=
  if str_eqb (rq_Kind req) "Deployment" then decode_deployment (rq_Object req)
  else if str_eqb (rq_Kind req) "StatefulSet" then decode_statefulset (rq_Object req)
  else None.
Definition validate `{Decoder} (req : AdmissionRequest) (cfg : Config) : response :=
  match pod_template req with Some cs => check_all cfg cs [] | None => Allowed [] end.

(** ** The mirror *)
Record Mirror := mkMirror { Prefix : string; AllowList : list string }.
Definition Enabled (m : Mirror) : bool := negb (str_eqb (Prefix m) "") && negb (bool_decide (AllowList m = [])).

(** A registry: a name with a dot or a port, or localhost. *)
Definition is_registry (first : string) : bool :=
  strings_Contains first "." || strings_Contains first ":" || str_eqb first "localhost".
Definition normalizeImage (img : string) : string :=
  match strings_cut img "/"%char with
  | Some (first, _) => if is_registry first then img else "docker.io/" +:+ img
  | None => "docker.io/library/" +:+ img
  end.
Definition rewrite (m : Mirror) (img : string) : string * bool :=
  if strings_HasPrefix img (Prefix m) then (img, false)
  else
    let n := normalizeImage img in
    if existsb (λ a, negb (str_eqb a "") && strings_HasPrefix n a) (AllowList m)
    then (Prefix m +:+ n, true) else (img, false).

(** The images of a pod, by the field that holds them. *)
Record podImages := mkPodImages {
  pi_init : list string; pi_containers : list string; pi_ephemeral : list string
}.
Inductive field := initContainers | containers | ephemeralContainers.
Definition field_name (f : field) : string :=
  match f with
  | initContainers => "initContainers" | containers => "containers"
  | ephemeralContainers => "ephemeralContainers"
  end.
(** A replace operation on the image of the i-th container of a field. *)
Record patchOp := mkOp { op_field : field; op_index : nat; op_Value : string }.
Definition op_Path (o : patchOp) : string :=
  "/spec/" +:+ field_name (op_field o) +:+ "/" +:+ itoa (Z.of_nat (op_index o)) +:+ "/image".

Fixpoint field_patches (m : Mirror) (f : field) (i : nat) (imgs : list string) : list patchOp :=
  match imgs with
  | [] => []
  | img :: imgs' =>
    (let '(to, ok) := rewrite m img in if ok then [mkOp f i to] else [])
    ++ field_patches m f (Datatypes.S i) imgs'
  end.
Definition patches (m : Mirror) (pod : podImages) : list patchOp :=
  field_patches m initContainers 0 (pi_init pod)
  ++ field_patches m containers 0 (pi_containers pod)
  ++ field_patches m ephemeralContainers 0 (pi_ephemeral pod).

(** [mutate]: always allowed, with the patch, if any.  [json.Marshal] of a
    list of strings cannot fail. *)
Definition mutate (decode_pod : string → option podImages) (m : Mirror) (req : AdmissionRequest)
    : option (list patchOp) :=
  if negb (str_eqb (rq_Kind req) "Pod") then None
  else match decode_pod (rq_Object req) with
       | None => None
       | Some pod => match patches m pod with [] => None | ops => Some ops end
       end.

(** ** The validator refuses exactly the violations *)

(** What a workload must not do, as the configuration says it. *)
Definition violation (cfg : Config) (c : container) : Prop :=
  (RequireLimits cfg = true ∧ "memory" ∉ c_Limits c)
  ∨ (RequireReadiness cfg = true ∧ c_ReadinessProbe c = false)
  ∨ (∃ p rest, p ∈ BlockedImages cfg ∧ c_Image c = p +:+ rest).
Definition warned (cfg : Config) (c : container) : list warning :=
  (if RequireLimits cfg && bool_decide ("cpu" ∉ c_Limits c) then [NoCPULimit (c_Name c)] else [])
  ++ (if pinnedImage (c_Image c) then [] else [Unpinned (c_Name c) (c_Image c)]).
Definition refusal_of (why : refusal) : string :=
  match why with NoLimits n | NoMemoryLimit n | NoReadiness n | BlockedImage n _ => n end.

Lemma check_container_cases cfg c :
  match check_container cfg c with
  | inl why => violation cfg c ∧ refusal_of why = c_Name c
  | inr ws => ¬ violation cfg c ∧ ws = warned cfg c
  end.
Proof.
  unfold check_container, violation, warned.
  destruct (RequireLimits cfg && bool_decide (c_Limits c = ∅)) eqn:H1.
  { apply andb_true_iff in H1 as [? H1%bool_decide_eq_true]. split; [left; split; [done|set_solver]|done]. }
  destruct (RequireLimits cfg && bool_decide ("memory" ∉ c_Limits c)) eqn:H2.
  { apply andb_true_iff in H2 as [? H2%bool_decide_eq_true]. split; [by left|done]. }
  destruct (RequireReadiness cfg && negb (c_ReadinessProbe c)) eqn:H3.
  { apply andb_true_iff in H3 as [? H3%negb_true_iff]. split; [by right; left|done]. }
  destruct (List.find _ _) as [b|] eqn:H4.
  { apply List.find_some in H4 as [Hb [t Ht]%strings_HasPrefix_spec].
    split; [|done]. right; right. exists b, t. split; [by apply list_elem_of_In|done]. }
  split; [|done]. intros [[? Hm]|[[? Hr]|(b & t & Hb & Ht)]].
  - rewrite H, bool_decide_true in H2 by done. done.
  - by rewrite H, Hr in H3.
  - apply list_elem_of_In in Hb. pose proof (List.find_none _ _ H4 b Hb) as Hn.
    rewrite (proj2 (strings_HasPrefix_spec _ _)) in Hn; [done|by exists t].
Qed.

Definition answers_for (cfg : Config) (cs : list container) (ws : list warning) (res : response) : Prop :=
  (∃ pre c post why, cs = pre ++ c :: post ∧ Forall (λ x, ¬ violation cfg x) pre ∧ violation cfg c
     ∧ res = Denied why ∧ refusal_of why = c_Name c)
  ∨ (Forall (λ x, ¬ violation cfg x) cs ∧ res = Allowed (ws ++ (cs ≫= warned cfg))).
Lemma check_all_answers cfg cs ws : answers_for cfg cs ws (check_all cfg cs ws).
Proof.
  revert ws. induction cs as [|c cs IH]; intros ws; cbn [check_all].
  { right. split; [constructor|]. cbn. by rewrite app_nil_r. }
  pose proof (check_container_cases cfg c) as Hc. destruct (check_container cfg c) as [why|ws'].
  - left. destruct Hc. exists [], c, cs, why. by split_and!.
  - destruct Hc as [Hv ->]. destruct (IH (ws ++ warned cfg c)) as [(pre & x & post & why & -> & Hp & ? & ? & ?)|[Ha ->]].
    + left. exists (c :: pre), x, post, why. split_and!; [done|by constructor|done..].
    + right. split; [by constructor|]. cbn. by rewrite app_assoc.
Qed.

(** C39: The first container that violates the configuration is named in the
    refusal; when none does, the workload is allowed with the warnings of
    each container in order.  Whatever is not a Deployment or StatefulSet
    that decodes is allowed. *)
Theorem validate_refuses_violations `{Decoder} req cfg :
  match pod_template req with
  | Some cs => answers_for cfg cs [] (validate req cfg)
  | None => validate req cfg = Allowed []
  end.
Proof. unfold validate. destruct (pod_template req); [apply check_all_answers|done]. Qed.

(** ** The tag of an image *)
Lemma base_name_app repo name :
  no_byte "/"%char name → repo = "" ∨ (∃ r, repo = r +:+ "/") → base_name (repo +:+ name) = name.
Proof.
  intros Hn [->|[r ->]]; unfold base_name.
  - rewrite str_app_nil_l, strings_LastIndex_none by done. done.
  - change (String "/"%char "") with "/". rewrite str_app_assoc.
    change ("/" +:+ name) with (String "/"%char name).
    rewrite strings_LastIndex_app by done. change (String "/"%char name) with ("/" +:+ name).
    rewrite <-str_app_assoc.
    replace (Datatypes.S (String.length r)) with (String.length (r +:+ "/"))
      by (rewrite str_length_app; cbn; lia).
    apply str_drop_app.
Qed.

Lemma Contains_byte c s : no_byte c s → strings_Contains s (String c "") = false.
Proof.
  induction s as [|d s IH]; [done|]. intros [Hd Hs]%no_byte_cons. cbn [strings_Contains strings_HasPrefix].
  rewrite bool_decide_false by done. by apply IH.
Qed.
Lemma Contains_byte_app c a b : strings_Contains (a +:+ String c b) (String c "") = true.
Proof.
  induction a as [|d a IH].
  - rewrite str_app_nil_l. cbn [strings_Contains strings_HasPrefix]. rewrite bool_decide_true by done. by destruct b.
  - rewrite str_app_cons. cbn [strings_Contains]. by rewrite IH, orb_true_r.
Qed.

(** A segment of a reference: no slash, colon or at sign. *)
Definition segment (s : string) : Prop := no_byte "/"%char s ∧ no_byte ":"%char s ∧ no_byte "@"%char s.

(** An image is pinned by a digest, or by a tag other than latest; the port
    of its registry is not taken for a tag. *)
Theorem pinnedImage_reads_the_tag repo name tag digest :
  repo = "" ∨ (∃ r, repo = r +:+ "/") → no_byte "@"%char repo → segment name → segment tag →
  pinnedImage (repo +:+ name +:+ String ":"%char tag) = negb (str_eqb tag "latest")
  ∧ pinnedImage (repo +:+ name) = false
  ∧ pinnedImage (repo +:+ name +:+ String "@"%char digest) = true.
Proof.
  intros Hrepo Hat (Hn1 & Hn2 & Hn3) (Ht1 & Ht2 & Ht3). unfold pinnedImage.
  assert (Hc : ∀ x, no_byte x (String ":"%char tag) ↔ no_byte x ":" ∧ no_byte x tag)
    by (intros x; change (String ":"%char tag) with (":" +:+ tag); apply no_byte_app).
  split_and!.
  - rewrite (Contains_byte "@"%char) by (rewrite !no_byte_app, Hc; by split_and!).
    rewrite base_name_app by (first [done|rewrite no_byte_app, Hc; by split_and!]).
    rewrite strings_LastIndex_app by done. change (String ":"%char tag) with (":" +:+ tag).
    rewrite <-str_app_assoc.
    replace (Datatypes.S (String.length name)) with (String.length (name +:+ ":"))
      by (rewrite str_length_app; cbn; lia).
    by rewrite str_drop_app.
  - rewrite (Contains_byte "@"%char) by (rewrite no_byte_app; by split). rewrite base_name_app by done.
    by rewrite strings_LastIndex_none.
  - rewrite <-str_app_assoc. by rewrite (Contains_byte_app "@"%char).
Qed.

(** ** The mirror rewrites once *)

(** What the patch does: each operation replaces one image. *)
Definition apply_op (pod : podImages) (o : patchOp) : podImages :=
  let set l := <[op_index o := op_Value o]> l in
  match op_field o with
  | initContainers => mkPodImages (set (pi_init pod)) (pi_containers pod) (pi_ephemeral pod)
  | containers => mkPodImages (pi_init pod) (set (pi_containers pod)) (pi_ephemeral pod)
  | ephemeralContainers => mkPodImages (pi_init pod) (pi_containers pod) (set (pi_ephemeral pod))
  end.
Definition apply_ops (ops : list patchOp) (pod : podImages) : podImages := foldl apply_op pod ops.
Definition pod_map (f : string → string) (pod : podImages) : podImages :=
  mkPodImages (f <$> pi_init pod) (f <$> pi_containers pod) (f <$> pi_ephemeral pod).
Definition mirrored (m : Mirror) (img : string) : string := (rewrite m img).1.

Definition pod_field (f : field) (pod : podImages) : list string :=
  match f with
  | initContainers => pi_init pod | containers => pi_containers pod
  | ephemeralContainers => pi_ephemeral pod
  end.
Definition with_field (f : field) (l : list string) (pod : podImages) : podImages :=
  match f with
  | initContainers => mkPodImages l (pi_containers pod) (pi_ephemeral pod)
  | containers => mkPodImages (pi_init pod) l (pi_ephemeral pod)
  | ephemeralContainers => mkPodImages (pi_init pod) (pi_containers pod) l
  end.
Lemma rewrite_kept m img : (rewrite m img).2 = false → mirrored m img = img.
Proof. unfold mirrored, rewrite. by repeat case_match. Qed.

Lemma apply_field_patches m f done todo pod :
  pod_field f pod = done ++ todo →
  apply_ops (field_patches m f (length done) todo) pod = with_field f (done ++ (mirrored m <$> todo)) pod.
Proof.
  revert done pod. induction todo as [|img todo IH]; intros done pod Hp.
  { cbn. rewrite <-Hp. by destruct f, pod. }
  cbn [field_patches]. pose proof (rewrite_kept m img) as Hk.
  destruct (rewrite m img) as [to ok] eqn:Hr. assert (Hto : mirrored m img = to) by (unfold mirrored; by rewrite Hr).
  rewrite fmap_cons. replace (length done + 1)%nat with (Datatypes.S (length done)) by lia.
  replace (Datatypes.S (length done)) with (length (done ++ [mirrored m img])) by (rewrite length_app; cbn; lia).
  destruct ok; cbn [app].
  - unfold apply_ops. cbn [foldl]. fold apply_ops. rewrite Hto. change (foldl apply_op ?p ?l) with (apply_ops l p).
    rewrite (IH (done ++ [to])).
    + rewrite <-app_assoc. by destruct f.
    + destruct f; cbn in *; rewrite Hp, insert_app_r_alt, Nat.sub_diag by lia; cbn; by rewrite <-app_assoc.
  - rewrite (IH (done ++ [mirrored m img])).
    + by rewrite <-app_assoc.
    + rewrite Hk, <-app_assoc by done. done.
Qed.

Lemma mirrored_again m img : rewrite m (mirrored m img) = (mirrored m img, false).
Proof.
  unfold mirrored. destruct (strings_HasPrefix img (Prefix m)) eqn:Hp.
  { assert (Hr : rewrite m img = (img, false)) by (unfold rewrite; by rewrite Hp).
    by rewrite !Hr. }
  unfold rewrite at 2 3. rewrite Hp. cbn zeta.
  destruct (existsb _ (AllowList m)) eqn:He; cbn [fst]; unfold rewrite.
  - rewrite (proj2 (strings_HasPrefix_spec _ _)) by (by eexists). done.
  - by rewrite Hp, He.
Qed.
Lemma field_patches_mirrored m f i imgs : field_patches m f i (mirrored m <$> imgs) = [].
Proof. revert i. induction imgs as [|img imgs IH]; intros i; [done|]. cbn. by rewrite mirrored_again, IH. Qed.
Lemma apply_ops_app a b pod : apply_ops (a ++ b) pod = apply_ops b (apply_ops a pod).
Proof. apply foldl_app. Qed.

(** The patch turns every image of the pod into its mirrored reference and
    leaves the rest; asked again about the result, the webhook patches
    nothing. *)
Theorem mirror_rewrites_once m pod :
  apply_ops (patches m pod) pod = pod_map (mirrored m) pod
  ∧ patches m (pod_map (mirrored m) pod) = [].
Proof.
  split; [|unfold patches; cbn; by rewrite !field_patches_mirrored].
  unfold patches. rewrite !apply_ops_app.
  rewrite (apply_field_patches m initContainers []) by done.
  rewrite (apply_field_patches m containers []) by done.
  by rewrite (apply_field_patches m ephemeralContainers []) by done.
Qed.

(** A mirrored reference is the prefix and the image the runtime would have
    pulled. *)
Lemma normalize_registry first rest :
  is_registry first = true → no_byte "/"%char first → normalizeImage (first +:+ "/" +:+ rest) = first +:+ "/" +:+ rest.
Proof.
  intros Hr Hn. unfold normalizeImage.
  assert (strings_cut (first +:+ "/" +:+ rest) "/"%char = Some (first, rest)) as ->; [|by rewrite Hr].
  clear Hr. induction first as [|c first IH]; [done|]. apply no_byte_cons in Hn as [Hc Hn].
  rewrite str_app_cons. cbn [strings_cut]. rewrite bool_decide_false by done. by rewrite IH.
Qed.
Lemma normalizeImage_idemp img : normalizeImage (normalizeImage img) = normalizeImage img.
Proof.
  unfold normalizeImage at 2 3. destruct (strings_cut img "/"%char) as [[first rest]|] eqn:Hc.
  - destruct (is_registry first) eqn:Hr; [unfold normalizeImage; by rewrite Hc, Hr|].
    by apply (normalize_registry "docker.io").
  - change ("docker.io/library/" +:+ img) with ("docker.io" +:+ "/" +:+ ("library/" +:+ img)).
    by apply normalize_registry.
Qed.

(** ** Witnesses *)
Module AdmissionDemo.
Definition cfg : Config := mkConfig true true ["docker.io/evil/"].
Definition web : container := mkContainer "web" "registry:5000/shop/web" {[ "memory" ]} true.
Definition bad : container := mkContainer "job" "docker.io/evil/job:1" {[ "cpu"; "memory" ]} true.
#[export] Instance decoder : Decoder := {|
  decode_deployment s := if str_eqb s "web" then Some [web] else if str_eqb s "both" then Some [web; bad] else None;
  decode_statefulset _ := None
|}.
Definition mirror : Mirror := mkMirror "registry.internal/" ["docker.io/library/"].
Definition pod : podImages := mkPodImages ["busybox"] ["ghcr.io/shop/web:2"; "docker.io/library/redis:7"] [].
End AdmissionDemo.
#[local] Existing Instance AdmissionDemo.decoder.

Example admission_runs :
  validate (mkRequest "Deployment" "web") AdmissionDemo.cfg
    = Allowed [NoCPULimit "web"; Unpinned "web" "registry:5000/shop/web"]
  ∧ validate (mkRequest "Deployment" "both") AdmissionDemo.cfg = Denied (BlockedImage "job" "docker.io/evil/")
  ∧ map (λ o, (op_Path o, op_Value o)) (patches AdmissionDemo.mirror AdmissionDemo.pod)
    = [("/spec/initContainers/0/image", "registry.internal/docker.io/library/busybox");
       ("/spec/containers/1/image", "registry.internal/docker.io/library/redis:7")].
Proof. split_and!; vm_compute; reflexivity. Qed.

(** Blocked prefixes are compared with the reference as written, the mirror's
    with the normalized one: the same Docker Hub image passes under its short
    name. *)
Example short_name_passes_a_block :
  pinnedImage "evil/job:1" = true
  ∧ normalizeImage "evil/job:1" = "docker.io/evil/job:1"
  ∧ check_container AdmissionDemo.cfg (mkContainer "job" "evil/job:1" {[ "cpu"; "memory" ]} true) = inr [].
Proof. split_and!; vm_compute; reflexivity. Qed.

Lemma pinnedImage_reads_the_tag_witness :
  pinnedImage "registry:5000/web" = false ∧ pinnedImage "registry:5000/web:latest" = false.
Proof.
  destruct (pinnedImage_reads_the_tag "registry:5000/" "web" "latest" "sha256:0") as (Ha & Hb & _);
    [right; by exists "registry:5000"|done..|].
  split; [exact Hb|exact Ha].
Defined.
