(* ===== verification/ReloadWatch.v ===== *)
(** * ReloadWatch: what the reloader watches (internal/kube/reload_watch.go)

    The informers [WatchConfig] starts: ConfigMaps in the watch scope,
    Secrets in the fix ceiling.  Which namespaces a field selector keeps is
    the API server's business, a parameter; the informers, their caches and
    the ticker are client-go's. *)
From S2P Require Import Prelude GoStd Policy Gate ReloadRefs.
From Stdlib Require Import Ascii.
#[local] Open Scope Z_scope.

(** ** The informers *)

(** One factory: a namespace, or every namespace a selector keeps. *)
Inductive informerScope := InNamespace (ns : string) | InSelected (selector : string).

Definition systemExclusion (system : gset string) : string :=
  strings_Join (sort_strings ((λ ns, "metadata.namespace!=" +:+ ns) <$> elements system)) ",".

Definition secretScope (fixScope : list string) (anywhere : bool) (ceiling : gset string)
    (watched : string → bool) : list string * bool :=
  if anywhere then ([], true)
  else (sort_strings (elements (filter (λ ns, watched ns = true) ceiling ∪ list_to_set fixScope)), false).

Definition reloadInformers (p : Policy) (scope : list string * bool) : list informerScope :=
  (if scope.2 then [InSelected (systemExclusion (System p))] else []) ++ (InNamespace <$> scope.1).

(** [WatchConfig]: the informers on ConfigMaps and on Secrets. *)
Definition WatchConfig (p : Policy) (secrets : bool) : list informerScope * list informerScope :=
  (reloadInformers p (WatchList p),
   if secrets
   then reloadInformers p (secretScope (FixScope p) (FixAnywhere p) (FixCeiling p) (Watched p))
   else []).

(** ** What they see *)
Section sees.
(** [selects sel ns]: the API server keeps the objects of [ns] under the
    field selector [sel]. *)
Variable selects : string → string → bool.

Definition sees (ns : string) (i : informerScope) : bool :=
  match i with InNamespace n => str_eqb n ns | InSelected sel => selects sel ns end.
Definition seen (ns : string) (infs : list informerScope) : bool := existsb (sees ns) infs.

Variable p : Policy.
(** One inequality for each excluded name keeps the others. *)
Hypothesis selects_exclusion :
  ∀ ns, selects (systemExclusion (System p)) ns = bool_decide (ns ∉ System p).

Lemma seen_in_names names ns : seen ns (InNamespace <$> names) = bool_decide (ns ∈ names).
Proof.
  unfold seen. induction names as [|n names IH]; [by rewrite bool_decide_false by set_solver|].
  cbn [fmap list_fmap existsb sees]. rewrite IH, str_eqb_decide.
  apply eq_true_iff_eq. rewrite orb_true_iff, !bool_decide_eq_true. set_solver.
Qed.
Lemma seen_scope names all ns :
  seen ns (reloadInformers p (names, all)) = (all && bool_decide (ns ∉ System p)) || bool_decide (ns ∈ names).
Proof.
  unfold reloadInformers, seen. rewrite existsb_app. cbn [fst snd]. fold (seen ns (InNamespace <$> names)).
  rewrite seen_in_names. f_equal. destruct all; cbn; [by rewrite selects_exclusion, orb_false_r|done].
Qed.
Lemma elem_of_FixScope ns : ns ∈ FixScope p ↔ Fixable p ns = true.
Proof.
  unfold FixScope, Fixable. by rewrite list_elem_of_filter, elem_of_nsSet_sorted, andb_true_iff, nsSet_has_true.
Qed.
Lemma secretScope_listed ns :
  FixAnywhere p = false →
  bool_decide (ns ∈ (secretScope (FixScope p) false (FixCeiling p) (Watched p)).1) = InCeiling p ns.
Proof.
  intros Ha. apply eq_true_iff_eq. rewrite bool_decide_eq_true. cbn [secretScope fst].
  rewrite elem_of_sort_strings, elem_of_elements, elem_of_union, elem_of_filter, elem_of_list_to_set.
  rewrite elem_of_FixScope. unfold Fixable, InCeiling. rewrite Ha.
  rewrite <-(nsSet_has_true (FixCeiling p)). destruct (Watched p ns); cbn; [|naive_solver].
  rewrite andb_true_iff. naive_solver.
Qed.

(** ConfigMaps are watched in exactly the watched namespaces, Secrets in
    every namespace that can be fixed and, unless fixes are allowed anywhere,
    in exactly the fix ceiling. *)
Theorem watches_its_scope ns :
  ns ≠ "" →
  seen ns (WatchConfig p true).1 = Watched p ns
  ∧ (Fixable p ns = true → seen ns (WatchConfig p true).2 = true)
  ∧ (FixAnywhere p = false → seen ns (WatchConfig p true).2 = InCeiling p ns).
Proof.
  intros Hne. cbn [WatchConfig fst snd].
  assert (Hlist : FixAnywhere p = false →
    seen ns (reloadInformers p (secretScope (FixScope p) (FixAnywhere p) (FixCeiling p) (Watched p)))
    = InCeiling p ns).
  { intros Ha. rewrite Ha. cbn [secretScope]. rewrite seen_scope. cbn [andb orb].
    by apply (secretScope_listed ns). }
  split_and!; [| |done].
  - unfold WatchList, Watched. rewrite (proj2 (str_eqb_ne ns "")) by done.
    destruct (WatchAll p); rewrite seen_scope; cbn [andb orb].
    + rewrite (bool_decide_false (ns ∈ [])) by set_solver. rewrite orb_false_r. unfold nsSet_has.
      apply bool_decide_not.
    + unfold nsSet_has. apply bool_decide_ext. apply elem_of_nsSet_sorted.
  - intros Hfix. destruct (FixAnywhere p) eqn:Ha.
    2:{ rewrite Hlist by done. by apply andb_true_iff in Hfix as [? _]. }
    cbn [secretScope]. rewrite seen_scope. cbn [andb]. rewrite bool_decide_true; [done|].
    unfold Fixable, InCeiling in Hfix. rewrite Ha in Hfix.
    destruct (Watched p ns); [|done]. cbn [negb] in Hfix. apply andb_true_iff in Hfix as [Hs _].
    unfold nsSet_has in Hs. by case_bool_decide.
Qed.
End sees.

(** ** Witnesses, and what modelling it showed *)

(** The selectors [systemExclusion] writes, read back. *)
Definition excludes (sel ns : string) : bool :=
  forallb (λ part, negb (str_eqb part ("metadata.namespace!=" +:+ ns))) (strings_Split sel ","%char).
Lemma excludes_parts names ns :
  forallb (λ part, negb (str_eqb part ("metadata.namespace!=" +:+ ns)))
    ((λ n, "metadata.namespace!=" +:+ n) <$> names) = bool_decide (ns ∉ names).
Proof.
  induction names as [|n names IH]; [by rewrite bool_decide_true by set_solver|].
  cbn [fmap list_fmap forallb]. fold ((λ n, "metadata.namespace!=" +:+ n) <$> names). rewrite IH.
  apply eq_true_iff_eq. rewrite andb_true_iff, negb_true_iff, str_eqb_ne, !bool_decide_eq_true.
  rewrite not_elem_of_cons. split; (intros [H1 H2]; split; [|done]).
  - intros ->. by apply H1.
  - intros Heq. apply H1. by injection Heq.
Qed.

Definition demo_policy : Policy := GateDemo.policy_in Fix.
Lemma watches_its_scope_witness :
  seen excludes "shop" (WatchConfig demo_policy true).1 = true
  ∧ seen excludes "kube-system" (WatchConfig demo_policy true).1 = false
  ∧ seen excludes "web" (WatchConfig demo_policy true).2 = InCeiling demo_policy "web".
Proof.
  assert (Hx : ∀ ns, excludes (systemExclusion (System demo_policy)) ns = bool_decide (ns ∉ System demo_policy)).
  { intros ns. unfold excludes.
    replace (strings_Split (systemExclusion (System demo_policy)) ","%char)
      with ((λ n, "metadata.namespace!=" +:+ n) <$> sort_strings (elements (System demo_policy)))
      by (vm_compute; reflexivity).
    rewrite excludes_parts. apply bool_decide_ext. by rewrite elem_of_sort_strings, elem_of_elements. }
  split_and!.
  - rewrite (proj1 (watches_its_scope excludes demo_policy Hx "shop" ltac:(done))). vm_compute. reflexivity.
  - rewrite (proj1 (watches_its_scope excludes demo_policy Hx "kube-system" ltac:(done))). vm_compute. reflexivity.
  - apply (proj2 (proj2 (watches_its_scope excludes demo_policy Hx "web" ltac:(done)))). reflexivity.
Defined.

(** With fixes allowed anywhere and a watch list, Secrets are watched
    outside the watched namespaces. *)
Example fix_anywhere_watches_unwatched_secrets :
  let q := match Load (λ k, if str_eqb k "WATCH_NAMESPACES" then "shop"
                            else if str_eqb k "FIX_ANYWHERE" then "true" else "") with
           | inl q => q | inr _ => demo_policy end in
  WatchList q = (["shop"], false) ∧ Watched q "pay" = false
  ∧ secretScope (FixScope q) (FixAnywhere q) (FixCeiling q) (Watched q) = ([], true)
  ∧ bool_decide ("pay" ∈ System q) = false.
Proof. split_and!; vm_compute; reflexivity. Qed.
