(* ===== verification/Reload.v ===== *)
(** * Reload: restarts on a configuration change (internal/kube/reload.go)

    The reloader: changes wait out a debounce window, then a wave restarts
    the workloads that use the changed keys, one at a time, through the
    mutation gate, and each must be healthy before the next
    ([reload_rollouts.go]: a Rollout by Argo's own verdict).

    Waves and the log share their records by pointer: records live in a
    store ([rl_recs]) and both hold their numbers.  The informers and the
    ticker run in two goroutines; they meet only at [pending], under the
    lock, so a run is a sequence of [queueChange]s and whole ticks.  What the
    API server answers, and which process leads, are parameters. *)
From S2P Require Import Prelude GoStd Policy RateLimit Guards Events Escalation Gate Kube.
From S2P Require Import Sha256 ReloadRefs Findings.
From Stdlib Require Import Ascii.
#[local] Open Scope Z_scope.
#[local] Open Scope agent_scope.

Definition reloadVerifyTimeout : Duration := 10 * minute.
Definition reloadLogSize : nat := 200.

(** ** Data *)
Inductive wlKind := KDeployment | KStatefulSet | KDaemonSet | KCronJob | KRollout.
#[export] Instance wlKind_eq_dec : EqDecision wlKind.
Proof. solve_decision. Defined.
Record workloadRef := mkWorkload { wl_Kind : wlKind; wl_Name : string }.
#[export] Instance workloadRef_eq_dec : EqDecision workloadRef.
Proof. solve_decision. Defined.
Definition workloadRef_String (w : workloadRef) : string :=
  match wl_Kind w with
  | KDeployment => "deployment" | KStatefulSet => "statefulset" | KDaemonSet => "daemonset"
  | KCronJob => "cronjob" | KRollout => "rollout"
  end +:+ "/" +:+ wl_Name w.

Record ReloadOutcome := mkOutcome { ro_Workload : string; ro_Result : string; ro_Detail : string }.
Record ReloadRecord := mkReloadRecord {
  rr_ID : Z; rr_Timestamp : Time; rr_Namespace : string; rr_Object : string; rr_Keys : list string;
  rr_Workloads : list ReloadOutcome; rr_Done : bool
}.
Record pendingChange := mkChange {
  pc_ns : string; pc_ref : objRef; pc_keys : gset string; pc_objAnn : gmap string string;
  pc_data : gmap string string; pc_dueAt : Time; pc_startAt : Time
}.
Record wave := mkWave {
  wv_rec : Z; wv_change : pendingChange; wv_todo : list workloadRef;
  wv_current : option workloadRef; wv_hash : string; wv_startedAt : Time
}.
Record reload_config := mkReloadCfg { cfg_On : string; cfg_Debounce : Duration }.
Record Reloader := mkReloader {
  rl_cfg : reload_config; rl_pending : gmap string pendingChange; rl_waves : list wave;
  rl_blocked : gset string; rl_log : list Z; rl_recs : gmap Z ReloadRecord; rl_nextID : Z
}.
Definition NewReloader (cfg : reload_config) : Reloader :=
  mkReloader (if str_eqb (cfg_On cfg) reloadOnAlways then cfg else mkReloadCfg reloadOnAuto (cfg_Debounce cfg))
    ∅ [] ∅ [] ∅ 0.

Definition set_pending p r := mkReloader (rl_cfg r) p (rl_waves r) (rl_blocked r) (rl_log r) (rl_recs r) (rl_nextID r).
Definition set_waves ws r := mkReloader (rl_cfg r) (rl_pending r) ws (rl_blocked r) (rl_log r) (rl_recs r) (rl_nextID r).
Definition set_blocked b r := mkReloader (rl_cfg r) (rl_pending r) (rl_waves r) b (rl_log r) (rl_recs r) (rl_nextID r).
Definition set_recs m r := mkReloader (rl_cfg r) (rl_pending r) (rl_waves r) (rl_blocked r) (rl_log r) m (rl_nextID r).
Definition rec_add (o : ReloadOutcome) (r : ReloadRecord) : ReloadRecord :=
  mkReloadRecord (rr_ID r) (rr_Timestamp r) (rr_Namespace r) (rr_Object r) (rr_Keys r)
    (rr_Workloads r ++ [o]) (rr_Done r).
Definition rec_done (r : ReloadRecord) : ReloadRecord :=
  mkReloadRecord (rr_ID r) (rr_Timestamp r) (rr_Namespace r) (rr_Object r) (rr_Keys r)
    (rr_Workloads r) true.

(** Newest first. *)
Definition Records (r : Reloader) : list ReloadRecord :=
  omap (λ id, rl_recs r !! id) (reverse (rl_log r)).

(** ** The API server *)
Record reloadable := mkReloadable {
  rw_ref : workloadRef; rw_spec : PodSpec; rw_ann : gmap string string;
  rw_tmpl : gmap string string; rw_labels : option (gmap string string)
}.
(** A Rollout: one with a [workloadRef], or whose template is missing or
    unreadable, is skipped. *)
Record rolloutObject := mkRollout {
  ra_Name : string; ra_Ann : gmap string string; ra_workloadRef : bool;
  ra_template : option (PodSpec * gmap string string * option (gmap string string))
}.
Record condition := mkCondition { cd_Type : string; cd_Status : string; cd_Reason : string }.
Record DeployHealth := mkDeployHealth {
  dh_Replicas : option Z; dh_Generation : Z; dh_Observed : Z; dh_Updated : Z; dh_Available : Z;
  dh_Conditions : list condition
}.
Record StatefulHealth := mkStatefulHealth {
  sh_Replicas : option Z; sh_Generation : Z; sh_Observed : Z; sh_Updated : Z; sh_Ready : Z;
  sh_CurrentRevision : string; sh_UpdateRevision : string
}.
Record DaemonHealth := mkDaemonHealth {
  ah_Generation : Z; ah_Observed : Z; ah_Desired : Z; ah_Updated : Z; ah_Available : Z
}.
(** A list or get that fails is [None]. *)
Class ReloadAPI (C : Type) := {
  list_templates : wlKind → string → C → option (list reloadable);
  list_rollouts : string → C → option (list rolloutObject);
  get_deploy_health : string → string → C → option DeployHealth;
  get_stateful_health : string → string → C → option StatefulHealth;
  get_daemon_health : string → string → C → option DaemonHealth;
  get_rollout_phase : string → string → C → option (string * string); (* phase, message *)
  patch_template : wlKind → string → string → string → string → C → C * option string
}.

Definition rolloutTemplate (o : rolloutObject) : option reloadable :=
  if ra_workloadRef o then None
  else match ra_template o with
       | Some (spec, tmpl, labels) =>
         Some (mkReloadable (mkWorkload KRollout (ra_Name o)) spec (ra_Ann o) tmpl labels)
       | None => None
       end.

Definition isRolloutStuck (d : DeployHealth) : bool :=
  existsb (λ c, str_eqb (cd_Type c) "Progressing" && str_eqb (cd_Status c) "False"
                && str_eqb (cd_Reason c) "ProgressDeadlineExceeded") (dh_Conditions d).
Definition statefulSetHealthy (s : StatefulHealth) : bool :=
  let want := default 1 (sh_Replicas s) in
  (sh_Generation s <=? sh_Observed s) && (sh_Updated s =? want) && (sh_Ready s =? want)
  && str_eqb (sh_CurrentRevision s) (sh_UpdateRevision s).

(** What a check of the workload in flight says: done, healthy, and why. *)
Definition rolloutDone (healthy timedOut : bool) (detail : string) : bool * bool * string :=
  if healthy then (true, true, detail)
  else if timedOut
  then (true, false, "not healthy after " +:+ dur_String_seconds reloadVerifyTimeout +:+ " (" +:+ detail +:+ ")")
  else (false, false, detail).
Definition phaseOr (p : string) : string := if str_eqb p "" then "has no status yet" else "is " +:+ p.

Definition reloadAnnotation (ref : objRef) : string :=
  "auto-agent.io/reload-" +:+ str_take 10 (hex_encode (sha256_sum (objRef_String ref))).
Definition blockKey (ns : string) (wl : workloadRef) (hash : string) : string :=
  ns +:+ "/" +:+ workloadRef_String wl +:+ "/" +:+ hash.

Definition started_before (p q : pendingChange) : Prop := pc_startAt p ≤ pc_startAt q.
#[export] Instance started_before_dec : RelDecision started_before.
Proof. intros p q. unfold started_before. apply _. Defined.
Definition ref_le (a b : workloadRef) : Prop := String.le (workloadRef_String a) (workloadRef_String b).
#[export] Instance ref_le_dec : RelDecision ref_le.
Proof. intros a b. unfold ref_le. apply _. Defined.

Section reload.
Context {C : Type} `{!ReloadAPI C, !RangeOrder} (env : Env) (rollouts_on : bool).
Abbreviation M := (st (Reloader * GState C)).

Definition reading {A} (f : C → A) : M A := λ s, (f (gs_cluster s.2), s).
Definition now_M : M Time := st_right (clock env).
Definition modify_r (f : Reloader → Reloader) : M unit := st_left (st_modify f).

(** ** Queueing a change *)
Definition queueChange (ns : string) (ref : objRef) (before after ann : gmap string string) : M unit :=
  if negb (Watched (env_Policy env) ns) then return! tt
  else
    let keys := changedKeys before after in
    if bool_decide (keys = []) then return! tt
    else
      let! now := now_M in
      modify_r (λ r,
        let k := ns +:+ "/" +:+ objRef_String ref in
        let old := rl_pending r !! k in
        let p := mkChange ns ref (list_to_set keys ∪ default ∅ (pc_keys <$> old)) ann after
                   (time_Add now (cfg_Debounce (rl_cfg r))) (default now (pc_startAt <$> old)) in
        set_pending (<[k := p]> (rl_pending r)) r).

(** A ConfigMap or a Secret, before and after an update; a Secret has no
    other data. *)
Record configObject := mkConfigObject {
  co_Namespace : string; co_Name : string; co_Data : gmap string string; co_BinaryData : gmap string string;
  co_Annotations : gmap string string
}.
Definition configMapChanged (old cur : configObject) : M unit :=
  queueChange (co_Namespace cur) (mkRef refConfigMap (co_Name cur))
    (configMapData (co_Data old) (co_BinaryData old)) (configMapData (co_Data cur) (co_BinaryData cur)) (co_Annotations cur).
Definition secretChanged (old cur : configObject) : M unit :=
  queueChange (co_Namespace cur) (mkRef refSecret (co_Name cur)) (co_Data old) (co_Data cur) (co_Annotations cur).

(** ** The workloads of a namespace *)
Definition reloadWorkloads (ns : string) (c : C) : list reloadable :=
  let of_kind k := default [] (list_templates k ns c) in
  of_kind KDeployment ++ of_kind KStatefulSet ++ of_kind KDaemonSet ++ of_kind KCronJob
  ++ (if rollouts_on then omap rolloutTemplate (default [] (list_rollouts ns c)) else []).
Definition reloadTemplate (ns : string) (wl : workloadRef) (c : C) : option reloadable :=
  head (filter (λ t, rw_ref t = wl) (reloadWorkloads ns c)).
Definition affectedWorkloads (on : string) (p : pendingChange) (keys : list string) (c : C) : list workloadRef :=
  merge_sort ref_le (rw_ref <$> filter (λ t,
    shouldReload (workloadRules (rw_ann t)) (pc_ref p) (templateRefs (rw_spec t) !! pc_ref p) keys
      (pc_objAnn p) on = true) (reloadWorkloads (pc_ns p) c)).

(** ** Records *)
Definition recordOutcome (id : Z) (wl : workloadRef) (result detail : string) : M unit :=
  modify_r (λ r, set_recs (alter (rec_add (mkOutcome (workloadRef_String wl) result detail)) id (rl_recs r)) r).
Definition finishWave (id : Z) : M unit :=
  modify_r (λ r, set_recs (alter rec_done id (rl_recs r)) r).

Definition startWave (p : pendingChange) : M unit :=
  let keys := sort_strings (elements (pc_keys p)) in
  let! s := st_get in
  let targets := affectedWorkloads (cfg_On (rl_cfg s.1)) p keys (gs_cluster s.2) in
  if bool_decide (targets = []) then return! tt
  else
    let! now := now_M in
    modify_r (λ r,
      let id := rl_nextID r + 1 in
      let rec := mkReloadRecord id now (pc_ns p) (objRef_String (pc_ref p)) keys [] false in
      mkReloader (rl_cfg r) (rl_pending r) (rl_waves r ++ [mkWave id p targets None "" 0]) (rl_blocked r)
        (lastn reloadLogSize (rl_log r ++ [id])) (<[id := rec]> (rl_recs r)) id) ;;;
    st_right (recordEvent env (mkEvent 0 0 Info Events.SevInfo (pc_ns p) (objRef_String (pc_ref p)) "" ""
      "ConfigChanged" ("changed keys " +:+ strings_Join keys ", " +:+ "; reloads "
        +:+ strings_Join (workloadRef_String <$> targets) ", ") "" "" "" "" "" "")).

(** ** The workload in flight *)
Definition verifyRollout (ns name : string) (timedOut : bool) (c : C) : bool * bool * string :=
  match get_rollout_phase ns name c with
  | None => rolloutDone false timedOut "could not read the Rollout"
  | Some (phase, msg) =>
    if str_eqb phase "Healthy" then (true, true, "Rollout healthy")
    else if str_eqb phase "Degraded" then (true, false, "Rollout degraded: " +:+ msg)
    else if str_eqb phase "Paused"
    then (true, true, "Rollout paused for promotion; Argo Rollouts carries it from here")
    else rolloutDone false timedOut ("Rollout " +:+ phaseOr phase)
  end.
Definition verify_at (ns : string) (wl : workloadRef) (timedOut : bool) (c : C) : bool * bool * string :=
  match wl_Kind wl with
  | KDeployment =>
    match get_deploy_health ns (wl_Name wl) c with
    | None => rolloutDone false timedOut "could not read the Deployment"
    | Some d =>
      if isRolloutStuck d then (true, false, "the rollout passed its progress deadline")
      else
        let want := default 1 (dh_Replicas d) in
        rolloutDone ((dh_Generation d <=? dh_Observed d) && (dh_Updated d =? want) && (dh_Available d =? want))
          false (itoa (dh_Available d) +:+ "/" +:+ itoa want +:+ " updated and available")
    end
  | KStatefulSet =>
    match get_stateful_health ns (wl_Name wl) c with
    | None => rolloutDone false timedOut "could not read the StatefulSet"
    | Some s => rolloutDone (statefulSetHealthy s) timedOut
                  (itoa (sh_Ready s) +:+ "/" +:+ itoa (default 1 (sh_Replicas s)) +:+ " updated and ready")
    end
  | KRollout => verifyRollout ns (wl_Name wl) timedOut c
  | _ =>
    match get_daemon_health ns (wl_Name wl) c with
    | None => rolloutDone false timedOut "could not read the DaemonSet"
    | Some d => rolloutDone ((ah_Generation d <=? ah_Observed d) && (ah_Updated d =? ah_Desired d)
                             && (ah_Available d =? ah_Desired d)) timedOut
                  (itoa (ah_Available d) +:+ "/" +:+ itoa (ah_Desired d) +:+ " updated and available")
    end
  end.
Definition verifyReload (w : wave) (wl : workloadRef) : M (bool * bool * string) :=
  let! now := now_M in
  reading (verify_at (pc_ns (wv_change w)) wl (reloadVerifyTimeout <? time_Sub now (wv_startedAt w))).

(** ** A wave *)
Definition wave_ended (w : wave) : wave := mkWave (wv_rec w) (wv_change w) [] None (wv_hash w) (wv_startedAt w).
Definition wave_at (todo : list workloadRef) (w : wave) : wave :=
  mkWave (wv_rec w) (wv_change w) todo None (wv_hash w) (wv_startedAt w).

Fixpoint skip_rest (id : Z) (todo : list workloadRef) : M unit :=
  match todo with
  | [] => return! tt
  | wl :: todo' =>
    recordOutcome id wl "skipped" "an earlier workload in this reload failed" ;;; skip_rest id todo'
  end.
Definition failure (w : wave) (cur : workloadRef) (detail : string) (keys : list string) : finding C :=
  let obj := objRef_String (pc_ref (wv_change w)) in
  mkFinding C "ConfigReloadFailed" (pc_ns (wv_change w)) (workloadRef_String cur) "" "" Events.SevCritical
    RungGuided None None ("the restart for " +:+ obj +:+ " did not become healthy: " +:+ detail)
    ["Changed keys: " +:+ strings_Join keys ", ";
     "The rest of this reload is stopped; this version will not be applied to it again"]
    ("fix or revert " +:+ obj +:+ "; a stalled Deployment is rolled back by the stuck rollout check") obj "".
Definition rec_keys (id : Z) (r : Reloader) : list string := default [] (rr_Keys <$> rl_recs r !! id).

Definition failWave (w : wave) (cur : workloadRef) (detail : string) : M wave :=
  modify_r (λ r, set_blocked ({[ blockKey (pc_ns (wv_change w)) cur (wv_hash w) ]} ∪ rl_blocked r) r) ;;;
  recordOutcome (wv_rec w) cur "failed" detail ;;;
  skip_rest (wv_rec w) (wv_todo w) ;;;
  finishWave (wv_rec w) ;;;
  let! s := st_get in
  let! _ := st_right (report env (failure w cur detail (rec_keys (wv_rec w) s.1))) in
  return! wave_ended w.

Definition outcome_text (o : gateOutcome) : string :=
  match o with
  | gateSkipped => "skipped" | gateSuggested => "suggested" | gateSimulated => "simulated"
  | gateBlocked => "blocked" | gateFailed => "failed" | gateApplied => "restarted"
  end.
(** The version of the object a template would restart for. *)
Definition version_of (tmpl : reloadable) (p : pendingChange) : string :=
  usedHash (default (mkUse true ∅ false) (templateRefs (rw_spec tmpl) !! pc_ref p)) (pc_data p).

(** [restartForReload]: [Some] is the wave with the workload in flight. *)
Definition restartForReload (w : wave) (wl : workloadRef) : M (option wave) :=
  let p := wv_change w in
  let ns := pc_ns p in let ref := pc_ref p in
  let! found := reading (reloadTemplate ns wl) in
  match found with
  | None => recordOutcome (wv_rec w) wl "failed" "could not read the workload" ;;; return! None
  | Some tmpl =>
    let hash := version_of tmpl p in
    let annKey := reloadAnnotation ref in
    let! s := st_get in
    if bool_decide (blockKey ns wl hash ∈ rl_blocked s.1) then
      recordOutcome (wv_rec w) wl "blocked" "this version stalled once and is not applied again" ;;;
      return! None
    else if str_eqb (ann_get (rw_tmpl tmpl) annKey) hash then
      recordOutcome (wv_rec w) wl "up to date" "already restarted for this version" ;;; return! None
    else
      let what := workloadRef_String wl +:+ " for " +:+ objRef_String ref +:+ " (keys "
                  +:+ strings_Join (rec_keys (wv_rec w) s.1) ", " +:+ ")" in
      let! out := st_right (applyMutation env (mkMutation C ns (workloadRef_String wl) "" (rw_labels tmpl)
        "ConfigChanged" "config_reload" ("restarted " +:+ what) ("restart " +:+ what)
        (patch_template (wl_Kind wl) ns (wl_Name wl) annKey hash) "" None false)) in
      recordOutcome (wv_rec w) wl (outcome_text out.1) (strings_TrimSpace out.2) ;;;
      if negb (bool_decide (out.1 = gateApplied)) || bool_decide (wl_Kind wl = KCronJob) then return! None
      else let! now := now_M in
           return! Some (mkWave (wv_rec w) p (wv_todo w) (Some wl) hash now)
  end.

(** The rest of a wave with nothing in flight. *)
Fixpoint restart_rest (w : wave) (todo : list workloadRef) : M wave :=
  match todo with
  | [] => finishWave (wv_rec w) ;;; return! wave_at [] w
  | next :: todo' =>
    let! started := restartForReload (wave_at todo' w) next in
    match started with
    | Some w' => return! w'
    | None => restart_rest w todo'
    end
  end.

Definition advanceWave (w : wave) : M wave :=
  match wv_current w with
  | Some cur =>
    let! v := verifyReload w cur in
    let '(done, ok, detail) := v in
    if negb done then return! w
    else if negb ok then failWave w cur detail
    else recordOutcome (wv_rec w) cur "healthy" detail ;;; restart_rest w (wv_todo w)
  | None => restart_rest w (wv_todo w)
  end.

Fixpoint advance_all (ws : list wave) : M (list wave) :=
  match ws with
  | [] => return! []
  | w :: ws' => let! w' := advanceWave w in let! rest := advance_all ws' in return! (w' :: rest)
  end.
Fixpoint start_all (ps : list pendingChange) : M unit :=
  match ps with [] => return! tt | p :: ps' => startWave p ;;; start_all ps' end.

Definition wave_done (r : Reloader) (w : wave) : bool :=
  match rl_recs r !! wv_rec w with Some rec => rr_Done rec | None => false end.
Definition is_due (now : Time) (p : pendingChange) : bool := negb (time_Before now (pc_dueAt p)).

Definition reloadTick (leading : bool) : M unit :=
  let! now := now_M in
  let! s := st_get in
  let due := filter (λ p, is_due now p = true) (range_map (rl_pending s.1)).*2 in
  modify_r (λ r, set_pending (filter (λ kp, is_due now kp.2 = false) (rl_pending r)) r) ;;;
  if negb leading then return! tt
  else
    start_all (merge_sort started_before due) ;;;
    let! s := st_get in
    let! ws := advance_all (rl_waves s.1) in
    modify_r (λ r, set_waves (filter (λ w, wave_done r w = false) ws) r).
End reload.

(** ** Frames *)

(** The steps of a wave touch its own record only, and the blocked
    versions only grow. *)
Record touches (id : Z) (r r' : Reloader) : Prop := {
  to_cfg : rl_cfg r' = rl_cfg r; to_pending : rl_pending r' = rl_pending r;
  to_waves : rl_waves r' = rl_waves r; to_log : rl_log r' = rl_log r;
  to_next : rl_nextID r' = rl_nextID r; to_blocked : rl_blocked r ⊆ rl_blocked r';
  to_others : ∀ i, i ≠ id → rl_recs r' !! i = rl_recs r !! i;
  to_known : is_Some (rl_recs r !! id) → is_Some (rl_recs r' !! id)
}.
Definition touches_p {C} (id : Z) (s s' : Reloader * GState C) : Prop := touches id s.1 s'.1.
#[export] Instance touches_preorder id : PreOrder (touches id).
Proof.
  split; [by split|]. intros x y z [] []. split; try congruence; [set_solver| |auto].
  intros i Hi. rewrite <-to_others0; auto.
Qed.
#[export] Instance touches_p_preorder {C} id : PreOrder (@touches_p C id).
Proof. split; [intros s; unfold touches_p; reflexivity|intros x y z H1 H2; unfold touches_p in *; by etrans]. Qed.

Section frames.
Context {C : Type} `{!ReloadAPI C, !RangeOrder} (env : Env) (rollouts_on : bool).
Abbreviation T := (touches_p (C := C)).

Lemma gate_step_touches {A} id (m : st (GState C) A) : keeps (T id) (st_right m).
Proof. intros [r g]. unfold touches_p, st_right. cbn. destruct (m g). cbn. reflexivity. Qed.
Lemma reading_touches {A} id (f : C → A) : keeps (T id) (reading f).
Proof. intros s. unfold touches_p. cbn. reflexivity. Qed.
Lemma now_touches id : keeps (T id) (now_M env).
Proof. apply gate_step_touches. Qed.
Lemma alter_touches id (f : ReloadRecord → ReloadRecord) r :
  touches id r (set_recs (alter f id (rl_recs r)) r).
Proof.
  split; cbn; try done.
  - intros i Hi. by rewrite lookup_alter_ne.
  - intros [x Hx]. by rewrite lookup_alter_eq, Hx.
Qed.
Lemma recordOutcome_touches id wl a b : keeps (T id) (recordOutcome id wl a b).
Proof. intros [r g]. apply alter_touches. Qed.
Lemma finishWave_touches id : keeps (T id) (finishWave id).
Proof. intros [r g]. apply alter_touches. Qed.
Hint Resolve gate_step_touches reading_touches now_touches recordOutcome_touches finishWave_touches : core.

Ltac walk := repeat first
  [ progress auto | apply (keeps_bind _) | apply (keeps_ret _) | apply (keeps_get _)
  | match goal with
    | |- keeps _ (match ?x with _ => _ end) => destruct x
    | |- ∀ _, _ => intros ?
    end ].

Lemma skip_rest_touches id todo : keeps (T id) (skip_rest id todo).
Proof. induction todo; cbn; walk. Qed.
Hint Resolve skip_rest_touches : core.
Lemma failWave_touches w cur detail : keeps (T (wv_rec w)) (failWave env w cur detail).
Proof.
  unfold failWave. apply (keeps_bind _); [|walk].
  intros [r g]. split; cbn; try done. set_solver.
Qed.
Lemma failWave_blocks w cur d (s : Reloader * GState C) :
  let '(w', s') := failWave env w cur d s in
  w' = wave_ended w ∧ blockKey (pc_ns (wv_change w)) cur (wv_hash w) ∈ rl_blocked s'.1.
Proof.
  set (key := blockKey _ cur _).
  set (P := λ res : wave * (Reloader * GState C), let '(w', s') := res in w' = wave_ended w ∧ key ∈ rl_blocked s'.1).
  change (P (failWave env w cur d s)). unfold failWave.
  apply (bind_spec (λ res, key ∈ rl_blocked res.2.1)); [destruct s; cbn; set_solver|]. cbn [snd].
  intros _ s1 H1.
  match goal with |- P (?rest _) => assert (keeps (T (wv_rec w)) rest) as Ht by walk; specialize (Ht s1) end.
  destruct Ht as [_ _ _ _ _ Hb _ _].
  match goal with |- P ?e => assert (e.1 = wave_ended w) as He by
    (unfold st_bind; by repeat (case_match; simplify_eq/=)); destruct e as [w' s'] end.
  split; [exact He|]. cbn [snd] in Hb. set_solver.
Qed.
Lemma restartForReload_touches w wl : keeps (T (wv_rec w)) (restartForReload env rollouts_on w wl).
Proof. unfold restartForReload. walk. Qed.
Lemma restart_rest_touches w todo : keeps (T (wv_rec w)) (restart_rest env rollouts_on w todo).
Proof.
  induction todo as [|wl todo IH]; cbn [restart_rest]; [walk|].
  apply (keeps_bind _); [apply (restartForReload_touches (wave_at todo w))|]. intros []; walk.
Qed.
Lemma advanceWave_touches w : keeps (T (wv_rec w)) (advanceWave env rollouts_on w).
Proof.
  unfold advanceWave, verifyReload. destruct (wv_current w); [|apply restart_rest_touches].
  apply (keeps_bind _); [walk|]. intros [[done ok] detail]. destruct (negb done); [walk|].
  destruct (negb ok); [apply failWave_touches|]. walk. apply restart_rest_touches.
Qed.
End frames.

(** ** Every workload of a wave is accounted for *)

(** An outcome that ends a workload's part: any but the restart of a
    workload that is then waited for. *)
Definition final (o : ReloadOutcome) : bool :=
  negb (str_eqb (ro_Result o) "restarted") || strings_HasPrefix (ro_Workload o) "cronjob/".
Definition finals (id : Z) (r : Reloader) : list string :=
  ro_Workload <$> filter (λ o, final o = true) (default [] (rr_Workloads <$> rl_recs r !! id)).
Definition rec_is_done (id : Z) (r : Reloader) : bool := default false (rr_Done <$> rl_recs r !! id).
Definition in_flight (w : wave) : list string := workloadRef_String <$> option_list (wv_current w).
(** Done, in flight, to do. *)
Definition account (r : Reloader) (w : wave) : list string :=
  finals (wv_rec w) r ++ in_flight w ++ (workloadRef_String <$> wv_todo w).

Lemma finals_alter_add id o r :
  is_Some (rl_recs r !! id) →
  finals id (set_recs (alter (rec_add o) id (rl_recs r)) r)
  = finals id r ++ (if final o then [ro_Workload o] else []).
Proof.
  intros [x Hx]. unfold finals. cbn [rl_recs set_recs]. rewrite lookup_alter_eq, Hx. cbn.
  rewrite filter_app, fmap_app. f_equal. rewrite filter_cons. by destruct (final o).
Qed.
Lemma done_alter_add id o r :
  rec_is_done id (set_recs (alter (rec_add o) id (rl_recs r)) r) = rec_is_done id r.
Proof. unfold rec_is_done. cbn [rl_recs set_recs]. rewrite lookup_alter_eq. by destruct (rl_recs r !! id). Qed.
Lemma finals_done id r : finals id (set_recs (alter rec_done id (rl_recs r)) r) = finals id r.
Proof. unfold finals. cbn [rl_recs set_recs]. rewrite lookup_alter_eq. by destruct (rl_recs r !! id). Qed.
Lemma done_done id r :
  is_Some (rl_recs r !! id) → rec_is_done id (set_recs (alter rec_done id (rl_recs r)) r) = true.
Proof. intros [x Hx]. unfold rec_is_done. cbn [rl_recs set_recs]. by rewrite lookup_alter_eq, Hx. Qed.

Lemma final_kind wl res d :
  final (mkOutcome (workloadRef_String wl) res d)
  = negb (str_eqb res "restarted") || bool_decide (wl_Kind wl = KCronJob).
Proof.
  unfold final. cbn [ro_Result ro_Workload]. f_equal. unfold workloadRef_String.
  destruct (wl_Kind wl); cbn; by rewrite ?bool_decide_false by done; destruct (wl_Name wl).
Qed.

Section accounts.
Context {C : Type} `{!ReloadAPI C, !RangeOrder} (env : Env) (rollouts_on : bool).
Implicit Types (r : Reloader) (g : GState C) (w : wave) (s : Reloader * GState C).

Definition known (id : Z) r : Prop := is_Some (rl_recs r !! id).

(** What a step does to one record: the final outcomes it adds, and whether
    it ends the wave. *)
Definition adds (id : Z) (names : list string) (ends : bool) s (s' : Reloader * GState C) : Prop :=
  known id s.1 →
  known id s'.1 ∧ finals id s'.1 = finals id s.1 ++ names
  ∧ rec_is_done id s'.1 = ends || rec_is_done id s.1.

Lemma adds_refl id s : adds id [] false s s.
Proof. intros Hk. by rewrite app_nil_r. Qed.
Lemma adds_trans id n1 n2 e1 e2 s1 s2 s3 :
  adds id n1 e1 s1 s2 → adds id n2 e2 s2 s3 → adds id (n1 ++ n2) (e2 || e1) s1 s3.
Proof.
  intros Ha Hb Hk. destruct (Ha Hk) as (K1 & F1 & D1). destruct (Hb K1) as (K2 & F2 & D2).
  split_and!; [done|by rewrite F2, F1, app_assoc|by rewrite D2, D1, orb_assoc].
Qed.
(** A step that leaves the reloader. *)
Lemma adds_same id s s' : s'.1 = s.1 → adds id [] false s s'.
Proof. intros Hs. unfold adds. rewrite Hs. intros Hk. by rewrite app_nil_r. Qed.
Lemma bind_adds {A B : Type} id n n' e e' (m : st (Reloader * GState C) A)
    (k : A → st (Reloader * GState C) B) s :
  adds id n e s (m s).2 →
  (∀ a, adds id n' e' (m s).2 (k a (m s).2).2) → adds id (n ++ n') (e' || e) s (st_bind m k s).2.
Proof. intros Ha Hb. eapply adds_trans; [exact Ha|]. unfold st_bind. destruct (m s) as [a s']. apply (Hb a). Qed.

Lemma recordOutcome_adds id wl res d s :
  adds id (if final (mkOutcome (workloadRef_String wl) res d) then [workloadRef_String wl] else []) false
    s (recordOutcome id wl res d s).2.
Proof.
  destruct s as [r g]. intros Hk. cbn [fst recordOutcome].
  change ((recordOutcome id wl res d (r, g)).2.1) with
    (set_recs (alter (rec_add (mkOutcome (workloadRef_String wl) res d)) id (rl_recs r)) r).
  rewrite finals_alter_add, done_alter_add by done. split_and!; [|done|done].
  apply (to_known id r _ (alter_touches id (rec_add _) r)), Hk.
Qed.
Lemma finishWave_adds id s : adds id [] true s (finishWave id s).2.
Proof.
  destruct s as [r g]. intros Hk. change ((finishWave id (r, g)).2.1) with
    (set_recs (alter rec_done id (rl_recs r)) r). cbn [fst].
  rewrite finals_done, done_done, app_nil_r by done. split_and!; [|done|done].
  apply (to_known id r _ (alter_touches id rec_done r)), Hk.
Qed.
Lemma gate_step_adds {A} id (m : st (GState C) A) s : adds id [] false s (st_right m s).2.
Proof. apply adds_same. unfold st_right. by destruct (m s.2). Qed.
Lemma reading_adds {A} id (f : C → A) s : adds id [] false s (reading f s).2.
Proof. by apply adds_same. Qed.

Lemma skip_rest_adds id todo s :
  adds id (workloadRef_String <$> todo) false s (skip_rest id todo s).2.
Proof.
  revert s. induction todo as [|wl todo IH]; intros s; [apply adds_refl|].
  cbn [skip_rest fmap list_fmap]. apply (adds_trans id [_] _ false false _ (recordOutcome id wl "skipped"
    "an earlier workload in this reload failed" s).2).
  - pose proof (recordOutcome_adds id wl "skipped" "an earlier workload in this reload failed" s) as Hr.
    by rewrite final_kind in Hr.
  - unfold st_bind. destruct (recordOutcome _ _ _ _ s) as [[] s1]. apply IH.
Qed.

Lemma failWave_adds w cur detail s :
  adds (wv_rec w) (workloadRef_String cur :: (workloadRef_String <$> wv_todo w)) true
    s (failWave env w cur detail s).2.
Proof.
  unfold failWave. set (id := wv_rec w).
  apply (bind_adds id [] (workloadRef_String cur :: (workloadRef_String <$> wv_todo w)) false true).
  { intros Hk. destruct s as [r g]. cbn. by rewrite app_nil_r. }
  intros _. set (s1 := (modify_r _ s).2).
  apply (bind_adds id [workloadRef_String cur] (workloadRef_String <$> wv_todo w) false true).
  { pose proof (recordOutcome_adds id cur "failed" detail s1) as Hr. by rewrite final_kind in Hr. }
  intros _. set (s2 := (recordOutcome _ _ _ _ s1).2).
  rewrite <-(app_nil_r (workloadRef_String <$> wv_todo w)).
  apply (bind_adds id (workloadRef_String <$> wv_todo w) [] false true); [apply skip_rest_adds|].
  intros _. apply (bind_adds id [] [] true false); [apply finishWave_adds|]. intros _.
  change (st_bind st_get ?k ?x) with (k x x). cbv beta.
  apply (bind_adds id [] [] false false); [apply gate_step_adds|]. intros _. apply adds_refl.
Qed.

Lemma restartForReload_adds w wl s :
  let '(started, s') := restartForReload env rollouts_on w wl s in
  match started with
  | Some w' => wv_rec w' = wv_rec w ∧ wv_todo w' = wv_todo w ∧ wv_current w' = Some wl
               ∧ adds (wv_rec w) [] false s s'
  | None => adds (wv_rec w) [workloadRef_String wl] false s s'
  end.
Proof.
  set (P := λ res : option wave * (Reloader * GState C), let '(started, s') := res in
    match started with
    | Some w' => wv_rec w' = wv_rec w ∧ wv_todo w' = wv_todo w ∧ wv_current w' = Some wl
                 ∧ adds (wv_rec w) [] false s s'
    | None => adds (wv_rec w) [workloadRef_String wl] false s s'
    end).
  change (P (restartForReload env rollouts_on w wl s)).
  assert (ends : ∀ res d s1, adds (wv_rec w) [] false s s1 →
    str_eqb res "restarted" = false →
    P ((recordOutcome (wv_rec w) wl res d ;;; return! None)%agent s1)).
  { intros res d s1 H1 Hr. apply (adds_trans (wv_rec w) [] [_] false false _ _ _ H1).
    pose proof (recordOutcome_adds (wv_rec w) wl res d s1) as Ho. by rewrite final_kind, Hr in Ho. }
  unfold restartForReload. apply (bind_spec (λ res, res.2 = s)); [done|]. cbn [snd].
  intros found s1 ->. destruct found as [tmpl|]; [|apply ends; [apply adds_refl|done]].
  apply (bind_spec (λ res, res = (s, s))); [done|]. intros ? ? [= -> ->].
  case_bool_decide; [apply ends; [apply adds_refl|done]|].
  destruct (str_eqb _ _); [apply ends; [apply adds_refl|done]|].
  apply (bind_spec (λ res, adds (wv_rec w) [] false s res.2)); [apply gate_step_adds|]. cbn [snd].
  intros out s1 H1.
  apply (bind_spec (λ res, adds (wv_rec w) (if negb (bool_decide (out.1 = gateApplied))
    || bool_decide (wl_Kind wl = KCronJob) then [workloadRef_String wl] else []) false s res.2)).
  { pose proof (recordOutcome_adds (wv_rec w) wl (outcome_text out.1) (strings_TrimSpace out.2) s1) as Ho.
    rewrite final_kind in Ho. pose proof (adds_trans _ _ _ _ _ _ _ _ H1 Ho) as Ht.
    replace (negb (bool_decide (out.1 = gateApplied))) with (negb (str_eqb (outcome_text out.1) "restarted"))
      by (by destruct (out.1)). exact Ht. }
  cbn [snd]. intros _ s2 H2. destruct (negb _ || _); [exact H2|].
  apply (bind_spec (λ res, adds (wv_rec w) [] false s res.2)).
  { apply (adds_trans _ [] [] false false _ _ _ H2), gate_step_adds. }
  intros t s3 H3. split_and!; [done..|exact H3].
Qed.

(** A wave after a step: the same record, the same workloads accounted for,
    and ended exactly when nothing is in flight. *)
Definition went_on w names (res : wave * (Reloader * GState C)) s : Prop :=
  ∃ added, wv_rec res.1 = wv_rec w
    ∧ adds (wv_rec w) added (bool_decide (wv_current res.1 = None)) s res.2
    ∧ added ++ in_flight res.1 ++ (workloadRef_String <$> wv_todo res.1) = names
    ∧ (wv_current res.1 = None → wv_todo res.1 = []).

Lemma restart_rest_went_on w todo s :
  went_on w (workloadRef_String <$> todo) (restart_rest env rollouts_on w todo s) s.
Proof.
  revert s. induction todo as [|wl todo IH]; intros s; cbn [restart_rest].
  - exists []. unfold st_bind at 1 2 3 4 5 6. pose proof (finishWave_adds (wv_rec w) s) as Hf.
    destruct (finishWave _ s) as [[] s1]. by split_and!.
  - apply (bind_spec (λ res, match res.1 with
      | Some w' => wv_rec w' = wv_rec w ∧ wv_todo w' = todo ∧ wv_current w' = Some wl
                   ∧ adds (wv_rec w) [] false s res.2
      | None => adds (wv_rec w) [workloadRef_String wl] false s res.2 end)).
    { pose proof (restartForReload_adds (wave_at todo w) wl s) as Hr.
      by destruct (restartForReload _ _ _ _ s) as [[w'|] s']. }
    intros [w'|] s1; cbn [fst snd].
    + intros (? & Ht & Hc & ?). exists []. unfold st_ret, in_flight. cbn [fst snd].
      rewrite Hc, Ht. by split_and!.
    + intros Ha. destruct (IH s1) as (added & ? & Hb & Hn & ?). exists (workloadRef_String wl :: added).
      split_and!; [done| |by rewrite fmap_cons, <-Hn|done].
      pose proof (adds_trans _ _ _ _ _ _ _ _ Ha Hb) as Ht. by rewrite orb_false_r in Ht.
Qed.

Lemma advanceWave_went_on w s :
  went_on w (in_flight w ++ (workloadRef_String <$> wv_todo w)) (advanceWave env rollouts_on w s) s
  ∨ advanceWave env rollouts_on w s = (w, (s.1, (advanceWave env rollouts_on w s).2.2)) ∧ wv_current w ≠ None.
Proof.
  unfold advanceWave. destruct (wv_current w) as [cur|] eqn:Hcur.
  2:{ left. unfold in_flight. rewrite Hcur. apply restart_rest_went_on. }
  set (R := λ res : wave * (Reloader * GState C),
    went_on w (in_flight w ++ (workloadRef_String <$> wv_todo w)) res s ∨ res = (w, (s.1, res.2.2)) ∧ Some cur ≠ None).
  match goal with |- went_on _ _ ?e _ ∨ _ => change (R e) end.
  apply (bind_spec (λ res, res.2.1 = s.1)).
  { unfold verifyReload, now_M, reading, st_bind, st_right. destruct (clock env s.2). done. }
  cbn [snd]. intros [[done ok] detail] s1 Hs1. destruct (negb done).
  { right. split; [|done]. unfold st_ret. destruct s1. cbn in *. by subst. }
  left. unfold in_flight. rewrite Hcur. cbn [option_list fmap list_fmap app].
  pose proof (adds_same (wv_rec w) s s1 Hs1) as H1. destruct (negb ok).
  - exists (workloadRef_String cur :: (workloadRef_String <$> wv_todo w)).
    pose proof (failWave_adds w cur detail s1) as Hf. pose proof (adds_trans _ _ _ _ _ _ _ _ H1 Hf) as Ht.
    assert (He : (failWave env w cur detail s1).1 = wave_ended w).
    { unfold failWave, st_bind. by repeat (case_match; simplify_eq/=). }
    rewrite He. cbn. split_and!; [done|exact Ht|by rewrite app_nil_r|done].
  - apply (bind_spec (λ res, adds (wv_rec w) [workloadRef_String cur] false s res.2)).
    { pose proof (recordOutcome_adds (wv_rec w) cur "healthy" detail s1) as Ho. rewrite final_kind in Ho.
      apply (adds_trans _ _ _ _ _ _ _ _ H1 Ho). }
    cbn [snd]. intros _ s2 H2.
    destruct (restart_rest_went_on w (wv_todo w) s2) as (added & ? & Hb & Hn & ?).
    exists (workloadRef_String cur :: added). split_and!; [done| |by rewrite <-Hn|done].
    pose proof (adds_trans _ _ _ _ _ _ _ _ H2 Hb) as Ht. by rewrite orb_false_r in Ht.
Qed.
End accounts.

(** ** Every tick keeps the account *)
Section ticks.
Context {C : Type} `{!ReloadAPI C, !RangeOrder} (env : Env) (rollouts_on : bool).
Implicit Types (r : Reloader) (w : wave).
Abbreviation S := (Reloader * GState C)%type.

(** The waves of a reloader: one record each, none of them ended. *)
Definition wave_open r w : Prop :=
  known (wv_rec w) r ∧ rec_is_done (wv_rec w) r = false ∧ wv_rec w ≤ rl_nextID r.
Definition reloader_ok r : Prop :=
  NoDup (wv_rec <$> rl_waves r) ∧ Forall (wave_open r) (rl_waves r).

Lemma account_same r r' w : rl_recs r' !! wv_rec w = rl_recs r !! wv_rec w → account r' w = account r w.
Proof. intros He. unfold account, finals. by rewrite He. Qed.
Lemma done_same r r' id : rl_recs r' !! id = rl_recs r !! id → rec_is_done id r' = rec_is_done id r.
Proof. intros He. unfold rec_is_done. by rewrite He. Qed.
Lemma wave_open_same r r' w :
  rl_recs r' !! wv_rec w = rl_recs r !! wv_rec w → rl_nextID r ≤ rl_nextID r' → wave_open r w → wave_open r' w.
Proof.
  intros He Hn (Hk & Hd & Hi). split_and!; [by unfold known; rewrite He|by rewrite (done_same r)|lia].
Qed.

(** *** Starting waves *)
Definition carries (s s' : S) : Prop :=
  reloader_ok s.1 → reloader_ok s'.1 ∧ rl_blocked s'.1 = rl_blocked s.1
    ∧ (∀ w, w ∈ rl_waves s.1 → w ∈ rl_waves s'.1 ∧ account s'.1 w = account s.1 w).
#[local] Instance carries_preorder : PreOrder carries.
Proof.
  split; [by intros s Hs|]. intros x y z Hxy Hyz Hx. destruct (Hxy Hx) as (Hy & B1 & H1).
  destruct (Hyz Hy) as (Hz & B2 & H2). split_and!; [done|congruence|].
  intros w Hw. destruct (H1 w Hw) as [W1 A1]. destruct (H2 w W1) as [W2 A2]. split; [done|congruence].
Qed.
Lemma carries_same (s s' : S) : s'.1 = s.1 → carries s s'.
Proof. intros He. unfold carries. by rewrite He. Qed.

Lemma new_wave_carries r r' rec w :
  reloader_ok r → rl_waves r' = rl_waves r ++ [w] → wv_rec w = rl_nextID r + 1 →
  rl_recs r' = <[rl_nextID r + 1 := rec]> (rl_recs r) → rl_nextID r' = rl_nextID r + 1 →
  rr_Done rec = false →
  reloader_ok r' ∧ (∀ x, x ∈ rl_waves r → x ∈ rl_waves r' ∧ account r' x = account r x).
Proof.
  intros [Hnd Hop] Hw Hid Hr Hn Hd. rewrite Forall_forall in Hop.
  assert (Hsame : ∀ x, x ∈ rl_waves r → rl_recs r' !! wv_rec x = rl_recs r !! wv_rec x).
  { intros x Hx. destruct (Hop x Hx) as (_ & _ & Hi). rewrite Hr. by rewrite lookup_insert_ne by lia. }
  split; [split|].
  - rewrite Hw, fmap_app. apply NoDup_app. split_and!; [done| |apply NoDup_singleton].
    intros i (x & -> & Hx)%list_elem_of_fmap. cbn. rewrite list_elem_of_singleton, Hid.
    destruct (Hop x Hx) as (_ & _ & Hi). lia.
  - rewrite Hw. apply Forall_app. split.
    + apply Forall_forall. intros x Hx. apply (wave_open_same r); [by apply Hsame|lia|by apply Hop].
    + apply Forall_singleton. unfold wave_open, known, rec_is_done.
      rewrite Hid, Hr, lookup_insert_eq, Hn. cbn. split_and!; [by eexists|done|lia].
  - intros x Hx. split; [rewrite Hw; set_solver|]. by apply account_same, Hsame.
Qed.
Lemma startWave_carries p : keeps carries (startWave env rollouts_on p).
Proof.
  unfold startWave. apply (keeps_bind _); [apply (keeps_get _)|]. intros s0.
  destruct (bool_decide _); [apply (keeps_ret _)|].
  apply (keeps_bind _); [intros s; apply carries_same; unfold now_M, st_right; by destruct (clock env s.2)|].
  intros now. apply (keeps_bind _).
  - intros [r g] Hok. cbn [fst] in *.
    match goal with |- reloader_ok ?r' ∧ _ => set (r1 := r') end.
    edestruct (new_wave_carries r r1) as [H1 H2]; [exact Hok|reflexivity..|]. by split_and!.
  - intros _ s. apply carries_same. unfold st_right. by destruct (recordEvent _ _ _).
Qed.
Lemma start_all_carries ps : keeps carries (start_all env rollouts_on ps).
Proof.
  induction ps as [|p ps IH]; cbn [start_all]; [apply (keeps_ret _)|].
  apply (keeps_bind _); [apply startWave_carries|done].
Qed.

(** *** Advancing them *)
Definition stays (s s' : S) w w' : Prop :=
  wv_rec w' = wv_rec w ∧ account s'.1 w' = account s.1 w
  ∧ rec_is_done (wv_rec w) s'.1 = bool_decide (wv_current w' = None)
  ∧ (wv_current w' = None → wv_todo w' = []).

Lemma advanceWave_stays w s :
  wave_open s.1 w → let '(w', s') := advanceWave env rollouts_on w s in stays s s' w w'.
Proof.
  intros (Hk & Hd & _). destruct (advanceWave_went_on env rollouts_on w s) as [(added & Hw & Ha & Hn & Ht)|[Hw Hc]].
  - destruct (advanceWave _ _ w s) as [w' s']. cbn [fst snd] in *. destruct (Ha Hk) as (_ & Hf & He).
    split_and!; [done| | |done].
    + unfold account. by rewrite Hw, Hf, <-app_assoc, Hn.
    + by rewrite He, Hd, orb_false_r.
  - destruct (advanceWave _ _ w s) as [w' s']. cbn [snd] in Hw. injection Hw as -> Hs.
    assert (He : s'.1 = s.1) by (by rewrite Hs). unfold stays. rewrite He, Hd, bool_decide_false by done.
    by split_and!.
Qed.

Record others (ids : list Z) (s s' : S) : Prop := {
  ot_waves : rl_waves s'.1 = rl_waves s.1; ot_next : rl_nextID s'.1 = rl_nextID s.1;
  ot_blocked : rl_blocked s.1 ⊆ rl_blocked s'.1;
  ot_recs : ∀ i, i ∉ ids → rl_recs s'.1 !! i = rl_recs s.1 !! i;
  ot_known : ∀ i, known i s.1 → known i s'.1
}.
Lemma others_advance w s : others [wv_rec w] s (advanceWave env rollouts_on w s).2.
Proof.
  destruct (advanceWave_touches env rollouts_on w s) as [_ _ Hw _ Hn Hb Ho Hk]. split; [done..| |].
  - intros i Hi. apply Ho. set_solver.
  - intros i Hi. destruct (decide (i = wv_rec w)) as [->|Hne]; [by apply Hk|].
    unfold known. by rewrite Ho.
Qed.
Lemma others_trans ids1 ids2 s1 s2 s3 : others ids1 s1 s2 → others ids2 s2 s3 → others (ids1 ++ ids2) s1 s3.
Proof.
  intros [] []. split; [congruence|congruence|set_solver| |auto].
  intros i Hi. rewrite ot_recs1, ot_recs0; [done|set_solver..].
Qed.

Lemma advance_all_stays ws s :
  NoDup (wv_rec <$> ws) → Forall (wave_open s.1) ws →
  let '(ws', s') := advance_all env rollouts_on ws s in
  Forall2 (stays s s') ws ws' ∧ others (wv_rec <$> ws) s s'.
Proof.
  revert s. induction ws as [|w ws IH]; intros s Hnd Hop; cbn [advance_all].
  { split; [constructor|]. by split. }
  apply NoDup_cons in Hnd as [Hnin Hnd]. apply Forall_cons in Hop as [Hw Hop].
  pose proof (advanceWave_stays w s Hw) as Hs. pose proof (others_advance w s) as Ho.
  unfold st_bind. destruct (advanceWave _ _ w s) as [w1 s1]. cbn [snd] in Ho.
  assert (Hsame : ∀ x, x ∈ ws → rl_recs s1.1 !! wv_rec x = rl_recs s.1 !! wv_rec x).
  { intros x Hx. apply Ho. rewrite list_elem_of_singleton. intros Heq. apply Hnin.
    rewrite <-Heq. apply list_elem_of_fmap. by exists x. }
  assert (Hop1 : Forall (wave_open s1.1) ws).
  { rewrite Forall_forall in *. intros x Hx. apply (wave_open_same s.1); [by apply Hsame| |by apply Hop].
    destruct Ho. lia. }
  specialize (IH s1 Hnd Hop1). destruct (advance_all _ _ ws s1) as [ws' s2]. destruct IH as [Hall Ho2].
  split; [|exact (others_trans [_] _ _ _ _ Ho Ho2)]. constructor.
  - destruct Hs as (Hi & Ha & Hd & Ht). pose proof (ot_recs _ _ _ Ho2 (wv_rec w) Hnin) as He.
    split_and!; [done| | |done]; [|by rewrite (done_same s1.1)].
    rewrite <-Ha. apply account_same. by rewrite Hi.
  - apply (Forall2_impl_in _ _ _ _ Hall). intros x x' Hx (Hi & Ha & Hd & Ht).
    split_and!; [done| |done|done]. rewrite Ha. by apply account_same, Hsame.
Qed.

(** *** A tick *)
Lemma followers_only_drop leading s :
  leading = false → (reloadTick env rollouts_on leading s).2.1 =
    set_pending (filter (λ kp, is_due (env_Clock env (gs_tick s.2)) kp.2 = false) (rl_pending s.1)) s.1.
Proof. intros ->. done. Qed.

(** What became of a wave. *)
Definition kept_or_ended (s s' : S) w : Prop :=
  (∃ w', w' ∈ rl_waves s'.1 ∧ wv_rec w' = wv_rec w ∧ account s'.1 w' = account s.1 w)
  ∨ rec_is_done (wv_rec w) s'.1 = true ∧ finals (wv_rec w) s'.1 = account s.1 w.

Lemma after_advance ws ws' (s s' : S) :
  reloader_ok s.1 → rl_waves s.1 = ws → Forall2 (stays s s') ws ws' → others (wv_rec <$> ws) s s' →
  let s2 := (set_waves (filter (λ w, wave_done s'.1 w = false) ws') s'.1, s'.2) in
  reloader_ok s2.1 ∧ rl_blocked s.1 ⊆ rl_blocked s2.1 ∧ ∀ w, w ∈ ws → kept_or_ended s s2 w.
Proof.
  intros [Hnd Hop] <- Hall [Hw Hn Hb Hr Hk] s2. rewrite Forall_forall in Hop.
  assert (Hdone : ∀ w, wave_done s'.1 w = rec_is_done (wv_rec w) s'.1).
  { intros w. unfold wave_done, rec_is_done. by destruct (_ !! _). }
  split_and!; [split|exact Hb|].
  - cbn. assert (Heq : wv_rec <$> ws' = wv_rec <$> rl_waves s.1).
    { clear -Hall. induction Hall as [|???? Hs ? IH]; [done|]. destruct Hs as [Hi _].
      by rewrite !fmap_cons, Hi, IH. }
    eapply sublist_NoDup; [rewrite <-Heq in Hnd; exact Hnd|]. apply fmap_sublist, sublist_filter.
  - apply Forall_forall. intros w' [Hd Hin]%list_elem_of_filter. rewrite Hdone in Hd.
    destruct (Forall2_in_r _ _ _ _ Hall Hin) as (w & Hx & Hi & _). destruct (Hop w Hx) as (Hkw & _ & Hle).
    split_and!; cbn; rewrite Hi in *; [by apply Hk|done|lia].
  - intros w Hx. destruct (Forall2_in_l _ _ _ _ Hall Hx) as (w' & Hin & Hi & Ha & Hd & Ht).
    destruct (wv_current w') eqn:Hc.
    + left. exists w'. split_and!; [|done|done]. apply list_elem_of_filter. by rewrite Hdone, Hi, Hd.
    + right. rewrite bool_decide_true in Hd by done. split; [done|].
      rewrite <-Ha. unfold account, in_flight. by rewrite Hi, Hc, Ht, app_nil_r by done.
Qed.

Lemma reloadTick_kept leading s :
  reloader_ok s.1 → let s' := (reloadTick env rollouts_on leading s).2 in
  reloader_ok s'.1 ∧ rl_blocked s.1 ⊆ rl_blocked s'.1 ∧ ∀ w, w ∈ rl_waves s.1 → kept_or_ended s s' w.
Proof.
  intros Hok. destruct leading; cbn zeta.
  2:{ rewrite followers_only_drop by done. split_and!; [done|done|]. intros w Hw. left.
      exists w. by rewrite followers_only_drop. }
  set (P := λ res : unit * S, reloader_ok res.2.1 ∧ rl_blocked s.1 ⊆ rl_blocked res.2.1
    ∧ ∀ w, w ∈ rl_waves s.1 → kept_or_ended s res.2 w).
  change (P (reloadTick env rollouts_on true s)). unfold reloadTick.
  apply (bind_spec (λ res, res.2.1 = s.1)); [unfold now_M, st_right; by destruct (clock env s.2)|].
  cbn [snd]. intros now s1 H1.
  apply (bind_spec (λ res, res = (s1, s1))); [done|]. intros ? ? [= -> ->].
  apply (bind_spec (λ res, carries s res.2)).
  { destruct s1 as [r1 g1], s as [r g]. cbn in H1. subst r1. intros _. by split_and!. }
  cbn [snd negb]. intros _ s2 H2.
  apply (bind_spec (λ res, carries s res.2)); [etrans; [exact H2|apply start_all_carries]|].
  cbn [snd]. intros _ s3 H3. destruct (H3 Hok) as (Hok3 & Hb & Hw3). cbn in Hok3.
  apply (bind_spec (λ res, res = (s3, s3))); [done|]. intros ? ? [= -> ->].
  apply (bind_spec (λ res, Forall2 (stays s3 res.2) (rl_waves s3.1) res.1
                           ∧ others (wv_rec <$> rl_waves s3.1) s3 res.2)).
  { destruct Hok3 as [Hnd Hop]. pose proof (advance_all_stays _ s3 Hnd Hop) as Ha.
    by destruct (advance_all _ _ _ s3). }
  cbn [fst snd]. intros ws' s4 [Hall Hot]. unfold P.
  destruct (after_advance _ _ s3 s4 Hok3 eq_refl Hall Hot) as (Hok4 & Hb4 & Hkept).
  destruct s4 as [r4 g4]. split_and!; [exact Hok4|by rewrite <-Hb|].
  intros w Hw. destruct (Hw3 w Hw) as [Hin Ha].
  destruct (Hkept w Hin) as [(w' & ? & ? & He)|[? He]]; [left; exists w'|right];
    (split_and!; [done..|]); rewrite <-Ha; exact He.
Qed.
End ticks.

(** ** Runs *)
Section runs.
Context {C : Type} `{!ReloadAPI C, !RangeOrder} (env : Env) (rollouts_on : bool).
Implicit Types (r : Reloader) (w : wave).
Abbreviation S := (Reloader * GState C)%type.

(** A run: queued changes, ticks of a leader or of a follower, and whatever
    the rest of the world does to the state the gate works on. *)
Inductive reload_step : S → S → Prop :=
| step_queue ns ref before after ann s : reload_step s (queueChange env ns ref before after ann s).2
| step_tick leading s : reload_step s (reloadTick env rollouts_on leading s).2
| step_world r g g' : reload_step (r, g) (r, g').

Lemma queueChange_leaves ns ref before after ann (s : S) :
  ∃ p g, (queueChange env ns ref before after ann s).2 = (set_pending p s.1, g) ∧ same_cluster s.2 g.
Proof.
  unfold queueChange. destruct s as [r g].
  destruct (negb _); [exists (rl_pending r), g; by destruct r|].
  case_bool_decide; [exists (rl_pending r), g; by destruct r|]. by eexists _, _.
Qed.
Lemma step_kept s s' :
  reload_step s s' → reloader_ok s.1 →
  reloader_ok s'.1 ∧ rl_blocked s.1 ⊆ rl_blocked s'.1 ∧ ∀ w, w ∈ rl_waves s.1 → kept_or_ended s s' w.
Proof.
  intros Hstep Hok. destruct Hstep as [ns ref before after ann s|leading s|r g g'].
  - destruct (queueChange_leaves ns ref before after ann s) as (p & g & -> & _). split_and!; [done|done|].
    intros w Hw. left. by exists w.
  - by apply reloadTick_kept.
  - split_and!; [done|done|]. intros w Hw. left. by exists w.
Qed.
Lemma run_ok s s' : rtc reload_step s s' → reloader_ok s.1 → reloader_ok s'.1 ∧ rl_blocked s.1 ⊆ rl_blocked s'.1.
Proof.
  induction 1 as [s|s s1 s' Hs _ IH]; [done|]. intros Hok.
  destruct (step_kept _ _ Hs Hok) as (Hok1 & Hb & _). destruct (IH Hok1). split; [done|set_solver].
Qed.
Lemma NewReloader_ok cfg : reloader_ok (NewReloader cfg).
Proof. split; constructor. Qed.

(** C33: A wave that has started ends with an outcome for every one of its
    workloads: in any run, each step leaves a wave with the same workloads
    restarted, in flight and to do, in the same order, or ends it with a
    final outcome recorded for each; and a record is never done while a wave
    still holds it. *)
Theorem every_workload_accounted cfg (g : GState C) s s' :
  rtc reload_step (NewReloader cfg, g) s → reload_step s s' →
  Forall (λ w, rec_is_done (wv_rec w) s'.1 = false) (rl_waves s'.1)
  ∧ ∀ w, w ∈ rl_waves s.1 → kept_or_ended s s' w.
Proof.
  intros Hrun Hstep. destruct (run_ok _ _ Hrun (NewReloader_ok cfg)) as [Hok _].
  destruct (step_kept _ _ Hstep Hok) as ([_ Hop] & _ & Hk). split; [|done].
  eapply Forall_impl; [exact Hop|]. by intros w (_ & ? & _).
Qed.

(** *** The workload in flight *)
Definition verdict w cur (s : S) : bool * bool * string :=
  verify_at (pc_ns (wv_change w)) cur
    (reloadVerifyTimeout <? time_Sub (env_Clock env (gs_tick s.2)) (wv_startedAt w)) (gs_cluster s.2).
Definition ticked (s : S) : S := (s.1, (clock env s.2).2).
Lemma advanceWave_cases w cur s :
  wv_current w = Some cur →
  advanceWave env rollouts_on w s =
    let v := verdict w cur s in
    if negb v.1.1 then (w, ticked s)
    else if negb v.1.2 then failWave env w cur v.2 (ticked s)
    else (recordOutcome (wv_rec w) cur "healthy" v.2 ;;; restart_rest env rollouts_on w (wv_todo w))%agent (ticked s).
Proof.
  intros Hcur. unfold advanceWave. rewrite Hcur. unfold st_bind at 1, verifyReload, st_bind at 1.
  unfold now_M, st_right, reading, ticked. cbn [fst snd clock]. fold (verdict w cur s).
  destruct (verdict w cur s) as [[done ok] detail] eqn:Hv. unfold verdict in Hv. cbn in Hv |- *.
  rewrite Hv. by destruct (negb done), (negb ok).
Qed.

Lemma failWave_cluster w cur d (s : S) : same_cluster s.2 (failWave env w cur d s).2.2.
Proof.
  set (R := λ s s' : S, same_cluster s.2 s'.2).
  assert (PreOrder R) by (split; [intros ?; unfold R; reflexivity|intros ???; unfold R; by etrans]).
  change (R s (failWave env w cur d s).2). revert s.
  assert (Hskip : ∀ id todo, keeps R (skip_rest id todo)).
  { intros id todo. induction todo; cbn [skip_rest]; [apply (keeps_ret _)|]. by apply (keeps_bind _). }
  change (keeps R (failWave env w cur d)). unfold failWave.
  apply (keeps_bind _); [done|]. intros _. apply (keeps_bind _); [done|]. intros _.
  apply (keeps_bind _); [apply Hskip|]. intros _. apply (keeps_bind _); [done|]. intros _.
  apply (keeps_bind _); [apply (keeps_get _)|]. intros s0. apply (keeps_bind _); [|intros; apply (keeps_ret _)].
  intros s. unfold R, st_right.
  pose proof (report_told env (failure w cur d (rec_keys (wv_rec w) s0.1)) eq_refl s.2) as Hr.
  destruct (report _ _ s.2). apply Hr.
Qed.

(** C34: A wave goes on only when the workload in flight is healthy: while the
    cluster does not say so nothing is restarted, a workload still rolling
    out leaves the wave as it is, and one that failed ends it and blocks the
    version it was restarted for. *)
Theorem waits_for_healthy w cur s :
  wv_current w = Some cur → (verdict w cur s).1.2 = false ∨ (verdict w cur s).1.1 = false →
  let '(w', s') := advanceWave env rollouts_on w s in
  same_cluster s.2 s'.2
  ∧ if (verdict w cur s).1.1
    then w' = wave_ended w ∧ blockKey (pc_ns (wv_change w)) cur (wv_hash w) ∈ rl_blocked s'.1
    else w' = w ∧ s'.1 = s.1.
Proof.
  intros Hcur Hv. rewrite (advanceWave_cases w cur) by done. cbn zeta.
  destruct (verdict w cur s) as [[[] ok] d]; cbn [fst snd negb] in *; [|done].
  destruct Hv as [-> | ?]; [|done]. cbn [negb].
  pose proof (failWave_cluster w cur d (ticked s)) as Hc. pose proof (failWave_blocks env w cur d (ticked s)) as Hb.
  destruct (failWave env w cur d (ticked s)) as [w' s']. cbn [fst snd] in *. destruct Hb as [-> Hb].
  split_and!; [etrans; [|exact Hc]; done|done|done].
Qed.

Lemma verify_at_timed_out ns cur (c : C) : wl_Kind cur ≠ KDeployment → (verify_at ns cur true c).1.1 = true.
Proof.
  intros Hk. unfold verify_at, verifyRollout, rolloutDone.
  destruct (wl_Kind cur); try done; repeat case_match; done.
Qed.

(** C36: Ten minutes after the restart of anything but a Deployment (which has
    its own progress deadline) the wave has settled it: the next step records
    its outcome. *)
Theorem reload_wait_is_bounded w cur s :
  known (wv_rec w) s.1 → wv_current w = Some cur → wl_Kind cur ≠ KDeployment →
  reloadVerifyTimeout < time_Sub (env_Clock env (gs_tick s.2)) (wv_startedAt w) →
  workloadRef_String cur ∈ finals (wv_rec w) (advanceWave env rollouts_on w s).2.1.
Proof.
  intros Hk Hcur Hkind Hlate. rewrite (advanceWave_cases w cur) by done. cbn zeta.
  assert ((verdict w cur s).1.1 = true) as ->.
  { unfold verdict. apply Z.ltb_lt in Hlate. rewrite Hlate. by apply verify_at_timed_out. }
  cbn [negb]. destruct (negb _).
  - destruct (failWave_adds env w cur (verdict w cur s).2 (ticked s) Hk) as (_ & -> & _). set_solver.
  - set (Q := λ res : wave * S, workloadRef_String cur ∈ finals (wv_rec w) res.2.1).
    match goal with |- workloadRef_String cur ∈ finals _ (?e).2.1 => change (Q e) end.
    pose proof (recordOutcome_adds (wv_rec w) cur "healthy" (verdict w cur s).2 (ticked s) Hk) as (Hk1 & Hf & _).
    apply (bind_spec (λ res, known (wv_rec w) res.2.1 ∧ workloadRef_String cur ∈ finals (wv_rec w) res.2.1)).
    { rewrite final_kind in Hf. split; [exact Hk1|]. rewrite Hf. set_solver. }
    cbn [snd]. intros _ s1 [Hk2 Hin].
    destruct (restart_rest_went_on env rollouts_on w (wv_todo w) s1) as (added & _ & Ha & _).
    destruct (Ha Hk2) as (_ & Hf2 & _). unfold Q. rewrite Hf2. set_solver.
Qed.

Lemma restart_blocked w wl tmpl (s : S) :
  reloadTemplate rollouts_on (pc_ns (wv_change w)) wl (gs_cluster s.2) = Some tmpl →
  blockKey (pc_ns (wv_change w)) wl (version_of tmpl (wv_change w)) ∈ rl_blocked s.1 →
  restartForReload env rollouts_on w wl s
  = (recordOutcome (wv_rec w) wl "blocked" "this version stalled once and is not applied again" ;;;
     return! None)%agent s.
Proof.
  intros Ht Hb. unfold restartForReload, reading. unfold st_bind at 1. cbn [fst snd]. rewrite Ht.
  unfold st_get at 1. unfold st_bind at 1. by rewrite bool_decide_true.
Qed.

(** C35: A version of a configuration that stalled a workload is not applied to it
    again: blocked, it stays blocked through every later step, and a wave
    that comes to the workload with that version records so and leaves the
    cluster alone. *)
Theorem stalled_version_never_again cfg (g : GState C) s s' w wl tmpl :
  rtc reload_step (NewReloader cfg, g) s → rtc reload_step s s' →
  reloadTemplate rollouts_on (pc_ns (wv_change w)) wl (gs_cluster s'.2) = Some tmpl →
  blockKey (pc_ns (wv_change w)) wl (version_of tmpl (wv_change w)) ∈ rl_blocked s.1 →
  let r' := restartForReload env rollouts_on w wl s' in
  r'.1 = None ∧ r'.2.2 = s'.2
  ∧ r'.2.1 = set_recs (alter (rec_add (mkOutcome (workloadRef_String wl) "blocked"
      "this version stalled once and is not applied again")) (wv_rec w) (rl_recs s'.1)) s'.1.
Proof.
  intros Hrun Hlater Ht Hb. destruct (run_ok _ _ Hrun (NewReloader_ok cfg)) as [Hok _].
  destruct (run_ok _ _ Hlater Hok) as [_ Hsub]. cbn zeta.
  rewrite (restart_blocked w wl tmpl) by set_solver. by destruct s'.
Qed.

(** *** The debounce *)

(** The updates of one object: data before, data after, annotations. *)
Definition edit : Type := gmap string string * gmap string string * gmap string string.
Definition changed (e : edit) : list string := changedKeys e.1.1 e.1.2.
Definition effective (es : list edit) : list edit := filter (λ e, changed e ≠ []) es.
Definition queue_all ns ref (es : list edit) (s : S) : S :=
  foldl (λ s e, (queueChange env ns ref e.1.1 e.1.2 e.2 s).2) s es.
Definition merged ns ref (es : list edit) (s : S) : option pendingChange :=
  e ← last (effective es);
  Some (mkChange ns ref (list_to_set (effective es ≫= changed)) e.2 e.1.2
    (time_Add (env_Clock env (gs_tick s.2 + length (effective es) - 1)) (cfg_Debounce (rl_cfg s.1)))
    (env_Clock env (gs_tick s.2))).
Definition queue_after ns ref es (s s' : S) : Prop :=
  rl_pending s'.1 !! (ns +:+ "/" +:+ objRef_String ref) = merged ns ref es s
  ∧ gs_tick s'.2 = (gs_tick s.2 + length (effective es))%nat ∧ rl_cfg s'.1 = rl_cfg s.1.

Lemma queue_one ns ref es e (s s' : S) :
  Watched (env_Policy env) ns = true → queue_after ns ref es s s' →
  queue_after ns ref (es ++ [e]) s (queueChange env ns ref e.1.1 e.1.2 e.2 s').2.
Proof.
  intros Hw (Hp & Ht & Hc). unfold queueChange. rewrite Hw. cbn [negb]. fold (changed e).
  unfold queue_after, merged, effective in *. rewrite filter_app, filter_cons, filter_nil.
  case_bool_decide as He.
  { rewrite decide_False by (intros Hne; by apply Hne). by rewrite app_nil_r. }
  rewrite decide_True by done. destruct s' as [r' g'].
  cbn [fst snd st_bind now_M st_right clock modify_r st_left st_modify] in *. unfold st_bind. cbn.
  rewrite lookup_insert_eq, Hp, length_app, last_snoc, Hc, Ht. cbn.
  split_and!; [|lia|done]. f_equal. destruct (last _) as [e0|] eqn:Hl; cbn.
  - f_equal.
    + rewrite bind_app, list_to_set_app_L. cbn. rewrite app_nil_r. set_solver.
    + repeat f_equal. lia.
  - apply last_None in Hl. rewrite Hl. cbn. rewrite app_nil_r, Nat.add_0_r.
    f_equal; [set_solver|]. repeat f_equal. lia.
Qed.

(** Updates of one object that arrive within a debounce window are one
    change: the keys of all of them, the data and annotations of the last one
    that changed a key, due a debounce after it, and dated by the first;
    updates of metadata alone count for nothing. *)
Theorem changes_are_merged ns ref es (s : S) :
  Watched (env_Policy env) ns = true → rl_pending s.1 !! (ns +:+ "/" +:+ objRef_String ref) = None →
  queue_after ns ref es s (queue_all ns ref es s).
Proof.
  intros Hw Hn. unfold queue_all. induction es as [|e es IH] using rev_ind; [by split_and!; cbn|].
  rewrite foldl_app. by apply queue_one.
Qed.
End runs.

(** ** Witnesses *)
Module RunDemo.
(** A cluster with the StatefulSets [db] and [web], which read [LOG] of
    [configmap/app]: their template annotations, and how many pods of each
    are updated and ready (of one). *)
Record cluster := mkDemo { dm_db : gmap string string; dm_web : gmap string string; dm_ready : Z }.
Definition stateful (name : string) (tmpl : gmap string string) : reloadable :=
  mkReloadable (mkWorkload KStatefulSet name) ReloadDemo.spec ∅ tmpl (Some ∅).
#[export] Instance api : ReloadAPI cluster := {|
  list_templates k _ c := Some (match k with
    | KStatefulSet => [stateful "db" (dm_db c); stateful "web" (dm_web c)] | _ => [] end);
  list_rollouts _ _ := None;
  get_deploy_health _ _ _ := None;
  get_stateful_health _ _ c := Some (mkStatefulHealth None 1 1 (dm_ready c) (dm_ready c) "r" "r");
  get_daemon_health _ _ _ := None;
  get_rollout_phase _ _ _ := None;
  patch_template _ _ n key v c :=
    (if str_eqb n "db" then mkDemo (<[key := v]> (dm_db c)) (dm_web c) 0
     else mkDemo (dm_db c) (<[key := v]> (dm_web c)) 0, None)
|}.
#[export] Existing Instance range_sorted.
(** The clock counts seconds; five of them are the debounce. *)
Definition env : Env :=
  mkEnv (GateDemo.policy_in Fix) (λ n, Z.of_nat n * second) None None true true true true "node-1".
Definition cfg : reload_config := mkReloadCfg reloadOnAuto (5 * second).
Definition start : GState cluster :=
  mkGState _ 0 (Some (NewBlastRadiusTracker 0 5 hour)) (Some NewPolicyBudget)
    (Some (NewCircuitBreaker 5 hour)) (Some (NewActionLimiter 10 (10 * minute)))
    (Some (NewActionLimiter 10 (10 * minute))) (Some (NewDeduplicator hour)) None
    (mkDemo ∅ ∅ 1) [].
Definition app : objRef := mkRef refConfigMap "app".
Definition edited : edit := (ReloadDemo.before, ReloadDemo.after, ∅).
(** The world: time passes, and the pods of the workloads are ready or not. *)
Definition later (tick : nat) (ready : Z) (s : Reloader * GState cluster) : Reloader * GState cluster :=
  (s.1, set_cluster (mkDemo (dm_db (gs_cluster s.2)) (dm_web (gs_cluster s.2)) ready) (set_tick tick s.2)).
Definition tick (s : Reloader * GState cluster) : Reloader * GState cluster := (reloadTick env false true s).2.
Definition queue (s : Reloader * GState cluster) : Reloader * GState cluster :=
  queue_all env "shop" app [edited] s.
(** [db] restarted, and waited for. *)
Definition waiting : Reloader * GState cluster := tick (later 100 1 (queue (NewReloader cfg, start))).
(** Eleven minutes later it is not ready. *)
Definition stalled : Reloader * GState cluster := tick (later 1000 0 waiting).
(** The same change once more, the workloads ready again. *)
Definition again : Reloader * GState cluster := tick (later 1100 1 (queue (later 1050 1 stalled))).
Definition outcomes (s : Reloader * GState cluster) : list (list (string * string)) :=
  map (λ rec, map (λ o, (ro_Workload o, ro_Result o)) (rr_Workloads rec)) (Records s.1).
End RunDemo.
Import RunDemo.

Example reload_runs :
  outcomes waiting = [[("statefulset/db", "restarted")]]
  ∧ outcomes (tick (later 110 1 waiting))
    = [[("statefulset/db", "restarted"); ("statefulset/db", "healthy"); ("statefulset/web", "restarted")]]
  ∧ outcomes (tick (later 110 0 waiting)) = outcomes waiting
  ∧ outcomes stalled
    = [[("statefulset/db", "restarted"); ("statefulset/db", "failed"); ("statefulset/web", "skipped")]]
  ∧ outcomes again
    = [[("statefulset/db", "blocked"); ("statefulset/web", "restarted")];
       [("statefulset/db", "restarted"); ("statefulset/db", "failed"); ("statefulset/web", "skipped")]].
Proof. vm_compute. split_and!; reflexivity. Qed.

(** The steps of the demonstration. *)
Lemma demo_steps :
  rtc (reload_step env false) (NewReloader cfg, start) (later 100 1 (queue (NewReloader cfg, start)))
  ∧ rtc (reload_step env false) (NewReloader cfg, start) stalled
  ∧ rtc (reload_step env false) stalled (later 1050 1 stalled).
Proof.
  assert (Hworld : ∀ t n s, reload_step env false s (later t n s)) by (intros t n [r g]; apply step_world).
  assert (H1 : rtc (reload_step env false) (NewReloader cfg, start) (later 100 1 (queue (NewReloader cfg, start)))).
  { eapply rtc_l; [apply (step_queue env false "shop" app ReloadDemo.before ReloadDemo.after ∅)|].
    apply rtc_once, Hworld. }
  assert (H2 : rtc (reload_step env false) (NewReloader cfg, start) stalled).
  { eapply rtc_r; [|apply step_tick]. eapply rtc_r; [|apply Hworld]. eapply rtc_r; [exact H1|apply step_tick]. }
  split_and!; [exact H1|exact H2|apply rtc_once, Hworld].
Qed.
Definition the_wave : wave :=
  default (mkWave 0 (mkChange "" app ∅ ∅ ∅ 0 0) [] None "" 0) (head (rl_waves waiting.1)).
Definition db : workloadRef := mkWorkload KStatefulSet "db".

Lemma every_workload_accounted_witness :
  (wv_current <$> rl_waves waiting.1) = [Some db]
  ∧ Forall (λ w, rec_is_done (wv_rec w) waiting.1 = false) (rl_waves waiting.1).
Proof.
  split; [vm_compute; reflexivity|].
  destruct (every_workload_accounted env false cfg start (later 100 1 (queue (NewReloader cfg, start))) waiting
    (proj1 demo_steps) (step_tick env false true _)) as [H _]. exact H.
Defined.

Lemma waits_for_healthy_witness :
  verdict env the_wave db (later 1000 0 waiting) = (true, false, "not healthy after 10m0s (0/1 updated and ready)")
  ∧ let '(w', s') := advanceWave env false the_wave (later 1000 0 waiting) in
    same_cluster (later 1000 0 waiting).2 s'.2
    ∧ if (verdict env the_wave db (later 1000 0 waiting)).1.1
      then w' = wave_ended the_wave
        ∧ blockKey (pc_ns (wv_change the_wave)) db (wv_hash the_wave) ∈ rl_blocked s'.1
      else w' = the_wave ∧ s'.1 = (later 1000 0 waiting).1.
Proof.
  split; [vm_compute; reflexivity|].
  apply (waits_for_healthy env false the_wave db (later 1000 0 waiting)); [vm_compute; reflexivity|].
  left. vm_compute. reflexivity.
Defined.

Lemma reload_wait_is_bounded_witness :
  "statefulset/db" ∈ finals 1 (advanceWave env false the_wave (later 1000 0 waiting)).2.1.
Proof.
  apply (reload_wait_is_bounded env false the_wave db (later 1000 0 waiting));
    [vm_compute; eexists; reflexivity|vm_compute; reflexivity|discriminate|vm_compute; reflexivity].
Defined.

Lemma stalled_version_never_again_witness :
  (restartForReload env false the_wave db (later 1050 1 stalled)).2.2 = (later 1050 1 stalled).2.
Proof.
  destruct (stalled_version_never_again env false cfg start stalled (later 1050 1 stalled) the_wave db
    (stateful "db" (dm_db (gs_cluster (later 1050 1 stalled).2)))) as (_ & H & _).
  - exact (proj1 (proj2 demo_steps)).
  - exact (proj2 (proj2 demo_steps)).
  - vm_compute. reflexivity.
  - apply (bool_decide_unpack _). vm_compute. exact I.
  - exact H.
Defined.

Lemma changes_are_merged_witness :
  queue_after env "shop" app [edited; (ReloadDemo.after, ReloadDemo.after, ∅); (ReloadDemo.after, ∅, ∅)]
    (NewReloader cfg, start)
    (queue_all env "shop" app [edited; (ReloadDemo.after, ReloadDemo.after, ∅); (ReloadDemo.after, ∅, ∅)]
      (NewReloader cfg, start)).
Proof. apply (changes_are_merged env "shop" app); [vm_compute; reflexivity|reflexivity]. Defined.
