(* ===== verification/Terminal.v ===== *)
(** * Terminal: the dashboard's read-only kubectl (internal/httpapi/terminal*.go)

    A command line is parsed, refused or looked up in the command table,
    checked against the watch scope and run; every run is a sequence of reads
    of the API server, recorded here in order.  What the API server holds,
    the columns and sections each kind prints (TermView gives them for typed
    objects), [text/tabwriter], the redaction rules and the agent's own
    answers are parameters ([TermAPI], [TermEnv]). *)
From S2P Require Import Prelude GoStd.
From Stdlib Require Import Ascii.
#[local] Open Scope Z_scope.
#[local] Open Scope agent_scope.

Definition maxTermOutput : nat := Z.to_nat (256 * 1024).

(** ** Arguments *)
Record termArgs := mkArgs {
  a_verb : string; a_sub : string; a_pos : list string; a_ns : string; a_allNs : bool;
  a_container : string; a_tail : Z; a_previous : bool; a_since : Duration;
  a_output : string; a_selector : string; a_fieldSelector : string; a_forObj : string
}.
Inductive term_error :=
| ErrNeedsValue (flag : string) | ErrBadValue (flag v : string) | ErrUnknownFlag (f : string)
| ErrEmpty | ErrOutput (o : string)
| ErrNotAvailable (command why : string) | ErrUnsupported (command : string)
| ErrOutsideScope (ns : string) | ErrUsage (text : string) | ErrNotFound (name : string)
| ErrTargetKind (k : string) | ErrAPI (text : string).

Definition no_args : termArgs := mkArgs "" "" [] "default" false "" 50 false 0 "" "" "" "".
Definition a_command (v s : string) (p : list string) (a : termArgs) : termArgs :=
  mkArgs v s p (a_ns a) (a_allNs a) (a_container a) (a_tail a) (a_previous a) (a_since a)
    (a_output a) (a_selector a) (a_fieldSelector a) (a_forObj a).
Definition a_read_from (ns : string) (all : bool) (a : termArgs) : termArgs :=
  mkArgs (a_verb a) (a_sub a) (a_pos a) ns all (a_container a) (a_tail a) (a_previous a) (a_since a)
    (a_output a) (a_selector a) (a_fieldSelector a) (a_forObj a).
Definition a_logs (c : string) (t : Z) (p : bool) (d : Duration) (a : termArgs) : termArgs :=
  mkArgs (a_verb a) (a_sub a) (a_pos a) (a_ns a) (a_allNs a) c t p d
    (a_output a) (a_selector a) (a_fieldSelector a) (a_forObj a).
Definition a_select (o s f g : string) (a : termArgs) : termArgs :=
  mkArgs (a_verb a) (a_sub a) (a_pos a) (a_ns a) (a_allNs a) (a_container a) (a_tail a) (a_previous a)
    (a_since a) o s f g.

(** A flag that stands alone, or takes a value. *)
Inductive flag := Switch (f : termArgs → termArgs) | Valued (f : string → termArgs → option termArgs).
Definition flag_of (name : string) : option flag :=
  if bool_decide (name ∈ ["-n"; "--namespace"]) then Some (Valued (λ v a, Some (a_read_from v (a_allNs a) a)))
  else if bool_decide (name ∈ ["-A"; "--all-namespaces"]) then Some (Switch (λ a, a_read_from (a_ns a) true a))
  else if bool_decide (name ∈ ["-c"; "--container"])
  then Some (Valued (λ v a, Some (a_logs v (a_tail a) (a_previous a) (a_since a) a)))
  else if str_eqb name "--tail"
  then Some (Valued (λ v a, t ← strconv_Atoi v; Some (a_logs (a_container a) t (a_previous a) (a_since a) a)))
  else if bool_decide (name ∈ ["-p"; "--previous"])
  then Some (Switch (λ a, a_logs (a_container a) (a_tail a) true (a_since a) a))
  else if str_eqb name "--since"
  then Some (Valued (λ v a, d ← time_ParseDuration v; Some (a_logs (a_container a) (a_tail a) (a_previous a) d a)))
  else if bool_decide (name ∈ ["-o"; "--output"])
  then Some (Valued (λ v a, Some (a_select v (a_selector a) (a_fieldSelector a) (a_forObj a) a)))
  else if bool_decide (name ∈ ["-l"; "--selector"])
  then Some (Valued (λ v a, Some (a_select (a_output a) v (a_fieldSelector a) (a_forObj a) a)))
  else if str_eqb name "--field-selector"
  then Some (Valued (λ v a, Some (a_select (a_output a) (a_selector a) v (a_forObj a) a)))
  else if str_eqb name "--for"
  then Some (Valued (λ v a, Some (a_select (a_output a) (a_selector a) (a_fieldSelector a) v a)))
  else None.

(** The loop over the words: the flags, and the other words in order. *)
Fixpoint parse_fields (fields : list string) (a : termArgs) (rest : list string)
    : termArgs * list string + term_error :=
  match fields with
  | [] => inl (a, rest)
  | f :: fields' =>
    let '(name, val) := match strings_cut f "="%char with Some (n, v) => (n, Some v) | None => (f, None) end in
    match flag_of name with
    | Some (Switch upd) => parse_fields fields' (upd a) rest
    | Some (Valued upd) =>
      match val with
      | Some v => match upd v a with Some a' => parse_fields fields' a' rest | None => inr (ErrBadValue name v) end
      | None =>
        match fields' with
        | [] => inr (ErrNeedsValue name)
        | v :: fields'' =>
          match upd v a with Some a' => parse_fields fields'' a' rest | None => inr (ErrBadValue name v) end
        end
      end
    | None => if strings_HasPrefix f "-" then inr (ErrUnknownFlag f) else parse_fields fields' a (rest ++ [f])
    end
  end.
Definition hasSub (verb : string) : bool :=
  bool_decide (verb ∈ ["get"; "describe"; "rollout"; "auth"; "agent"]).
Definition words (line : string) : list string :=
  strings_Fields (strings_TrimPrefix (strings_TrimSpace line) "kubectl ").
Definition parseArgs (line : string) : termArgs + term_error :=
  match parse_fields (words line) no_args [] with
  | inr e => inr e
  | inl (_, []) => inr ErrEmpty
  | inl (a, verb :: rest) =>
    let a := match rest with
             | sub :: rest' => if hasSub verb then a_command verb sub rest' a else a_command verb "" rest a
             | [] => a_command verb "" [] a
             end in
    if negb (str_eqb (a_output a) "") && negb (str_eqb (a_output a) "wide") then inr (ErrOutput (a_output a))
    else inl a
  end.

(** ** What is never run *)
Record refusal_row := mkRefusal { rf_Commands : string; rf_Why : string }.
Definition neverAdded : list refusal_row := [
  mkRefusal "delete, apply, create, replace, edit, patch, scale, label, annotate, taint, set, cordon, uncordon, drain, rollout restart, rollout undo, rollout pause, rollout resume"
    "writes would bypass the mutation gate, its guardrails and its audit trail; fixes come from the agent, and from approvals in PLAN-002 phase 15";
  mkRefusal "exec, attach, cp, debug, port-forward, proxy, run"
    "shell or network access into workloads for anyone holding the dashboard token";
  mkRefusal "get secrets, describe secret, ConfigMap values" "credentials; ConfigMaps show key names only";
  mkRefusal "anything outside the watch scope" "reads follow the watch scope (ADR-002)"
].
(** [strings.Split(commands, ", ")]: these texts have no other comma. *)
Definition commands_of (r : refusal_row) : list string :=
  (λ c, strings_TrimPrefix c " ") <$> strings_Split (rf_Commands r) ","%char.
Definition refusedVerbs : gmap string string :=
  foldl (λ m r, foldl (λ m c, <[c := rf_Why r]> m) m (commands_of r)) ∅ (take 2 neverAdded).
Definition why_secrets : string := default "" (rf_Why <$> neverAdded !! 2%nat).
Definition refuse (verb sub : string) : string :=
  let of_verb := default "" (refusedVerbs !! verb) in
  if negb (str_eqb of_verb "") then of_verb
  else
    let of_rollout := if str_eqb verb "rollout" then default "" (refusedVerbs !! ("rollout " +:+ sub)) else "" in
    if negb (str_eqb of_rollout "") then of_rollout
    else if bool_decide (verb ∈ ["get"; "describe"]) && bool_decide (sub ∈ ["secret"; "secrets"]) then why_secrets
    else "".

(** ** The command table *)
Record kindRow := mkKind {
  k_name : string; k_aliases : list string; k_about : string; k_cluster : bool;
  k_head : list string; k_wide : list string
}.
Definition getKinds : list kindRow := [
  mkKind "pods" ["pod"; "po"] "pods" false ["READY"; "STATUS"; "RESTARTS"; "AGE"] ["IP"; "NODE"];
  mkKind "deployments" ["deployment"; "deploy"] "Deployments" false ["READY"; "UP-TO-DATE"; "AVAILABLE"; "AGE"] ["IMAGES"; "SELECTOR"];
  mkKind "statefulsets" ["statefulset"; "sts"] "StatefulSets" false ["READY"; "AGE"] ["IMAGES"];
  mkKind "daemonsets" ["daemonset"; "ds"] "DaemonSets" false ["DESIRED"; "CURRENT"; "READY"; "UP-TO-DATE"; "AGE"] ["NODE-SELECTOR"];
  mkKind "replicasets" ["replicaset"; "rs"] "ReplicaSets" false ["DESIRED"; "CURRENT"; "READY"; "AGE"] ["OWNER"];
  mkKind "jobs" ["job"] "Jobs" false ["STATUS"; "COMPLETIONS"; "AGE"] [];
  mkKind "cronjobs" ["cronjob"; "cj"] "CronJobs" false ["SCHEDULE"; "SUSPEND"; "ACTIVE"; "LAST-SCHEDULE"; "AGE"] [];
  mkKind "services" ["service"; "svc"] "Services" false ["TYPE"; "CLUSTER-IP"; "PORTS"; "AGE"] ["SELECTOR"];
  mkKind "endpointslices" ["endpointslice"] "EndpointSlices: ready addresses per Service" false ["SERVICE"; "READY"; "TOTAL"; "AGE"] [];
  mkKind "ingresses" ["ingress"; "ing"] "Ingresses" false ["CLASS"; "HOSTS"; "AGE"] [];
  mkKind "networkpolicies" ["networkpolicy"; "netpol"] "NetworkPolicies" false ["POD-SELECTOR"; "TYPES"; "AGE"] [];
  mkKind "hpa" ["horizontalpodautoscalers"; "horizontalpodautoscaler"] "HorizontalPodAutoscalers" false ["TARGET"; "MIN"; "MAX"; "REPLICAS"; "AGE"] [];
  mkKind "pdb" ["poddisruptionbudgets"; "poddisruptionbudget"] "PodDisruptionBudgets" false ["MIN-AVAILABLE"; "MAX-UNAVAILABLE"; "ALLOWED"; "AGE"] [];
  mkKind "pvc" ["persistentvolumeclaims"; "persistentvolumeclaim"] "PersistentVolumeClaims" false ["STATUS"; "VOLUME"; "CAPACITY"; "CLASS"; "AGE"] [];
  mkKind "resourcequotas" ["resourcequota"; "quota"] "ResourceQuotas, used of hard" false ["USED"; "AGE"] [];
  mkKind "configmaps" ["configmap"; "cm"] "ConfigMaps: key count only, never values" false ["DATA"; "AGE"] [];
  mkKind "events" ["event"; "ev"] "events, newest last" false ["TYPE"; "REASON"; "OBJECT"; "MESSAGE"; "AGE"] [];
  mkKind "autoremediationpolicies" ["autoremediationpolicy"; "arp"] "the agent's AutoRemediationPolicy objects" false ["AGE"] [];
  mkKind "nodes" ["node"; "no"] "nodes" true ["STATUS"; "ROLES"; "AGE"; "VERSION"] ["INTERNAL-IP"; "OS"; "RUNTIME"];
  mkKind "namespaces" ["namespace"; "ns"] "namespaces" true ["STATUS"; "AGE"] []
].
(** A kind [describe] reads, and where. *)
Record describeRow := mkDescribe {
  d_name : string; d_aliases : list string; d_about : string; d_cluster : bool;
  d_resource : string; d_events : string (* the kind of its events, none for a node *)
}.
Definition describeKinds : list describeRow := [
  mkDescribe "pod" ["pods"; "po"] "a pod, its containers and events" false "pods" "Pod";
  mkDescribe "deployment" ["deployments"; "deploy"] "a Deployment, its conditions and containers" false "deployments" "Deployment";
  mkDescribe "statefulset" ["statefulsets"; "sts"] "a StatefulSet and its revisions" false "statefulsets" "StatefulSet";
  mkDescribe "job" ["jobs"] "a Job and its conditions" false "jobs" "Job";
  mkDescribe "service" ["services"; "svc"] "a Service and its ready endpoints" false "services" "Service";
  mkDescribe "pvc" ["persistentvolumeclaim"; "persistentvolumeclaims"] "a claim and its events" false "pvc" "PersistentVolumeClaim";
  mkDescribe "hpa" ["horizontalpodautoscaler"; "horizontalpodautoscalers"] "an autoscaler and its conditions" false "hpa" "HorizontalPodAutoscaler";
  mkDescribe "ingress" ["ingresses"; "ing"] "an Ingress and its rules" false "ingresses" "Ingress";
  mkDescribe "node" ["nodes"; "no"] "a node, its capacity and conditions" true "nodes" ""
].

(** What a row runs. *)
Inductive action :=
| RunGet (k : kindRow) | RunDescribe (d : describeRow) | RunLogs | RunEvents | RunRolloutStatus
| RunRolloutHistory | RunCanI | RunAgentScope | RunAgentWhy | RunAgentGate | RunAgentStatus
| RunVersion | RunHelp.
Record termCmd := mkCmd {
  c_Verb : string; c_Sub : string; c_Aliases : list string; c_Usage : string; c_About : string;
  c_Cluster : bool; c_run : action
}.
Definition termCommands : list termCmd :=
  let ns := "[-n <ns> | -A] [-l <selector>] [--field-selector <selector>] [-o wide]" in
  (map (λ g, mkCmd "get" (k_name g) (k_aliases g)
     ("get " +:+ k_name g +:+ " [name] " +:+ if k_cluster g then "[-l <selector>] [-o wide]" else ns)
     (k_about g) (k_cluster g) (RunGet g)) getKinds)
  ++ (map (λ d, mkCmd "describe" (d_name d) (d_aliases d)
     ("describe " +:+ d_name d +:+ " <name>" +:+ if d_cluster d then "" else " [-n <ns>]")
     (d_about d) (d_cluster d) (RunDescribe d)) describeKinds)
  ++ [ mkCmd "logs" "" [] "logs <pod> | deploy/<name> [-n <ns>] [-c <container>] [--tail <n>] [--previous] [--since <duration>]"
         "container logs; deploy/<name> picks a pod of the Deployment" false RunLogs;
       mkCmd "events" "" [] "events [-n <ns> | -A] [--for <kind>/<name>]" "events, newest last" false RunEvents;
       mkCmd "rollout" "status" [] "rollout status deploy/<name> | sts/<name> [-n <ns>]" "progress of a rollout" false RunRolloutStatus;
       mkCmd "rollout" "history" [] "rollout history deploy/<name> | sts/<name> [-n <ns>]" "revisions and their images" false RunRolloutHistory;
       mkCmd "auth" "can-i" [] "auth can-i <verb> <resource> [-n <ns>]" "what the agent itself may do (SelfSubjectAccessReview)" true RunCanI;
       mkCmd "agent" "scope" [] "agent scope" "watch scope, fix scope, ceiling and fix-anywhere" true RunAgentScope;
       mkCmd "agent" "why" [] "agent why <pod> [-n <ns>]" "every finding, gate decision and fix for one pod" false RunAgentWhy;
       mkCmd "agent" "gate" [] "agent gate [-n <ns>]" "would a fix in this namespace pass now, without acting" false RunAgentGate;
       mkCmd "agent" "status" [] "agent status" "role, leader, mode, version" true RunAgentStatus;
       mkCmd "version" "" [] "version" "API server version" true RunVersion;
       mkCmd "help" "" [] "help" "this list" true RunHelp ].

Definition matches (verb sub : string) (c : termCmd) : bool :=
  str_eqb (c_Verb c) verb
  && (negb (hasSub (c_Verb c)) || str_eqb (c_Sub c) sub || bool_decide (sub ∈ c_Aliases c)).
Definition lookup (verb sub : string) : option termCmd := List.find (matches verb sub) termCommands.

(** [%-70s] counts characters; the usages are plain text. *)
Definition pad (n : nat) (s : string) : string := s +:+ String.concat "" (replicate (n - String.length s) " ").
Definition helpText : string :=
  "Read-only kubectl. You can run:" +:+ nl
  +:+ String.concat "" (map (λ c, "  " +:+ pad 70 (c_Usage c) +:+ " " +:+ c_About c +:+ nl) termCommands)
  +:+ nl +:+ "Not available, and why:" +:+ nl
  +:+ String.concat "" (map (λ r, "  " +:+ rf_Commands r +:+ ": " +:+ rf_Why r +:+ nl) neverAdded).

(** ** Reads *)

(** A question to the API server: what is asked, of which resource, in which
    namespace ("" for a cluster-scoped one) and, but for a list, of which
    object. *)
Inductive read_kind := DoList | DoGet | DoLogs | DoReview | DoVersion.
Record read := mkRead { rd_kind : read_kind; rd_resource : string; rd_ns : string; rd_name : string }.
Record Times := mkTimes { t_Last : Time; t_Event : Time; t_Creation : Time }.

(** What is outside the terminal: the API server, the columns and sections
    of each kind, the text of a table, the redaction rules. *)
Class TermAPI := {
  Obj : Type;
  o_ns : Obj → string; o_name : Obj → string;
  o_phase : Obj → string;                     (* of a pod *)
  o_selector : Obj → string + string;         (* of a Deployment, as a selector or an error *)
  o_owners : Obj → list (string * string);    (* kind and name *)
  o_revision : Obj → Z * string;              (* of a ReplicaSet or a ControllerRevision *)
  o_involved : Obj → string * string;         (* of an event: kind and name *)
  o_times : Obj → Times;                      (* of an event *)
  list_objs : string → string → string → string → list Obj + string; (* resource, namespace, selectors *)
  get_obj : string → string → string → Obj + string;
  get_logs : string → string → termArgs → string + string;
  review : string → string → string → bool * string + string; (* namespace, verb, resource.group *)
  server_version : string + string;
  columns : string → Obj → list string * list string; (* of a kind: narrow, wide *)
  details : string → Obj → option (list Obj) → string; (* a description but its events *)
  event_cells : Obj → list string; event_line : Obj → string;
  progress : Obj → string;                    (* of a rollout *)
  tabwriter : string → string;
  redact_String : string → string
}.
Record TerminalAgent := mkAgent {
  ag_Scope : string; ag_Gate : string → list (string * bool * string); ag_Status : string
}.
Record TermEnv := mkTermEnv {
  te_dyn : bool; te_allowNS : option (string → bool); te_agent : option TerminalAgent;
  te_recorder : option (list (string * string * list string)) (* newest first: namespace, pod, cells *)
}.

(** A run: the reads it makes, in order, and its answer. *)
Definition reader (A : Type) : Type := list read * (A + term_error).
Definition answer {A} (a : A) : reader A := ([], inl a).
Definition refused {A} (e : term_error) : reader A := ([], inr e).
Definition and_then {A B} (m : reader A) (k : A → reader B) : reader B :=
  match m with
  | (l, inl a) => let '(l', r) := k a in (l ++ l', r)
  | (l, inr e) => (l, inr e)
  end.
Notation "'read!' x ':=' m 'in' k" := (and_then m (λ x, k))
  (at level 10, x binder, m at level 100, k at level 200) : agent_scope.
Definition ask {A} (r : read) (res : A + string) : reader A :=
  ([r], match res with inl a => inl a | inr e => inr (ErrAPI e) end).

Section runs.
Context `{!TermAPI} (e : TermEnv).

Definition List_ (resource ns sel field : string) : reader (list Obj) :=
  ask (mkRead DoList resource ns "") (list_objs resource ns sel field).
Definition Get_ (resource ns name : string) : reader Obj :=
  ask (mkRead DoGet resource ns name) (get_obj resource ns name).

Definition allowed (ns : string) : bool := match te_allowNS e with Some f => f ns | None => false end.
(** [checkScope]: the error, if any. *)
Definition checkScope (a : termArgs) : option term_error :=
  match te_allowNS e with
  | None => Some (ErrOutsideScope (a_ns a))
  | Some f => if a_allNs a then None else if f (a_ns a) then None else Some (ErrOutsideScope (a_ns a))
  end.
Definition namespaces (a : termArgs) : reader (list string) :=
  if negb (a_allNs a) then answer [a_ns a]
  else read! l := List_ "namespaces" "" "" "" in
       answer (sort_strings (filter (λ ns, allowed ns = true) (o_name <$> l))).

(** ** Tables *)
Definition line (cells : list string) : string := strings_Join cells (String "009"%char "") +:+ nl.
Definition table (k : kindRow) (rows : list Obj) (showNs wide : bool) : string :=
  let head := (if showNs then ["NAMESPACE"] else []) ++ ["NAME"] ++ k_head k ++ (if wide then k_wide k else []) in
  let row o := (if showNs then [o_ns o] else []) ++ [o_name o] ++ (columns (k_name k) o).1
               ++ (if wide then (columns (k_name k) o).2 else []) in
  tabwriter (String.concat "" (line head :: map (λ o, line (row o)) rows)).

Definition eventAt (o : Obj) : Time :=
  let t := o_times o in
  if negb (time_IsZero (t_Last t)) then t_Last t
  else if negb (time_IsZero (t_Event t)) then t_Event t else t_Creation t.
Definition event_before (a b : Obj) : Prop := eventAt a ≤ eventAt b.
#[export] Instance event_before_dec : RelDecision event_before.
Proof. intros a b. unfold event_before. apply _. Defined.
Definition sortEvents (l : list Obj) : list Obj := merge_sort event_before l.

(** A kind's lister: events are sorted, policies need the dynamic client. *)
Definition list_kind (k : kindRow) (ns : string) (a : termArgs) : reader (list Obj) :=
  if str_eqb (k_name k) "autoremediationpolicies" && negb (te_dyn e)
  then refused (ErrAPI "AutoRemediationPolicy reads need the dynamic client, which this server was not given")
  else read! l := List_ (k_name k) ns (a_selector a) (a_fieldSelector a) in
       answer (if str_eqb (k_name k) "events" then sortEvents l else l).
Fixpoint list_all (k : kindRow) (nss : list string) (a : termArgs) : reader (list Obj) :=
  match nss with
  | [] => answer []
  | ns :: nss' =>
    read! got := list_kind k ns a in
    read! rest := list_all k nss' a in
    answer (got ++ rest)
  end.
Definition runList (k : kindRow) (a : termArgs) : reader string :=
  read! nss := (if k_cluster k then answer [""] else namespaces a) in
  read! rows := list_all k nss a in
  let found := match a_pos a with
               | [] => inl rows
               | name :: _ =>
                 let one := filter (λ o, o_name o = name) rows in
                 if bool_decide (length one = 0%nat) then inr name else inl one
               end in
  match found with
  | inr name => refused (ErrNotFound name)
  | inl [] => answer (if k_cluster k then "No resources found."
                      else "No resources found in " +:+ (if a_allNs a then "the watched namespaces"
                                                         else a_ns a +:+ " namespace") +:+ ".")
  | inl rows => answer (table k rows (a_allNs a && negb (k_cluster k)) (str_eqb (a_output a) "wide"))
  end.

(** ** Descriptions *)

(** The events of one object; an error is told in the text. *)
Definition objectEvents (ns kind name : string) : reader string :=
  match list_objs "events" ns "" ("involvedObject.name=" +:+ name) with
  | inr err => ([mkRead DoList "events" ns ""],
                inl (nl +:+ "Events:" +:+ nl +:+ "  (could not read events: " +:+ err +:+ ")" +:+ nl))
  | inl l =>
    let evs := sortEvents (filter (λ o, (o_involved o).2 = name ∧ (kind = "" ∨ (o_involved o).1 = kind)) l) in
    ([mkRead DoList "events" ns ""],
     inl (if bool_decide (length evs = 0%nat) then ""
          else nl +:+ "Events:" +:+ nl +:+ String.concat "" (map (λ o, "  " +:+ event_line o +:+ nl) evs)))
  end.
(** The slices of a Service; an error leaves them out. *)
Definition service_slices (ns name : string) : reader (option (list Obj)) :=
  ([mkRead DoList "endpointslices" ns ""],
   inl (match list_objs "endpointslices" ns ("kubernetes.io/service-name=" +:+ name) "" with
        | inl l => Some l | inr _ => None end)).
Definition runDescribe (d : describeRow) (a : termArgs) : reader string :=
  match a_pos a with
  | [] => refused (ErrUsage ("describe " +:+ d_name d +:+ " <name>"))
  | name :: _ =>
    let ns := if d_cluster d then "" else a_ns a in
    read! o := Get_ (d_resource d) ns name in
    read! slices := (if str_eqb (d_resource d) "services" then service_slices ns name else answer None) in
    read! evs := (if d_cluster d then answer "" else objectEvents ns (d_events d) name) in
    answer (details (d_name d) o slices +:+ evs)
  end.

(** ** Logs, events, rollouts *)
Definition to_lower (s : string) : string := str_map lower_ascii s.
Inductive targetKind := TDeployment | TStatefulSet | TPod.
Definition target (s : string) : targetKind * string + term_error :=
  match strings_cut s "/"%char with
  | Some (k, n) =>
    if str_eqb n "" then inr (ErrUsage "give a target such as deploy/<name>")
    else if bool_decide (to_lower k ∈ ["deploy"; "deployment"; "deployments"]) then inl (TDeployment, n)
    else if bool_decide (to_lower k ∈ ["sts"; "statefulset"; "statefulsets"]) then inl (TStatefulSet, n)
    else if bool_decide (to_lower k ∈ ["po"; "pod"; "pods"]) then inl (TPod, n)
    else inr (ErrTargetKind k)
  | None => inr (ErrUsage "give a target such as deploy/<name>")
  end.
Definition by_name (a b : Obj) : Prop := String.le (o_name a) (o_name b).
#[export] Instance by_name_dec : RelDecision by_name.
Proof. intros a b. unfold by_name. apply _. Defined.
Definition podOf (ns deploy : string) : reader string :=
  read! d := Get_ "deployments" ns deploy in
  match o_selector d with
  | inr err => refused (ErrAPI err)
  | inl sel =>
    read! l := List_ "pods" ns sel "" in
    let pods := merge_sort by_name l in
    match head (filter (λ p, o_phase p = "Running") pods ++ pods) with
    | Some p => answer (o_name p)
    | None => refused (ErrAPI ("deployment " +:+ deploy +:+ " has no pod"))
    end
  end.
Definition runLogs (a : termArgs) : reader string :=
  match a_pos a with
  | [] => refused (ErrUsage "logs <pod> | deploy/<name>")
  | pod :: _ =>
    read! pod := (if strings_Contains pod "/"
                  then match target pod with
                       | inr err => refused err
                       | inl (TPod, name) => answer name
                       | inl (_, name) => podOf (a_ns a) name
                       end
                  else answer pod) in
    ask (mkRead DoLogs "pods" (a_ns a) pod) (get_logs (a_ns a) pod a)
  end.
Definition kindMatches (want got : string) : bool :=
  let want := if bool_decide (want ∈ ["po"; "pods"]) then "pod"
              else if bool_decide (want ∈ ["deploy"; "deployments"]) then "deployment"
              else if bool_decide (want ∈ ["sts"; "statefulsets"]) then "statefulset" else want in
  str_eqb want (to_lower got).
Fixpoint list_events (nss : list string) (kind name : string) : reader (list Obj) :=
  match nss with
  | [] => answer []
  | ns :: nss' =>
    read! l := List_ "events" ns "" "" in
    read! rest := list_events nss' kind name in
    answer (filter (λ o, name = "" ∨ ((o_involved o).2 = name ∧ kindMatches kind (o_involved o).1 = true)) l ++ rest)
  end.
Definition runEvents (a : termArgs) : reader string :=
  match (if str_eqb (a_forObj a) "" then Some ("", "")
         else '(k, n) ← strings_cut (a_forObj a) "/"%char; Some (to_lower k, n)) with
  | None => refused (ErrUsage "--for needs <kind>/<name>")
  | Some (kind, name) =>
    read! nss := namespaces a in
    read! evs := list_events nss kind name in
    if bool_decide (length evs = 0%nat) then answer "No events found."
    else answer (tabwriter (String.concat "" (
      line ["LAST SEEN"; "NAMESPACE"; "TYPE"; "REASON"; "OBJECT"; "MESSAGE"]
      :: map (λ o, line (event_cells o)) (sortEvents evs))))
  end.
Definition first (l : list string) : string := default "" (head l).
Definition runRolloutStatus (a : termArgs) : reader string :=
  match target (first (a_pos a)) with
  | inr err => refused err
  | inl (TPod, _) => refused (ErrUsage "rollout status works on deploy/<name> and sts/<name>")
  | inl (k, name) =>
    read! o := Get_ (match k with TDeployment => "deployments" | _ => "statefulsets" end) (a_ns a) name in
    answer (progress o)
  end.
Definition older (a b : Z * string) : Prop := a.1 ≤ b.1.
#[export] Instance older_dec : RelDecision older.
Proof. intros a b. unfold older. apply _. Defined.
Definition runRolloutHistory (a : termArgs) : reader string :=
  match target (first (a_pos a)) with
  | inr err => refused err
  | inl (TPod, _) => refused (ErrUsage "rollout history works on deploy/<name> and sts/<name>")
  | inl (k, name) =>
    let '(resource, owner, kind) := match k with
      | TDeployment => ("replicasets", "Deployment", "deployment")
      | _ => ("controllerrevisions", "StatefulSet", "statefulset") end in
    read! l := List_ resource (a_ns a) "" "" in
    let revs := flat_map (λ o, map (λ _, o_revision o) (filter (λ r, r = (owner, name)) (o_owners o))) l in
    if bool_decide (length revs = 0%nat) then answer ("no revisions found for " +:+ kind +:+ "/" +:+ name)
    else answer (tabwriter (String.concat "" (line ["REVISION"; "IMAGES OR REVISION"]
           :: map (λ r, line [itoa r.1; r.2]) (merge_sort older revs))))
  end.
End runs.

(** ** Commands *)
Section commands.
Context `{!TermAPI} (e : TermEnv).

Definition runCanI (a : termArgs) : reader string :=
  match a_pos a with
  | verb :: what :: _ =>
    read! r := ask (mkRead DoReview "selfsubjectaccessreviews" (a_ns a) what) (review (a_ns a) verb what) in
    answer (if r.1 then "yes" else if negb (str_eqb r.2 "") then "no: " +:+ r.2 else "no")
  | _ => refused (ErrUsage "auth can-i <verb> <resource> [-n <ns>]")
  end.
Definition runVersion : reader string := ask (mkRead DoVersion "version" "" "") server_version.

Definition agentOf : reader TerminalAgent :=
  match te_agent e with Some ag => answer ag | None => refused (ErrAPI "agent commands are answered by the controller") end.
Definition runAgentGate (a : termArgs) : reader string :=
  read! ag := agentOf in
  let rows := ag_Gate ag (a_ns a) in
  let pass := forallb (λ r : string * bool * string, r.1.2) rows in
  answer (tabwriter (String.concat "" (line ["CHECK"; "RESULT"; "DETAIL"]
    :: map (λ r : string * bool * string, line [r.1.1; if r.1.2 then "pass" else "BLOCKS"; r.2]) rows))
    +:+ nl +:+ "A fix in " +:+ a_ns a +:+ (if pass then " would pass the gate now." else " would not be applied now.")).
Definition runAgentWhy (a : termArgs) : reader string :=
  match a_pos a with
  | [] => refused (ErrUsage "agent why <pod> [-n <ns>]")
  | pod :: _ =>
    match te_recorder e with
    | None => refused (ErrAPI "the event log is kept by the controller")
    | Some evs =>
      let mine := filter (λ ev, ev.1 = (a_ns a, pod)) (reverse evs) in
      if bool_decide (length mine = 0%nat)
      then answer ("the agent has recorded nothing about pod " +:+ pod +:+ " in " +:+ a_ns a)
      else answer (tabwriter (String.concat "" (line ["WHEN"; "TYPE"; "REASON"; "RESULT"; "DETAIL"]
             :: map (λ ev, line ev.2) mine)))
    end
  end.

Definition run (act : action) (a : termArgs) : reader string :=
  match act with
  | RunGet k => runList e k a
  | RunDescribe d => runDescribe d a
  | RunLogs => runLogs a
  | RunEvents => runEvents e a
  | RunRolloutStatus => runRolloutStatus a
  | RunRolloutHistory => runRolloutHistory a
  | RunCanI => runCanI a
  | RunAgentScope => read! ag := agentOf in answer (ag_Scope ag)
  | RunAgentWhy => runAgentWhy a
  | RunAgentGate => runAgentGate a
  | RunAgentStatus => read! ag := agentOf in answer (ag_Status ag)
  | RunVersion => runVersion
  | RunHelp => answer helpText
  end.

(** [redact.String], then the cap; with the answer goes the error. *)
Definition cut_output (out : string) : string :=
  let out := redact_String out in
  if (maxTermOutput <? String.length out)%nat
  then str_take maxTermOutput out +:+ nl +:+ "... output cut at 256 KiB" else out.
Definition not_available (verb sub why : string) : term_error :=
  ErrNotAvailable (strings_TrimSpace (verb +:+ " " +:+ sub)) why.

Definition executeKubectl (l : string) : list read * (string + term_error) :=
  let early := match words l with
               | verb :: more =>
                 let sub := first more in
                 let why := refuse verb sub in
                 if str_eqb why "" then None
                 else Some (not_available verb (if hasSub verb then sub else "") why)
               | [] => None
               end in
  match early with
  | Some err => ([], inr err)
  | None =>
    match parseArgs l with
    | inr err => ([], inr err)
    | inl a =>
      let why := refuse (a_verb a) (a_sub a) in
      if negb (str_eqb why "") then ([], inr (not_available (a_verb a) (a_sub a) why))
      else
        match lookup (a_verb a) (a_sub a) with
        | None => ([], inr (ErrUnsupported (strings_TrimSpace (a_verb a +:+ " " +:+ a_sub a))))
        | Some c =>
          match (if c_Cluster c then None else checkScope e a) with
          | Some err => ([], inr err)
          | None =>
            match run (c_run c) a with
            | (reads, inl out) => (reads, inl (cut_output out))
            | (reads, inr err) => (reads, inr err)
            end
          end
        end
    end
  end.

(** [handleKubectl]: the request is decoded by [encoding/json] from at most
    4096 bytes. *)
Record kubectlResponse := mkResponse { kr_Output : string; kr_Error : option term_error }.
Inductive handled := Answered (r : kubectlResponse) | Rejected (why : string).
Definition handleKubectl (method : string) (connected : bool) (body : option string) : list read * handled :=
  if negb (str_eqb method "POST") then ([], Rejected "POST required")
  else if negb connected then ([], Rejected "no cluster connection")
  else match body with
       | None => ([], Rejected "invalid request")
       | Some command =>
         match executeKubectl command with
         | (reads, inl out) => (reads, Answered (mkResponse out None))
         | (reads, inr err) => (reads, Answered (mkResponse "" (Some err)))
         end
       end.
End commands.

(** ** What is read *)

(** Every read of a run satisfies [P]. *)
Definition reads_in {A} (P : read → Prop) (m : reader A) : Prop := Forall P m.1.

Section reads.
Context `{!TermAPI} (e : TermEnv) (P : read → Prop).
Lemma reads_answer {A} (a : A) : reads_in P (answer a).
Proof. constructor. Qed.
Lemma reads_refused {A} err : reads_in P (refused (A := A) err).
Proof. constructor. Qed.
Lemma reads_ask {A} r (res : A + string) : P r → reads_in P (ask r res).
Proof. intros. by repeat constructor. Qed.
Lemma reads_then {A B} (m : reader A) (k : A → reader B) :
  reads_in P m → (∀ a, reads_in P (k a)) → reads_in P (and_then m k).
Proof.
  intros Hm Hk. unfold and_then, reads_in in *. destruct m as [l [a|err]]; [|done].
  specialize (Hk a). destruct (k a) as [l' r]. by apply Forall_app.
Qed.
Lemma reads_value {A} (m : reader A) (Q : A → Prop) {B} (k : A → reader B) :
  reads_in P m → (∀ a, m.2 = inl a → Q a) → (∀ a, Q a → reads_in P (k a)) → reads_in P (and_then m k).
Proof.
  intros Hm Hq Hk. unfold and_then, reads_in in *. destruct m as [l [a|err]]; [|done].
  specialize (Hk a (Hq a eq_refl)). destruct (k a) as [l' r]. by apply Forall_app.
Qed.
End reads.

Section scope.
Context `{!TermAPI} (e : TermEnv).
#[local] Hint Resolve reads_answer reads_refused reads_ask reads_then : core.
Ltac reads := repeat first
  [ progress (intros; auto)
  | apply reads_then
  | match goal with |- reads_in _ (match ?x with _ => _ end) => destruct x end ].

(** Resources outside every namespace. *)
Definition cluster_resources : list string := ["nodes"; "namespaces"; "version"; "selfsubjectaccessreviews"].
Definition in_scope (r : read) : Prop := rd_resource r ∈ cluster_resources ∨ allowed e (rd_ns r) = true.

Lemma namespaces_reads (a : termArgs) : reads_in in_scope (namespaces e a).
Proof. unfold namespaces. destruct (negb _); reads. apply reads_ask. left. cbn. set_solver. Qed.
Lemma namespaces_allowed (a : termArgs) nss :
  a_allNs a = true ∨ allowed e (a_ns a) = true → (namespaces e a).2 = inl nss → Forall (λ ns, allowed e ns = true) nss.
Proof.
  unfold namespaces. intros Hs. destruct (a_allNs a); cbn [negb].
  - cbn. destruct (list_objs _ _ _ _); intros [= <-]. apply Forall_forall. intros ns.
    rewrite elem_of_sort_strings, list_elem_of_filter. by intros [??].
  - intros [= <-]. constructor; [by destruct Hs|constructor].
Qed.

Definition kind_ok (k : kindRow) : bool :=
  (negb (k_cluster k) || bool_decide (k_name k ∈ cluster_resources)) && negb (str_eqb (k_name k) "secrets").
Lemma list_all_reads (P : read → Prop) k nss a :
  (∀ ns, ns ∈ nss → P (mkRead DoList (k_name k) ns "")) → reads_in P (list_all e k nss a).
Proof.
  induction nss as [|ns nss IH]; intros Hp; cbn [list_all]; [auto|].
  assert (P (mkRead DoList (k_name k) ns "")) by (apply Hp; left).
  assert (reads_in P (list_all e k nss a)) by (apply IH; intros; apply Hp; by right).
  unfold list_kind, List_. reads.
Qed.
Lemma list_events_reads (P : read → Prop) nss kind name :
  (∀ ns, ns ∈ nss → P (mkRead DoList "events" ns "")) → reads_in P (list_events nss kind name).
Proof.
  induction nss as [|ns nss IH]; intros Hp; cbn [list_events]; [auto|].
  assert (P (mkRead DoList "events" ns "")) by (apply Hp; left).
  assert (reads_in P (list_events nss kind name)) by (apply IH; intros; apply Hp; by right).
  unfold List_. reads.
Qed.

(** The namespaces a command reads are its own, or with -A the allowed ones. *)
Lemma runList_in_scope k a :
  kind_ok k = true → k_cluster k = true ∨ a_allNs a = true ∨ allowed e (a_ns a) = true →
  reads_in in_scope (runList e k a).
Proof.
  intros Hk Hs. unfold runList.
  apply (reads_value _ _ (λ nss, k_cluster k = true ∨ Forall (λ ns, allowed e ns = true) nss)).
  - destruct (k_cluster k); [auto|apply namespaces_reads].
  - intros nss Hn. destruct (k_cluster k); [by left|]. right. apply (namespaces_allowed a nss); [|done].
    by destruct Hs as [?|Hs].
  - intros nss Hn. apply reads_then; [|reads]. apply list_all_reads. intros ns Hin.
    apply andb_true_iff in Hk as [Hk _]. destruct Hn as [Hc|Hall].
    + left. rewrite Hc in Hk. by apply bool_decide_eq_true in Hk.
    + right. by apply (proj1 (Forall_forall _ _) Hall ns).
Qed.
Lemma runEvents_in_scope a :
  a_allNs a = true ∨ allowed e (a_ns a) = true → reads_in in_scope (runEvents e a).
Proof.
  intros Hs. unfold runEvents. destruct (if str_eqb _ _ then _ else _) as [[kind name]|]; [|auto].
  apply (reads_value _ _ (Forall (λ ns, allowed e ns = true))).
  - apply namespaces_reads.
  - intros nss. by apply namespaces_allowed.
  - intros nss Hall. apply reads_then; [|reads]. apply list_events_reads. intros ns Hin.
    right. by apply (proj1 (Forall_forall _ _) Hall ns).
Qed.

(** The other commands ask about the namespace they were given. *)
Definition at_ns (a : termArgs) (r : read) : Prop :=
  rd_resource r ∈ cluster_resources ∨ (rd_ns r = a_ns a ∧ rd_resource r ≠ "secrets").
Definition describe_ok (d : describeRow) : bool :=
  (negb (d_cluster d) || bool_decide (d_resource d ∈ cluster_resources)) && negb (str_eqb (d_resource d) "secrets").
Definition at_ns_of (d : describeRow) (a : termArgs) (r : read) : Prop :=
  rd_resource r ∈ cluster_resources ∨ (d_cluster d = false ∧ rd_ns r = a_ns a ∧ rd_resource r ≠ "secrets").
Lemma runDescribe_reads d a : describe_ok d = true → reads_in (at_ns_of d a) (runDescribe d a).
Proof.
  intros [Hc Hs]%andb_true_iff. apply negb_true_iff, str_eqb_ne in Hs. unfold runDescribe.
  destruct (a_pos a) as [|name]; [auto|].
  assert (Hget : at_ns_of d a (mkRead DoGet (d_resource d) (if d_cluster d then "" else a_ns a) name)).
  { unfold at_ns_of. destruct (d_cluster d); [left|by right]. by apply bool_decide_eq_true in Hc. }
  assert (Hall : d_cluster d = false → ∀ k res n, res ≠ "secrets" → at_ns_of d a (mkRead k res (a_ns a) n)) by (by right).
  destruct (d_cluster d); unfold Get_.
  - apply bool_decide_eq_true in Hc. destruct (str_eqb (d_resource d) "services") eqn:He; [|reads].
    apply str_eqb_eq in He. exfalso. unfold cluster_resources in Hc. rewrite He in Hc. set_solver.
  - apply reads_then; [auto|]. intros o. apply reads_then.
    { destruct (str_eqb _ _); [|auto]. constructor; [by apply Hall|constructor]. }
    intros sl. apply reads_then; [|auto]. unfold objectEvents.
    destruct (list_objs _ _ _ _); (constructor; [by apply Hall|constructor]).
Qed.
Lemma podOf_reads a name : reads_in (at_ns a) (podOf (a_ns a) name).
Proof.
  unfold podOf, Get_, List_. assert (∀ k res n, res ≠ "secrets" → at_ns a (mkRead k res (a_ns a) n)) by (by right).
  apply reads_then; [auto|]. intros d. destruct (o_selector d); [|auto]. reads.
Qed.
Lemma runLogs_reads a : reads_in (at_ns a) (runLogs a).
Proof.
  unfold runLogs. assert (∀ k res n, res ≠ "secrets" → at_ns a (mkRead k res (a_ns a) n)) by (by right).
  pose proof (podOf_reads a). destruct (a_pos a) as [|pod ?]; [auto|]. apply reads_then; [|auto].
  destruct (strings_Contains pod "/"); [|auto]. destruct (target pod) as [[[] name]|]; auto.
Qed.
Lemma runRollout_reads a : reads_in (at_ns a) (runRolloutStatus a) ∧ reads_in (at_ns a) (runRolloutHistory a).
Proof.
  unfold runRolloutStatus, runRolloutHistory, Get_, List_.
  assert (∀ k res n, res ≠ "secrets" → at_ns a (mkRead k res (a_ns a) n)) by (by right).
  split; destruct (target _) as [[[] name]|]; reads.
Qed.
End scope.

(** ** The table and the refusals *)

(** What every row of the table satisfies: its run is in bounds, and only
    [get] and [events] expand [-A]. *)
Definition row_ok (c : termCmd) : bool :=
  match c_run c with
  | RunGet k => kind_ok k && Bool.eqb (c_Cluster c) (k_cluster k) && str_eqb (c_Verb c) "get"
  | RunDescribe d => describe_ok d && Bool.eqb (c_Cluster c) (d_cluster d) && str_eqb (c_Verb c) "describe"
  | RunEvents => negb (c_Cluster c) && str_eqb (c_Verb c) "events"
  | RunCanI | RunAgentScope | RunAgentStatus | RunVersion | RunHelp => c_Cluster c
  | _ => negb (c_Cluster c) && negb (bool_decide (c_Verb c ∈ ["get"; "events"]))
  end && negb (str_eqb (c_Verb c) "get" && bool_decide (c_Sub c ∈ ["secret"; "secrets"])).
Lemma table_ok : forallb row_ok termCommands = true.
Proof. vm_compute. reflexivity. Qed.
Lemma row_spec c :
  row_ok c = true →
  match c_run c with
  | RunGet k => kind_ok k = true ∧ c_Cluster c = k_cluster k ∧ c_Verb c = "get"
  | RunDescribe d => describe_ok d = true ∧ c_Cluster c = d_cluster d ∧ c_Verb c = "describe"
  | RunEvents => c_Cluster c = false ∧ c_Verb c = "events"
  | RunCanI | RunAgentScope | RunAgentStatus | RunVersion | RunHelp => c_Cluster c = true
  | _ => c_Cluster c = false ∧ c_Verb c ∉ ["get"; "events"]
  end.
Proof.
  intros [Hok _]%andb_true_iff. destruct (c_run c); try exact Hok;
    repeat match goal with
    | H : _ && _ = true |- _ => apply andb_true_iff in H as [? ?]
    | H : Bool.eqb _ _ = true |- _ => apply eqb_prop in H
    | H : negb _ = true |- _ => apply negb_true_iff in H
    | H : str_eqb _ _ = true |- _ => apply str_eqb_eq in H
    | H : bool_decide _ = false |- _ => apply bool_decide_eq_false in H
    end; by split_and!.
Qed.
Lemma lookup_ok verb sub c : lookup verb sub = Some c → c ∈ termCommands ∧ row_ok c = true ∧ c_Verb c = verb.
Proof.
  intros [Hin Hm]%List.find_some. apply andb_true_iff in Hm as [Hm _].
  split_and!; [by apply list_elem_of_In| |by apply str_eqb_eq].
  pose proof table_ok as Ht. rewrite forallb_forall in Ht. by apply Ht.
Qed.

Lemma refused_why c :
  c ∈ (take 2 neverAdded ≫= commands_of) →
  ∃ r, r ∈ take 2 neverAdded ∧ c ∈ commands_of r ∧ refusedVerbs !! c = Some (rf_Why r) ∧ rf_Why r ≠ "".
Proof.
  intros Hc.
  assert (Hall : Forall (λ c, Exists (λ r, c ∈ commands_of r ∧ refusedVerbs !! c = Some (rf_Why r) ∧ rf_Why r ≠ "")
    (take 2 neverAdded)) (take 2 neverAdded ≫= commands_of)).
  { apply (bool_decide_unpack _). vm_compute. exact I. }
  rewrite Forall_forall in Hall. apply Hall in Hc. apply Exists_exists in Hc as (r & ? & ? & ? & ?).
  exists r. split_and!; assumption.
Qed.

Lemma str_take_length n s : (String.length (str_take n s) ≤ n)%nat.
Proof.
  unfold str_take. revert n. induction s as [|c s IH]; intros [|n]; cbn; try lia. specialize (IH n). lia.
Qed.

Section guarantees.
Context `{!TermAPI} (e : TermEnv).

(** What an answer or a read tells: the line parsed, was not refused, is a
    row of the table, and passed the scope check; the reads are the run's. *)
Definition ran (l : string) (a : termArgs) (c : termCmd) : Prop :=
  parseArgs l = inl a ∧ refuse (a_verb a) (a_sub a) = "" ∧ lookup (a_verb a) (a_sub a) = Some c
  ∧ (c_Cluster c = true ∨ checkScope e a = None).
Lemma executeKubectl_ran l :
  (∃ a c, ran l a c ∧ (executeKubectl e l).1 = (run e (c_run c) a).1
     ∧ (executeKubectl e l).2 = match (run e (c_run c) a).2 with
                                | inl out => inl (cut_output out) | inr err => inr err end)
  ∨ ((executeKubectl e l).1 = [] ∧ ∃ err, (executeKubectl e l).2 = inr err).
Proof.
  unfold executeKubectl. destruct (match words l with [] => _ | _ => _ end) as [err|]; [right; split; [done|by exists err]|].
  destruct (parseArgs l) as [a|err] eqn:Hp; [|right; split; [done|by exists err]].
  destruct (negb _) eqn:Hr; [right; split; [done|by eexists]|]. apply negb_false_iff, str_eqb_eq in Hr.
  destruct (lookup _ _) as [c|] eqn:Hl; [|right; split; [done|by eexists]].
  destruct (if c_Cluster c then None else checkScope e a) as [err|] eqn:Hs; [right; split; [done|by exists err]|].
  left. exists a, c. split; [split_and!; try done; destruct (c_Cluster c); [by left|by right]|].
  by destruct (run e (c_run c) a) as [reads [out|err]].
Qed.

Lemma scope_passed a : checkScope e a = None → a_allNs a = true ∨ allowed e (a_ns a) = true.
Proof.
  unfold checkScope, allowed. destruct (te_allowNS e) as [f|]; [|done].
  destruct (a_allNs a); [by left|]. destruct (f (a_ns a)); [by right|done].
Qed.

Lemma at_ns_in_scope a {A} (m : reader A) :
  reads_in (at_ns a) m → allowed e (a_ns a) = true → reads_in (in_scope e) m.
Proof.
  intros Hm Ha. eapply Forall_impl; [exact Hm|]. intros r [?|[Hns _]]; [by left|right]. by rewrite Hns.
Qed.

Lemma agentOf_reads (P : read → Prop) : reads_in P (agentOf e).
Proof. unfold agentOf. by destruct (te_agent e); constructor. Qed.
Lemma agent_reads (P : read → Prop) a : reads_in P (runAgentGate e a) ∧ reads_in P (runAgentWhy e a).
Proof.
  split; [apply reads_then; [apply agentOf_reads|intros; constructor]|].
  unfold runAgentWhy. destruct (a_pos a); [constructor|]. destruct (te_recorder e); [|constructor].
  by destruct (bool_decide _); constructor.
Qed.
Lemma runCanI_reads (P : read → Prop) a :
  (∀ n, P (mkRead DoReview "selfsubjectaccessreviews" (a_ns a) n)) → reads_in P (runCanI a).
Proof.
  intros Hp. unfold runCanI. destruct (a_pos a) as [|verb [|what ?]]; [constructor..|].
  apply reads_then; [by apply reads_ask|intros; constructor].
Qed.

Lemma run_reads c a :
  row_ok c = true →
  c_Cluster c = true ∨ a_allNs a = true ∨ allowed e (a_ns a) = true →
  a_allNs a = false ∨ c_Verb c = "get" ∨ c_Verb c = "events" →
  reads_in (in_scope e) (run e (c_run c) a).
Proof.
  intros Hok' Hs Hv. unfold run.
  assert (Hnarrow : c_Cluster c = false → c_Verb c ∉ ["get"; "events"] → allowed e (a_ns a) = true).
  { intros Hc Hn. destruct Hs as [?|[?|?]]; [congruence| |done]. destruct Hv as [?|Hv]; [congruence|].
    exfalso. apply Hn. destruct Hv as [->| ->]; set_solver. }
  pose proof (row_spec c) as Hrow. specialize (Hrow Hok').
  destruct (runRollout_reads a) as [Hst Hhist]. pose proof (runLogs_reads a) as Hlogs.
  destruct (agent_reads (in_scope e) a) as [Hgate Hwhy]. pose proof (agentOf_reads (in_scope e)) as Hag.
  destruct (c_run c) as [k|d| | | | | | | | | | |].
  - destruct Hrow as (Hk & Hc & _). apply runList_in_scope; [done|by rewrite <-Hc].
  - destruct Hrow as (Hd & Hc & Hverb). eapply Forall_impl; [exact (runDescribe_reads d a Hd)|].
    intros r [?|(Hcl & Hns & _)]; [by left|right]. rewrite Hns. apply Hnarrow; [congruence|rewrite Hverb; set_solver].
  - destruct Hrow. apply (at_ns_in_scope a); auto.
  - destruct Hrow as [Hc _]. apply runEvents_in_scope. destruct Hs; [congruence|done].
  - destruct Hrow. apply (at_ns_in_scope a); auto.
  - destruct Hrow. apply (at_ns_in_scope a); auto.
  - apply runCanI_reads. left. cbn. set_solver.
  - apply reads_then; [done|intros; constructor].
  - done.
  - done.
  - apply reads_then; [done|intros; constructor].
  - apply reads_ask. left. cbn. set_solver.
  - constructor.
Qed.

(** C37: A command reads only resources outside namespaces and namespaces the
    watch scope allows, for every command line without [-A] and for [get]
    and [events] with it. *)
Theorem terminal_reads_in_scope l :
  (∀ a, parseArgs l = inl a → a_allNs a = false ∨ a_verb a = "get" ∨ a_verb a = "events") →
  Forall (in_scope e) (executeKubectl e l).1.
Proof.
  intros Hl. destruct (executeKubectl_ran l) as [(a & c & (Hp & _ & Hlk & Hs) & -> & _)|[-> _]]; [|constructor].
  destruct (lookup_ok _ _ _ Hlk) as (_ & Hok & Hv). apply run_reads; [done| |].
  - destruct Hs as [?|Hs]; [by left|right]. by apply scope_passed.
  - rewrite Hv. by apply Hl.
Qed.

Lemma run_reads_no_secrets c a : row_ok c = true → reads_in (λ r, rd_resource r ≠ "secrets") (run e (c_run c) a).
Proof.
  intros Hok. pose proof (row_spec c Hok) as Hrow. unfold run.
  destruct (runRollout_reads a) as [Hst Hhist]. pose proof (runLogs_reads a) as Hlogs.
  destruct (agent_reads (λ r, rd_resource r ≠ "secrets") a) as [Hgate Hwhy].
  pose proof (agentOf_reads (λ r, rd_resource r ≠ "secrets")) as Hag.
  assert (Hcl : ∀ r, rd_resource r ∈ cluster_resources → rd_resource r ≠ "secrets").
  { unfold cluster_resources. intros r Hin Heq. rewrite Heq in Hin. set_solver. }
  assert (Hat : ∀ A (m : reader A), reads_in (at_ns a) m → reads_in (λ r, rd_resource r ≠ "secrets") m).
  { intros A m Hm. eapply Forall_impl; [exact Hm|]. intros r [?|[_ ?]]; auto. }
  assert (Hns : reads_in (λ r, rd_resource r ≠ "secrets") (namespaces e a))
    by (unfold namespaces; destruct (negb _);
        [apply reads_answer|apply reads_then; [by apply reads_ask|intros; apply reads_answer]]).
  destruct (c_run c) as [k|d| | | | | | | | | | |]; auto.
  - destruct Hrow as (Hk & _). apply andb_true_iff in Hk as [_ Hk]. apply negb_true_iff, str_eqb_ne in Hk.
    unfold runList. apply reads_then; [destruct (k_cluster k); [constructor|done]|]. intros nss.
    apply reads_then; [by apply list_all_reads|]. intros rows. cbn zeta.
    repeat case_match; constructor.
  - destruct Hrow as (Hd & _). eapply Forall_impl; [exact (runDescribe_reads d a Hd)|].
    intros r [?|(_ & _ & ?)]; auto.
  - unfold runEvents. destruct (if str_eqb _ _ then _ else _) as [[kind name]|]; [|constructor].
    apply reads_then; [done|]. intros nss. apply reads_then; [by apply list_events_reads|].
    intros evs. destruct (bool_decide _); constructor.
  - by apply runCanI_reads.
  - apply reads_then; [done|intros; constructor].
  - apply reads_then; [done|intros; constructor].
  - by apply reads_ask.
  - constructor.
Qed.

(** Secrets are never read, whatever the command line. *)
Theorem terminal_never_reads_secrets l : Forall (λ r, rd_resource r ≠ "secrets") (executeKubectl e l).1.
Proof.
  destruct (executeKubectl_ran l) as [(a & c & (_ & _ & Hlk & _) & -> & _)|[-> _]]; [|constructor].
  destruct (lookup_ok _ _ _ Hlk) as (_ & Hok & _). by apply run_reads_no_secrets.
Qed.

(** Only rows of the table answer or read, and only for lines that are not
    refused: the reads and the answer are then the run's own, redacted and
    cut at 256 KiB. *)
Theorem only_the_table_runs l :
  let '(reads, res) := executeKubectl e l in
  (reads = [] ∧ ∃ err, res = inr err)
  ∨ ∃ a c, ran l a c ∧ c ∈ termCommands ∧ reads = (run e (c_run c) a).1
    ∧ (∀ out, res = inl out → ∃ raw, (run e (c_run c) a).2 = inl raw ∧ out = cut_output raw
         ∧ (String.length out ≤ maxTermOutput + 27)%nat).
Proof.
  destruct (executeKubectl e l) as [reads res] eqn:He. pose proof (executeKubectl_ran l) as Hr.
  rewrite He in Hr. cbn [fst snd] in Hr. destruct Hr as [(a & c & Hran & -> & ->)|[-> [err ->]]].
  2:{ left. split; [done|by exists err]. }
  right. exists a, c. split_and!; [done| |done|].
  { destruct Hran as (_ & _ & Hlk & _). by destruct (lookup_ok _ _ _ Hlk). }
  intros out. destruct (run e (c_run c) a).2 as [raw|]; intros [= <-]. exists raw. split_and!; [done|done|].
  unfold cut_output. destruct (Nat.ltb_spec maxTermOutput (String.length (redact_String raw))); [|lia].
  rewrite str_length_app. pose proof (str_take_length maxTermOutput (redact_String raw)).
  change (String.length (nl +:+ "... output cut at 256 KiB")) with 26%nat. lia.
Qed.

(** A command of the first two refused rows is refused with its reason and
    reads nothing, whatever follows it. *)
Theorem refused_commands_read_nothing l verb more c :
  words l = verb :: more →
  c = verb ∨ (verb = "rollout" ∧ c = "rollout " +:+ first more) →
  c ∈ (take 2 neverAdded ≫= commands_of) →
  ∃ r text, r ∈ neverAdded ∧ c ∈ commands_of r
    ∧ executeKubectl e l = ([], inr (ErrNotAvailable text (rf_Why r))).
Proof.
  intros Hw Hc Hin. destruct (refused_why c Hin) as (r & Hr & Hcr & Hlk & Hne).
  unfold executeKubectl. rewrite Hw.
  assert (Hwhy : refuse verb (first more) = rf_Why r).
  { unfold refuse. destruct Hc as [<-|[-> ->]].
    - rewrite Hlk. change (default "" (Some (rf_Why r))) with (rf_Why r).
      by rewrite (proj2 (str_eqb_ne _ _) Hne).
    - replace (refusedVerbs !! "rollout") with (@None string) by (vm_compute; reflexivity).
      change (default "" None) with "". rewrite !str_eqb_refl, Hlk. cbn [negb].
      change (default "" (Some (rf_Why r))) with (rf_Why r).
      by rewrite (proj2 (str_eqb_ne _ _) Hne). }
  rewrite Hwhy. rewrite (proj2 (str_eqb_ne _ _) Hne).
  exists r. eexists. split_and!; [|done|reflexivity].
  rewrite <-(take_drop 2 neverAdded). apply elem_of_app. by left.
Qed.
End guarantees.

(** ** Witnesses, and what modelling it showed *)
Module TermDemo.
(** Objects are pairs of namespace and name; [shop] is watched. *)
#[export] Instance api : TermAPI := {|
  Obj := string * string;
  o_ns := fst; o_name := snd; o_phase _ := "Running"; o_selector _ := inl "app=web";
  o_owners _ := []; o_revision _ := (0, ""); o_involved o := ("Pod", o.2); o_times _ := mkTimes 0 0 0;
  list_objs res ns _ _ :=
    if str_eqb res "namespaces" then inl [("", "kube-system"); ("", "shop")]
    else if str_eqb res "events" then inl [] else inl [(ns, "web-0")];
  get_obj _ ns n := inl (ns, n);
  get_logs ns pod _ := inl (ns +:+ "/" +:+ pod +:+ " started");
  review _ _ _ := inl (true, ""); server_version := inl "v1.34";
  columns _ _ := (["1/1"], []); details _ o _ := "Name: " +:+ o.2 +:+ nl;
  event_cells _ := []; event_line _ := ""; progress _ := "";
  tabwriter s := s; redact_String s := s
|}.
Definition env : TermEnv := mkTermEnv true (Some (λ ns, str_eqb ns "shop")) None None.
End TermDemo.
Import TermDemo.

Example terminal_runs :
  executeKubectl env "kubectl get pods -n shop -l app=web"
    = ([mkRead DoList "pods" "shop" ""],
       inl (strings_Join ["NAME"; "READY"; "STATUS"; "RESTARTS"; "AGE"] (String "009"%char "") +:+ nl
            +:+ strings_Join ["web-0"; "1/1"] (String "009"%char "") +:+ nl))
  ∧ (executeKubectl env "get po -A").1 = [mkRead DoList "namespaces" "" ""; mkRead DoList "pods" "shop" ""]
  ∧ executeKubectl env "logs web-0 -n kube-system" = ([], inr (ErrOutsideScope "kube-system"))
  ∧ executeKubectl env "get pods --tail" = ([], inr (ErrNeedsValue "--tail"))
  ∧ executeKubectl env "describe secret db" = ([], inr (ErrNotAvailable "describe secret" why_secrets)).
Proof. split_and!; vm_compute; reflexivity. Qed.

(** [-A] passes the scope check, but only [get] and [events] expand it: the
    other commands read the namespace of [-n], watched or not. *)
Example all_namespaces_flag_leaves_the_scope :
  executeKubectl env "logs web-0 -n kube-system -A"
    = ([mkRead DoLogs "pods" "kube-system" "web-0"], inl "kube-system/web-0 started")
  ∧ (executeKubectl env "describe pod web-0 -A -n kube-system").1
    = [mkRead DoGet "pods" "kube-system" "web-0"; mkRead DoList "events" "kube-system" ""]
  ∧ allowed env "kube-system" = false.
Proof. split_and!; vm_compute; reflexivity. Qed.

Lemma terminal_reads_in_scope_witness :
  Forall (in_scope env) (executeKubectl env "get po -A").1.
Proof.
  apply (terminal_reads_in_scope env "get po -A"). intros a Ha. right. left.
  vm_compute in Ha. by injection Ha as <-.
Defined.
Lemma refused_commands_read_nothing_witness :
  ∃ r text, r ∈ neverAdded ∧ "rollout undo" ∈ commands_of r
    ∧ executeKubectl env "rollout undo deploy/web" = ([], inr (ErrNotAvailable text (rf_Why r))).
Proof.
  apply (refused_commands_read_nothing env "rollout undo deploy/web" "rollout" ["undo"; "deploy/web"] "rollout undo").
  - vm_compute. reflexivity.
  - right. split; reflexivity.
  - apply (bool_decide_unpack _). vm_compute. exact I.
Defined.
