(* ===== verification/GitopsContent.v ===== *)
(** * GitopsContent: the memory bump (internal/kube/gitops_content.go)

    The change an OOM kill proposes: a new memory limit in a Helm values
    file, or a standalone patch.  A values file is the tree yaml.v3 parses it
    to; parsing and printing YAML, and reading a Kubernetes quantity, are
    parameters.  A node is named by its path, the indexes that lead to it.
    Integers are 64 bits wide. *)
From S2P Require Import Prelude GoStd.
From Stdlib Require Import Ascii.
#[local] Open Scope Z_scope.

(** ** YAML trees *)
Inductive ykind := Document | Sequence | Mapping | Scalar | Alias.
#[export] Instance ykind_eq_dec : EqDecision ykind.
Proof. solve_decision. Defined.
Inductive ynode := YNode (kind : ykind) (value : string) (content : list ynode).
Definition y_kind (n : ynode) : ykind := match n with YNode k _ _ => k end.
Definition y_value (n : ynode) : string := match n with YNode _ v _ => v end.
Definition y_content (n : ynode) : list ynode := match n with YNode _ _ c => c end.
Definition path : Type := list nat.

Fixpoint y_at (p : path) (n : ynode) : option ynode :=
  match p with
  | [] => Some n
  | i :: p' => c ← y_content n !! i; y_at p' c
  end.
(** [node.Value = v] through the pointer [p] names. *)
Fixpoint y_set (p : path) (v : string) (n : ynode) : ynode :=
  match p with
  | [] => YNode (y_kind n) v (y_content n)
  | i :: p' => YNode (y_kind n) (y_value n) (alter (y_set p' v) i (y_content n))
  end.

(** The keys of a mapping, each with the index and node of its value:
    [Content] alternates keys and values, and a last key without a value is
    passed over. *)
Fixpoint pairs (i : nat) (c : list ynode) : list (string * (nat * ynode)) :=
  match c with
  | k :: v :: c' => (y_value k, (S i, v)) :: pairs (S (S i)) c'
  | _ => []
  end.
Definition y_pairs (n : ynode) : list (string * (nat * ynode)) :=
  if bool_decide (y_kind n = Mapping) then pairs 0 (y_content n) else [].

(** [walkMappings]: every pair of every mapping, the tree walked in order;
    the path is the value's. *)
Fixpoint walkMappings (p : path) (n : ynode) : list (string * (path * ynode)) :=
  match n with
  | YNode k v content =>
    ((λ e, (e.1, (p ++ [e.2.1], e.2.2))) <$> y_pairs n)
    ++ (fix children (i : nat) (l : list ynode) : list (string * (path * ynode)) :=
          match l with
          | [] => []
          | c :: l' => walkMappings (p ++ [i]) c ++ children (S i) l'
          end) 0%nat content
  end.
(** [mappingPath]: the last value of each key in turn. *)
Fixpoint mappingPath (keys : list string) (p : path) (n : ynode) : option (path * ynode) :=
  match keys with
  | [] => Some (p, n)
  | k :: keys' =>
    '(i, v) ← last ((λ e, e.2) <$> filter (λ e, e.1 = k) (y_pairs n));
    mappingPath keys' (p ++ [i]) v
  end.

(** ** Amounts of memory *)
Definition memoryMi (s : string) : option Z :=
  if strings_HasSuffix s "Mi"
  then v ← strconv_Atoi (strings_TrimSuffix s "Mi"); if 0 <? v then Some v else None
  else if strings_HasSuffix s "Gi"
  then v ← strconv_Atoi (strings_TrimSuffix s "Gi"); if 0 <? v then Some (wrap64 (v * 1024)) else None
  else None.
Definition roundUpNice (v : Z) : Z :=
  if v <=? 1024 then wrap64 (Z.quot (wrap64 (v + 63)) 64 * 64)
  else wrap64 (Z.quot (wrap64 (v + 255)) 256 * 256).
(** [v + v*percent/100], rounded up. *)
Definition bumped (v percent : Z) : Z :=
  roundUpNice (wrap64 (v + Z.quot (wrap64 (v * percent)) 100)).

(** ** The values file *)
Inductive bump_error :=
| ErrParse (why : string) | ErrNoLimit (workload : string) | ErrManyLimits (n : Z) (workload : string)
| ErrMemory (old : string) | ErrEncode (why : string) | ErrCurrentLimit (limit : string).

Definition bump_message (e : bump_error) : string :=
  match e with
  | ErrParse why => "parse values file: " +:+ why
  | ErrNoLimit w => "no " +:+ w +:+ ".resources.limits.memory in the values file"
  | ErrManyLimits n w => itoa n +:+ " keys named " +:+ w +:+ " hold resources.limits.memory; not guessing which"
  | ErrMemory old => "memory limit " +:+ strconv_Quote old +:+ " is not a whole number of Mi or Gi"
  | ErrEncode why => "encode values file: " +:+ why
  | ErrCurrentLimit l => "cannot read the current memory limit " +:+ strconv_Quote l
  end.

Definition memory_keys : list string := ["resources"; "limits"; "memory"].
Definition memory_hits (workload : string) (doc : ynode) : list (path * ynode) :=
  omap (λ e, if str_eqb e.1 workload
             then match mappingPath memory_keys e.2.1 e.2.2 with
                  | Some (p, m) => if bool_decide (y_kind m = Scalar) then Some (p, m) else None
                  | None => None
                  end
             else None) (walkMappings [] doc).

(** What [PatchWorkloadMemory] does to the tree: the new tree, the old value
    and the new one. *)
Definition patch_tree (doc : ynode) (workload : string) (percent : Z) : (ynode * string * string) + bump_error :=
  match memory_hits workload doc with
  | [] => inr (ErrNoLimit workload)
  | [(p, m)] =>
    match memoryMi (y_value m) with
    | None => inr (ErrMemory (y_value m))
    | Some mi => let new := itoa (bumped mi percent) +:+ "Mi" in inl (y_set p new doc, y_value m, new)
    end
  | hits => inr (ErrManyLimits (Z.of_nat (length hits)) workload)
  end.

Class YAML := {
  yaml_parse : string → ynode + string;
  yaml_encode : ynode → string + string;     (* indented by two spaces *)
  parse_quantity : string → option Z         (* in bytes, rounded up *)
}.
Definition PatchWorkloadMemory `{YAML} (content workload : string) (percent : Z)
    : (string * string) + bump_error :=
  match yaml_parse content with
  | inr e => inr (ErrParse e)
  | inl doc =>
    match patch_tree doc workload percent with
    | inr e => inr e
    | inl (doc', old, new) =>
      match yaml_encode doc' with
      | inr e => inr (ErrEncode e)
      | inl text =>
        inl (text, workload +:+ ".resources.limits.memory " +:+ old +:+ " -> " +:+ new
                   +:+ " (+" +:+ itoa percent +:+ "%)")
      end
    end
  end.

(** ** The standalone patch *)
Definition mib : Z := 1024 * 1024.
Definition deploymentName (workload : string) : string :=
  match strings_cut workload "/"%char with
  | None => workload
  | Some (kind, name) =>
    if negb (str_eqb kind "replicaset") then name
    else match strings_LastIndex name "-"%char with
         | Some idx =>
           let suffix := str_drop (S idx) name in
           if (0 <? Z.of_nat idx) && (5 <=? str_len suffix) && (str_len suffix <=? 10)
           then str_take idx name else name
         | None => name
         end
  end.
(** The new limit, in Mi. *)
Definition standalone_limit (bytes percent : Z) : Z :=
  bumped (Z.quot (wrap64 (bytes + mib - 1)) mib) percent.
Definition GenerateMemoryBumpContent `{YAML} (ns workload container currentLimit : string) (percent : Z)
    : (string * string) + bump_error :=
  match parse_quantity (strings_TrimSpace currentLimit) with
  | Some bytes =>
    if 0 <? bytes then
      let newMi := standalone_limit bytes percent in
      inl (strings_Join [
        "# Auto-generated by auto-agent";
        "# Bumps memory limit for " +:+ ns +:+ "/" +:+ workload +:+ " container " +:+ container +:+ " by " +:+ itoa percent +:+ "%";
        "apiVersion: apps/v1"; "kind: Deployment"; "metadata:";
        "  name: " +:+ deploymentName workload;
        "  namespace: " +:+ ns; "spec:"; "  template:"; "    spec:"; "      containers:";
        "        - name: " +:+ container; "          resources:"; "            limits:";
        "              memory: " +:+ dq +:+ itoa newMi +:+ "Mi" +:+ dq; ""] nl,
        currentLimit +:+ " -> " +:+ itoa newMi +:+ "Mi (+" +:+ itoa percent +:+ "%)")
    else inr (ErrCurrentLimit currentLimit)
  | None => inr (ErrCurrentLimit currentLimit)
  end.

(** ** Only one value changes *)
Definition ynode_rect' (P : ynode → Prop) (step : ∀ k v c, Forall P c → P (YNode k v c)) : ∀ n, P n :=
  fix go n := match n with
              | YNode k v c => step k v c ((fix all l : Forall P l :=
                  match l with [] => Forall_nil_2 P | x :: l' => Forall_cons_2 P x l' (go x) (all l') end) c)
              end.

(** Kind and value of the node at a path. *)
Definition y_label (q : path) (n : ynode) : option (ykind * string) := (λ m, (y_kind m, y_value m)) <$> y_at q n.

Lemma y_label_set p q v n :
  is_Some (y_at p n) →
  y_label q (y_set p v n) = if bool_decide (q = p) then (λ l, (l.1, v)) <$> y_label q n else y_label q n.
Proof.
  revert q n. induction p as [|i p IH]; intros q n Hp; unfold y_label in *.
  - destruct q as [|j q]; [done|]. by destruct n.
  - destruct q as [|j q]; [by destruct n|]. cbn [y_set y_at y_content] in *.
    destruct (y_content n !! i) as [c|] eqn:Hc; [|by destruct Hp]. cbn in Hp.
    destruct (decide (j = i)) as [->|Hne].
    + rewrite list_lookup_alter_eq, Hc. cbn. rewrite IH by done.
      by rewrite (bool_decide_ext (i :: q = i :: p) (q = p)) by naive_solver.
    + rewrite list_lookup_alter_ne, (bool_decide_false (j :: q = i :: p)) by congruence. done.
Qed.

Lemma pairs_at i c e : e ∈ pairs i c → ∃ j, e.2.1 = (i + j)%nat ∧ c !! j = Some e.2.2.
Proof.
  revert i. remember (length c) as n eqn:Hn. revert c Hn. induction n as [n IH] using lt_wf_ind.
  intros [|k [|v c]] Hn i; cbn [pairs]; [intros ?%elem_of_nil; done..|].
  intros [->|He]%elem_of_cons; [exists 1%nat; split; [cbn; lia|done]|].
  destruct (IH (length c) ltac:(cbn in Hn; lia) c eq_refl _ He) as (j & Hj & Hl).
  exists (2 + j)%nat. split; [lia|done].
Qed.
Lemma y_pairs_at n e : e ∈ y_pairs n → y_content n !! e.2.1 = Some e.2.2.
Proof.
  unfold y_pairs. destruct (bool_decide _); [|by intros ?%elem_of_nil].
  intros (j & Hj & Hl)%pairs_at. by rewrite Hj.
Qed.
Lemma walkMappings_at n : ∀ p e, e ∈ walkMappings p n → ∃ q, e.2.1 = p ++ q ∧ y_at q n = Some e.2.2.
Proof.
  induction n as [k v c IH] using ynode_rect'. intros p e. cbn [walkMappings].
  rewrite elem_of_app. intros [(x & -> & Hx)%list_elem_of_fmap|He].
  { exists [x.2.1]. cbn. pose proof (y_pairs_at _ _ Hx) as Hy. cbn in Hy. by rewrite Hy. }
  assert (∃ i cn, c !! i = Some cn ∧ e ∈ walkMappings (p ++ [i]) cn) as (i & cn & Hi & Hin).
  { assert (Hgen : ∀ l base, (∀ j x, l !! j = Some x → c !! (base + j)%nat = Some x) →
      e ∈ (fix children i l := match l with [] => [] | c :: l' => walkMappings (p ++ [i]) c ++ children (S i) l' end) base l →
      ∃ i cn, c !! i = Some cn ∧ e ∈ walkMappings (p ++ [i]) cn).
    { induction l as [|x l IHl]; intros base Hl He'; [by apply elem_of_nil in He'|].
      apply elem_of_app in He' as [He'|He'].
      - exists base, x. split; [|done]. rewrite <-(Nat.add_0_r base). by apply Hl.
      - apply (IHl (S base)); [|done]. intros j y Hy. rewrite Nat.add_succ_comm. by apply Hl. }
    by apply (Hgen c 0%nat). }
  destruct (proj1 (Forall_lookup _ _) IH i cn Hi (p ++ [i]) e Hin) as (q & Hq & Hat).
  exists (i :: q). rewrite Hq, <-app_assoc. split; [done|]. cbn. by rewrite Hi.
Qed.
Lemma mappingPath_at keys p n q m :
  mappingPath keys p n = Some (q, m) → ∃ s, q = p ++ s ∧ y_at s n = Some m.
Proof.
  revert p n. induction keys as [|k keys IH]; intros p n; cbn [mappingPath].
  { intros [= <- <-]. exists []. by rewrite app_nil_r. }
  intros ([i v] & Hl & Hm)%bind_Some. destruct (IH _ _ Hm) as (s & -> & Hs).
  assert (y_content n !! i = Some v) as Hi.
  { apply last_Some_elem_of, list_elem_of_fmap in Hl as (e & He & [_ Hin]%list_elem_of_filter).
    apply y_pairs_at in Hin. by rewrite <-He in Hin. }
  exists (i :: s). rewrite <-app_assoc. split; [done|]. cbn. by rewrite Hi.
Qed.
Lemma memory_hits_at workload doc p m : (p, m) ∈ memory_hits workload doc → y_at p doc = Some m ∧ y_kind m = Scalar.
Proof.
  intros ([k [q v]] & Hin & He)%list_elem_of_omap. cbn [fst snd] in He.
  destruct (str_eqb k workload); [|done]. destruct (mappingPath memory_keys q v) as [[p' m']|] eqn:Hm; [|done].
  case_bool_decide as Hk; [|done]. injection He as <- <-. split; [|done].
  destruct (walkMappings_at _ _ _ Hin) as (s & Hs & Hat). cbn in Hs, Hat. subst s.
  destruct (mappingPath_at _ _ _ _ _ Hm) as (t & -> & Ht). clear -Hat Ht.
  revert doc Hat. induction q as [|i q IH]; intros doc; cbn; [by intros [= ->]|].
  intros (c & Hc & Hq)%bind_Some. rewrite Hc. by apply IH.
Qed.

(** ** The new limit *)
Lemma roundUpNice_spec v :
  0 ≤ v ≤ 2 ^ 62 → v ≤ roundUpNice v < v + 256 ∧ roundUpNice v mod 64 = 0.
Proof.
  intros Hv. unfold roundUpNice.
  assert (Hr : ∀ k d, k = 64 ∧ d = 63 ∨ k = 256 ∧ d = 255 →
    let r := wrap64 (Z.quot (wrap64 (v + d)) k * k) in v ≤ r < v + k ∧ r = (v + d) / k * k).
  { intros k d Hk. rewrite (wrap64_id (v + d)) by (unfold int64_ok; lia).
    rewrite Z.quot_div_nonneg by lia.
    pose proof (Z.div_mod (v + d) k ltac:(lia)). pose proof (Z.mod_pos_bound (v + d) k ltac:(lia)).
    rewrite wrap64_id by (unfold int64_ok; nia). split; [|done]. nia. }
  destruct (Z.leb_spec v 1024).
  - destruct (Hr 64 63) as [Hb He]; [auto|]. split; [lia|]. rewrite He. apply Z.mod_mul. lia.
  - destruct (Hr 256 255) as [Hb He]; [auto|]. split; [lia|]. rewrite He.
    replace ((v + 255) / 256 * 256) with ((v + 255) / 256 * 4 * 64) by lia. apply Z.mod_mul. lia.
Qed.
Lemma bumped_spec v percent :
  0 < v ≤ 2 ^ 40 → 0 ≤ percent ≤ 2 ^ 20 →
  let want := v + v * percent / 100 in want ≤ bumped v percent < want + 256 ∧ bumped v percent mod 64 = 0.
Proof.
  intros Hv Hp. unfold bumped.
  assert (0 ≤ v * percent ≤ 2 ^ 60) by nia.
  rewrite (wrap64_id (v * percent)) by (unfold int64_ok; lia). rewrite Z.quot_div_nonneg by lia.
  assert (0 ≤ v * percent / 100 ≤ v * percent) as Hd.
  { split; [apply Z.div_pos; lia|]. apply Z.div_le_upper_bound; lia. }
  rewrite wrap64_id by (unfold int64_ok; lia). apply roundUpNice_spec. lia.
Qed.

(** A printed number reads back. *)
Lemma digit_val_char x : (x < 10)%N → digit_val (pretty_N_char x) = Some (Z.of_N x).
Proof.
  intros Hx. assert (Hall : Forall (λ x, digit_val (pretty_N_char x) = Some (Z.of_N x))
    [0; 1; 2; 3; 4; 5; 6; 7; 8; 9]%N) by (repeat constructor).
  rewrite Forall_forall in Hall. apply Hall. rewrite !elem_of_cons. lia.
Qed.

Lemma digits_val_pretty x : ∀ s, digits_val (pretty_N_go x s) 0 = digits_val s (Z.of_N x).
Proof.
  induction (N.lt_wf_0 x) as [x _ IH]; intros s.
  destruct (decide (x = 0%N)) as [->|Hx]; [done|].
  rewrite pretty_N_go_step by lia. rewrite IH by (apply N.div_lt; lia). cbn [digits_val].
  assert (x `mod` 10 < 10)%N by (apply N.mod_lt; lia).
  rewrite digit_val_char by done. f_equal.
  pose proof (N.div_mod x 10 ltac:(lia)). lia.
Qed.
Lemma itoa_head z : 0 < z → ∃ c s, itoa z = String c s ∧ digit_val c ≠ None.
Proof.
  intros Hz. destruct z as [|p|p]; try lia. change (itoa (Z.pos p)) with (pretty_N_go (N.pos p) "").
  assert (Hgen : ∀ x s, (0 < x)%N → ∃ c t, pretty_N_go x s = String c t ∧ digit_val c ≠ None).
  { intros x. induction (N.lt_wf_0 x) as [x _ IH]; intros s Hx. rewrite pretty_N_go_step by done.
    assert (x `mod` 10 < 10)%N by (apply N.mod_lt; lia).
    destruct (decide (x `div` 10 = 0)%N) as [->|Hd].
    - rewrite pretty_N_go_0. eexists _, _. split; [done|]. by rewrite digit_val_char.
    - apply (IH (x `div` 10)%N); [apply N.div_lt; lia|]. apply N.neq_0_lt_0, Hd. }
  by apply Hgen.
Qed.
Lemma Atoi_itoa z : 0 < z ≤ max_int64 → strconv_Atoi (itoa z) = Some z.
Proof.
  intros Hz. unfold strconv_Atoi. destruct (itoa_head z) as (c & s & Hi & Hc); [lia|].
  assert (Hu : unsigned_val (itoa z) = Some z).
  { unfold unsigned_val. rewrite Hi, <-Hi. destruct z as [|p|p]; try lia.
    change (itoa (Z.pos p)) with (pretty_N_go (N.pos p) ""). by rewrite digits_val_pretty. }
  rewrite Hi in *. assert (c ≠ "-"%char ∧ c ≠ "+"%char) as [Hm Hp] by (split; intros ->; by apply Hc).
  assert ((match String c s with String "-" s' => Z.opp <$> unsigned_val s' | String "+" s' => unsigned_val s'
           | _ => unsigned_val (String c s) end) = Some z) as ->.
  { rewrite Hu. destruct c as [[] [] [] [] [] [] [] []]; try done. }
  destruct (Z.leb_spec min_int64 z), (Z.leb_spec z max_int64); unfold min_int64 in *; try lia. done.
Qed.
Lemma memoryMi_itoa n : 0 < n ≤ max_int64 → memoryMi (itoa n +:+ "Mi") = Some n.
Proof.
  intros Hn. unfold memoryMi. rewrite strings_HasSuffix_app, strings_TrimSuffix_app, Atoi_itoa by done.
  cbn. by destruct (Z.ltb_spec 0 n); [|lia].
Qed.

(** C40: A values file is patched at one place only: exactly one limit lies at
    resources.limits.memory of a key named after the workload, only its value
    changes, and the new value reads back as the bumped limit, at least the
    percentage above the old one and less than 256 Mi more, a multiple of
    64. *)
Theorem patch_raises_one_limit doc workload percent doc' old new :
  patch_tree doc workload percent = inl (doc', old, new) →
  ∃ p mi n, (∃ m, memory_hits workload doc = [(p, m)]) ∧ memoryMi old = Some mi
    ∧ y_label p doc = Some (Scalar, old) ∧ y_label p doc' = Some (Scalar, new)
    ∧ (∀ q, q ≠ p → y_label q doc' = y_label q doc)
    ∧ (0 < mi ≤ 2 ^ 40 → 0 ≤ percent ≤ 2 ^ 20 →
       memoryMi new = Some n ∧ n mod 64 = 0
       ∧ mi + mi * percent / 100 ≤ n < mi + mi * percent / 100 + 256).
Proof.
  unfold patch_tree. destruct (memory_hits workload doc) as [|[p m] [|??]] eqn:Hh; [done| |done].
  destruct (memoryMi (y_value m)) as [mi|] eqn:Hmi; [|done]. intros [= <- <- <-].
  destruct (memory_hits_at workload doc p m) as [Hat Hk]; [rewrite Hh; left|].
  assert (Hlab : y_label p doc = Some (Scalar, y_value m)) by (unfold y_label; by rewrite Hat, <-Hk).
  exists p, mi, (bumped mi percent). split_and!; [by exists m|done|done| | |].
  - rewrite y_label_set by (by rewrite Hat). by rewrite bool_decide_true, Hlab.
  - intros q Hq. rewrite y_label_set by (by rewrite Hat). by rewrite bool_decide_false.
  - intros Hv Hp. destruct (bumped_spec mi percent Hv Hp) as [Hb Hm].
    assert (0 ≤ mi * percent / 100 ≤ 2 ^ 60).
    { split; [apply Z.div_pos; nia|]. apply Z.div_le_upper_bound; nia. }
    split_and!; [|done|lia|lia]. apply memoryMi_itoa. unfold max_int64. lia.
Qed.

(** The standalone patch never asks for less than the current limit and the
    percentage. *)
Lemma standalone_limit_raises bytes percent :
  0 < bytes ≤ 2 ^ 60 → 0 ≤ percent ≤ 2 ^ 20 →
  bytes ≤ standalone_limit bytes percent * mib
  ∧ bytes * (100 + percent) < (standalone_limit bytes percent + 1) * mib * 100.
Proof.
  intros Hb Hp. unfold standalone_limit.
  assert (mib = 2 ^ 20) as Hmib by reflexivity. rewrite wrap64_id by (unfold int64_ok; lia).
  rewrite Z.quot_div_nonneg by lia. set (v := (bytes + mib - 1) / mib).
  pose proof (Z.div_mod (bytes + mib - 1) mib ltac:(lia)) as Hd.
  pose proof (Z.mod_pos_bound (bytes + mib - 1) mib ltac:(lia)) as Hm. fold v in Hd.
  assert (0 < v ≤ 2 ^ 40) by nia. clearbody v.
  destruct (bumped_spec v percent ltac:(lia) Hp) as [[Hlo _] _].
  pose proof (Z.div_mod (v * percent) 100 ltac:(lia)). pose proof (Z.mod_pos_bound (v * percent) 100 ltac:(lia)).
  set (n := bumped v percent) in *. clearbody n. set (d := v * percent / 100) in *. clearbody d.
  assert (0 ≤ d) by nia. split; [nia|].
  assert (v * (100 + percent) < (n + 1) * 100) by lia.
  assert (bytes * (100 + percent) ≤ v * mib * (100 + percent)) by nia. nia.
Qed.

(** ** Witness *)
Module GitopsDemo.
Definition scalar (v : string) : ynode := YNode Scalar v [].
Definition map (l : list (string * ynode)) : ynode := YNode Mapping "" (flat_map (λ e, [scalar e.1; e.2]) l).
Definition service (limit : string) : ynode :=
  map [("image", scalar "web:1"); ("resources", map [("limits", map [("cpu", scalar "1"); ("memory", scalar limit)])])].
Definition values : ynode := YNode Document "" [map [("web", service "512Mi"); ("api", service "1Gi")]].
End GitopsDemo.

Example patch_runs :
  patch_tree GitopsDemo.values "api" 20 = inl (y_set [0; 3; 3; 1; 3]%nat "1280Mi" GitopsDemo.values, "1Gi", "1280Mi")
  ∧ patch_tree GitopsDemo.values "db" 20 = inr (ErrNoLimit "db")
  ∧ patch_tree (YNode Sequence "" [GitopsDemo.values; GitopsDemo.values]) "web" 20 = inr (ErrManyLimits 2 "web")
  ∧ deploymentName "replicaset/web-8446f784fd" = "web" ∧ deploymentName "deployment/order-service" = "order-service".
Proof. split_and!; vm_compute; reflexivity. Qed.

Lemma patch_raises_one_limit_witness :
  ∃ p mi n, (∃ m, memory_hits "web" GitopsDemo.values = [(p, m)]) ∧ memoryMi "512Mi" = Some mi
    ∧ y_label p GitopsDemo.values = Some (Scalar, "512Mi")
    ∧ y_label p (y_set [0; 1; 3; 1; 3]%nat "640Mi" GitopsDemo.values) = Some (Scalar, "640Mi")
    ∧ (∀ q, q ≠ p → y_label q (y_set [0; 1; 3; 1; 3]%nat "640Mi" GitopsDemo.values) = y_label q GitopsDemo.values)
    ∧ (0 < mi ≤ 2 ^ 40 → 0 ≤ 20 ≤ 2 ^ 20 →
       memoryMi "640Mi" = Some n ∧ n mod 64 = 0 ∧ mi + mi * 20 / 100 ≤ n < mi + mi * 20 / 100 + 256).
Proof. apply (patch_raises_one_limit GitopsDemo.values "web" 20). vm_compute. reflexivity. Defined.
