(* ===== verification/Scheduling.v ===== *)
(** * Scheduling: why the scheduler placed no pod (internal/kube/scheduling.go)

    The message of a FailedScheduling event is read into one cause per
    reason; splitting it loses nothing. *)
From S2P Require Import Prelude GoStd.
From Stdlib Require Import Ascii.
#[local] Open Scope Z_scope.

(** [Nodes] is 0 when the message states no count. *)
Record schedCause := mkSchedCause { sc_Kind : string; sc_Nodes : Z; sc_Text : string }.

Definition schedKinds : list (string * string) := [
  ("taint", "taint"); ("topology spread", "topology"); ("volume node affinity", "volume");
  ("affinity", "affinity"); ("node selector", "affinity"); ("Insufficient", "resources");
  ("Too many pods", "resources"); ("PersistentVolumeClaim", "volume");
  ("persistentvolumeclaim", "volume")].
Definition kind_of (text : string) : string :=
  match filter (λ k, strings_Contains text k.1 = true) schedKinds with
  | k :: _ => k.2
  | [] => "other"
  end.

Fixpoint span_digits (s : string) : string * string :=
  match s with
  | String c s' => match digit_val c with
                   | Some _ => let r := span_digits s' in (String c r.1, r.2)
                   | None => ("", s)
                   end
  | EmptyString => ("", "")
  end.
Definition cut_prefix (s p : string) : option string :=
  if strings_HasPrefix s p then Some (str_drop (String.length p) s) else None.
(** The expression [^(\d+) (?:node\(s\)|nodes?) ]: the count, and what
    follows the match. *)
Definition nodeCountPrefix (s : string) : option (string * string) :=
  let '(digits, rest) := span_digits s in
  if str_eqb digits "" then None
  else match omap (cut_prefix rest) [" node(s) "; " nodes "; " node "] with
       | after :: _ => Some (digits, after)
       | [] => None
       end.

(** Split at commas outside braces; [cur] is the piece so far. *)
Fixpoint split_top (depth : nat) (cur s : string) : list string :=
  match s with
  | EmptyString => [cur]
  | String c s' =>
    let cur' := cur +:+ String c "" in
    if bool_decide (c = "{"%char) then split_top (S depth) cur' s'
    else if bool_decide (c = "}"%char) then split_top (pred depth) cur' s'
    else if bool_decide (c = ","%char ∧ depth = O) then cur :: split_top O "" s'
    else split_top depth cur' s'
  end.
Definition splitTopLevel (s : string) : list string := split_top O "" s.

(** The cause one part of the message tells. *)
Definition cause_of (part : string) : schedCause :=
  let '(nodes, text) :=
    match nodeCountPrefix part with
    | Some (digits, after) => (default 0 (strconv_Atoi digits), strings_TrimSpace after)
    | None =>
      match strings_cut part " "%char with
      | Some (n, rest) => match strconv_Atoi n with Some v => (v, rest) | None => (0, part) end
      | None => (0, part)
      end
    end in
  mkSchedCause (kind_of text) nodes text.
Definition failure_body (msg : string) : string :=
  let body := match strings_Index msg " preemption:" with Some i => str_take i msg | None => msg end in
  let body := match strings_CutS body "available: " with Some (_, b) => b | None => body end in
  strings_TrimSuffix (strings_TrimSpace body) ".".
Definition parseSchedulingFailure (msg : string) : list schedCause :=
  let body := failure_body msg in
  if str_eqb body "" then []
  else omap (λ part, let part := strings_TrimSpace part in
                     if str_eqb part "" then None else Some (cause_of part)) (splitTopLevel body).

Definition schedFix (kind : string) : string :=
  if str_eqb kind "taint" then
    "add a matching toleration to the pod, or remove the taint from nodes meant to run it"
  else if str_eqb kind "affinity" then
    "check nodeSelector and node or pod affinity against the labels nodes actually carry"
  else if str_eqb kind "resources" then
    "lower the pod's requests, free capacity, or add nodes (cluster autoscaler or node pool size)"
  else if str_eqb kind "volume" then
    "bind the PersistentVolumeClaim first; a zonal volume also needs a node in its zone"
  else if str_eqb kind "topology" then
    "the spread constraint cannot be met with the current nodes; relax maxSkew, use whenUnsatisfiable: ScheduleAnyway, or add nodes in the missing domain"
  else "read the scheduler message above; describe the pod for the full event".

Example parse_runs :
  parseSchedulingFailure
    "0/4 nodes are available: 1 node(s) had untolerated taint {a: b, c: d}, 2 Insufficient cpu, 1 Too many pods. preemption: 0/4 nodes are available: 4 No preemption victims found."
  = [mkSchedCause "taint" 1 "had untolerated taint {a: b, c: d}"; mkSchedCause "resources" 2 "Insufficient cpu";
     mkSchedCause "resources" 1 "Too many pods"]
  ∧ parseSchedulingFailure "pod has unbound immediate PersistentVolumeClaims."
    = [mkSchedCause "volume" 0 "pod has unbound immediate PersistentVolumeClaims"].
Proof. split; vm_compute; reflexivity. Qed.

(** The pieces, joined again, are the text. *)
Lemma split_top_cons d cur s : ∃ w ws, split_top d cur s = w :: ws.
Proof.
  revert d cur. induction s as [|c s IH]; intros d cur; cbn [split_top]; [by eexists _, _|].
  repeat case_bool_decide; eauto.
Qed.
Lemma join_cons x l sep :
  l ≠ [] → strings_Join (x :: l) sep = x +:+ sep +:+ strings_Join l sep.
Proof.
  intros Hl. destruct l as [|y l]; [done|]. clear Hl. unfold strings_Join. cbn [foldl].
  assert (Hf : ∀ l a b, foldl (λ acc y, acc +:+ sep +:+ y) (a +:+ b) l
                        = a +:+ foldl (λ acc y, acc +:+ sep +:+ y) b l).
  { clear. induction l as [|z l IH]; intros a b; [done|]. cbn [foldl]. by rewrite str_app_assoc, IH. }
  by rewrite !Hf.
Qed.
Lemma splitTopLevel_join s : strings_Join (splitTopLevel s) "," = s.
Proof.
  unfold splitTopLevel. assert (Hg : ∀ d cur, strings_Join (split_top d cur s) "," = cur +:+ s).
  { induction s as [|c s IH]; intros d cur; cbn [split_top]; [by rewrite str_app_nil_r|].
    case_bool_decide; [by rewrite IH, str_app_assoc|].
    case_bool_decide; [by rewrite IH, str_app_assoc|].
    case_bool_decide as Hc; [|by rewrite IH, str_app_assoc].
    destruct Hc as [-> _]. destruct (split_top_cons 0 "" s) as (w & ws & Hs).
    rewrite join_cons by (by rewrite Hs). by rewrite IH. }
  apply (Hg O "").
Qed.
