(* ===== verification/Nodes.v ===== *)
(** * Nodes: node pressure (internal/kube/nodes.go)

    The agent acts on the node it runs on, and on no other: under memory or
    disk pressure it cordons the node and evicts what may be evicted, each
    change a gate call of its own; when the pressure is gone it uncordons the
    node if the cordon is its own.  The reads and writes of the API server
    are a parameter ([NodeAPI]). *)
From S2P Require Import Prelude GoStd Policy RateLimit Guards Events Escalation Gate Kube Findings.
#[local] Open Scope Z_scope.
#[local] Open Scope agent_scope.

Record NodeCondition := mkNodeCondition {
  nc_Type : string; nc_Status : string; nc_Reason : string; nc_Message : string; nc_Transition : Time
}.
Record Node := mkNode {
  n_Name : string; n_Unschedulable : bool; n_Annotations : gmap string string;
  n_Conditions : list NodeCondition; n_Kubelet : string; n_OSImage : string
}.

(** [patch_node name unschedulable mark]: the merge patch of the cordon and
    of its annotation, set or removed.  [evict] fails with whether a
    disruption budget refused (429), and the error. *)
Class NodeAPI (C : Type) := {
  patch_node : string → bool → option string → C → C * option string;
  pods_on_node : string → C → list Pod + string;
  evict_pod : string → string → C → C * option (bool * string)
}.

(** ** What the watcher compares *)
Definition conditionStatus (n : Node) (t : string) : string :=
  match filter (λ c, nc_Type c = t) (n_Conditions n) with
  | c :: _ => nc_Status c
  | [] => "Unknown"
  end.
Definition pressureChanged (old new : Node) : bool :=
  negb (str_eqb (conditionStatus old "MemoryPressure") (conditionStatus new "MemoryPressure"))
  || negb (str_eqb (conditionStatus old "DiskPressure") (conditionStatus new "DiskPressure")).

Definition cordonedAnnotation : string := "auto-agent.io/cordoned".
Definition under (pressure : string) (n : Node) : bool :=
  existsb (λ c, str_eqb (nc_Type c) pressure && str_eqb (nc_Status c) "True") (n_Conditions n).
(** The node's cordon is the agent's. *)
Definition our_cordon (n : Node) : bool :=
  n_Unschedulable n && bool_decide (n_Annotations n !! cordonedAnnotation = Some "true").
Definition bool_text (b : bool) : string := if b then "true" else "false".

Section nodes.
Context {C : Type} `{!NodeAPI C} (env : Env).
Abbreviation M := (st (GState C)).
Abbreviation pol := (env_Policy env).

Definition node_mutation (n : Node) (reason action success suggest : string)
    (apply : C → C * option string) : mutation C :=
  mkMutation C "" (n_Name n) "" None reason action success suggest apply "" None false.
Definition uncordon (n : Node) : mutation C :=
  node_mutation n "NodePressureResolved" "uncordon_node" "uncordoned node" "uncordon node"
    (patch_node (n_Name n) false None).
Definition cordon (n : Node) : mutation C :=
  node_mutation n "NodePressure" "cordon_node" "cordoned node (marked unschedulable)" "cordon node"
    (patch_node (n_Name n) true (Some "true")).
Definition eviction (p : Pod) : mutation C :=
  mkMutation C (p_Namespace p) (ownerName p) (p_Name p) (pod_labels p) "NodePressure" "evict_pod"
    "evicted pod" "evict pod"
    (λ c, let r := evict_pod (p_Namespace p) (p_Name p) c in (r.1, snd <$> r.2)) "" None false.

Definition evictable (p : Pod) : bool :=
  Fixable pol (p_Namespace p) && negb (isCriticalPod p) && negb (isStatefulSetPod p).

(** The counts of the loop: evicted, simulated, refused. *)
Record tally := mkTally { ta_evicted : Z; ta_simulated : Z; ta_refused : Z }.
(** A refusal is counted where [Apply] ran: on the cluster the call found. *)
Definition count_eviction (o : gateOutcome) (err : option (bool * string)) (t : tally) : tally :=
  let refused := match o, err with
                 | gateFailed, Some (true, _) => 1
                 | _, _ => 0
                 end in
  mkTally (ta_evicted t + if bool_decide (o = gateApplied) then 1 else 0)
          (ta_simulated t + if bool_decide (o = gateSimulated) then 1 else 0)
          (ta_refused t + refused).
(** The loop stops at the first eviction the guardrails block. *)
Fixpoint evict_all (pods : list Pod) (t : tally) : M (tally * string) :=
  match pods with
  | [] => return! (t, "")
  | p :: pods' =>
    if negb (evictable p) then evict_all pods' t
    else
    let! s := st_get in
    let! r := applyMutation env (eviction p) in
    let t := count_eviction r.1 (evict_pod (p_Namespace p) (p_Name p) (gs_cluster s)).2 t in
    if bool_decide (r.1 = gateBlocked) then return! (t, r.2) else evict_all pods' t
  end.
Definition tally_text (t : tally) : string :=
  (if 0 <? ta_refused t
   then "_Blocked_: " +:+ itoa (ta_refused t) +:+ " evictions refused by a PodDisruptionBudget; see PDBBlocksDisruption." +:+ nl
   else "")
  +:+ (if 0 <? ta_simulated t
       then "_DryRun_: would evict " +:+ itoa (ta_simulated t) +:+ " non-critical pods." +:+ nl else "")
  +:+ (if 0 <? ta_evicted t
       then "_Action_: evicted " +:+ itoa (ta_evicted t) +:+ " non-critical pods." +:+ nl else "").

Definition pressure_resolved (n : Node) : M unit :=
  if our_cordon n then
    let! r := applyMutation env (uncordon n) in
    if str_eqb r.2 "" then return! tt
    else postSlack ("*NodePressure resolved* on `" +:+ n_Name n +:+ "`" +:+ nl +:+ r.2)
  else return! tt.

Definition relieve (n : Node) (msg : string) : M unit :=
  let! cordoned := (if n_Unschedulable n then return! ""
                    else let! r := applyMutation env (cordon n) in return! r.2) in
  let! s := st_get in
  let! evicted := (match pods_on_node (n_Name n) (gs_cluster s) with
                   | inr _ => return! ""
                   | inl pods => let! r := evict_all pods (mkTally 0 0 0) in
                                 return! (r.2 +:+ tally_text r.1)
                   end) in
  postSlack (msg +:+ cordoned +:+ evicted).

Definition handleNodePressure (n : Node) : M unit :=
  if str_eqb (env_NodeName env) "" || negb (str_eqb (n_Name n) (env_NodeName env)) then return! tt
  else
  let memP := under "MemoryPressure" n in let diskP := under "DiskPressure" n in
  if negb (memP || diskP) then pressure_resolved n
  else
  let! ok := dedup_check env (dedupKey "" (n_Name n) "NodePressure") in
  match ok with
  | Some true =>
    let msg := "*NodePressure* detected on `" +:+ n_Name n +:+ "` (memory:" +:+ bool_text memP
      +:+ " disk:" +:+ bool_text diskP +:+ ")" +:+ nl in
    if negb (str_eqb (Mode_ pol) Fix) && negb (str_eqb (Mode_ pol) DryRun)
    then postSlack (msg +:+ "_Suggest_: cordon node and evict non-critical pods." +:+ nl)
    else relieve n msg
  | _ => return! tt
  end.
End nodes.

(** ** What it may do to the cluster *)
Definition node_apply (action : string) (n : Node) : effect := EApply action "" (n_Name n).
Definition eviction_apply (p : Pod) : effect := EApply "evict_pod" (p_Namespace p) (ownerName p).

Section node_safety.
Context {C : Type} `{!NodeAPI C} (env : Env).
Implicit Types (s : GState C).

(** [did l s s']: the changes between two states are [l], in order, and
    there are none outside fix mode. *)
Definition did (l : list effect) s s' : Prop :=
  applies (gs_trace s') = applies (gs_trace s) ++ l
  ∧ (l = [] → gs_cluster s' = gs_cluster s) ∧ (l ≠ [] → Mode_ (env_Policy env) = Fix).
Lemma did_trans l l' s1 s2 s3 : did l s1 s2 → did l' s2 s3 → did (l ++ l') s1 s3.
Proof.
  intros (H1 & H2 & H3) (H4 & H5 & H6). split_and!.
  - by rewrite H4, H1, app_assoc.
  - intros [-> ->]%app_nil. rewrite H5, H2; done.
  - destruct l; [|intros _; by apply H3]. destruct l'; [done|]. intros _. by apply H6.
Qed.
Lemma did_same s s' : same_cluster s s' → did [] s s'.
Proof. intros (Hc & Ha & _). split_and!; [by rewrite app_nil_r|done|done]. Qed.
Lemma did_tail l s1 s2 s3 : did l s1 s2 → same_cluster s2 s3 → did l s1 s3.
Proof. intros H1 H2%did_same. rewrite <-(app_nil_r l). by eapply did_trans. Qed.
Lemma gate_did (m : mutation C) s :
  let e := EApply (m_ActionType m) (m_Namespace m) (m_Workload m) in
  let s' := (applyMutation env m s).2 in
  did [] s s' ∨ did [e] s s' ∧ gs_cluster s' = (m_Apply m (gs_cluster s)).1.
Proof.
  destruct (gate_cluster env m s) as [Hc Hm]. pose proof (gate_same env m s) as Hs. unfold cluster_effect in Hc.
  destruct (applyMutation env m s) as [[o msg] s']. cbn [fst snd] in *.
  destruct o; try (left; by apply did_same, Hs);
    (right; destruct Hc as (? & ? & _), Hm as [? _]; [auto|]; by split_and!).
Qed.

Lemma evict_all_did pods t s :
  ∃ l, l `sublist_of` filter (λ p, evictable env p = true) pods
    ∧ did (eviction_apply <$> l) s (evict_all env pods t s).2.
Proof.
  revert t s. induction pods as [|p pods IH]; intros t s; cbn [evict_all].
  { exists []. split; [done|]. by apply did_same. }
  rewrite filter_cons. destruct (evictable env p); cbn [negb]; [|by apply IH].
  rewrite decide_True by done. unfold st_bind at 1, st_get. unfold st_bind at 1.
  assert (∃ k, k `sublist_of` [p] ∧ did (eviction_apply <$> k) s (applyMutation env (eviction p) s).2) as (k & Hk & Hd).
  { destruct (gate_did (eviction p) s) as [Hd|[Hd _]]; [exists []|exists [p]]; by split; [apply sublist_nil_l || done|]. }
  destruct (applyMutation env (eviction p) s) as [r s1]. cbn [fst snd] in *.
  destruct (bool_decide (r.1 = gateBlocked)).
  - exists k. split; [|done]. etrans; [exact Hk|]. apply sublist_skip, sublist_nil_l.
  - destruct (IH (count_eviction r.1 (evict_pod (p_Namespace p) (p_Name p) (gs_cluster s)).2 t) s1) as (l & Hl & Hd').
    exists (k ++ l). split; [by apply (sublist_app _ [p])|]. rewrite fmap_app. by eapply did_trans.
Qed.

Definition under_pressure (n : Node) : bool := under "MemoryPressure" n || under "DiskPressure" n.
(** What one event of node [n] may do: nothing, lift its own cordon when no
    pressure is left, or under pressure cordon the node and evict pods that
    may be evicted, of those on the node. *)
Definition node_may (n : Node) (c : C) (l : list effect) : Prop :=
  l = []
  ∨ env_NodeName env = n_Name n ∧ n_Name n ≠ ""
    ∧ (under_pressure n = false ∧ our_cordon n = true ∧ l = [node_apply "uncordon_node" n]
       ∨ under_pressure n = true ∧ ∃ cord c' all pods,
           l = cord ++ (eviction_apply <$> pods)
           ∧ (cord = [] ∧ c' = c
              ∨ n_Unschedulable n = false ∧ cord = [node_apply "cordon_node" n]
                ∧ c' = (patch_node (n_Name n) true (Some "true") c).1)
           ∧ (pods = [] ∨ pods_on_node (n_Name n) c' = inl all
                          ∧ pods `sublist_of` filter (λ p, evictable env p = true) all)).

Lemma postSlack_cluster msg : keeps (same_cluster (C := C)) (postSlack msg).
Proof. unfold postSlack. solve_keeps. Qed.
Lemma dedup_check_cluster key : keeps (same_cluster (C := C)) (dedup_check env key).
Proof. unfold dedup_check. solve_keeps. Qed.

Lemma relieve_did n msg s :
  ∃ cord pods c' all, did (cord ++ (eviction_apply <$> pods)) s (relieve env n msg s).2
    ∧ (cord = [] ∧ c' = gs_cluster s
       ∨ n_Unschedulable n = false ∧ cord = [node_apply "cordon_node" n]
         ∧ c' = (patch_node (n_Name n) true (Some "true") (gs_cluster s)).1)
    ∧ (pods = [] ∨ pods_on_node (n_Name n) c' = inl all
                   ∧ pods `sublist_of` filter (λ p, evictable env p = true) all).
Proof.
  unfold relieve. set (first := if n_Unschedulable n then _ else _).
  assert (∃ cord c', did cord s (first s).2 ∧ gs_cluster (first s).2 = c' 
    ∧ (cord = [] ∧ c' = gs_cluster s
       ∨ n_Unschedulable n = false ∧ cord = [node_apply "cordon_node" n]
         ∧ c' = (patch_node (n_Name n) true (Some "true") (gs_cluster s)).1)) as (cord & c' & Hd & Hc & Hw).
  { subst first. destruct (n_Unschedulable n); [exists [], (gs_cluster s); split_and!; [by apply did_same|done|by left]|].
    rewrite bind_answer. destruct (gate_did (cordon n) s) as [Hd|[Hd Hc]].
    - exists [], (gs_cluster s). split_and!; [done| |by left]. apply Hd. done.
    - exists [node_apply "cordon_node" n]. eexists. split_and!; [exact Hd|exact Hc|by right]. }
  unfold st_bind at 1. destruct (first s) as [t s1]. cbn [fst snd] in Hd, Hc.
  unfold st_bind at 1, st_get. rewrite Hc. destruct (pods_on_node (n_Name n) c') as [all|e] eqn:Hp.
  - unfold st_bind at 1. rewrite bind_answer. destruct (evict_all_did all (mkTally 0 0 0) s1) as (pods & Hl & Hd').
    exists cord, pods, c', all. split_and!; [|done|by right].
    eapply did_tail; [by eapply did_trans|apply postSlack_cluster].
  - exists cord, [], c', []. split_and!; [|done|by left]. rewrite app_nil_r.
    eapply did_tail; [exact Hd|apply postSlack_cluster].
Qed.
End node_safety.

Lemma node_pressure_confined' {C} `{!NodeAPI C} env n (s : GState C) :
  ∃ l, did env l s (handleNodePressure env n s).2 ∧ node_may env n (gs_cluster s) l.
Proof.
  unfold handleNodePressure. destruct (_ || _) eqn:E; [exists []; split; [by apply did_same|by left]|].
  apply orb_false_iff in E as [Hn%str_eqb_ne Heq%negb_false_iff%str_eqb_eq].
  assert (n_Name n ≠ "") as Hne by congruence.
  destruct (under "MemoryPressure" n || under "DiskPressure" n) eqn:Hp; cbn [negb].
  - apply (bind_keeps same_cluster); [apply dedup_check_cluster|]. intros ok s1 H1.
    assert (Hpre : ∀ l s', did env l s1 s' → did env l s s').
    { intros l s' Hd. rewrite <-(app_nil_l l). by eapply did_trans; [apply did_same|]. }
    destruct ok as [[]|]; try (exists []; split; [by apply did_same|by left]).
    destruct (negb _ && _).
    { exists []. split; [|by left]. apply Hpre, did_same, postSlack_cluster. }
    set (msg := _ +:+ _). destruct (relieve_did env n msg s1) as (cord & pods & c' & all & Hd & Hc & Hl).
    exists (cord ++ (eviction_apply <$> pods)). split; [by apply Hpre|]. right. split_and!; [done|done|].
    right. split; [done|]. exists cord, c', all, pods. destruct H1 as [Hc1 _]. rewrite Hc1 in Hc. by split_and!.
  - unfold pressure_resolved. destruct (our_cordon n) eqn:Ho; [|exists []; split; [by apply did_same|by left]].
    unfold st_bind at 1. destruct (gate_did env (uncordon n) s) as [Hd|[Hd _]];
      destruct (applyMutation env (uncordon n) s) as [[o msg] s1]; cbn [fst snd] in *.
    + exists []. split; [|by left]. destruct (str_eqb msg ""); [done|].
      eapply did_tail; [exact Hd|apply postSlack_cluster].
    + exists [node_apply "uncordon_node" n]. split; [|right; split_and!; [done|done|left; by split_and!]].
      destruct (str_eqb msg ""); [exact Hd|]. eapply did_tail; [exact Hd|apply postSlack_cluster].
Qed.

(** Node pressure is met on the agent's own node only, with nothing but its
    own cordon and evictions of pods of the fix scope on that node that are
    neither critical nor of a StatefulSet; when the pressure is gone only a
    cordon the agent set is lifted; outside fix mode nothing changes. *)
Theorem node_pressure_confined {C} `{!NodeAPI C} env n (s : GState C) :
  ∃ l, did env l s (handleNodePressure env n s).2 ∧ node_may env n (gs_cluster s) l.
Proof. apply node_pressure_confined'. Qed.

(** ** Evaluation *)
Module NodeDemo.
Definition pod (ns name kind prio : string) : Pod :=
  mkPod ns name name ∅ ∅ [mkOwner kind name (Some true)] 0 None [] "node-1" prio None None [] [] []
    "Running" "" "" [] [] [].
Definition pods : list Pod := [pod "shop" "web" "DaemonSet" ""; pod "shop" "db" "StatefulSet" "";
  pod "shop" "gate" "Job" "system-node-critical"; pod "dev" "tool" "Job" ""; pod "pay" "api" "Job" ""].
(** The cluster is the names of the pods; a disruption budget guards [api]. *)
#[export] Instance api : NodeAPI (list string) := {|
  patch_node _ _ _ c := (c, None);
  pods_on_node _ c := inl (filter (λ p, p_Name p ∈ c) pods);
  evict_pod ns name c := if str_eqb name "api" then (c, Some (true, "disruption budget"))
                         else (filter (λ n, n ≠ name) c, None)
|}.
Definition node (mem : string) (cordoned : bool) : Node :=
  mkNode "node-1" cordoned (if cordoned then {[ cordonedAnnotation := "true" ]} else ∅)
    [mkNodeCondition "MemoryPressure" mem "" "" 0] "" "".
Definition start : GState (list string) :=
  mkGState _ 0 (Some (NewBlastRadiusTracker GateDemo.now 9 hour)) None None
    (Some (NewActionLimiter 10 (10 * minute))) None (Some (NewDeduplicator hour)) None (p_Name <$> pods) [].
Definition run (md : Mode) (n : Node) : list string * list effect :=
  let s := (handleNodePressure (GateDemo.env md) n start).2 in (gs_cluster s, applies (gs_trace s)).
End NodeDemo.

Example node_pressure_runs :
  NodeDemo.run Fix (NodeDemo.node "True" false)
    = (["db"; "gate"; "tool"; "api"],
       [EApply "cordon_node" "" "node-1"; EApply "evict_pod" "shop" "daemonset/web"; EApply "evict_pod" "pay" "job/api"])
  ∧ NodeDemo.run Suggest (NodeDemo.node "True" false) = (p_Name <$> NodeDemo.pods, [])
  ∧ (NodeDemo.run Fix (NodeDemo.node "False" true)).2 = [EApply "uncordon_node" "" "node-1"].
Proof. split_and!; vm_compute; reflexivity. Qed.
