(* ===== verification/PodStates.v ===== *)
(** * PodStates: the pod checks of the leader (internal/kube/podstate.go)

    [CheckPodStates] reads the pods and events of the watched namespaces
    once and reports, per pod, what keeps it from running or from stopping.
    Regular expressions are written out as readers.  The maps the code
    ranges over are taken in the order of [RangeOrder]. *)
From S2P Require Import Prelude GoStd Policy RateLimit Guards Events Escalation Gate Kube.
From S2P Require Import Calendar Findings Scheduling.
From Stdlib Require Import Ascii.
#[local] Open Scope Z_scope.
#[local] Open Scope agent_scope.

Definition stuckTerminatingAfter : Duration := 5 * minute.
Definition podStuckAfter : Duration := 5 * minute.
Definition probeFailureMin : Z := 5.
Definition recentEventWindow : Duration := 10 * minute.
Definition readinessGateAfter : Duration := 10 * minute.

(** ** Events *)
Definition eventLastSeen (ev : KEvent) : Time :=
  match ke_Series ev with
  | Some (_, last) =>
    if negb (time_IsZero last) then last
    else if negb (time_IsZero (ke_LastTimestamp ev)) then ke_LastTimestamp ev
    else if negb (time_IsZero (ke_EventTime ev)) then ke_EventTime ev else ke_Creation ev
  | None =>
    if negb (time_IsZero (ke_LastTimestamp ev)) then ke_LastTimestamp ev
    else if negb (time_IsZero (ke_EventTime ev)) then ke_EventTime ev else ke_Creation ev
  end.
Definition eventCount (ev : KEvent) : Z :=
  match ke_Series ev with
  | Some (n, _) => if 0 <? n then n else if 0 <? ke_Count ev then ke_Count ev else 1
  | None => if 0 <? ke_Count ev then ke_Count ev else 1
  end.
(** ["spec.containers{app}"] is ["app"]. *)
Definition containerFromFieldPath (fp : string) : string :=
  match strings_Index fp "{" with
  | Some i => if strings_HasSuffix fp "}"
              then String.substring (S i) (String.length fp - 1 - S i) fp else "unknown"
  | None => "unknown"
  end.
Definition recent_event (now : Time) (ev : KEvent) : bool :=
  negb (recentEventWindow <? time_Sub now (eventLastSeen ev)).

Definition last_seen_le (a b : KEvent) : Prop := eventLastSeen a ≤ eventLastSeen b.
#[export] Instance last_seen_le_dec : RelDecision last_seen_le.
Proof. intros a b. unfold last_seen_le. apply _. Defined.
#[export] Instance last_seen_le_total : Total last_seen_le.
Proof. intros a b. unfold last_seen_le. lia. Qed.
#[export] Instance last_seen_le_trans : Transitive last_seen_le.
Proof. intros a b c. unfold last_seen_le. lia. Qed.

(** A map filled while its keys are kept in order of arrival: the entry of
    a key that is there is changed in place. *)
Fixpoint upsert {A} (key : string) (new : A) (f : A → A) (l : list (string * A)) : list (string * A) :=
  match l with
  | [] => [(key, new)]
  | (k, x) :: l' => if str_eqb k key then (k, f x) :: l' else (k, x) :: upsert key new f l'
  end.

(** ** Volumes *)
Record volumeFailure := mkVolumeFailure { vf_reason : string; vf_volume : string; vf_cause : string }.

(** The volume's name, between quotes after [for volume], at the first place
    there is one. *)
Fixpoint volumeInMessage (s : string) : option string :=
  let here := rest ← cut_prefix s ("for volume " +:+ dq);
              '(name, _) ← strings_CutS rest dq;
              if str_eqb name "" then None else Some name in
  match here, s with
  | Some name, _ => Some name
  | None, String _ s' => volumeInMessage s'
  | None, EmptyString => None
  end.
Definition volume_reason (reason : string) : option string :=
  if str_eqb reason "FailedAttachVolume" then Some "VolumeAttachFailed"
  else if str_eqb reason "FailedMount" then Some "VolumeMountFailed" else None.
Definition volume_event (ev : KEvent) : option (string * volumeFailure) :=
  reason ← volume_reason (ke_Reason ev);
  let vol := default "unknown" (volumeInMessage (ke_Message ev)) in
  let cause := match strings_CutS (ke_Message ev) " : " with Some (_, after) => after | None => ke_Message ev end in
  Some (reason +:+ "/" +:+ vol, mkVolumeFailure reason vol cause).
Definition volumeFailures (evs : list KEvent) : list volumeFailure :=
  (foldl (λ acc e, upsert e.1 e.2 (λ _, e.2) acc) []
     (omap volume_event (merge_sort last_seen_le evs))).*2.

(** [strings.ToLower], as far as an ASCII phrase can tell: the two
    characters beyond ASCII whose lower case is ASCII are U+212A and
    U+0130. *)
Fixpoint lower_search (s : string) : string :=
  match s with
  | String "226" (String "132" (String "170" s')) => String "k" (lower_search s')
  | String "196" (String "176" s') => String "i" (lower_search s')
  | String c s' => String (lower_ascii c) (lower_search s')
  | EmptyString => ""
  end.
Definition volumeFix (f : volumeFailure) (node : string) : string :=
  let c := lower_search (vf_cause f) in
  if strings_Contains c "multi-attach" then
    "the volume is still attached to another node; wait for the old pod there to stop, or detach the volume from that node"
  else if strings_Contains c "not found" then
    "the referenced ConfigMap, Secret or claim does not exist in this namespace; create it or fix the name in the pod spec"
  else if strings_Contains c "permission denied" then
    "the volume mounted but the process cannot use it; set securityContext.fsGroup or fix ownership on the volume"
  else if strings_Contains c "timed out" || strings_Contains c "deadline" then
    "the storage driver did not answer; check the CSI node plugin on node `" +:+ node +:+ "` and the storage backend"
  else "run `kubectl describe pod` and check the storage driver logs on the node".

(** ** Probes *)
Definition probeKind (msg : string) : option string :=
  if strings_HasPrefix msg "Liveness probe" then Some "liveness"
  else if strings_HasPrefix msg "Readiness probe" then Some "readiness"
  else if strings_HasPrefix msg "Startup probe" then Some "startup" else None.
Definition probeReason (kind : string) : string :=
  if str_eqb kind "liveness" then "LivenessProbeFailing"
  else if str_eqb kind "readiness" then "ReadinessProbeFailing" else "StartupProbeFailing".
Definition probeFix (kind : string) (timeout : Z) (hasStartup : bool) : string :=
  if str_eqb kind "liveness" then
    "the kubelet restarts the container each time this probe fails its threshold"
    +:+ (if hasStartup then ""
         else "; if the app is only slow to start, add a startupProbe (or raise initialDelaySeconds)")
    +:+ "; if it answers slowly under load, raise timeoutSeconds above " +:+ itoa timeout +:+ "s"
  else if str_eqb kind "readiness" then
    "the pod is taken out of Service endpoints while this fails; check what the endpoint depends on, or raise timeoutSeconds above "
    +:+ itoa timeout +:+ "s if responses are slow"
  else "the container is restarted when startup does not finish within failureThreshold times periodSeconds; raise failureThreshold if a slow start is expected".

Definition containerSpec (p : Pod) (cname : string) : option Container :=
  head (filter (λ c, ct_Name c = cname) (p_Containers p)).
Definition probeOf (p : Pod) (cname kind : string) : option Probe :=
  c ← containerSpec p cname;
  if str_eqb kind "liveness" then ct_Liveness c
  else if str_eqb kind "readiness" then ct_Readiness c else ct_Startup c.
Definition hasStartupProbe (p : Pod) (cname : string) : bool :=
  match containerSpec p cname with Some c => bool_decide (is_Some (ct_Startup c)) | None => false end.
Definition waits_for (reason : string) (cs : ContainerStatus) : bool :=
  match cs_Waiting cs with Some w => str_eqb (w_Reason w) reason | None => false end.
Definition crashLooping (p : Pod) (cname : string) : bool :=
  existsb (λ cs, str_eqb (cs_Name cs) cname && waits_for "CrashLoopBackOff" cs) (p_Statuses p).
Definition podCondition (p : Pod) (t : string) : option PodCondition :=
  head (filter (λ c, pc_Type c = t) (p_Conditions p)).
Definition priorityOf (p : Pod) : string :=
  if negb (str_eqb (p_PriorityClassName p) "") then p_PriorityClassName p
  else match p_Priority p with Some n => itoa n | None => "default" end.

(** The failures of one probe of one container. *)
Record probeAgg := mkAgg { ag_kind : string; ag_container : string; ag_last : string; ag_count : Z }.
Definition probe_event (now : Time) (ev : KEvent) : option (string * (string * string * KEvent)) :=
  if negb (str_eqb (ke_Reason ev) "Unhealthy") || negb (recent_event now ev) then None
  else kind ← probeKind (ke_Message ev);
       let cname := containerFromFieldPath (ke_FieldPath ev) in
       Some (kind +:+ "/" +:+ cname, (kind, cname, ev)).
(** Counts are 32 bits wide. *)
Definition probeFailures (now : Time) (evs : list KEvent) : list probeAgg :=
  (foldl (λ acc e,
     let '(key, (kind, cname, ev)) := e in
     upsert key (mkAgg kind cname (ke_Message ev) (eventCount ev))
       (λ a, mkAgg (ag_kind a) (ag_container a) (ke_Message ev) (wrap32 (ag_count a + eventCount ev))) acc)
     [] (omap (probe_event now) evs)).*2.

(** ** The checks *)
Definition now_text (d : Duration) : string := dur_String_seconds (dur_Round_second d).

(** The reads of a namespace. *)
Class PodReads (C : Type) := {
  pods_in : string → C → list Pod + string;
  events_in : string → C → list KEvent + string;
  namespaces_of : C → option (list string)
}.
Record nsPods := mkNsPods { np_ns : string; np_pods : list Pod; np_events : gmap string (list KEvent) }.
Definition events_by_pod (evs : list KEvent) : gmap string (list KEvent) :=
  foldl (λ m ev, if str_eqb (ke_Kind ev) "Pod"
                 then <[ke_Name ev := default [] (m !! ke_Name ev) ++ [ev]]> m else m) ∅ evs.

Section checks.
Context {C : Type} `{!PodReads C, !RangeOrder} (env : Env) (now : Time).
Abbreviation M := (st (GState C)).

Definition guided (reason : string) (p : Pod) (node sev subject summary : string)
    (details : list string) (fix_ : string) : finding C :=
  mkFinding C reason (p_Namespace p) (ownerName p) (p_Name p) node sev RungGuided None None
    summary details fix_ subject "".
Definition tell_finding (f : finding C) : M unit := let! _ := report env f in return! tt.

(** What each check finds of a pod. *)
Definition stuckTerminating (p : Pod) : option (finding C) :=
  dt ← p_Deletion p;
  if time_Sub now dt <? stuckTerminatingAfter then None
  else
    let details :=
      ["Deletion was due at " +:+ format_RFC3339 dt +:+ ", " +:+ now_text (time_Sub now dt) +:+ " ago."]
      ++ (if str_eqb (p_NodeName p) "" then []
          else ["Node `" +:+ p_NodeName p +:+ "`: a node that is down, or whose kubelet stopped, cannot confirm the pod is gone."])
      ++ (if bool_decide (p_Finalizers p = []) then []
          else ["Finalizers `" +:+ strings_Join (p_Finalizers p) "`, `" +:+ "`: the controller that owns them must remove them."]) in
    let fix_ := "if the node is gone or its kubelet is down, force delete with `kubectl delete pod -n " +:+ p_Namespace p
      +:+ " " +:+ p_Name p +:+ " --grace-period=0 --force`"
      +:+ (if isStatefulSetPod p then "; this is a StatefulSet pod, so first make sure the node is really down, or two copies may run at once" else "") in
    Some (guided "PodStuckTerminating" p (p_NodeName p) Events.SevWarning (p_Name p) "pod is stuck terminating" details fix_).

Definition cause_line (sc : schedCause) : string :=
  if 0 <? sc_Nodes sc
  then "- " +:+ sc_Kind sc +:+ " on " +:+ itoa (sc_Nodes sc) +:+ " node(s): " +:+ sc_Text sc
  else "- " +:+ sc_Kind sc +:+ ": " +:+ sc_Text sc.
(** The kinds of the causes, each at its first place. *)
Fixpoint first_kinds (seen : list string) (l : list schedCause) : list string :=
  match l with
  | [] => []
  | sc :: l' => if bool_decide (sc_Kind sc ∈ seen) then first_kinds seen l'
                else sc_Kind sc :: first_kinds (sc_Kind sc :: seen) l'
  end.
Definition unschedulable (p : Pod) : option (finding C) :=
  if negb (str_eqb (p_NodeName p) "") || negb (str_eqb (p_Phase p) "Pending") || bool_decide (is_Some (p_Deletion p))
  then None
  else
    c ← podCondition p "PodScheduled";
    if negb (str_eqb (pc_Status c) "False") || negb (str_eqb (pc_Reason c) "Unschedulable") then None
    else
      let since := if time_IsZero (pc_Transition c) then p_Creation p else pc_Transition c in
      if time_Sub now since <? podStuckAfter then None
      else
        let causes := parseSchedulingFailure (pc_Message c) in
        Some (guided "Unschedulable" p "" Events.SevWarning (p_Name p)
          ("pod cannot be scheduled for " +:+ now_text (time_Sub now since))
          (("Scheduler: " +:+ pc_Message c) :: (cause_line <$> causes))
          (strings_Join ((λ k, k +:+ ": " +:+ schedFix k) <$> first_kinds [] causes) "; ")).

Definition volume_finding (p : Pod) (f : volumeFailure) : finding C :=
  let verb := if str_eqb (vf_reason f) "VolumeAttachFailed" then "attached" else "mounted" in
  guided (vf_reason f) p (p_NodeName p) Events.SevCritical (p_Name p +:+ "/" +:+ vf_volume f)
    ("volume `" +:+ vf_volume f +:+ "` cannot be " +:+ verb)
    ["Kubelet: " +:+ vf_cause f] (volumeFix f (p_NodeName p)).
Definition volumeFindings (p : Pod) (evs : list KEvent) : list (finding C) :=
  if str_eqb (p_NodeName p) "" || negb (str_eqb (p_Phase p) "Pending") || (time_Sub now (p_Creation p) <? podStuckAfter)
  then [] else volume_finding p <$> volumeFailures evs.

Definition probe_finding (p : Pod) (a : probeAgg) : finding C :=
  let pr := probeOf p (ag_container a) (ag_kind a) in
  let timeout := match pr with Some pr => if 0 <? pr_Timeout pr then pr_Timeout pr else 1 | None => 1 end in
  let details :=
    [itoa (ag_count a) +:+ " failures in the last " +:+ dur_String_seconds recentEventWindow +:+ ". Last: " +:+ ag_last a]
    ++ match pr with
       | Some pr => ["Probe: initialDelaySeconds=" +:+ itoa (pr_InitialDelay pr) +:+ " periodSeconds=" +:+ itoa (pr_Period pr)
                     +:+ " timeoutSeconds=" +:+ itoa timeout +:+ " failureThreshold=" +:+ itoa (pr_FailureThreshold pr)]
       | None => []
       end in
  guided (probeReason (ag_kind a)) p (p_NodeName p) Events.SevWarning (p_Name p +:+ "/" +:+ ag_container a)
    (ag_kind a +:+ " probe failing on container `" +:+ ag_container a +:+ "`") details
    (probeFix (ag_kind a) timeout (hasStartupProbe p (ag_container a))).
Definition probeFindings (p : Pod) (evs : list KEvent) : list (finding C) :=
  if bool_decide (is_Some (p_Deletion p)) then []
  else probe_finding p <$> filter (λ a, (probeFailureMin <=? ag_count a) && negb (crashLooping p (ag_container a)) = true)
                             (probeFailures now evs).

Definition unmet_gate (p : Pod) (g : string) : option string :=
  match podCondition p g with
  | None => Some ("`" +:+ g +:+ "` (never set)")
  | Some c => if str_eqb (pc_Status c) "True" then None else Some ("`" +:+ g +:+ "` (" +:+ pc_Status c +:+ ")")
  end.
Definition readinessGates (p : Pod) : option (finding C) :=
  if bool_decide (p_ReadinessGates p = []) || negb (str_eqb (p_Phase p) "Running") || bool_decide (is_Some (p_Deletion p))
     || (time_Sub now (p_Creation p) <? readinessGateAfter)
  then None
  else match omap (unmet_gate p) (p_ReadinessGates p) with
       | [] => None
       | unmet => Some (guided "ReadinessGateUnmet" p (p_NodeName p) Events.SevWarning (p_Name p)
           "readiness gate not met, so the pod gets no Service traffic" ["Unmet: " +:+ strings_Join unmet ", "]
           "the controller that owns the gate (for example a load balancer controller for target health) has not set the condition; check its logs and that it can see this pod")
       end.

(** *** Preemption *)

(** What the scheduler says of the preemptor: a pod's uid, a pod by name, or
    neither; and the node.  The expression is [Preempted by (?:pod (\S+)|
    (\S+/\S+)|a pod) on node (\S+)]. *)
Inductive preemptor := ByUID (uid : string) | ByName (name : string) | ByAPod.
Definition re_space (c : ascii) : bool := bool_decide (c ∈ [" "; "009"; "010"; "012"; "013"]%char).
Fixpoint span_word (s : string) : string * string :=
  match s with
  | String c s' => if re_space c then ("", s) else let r := span_word s' in (String c r.1, r.2)
  | EmptyString => ("", "")
  end.
Definition on_node (rest : string) : option string :=
  rest ← cut_prefix rest " on node ";
  let node := (span_word rest).1 in if str_eqb node "" then None else Some node.
(** A slash with something on each side. *)
Definition slashed (w : string) : bool :=
  match w with
  | String _ w' => match strings_LastIndex (str_take (String.length w' - 1) w') "/"%char with Some _ => true | None => false end
  | EmptyString => false
  end.
Definition preempted_here (s : string) : option (preemptor * string) :=
  rest ← cut_prefix s "Preempted by ";
  let by_uid := r ← cut_prefix rest "pod ";
                let '(w, after) := span_word r in
                if str_eqb w "" then None else (λ n, (ByUID w, n)) <$> on_node after in
  let by_name := let '(w, after) := span_word rest in
                 if slashed w then (λ n, (ByName w, n)) <$> on_node after else None in
  let by_a_pod := r ← cut_prefix rest "a pod"; (λ n, (ByAPod, n)) <$> on_node r in
  match by_uid with
  | Some r => Some r
  | None => match by_name with Some r => Some r | None => by_a_pod end
  end.
Fixpoint preemptedBy (s : string) : option (preemptor * string) :=
  match preempted_here s, s with
  | Some r, _ => Some r
  | None, String _ s' => preemptedBy s'
  | None, EmptyString => None
  end.

(** [byUID] and [byName] keep the last pod of a key. *)
Definition last_pod (f : Pod → string) (key : string) (pods : list Pod) : option Pod :=
  last (filter (λ p, f p = key) pods).
Definition preemption (ns : string) (pods all : list Pod) (victim : string) (ev : KEvent) : option (finding C) :=
  if negb (str_eqb (ke_Reason ev) "Preempted") || negb (recent_event now ev) then None
  else
    let '(who, node) :=
      match preemptedBy (ke_Message ev) with
      | None => ("a higher priority pod", "unknown")
      | Some (ByUID uid, node) =>
        (match last_pod p_UID uid all with
         | Some pp => "`" +:+ p_Namespace pp +:+ "/" +:+ p_Name pp +:+ "` (priority " +:+ priorityOf pp +:+ ")"
         | None => "pod with uid " +:+ uid +:+ " (outside the allowlist)"
         end, node)
      | Some (ByName name, node) => ("`" +:+ name +:+ "`", node)
      | Some (ByAPod, node) => ("a higher priority pod", node)
      end in
    let wl := match last_pod p_Name victim pods with Some vp => ownerName vp | None => victim end in
    Some (mkFinding C "Preempted" ns wl victim node Events.SevInfo RungGuided None None
      ("pod `" +:+ victim +:+ "` was preempted on node `" +:+ node +:+ "` to make room for " +:+ who) []
      "if this workload must not be displaced, give it a higher PriorityClass; otherwise lower the preemptor's priority or set preemptionPolicy: Never on it"
      (ke_UID ev) "").
Definition preemptions (all : list Pod) (d : nsPods) : list (finding C) :=
  mjoin ((λ e, omap (preemption (np_ns d) (np_pods d) all e.1) e.2) <$> range_map (np_events d)).

(** *** The pass *)
Definition option_list {A} (o : option A) : list A := match o with Some a => [a] | None => [] end.
Definition pod_findings (d : nsPods) (p : Pod) : list (finding C) :=
  let evs := default [] (np_events d !! p_Name p) in
  option_list (stuckTerminating p) ++ option_list (unschedulable p) ++ volumeFindings p evs
  ++ probeFindings p evs ++ option_list (readinessGates p).
Definition ns_findings (all : list Pod) (d : nsPods) : list (finding C) :=
  mjoin (pod_findings d <$> np_pods d) ++ preemptions all d.
Fixpoint tell_all (fs : list (finding C)) : M unit :=
  match fs with [] => return! tt | f :: fs' => tell_finding f ;;; tell_all fs' end.
Definition read_ns (ns : string) (c : C) : option nsPods :=
  match pods_in ns c with
  | inr _ => None
  | inl pods => Some (mkNsPods ns pods (events_by_pod (match events_in ns c with inl l => l | inr _ => [] end)))
  end.
End checks.

Section pass.
Context {C : Type} `{!PodReads C, !RangeOrder} (env : Env).
Definition CheckPodStates : st (GState C) unit :=
  let! now := clock env in
  let! s := st_get in
  let c := gs_cluster s in
  let all := omap (λ ns, read_ns ns c) (watchedNamespaces (env_Policy env) (namespaces_of c)) in
  let pods := mjoin (np_pods <$> all) in
  tell_all env (mjoin (ns_findings now pods <$> all)).
End pass.

(** ** One entry per key, the last one *)
Section upsert.
Context {A : Type}.
Implicit Types (l : list (string * A)).
Lemma upsert_keys key new f l :
  (upsert key new f l).*1 = if decide (key ∈ l.*1) then l.*1 else l.*1 ++ [key].
Proof.
  induction l as [|[k x] l IH]; cbn [upsert]; [done|].
  destruct (str_eqb k key) eqn:E; csimpl.
  - apply str_eqb_eq in E as ->. by rewrite decide_True by left.
  - apply str_eqb_ne in E. rewrite IH. destruct (decide (key ∈ l.*1)) as [Hk|Hk].
    + by rewrite decide_True by (by right).
    + rewrite decide_False; [done|]. by intros [?|?]%elem_of_cons.
Qed.
Lemma upsert_NoDup key new f l : NoDup l.*1 → NoDup (upsert key new f l).*1.
Proof.
  intros Hl. rewrite upsert_keys. case_decide; [done|]. apply NoDup_app. split_and!; [done| |apply NoDup_singleton].
  intros ? Hx ->%list_elem_of_singleton. done.
Qed.
Lemma elem_of_upsert key new l k x :
  NoDup l.*1 →
  (k, x) ∈ upsert key new (λ _, new) l ↔ (k = key ∧ x = new) ∨ (k ≠ key ∧ (k, x) ∈ l).
Proof.
  induction l as [|[k' x'] l IH]; cbn [upsert].
  { intros _. rewrite list_elem_of_singleton. split; [intros [= -> ->]; auto|].
    intros [[-> ->]|[_ []%elem_of_nil]]. done. }
  csimpl. intros [Hk Hl]%NoDup_cons.
  destruct (str_eqb k' key) eqn:E.
  - apply str_eqb_eq in E as ->. rewrite !elem_of_cons. split.
    + intros [[= -> ->]|Hin]; [auto|]. right. split; [|auto]. intros ->. apply Hk.
      apply list_elem_of_fmap. by exists (key, x).
    + intros [[-> ->]|[Hne [[= -> ->]|Hin]]]; [by left|done|by right].
  - apply str_eqb_ne in E. rewrite !elem_of_cons, (IH Hl). naive_solver.
Qed.

(** What comes last under a key. *)
Definition last_of (es : list (string * A)) (k : string) (x : A) : Prop :=
  ∃ l1 l2, es = l1 ++ (k, x) :: l2 ∧ k ∉ l2.*1.
Lemma upsert_all es :
  let r := foldl (λ acc e, upsert e.1 e.2 (λ _, e.2) acc) [] es in
  NoDup r.*1 ∧ (∀ k x, (k, x) ∈ r ↔ last_of es k x) ∧ (∀ k, k ∈ r.*1 ↔ k ∈ es.*1).
Proof.
  induction es as [|[k x] es IH] using rev_ind; cbn zeta in *.
  { split_and!; [by apply NoDup_nil|intros k x|done]. split; [by intros ?%elem_of_nil|].
    by intros ([]&?&[=]&_). }
  rewrite foldl_app. cbn [foldl fst snd]. set (r := foldl _ [] es) in *. clearbody r.
  destruct IH as (Hnd & Hin & Hk). split_and!; [by apply upsert_NoDup| |].
  - intros k' x'. rewrite elem_of_upsert by done. split.
    + intros [[-> ->]|[Hne (l1 & l2 & -> & Hl2)%Hin]].
      * exists es, []. split; [done|]. apply not_elem_of_nil.
      * exists l1, (l2 ++ [(k, x)]). rewrite <-app_assoc. split; [done|].
        rewrite fmap_app. intros [?|Hx%list_elem_of_singleton]%elem_of_app; [done|]. by cbn in Hx.
    + intros (l1 & l2 & He & Hl2). destruct l2 as [|e l2 _] using rev_ind.
      * apply app_inj_tail in He as [-> [= -> ->]]. by left.
      * rewrite app_comm_cons, app_assoc in He. apply app_inj_tail in He as [-> <-].
        rewrite fmap_app, not_elem_of_app in Hl2. destruct Hl2 as [Hl2 Hne].
        right. split; [intros ->; by apply Hne; left|]. apply Hin. by exists l1, l2.
  - intros k'. rewrite upsert_keys, fmap_app, elem_of_app. csimpl.
    rewrite list_elem_of_singleton. case_decide as Hd; [|rewrite elem_of_app, list_elem_of_singleton, Hk; done].
    rewrite Hk in Hd |- *. naive_solver.
Qed.
End upsert.

Lemma volume_event_key ev k f :
  volume_event ev = Some (k, f) → k = vf_reason f +:+ "/" +:+ vf_volume f
  ∧ (vf_reason f = "VolumeAttachFailed" ∨ vf_reason f = "VolumeMountFailed").
Proof.
  unfold volume_event. intros (r & Hr & [= <- <-])%bind_Some. split; [done|]. cbn.
  unfold volume_reason in Hr. destruct (str_eqb _ _); [injection Hr; auto|].
  destruct (str_eqb _ _); [injection Hr; auto|done].
Qed.
Lemma volume_key_inj ev ev' k k' f f' :
  volume_event ev = Some (k, f) → volume_event ev' = Some (k', f') →
  (k = k' ↔ vf_reason f = vf_reason f' ∧ vf_volume f = vf_volume f').
Proof.
  intros [-> Hf]%volume_event_key [-> Hf']%volume_event_key. split; [|by intros [-> ->]].
  destruct Hf as [-> | ->], Hf' as [-> | ->]; intros [=]; auto.
Qed.

(** Where in a sorted list of events the entries of a key come from. *)
Lemma omap_split {A B} (f : A → option B) l l1 y l2 :
  omap f l = l1 ++ y :: l2 → ∃ k1 x k2, l = k1 ++ x :: k2 ∧ f x = Some y ∧ omap f k1 = l1 ∧ omap f k2 = l2.
Proof.
  revert l1. induction l as [|x l IH]; intros l1; cbn; [by destruct l1|].
  destruct (f x) as [z|] eqn:Hx.
  - destruct l1 as [|w l1]; intros [= -> Hl].
    + by exists [], x, l.
    + destruct (IH _ Hl) as (k1 & x' & k2 & -> & Hx' & <- & <-).
      exists (x :: k1), x', k2. cbn. by rewrite Hx.
  - intros Hl. destruct (IH _ Hl) as (k1 & x' & k2 & -> & Hx' & <- & <-).
    exists (x :: k1), x', k2. cbn. by rewrite Hx.
Qed.

(** The failures of a pod's volumes: one entry per reason and volume that an
    event tells of, and its cause is that of a latest event. *)
Theorem volumeFailures_latest evs :
  NoDup ((λ f, (vf_reason f, vf_volume f)) <$> volumeFailures evs)
  ∧ (∀ ev k f, ev ∈ evs → volume_event ev = Some (k, f) →
       ∃ f', f' ∈ volumeFailures evs ∧ vf_reason f' = vf_reason f ∧ vf_volume f' = vf_volume f)
  ∧ (∀ f, f ∈ volumeFailures evs → ∃ ev k, ev ∈ evs ∧ volume_event ev = Some (k, f)
       ∧ ∀ ev' k' f', ev' ∈ evs → volume_event ev' = Some (k', f') →
           vf_reason f' = vf_reason f → vf_volume f' = vf_volume f →
           eventLastSeen ev' ≤ eventLastSeen ev).
Proof.
  unfold volumeFailures. set (sorted := merge_sort last_seen_le evs).
  assert (Hmem : ∀ ev, ev ∈ evs ↔ ev ∈ sorted) by (intros; subst sorted; by rewrite merge_sort_Permutation).
  assert (Hs : StronglySorted last_seen_le sorted) by apply (StronglySorted_merge_sort _).
  clearbody sorted. destruct (upsert_all (omap volume_event sorted)) as (Hnd & Hin & Hk). cbn zeta in *.
  set (r := foldl _ [] _) in *. clearbody r.
  assert (Hlast : ∀ k f, (k, f) ∈ r → ∃ ev, ev ∈ sorted ∧ volume_event ev = Some (k, f)
    ∧ ∀ ev' f', ev' ∈ sorted → volume_event ev' = Some (k, f') → eventLastSeen ev' ≤ eventLastSeen ev).
  { intros k f (l1 & l2 & He & Hl2)%Hin. destruct (omap_split _ _ _ _ _ He) as (k1 & ev & k2 & -> & Hev & _ & <-).
    exists ev. split_and!; [set_solver|done|]. intros ev' f' Hev' He'.
    apply StronglySorted_app in Hs as (Hle & _ & _).
    apply elem_of_app in Hev' as [Hev'|[->|Hev']%elem_of_cons]; [|lia|].
    - apply (Hle ev' ev); [done|left].
    - exfalso. apply Hl2, list_elem_of_fmap. exists (k, f'). split; [done|].
      apply list_elem_of_omap. by exists ev'. }
  split_and!.
  - rewrite <-list_fmap_compose. apply NoDup_fmap_2_strong; [|by apply NoDup_fmap_1 in Hnd].
    intros [k f] [k' f'] Hx Hy. cbn. intros [= Hr Hv].
    destruct (Hlast _ _ Hx) as (e & _ & He & _), (Hlast _ _ Hy) as (e' & _ & He' & _).
    assert (k = k') as <- by (by apply (volume_key_inj _ _ _ _ _ _ He He')).
    apply Hin in Hx, Hy. f_equal.
    assert (Hu : ∀ es (k : string) (x y : volumeFailure), last_of es k x → last_of es k y → x = y).
    { intros es k0 x y (a1 & a2 & -> & Ha) (b1 & b2 & Hb & Hb2).
      destruct (app_eq_inv _ _ _ _ Hb) as [(m & -> & Hm)|(m & -> & Hm)]; destruct m as [|[] m];
        cbn in Hm; simplify_eq; try done; exfalso; [apply Hb2|apply Ha];
        rewrite fmap_app, elem_of_app; right; left. }
    by eapply Hu.
  - intros ev k f Hev He. apply Hmem in Hev.
    assert (k ∈ r.*1) as ((k' & f') & -> & Hf')%list_elem_of_fmap.
    { apply Hk, list_elem_of_fmap. exists (k, f). split; [done|]. apply list_elem_of_omap. by exists ev. }
    exists f'. split; [apply list_elem_of_fmap; by exists (k', f')|].
    destruct (Hlast _ _ Hf') as (e & _ & He' & _). by apply (volume_key_inj _ _ _ _ _ _ He' He).
  - intros f ((k & f0) & -> & Hf)%list_elem_of_fmap. destruct (Hlast _ _ Hf) as (ev & Hev & He & Hl).
    exists ev, k. split_and!; [by apply Hmem|done|]. intros ev' k' f' Hev' He' Hr Hv.
    assert (k' = k) as -> by (by apply (volume_key_inj _ _ _ _ _ _ He' He)). apply (Hl ev' f'); [by apply Hmem|done].
Qed.

(** The pass only tells. *)
Section pass_told.
Context {C : Type} `{!PodReads C, !RangeOrder} (env : Env).
Lemma tell_all_told (fs : list (finding C)) :
  Forall (λ f, fn_Proposal f = None) fs → keeps same_but_told (tell_all env fs).
Proof.
  intros Hfs. induction Hfs as [|f fs Hf _ IH]; cbn [tell_all]; [apply (keeps_ret _)|].
  apply (keeps_bind _); [|done]. unfold tell_finding. apply (keeps_bind _); [by apply report_told|].
  intros ?. apply (keeps_ret _).
Qed.
Lemma elem_of_option_list {A} (x : A) o : x ∈ option_list o ↔ o = Some x.
Proof.
  destruct o; cbn; [rewrite list_elem_of_singleton; split; congruence|].
  split; [by intros ?%elem_of_nil|done].
Qed.
Lemma ns_findings_propose_nothing now (all : list Pod) d :
  Forall (λ f : finding C, fn_Proposal f = None) (ns_findings now all d).
Proof.
  unfold ns_findings, preemptions. apply Forall_app. split; apply Forall_forall; intros f Hf.
  - apply list_elem_of_join in Hf as (l & Hf & (p & -> & _)%list_elem_of_fmap).
    unfold pod_findings in Hf. rewrite !elem_of_app, !elem_of_option_list in Hf.
    destruct Hf as [Hf|[Hf|[Hf|[Hf|Hf]]]].
    + apply bind_Some in Hf as (dt & _ & Hf). repeat case_match; try done; by injection Hf as <-.
    + unfold unschedulable in Hf. case_match; [done|]. apply bind_Some in Hf as (c & _ & Hf).
      repeat case_match; try done; by injection Hf as <-.
    + unfold volumeFindings in Hf. case_match; [by apply elem_of_nil in Hf|].
      by apply list_elem_of_fmap in Hf as (? & -> & _).
    + unfold probeFindings in Hf. case_match; [by apply elem_of_nil in Hf|].
      by apply list_elem_of_fmap in Hf as (? & -> & _).
    + unfold readinessGates in Hf. case_match; [done|]. repeat case_match; try done; by injection Hf as <-.
  - apply list_elem_of_join in Hf as (l & Hf & (e & -> & _)%list_elem_of_fmap).
    apply list_elem_of_omap in Hf as (ev & _ & Hf). unfold preemption in Hf.
    case_match; [done|]. repeat case_match; try done; by injection Hf as <-.
Qed.
Lemma CheckPodStates_only_tells : keeps same_but_told (CheckPodStates (C := C) env).
Proof.
  unfold CheckPodStates. apply (keeps_bind _); [intros s; by repeat split|]. intros now.
  apply (keeps_bind _); [apply (keeps_get _)|]. intros s. apply tell_all_told.
  apply Forall_forall. intros f (l & Hf & (d & -> & _)%list_elem_of_fmap)%list_elem_of_join.
  revert Hf. by apply (proj1 (Forall_forall _ _) (ns_findings_propose_nothing now (mjoin (np_pods <$> omap (λ ns, read_ns ns (gs_cluster s))
    (watchedNamespaces (env_Policy env) (namespaces_of (gs_cluster s))))) d)).
Qed.
End pass_told.
