(* ===== verification/Handlers.v ===== *)
(** * Handlers: what is done about a pod's trouble

    [handlers.go], [handlers_extended.go], the handler of [pod_extended.go]
    and the reads of [helpers.go]: each handler collects the evidence, saves
    it, acts through the mutation gate where acting can help, and tells
    people.  The API server, the log sink, the LLM, the GitOps repository and
    the ticketing system are a parameter ([HandlerServices]); calls that only
    send are recorded in the trace.  Logs and Prometheus counters are left
    out.  The process runs in UTC. *)
From S2P Require Import Prelude GoStd Policy RateLimit Guards Events Escalation Gate Kube FixTracker.
From S2P Require Import Fixes Calendar Findings GitopsContent PodStates.
From Stdlib Require Import Ascii.
#[local] Open Scope Z_scope.
#[local] Open Scope agent_scope.

(** ** The services *)
Record LogRecord := mkLogRecord {
  lr_Timestamp : Time; lr_Namespace : string; lr_Workload : string; lr_Pod : string;
  lr_Container : string; lr_Node : string; lr_Reason : string; lr_Message : string;
  lr_LastLogs : string; lr_Events : list string
}.
Record GitOpsChange := mkChange {
  gc_FilePath : string; gc_Content : string; gc_Title : string; gc_Body : string;
  gc_Branch : string
}.

(** [stream_logs] is the stream of a container's last lines: what it yields
    and the error it ends in, if any, or the error of opening it. *)
Class HandlerServices (C : Type) := {
  stream_logs : string → string → string → Z → C → (string * option string) + string;
  object_events : string → string → C → list KEvent + string;
  sink_save : string → LogRecord → C → string + string;
  diagnose : string → string → C → string;
  delete_pod : string → string → C → C * option string;
  gitops_read : string → C → string + string;
  gitops_commit : GitOpsChange → C → C * (string * option string);
  gitops_open : GitOpsChange → C → C * (string + string)
}.

(** The parts of [Deps] only the handlers read. *)
Record HandlerDeps := mkHandlerDeps {
  hd_NamedChannels : bool;                (* the Slack client posts to named channels *)
  hd_Ticketer : option string;
  hd_TicketerFor : option (string → string → option string);
  hd_GitOps : bool;
  hd_ValuesFile : string;
  hd_GitOpsLive : bool
}.

(** ** Texts *)

Record pullCause := mkCause { pc_kind : string; pc_label : string; pc_retry : bool }.
(** In order; the first phrase found decides. *)
Definition pullCauses : list (list string * pullCause) := [
  (["toomanyrequests"; "429 too many requests"; "rate limit"],
   mkCause "ratelimited" "registry rate limit (toomanyrequests)" false);
  (["unauthorized"; "authentication required"; "no basic auth credentials"; "403 forbidden";
    "access denied"; "denied:"],
   mkCause "unauthorized" "registry refused the credentials (unauthorized)" false);
  (["manifest unknown"; "not found"; "name unknown"],
   mkCause "notfound" "image or tag does not exist" false);
  (["i/o timeout"; "no such host"; "connection refused"; "tls handshake timeout"; "dial tcp"],
   mkCause "network" "node cannot reach the registry" true)].
Definition classifyPull (texts : list string) : pullCause :=
  let all := lower_search (strings_Join texts nl) in
  match filter (λ e, existsb (strings_Contains all) e.1 = true) pullCauses with
  | e :: _ => e.2
  | [] => mkCause "unknown" "not recognised from the pull error" true
  end.
Definition pullFix (c : pullCause) (p : Pod) (image : string) : string :=
  if str_eqb (pc_kind c) "ratelimited" then
    "authenticate pulls with an imagePullSecret, pull through a mirror or cache, or pin images so nodes reuse cached layers; the agent does not retry, because each retry is another pull against the limit"
  else if str_eqb (pc_kind c) "unauthorized" then
    let have := if bool_decide (p_PullSecrets p = []) then "none are set on the pod"
                else "the pod uses `" +:+ strings_Join (p_PullSecrets p) "`, `" +:+ "`" in
    "give the pod an imagePullSecret with a valid token for this registry in namespace `" +:+ p_Namespace p
    +:+ "` (" +:+ have +:+ "), or attach one to its service account"
  else if str_eqb (pc_kind c) "notfound" then
    "check the reference `" +:+ image +:+ "` and that the tag was pushed to the registry"
  else if str_eqb (pc_kind c) "network" then
    "check DNS and egress from node `" +:+ p_NodeName p
    +:+ "` to the registry; the agent retries once the path is back"
  else "check the image name, tag, registry credentials and network access to the registry".
(** The first status of the container that waits decides. *)
Definition waitingMessage (p : Pod) (cname : string) : string :=
  match omap (λ cs, if str_eqb (cs_Name cs) cname then cs_Waiting cs else None) (p_Statuses p) with
  | w :: _ => w_Message w
  | [] => ""
  end.
Definition memory_limit (p : Pod) (cname : string) : string :=
  match filter (λ c, ct_Name c = cname) (p_Containers p) with
  | c :: _ => default "" (ct_MemoryLimit c)
  | [] => ""
  end.
Definition sanitizeBranch (s : string) : string :=
  str_map (λ c, if bool_decide (c ∈ ["/"; " "; ":"]%char) then "-"%char else c) s.
Definition BuildKey (ns workload pod reason : string) (t : Time) : string :=
  ns +:+ "/" +:+ workload +:+ "/" +:+ reason +:+ "/" +:+ format_date t +:+ "/" +:+ pod.

Definition additionalPodReasons : list string :=
  ["RunContainerError"; "ContainerCannotRun"; "PostStartHookError"; "PreStopHookError";
   "InvalidImageName"; "ErrImageNeverPull"; "StartError"].
Definition isAdditionalPodReason (reason : string) : bool := bool_decide (reason ∈ additionalPodReasons).

(** ** The handlers *)
Section handlers.
Context {C : Type} `{!HandlerServices C} `{!YAML} (env : Env) (hd : HandlerDeps).
Abbreviation M := (st (option FixTracker * GState C)).
Abbreviation pol := (env_Policy env).

Definition gate {A} (m : st (GState C) A) : M A := st_right m.
Definition read {A} (f : C → A) : M A := λ s, (f (gs_cluster s.2), s).

(** *** Evidence *)
Definition log_limit : Z := 64 * 1024.
Definition getLastLogs (ns pod container : string) (lines : Z) : M string :=
  let! r := read (stream_logs ns pod container lines) in
  return! (match r with
           | inr e => "(log fetch error: " +:+ e +:+ ")"
           | inl (data, err) =>
             if log_limit <=? str_len data then str_take (Z.to_nat log_limit) data
             else match err with
                  | Some e => "(log read error: " +:+ e +:+ ")"
                  | None => data
                  end
           end).
Definition listObjectEvents (ns name : string) : M (list KEvent) :=
  let! r := read (object_events ns name) in
  return! (match r with inl l => l | inr _ => [] end).
Definition event_text (e : KEvent) : string :=
  "[" +:+ format_RFC3339 (ke_LastTimestamp e) +:+ "] " +:+ ke_Type e +:+ " " +:+ ke_Reason e
  +:+ ": " +:+ ke_Message e.
Definition collectEvents (ns name : string) : M (list string) :=
  let! evs := listObjectEvents ns name in return! (event_text <$> evs).

(** The URL of the bundle, empty when it could not be saved. *)
Definition persistLogBundle (ns workload pod container node reason message logs : string)
    (events : list string) : M string :=
  let! t1 := gate (clock env) in
  let! t2 := gate (clock env) in
  let key := BuildKey ns workload pod reason t1 in
  let rec := mkLogRecord t2 ns workload pod container node reason message logs events in
  gate (emit (ESave key)) ;;;
  let! r := read (sink_save key rec) in
  return! (match r with inl url => url | inr _ => "" end).

Definition DiagnoseWithFallback (title ctx : string) : M string :=
  let! advice := read (diagnose title ctx) in
  return! (if str_eqb advice "" then "" else nl +:+ "_LLM diagnosis_: " +:+ advice +:+ nl).

(** *** Telling *)
Definition postIncident (ns : string) (labels : option (gmap string string)) (msg : string) : M unit :=
  match effectivePolicy (env_CRD env) ns labels with
  | Some p =>
    if negb (str_eqb (crd.SlackChannel p) "") && hd_NamedChannels hd
    then gate (emit (EChannel (crd.SlackChannel p) msg)) else gate (postSlack msg)
  | None => gate (postSlack msg)
  end.
Definition createTicket (ns : string) (labels : option (gmap string string)) (key title body : string)
    : M unit :=
  let base := ["auto-agent"; "kubernetes"] in
  let '(assignees, lbls, tk) :=
    match effectivePolicy (env_CRD env) ns labels with
    | Some p =>
      let pt := crd.PTicketing p in
      (crd.tk_Assignees pt, base ++ crd.tk_Labels pt,
       match hd_TicketerFor hd with
       | Some for_ =>
         if str_eqb (crd.tk_Provider pt) "" then hd_Ticketer hd
         else match for_ (crd.tk_Provider pt) (crd.tk_ProjectOrRepo pt) with
              | Some alt => Some alt
              | None => hd_Ticketer hd
              end
       | None => hd_Ticketer hd
       end)
    | None => ([], base, hd_Ticketer hd)
    end in
  match tk with
  | None => return! tt
  | Some name => gate (emit (ETicket name key title body assignees lbls))
  end.

Definition incident (sev ns wl pod node reason msg url rung : string) : M unit :=
  gate (recordEvent env (mkEvent 0 0 Events.Incident sev ns wl pod node reason msg "" url "" "" "" rung)).

(** *** Acting *)

(** [deps.FixTracker.RecordAction], when there is a tracker. *)
Definition track (ns wl pod reason action : string) : M unit :=
  let! s := st_get in
  match s.1 with
  | None => return! tt
  | Some ft =>
    let! now := gate (clock env) in
    st_left (st_modify (λ _, Some (RecordAction now ns wl pod reason action ft)))
  end.
Definition tryFixAction (ns wl pod : string) (labels : option (gmap string string))
    (reason actionType : string) (action : C → C * option string) (successMsg suggestMsg : string)
    : M string :=
  let! r := gate (applyMutation env (mkMutation C ns wl pod labels reason actionType successMsg suggestMsg
                    action "" None false)) in
  if negb (bool_decide (r.1 = gateApplied)) then return! r.2
  else
  track ns wl pod reason actionType ;;;
  gate (recordEvent env (mkEvent 0 0 Action Events.SevInfo ns wl pod "" reason
    ("Action taken: " +:+ successMsg +:+ " (verifying recovery...)") actionType "" "" "" "" "")) ;;;
  return! ("_Action_: " +:+ successMsg +:+ " (verifying recovery...)." +:+ nl).

(** Deleting the pod, as four handlers do. *)
Definition try_delete (p : Pod) (reason successMsg suggestMsg : string) : M string :=
  let ns := p_Namespace p in let name := p_Name p in
  tryFixAction ns (ownerName p) name (pod_labels p) reason "delete_pod" (delete_pod ns name)
    successMsg suggestMsg.

(** *** The memory bump *)

(** The file change of an OOM: the path, the content, what it does and a
    note; or why nothing is proposed. *)
Definition memoryBumpChange (ns wl cname memLimit : string) (pct : Z)
    : M ((string * string * string * string) + string) :=
  let name := deploymentName wl in
  let standalone (note : string) :=
    match GenerateMemoryBumpContent ns wl cname memLimit pct with
    | inr e => inr (bump_message e)
    | inl (patch, desc) =>
      inl ("patches/" +:+ ns +:+ "/" +:+ name +:+ "-memory-bump.yaml", patch, desc, note)
    end in
  let vf := hd_ValuesFile hd in
  if str_eqb vf "" then return! standalone ""
  else
  let! raw := read (gitops_read vf) in
  let patched := match raw with
                 | inr e => inr e
                 | inl content => match PatchWorkloadMemory content name pct with
                                  | inl r => inl r
                                  | inr e => inr (bump_message e)
                                  end
                 end in
  return! (match patched with
           | inl (content, desc) => inl (vf, content, desc, "")
           | inr why => standalone ("`" +:+ vf +:+ "` was not patched (" +:+ why
                                    +:+ "), so a standalone patch file is proposed instead.")
           end).

Definition bump_percent (ns : string) (labels : option (gmap string string)) : Z :=
  match effectivePolicy (env_CRD env) ns labels with
  | Some cp => if 0 <? crd.BumpMemoryPercent cp then crd.BumpMemoryPercent cp else 20
  | None => 20
  end.

(** A live commit goes through the gate; the URL [Apply] captures is the
    commit's, made in the cluster the call found (the gate changes nothing
    before it). *)
Definition live_commit (p : Pod) (ns wl : string) (change : GitOpsChange) : M string :=
  let! s := st_get in
  let apply (c : C) := let r := gitops_commit change c in (r.1, r.2.2) in
  let! r := gate (applyMutation env (mkMutation C ns wl (p_Name p) (pod_labels p) "OOMKilled" "gitops_commit"
              "committed the memory bump to the GitOps branch (live mode, no review)"
              "commit the memory bump to the GitOps branch" apply "" None false)) in
  let url := if bool_decide (r.1 = gateApplied ∨ r.1 = gateFailed)
             then (gitops_commit change (gs_cluster s.2)).2.1 else "" in
  return! (if str_eqb url "" then r.2 else r.2 +:+ "_GitOps_: commit " +:+ url +:+ nl).
Definition open_pr (p : Pod) (ns wl : string) (change : GitOpsChange) : M string :=
  gate (emit (EPullRequest (gc_Branch change) (gc_FilePath change))) ;;;
  let! r := gate (λ g, let o := gitops_open change (gs_cluster g) in (o.2, set_cluster o.1 g)) in
  match r with
  | inr e => return! ("_GitOps_: failed to open PR: " +:+ e +:+ nl)
  | inl url =>
    gate (auditAction env "open_pr" ns wl (p_Name p) "OOMKilled" "success" url) ;;;
    return! ("_GitOps_: opened PR to bump memory: " +:+ url +:+ nl)
  end.

Definition memoryBumpGitOps (p : Pod) (ns wl cname memLimit url : string) : M string :=
  if negb (hd_GitOps hd) || negb (str_eqb (Mode_ pol) Fix)
  then return! ("_Recommend_: increase memory limit by 20-50% via GitOps PR." +:+ nl)
  else
  let pct := bump_percent ns (pod_labels p) in
  let title := "Bump memory for " +:+ ns +:+ "/" +:+ wl +:+ " by " +:+ itoa pct +:+ "%" in
  let! bump := memoryBumpChange ns wl cname memLimit pct in
  match bump with
  | inr note => return! ("_GitOps_: no change proposed: " +:+ note +:+ nl)
  | inl (filePath, content, changeDesc, note) =>
    let body := "Container `" +:+ cname +:+ "` was OOMKilled with limit `" +:+ memLimit +:+ "`." +:+ nl +:+ nl
      +:+ "Change: " +:+ changeDesc +:+ nl +:+ nl +:+ "Incident log: `" +:+ url +:+ "`"
      +:+ (if str_eqb note "" then "" else nl +:+ nl +:+ note) in
    let! now := gate (clock env) in
    let change := mkChange filePath content title body
      ("auto-agent/oom-" +:+ ns +:+ "-" +:+ sanitizeBranch wl +:+ "-" +:+ itoa (time_Unix now)) in
    if hd_GitOpsLive hd then live_commit p ns wl change else open_pr p ns wl change
  end.

(** *** One handler per trouble *)
Definition context (logs : string) (events : list string) : string :=
  logs +:+ nl +:+ strings_Join events nl.
Definition saved (url : string) : string := "Saved: `" +:+ url +:+ "`" +:+ nl.

Definition handleCrashLoop (p : Pod) (cname : string) : M unit :=
  let ns := p_Namespace p in let name := p_Name p in let wl := ownerName p in
  let! logs := getLastLogs ns name cname 50 in
  let! events := collectEvents ns name in
  let! url := persistLogBundle ns wl name cname (p_NodeName p) "CrashLoopBackOff"
                "CrashLoopBackOff detected" logs events in
  let! fix_ := try_delete p "CrashLoopBackOff"
                 "deleted pod to clear backoff (controller will recreate)" "delete pod to clear backoff" in
  let! advice := DiagnoseWithFallback "Pod CrashLoopBackOff" (context logs events) in
  let msg := "*CrashLoopBackOff* on `" +:+ ns +:+ "/" +:+ name +:+ "` (container: `" +:+ cname +:+ "`)" +:+ nl
    +:+ "Logs+events saved: `" +:+ url +:+ "`" +:+ nl +:+ fix_ +:+ advice in
  postIncident ns (pod_labels p) msg ;;;
  gate (fireAlert env "CrashLoopBackOff" ns wl name msg "critical") ;;;
  createTicket ns (pod_labels p) ("crashloop-" +:+ ns +:+ "-" +:+ wl)
    ("CrashLoopBackOff: " +:+ ns +:+ "/" +:+ wl) msg ;;;
  incident Events.SevCritical ns wl name (p_NodeName p) "CrashLoopBackOff"
    ("Container " +:+ cname +:+ " crash-looping") url "".

Definition handleImagePullBackOff (p : Pod) (cname : string) : M unit :=
  let ns := p_Namespace p in let name := p_Name p in let wl := ownerName p in
  let! events := collectEvents ns name in
  let! url := persistLogBundle ns wl name cname (p_NodeName p) "ImagePullBackOff" "Image pull failure"
                "" events in
  let image := imageOf p cname in
  let cause := classifyPull (waitingMessage p cname :: events) in
  let head := "*ImagePullBackOff* on `" +:+ ns +:+ "/" +:+ name +:+ "` (container: `" +:+ cname
    +:+ "`, image: `" +:+ image +:+ "`)" +:+ nl +:+ saved url
    +:+ "Cause: " +:+ pc_label cause +:+ nl +:+ "_Fix_: " +:+ pullFix cause p image +:+ nl in
  let! fix_ := (if pc_retry cause
                then try_delete p "ImagePullBackOff" "deleted pod to retry image pull"
                       "delete pod to retry image pull"
                else return! ("_No retry_: deleting the pod would not change this cause." +:+ nl)) in
  let rung := if pc_retry cause then RungAuto else RungGuided in
  let! advice := DiagnoseWithFallback "ImagePullBackOff" (strings_Join events nl) in
  let msg := head +:+ fix_ +:+ advice in
  postIncident ns (pod_labels p) msg ;;;
  gate (fireAlert env "ImagePullBackOff" ns wl name msg "critical") ;;;
  createTicket ns (pod_labels p) ("imagepull-" +:+ ns +:+ "-" +:+ wl)
    ("ImagePullBackOff: " +:+ ns +:+ "/" +:+ wl +:+ " image=" +:+ image) msg ;;;
  incident Events.SevCritical ns wl name "" "ImagePullBackOff"
    ("Cannot pull image " +:+ image +:+ ": " +:+ pc_label cause) url (Rung_String rung).

Definition handleOOM (p : Pod) (cname : string) : M unit :=
  let ns := p_Namespace p in let name := p_Name p in let wl := ownerName p in
  let! logs := getLastLogs ns name cname 20 in
  let! events := collectEvents ns name in
  let! url := persistLogBundle ns wl name cname (p_NodeName p) "OOMKilled" "Container OOMKilled" logs events in
  let memLimit := memory_limit p cname in
  let! bump := memoryBumpGitOps p ns wl cname memLimit url in
  let! advice := DiagnoseWithFallback "Container OOMKilled" (context logs events) in
  let msg := "*OOMKilled* on `" +:+ ns +:+ "/" +:+ name +:+ "` (container: `" +:+ cname
    +:+ "`, current limit: `" +:+ memLimit +:+ "`)" +:+ nl +:+ saved url +:+ bump +:+ advice in
  postIncident ns (pod_labels p) msg ;;;
  gate (fireAlert env "OOMKilled" ns wl name msg "critical") ;;;
  createTicket ns (pod_labels p) ("oom-" +:+ ns +:+ "-" +:+ wl)
    ("OOMKilled: " +:+ ns +:+ "/" +:+ wl +:+ " limit=" +:+ memLimit) msg ;;;
  incident Events.SevCritical ns wl name (p_NodeName p) "OOMKilled"
    ("Container " +:+ cname +:+ " killed (limit: " +:+ memLimit +:+ ")") url "".

Definition handleNotReady (p : Pod) (cname : string) : M unit :=
  let ns := p_Namespace p in let name := p_Name p in let wl := ownerName p in
  let! logs := getLastLogs ns name cname 30 in
  let! events := collectEvents ns name in
  let! url := persistLogBundle ns wl name cname (p_NodeName p) "NotReady" "Container running but not ready"
                logs events in
  let! fix_ := try_delete p "NotReady" "deleted pod to restart (readiness probe failing >3m)"
                 "delete pod to restart" in
  let! advice := DiagnoseWithFallback "Pod NotReady" (context logs events) in
  let msg := "*NotReady* on `" +:+ ns +:+ "/" +:+ name +:+ "` (container: `" +:+ cname
    +:+ "`): running but failing readiness probe" +:+ nl +:+ saved url
    +:+ "_Check_: readiness probe endpoint, application startup, and dependencies." +:+ nl
    +:+ fix_ +:+ advice in
  postIncident ns (pod_labels p) msg ;;;
  gate (fireAlert env "NotReady" ns wl name msg "warning") ;;;
  incident Events.SevWarning ns wl name "" "NotReady"
    ("Container " +:+ cname +:+ " failing readiness probe") url "".

(** The reason the scheduler gives, and what it means. *)
Definition pending_reason (p : Pod) : string :=
  match filter (λ c, str_eqb (pc_Type c) "PodScheduled" && str_eqb (pc_Status c) "False" = true) (p_Conditions p) with
  | c :: _ => pc_Message c
  | [] => "unknown"
  end.
Definition pending_diagnosis (reason : string) : string :=
  if strings_Contains reason "Insufficient" then
    "_Diagnosis_: cluster lacks resources. Consider scaling node pool or adjusting resource requests." +:+ nl
  else if strings_Contains reason "node(s) didn't match" then
    "_Diagnosis_: no nodes match scheduling constraints. Check nodeSelector, affinity, and taints." +:+ nl
  else if strings_Contains reason "persistentvolumeclaim" then
    "_Diagnosis_: PVC not bound. Check StorageClass and available PersistentVolumes." +:+ nl
  else "".
Definition handlePending (p : Pod) : M unit :=
  let ns := p_Namespace p in let name := p_Name p in let wl := ownerName p in
  if str_eqb (p_NodeName p) "" then return! tt
  else
  let! evs := listObjectEvents ns name in
  if negb (bool_decide (volumeFailures evs = [])) then return! tt
  else
  let! events := collectEvents ns name in
  let! url := persistLogBundle ns wl name "" (p_NodeName p) "Pending" "Pod stuck in Pending" "" events in
  let reason := pending_reason p in
  let! advice := DiagnoseWithFallback "Pod stuck Pending" (strings_Join events nl) in
  let msg := "*Pending* pod `" +:+ ns +:+ "/" +:+ name +:+ "` (>5 minutes)" +:+ nl +:+ "Reason: " +:+ reason +:+ nl
    +:+ saved url +:+ pending_diagnosis reason +:+ advice in
  postIncident ns (pod_labels p) msg ;;;
  gate (fireAlert env "Pending" ns wl name msg "warning") ;;;
  createTicket ns (pod_labels p) ("pending-" +:+ ns +:+ "-" +:+ wl)
    ("Pending: " +:+ ns +:+ "/" +:+ wl +:+ ": " +:+ reason) msg ;;;
  incident Events.SevWarning ns wl name "" "Pending" reason url "".

Definition handleInitContainerFailure (p : Pod) (initName reason : string) : M unit :=
  let ns := p_Namespace p in let name := p_Name p in let wl := ownerName p in
  let! logs := getLastLogs ns name initName 50 in
  let! events := collectEvents ns name in
  let! url := persistLogBundle ns wl name initName (p_NodeName p) "InitContainerFailed" reason logs events in
  let! fix_ := try_delete p "InitContainerFailed" "deleted pod to retry init containers"
                 "delete the pod to retry init containers" in
  let! advice := DiagnoseWithFallback ("Init container failure: " +:+ reason) (context logs events) in
  let msg := "*InitContainerFailed* on `" +:+ ns +:+ "/" +:+ name +:+ "` (init: `" +:+ initName
    +:+ "`, reason: `" +:+ reason +:+ "`)" +:+ nl +:+ saved url
    +:+ "_Check_: init container command, dependencies, volumes, and network access." +:+ nl +:+ fix_ +:+ advice in
  postIncident ns (pod_labels p) msg ;;;
  gate (fireAlert env "InitContainerFailed" ns wl name msg "warning") ;;;
  incident Events.SevWarning ns wl name "" "InitContainerFailed"
    ("Init container " +:+ initName +:+ ": " +:+ reason) url "" ;;;
  createTicket ns (pod_labels p) ("init-" +:+ ns +:+ "-" +:+ wl)
    ("InitContainerFailed: " +:+ ns +:+ "/" +:+ wl) msg.

Definition handleConfigError (p : Pod) (cname reason : string) : M unit :=
  let ns := p_Namespace p in let name := p_Name p in let wl := ownerName p in
  let! events := collectEvents ns name in
  let! url := persistLogBundle ns wl name cname (p_NodeName p) "ConfigError" reason "" events in
  let msg := "*CreateContainerConfigError* on `" +:+ ns +:+ "/" +:+ name +:+ "` (container: `" +:+ cname +:+ "`)" +:+ nl
    +:+ "Reason: " +:+ reason +:+ nl +:+ saved url
    +:+ "_Check_: referenced ConfigMaps and Secrets exist in namespace `" +:+ ns +:+ "`." +:+ nl in
  postIncident ns (pod_labels p) msg ;;;
  gate (fireAlert env "ConfigError" ns wl name msg "critical") ;;;
  incident Events.SevCritical ns wl name "" "ConfigError" reason url "" ;;;
  createTicket ns (pod_labels p) ("config-" +:+ ns +:+ "-" +:+ wl) ("ConfigError: " +:+ ns +:+ "/" +:+ wl) msg.

Definition handleRestartStorm (p : Pod) (cname : string) (restartCount : Z) : M unit :=
  let ns := p_Namespace p in let name := p_Name p in let wl := ownerName p in
  let! logs := getLastLogs ns name cname 30 in
  let! events := collectEvents ns name in
  let! url := persistLogBundle ns wl name cname (p_NodeName p) "RestartStorm"
                ("Rapid restarts: " +:+ itoa restartCount) logs events in
  let! advice := DiagnoseWithFallback "Container restart storm" (context logs events) in
  let msg := "*RestartStorm* on `" +:+ ns +:+ "/" +:+ name +:+ "` (container: `" +:+ cname
    +:+ "`, restarts: " +:+ itoa restartCount +:+ ")" +:+ nl +:+ saved url
    +:+ "_Warning_: container restarting rapidly. Likely heading toward CrashLoopBackOff." +:+ nl +:+ advice in
  postIncident ns (pod_labels p) msg ;;;
  gate (fireAlert env "RestartStorm" ns wl name msg "warning") ;;;
  incident Events.SevWarning ns wl name "" "RestartStorm"
    ("Container " +:+ cname +:+ ": " +:+ itoa restartCount +:+ " restarts") url "".

Definition additional_check (reason : string) : string :=
  if str_eqb reason "RunContainerError" then
    "_Check_: container entrypoint/command, binary exists in image, file permissions." +:+ nl
  else if str_eqb reason "ContainerCannotRun" then
    "_Check_: security context (runAsUser/readOnlyRootFilesystem), volume mount permissions." +:+ nl
  else if str_eqb reason "PostStartHookError" then
    "_Check_: postStart lifecycle hook command and timeout." +:+ nl
  else if str_eqb reason "InvalidImageName" then
    "_Check_: image reference format: must be registry/repo:tag." +:+ nl
  else if str_eqb reason "ErrImageNeverPull" then
    "_Check_: image is pre-loaded on the node, or change imagePullPolicy from Never." +:+ nl
  else "".
Definition handleAdditionalPodIssue (p : Pod) (cname reason message : string) : M unit :=
  let ns := p_Namespace p in let name := p_Name p in let wl := ownerName p in
  let! logs := getLastLogs ns name cname 30 in
  let! events := collectEvents ns name in
  let! url := persistLogBundle ns wl name cname (p_NodeName p) reason message logs events in
  let sev := if str_eqb reason "RunContainerError" || str_eqb reason "ContainerCannotRun"
                || str_eqb reason "InvalidImageName" then Events.SevCritical else Events.SevWarning in
  let! advice := DiagnoseWithFallback reason (context logs events) in
  let msg := "*" +:+ reason +:+ "* on `" +:+ ns +:+ "/" +:+ name +:+ "` (container: `" +:+ cname +:+ "`)" +:+ nl
    +:+ (if str_eqb message "" then "" else "Detail: " +:+ message +:+ nl) +:+ saved url
    +:+ additional_check reason +:+ advice in
  postIncident ns (pod_labels p) msg ;;;
  gate (fireAlert env reason ns wl name msg sev) ;;;
  incident sev ns wl name (p_NodeName p) reason message url "" ;;;
  createTicket ns (pod_labels p) (str_map lower_ascii reason +:+ "-" +:+ ns +:+ "-" +:+ wl)
    (reason +:+ ": " +:+ ns +:+ "/" +:+ wl) msg.
End handlers.

(** ** What a handler does

    A handler makes one change at most: it deletes its pod, commits or
    proposes a change to the GitOps repository. *)
Inductive change := Delete | Commit (ch : GitOpsChange) | PullRequest (ch : GitOpsChange).

Section acts.
Context {C : Type} `{!HandlerServices C} `{!YAML} (env : Env) (hd : HandlerDeps).
Abbreviation state := (option FixTracker * GState C)%type.
Implicit Types (s : state) (p : Pod).

Definition nothing s s' : Prop := s'.1 = s.1 ∧ same_cluster s.2 s'.2.
(** A gated action, and what becomes of the cluster by it. *)
Definition gated (p : Pod) (action : string) (c' : C) s s' : Prop :=
  Mode_ (env_Policy env) = Fix ∧ in_fix_scope (env_Policy env) (p_Namespace p)
  ∧ gs_cluster s'.2 = c'
  ∧ applies (gs_trace s'.2) = applies (gs_trace s.2) ++ [EApply action (p_Namespace p) (ownerName p)].
Definition made (p : Pod) (reason : string) (x : change) s s' : Prop :=
  match x with
  | Delete =>
    let r := delete_pod (p_Namespace p) (p_Name p) (gs_cluster s.2) in
    gated p "delete_pod" r.1 s s'
    ∧ match r.2 with
      | Some _ => s'.1 = s.1
      | None => ∃ now, s'.1 = RecordAction now (p_Namespace p) (ownerName p) (p_Name p) reason "delete_pod" <$> s.1
      end
  | Commit ch =>
    hd_GitOps hd = true ∧ hd_GitOpsLive hd = true
    ∧ gated p "gitops_commit" (gitops_commit ch (gs_cluster s.2)).1 s s' ∧ s'.1 = s.1
  | PullRequest ch =>
    hd_GitOps hd = true ∧ hd_GitOpsLive hd = false ∧ Mode_ (env_Policy env) = Fix
    ∧ gs_cluster s'.2 = (gitops_open ch (gs_cluster s.2)).1
    ∧ applies (gs_trace s'.2) = applies (gs_trace s.2) ∧ s'.1 = s.1
  end.
Definition acts (p : Pod) (reason : string) (can : change → Prop) s s' : Prop :=
  nothing s s' ∨ ∃ x, can x ∧ made p reason x s s'.

#[export] Instance nothing_preorder : PreOrder nothing.
Proof. split; [done|]. intros ??? [??] [??]. split; [congruence|by etrans]. Qed.

Lemma made_pre p reason x s1 s2 s3 : nothing s1 s2 → made p reason x s2 s3 → made p reason x s1 s3.
Proof. intros (Ht & Hc & Ha & _). destruct x; cbn; unfold gated; rewrite Ht, Hc, Ha; done. Qed.
Lemma made_post p reason x s1 s2 s3 : made p reason x s1 s2 → nothing s2 s3 → made p reason x s1 s3.
Proof. intros Hm (Ht & Hc & Ha & _). destruct x; cbn in *; unfold gated in *; rewrite Ht, Hc, Ha; done. Qed.
Lemma acts_pre p reason can s1 s2 s3 : nothing s1 s2 → acts p reason can s2 s3 → acts p reason can s1 s3.
Proof.
  intros H1 [H2|(x & Hx & H2)]; [left; by etrans|right]. exists x. split; [done|]. by eapply made_pre.
Qed.
Lemma acts_post p reason can s1 s2 s3 : acts p reason can s1 s2 → nothing s2 s3 → acts p reason can s1 s3.
Proof.
  intros [H2|(x & Hx & H2)] H1; [left; by etrans|right]. exists x. split; [done|]. by eapply made_post.
Qed.

(** Steps that change nothing. *)
Lemma gate_nothing {A} (m : st (GState C) A) : keeps same_cluster m → keeps nothing (gate m).
Proof. intros Hm s. specialize (Hm s.2). unfold gate, st_right. destruct (m s.2). by split. Qed.
Lemma read_nothing {A} (f : C → A) : keeps nothing (read f).
Proof. intros s. by split. Qed.
End acts.

Ltac told_step :=
  match goal with
  | |- keeps nothing (gate _) => apply gate_nothing; solve_keeps
  | |- keeps nothing (read _) => apply read_nothing
  | |- keeps nothing (st_bind _ _) => apply (keeps_bind nothing); [|intros ?]
  | |- keeps nothing (st_ret _) => apply (keeps_ret nothing)
  | |- keeps nothing (match ?x with _ => _ end) => destruct x
  end.

Section handler_specs.
Context {C : Type} `{!HandlerServices C} `{!YAML} (env : Env) (hd : HandlerDeps).
Implicit Types (p : Pod).
Lemma getLastLogs_nothing a b c n : keeps (nothing (C := C)) (getLastLogs a b c n).
Proof. unfold getLastLogs. repeat told_step. Qed.
Lemma listObjectEvents_nothing a b : keeps (nothing (C := C)) (listObjectEvents a b).
Proof. unfold listObjectEvents. repeat told_step. Qed.
Lemma collectEvents_nothing a b : keeps (nothing (C := C)) (collectEvents a b).
Proof. unfold collectEvents. repeat told_step. apply listObjectEvents_nothing. Qed.
Lemma persistLogBundle_nothing a b c d e f g h i : keeps (nothing (C := C)) (persistLogBundle env a b c d e f g h i).
Proof. unfold persistLogBundle. repeat told_step. Qed.
Lemma DiagnoseWithFallback_nothing a b : keeps (nothing (C := C)) (DiagnoseWithFallback a b).
Proof. unfold DiagnoseWithFallback. repeat told_step. Qed.
Lemma postIncident_nothing a b c : keeps (nothing (C := C)) (postIncident env hd a b c).
Proof. unfold postIncident, postSlack. repeat told_step. Qed.
Lemma createTicket_nothing a b c d e : keeps (nothing (C := C)) (createTicket env hd a b c d e).
Proof. unfold createTicket. repeat told_step. Qed.
Lemma incident_nothing a b c d e f g h i : keeps (nothing (C := C)) (incident env a b c d e f g h i).
Proof. unfold incident, recordEvent. repeat told_step. Qed.
Lemma fireAlert_nothing a b c d e f : keeps (nothing (C := C)) (gate (fireAlert env a b c d e f)).
Proof. unfold fireAlert. repeat told_step. Qed.
End handler_specs.
#[export] Hint Resolve getLastLogs_nothing listObjectEvents_nothing collectEvents_nothing
  persistLogBundle_nothing DiagnoseWithFallback_nothing postIncident_nothing createTicket_nothing
  incident_nothing fireAlert_nothing : agent.

Section handlers_act.
Context {C : Type} `{!HandlerServices C} `{!YAML} (env : Env) (hd : HandlerDeps).
Abbreviation state := (option FixTracker * GState C)%type.
Abbreviation acts := (acts env hd).
Implicit Types (s : state) (p : Pod).

Lemma acts_first {A B} p reason can (m : st state A) (k : A → st state B) s :
  keeps nothing m → (∀ a s', acts p reason can s' (k a s').2) → acts p reason can s (st_bind m k s).2.
Proof.
  intros Hm Hk. unfold st_bind. specialize (Hm s). destruct (m s) as [a s']. by eapply acts_pre.
Qed.
Lemma acts_then {A B} p reason can (m : st state A) (k : A → st state B) s :
  acts p reason can s (m s).2 → (∀ a, keeps nothing (k a)) → acts p reason can s (st_bind m k s).2.
Proof.
  intros Hm Hk. unfold st_bind. destruct (m s) as [a s']. eapply acts_post; [done|apply Hk].
Qed.
Lemma acts_nothing {A} p reason can (m : st state A) s : keeps nothing m → acts p reason can s (m s).2.
Proof. intros Hm. left. apply Hm. Qed.

Lemma gate_apply m s :
  let r := gate (applyMutation env m) s in
  (r.1.1 ≠ gateApplied ∧ r.1.1 ≠ gateFailed ∧ nothing s r.2)
  ∨ (Mode_ (env_Policy env) = Fix ∧ in_fix_scope (env_Policy env) (m_Namespace m)
     ∧ r.2.1 = s.1 ∧ gs_cluster r.2.2 = (m_Apply m (gs_cluster s.2)).1
     ∧ applies (gs_trace r.2.2) = applies (gs_trace s.2) ++ [EApply (m_ActionType m) (m_Namespace m) (m_Workload m)]
     ∧ (r.1.1 = gateApplied ∧ (m_Apply m (gs_cluster s.2)).2 = None
        ∨ r.1.1 = gateFailed ∧ (m_Apply m (gs_cluster s.2)).2 ≠ None)).
Proof.
  destruct (gate_cluster env m s.2) as [Hc Hm]. pose proof (gate_same env m s.2) as Hs. unfold gate, st_right.
  destruct (applyMutation env m s.2) as [[o msg] g]. cbn [fst snd] in *. unfold cluster_effect in Hc. cbn [fst snd] in Hc.
  destruct o; try (left; split_and!; [done|done|split; [done|by apply Hs]]).
  - right. destruct Hm as [? ?]; [auto|]. destruct Hc as (? & ? & Hf). split_and!; try done.
    right. split; [done|]. by apply Hf.
  - right. destruct Hm as [? ?]; [auto|]. destruct Hc as (? & ? & Hf). split_and!; try done.
    left. split; [done|]. destruct (m_Apply m (gs_cluster s.2)).2 eqn:E; [|done].
    exfalso. by assert (gateApplied = gateFailed) as [=] by by apply Hf.
Qed.

Lemma track_spec ns wl pod reason action s :
  let r := track env ns wl pod reason action s in
  same_cluster s.2 r.2.2 ∧ ∃ now, r.2.1 = RecordAction now ns wl pod reason action <$> s.1.
Proof.
  unfold track, st_bind at 1, st_get. destruct s as [[ft|] g]; [|by split; [|exists 0]].
  cbn. split; [done|]. by eexists.
Qed.
Lemma try_delete_acts p reason a b s : acts p reason (λ x, x = Delete) s (try_delete env p reason a b s).2.
Proof.
  unfold try_delete, tryFixAction. set (m := mkMutation _ _ _ _ _ _ _ _ _ _ _ _ _).
  unfold st_bind at 1. pose proof (gate_apply m s) as Hg. destruct (gate (applyMutation env m) s) as [[o msg] s1].
  cbn [fst snd] in *. destruct Hg as [(H1 & H2 & H3)|(Hm & Hs & Ht & Hc & Ha & Ho)].
  { rewrite (bool_decide_false (o = gateApplied)) by done. left. done. }
  right. exists Delete. split; [done|]. cbn [made].
  destruct Ho as [[-> He]|[-> He]].
  2: { cbn [negb]. change (bool_decide (gateFailed = gateApplied)) with false. cbn [negb st_ret snd].
       split; [done|]. subst m. cbn [m_Apply] in He. by destruct (delete_pod (p_Namespace p) (p_Name p) _).2. }
  change (bool_decide (gateApplied = gateApplied)) with true. cbn [negb].
  subst m. cbn [m_Apply m_ActionType m_Namespace m_Workload] in *. rewrite He.
  apply bind_spec with (P := λ r, same_cluster s1.2 r.2.2 ∧ ∃ now, r.2.1 = RecordAction now (p_Namespace p)
    (ownerName p) (p_Name p) reason "delete_pod" <$> s1.1); [apply track_spec|].
  intros [] s2 [(Hc2 & Ha2 & _) Hr]. apply (bind_keeps nothing).
  { apply gate_nothing. unfold recordEvent. solve_keeps. }
  intros _ s3 (Ht3 & Hc3 & Ha3 & _). cbn [st_ret snd] in *. unfold gated.
  rewrite Hc3, Hc2, Ha3, Ha2, Ht3. split; [by split_and!|]. by rewrite <-Ht.
Qed.

Lemma live_commit_acts p ns wl ch s :
  hd_GitOps hd = true → hd_GitOpsLive hd = true → ns = p_Namespace p → wl = ownerName p →
  acts p "OOMKilled" (λ x, x ≠ Delete) s (live_commit env p ns wl ch s).2.
Proof.
  intros Hg Hl -> ->. unfold live_commit. set (apply_ := λ c : C, _).
  set (m := mkMutation _ _ _ _ _ _ _ _ _ _ _ _ _). unfold st_bind at 1, st_get.
  apply acts_then; [|intros; apply (keeps_ret nothing)].
  destruct (gate_apply m s) as [(_ & _ & Hn)|(Hm & Hs & Ht & Hc & Ha & _)]; [by left|].
  right. exists (Commit ch). split; [done|]. by repeat split.
Qed.
Lemma open_pr_acts p ns wl ch s :
  Mode_ (env_Policy env) = Fix → hd_GitOps hd = true → hd_GitOpsLive hd = false →
  acts p "OOMKilled" (λ x, x ≠ Delete) s (open_pr env p ns wl ch s).2.
Proof.
  intros Hm Hg Hl. unfold open_pr. apply acts_first; [repeat told_step|]. intros _ s1.
  apply acts_then.
  - right. exists (PullRequest ch). split; [done|]. by split_and!.
  - intros []; repeat told_step; auto with agent.
Qed.
Lemma memoryBumpChange_nothing a b c d e : keeps (nothing (C := C)) (memoryBumpChange hd a b c d e).
Proof. unfold memoryBumpChange. repeat told_step. Qed.
Lemma memoryBumpGitOps_acts p cname lim url s :
  acts p "OOMKilled" (λ x, x ≠ Delete) s (memoryBumpGitOps env hd p (p_Namespace p) (ownerName p) cname lim url s).2.
Proof.
  unfold memoryBumpGitOps. destruct (negb (hd_GitOps hd) || _) eqn:E; [by left|].
  apply orb_false_iff in E as [Hg%negb_false_iff Hm%negb_false_iff%str_eqb_eq].
  apply acts_first; [apply memoryBumpChange_nothing|]. intros [[[[fp ct] desc] note]|note] s1; [|by left].
  apply acts_first; [repeat told_step|]. intros now s2. destruct (hd_GitOpsLive hd) eqn:Hl.
  - by apply live_commit_acts.
  - by apply open_pr_acts.
Qed.

Ltac quiet := first [by auto with agent | apply (keeps_bind nothing); [quiet|intros ?; quiet]
                    | apply (keeps_ret nothing) | case_match; quiet].
Ltac acting tac :=
  repeat (apply acts_first; [by auto with agent|intros ? ?]); apply acts_then; [tac|intros ?; quiet].

Lemma handleCrashLoop_acts p c s :
  acts p "CrashLoopBackOff" (λ x, x = Delete) s (handleCrashLoop env hd p c s).2.
Proof. unfold handleCrashLoop. acting ltac:(apply try_delete_acts). Qed.
Lemma handleNotReady_acts p c s : acts p "NotReady" (λ x, x = Delete) s (handleNotReady env hd p c s).2.
Proof. unfold handleNotReady. acting ltac:(apply try_delete_acts). Qed.
Lemma handleInitContainerFailure_acts p c r s :
  acts p "InitContainerFailed" (λ x, x = Delete) s (handleInitContainerFailure env hd p c r s).2.
Proof. unfold handleInitContainerFailure. acting ltac:(apply try_delete_acts). Qed.
Lemma handleOOM_acts p c s : acts p "OOMKilled" (λ x, x ≠ Delete) s (handleOOM env hd p c s).2.
Proof. unfold handleOOM. acting ltac:(apply memoryBumpGitOps_acts). Qed.
Lemma handlePending_nothing p : keeps nothing (handlePending (C := C) env hd p).
Proof. unfold handlePending. quiet. Qed.
Lemma handleConfigError_nothing p c r : keeps nothing (handleConfigError (C := C) env hd p c r).
Proof. unfold handleConfigError. quiet. Qed.
Lemma handleRestartStorm_nothing p c n : keeps nothing (handleRestartStorm (C := C) env hd p c n).
Proof. unfold handleRestartStorm. quiet. Qed.
Lemma handleAdditionalPodIssue_nothing p c r m : keeps nothing (handleAdditionalPodIssue (C := C) env hd p c r m).
Proof. unfold handleAdditionalPodIssue. quiet. Qed.

(** The cause the pull handler sees: the kubelet's message and the pod's
    events. *)
Definition pull_cause p (cname : string) (c : C) : pullCause :=
  classifyPull (waitingMessage p cname
    :: (event_text <$> match object_events (p_Namespace p) (p_Name p) c with inl l => l | inr _ => [] end)).
Lemma handleImagePullBackOff_acts p c s :
  acts p "ImagePullBackOff" (λ x, x = Delete ∧ pc_retry (pull_cause p c (gs_cluster s.2)) = true) s
    (handleImagePullBackOff env hd p c s).2.
Proof.
  unfold handleImagePullBackOff. set (can := λ x, _). unfold st_bind at 1.
  set (evs := event_text <$> match object_events (p_Namespace p) (p_Name p) (gs_cluster s.2) with inl l => l | inr _ => [] end).
  change (collectEvents (p_Namespace p) (p_Name p) s) with (evs, s). cbv beta iota zeta.
  change (classifyPull (waitingMessage p c :: evs)) with (pull_cause p c (gs_cluster s.2)).
  apply acts_first; [by auto with agent|]. intros url s1. apply acts_then; [|intros; quiet].
  subst can. destruct (pc_retry _); [|by left].
  destruct (try_delete_acts p "ImagePullBackOff" "deleted pod to retry image pull" "delete pod to retry image pull" s1)
    as [?|(x & -> & ?)]; [by left|right; by exists Delete].
Qed.
End handlers_act.

(** Retrying is for failures no phrase marks as permanent. *)
Definition permanent_phrases : list string := mjoin (fst <$> take 3 pullCauses).
Lemma existsb_false {A} (f : A → bool) l : existsb f l = false ↔ ∀ x, x ∈ l → f x = false.
Proof.
  rewrite <-not_true_iff_false, existsb_exists. setoid_rewrite <-list_elem_of_In.
  split.
  - intros Hn x Hx. apply not_true_iff_false. eauto.
  - intros Hn (x & Hx & Hf). by rewrite Hn in Hf.
Qed.
Lemma first_cause_retry (has : string → bool) (perm retry : list (list string * pullCause)) other :
  pc_retry other = true → Forall (λ e, pc_retry e.2 = false) perm → Forall (λ e, pc_retry e.2 = true) retry →
  pc_retry (match filter (λ e, existsb has e.1 = true) (perm ++ retry) with e :: _ => e.2 | [] => other end) = true
  ↔ ∀ ph, ph ∈ mjoin (fst <$> perm) → has ph = false.
Proof.
  intros Ho Hp Hr. induction Hp as [|[phs c] perm Hc _ IH]; cbn [app].
  - split; [intros _ ph ?%elem_of_nil; done|]. intros _. destruct (filter _ retry) as [|e l] eqn:Hf; [done|].
    rewrite Forall_forall in Hr. apply Hr. assert (He : e ∈ e :: l) by left. rewrite <-Hf in He.
    by apply list_elem_of_filter in He as [_ ?].
  - rewrite filter_cons. csimpl. setoid_rewrite elem_of_app. cbn [fst snd] in *. destruct (existsb has phs) eqn:Hph.
    + rewrite decide_True by done. cbn [snd]. rewrite Hc. split; [done|]. intros Hall. apply existsb_exists in Hph as (ph & Hin & Hp).
      apply list_elem_of_In in Hin. rewrite Hall in Hp; auto.
    + rewrite decide_False by done. rewrite IH. split; [|naive_solver].
      intros Hall ph [Hx|Hx]; [|auto]. by apply (proj1 (existsb_false _ _) Hph).
Qed.
Lemma classifyPull_retry texts :
  pc_retry (classifyPull texts) = true
  ↔ ∀ ph, ph ∈ permanent_phrases → strings_Contains (lower_search (strings_Join texts nl)) ph = false.
Proof.
  unfold classifyPull. change pullCauses with (take 3 pullCauses ++ drop 3 pullCauses).
  apply first_cause_retry; [done|by repeat constructor..].
Qed.
