(* ===== verification/Watcher.v ===== *)
(** * Watcher: from a pod update to its handler (internal/kube/watcher.go)

    [dispatch] is [handlePodUpdate] up to the handler it starts: the first
    trouble a watched pod shows, once per dedup window.  Handlers run in at
    most [maxConcurrentHandlers] goroutines; [w_step] interleaves updates
    with handlers that end.  A handler is one step: what it reads it reads at
    once.  The informers that deliver the updates are client-go's. *)
From S2P Require Import Prelude GoStd Policy RateLimit Guards Events Escalation Gate Kube FixTracker.
From S2P Require Import Findings GitopsContent PodStates Nodes Handlers.
#[local] Open Scope Z_scope.
#[local] Open Scope agent_scope.

Definition maxConcurrentHandlers : nat := 20%nat.
Definition notReadyAfter : Duration := 3 * minute.
Definition pendingAfter : Duration := 5 * minute.

(** The trouble a pod shows, with what its handler is given. *)
Inductive problem :=
| InitFailed (name reason : string) | CrashLoop (c : string) | ImagePull (c : string) | OOM (c : string)
| ConfigError (c message : string) | RestartStorm (c : string) (restarts : Z)
| Additional (c reason message : string) | NotReady (c : string) | LongPending.
(** The reason in the dedup key. *)
Definition problem_key (pr : problem) : string :=
  match pr with
  | InitFailed name _ => "InitFailed-" +:+ name
  | CrashLoop _ => "CrashLoopBackOff" | ImagePull _ => "ImagePullBackOff" | OOM _ => "OOMKilled"
  | ConfigError _ _ => "ConfigError" | RestartStorm _ _ => "RestartStorm"
  | Additional _ reason _ => reason | NotReady _ => "NotReady" | LongPending => "Pending"
  end.

(** The statuses alone tell all but two. *)
Definition init_trouble (cs : ContainerStatus) : option problem :=
  w ← cs_Waiting cs;
  if bool_decide (w_Reason w ∈ ["CrashLoopBackOff"; "Error"; "ImagePullBackOff"])
  then Some (InitFailed (cs_Name cs) (w_Reason w)) else None.
Definition status_trouble (cs : ContainerStatus) : option problem :=
  let c := cs_Name cs in
  let message := match cs_Waiting cs with Some w => w_Message w | None => "" end in
  if waits_for "CrashLoopBackOff" cs then Some (CrashLoop c)
  else if waits_for "ImagePullBackOff" cs || waits_for "ErrImagePull" cs then Some (ImagePull c)
  else if bool_decide (cs_LastTerminated cs = Some "OOMKilled") then Some (OOM c)
  else if waits_for "CreateContainerConfigError" cs then Some (ConfigError c message)
  else if (5 <=? cs_RestartCount cs) && negb (waits_for "CrashLoopBackOff" cs)
  then Some (RestartStorm c (cs_RestartCount cs))
  else match cs_Waiting cs with
       | Some w => if isAdditionalPodReason (w_Reason w) then Some (Additional c (w_Reason w) (w_Message w)) else None
       | None => None
       end.
(** A container that runs and is not ready, with no restart yet: since when
    decides. *)
Definition unready_since (cs : ContainerStatus) : option Time :=
  if negb (cs_Ready cs) && (cs_RestartCount cs =? 0) then cs_Running cs else None.

Section watcher.
Context {C : Type} (env : Env).
Abbreviation M := (st (GState C)).

Definition status_problem (cs : ContainerStatus) : M (option problem) :=
  match status_trouble cs with
  | Some pr => return! Some pr
  | None =>
    match unready_since cs with
    | None => return! None
    | Some started =>
      let! now := clock env in
      return! (if time_Before started (time_Add now (- notReadyAfter)) then Some (NotReady (cs_Name cs)) else None)
    end
  end.
Fixpoint first_problem (l : list ContainerStatus) : M (option problem) :=
  match l with
  | [] => return! None
  | cs :: l' =>
    let! r := status_problem cs in
    match r with Some pr => return! Some pr | None => first_problem l' end
  end.
Definition pending_problem (p : Pod) : M (option problem) :=
  if negb (str_eqb (p_Phase p) "Pending") then return! None
  else
    let! now := clock env in
    return! (if time_Before (p_Creation p) (time_Add now (- pendingAfter)) then Some LongPending else None).
Definition problem_of (p : Pod) : M (option problem) :=
  match omap init_trouble (p_InitStatuses p) with
  | pr :: _ => return! Some pr
  | [] =>
    let! r := first_problem (p_Statuses p) in
    match r with Some pr => return! Some pr | None => pending_problem p end
  end.
Definition pod_key (p : Pod) (pr : problem) : string := dedupKey (p_Namespace p) (ownerName p) (problem_key pr).
(** What [handlePodUpdate] hands to [runHandler]. *)
Definition dispatch (p : Pod) : M (option problem) :=
  if negb (Watched (env_Policy env) (p_Namespace p)) then return! None
  else if hasAnnotation p (ExcludedAnnotation (env_Policy env)) then return! None
  else
  let! found := problem_of p in
  match found with
  | None => return! None
  | Some pr =>
    let! ok := dedup_check env (pod_key p pr) in
    return! (match ok with Some true => Some pr | _ => None end)
  end.
End watcher.

Section handle.
Context {C : Type} `{!HandlerServices C, !YAML, !NodeAPI C} (env : Env) (hd : HandlerDeps).
Abbreviation M := (st (option FixTracker * GState C)).
(** The function given to [runHandler]. *)
Definition handle (p : Pod) (pr : problem) : M unit :=
  match pr with
  | InitFailed name reason => handleInitContainerFailure env hd p name reason
  | CrashLoop c => handleCrashLoop env hd p c
  | ImagePull c => handleImagePullBackOff env hd p c
  | OOM c => handleOOM env hd p c
  | ConfigError c message => handleConfigError env hd p c message
  | RestartStorm c n => handleRestartStorm env hd p c n
  | Additional c reason message => handleAdditionalPodIssue env hd p c reason message
  | NotReady c => handleNotReady env hd p c
  | LongPending => handlePending env hd p
  end.
End handle.

(** ** The pool *)
Inductive job := PodJob (p : Pod) (pr : problem) | NodeJob (n : Node).
(** [runHandler]: a job that finds no slot is dropped. *)
Definition runHandler (j : job) (running : list job) : list job :=
  if decide (length running < maxConcurrentHandlers)%nat then running ++ [j] else running.
Definition handlePodUpdate {C} (env : Env) (p : Pod) (running : list job) : st (GState C) (list job) :=
  let! r := dispatch env p in
  return! (match r with Some pr => runHandler (PodJob p pr) running | None => running end).
Definition node_update (old new : Node) (running : list job) : list job :=
  if pressureChanged old new then runHandler (NodeJob new) running else running.
(** The informers of [StartWatchers] ask for the pods of the agent's own node,
    for all of them when it has no name, and for the agent's own node. *)
Definition pod_delivered (nodeName : string) (p : Pod) : bool := str_eqb nodeName "" || str_eqb (p_NodeName p) nodeName.
Definition node_delivered (nodeName : string) (n : Node) : bool := str_eqb (n_Name n) nodeName.
Definition on_pod {C} (env : Env) (p : Pod) (running : list job) : st (GState C) (list job) :=
  if pod_delivered (env_NodeName env) p then handlePodUpdate env p running else return! running.
Definition on_node (env : Env) (old new : Node) (running : list job) : list job :=
  if node_delivered (env_NodeName env) new then node_update old new running else running.
Definition run_job {C} `{!HandlerServices C, !YAML, !NodeAPI C} (env : Env) (hd : HandlerDeps) (j : job)
    : st (option FixTracker * GState C) unit :=
  match j with
  | PodJob p pr => handle env hd p pr
  | NodeJob n => gate (handleNodePressure env n)
  end.

(** ** What is dispatched *)

(** The pod's status shows the trouble, whatever the clock says. *)
Definition shows (p : Pod) (pr : problem) : Prop :=
  pr ∈ omap init_trouble (p_InitStatuses p)
  ∨ pr ∈ omap status_trouble (p_Statuses p)
  ∨ (∃ cs, cs ∈ p_Statuses p ∧ is_Some (unready_since cs) ∧ pr = NotReady (cs_Name cs))
  ∨ (p_Phase p = "Pending" ∧ pr = LongPending).

Section dispatch.
Context {C : Type} (env : Env).
Implicit Types (s : GState C) (p : Pod).

Lemma problem_of_dedup p : keeps (λ s s', same_cluster (C := C) s s' ∧ gs_dedup s' = gs_dedup s) (problem_of env p).
Proof.
  assert (HP : PreOrder (λ s s', same_cluster (C := C) s s' ∧ gs_dedup s' = gs_dedup s)).
  { split; [by repeat split|]. intros ??? [? Hx] [? Hy]. split; [by etrans|congruence]. }
  unfold problem_of. destruct (omap _ _); [|apply (keeps_ret _)]. apply (keeps_bind _).
  - induction (p_Statuses p) as [|cs l IH]; cbn [first_problem]; [apply (keeps_ret _)|].
    apply (keeps_bind _); [|intros []; [apply (keeps_ret _)|done]]. unfold status_problem.
    destruct (status_trouble cs); [apply (keeps_ret _)|]. destruct (unready_since cs); [|apply (keeps_ret _)].
    apply (keeps_bind _); [by intros s|]. intros. apply (keeps_ret _).
  - intros []; [apply (keeps_ret _)|]. unfold pending_problem. destruct (negb _); [apply (keeps_ret _)|].
    apply (keeps_bind _); [by intros s|]. intros. apply (keeps_ret _).
Qed.
Lemma first_problem_shows l s pr :
  (first_problem env l s).1 = Some pr →
  pr ∈ omap status_trouble l ∨ ∃ cs, cs ∈ l ∧ is_Some (unready_since cs) ∧ pr = NotReady (cs_Name cs).
Proof.
  revert s. induction l as [|cs l IH]; intros s; cbn [first_problem]; [done|].
  unfold st_bind at 1. unfold status_problem at 1. cbn [omap list_omap]. destruct (status_trouble cs) as [pr'|] eqn:Ht.
  { intros [= <-]. left. left. }
  assert (Hrest : ∀ s, (first_problem env l s).1 = Some pr → pr ∈ omap status_trouble l
    ∨ ∃ cs', cs' ∈ cs :: l ∧ is_Some (unready_since cs') ∧ pr = NotReady (cs_Name cs')).
  { intros s' [?|(cs' & ? & ?)]%IH; [by left|right; exists cs'; split; [by right|done]]. }
  destruct (unready_since cs) as [t|] eqn:Hu; [|apply Hrest].
  unfold st_bind at 1, clock. cbn [st_ret]. destruct (time_Before t _); [|apply Hrest].
  intros [= <-]. right. exists cs. split; [left|]. by rewrite Hu.
Qed.
Lemma problem_of_shows p s pr : (problem_of env p s).1 = Some pr → shows p pr.
Proof.
  unfold problem_of, shows. destruct (omap init_trouble _) as [|pr' l] eqn:Hi.
  2: { intros [= <-]. left. left. }
  unfold st_bind at 1. destruct (first_problem env (p_Statuses p) s) as [[pr'|] s1] eqn:Hf.
  - intros [= <-]. right. destruct (first_problem_shows (p_Statuses p) s pr') as [?|?]; [by rewrite Hf|auto..].
  - unfold pending_problem. destruct (str_eqb (p_Phase p) "Pending") eqn:Hp; [|done].
    apply str_eqb_eq in Hp. cbn [negb]. unfold st_bind, clock. cbn [st_ret]. destruct (time_Before _ _); [|done].
    intros [= <-]. auto.
Qed.

(** What it takes for a pod's trouble to be handed to a handler. *)
Record dispatched p pr s s' : Prop := {
  di_watched : Watched (env_Policy env) (p_Namespace p) = true;
  di_included : hasAnnotation p (ExcludedAnnotation (env_Policy env)) = false;
  di_shows : shows p pr;
  di_window : ∃ d d' t, gs_dedup s = Some d ∧ gs_dedup s' = Some d'
    ∧ (∀ u, seen d !! pod_key p pr = Some u → u ≤ t)
    ∧ seen d' !! pod_key p pr = Some (t + dd_ttl d)
}.
Lemma dispatch_spec p s :
  let r := dispatch env p s in
  same_cluster s r.2 ∧ match r.1 with Some pr => dispatched p pr s r.2 | None => True end.
Proof.
  set (Q := λ r : option problem * GState C,
    same_cluster s r.2 ∧ match r.1 with Some pr => dispatched p pr s r.2 | None => True end).
  change (Q (dispatch env p s)). unfold dispatch.
  destruct (Watched _ _) eqn:Hw; [|by split]. destruct (hasAnnotation _ _) eqn:Hx; [by split|]. cbn [negb].
  unfold st_bind at 1. pose proof (problem_of_dedup p s) as [Hc Hd]. pose proof (problem_of_shows p s) as Hs.
  destruct (problem_of env p s) as [[pr|] s1]; cbn [fst snd] in *; [|by split].
  rewrite bind_answer. pose proof (dedup_check_cluster env (pod_key p pr) s1) as Hc'. unfold Q. cbn [fst snd].
  split; [by etrans|]. destruct (dedup_check env (pod_key p pr) s1) as [[[]|] s2] eqn:Hk; try done.
  cbn [fst snd] in *. split; [done|done|by apply Hs|].
  unfold dedup_check, st_bind at 1, st_get in Hk. destruct (gs_dedup s1) as [d|] eqn:Hd1; [|done].
  unfold st_bind, clock, st_modify in Hk. cbn in Hk. set (t := env_Clock env (gs_tick s1)) in *.
  injection Hk as Ht <-. exists d, (Check t (pod_key p pr) d).2, t. split_and!; [congruence|done| |];
    unfold Check, CheckFor, time_Before, time_Add in *.
  - intros u Hu. rewrite Hu in Ht. destruct (Z.ltb_spec t u); [done|lia].
  - destruct (seen d !! pod_key p pr) as [u|] eqn:Hu; [destruct (t <? u); [done|]|]; apply lookup_insert_eq.
Qed.
End dispatch.

(** ** Runs of the watcher *)
Record w_conf {C : Type} := mkWConf { w_running : list job; w_state : option FixTracker * GState C }.
Arguments w_conf : clear implicits.

Section runs.
Context {C : Type} `{!HandlerServices C, !YAML, !NodeAPI C} (hd : HandlerDeps).
(** One step, in the environment it reads: the policy in force, and the name
    of the agent's node.  The informers deliver an update of a pod or of a
    node; a handler that runs ends. *)
Inductive w_step (env : Env) : w_conf C → w_conf C → Prop :=
| w_pod p running ft s :
    let r := on_pod env p running s in
    w_step env (mkWConf _ running (ft, s)) (mkWConf _ r.1 (ft, r.2))
| w_node old new running s :
    w_step env (mkWConf _ running s) (mkWConf _ (on_node env old new running) s)
| w_end before j after s :
    w_step env (mkWConf _ (before ++ j :: after) s) (mkWConf _ (before ++ after) (run_job env hd j s).2).
(** The policy, and with it the environment, may be another at each step. *)
Definition w_run : w_conf C → w_conf C → Prop := rtc (λ cf cf', ∃ env, w_step env cf cf').

(** What a handler may do for a trouble. *)
Definition may (p : Pod) (pr : problem) (c : C) (x : change) : Prop :=
  match pr with
  | InitFailed _ _ | CrashLoop _ | NotReady _ => x = Delete
  | ImagePull cname => x = Delete ∧ pc_retry (pull_cause p cname c) = true
  | OOM _ => x ≠ Delete
  | _ => False
  end.
Definition problem_reason (pr : problem) : string :=
  match pr with InitFailed _ _ => "InitContainerFailed" | _ => problem_key pr end.

Lemma handle_acts env p pr s :
  acts env hd p (problem_reason pr) (may p pr (gs_cluster s.2)) s (handle env hd p pr s).2.
Proof.
  destruct pr; cbn [handle problem_reason problem_key may].
  - apply handleInitContainerFailure_acts.
  - apply handleCrashLoop_acts.
  - apply handleImagePullBackOff_acts.
  - apply handleOOM_acts.
  - left. apply handleConfigError_nothing.
  - left. apply handleRestartStorm_nothing.
  - left. apply handleAdditionalPodIssue_nothing.
  - apply handleNotReady_acts.
  - left. apply handlePending_nothing.
Qed.

(** The jobs that run were dispatched for a trouble their pod showed. *)
Definition job_ok (j : job) : Prop :=
  match j with PodJob p pr => shows p pr | NodeJob n => True end.
Definition w_ok (cf : w_conf C) : Prop :=
  (length (w_running cf) ≤ maxConcurrentHandlers)%nat ∧ Forall job_ok (w_running cf).
Lemma runHandler_ok j running :
  job_ok j → (length running ≤ maxConcurrentHandlers)%nat → Forall job_ok running →
  (length (runHandler j running) ≤ maxConcurrentHandlers)%nat ∧ Forall job_ok (runHandler j running).
Proof.
  intros Hj Hl Hf. unfold runHandler. case_decide; [|done]. rewrite length_app. cbn.
  split; [lia|]. by apply Forall_app_2; [|apply Forall_singleton].
Qed.
Lemma w_step_ok env cf cf' : w_step env cf cf' → w_ok cf → w_ok cf'.
Proof.
  intros [p running ft s r|old new running s|before j after s]; unfold w_ok; cbn [w_running]; intros [Hl Hf].
  - subst r. unfold on_pod. destruct (pod_delivered _ p); [|done]. unfold handlePodUpdate. rewrite bind_answer. cbn [fst].
    pose proof (dispatch_spec env p s) as [_ Hd]. destruct (dispatch env p s).1 as [pr|]; [|done].
    apply runHandler_ok; [|done..]. by destruct Hd.
  - unfold on_node, node_update. destruct (node_delivered _ new); [|done].
    destruct (pressureChanged old new); [|done]. by apply runHandler_ok.
  - rewrite length_app in *. cbn in Hl. apply Forall_app in Hf as [H1 [_ H2]%Forall_cons].
    split; [lia|by apply Forall_app_2].
Qed.
Lemma w_run_ok s cf : w_run (mkWConf _ [] s) cf → w_ok cf.
Proof.
  intros Hr. assert (w_ok (mkWConf _ [] s)) as H0 by (split; cbn; [lia|constructor]).
  induction Hr as [|a b c [env Hab] _ IH]; [done|]. by eapply IH, w_step_ok.
Qed.

(** C4: Changes to the cluster in any run of the watcher, with the policy free
    to change at each step: at most twenty handlers run, and a step in an
    environment changes the cluster only as a handler that ends, in the fix
    mode of that environment, for a trouble its pod showed: deleting that pod
    for the troubles a fresh pod can cure (a failed image pull only when
    nothing says it is permanent), committing or proposing a GitOps change
    for an OOM kill, or relieving the node that this environment names as the
    agent's own; and a deletion that succeeded is recorded for verification. *)
Theorem watcher_changes_little env s cf cf' :
  w_run (mkWConf _ [] s) cf → w_step env cf cf' →
  (length (w_running cf') ≤ maxConcurrentHandlers)%nat
  ∧ (nothing (w_state cf) (w_state cf')
     ∨ (∃ p pr x, PodJob p pr ∈ w_running cf ∧ shows p pr
          ∧ may p pr (gs_cluster (w_state cf).2) x
          ∧ made env hd p (problem_reason pr) x (w_state cf) (w_state cf'))
     ∨ (∃ n l, NodeJob n ∈ w_running cf ∧ did env l (w_state cf).2 (w_state cf').2
          ∧ node_may env n (gs_cluster (w_state cf).2) l)).
Proof.
  intros Hr Hs. pose proof (w_run_ok _ _ Hr) as Hok. split; [by apply (w_step_ok env cf)|].
  destruct Hok as [_ Hjobs]. destruct Hs as [p running ft g r|old new running g|before j after g]; cbn [w_running w_state] in *.
  - left. subst r. unfold on_pod. destruct (pod_delivered _ p); [|done].
    unfold handlePodUpdate. rewrite bind_answer. split; [done|]. apply dispatch_spec.
  - by left.
  - apply Forall_app in Hjobs as [_ [Hj _]%Forall_cons]. destruct j as [p pr|n]; cbn [run_job job_ok] in *.
    + destruct (handle_acts env p pr g) as [?|(x & Hx & Hm)]; [by left|]. right. left.
      exists p, pr, x. split_and!; [apply elem_of_app; right; left|done..].
    + right. right. destruct (node_pressure_confined' env n g.2) as (l & Hd & Hl).
      exists n, l. split_and!; [apply elem_of_app; right; left| |done].
      unfold gate, st_right. by destruct (handleNodePressure env n g.2).
Qed.
End runs.

(** A handler is started for a watched pod without the exclusion annotation,
    for a trouble its status shows, when no window of that trouble of its
    workload is open; and doing so opens one. *)
Theorem dispatch_once_per_window {C} env p (s : GState C) pr s' :
  dispatch env p s = (Some pr, s') → dispatched env p pr s s' ∧ same_cluster s s'.
Proof. intros Hd. pose proof (dispatch_spec env p s) as [Hc Hr]. rewrite Hd in *. done. Qed.

(** The window opens before a slot is sought: when twenty handlers run, the
    incident is dropped, and its workload is not looked at again for that
    trouble until the window closes. *)
Lemma full_pool_drops_incident {C} env p (s : GState C) pr s' running :
  dispatch env p s = (Some pr, s') → length running = maxConcurrentHandlers →
  handlePodUpdate env p running s = (running, s')
  ∧ ∃ d' t, gs_dedup s' = Some d' ∧ seen d' !! pod_key p pr = Some t.
Proof.
  intros Hd Hl. split.
  - unfold handlePodUpdate. rewrite bind_answer, Hd. cbn [fst snd]. unfold runHandler.
    by rewrite decide_False by lia.
  - pose proof (dispatch_spec env p s) as [_ Hr]. rewrite Hd in Hr. destruct Hr as [_ _ _ (d & d' & t & _ & Hd' & _ & Ht)].
    exists d'. by eexists.
Qed.

(** ** Evaluation *)
#[local] Existing Instance NodeDemo.api.
Module WatcherDemo.
#[export] Instance yaml : YAML := {|
  yaml_parse _ := inr "not YAML"; yaml_encode _ := inr "no"; parse_quantity _ := Some (512 * 1024 * 1024)
|}.
(** The cluster is the names of the pods. *)
#[export] Instance services : HandlerServices (list string) := {|
  stream_logs _ _ _ _ _ := inl ("panic: nil map", None);
  object_events _ name _ :=
    inl (if str_eqb name "pull-0"
         then [mkKEvent "e" "Pod" name "" "Warning" "Failed" "Failed to pull image: 401 Unauthorized" 1 None 0 0 0]
         else []);
  sink_save key _ _ := inl ("efs/" +:+ key);
  diagnose _ _ _ := "";
  delete_pod _ name c := (filter (λ n, n ≠ name) c, None);
  gitops_read _ _ := inr "no file";
  gitops_commit _ c := (c, ("", Some "no"));
  gitops_open _ c := (c, inl "https://git/pr/1")
|}.
Definition hd : HandlerDeps := mkHandlerDeps false (Some "jira") None true "" false.
Definition waiting (c reason : string) : ContainerStatus :=
  mkStatus c false 0 (Some (mkWaiting reason "")) None None.
Definition pod (name : string) (cs : ContainerStatus) : Pod :=
  mkPod "shop" name name ∅ ∅ [] 0 None [] "node-1" "" None None [] []
    [mkContainer "app" "shop/app:1" (Some "512Mi") None None None] "Running" "" "" [] [] [cs].
Definition crash : Pod := pod "web-0" (waiting "app" "CrashLoopBackOff").
Definition pull : Pod := pod "pull-0" (waiting "app" "ErrImagePull").
Definition oom : Pod := pod "api-0" (mkStatus "app" true 1 None (Some 0) (Some "OOMKilled")).
Definition start : GState (list string) :=
  mkGState _ 0 (Some (NewBlastRadiusTracker GateDemo.now 9 hour)) None None
    (Some (NewActionLimiter 10 (10 * minute))) None (Some (NewDeduplicator hour)) None ["web-0"; "pull-0"; "api-0"] [].
Definition conf0 : w_conf (list string) := mkWConf _ [] (Some (NewFixTracker 9), start).
Definition env : Env := GateDemo.env Fix.
(** An update, and the end of the handler it started. *)
Definition update (p : Pod) (cf : w_conf (list string)) : w_conf (list string) :=
  let r := on_pod env p (w_running cf) (w_state cf).2 in
  mkWConf _ r.1 ((w_state cf).1, r.2).
Definition finish (cf : w_conf (list string)) : w_conf (list string) :=
  match w_running cf with
  | j :: js => mkWConf _ js (run_job env hd j (w_state cf)).2
  | [] => cf
  end.
Definition summary (cf : w_conf (list string)) : list string * list effect * list string :=
  (gs_cluster (w_state cf).2, applies (gs_trace (w_state cf).2),
   match (w_state cf).1 with Some ft => fr_Pod <$> ft_pending ft | None => [] end).
End WatcherDemo.
#[local] Existing Instance WatcherDemo.yaml.
#[local] Existing Instance WatcherDemo.services.

Example watcher_runs :
  let cf := WatcherDemo.finish (WatcherDemo.update WatcherDemo.crash WatcherDemo.conf0) in
  WatcherDemo.summary cf = (["pull-0"; "api-0"], [EApply "delete_pod" "shop" "pod/web-0"], ["web-0"])
  ∧ w_running (WatcherDemo.update WatcherDemo.crash cf) = []
  ∧ WatcherDemo.summary (WatcherDemo.finish (WatcherDemo.update WatcherDemo.oom
      (WatcherDemo.finish (WatcherDemo.update WatcherDemo.pull cf)))) = WatcherDemo.summary cf
  ∧ omap (λ e, match e with EPullRequest branch path => Some (branch, path) | _ => None end)
      (gs_trace (w_state (WatcherDemo.finish (WatcherDemo.update WatcherDemo.oom WatcherDemo.conf0))).2)
    = [("auto-agent/oom-shop-pod-api-0--62131996800", "patches/shop/api-0-memory-bump.yaml")].
Proof. split_and!; vm_compute; reflexivity. Qed.

Lemma watcher_changes_little_witness :
  let env := WatcherDemo.env in
  let cf := WatcherDemo.update WatcherDemo.crash WatcherDemo.conf0 in
  let cf' := WatcherDemo.finish cf in
  gs_cluster (w_state cf').2 = ["pull-0"; "api-0"]
  ∧ (length (w_running cf') ≤ maxConcurrentHandlers)%nat
  ∧ (nothing (w_state cf) (w_state cf')
     ∨ (∃ p pr x, PodJob p pr ∈ w_running cf ∧ shows p pr ∧ may p pr (gs_cluster (w_state cf).2) x
          ∧ made env WatcherDemo.hd p (problem_reason pr) x (w_state cf) (w_state cf'))
     ∨ (∃ n l, NodeJob n ∈ w_running cf ∧ did env l (w_state cf).2 (w_state cf').2
          ∧ node_may env n (gs_cluster (w_state cf).2) l)).
Proof.
  intros env cf cf'. split; [vm_compute; reflexivity|].
  apply (watcher_changes_little WatcherDemo.hd env (w_state WatcherDemo.conf0) cf cf').
  - eapply rtc_l; [exists env|apply rtc_refl].
    apply (w_pod WatcherDemo.hd env WatcherDemo.crash [] (Some (NewFixTracker 9)) WatcherDemo.start).
  - apply (w_end WatcherDemo.hd env [] (PodJob WatcherDemo.crash (CrashLoop "app")) [] (w_state cf)).
Defined.

Lemma dispatch_once_per_window_witness :
  let r := dispatch WatcherDemo.env WatcherDemo.oom WatcherDemo.start in
  r.1 = Some (OOM "app")
  ∧ dispatched WatcherDemo.env WatcherDemo.oom (OOM "app") WatcherDemo.start r.2
  ∧ same_cluster WatcherDemo.start r.2.
Proof.
  intros r. split; [vm_compute; reflexivity|].
  apply (dispatch_once_per_window WatcherDemo.env WatcherDemo.oom WatcherDemo.start (OOM "app") r.2).
  vm_compute. reflexivity.
Defined.
