(* ===== verification/Workloads.v ===== *)
(** * Workloads: stuck rollouts, evicted pods, Services (internal/kube/workloads.go)

    The leader's checks of Deployments, Failed pods and Services.  A rollback
    goes through the gate and re-reads the Deployment on every attempt;
    cleanup is one gated action per namespace, on its own budget.  What the
    API server lists and answers is a parameter ([WorkloadAPI]); a label
    selector prints as Kubernetes prints it. *)
From S2P Require Import Prelude GoStd Policy RateLimit Guards Events Escalation Gate Kube FixTracker.
From S2P Require Import Findings GitopsContent Scheduling PodStates Handlers.
From Stdlib Require Import Ascii.
#[local] Open Scope Z_scope.
#[local] Open Scope agent_scope.

(** ** Objects *)

(** A pod template: its labels, and the rest. *)
Record Template := mkTemplate { tp_labels : gmap string string; tp_rest : string }.
Record ReplicaSet := mkReplicaSet {
  rs_Name : string; rs_Owners : list OwnerReference; rs_Annotations : gmap string string;
  rs_Template : Template
}.
(** A Deployment as it is read and written: what an update sends. *)
Record DeployObj := mkDeployObj {
  do_Version : string; do_Annotations : gmap string string; do_Template : Template; do_Rest : string
}.
Inductive update_error := Conflict | UpdateError (e : string).
Record Service := mkService {
  sv_Namespace : string; sv_Name : string; sv_Selector : gmap string string; sv_Type : string;
  sv_Creation : Time
}.
(** An endpoint slice: its Service, and per endpoint how many addresses and
    the ready condition. *)
Record EndpointSlice := mkSlice { es_Service : string; es_Endpoints : list (Z * option bool) }.

Class WorkloadAPI (C : Type) := {
  deployments_in : string → C → list Deployment + string;
  replicasets_in : string → C → list ReplicaSet + string;
  get_deploy : string → string → C → DeployObj + string;
  update_deploy : string → string → DeployObj → C → C * option update_error;
  conflict_text : string;
  failed_pods : string → C → list Pod + string;
  services_in : string → C → list Service + string;
  slices_in : string → C → list EndpointSlice + string;
  selector_text : gmap string string → string
}.

(** ** Stuck rollouts *)
Definition isRolloutStuck (d : Deployment) : bool :=
  existsb (λ c, str_eqb (dc_Type c) "Progressing" && str_eqb (dc_Status c) "False"
                && str_eqb (dc_Reason c) "ProgressDeadlineExceeded") (d_Conditions d).
Definition progress_message (d : Deployment) : string :=
  match filter (λ c, dc_Type c = "Progressing") (d_Conditions d) with
  | c :: _ => dc_Message c
  | [] => ""
  end.

(** [fmt.Sscanf(s, %d)] on a fresh 64-bit integer: spaces other than
    newlines, a sign, digits; 0 when it fails. *)
Definition parseRevision (s : string) : Z :=
  let s := trim_words (filter (λ w, w ≠ nl) space_runes) (String.length s) s in
  let '(neg, s) := match s with
                   | String "-" s' => (true, s')
                   | String "+" s' => (false, s')
                   | _ => (false, s)
                   end in
  let digits := (span_digits s).1 in
  match unsigned_val digits with
  | Some n => let v := if neg : bool then - n else n in
              if (min_int64 <=? v) && (v <=? max_int64) then v else 0
  | None => 0
  end.
Definition revisionAnnotation : string := "deployment.kubernetes.io/revision".
Definition revision (rs : ReplicaSet) : Z := parseRevision (default "" (rs_Annotations rs !! revisionAnnotation)).
Definition ownedByDeployment (rs : ReplicaSet) (name : string) : bool :=
  existsb (λ o, str_eqb (ow_Kind o) "Deployment" && str_eqb (ow_Name o) name) (rs_Owners rs).

(** The loop over the ReplicaSets: the newest and the second newest
    revision. *)
Record newest := mkNewest { nw_cur : option ReplicaSet; nw_max : Z; nw_prev : option ReplicaSet; nw_prevRev : Z }.
Definition newest_step (w : newest) (rs : ReplicaSet) : newest :=
  let rev := revision rs in
  if nw_max w <? rev then mkNewest (Some rs) rev (nw_cur w) (nw_max w)
  else if (nw_prevRev w <? rev) && (rev <? nw_max w) then mkNewest (nw_cur w) (nw_max w) (Some rs) rev
  else w.
Definition newest_two (l : list ReplicaSet) : newest := foldl newest_step (mkNewest None 0 None 0) l.

Definition hashLabel : string := "pod-template-hash".
Definition rollback_template (rs : ReplicaSet) : Template :=
  mkTemplate (delete hashLabel (tp_labels (rs_Template rs))) (tp_rest (rs_Template rs)).
Definition rollback_object (w : newest) (t : Template) (d : DeployObj) : DeployObj :=
  mkDeployObj (do_Version d)
    (<["auto-agent.io/rollback-to" := itoa (nw_prevRev w)]>
       (<["auto-agent.io/rollback-from" := itoa (nw_max w)]> (do_Annotations d))) t (do_Rest d).
(** [retry.RetryOnConflict(retry.DefaultRetry, …)]: five attempts at most;
    another error, or the last conflict, is returned. *)
Fixpoint retry_update `{WorkloadAPI C} (attempts : nat) (ns name : string) (change : DeployObj → DeployObj) (c : C)
    : C * option string :=
  match attempts with
  | O => (c, Some conflict_text)
  | S n =>
    match get_deploy ns name c with
    | inr e => (c, Some e)
    | inl d =>
      let '(c', err) := update_deploy ns name (change d) c in
      match err with
      | None => (c', None)
      | Some (UpdateError e) => (c', Some e)
      | Some Conflict => retry_update n ns name change c'
      end
    end
  end.

Section workloads.
Context {C : Type} `{!HandlerServices C, !YAML, !WorkloadAPI C, !PodReads C} (env : Env) (hd : HandlerDeps).
Abbreviation M := (st (option FixTracker * GState C)).

Definition rollbackDeployment (ns name : string) (labels : option (gmap string string)) : M string :=
  let! listed := read (replicasets_in ns) in
  match listed with
  | inr e => return! ("_Action_: rollback failed (cannot list ReplicaSets): " +:+ e +:+ nl)
  | inl l =>
    let w := newest_two (filter (λ rs, ownedByDeployment rs name = true) l) in
    match nw_prev w with
    | None => return! ("_Action_: rollback skipped, no previous revision found." +:+ nl)
    | Some prev =>
      tryFixAction env ns name "" labels "RolloutStuck" "rollback"
        (retry_update 5 ns name (rollback_object w (rollback_template prev)))
        ("rolled back from revision " +:+ itoa (nw_max w) +:+ " to " +:+ itoa (nw_prevRev w))
        ("run `kubectl rollout undo deployment/" +:+ name +:+ " -n " +:+ ns +:+ "` to roll back to revision "
         +:+ itoa (nw_prevRev w))
    end
  end.

Definition handleStuckRollout (d : Deployment) : M unit :=
  let ns := d_Namespace d in let name := d_Name d in
  let! events := collectEvents ns name in
  let! url := persistLogBundle env ns name name "" "" "RolloutStuck" "ProgressDeadlineExceeded" "" events in
  let! rolled := rollbackDeployment ns name (d_TemplateLabels d) in
  let! advice := DiagnoseWithFallback "Deployment rollout stuck" (strings_Join events nl) in
  let msg := "*RolloutStuck* on `" +:+ ns +:+ "/" +:+ name +:+ "`: ProgressDeadlineExceeded" +:+ nl
    +:+ "Replicas: " +:+ itoa (replicas_of d) +:+ " desired, " +:+ itoa (d_UpdatedReplicas d) +:+ " updated, "
    +:+ itoa (d_AvailableReplicas d) +:+ " available" +:+ nl
    +:+ (if str_eqb (progress_message d) "" then "" else "Progress: " +:+ progress_message d +:+ nl)
    +:+ saved url +:+ rolled +:+ advice
    +:+ "_Rung " +:+ Rung_String RungAuto +:+ ", " +:+ rungNames RungAuto +:+ "_" +:+ nl in
  gate (postSlack msg) ;;;
  gate (fireAlert env "RolloutStuck" ns name "" msg "critical") ;;;
  incident env Events.SevCritical ns name "" "" "RolloutStuck"
    ("ProgressDeadlineExceeded (" +:+ itoa (d_AvailableReplicas d) +:+ "/" +:+ itoa (replicas_of d) +:+ " available)")
    url (Rung_String RungAuto) ;;;
  createTicket env hd ns (d_TemplateLabels d) ("rollout-" +:+ ns +:+ "-" +:+ name)
    ("RolloutStuck: " +:+ ns +:+ "/" +:+ name) msg.

Fixpoint stuck_all (ns : string) (l : list Deployment) : M unit :=
  match l with
  | [] => return! tt
  | d :: l' =>
    (if isRolloutStuck d then
       let! ok := gate (dedup_check env (dedupKey ns (d_Name d) "RolloutStuck")) in
       match ok with Some true => handleStuckRollout d | _ => return! tt end
     else return! tt) ;;;
    stuck_all ns l'
  end.
Fixpoint each_ns (f : string → M unit) (nss : list string) : M unit :=
  match nss with [] => return! tt | ns :: nss' => f ns ;;; each_ns f nss' end.
Definition watched_ns : M (list string) :=
  read (λ c, watchedNamespaces (env_Policy env) (namespaces_of c)).
Definition CheckStuckRollouts : M unit :=
  let! nss := watched_ns in
  each_ns (λ ns, let! l := read (deployments_in ns) in
                 match l with inl l => stuck_all ns l | inr _ => return! tt end) nss.

(** ** Evicted pods *)
Definition evictedReasons : list string := ["Evicted"; "NodeAffinity"; "Shutdown"; "UnexpectedAdmissionError"].
(** [Apply]: every pod is tried; how many went, and the errors. *)
Fixpoint delete_pods (ns : string) (names : list string) (c : C) : C * (Z * list string) :=
  match names with
  | [] => (c, (0, []))
  | n :: names' =>
    let '(c1, err) := delete_pod ns n c in
    let '(c2, (cleaned, errs)) := delete_pods ns names' c1 in
    match err with
    | Some e => (c2, (cleaned, ("delete pod " +:+ ns +:+ "/" +:+ n +:+ ": " +:+ e) :: errs))
    | None => (c2, (1 + cleaned, errs))
    end
  end.
(** [errors.Join]. *)
Definition errors_Join (errs : list string) : option string :=
  match errs with [] => None | _ => Some (strings_Join errs nl) end.
Definition evicted_names (pods : list Pod) : list string :=
  p_Name <$> filter (λ p, p_Reason p ∈ evictedReasons) pods.
Definition cleanup_mutation (ns : string) (names : list string) : mutation C :=
  mkMutation C ns "evicted-pods" "" None "CleanupEvicted" "cleanup_evicted"
    ("removed evicted or failed pods in " +:+ ns)
    ("remove " +:+ itoa (Z.of_nat (length names)) +:+ " evicted or failed pods in " +:+ ns)
    (λ c, let r := delete_pods ns names c in (r.1, errors_Join r.2.2)) "" None true.
Definition cleanup_ns (ns : string) : M unit :=
  let! listed := read (failed_pods ns) in
  match listed with
  | inr _ => return! tt
  | inl pods =>
    match evicted_names pods with
    | [] => return! tt
    | names =>
      let! s := st_get in
      let! r := gate (applyMutation env (cleanup_mutation ns names)) in
      let cleaned := if bool_decide (r.1 = gateApplied ∨ r.1 = gateFailed)
                     then (delete_pods ns names (gs_cluster s.2)).2.1 else 0 in
      if 0 <? cleaned then
        gate (recordEvent env (mkEvent 0 0 Action Events.SevInfo ns "" "" "" "CleanupEvicted"
          ("Removed " +:+ itoa cleaned +:+ " evicted/failed pods") "" "" "" "" "" ""))
      else return! tt
    end
  end.
Definition CleanupEvictedPods : M unit := let! nss := watched_ns in each_ns cleanup_ns nss.
End workloads.

(** ** Services without endpoints *)
Definition serviceGrace : Duration := 2 * minute.
(** Ready addresses per Service; an unset condition is ready. *)
Definition readyEndpoints (l : list EndpointSlice) (svc : string) : Z :=
  foldr Z.add 0 (mjoin ((λ s, if str_eqb (es_Service s) svc
    then (λ e, if (0 <? e.1) && default true e.2 then e.1 else 0) <$> es_Endpoints s else []) <$> l)).
Definition selects (sel labels : gmap string string) : bool := bool_decide (sel ⊆ labels).
Definition podState (p : Pod) : string :=
  p_Phase p +:+ (if existsb (λ c, str_eqb (pc_Type c) "Ready" && str_eqb (pc_Status c) "True") (p_Conditions p)
                 then ", ready" else ", not ready").

(** The pods that share labels with the selector: how many agree, and the
    values that differ. *)
Record near := mkNear { nr_name : string; nr_score : Z; nr_diff : list string }.
Definition near_of (sel : gmap string string) (p : Pod) : near :=
  let pairs := map_to_list sel in
  mkNear (p_Name p)
    (Z.of_nat (length (filter (λ kv, p_Labels p !! kv.1 = Some kv.2) pairs)))
    (sort_strings (omap (λ kv, match p_Labels p !! kv.1 with
                               | Some got => if str_eqb got kv.2 then None else Some (kv.1 +:+ "=" +:+ got)
                               | None => None
                               end) pairs)).
Definition near_le (a b : near) : Prop :=
  if decide (nr_score a = nr_score b) then String.le (nr_name a) (nr_name b) else nr_score b < nr_score a.
#[export] Instance near_le_dec : RelDecision near_le.
Proof. intros a b. unfold near_le. destruct (decide _); apply _. Defined.
Definition closestPods (sel : gmap string string) (pods : list Pod) : list string :=
  let best := merge_sort near_le
    (filter (λ n, (0 <? nr_score n) || negb (bool_decide (nr_diff n = [])) = true) (near_of sel <$> pods)) in
  let lines := (λ n, "Closest pod: `" +:+ nr_name n +:+ "` matches " +:+ itoa (nr_score n) +:+ " of "
                       +:+ itoa (Z.of_nat (size sel)) +:+ " selector labels"
                       +:+ (if bool_decide (nr_diff n = []) then "" else "; it has " +:+ strings_Join (nr_diff n) ", "))
               <$> take 3 best in
  if bool_decide (lines = []) then ["No pod in the namespace carries any of the selector's labels"] else lines.

Section services.
Context {C : Type} `{!WorkloadAPI C, !PodReads C} (env : Env).
Abbreviation M := (st (GState C)).
Definition serviceFinding (svc : Service) (pods : list Pod) : finding C :=
  let sel := selector_text (sv_Selector svc) in
  let f (summary : string) (details : list string) (fix_ : string) :=
    mkFinding C "NoEndpoints" (sv_Namespace svc) ("service/" +:+ sv_Name svc) "" "" Events.SevCritical RungGuided
      None None summary (("Selector: `" +:+ sel +:+ "`") :: details) fix_ "" "" in
  let matching := (λ p, "`" +:+ p_Name p +:+ "` (" +:+ podState p +:+ ")")
                  <$> filter (λ p, selects (sv_Selector svc) (p_Labels p) = true) pods in
  if bool_decide (matching = []) then
    f "the selector matches no pod, so every request to the Service fails"
      (closestPods (sv_Selector svc) pods)
      ("correct the Service selector or the pod labels; compare with `kubectl get pods -n " +:+ sv_Namespace svc
       +:+ " --show-labels`")
  else
    let sorted := sort_strings matching in
    let shown := if (5 <? length sorted)%nat
                 then take 5 sorted ++ ["and " +:+ itoa (Z.of_nat (length sorted) - 5) +:+ " more"] else sorted in
    (* the count is taken after the list is cut *)
    f (itoa (Z.of_nat (length shown)) +:+ " pod(s) match the selector but none is ready, so every request fails")
      ["Matching pods: " +:+ strings_Join shown ", "]
      ("find why the pods are not ready (readiness probe, crash, pending): `kubectl describe pods -n "
       +:+ sv_Namespace svc +:+ " -l " +:+ sel +:+ "`").
Definition lacks_endpoints (now : Time) (slices : list EndpointSlice) (svc : Service) : bool :=
  negb (bool_decide (sv_Selector svc = ∅)) && negb (str_eqb (sv_Type svc) "ExternalName")
  && negb (time_Sub now (sv_Creation svc) <? serviceGrace)
  && negb (0 <? readyEndpoints slices (sv_Name svc)).
(** What is reported of a namespace: the pods are read when the first
    Service needs them, and without them nothing is. *)
Definition service_findings (now : Time) (ns : string) (c : C) : list (finding C) :=
  match services_in ns c, slices_in ns c with
  | inl svcs, inl slices =>
    match filter (λ svc, lacks_endpoints now slices svc = true) svcs with
    | [] => []
    | lacking => match pods_in ns c with
                 | inl pods => (λ svc, serviceFinding svc pods) <$> lacking
                 | inr _ => []
                 end
    end
  | _, _ => []
  end.
Definition CheckServiceEndpoints : M unit :=
  let! now := clock env in
  let! s := st_get in
  let c := gs_cluster s in
  tell_all env (mjoin ((λ ns, service_findings now ns c) <$> watchedNamespaces (env_Policy env) (namespaces_of c))).
End services.

(** ** The revision a rollback goes to *)
Definition newest_ok (l : list ReplicaSet) (w : newest) : Prop :=
  (∀ r, r ∈ l → revision r ≤ nw_max w)
  ∧ (0 ≤ nw_prevRev w ∧ (nw_max w = 0 ∧ nw_prevRev w = 0 ∨ nw_prevRev w < nw_max w))
  ∧ (∀ r, r ∈ l → revision r < nw_max w → revision r ≤ nw_prevRev w)
  ∧ match nw_cur w with Some r => r ∈ l ∧ revision r = nw_max w ∧ 0 < nw_max w | None => nw_max w = 0 end
  ∧ match nw_prev w with Some r => r ∈ l ∧ revision r = nw_prevRev w ∧ 0 < nw_prevRev w | None => nw_prevRev w = 0 end.
Lemma newest_two_ok l : newest_ok l (newest_two l).
Proof.
  unfold newest_two. induction l as [|x l IH] using rev_ind.
  { split_and!; cbn; try done; try lia; intros ? []%elem_of_nil. }
  rewrite foldl_app. cbn [foldl]. set (w := foldl newest_step _ l) in *. clearbody w.
  destruct IH as (Hmax & [Hp0 Hp] & Hprev & Hc & Hpr). unfold newest_step.
  assert (Hall : ∀ r, r ∈ l ++ [x] → (revision r ≤ nw_max w ∧ (revision r < nw_max w → revision r ≤ nw_prevRev w))
    ∨ r = x).
  { intros r [Hr| ->%list_elem_of_singleton]%elem_of_app; auto. }
  destruct (Z.ltb_spec (nw_max w) (revision x)) as [Hlt|Hge]; [|destruct ((nw_prevRev w <? revision x) && (revision x <? nw_max w)) eqn:E].
  - split_and!; cbn; try lia.
    + intros r Hr. destruct (Hall r Hr) as [?| ->]; lia.
    + intros r Hr ?. destruct (Hall r Hr) as [?| ->]; lia.
    + split_and!; [set_solver|done|lia].
    + destruct (nw_cur w); [|done]. destruct Hc as (? & ? & ?). split_and!; [set_solver|done|done].
  - apply andb_true_iff in E as [E1%Z.ltb_lt E2%Z.ltb_lt]. split_and!; cbn; try lia.
    + intros r Hr. destruct (Hall r Hr) as [?| ->]; lia.
    + intros r Hr ?. destruct (Hall r Hr) as [?| ->]; lia.
    + destruct (nw_cur w); [|done]. destruct Hc as (? & ? & ?). split_and!; [set_solver|done|done].
    + split_and!; [set_solver|done|lia].
  - apply andb_false_iff in E. rewrite !Z.ltb_ge in E. split_and!; try done.
    + intros r Hr. destruct (Hall r Hr) as [?| ->]; lia.
    + intros r Hr ?. destruct (Hall r Hr) as [?| ->]; lia.
    + destruct (nw_cur w); [|done]. destruct Hc as (? & ? & ?). split_and!; [set_solver|done|done].
    + destruct (nw_prev w); [|done]. destruct Hpr as (? & ? & ?). split_and!; [set_solver|done|done].
Qed.

(** The previous revision among [l]: numbered, below the newest, and above
    every other. *)
Definition previous_of (l : list ReplicaSet) (rs : ReplicaSet) : Prop :=
  rs ∈ l ∧ 0 < revision rs
  ∧ ∃ cur, cur ∈ l ∧ revision rs < revision cur
    ∧ ∀ r, r ∈ l → revision r ≤ revision rs ∨ revision r = revision cur.

(** A rollback goes to the previous revision, whatever the order the API
    server lists the ReplicaSets in; there is none to go to exactly when no
    ReplicaSet is the previous one. *)
Theorem rollback_to_previous_revision l l' rs :
  l ≡ₚ l' → NoDup (revision <$> l) →
  nw_prev (newest_two l') = Some rs ↔ previous_of l rs.
Proof.
  intros Hp Hnd. destruct (newest_two_ok l') as (Hmax & [Hp0 Hps] & Hprev & Hc & Hpr).
  set (w := newest_two l') in *. clearbody w.
  assert (Huniq : ∀ a b, a ∈ l → b ∈ l → revision a = revision b → a = b).
  { intros a b Ha Hb Hab. apply list_elem_of_lookup in Ha as [i Hi], Hb as [j Hj].
    assert (i = j) as ->; [|congruence].
    eapply (NoDup_lookup _ i j (revision a) Hnd); rewrite list_lookup_fmap; [by rewrite Hi|by rewrite Hj, Hab]. }
  setoid_rewrite <-Hp in Hmax. setoid_rewrite <-Hp in Hprev. split.
  - intros Hrs. rewrite Hrs in Hpr. destruct Hpr as (Hin & Hrev & Hpos). rewrite <-Hp in Hin.
    destruct Hps as [[_ ?]|Hps]; [lia|]. destruct (nw_cur w) as [cur|]; [|lia].
    destruct Hc as (Hcin & Hcrev & _). rewrite <-Hp in Hcin. split_and!; [done|lia|].
    exists cur. split_and!; [done|lia|]. intros r Hr. specialize (Hmax r Hr). specialize (Hprev r Hr). lia.
  - intros (Hin & Hpos & cur & Hcin & Hlt & Hall).
    assert (Hcur : revision cur = nw_max w).
    { destruct (nw_cur w) as [c|]; [|specialize (Hmax cur Hcin); lia]. destruct Hc as (Hci & Hcr & _). rewrite <-Hp in Hci.
      specialize (Hmax cur Hcin). destruct (Hall c Hci); lia. }
    pose proof (Hprev rs Hin ltac:(lia)). destruct (nw_prev w) as [pr|]; [|lia]. destruct Hpr as (Hpin & Hprv & _).
    rewrite <-Hp in Hpin. f_equal. apply Huniq; [done..|]. destruct (Hall pr Hpin); [lia|].
    destruct Hps as [[? ?]|?]; lia.
Qed.

(** What a rollback writes is the Deployment as read on that attempt, with
    the template of the previous revision and the two annotations; a
    conflict is answered by reading again. *)
Lemma retry_update_writes_what_it_read {C} `{!WorkloadAPI C} n ns name change (c c' : C) :
  retry_update n ns name change c = (c', None) →
  ∃ c0 d, get_deploy ns name c0 = inl d ∧ update_deploy ns name (change d) c0 = (c', None).
Proof.
  revert c. induction n as [|n IH]; intros c; cbn [retry_update]; [done|].
  destruct (get_deploy ns name c) as [d|e] eqn:Hg; [|done].
  destruct (update_deploy ns name (change d) c) as [c1 [[|e]|]] eqn:Hu; [apply IH|done|].
  intros [= <-]. by exists c, d.
Qed.

(** ** Evaluation *)
Module WorkloadsDemo.
Definition rs (name rev : string) : ReplicaSet :=
  mkReplicaSet name [mkOwner "Deployment" "web" (Some true)] {[ revisionAnnotation := rev ]}
    (mkTemplate {[ hashLabel := name; "app" := "web" ]} name).
Definition sets : list ReplicaSet := [rs "web-c" "12"; rs "web-a" "9"; rs "web-b" "11"; rs "web-x" "none"].
(** The cluster: the Deployment, and how many updates conflict first. *)
Definition Cluster : Type := DeployObj * nat.
#[export] Instance api : WorkloadAPI Cluster := {|
  deployments_in _ _ := inl [];
  replicasets_in _ _ := inl sets;
  get_deploy _ _ c := inl c.1;
  update_deploy _ _ d c := match c.2 with O => ((d, O), None) | S n => ((c.1, n), Some Conflict) end;
  conflict_text := "conflict";
  failed_pods _ _ := inl [];
  services_in _ _ := inl []; slices_in _ _ := inl [];
  selector_text sel := strings_Join ((λ kv, kv.1 +:+ "=" +:+ kv.2) <$> map_to_list sel) ","
|}.
Definition current : DeployObj := mkDeployObj "v7" ∅ (rs_Template (rs "web-c" "12")) "replicas: 3".
Definition undo (conflicts : nat) : Cluster * option string :=
  let w := newest_two sets in
  match nw_prev w with
  | Some prev => retry_update 5 "shop" "web" (rollback_object w (rollback_template prev)) (current, conflicts)
  | None => ((current, conflicts), Some "none")
  end.
Definition pod (name : string) : Pod :=
  mkPod "shop" name name {[ "app" := "web" ]} ∅ [] 0 None [] "" "" None None [] [] [] "Pending" "" "" [] [] [].
Definition svc : Service := mkService "shop" "web" {[ "app" := "web" ]} "ClusterIP" 0.
End WorkloadsDemo.
#[local] Existing Instance WorkloadsDemo.api.

Example rollback_runs :
  WorkloadsDemo.undo 4
    = ((mkDeployObj "v7" {[ "auto-agent.io/rollback-from" := "12"; "auto-agent.io/rollback-to" := "11" ]}
          (mkTemplate {[ "app" := "web" ]} "web-b") "replicas: 3", O), None)
  ∧ WorkloadsDemo.undo 5 = ((WorkloadsDemo.current, O), Some "conflict")
  ∧ parseRevision " +7x" = 7 ∧ parseRevision "" = 0.
Proof. split_and!; vm_compute; reflexivity. Qed.

(** The summary counts the lines shown, not the pods: of nine pods that
    match it says six. *)
Example service_summary_miscounts :
  fn_Summary (serviceFinding (C := WorkloadsDemo.Cluster) WorkloadsDemo.svc
    (WorkloadsDemo.pod <$> ["a"; "b"; "c"; "d"; "e"; "f"; "g"; "h"; "i"]))
  = "6 pod(s) match the selector but none is ready, so every request fails".
Proof. vm_compute. reflexivity. Qed.

Lemma rollback_to_previous_revision_witness :
  nw_prev (newest_two (reverse WorkloadsDemo.sets)) = Some (WorkloadsDemo.rs "web-b" "11")
  ↔ previous_of WorkloadsDemo.sets (WorkloadsDemo.rs "web-b" "11").
Proof.
  apply (rollback_to_previous_revision WorkloadsDemo.sets (reverse WorkloadsDemo.sets)).
  - symmetry. apply reverse_Permutation.
  - apply (bool_decide_unpack (NoDup (revision <$> WorkloadsDemo.sets))). vm_compute. exact I.
Defined.
