(* ===== verification/Jobs.v ===== *)
(** * Jobs: failed Jobs and failed pods

    [jobs.go], and the checks of Failed pods of [pod_extended.go].  A
    failure that does not change by itself is told once per object, by its
    uid, for a day.  Old failed Jobs of a CronJob are removed by one gated
    action on the housekeeping budget. *)
From S2P Require Import Prelude GoStd Policy RateLimit Guards Events Escalation Gate Kube FixTracker.
From S2P Require Import Findings GitopsContent PodStates Handlers Workloads.
#[local] Open Scope Z_scope.
#[local] Open Scope agent_scope.

Record JobCondition := mkJobCondition {
  jc_Type : string; jc_Status : string; jc_Reason : string; jc_Message : string; jc_Transition : Time
}.
Record Job := mkJob {
  j_Namespace : string; j_Name : string; j_UID : string; j_Creation : Time; j_Owners : list OwnerReference;
  j_BackoffLimit : option Z; j_Deadline : option Z; j_Failed : Z; j_Conditions : list JobCondition
}.
Class JobAPI (C : Type) := {
  jobs_in : string → C → list Job + string;
  job_pods : string → string → C → list Pod + string;
  delete_job : string → string → C → C * option string
}.

Definition failedJobLookback : Duration := 24 * hour.
Definition jobFailedAt (j : Job) : option Time :=
  match filter (λ c, str_eqb (jc_Type c) "Failed" && str_eqb (jc_Status c) "True" = true) (j_Conditions j) with
  | c :: _ => Some (jc_Transition c)
  | [] => None
  end.
Definition isJobFailed (j : Job) : bool := bool_decide (is_Some (jobFailedAt j)).
(** The reason and the message of the failure. *)
Definition job_failure (j : Job) : string * string :=
  match filter (λ c, jc_Type c = "Failed") (j_Conditions j) with
  | c :: _ => (jc_Reason c, strings_TrimPrefix (jc_Reason c +:+ ": " +:+ jc_Message c) ": ")
  | [] => ("", "unknown")
  end.
Definition cronjob_of (j : Job) : string :=
  match filter (λ o, ow_Kind o = "CronJob") (j_Owners j) with o :: _ => ow_Name o | [] => "" end.
Definition ownedByCronJob (j : Job) (name : string) : bool :=
  existsb (λ o, str_eqb (ow_Kind o) "CronJob" && str_eqb (ow_Name o) name) (j_Owners j).
Definition jobFailureFix (j : Job) (reason : string) : string :=
  if str_eqb reason "BackoffLimitExceeded" then
    "the pods failed more than backoffLimit (" +:+ itoa (default 6 (j_BackoffLimit j))
    +:+ ") times; the logs above are from the last attempt. Raise backoffLimit only if the failures are transient"
  else if str_eqb reason "DeadlineExceeded" then
    match j_Deadline j with
    | Some d => "the job ran longer than activeDeadlineSeconds (" +:+ itoa d +:+ "); make it faster or raise the deadline"
    | None => "the job ran longer than its activeDeadlineSeconds"
    end
  else if str_eqb reason "PodFailurePolicy" then
    "a podFailurePolicy rule failed the job on purpose; the message names the rule"
  else "".
(** The most recently created pod, the first of several. *)
Definition newestPod (pods : list Pod) : option Pod :=
  foldl (λ newest p, match newest with
                     | None => Some p
                     | Some n => if time_After (p_Creation p) (p_Creation n) then Some p else newest
                     end) None pods.

Section dedup_for.
Context {C : Type} (env : Env).
(** [deps.Dedup.CheckFor]; a missing deduplicator is a nil dereference. *)
Definition dedup_check_for (key : string) (ttl : Duration) : st (GState C) (option bool) :=
  let! s := st_get in
  match gs_dedup s with
  | None => return! None
  | Some d =>
    let! now := clock env in
    let r := CheckFor now key ttl d in
    st_modify (set_dedup (Some r.2)) ;;; return! Some r.1
  end.
End dedup_for.

Section jobs.
Context {C : Type} `{!HandlerServices C, !YAML, !PodReads C, !JobAPI C} (env : Env) (hd : HandlerDeps).
Abbreviation M := (st (option FixTracker * GState C)).

(** [Apply]: every Job is tried. *)
Fixpoint delete_jobs (ns : string) (names : list string) (c : C) : C * list string :=
  match names with
  | [] => (c, [])
  | n :: names' =>
    let '(c1, err) := delete_job ns n c in
    let '(c2, errs) := delete_jobs ns names' c1 in
    (c2, match err with Some e => ("delete job " +:+ ns +:+ "/" +:+ n +:+ ": " +:+ e) :: errs | None => errs end)
  end.
Definition old_failed_jobs (now : Time) (cronJob : string) (jobs : list Job) : list string :=
  j_Name <$> filter (λ j, isJobFailed j && ownedByCronJob j cronJob
                          && time_Before (j_Creation j) (time_Add now (- hour)) = true) jobs.
Definition delete_jobs_mutation (ns cronJob : string) (old : list string) : mutation C :=
  let n := itoa (Z.of_nat (length old)) in
  mkMutation C ns cronJob "" None "JobFailed" "delete_job"
    ("cleaned up " +:+ n +:+ " old failed jobs for CronJob `" +:+ cronJob +:+ "`")
    ("delete " +:+ n +:+ " failed jobs older than 1h for CronJob `" +:+ cronJob +:+ "`")
    (λ c, let r := delete_jobs ns old c in (r.1, errors_Join r.2)) "" None true.
Definition cleanupOldFailedJobs (ns cronJob : string) : M string :=
  let! listed := read (jobs_in ns) in
  match listed with
  | inr _ => return! ""
  | inl jobs =>
    let! now := gate (clock env) in
    match old_failed_jobs now cronJob jobs with
    | [] => return! ""
    | old => let! r := gate (applyMutation env (delete_jobs_mutation ns cronJob old)) in return! r.2
    end
  end.

Definition job_logs (j : Job) : M string :=
  let! pods := read (job_pods (j_Namespace j) (j_Name j)) in
  match pods with
  | inr _ => return! ""
  | inl l =>
    match newestPod l with
    | Some p => match p_Containers p with
                | c :: _ => getLastLogs (j_Namespace j) (p_Name p) (ct_Name c) 50
                | [] => return! ""
                end
    | None => return! ""
    end
  end.
Definition handleFailedJob (j : Job) : M unit :=
  let ns := j_Namespace j in let name := j_Name j in
  let! events := collectEvents ns name in
  let! logs := job_logs j in
  let! url := persistLogBundle env ns name name "" "" "JobFailed" "Job failed" logs events in
  let '(condReason, failReason) := job_failure j in
  let cronJob := cronjob_of j in
  let! cleanup := (if str_eqb cronJob "" then return! "" else cleanupOldFailedJobs ns cronJob) in
  let! advice := DiagnoseWithFallback "Job Failed" (context logs events) in
  let fix_ := jobFailureFix j condReason in
  let msg := "*JobFailed*: `" +:+ ns +:+ "/" +:+ name +:+ "`"
    +:+ (if str_eqb cronJob "" then "" else " (CronJob: `" +:+ cronJob +:+ "`)") +:+ nl
    +:+ "Reason: " +:+ failReason +:+ nl +:+ "Failed pods: " +:+ itoa (j_Failed j) +:+ nl +:+ saved url
    +:+ (if str_eqb fix_ "" then "" else "_Fix_: " +:+ fix_ +:+ nl) +:+ cleanup +:+ advice in
  gate (postSlack msg) ;;;
  incident env Events.SevWarning ns ("job/" +:+ name) "" "" "JobFailed" failReason url (Rung_String RungGuided).

Definition check_job (ns : string) (now : Time) (j : Job) : M unit :=
  match jobFailedAt j with
  | None => return! tt
  | Some at_ =>
    if failedJobLookback <? time_Sub now at_ then return! tt
    else
    let! ok := gate (dedup_check_for env (dedupKey ns (j_UID j) "JobFailed") failedJobLookback) in
    match ok with Some true => handleFailedJob j | _ => return! tt end
  end.
Fixpoint check_jobs (ns : string) (now : Time) (l : list Job) : M unit :=
  match l with [] => return! tt | j :: l' => check_job ns now j ;;; check_jobs ns now l' end.
Definition CheckFailedJobs : M unit :=
  let! nss := watched_ns env in
  each_ns (λ ns, let! listed := read (jobs_in ns) in
                 match listed with
                 | inr _ => return! tt
                 | inl l => let! now := gate (clock env) in check_jobs ns now l
                 end) nss.
End jobs.

(** ** Failed pods *)
Definition terminalPodWindow : Duration := 24 * hour.
Definition ephemeralMarkers : list string := ["ephemeral-storage"; "ephemeral storage"; "ephemeral local storage"].
Definition mentionsEphemeral (msg : string) : bool :=
  existsb (strings_Contains (lower_search msg)) ephemeralMarkers.

Section failed.
Context {C : Type} `{!WorkloadAPI C, !PodReads C} (env : Env).
Abbreviation M := (st (GState C)).
Definition deadline_finding (ns : string) (p : Pod) : finding C :=
  mkFinding C "DeadlineExceeded" ns (ownerName p) (p_Name p) (p_NodeName p) Events.SevWarning RungGuided None None
    "the pod ran past its activeDeadlineSeconds and was stopped"
    (match p_ActiveDeadline p with Some d => ["Deadline: " +:+ itoa d +:+ "s"] | None => [] end)
    "make the work finish sooner, or raise activeDeadlineSeconds if the run time is expected" (p_Name p) "".
Definition ephemeral_finding (ns : string) (p : Pod) : finding C :=
  mkFinding C "EphemeralStorageFull" ns (ownerName p) (p_Name p) (p_NodeName p) Events.SevWarning RungGuided None None
    "evicted for local (ephemeral) storage" [p_Message p]
    "write less to the container filesystem and emptyDir (logs, temp files), or raise the ephemeral-storage request and limit"
    "" "".
Definition is_deadline (p : Pod) : bool := str_eqb (p_Phase p) "Failed" && str_eqb (p_Reason p) "DeadlineExceeded".
Definition is_ephemeral (p : Pod) : bool :=
  str_eqb (p_Phase p) "Failed" && str_eqb (p_Reason p) "Evicted" && mentionsEphemeral (p_Message p).
(** Once per pod, by its uid. *)
Fixpoint check_failed (what : Pod → bool) (reason : string) (f : string → Pod → finding C) (ns : string) (l : list Pod)
    : M unit :=
  match l with
  | [] => return! tt
  | p :: l' =>
    (if what p then
       let! ok := dedup_check_for env (dedupKey ns (p_UID p) reason) terminalPodWindow in
       match ok with Some true => tell_finding env (f ns p) | _ => return! tt end
     else return! tt) ;;;
    check_failed what reason f ns l'
  end.
Fixpoint check_failed_all (what : Pod → bool) (reason : string) (f : string → Pod → finding C) (nss : list string) : M unit :=
  match nss with
  | [] => return! tt
  | ns :: nss' =>
    let! s := st_get in
    check_failed what reason f ns (match failed_pods ns (gs_cluster s) with inl l => l | inr _ => [] end) ;;;
    check_failed_all what reason f nss'
  end.
Definition CheckDeadlineExceeded : M unit :=
  let! s := st_get in
  check_failed_all is_deadline "DeadlineExceeded" deadline_finding
    (watchedNamespaces (env_Policy env) (namespaces_of (gs_cluster s))).
Definition CheckEphemeralStorageFull : M unit :=
  let! s := st_get in
  check_failed_all is_ephemeral "EphemeralStorageFull" ephemeral_finding
    (watchedNamespaces (env_Policy env) (namespaces_of (gs_cluster s))).
End failed.

(** ** What is removed *)
Lemma newestPod_newest pods :
  match newestPod pods with
  | None => pods = []
  | Some p => p ∈ pods ∧ ∀ q, q ∈ pods → p_Creation q ≤ p_Creation p
  end.
Proof.
  unfold newestPod. induction pods as [|x pods IH] using rev_ind; [done|].
  rewrite foldl_app. cbn [foldl]. destruct (foldl _ None pods) as [n|].
  - destruct IH as [Hin Hn]. unfold time_After. destruct (Z.ltb_spec (p_Creation n) (p_Creation x)).
    + split; [set_solver|]. intros q [Hq| ->%list_elem_of_singleton]%elem_of_app; [specialize (Hn q Hq)|]; lia.
    + split; [set_solver|]. intros q [Hq| ->%list_elem_of_singleton]%elem_of_app; [by apply Hn|lia].
  - subst pods. split; [by left|]. intros q ->%list_elem_of_singleton. done.
Qed.

(** Cleanup is one gated action: it removes failed Jobs of the CronJob that
    were created more than an hour before, and in observe, suggest or
    dry-run mode none. *)
Theorem cleanup_removes_old_failed_jobs {C} `{!JobAPI C} env ns cronJob (s : option FixTracker * GState C) :
  let s' := (cleanupOldFailedJobs env ns cronJob s).2 in
  s'.1 = s.1
  ∧ (same_cluster s.2 s'.2
     ∨ Mode_ (env_Policy env) = Fix ∧ in_fix_scope (env_Policy env) ns
       ∧ applies (gs_trace s'.2) = applies (gs_trace s.2) ++ [EApply "delete_job" ns cronJob]
       ∧ ∃ jobs old now, jobs_in ns (gs_cluster s.2) = inl jobs
         ∧ gs_cluster s'.2 = (delete_jobs ns old (gs_cluster s.2)).1
         ∧ ∀ n, n ∈ old → ∃ j, j ∈ jobs ∧ j_Name j = n ∧ isJobFailed j = true
             ∧ ownedByCronJob j cronJob = true ∧ j_Creation j < now - hour).
Proof.
  cbv zeta. pattern (cleanupOldFailedJobs env ns cronJob s). lazymatch goal with |- ?P _ => set (Q := P) end.
  unfold cleanupOldFailedJobs. unfold st_bind at 1, read.
  destruct (jobs_in ns (gs_cluster s.2)) as [jobs|e] eqn:Hj; [|by split; [|left]].
  apply (bind_keeps nothing); [apply gate_nothing; solve_keeps|]. intros now s1 H1.
  destruct (old_failed_jobs now cronJob jobs) as [|n0 old0] eqn:Ho.
  { split; [by destruct H1|left; apply H1]. }
  set (old := n0 :: old0) in *. clearbody old. rewrite bind_answer. unfold Q. cbn [snd].
  pose proof (proj2 H1) as Hsame. destruct H1 as (Ht1 & Hc1 & Ha1 & _). unfold gate, st_right.
  destruct (gate_cluster env (delete_jobs_mutation ns cronJob old) s1.2) as [Hc Hm]. unfold cluster_effect in Hc.
  pose proof (gate_same env (delete_jobs_mutation ns cronJob old) s1.2) as Hs.
  destruct (applyMutation env (delete_jobs_mutation ns cronJob old) s1.2) as [[o msg] g]. cbn [fst snd] in *.
  split; [done|]. destruct o; try (left; etrans; [exact Hsame|by apply Hs]);
    (right; destruct Hm as [? ?]; [auto|]; destruct Hc as (Hcl & Hap & _); split_and!; [done|done|by rewrite Hap, Ha1|];
     exists jobs, old, now; split_and!; [done|by rewrite Hcl, Hc1|];
     intros n Hn; rewrite <-Ho in Hn; unfold old_failed_jobs in Hn;
     apply list_elem_of_fmap in Hn as (j & -> & [Hf Hin]%list_elem_of_filter);
     apply andb_true_iff in Hf as [[Hf Hown]%andb_true_iff Hb]; unfold time_Before, time_Add in Hb; exists j;
     split_and!; [done|done|done|done|lia]).
Qed.
