(* ===== verification/Correlation.v ===== *)
(** * Correlation: recent rollouts (internal/kube/correlation.go)

    The log of rollouts that incidents are compared with: each revision of a
    watched Deployment once, dated by when it rolled out, the last [maxLen]
    records. *)
From S2P Require Import Prelude GoStd Policy Guards Kube Fixes PodStates Handlers Workloads.
#[local] Open Scope Z_scope.

Record DeployRecord := mkDeployRecord {
  dr_Timestamp : Time; dr_Namespace : string; dr_Deployment : string; dr_Revision : Z;
  dr_Image : string; dr_Replicas : Z
}.
Record DeployTracker := mkDeployTracker { dt_deploys : list DeployRecord; dt_maxLen : Z }.
Definition NewDeployTracker (maxLen : Z) : DeployTracker :=
  mkDeployTracker [] (if maxLen <=? 0 then 100 else maxLen).

Definition RecordDeployAt (r : DeployRecord) (dt : DeployTracker) : DeployTracker :=
  mkDeployTracker (push_capped (dt_maxLen dt) (dt_deploys dt) r) (dt_maxLen dt).
(** Newest arrivals first; all namespaces when [ns] is empty. *)
Definition RecentDeploys (now : Time) (ns : string) (within : Duration) (dt : DeployTracker) : list DeployRecord :=
  filter (λ d, negb (time_Before (dr_Timestamp d) (time_Add now (dur_neg within)))
               && (str_eqb ns "" || str_eqb (dr_Namespace d) ns) = true) (reverse (dt_deploys dt)).
Definition hasRevision (ns name : string) (rev : Z) (dt : DeployTracker) : bool :=
  existsb (λ d, str_eqb (dr_Namespace d) ns && str_eqb (dr_Deployment d) name && (dr_Revision d =? rev)) (dt_deploys dt).

Definition parseDeployRevision (d : Deployment) : Z :=
  parseRevision (default "" (d_Annotations d !! revisionAnnotation)).
Definition rolledOutAt (d : Deployment) : Time :=
  match filter (λ c, str_eqb (dc_Type c) "Progressing" && negb (time_IsZero (dc_LastUpdate c)) = true) (d_Conditions d) with
  | c :: _ => dc_LastUpdate c
  | [] => d_Creation d
  end.
Definition deploy_record (ns : string) (d : Deployment) : DeployRecord :=
  mkDeployRecord (rolledOutAt d) ns (d_Name d) (parseDeployRevision d)
    (match d_Containers d with c :: _ => ct_Image c | [] => "" end) (replicas_of d).
Definition scan_one (ns : string) (dt : DeployTracker) (d : Deployment) : DeployTracker :=
  if hasRevision ns (d_Name d) (parseDeployRevision d) dt then dt else RecordDeployAt (deploy_record ns d) dt.
Definition scan_ns {C} `{!WorkloadAPI C} (c : C) (dt : DeployTracker) (ns : string) : DeployTracker :=
  match deployments_in ns c with
  | inl l => foldl (scan_one ns) dt l
  | inr _ => dt
  end.
Definition ScanDeployments {C} `{!WorkloadAPI C, !PodReads C} (pol : Policy) (c : C) (dt : option DeployTracker)
    : option DeployTracker :=
  (λ dt, foldl (scan_ns c) dt (watchedNamespaces pol (namespaces_of c))) <$> dt.

(** ** Each revision once *)
Definition dr_key (d : DeployRecord) : string * string * Z := (dr_Namespace d, dr_Deployment d, dr_Revision d).
Lemma hasRevision_spec ns name rev dt :
  hasRevision ns name rev dt = true ↔ (ns, name, rev) ∈ dr_key <$> dt_deploys dt.
Proof.
  unfold hasRevision. rewrite existsb_exists. setoid_rewrite <-list_elem_of_In. rewrite list_elem_of_fmap.
  split; intros (d & H); exists d; unfold dr_key in *.
  - destruct H as [Hin [[->%str_eqb_eq ->%str_eqb_eq]%andb_true_iff ->%Z.eqb_eq]%andb_true_iff]. done.
  - destruct H as [[= -> -> ->] Hin]. by rewrite !str_eqb_refl, Z.eqb_refl.
Qed.
Record tracker_ok (dt : DeployTracker) : Prop := {
  to_len : 0 < dt_maxLen dt ∧ Z.of_nat (length (dt_deploys dt)) ≤ dt_maxLen dt;
  to_once : NoDup (dr_key <$> dt_deploys dt)
}.
Lemma push_capped_sublist {A} cap (l : list A) x : ∃ l', l' `sublist_of` l ∧ push_capped cap l x = l' ++ [x].
Proof.
  unfold push_capped. case_decide; [|by exists l]. exists (tail l). split; [|done].
  destruct l; [done|]. by apply sublist_cons.
Qed.
Lemma scan_one_ok ns dt d : tracker_ok dt → tracker_ok (scan_one ns dt d).
Proof.
  intros [[Hc Hl] Hnd]. unfold scan_one. destruct (hasRevision _ _ _ dt) eqn:Hh; [done|].
  split; cbn [RecordDeployAt dt_deploys dt_maxLen].
  - split; [done|]. by apply push_capped_length.
  - destruct (push_capped_sublist (dt_maxLen dt) (dt_deploys dt) (deploy_record ns d)) as (l' & Hs & ->).
    rewrite fmap_app. apply NoDup_app. split_and!; [|intros k Hk ->%list_elem_of_singleton|apply NoDup_singleton].
    + eapply sublist_NoDup; [exact Hnd|by apply fmap_sublist].
    + apply not_true_iff_false in Hh. apply Hh, hasRevision_spec.
      eapply elem_of_submseteq; [exact Hk|]. by apply sublist_submseteq, fmap_sublist.
Qed.

(** The log holds every revision at most once and never outgrows its bound,
    however often Deployments are scanned. *)
Lemma ScanDeployments_ok {C} `{!WorkloadAPI C, !PodReads C} pol (c : C) dt :
  tracker_ok dt → ∀ dt', ScanDeployments pol c (Some dt) = Some dt' → tracker_ok dt'.
Proof.
  intros Hok dt' [= <-]. revert dt Hok. induction (watchedNamespaces _ _) as [|ns nss IH]; intros dt Hok; [done|].
  cbn [foldl]. apply IH. unfold scan_ns. destruct (deployments_in ns c) as [l|]; [|done].
  revert dt Hok. induction l as [|d l IHl]; intros dt Hok; [done|]. cbn [foldl]. by apply IHl, scan_one_ok.
Qed.

(** A window asks for what rolled out in it, in every order of arrival. *)
Lemma RecentDeploys_spec now ns within dt d :
  0 < within ≤ max_int64 →
  d ∈ RecentDeploys now ns within dt
  ↔ d ∈ dt_deploys dt ∧ now - within ≤ dr_Timestamp d ∧ (ns = "" ∨ dr_Namespace d = ns).
Proof.
  intros Hw. unfold RecentDeploys. rewrite list_elem_of_filter, elem_of_reverse, dur_neg_pos by done.
  unfold time_Before, time_Add. rewrite andb_true_iff, orb_true_iff, !str_eqb_eq, negb_true_iff, Z.ltb_ge.
  replace (now + - within) with (now - within) by lia. tauto.
Qed.

(** With more Deployments than the log holds, each scan records old
    rollouts again and pushes recent ones out. *)
Example scan_forgets :
  let dep (name : string) (t : Time) :=
    mkDeployment "shop" name {[ revisionAnnotation := "1" ]} t 1 None None [] 1 1 1 1 0 [] in
  let scan dt := foldl (scan_one "shop") dt [dep "new" 900; dep "old1" 100; dep "old2" 200] in
  let one := scan (NewDeployTracker 2) in
  dr_Deployment <$> dt_deploys one = ["old1"; "old2"]
  ∧ dr_Deployment <$> dt_deploys (scan one) = ["old1"; "old2"]
  ∧ RecentDeploys 1000 "shop" 500 (scan one) = [].
Proof. split_and!; vm_compute; reflexivity. Qed.
