(* ===== verification/Routing.v ===== *)
(** * Routing: internal/httpapi/http.go, proxy.go

    What reaches which handler of the dashboard server: Go's request paths
    ([path.Clean], the multiplexer's match and redirects, as [net/http] has
    them since Go 1.22), the server's routes, and the two filters in front of
    them, [toLeader] and [authorize]. *)
From S2P Require Import Prelude GoStd.
From S2P Require Import Events.
From Stdlib Require Import Ascii.
#[local] Open Scope Z_scope.

(** ** Paths *)

Definition slash : ascii := "/"%char.
Definition hex_val : ascii → option Z := ParseFloat.hex_val.
(** [url.PathUnescape]. *)
Fixpoint unescape (s : string) : option string :=
  match s with
  | EmptyString => Some ""
  | String c s' =>
    if bool_decide (c = "%"%char) then
      match s' with
      | String a (String b s'') =>
        match hex_val a, hex_val b, unescape s'' with
        | Some x, Some y, Some t => Some (String (ascii_of_N (Z.to_N (16 * x + y))) t)
        | _, _, _ => None
        end
      | _ => None
      end
    else String c <$> unescape s'
  end.
Definition path_unescape (s : string) : string := default s (unescape s).

(** [path.Clean]: empty and [.] elements go, [..] takes the one before it. *)
Fixpoint clean_elems (rooted : bool) (elems acc : list string) : list string :=
  match elems with
  | [] => reverse acc
  | e :: elems' =>
    if str_eqb e "" || str_eqb e "." then clean_elems rooted elems' acc
    else if str_eqb e ".." then
      match acc with
      | top :: acc' =>
        if str_eqb top ".." then clean_elems rooted elems' (".." :: acc)
        else clean_elems rooted elems' acc'
      | [] => clean_elems rooted elems' (if rooted then [] else [".."])
      end
    else clean_elems rooted elems' (e :: acc)
  end.
Definition path_Clean (p : string) : string :=
  let rooted := strings_HasPrefix p "/" in
  let out := strings_Join (clean_elems rooted (strings_Split p slash) []) "/" in
  if rooted then "/" +:+ out else if str_eqb out "" then "." else out.
(** [net/http]'s [cleanPath] keeps the slash at the end. *)
Definition cleanPath (p : string) : string :=
  if str_eqb p "" then "/"
  else
    let p := if strings_HasPrefix p "/" then p else "/" +:+ p in
    let np := path_Clean p in
    if strings_HasSuffix p "/" && negb (str_eqb np "/") then np +:+ "/" else np.

(** ** Requests

    The path as [URL.EscapedPath] gives it: [URL.Path] is what it decodes to.
    Of each header and query parameter, the first value. *)
Record HttpRequest := mkRequest {
  rq_Method : string; rq_EscapedPath : string;
  rq_Header : gmap string string; rq_Query : gmap string string;
  rq_Body : option string (* [None]: reading it fails *)
}.
Definition URL_Path (r : HttpRequest) : string := path_unescape (rq_EscapedPath r).
Definition Header_Get (r : HttpRequest) (k : string) : string := default "" (rq_Header r !! k).
Definition Query_Get (r : HttpRequest) (k : string) : string := default "" (rq_Query r !! k).
Definition Header_Set (k v : string) (r : HttpRequest) : HttpRequest :=
  mkRequest (rq_Method r) (rq_EscapedPath r) (<[k := v]> (rq_Header r)) (rq_Query r) (rq_Body r).

(** ** The multiplexer: a pattern that ends in a slash matches the tree below. *)
Record pattern := mkPattern { pt_text : string; pt_segs : list string; pt_multi : bool }.
Definition parse_pattern (p : string) : pattern :=
  let segs := tail (strings_Split p slash) in
  if strings_HasSuffix p "/" then mkPattern p (removelast segs) true else mkPattern p segs false.
Definition path_segments (path : string) : list string :=
  path_unescape <$> tail (strings_Split path slash).
Fixpoint below (pre segs : list string) : bool :=
  match pre, segs with
  | [], _ :: _ => true
  | a :: pre', b :: segs' => str_eqb a b && below pre' segs'
  | _, [] => false
  end.
Definition pt_matches (segs : list string) (p : pattern) : bool :=
  if pt_multi p then below (pt_segs p) segs else bool_decide (pt_segs p = segs).
(** The most specific of the patterns that match. *)
Definition more_specific (p q : pattern) : bool :=
  negb (pt_multi p) || pt_multi q && (length (pt_segs q) <? length (pt_segs p))%nat.
Definition mux_match (pats : list pattern) (path : string) : option pattern :=
  foldl (λ best p, if pt_matches (path_segments path) p
                   then match best with
                        | Some q => if more_specific p q then Some p else best
                        | None => Some p
                        end
                   else best) None pats.
Definition slashes (path : string) : nat := (length (strings_Split path slash) - 1)%nat.
Definition exactMatch (p : option pattern) (path : string) : bool :=
  match p with
  | None => false
  | Some p => negb (pt_multi p)
              || (str_eqb path "" || strings_HasSuffix path "/")
                 && bool_decide (S (length (pt_segs p)) = slashes path)
  end.
Inductive routed := RouteTo (p : string) | RouteRedirect (path : string) | RouteNone.
(** The redirect of [/tree] to [/tree/]. *)
Definition tree_redirect (pats : list pattern) (path upath : string) : option string :=
  if negb (exactMatch (mux_match pats path) path) && negb (strings_HasSuffix path "/")
     && exactMatch (mux_match pats (path +:+ "/")) (path +:+ "/")
  then Some (cleanPath upath +:+ "/") else None.
Definition route_of (p : option pattern) : routed :=
  match p with Some p => RouteTo (pt_text p) | None => RouteNone end.
(** [ServeMux.findHandler]: the path of a CONNECT is not cleaned. *)
Definition findHandler (pats : list pattern) (r : HttpRequest) : routed :=
  let escaped := rq_EscapedPath r in
  let connect := str_eqb (rq_Method r) "CONNECT" in
  let path := if connect then escaped else cleanPath escaped in
  match tree_redirect pats path (URL_Path r) with
  | Some to => RouteRedirect to
  | None =>
    if negb connect && negb (str_eqb path escaped) then RouteRedirect path
    else route_of (mux_match pats path)
  end.

(** ** The server's routes *)
Definition slackActionsPath : string := "/api/slack/actions".
Definition IngestPath : string := "/internal/v1/events".
Definition proxiedHeader : string := "X-Auto-Agent-Proxied".
Definition apiRouteTable : list string := [
  "/api/status"; "/api/events"; "/api/stats"; "/api/cluster"; "/api/namespace/"; "/api/nodes";
  "/api/k8s-events"; "/api/kubectl"; "/api/kubectl/help"; "/api/compliance"; "/api/baselines";
  "/api/deploys"; "/api/dry-run"; "/api/cost"; "/api/resources"; "/api/resources/"; "/api/fixes";
  "/api/scope"; "/api/reloads"; "/api/approvals"].
Definition apiRoutes : list string := slackActionsPath :: apiRouteTable.
Definition health_routes : list string := ["/healthz"; "/readyz"; "/metrics"].
Definition server_routes : list string := health_routes ++ apiRouteTable ++ [IngestPath; slackActionsPath; "/"].

(** ** The filters *)
Inductive leader_answer := LeaderAt (base : string) | NoLeader (err : string).
Record Server := mkServer {
  sv_token : string; sv_internalToken : string;
  sv_leader : option leader_answer; (* what the leader function says, if there is one *)
  sv_healthOnly : bool
}.
(** What a request ends at: a handler, with the request it gets; a redirect
    or nothing, of the multiplexer; an error; the leader. *)
Inductive answer :=
| Handled (route : string) (r : HttpRequest)
| Redirected (path : string)
| NotFound
| Refused (status : Z) (headers : list (string * string)) (text : string)
| Forwarded (base : string) (r : HttpRequest).

Definition is_api (p : string) : bool := str_eqb p "/api" || strings_HasPrefix p "/api/".
Definition bearer (r : HttpRequest) (token : string) : bool :=
  strings_HasPrefix (Header_Get r "Authorization") "Bearer "
  && str_eqb (strings_TrimPrefix (Header_Get r "Authorization") "Bearer ") token.
Definition authorize (s : Server) (next : HttpRequest → answer) (r : HttpRequest) : answer :=
  let p := path_Clean (URL_Path r) in
  if negb (is_api p) || str_eqb p slackActionsPath then next r
  else if str_eqb (sv_token s) ""
  then Refused 503 [] "dashboard API disabled: set DASHBOARD_TOKEN"
  else if bearer r (sv_token s) then next r
  else Refused 401 [("WWW-Authenticate", "Bearer realm=" +:+ dq +:+ "auto-agent" +:+ dq)] "unauthorized".

Section server.
(** [url.Parse] refuses a text. *)
Context (bad_url : string → bool).
Definition toLeader (s : Server) (next : HttpRequest → answer) (r : HttpRequest) : answer :=
  let p := path_Clean (URL_Path r) in
  let forward := is_api p || strings_HasPrefix p "/internal/" in
  match sv_leader s with
  | Some l =>
    if negb forward || negb (str_eqb (Header_Get r proxiedHeader) "") then next r
    else match l with
         | NoLeader err => Refused 503 [("Retry-After", "2")] ("no leader yet: " +:+ err)
         | LeaderAt base =>
           if str_eqb base "" then next r
           else if bad_url base then Refused 502 [] "bad leader address"
           else Forwarded base (Header_Set proxiedHeader "1" r)
         end
  | None => next r
  end.
Definition mux (routes : list string) (r : HttpRequest) : answer :=
  match findHandler (parse_pattern <$> routes) r with
  | RouteTo p => Handled p r
  | RouteRedirect p => Redirected p
  | RouteNone => NotFound
  end.
Definition contentSecurityPolicy : string :=
  "default-src 'self'; script-src 'self'; style-src 'self'; img-src 'self' data:; "
  +:+ "connect-src 'self'; object-src 'none'; base-uri 'none'; form-action 'self'; frame-ancestors 'none'".
Definition securityHeaders : list (string * string) := [
  ("Content-Security-Policy", contentSecurityPolicy); ("X-Content-Type-Options", "nosniff");
  ("X-Frame-Options", "DENY"); ("Referrer-Policy", "no-referrer")].
(** What [net/http] passes on: the path is absolute or empty and decodes.
    ([OPTIONS *] it answers itself.) *)
Definition well_formed (r : HttpRequest) : bool :=
  (str_eqb (rq_EscapedPath r) "" || strings_HasPrefix (rq_EscapedPath r) "/")
  && bool_decide (unescape (rq_EscapedPath r) ≠ None).
(** The handler [NewServer] installs: the headers every response starts
    with, and the answer. *)
Definition serve (s : Server) (r : HttpRequest) : list (string * string) * answer :=
  if negb (well_formed r) then ([], Refused 400 [] "400 Bad Request")
  else if sv_healthOnly s then ([], mux health_routes r)
  else (securityHeaders, toLeader s (authorize s (mux server_routes)) r).
End server.

(** ** What a request finds *)
Module RoutingDemo.
Definition request (method path : string) (auth : option string) : HttpRequest :=
  mkRequest method path (match auth with Some a => {["Authorization" := a]} | None => ∅ end) ∅ (Some "").
Definition controller : Server := mkServer "tok" "int" None false.
Definition standby : Server := mkServer "tok" "int" (Some (LeaderAt "http://10.0.0.7:8080")) false.
Definition ask (s : Server) (r : HttpRequest) : answer := (serve (λ _, false) s r).2.
End RoutingDemo.
Example routes_of_requests :
  RoutingDemo.ask RoutingDemo.controller (RoutingDemo.request "GET" "/api/status" None)
    = Refused 401 [("WWW-Authenticate", "Bearer realm=" +:+ dq +:+ "auto-agent" +:+ dq)] "unauthorized"
  ∧ RoutingDemo.ask RoutingDemo.controller (RoutingDemo.request "GET" "//api/./status" None)
    = Refused 401 [("WWW-Authenticate", "Bearer realm=" +:+ dq +:+ "auto-agent" +:+ dq)] "unauthorized"
  ∧ RoutingDemo.ask RoutingDemo.controller (RoutingDemo.request "GET" "/x/../api/status" (Some "Bearer tok"))
    = Redirected "/api/status"
  ∧ (∃ r, RoutingDemo.ask RoutingDemo.controller (RoutingDemo.request "GET" "/api/status" (Some "Bearer tok")) = Handled "/api/status" r)
  ∧ (∃ r, RoutingDemo.ask RoutingDemo.controller (RoutingDemo.request "POST" slackActionsPath None) = Handled slackActionsPath r)
  ∧ (∃ r, RoutingDemo.ask RoutingDemo.controller (RoutingDemo.request "GET" "/app.js" None) = Handled "/" r)
  ∧ (∃ r, RoutingDemo.ask RoutingDemo.standby (RoutingDemo.request "GET" "/api/status" None)
          = Forwarded "http://10.0.0.7:8080" r).
Proof. vm_compute. split_and!; try done; by eexists. Qed.

(** ** The paths of the routes *)

Lemma unescape_segments s t x xs :
  unescape s = Some t → strings_Split s slash = x :: xs →
  ∃ y ys, Forall2 (λ a b, unescape a = Some b) (x :: xs) (y :: ys) ∧ t = strings_Join (y :: ys) "/".
Proof.
  remember (String.length s) as n eqn:Hn. assert (String.length s ≤ n)%nat as Hle by lia. clear Hn.
  revert s t x xs Hle. induction n as [|n IH]; intros s t x xs Hle Hs Hx.
  { destruct s; [|simpl in Hle; lia]. simpl in *. simplify_eq. exists "", []. split; [by repeat constructor|done]. }
  destruct s as [|c s]; [simpl in *; simplify_eq; exists "", []; split; [by repeat constructor|done]|].
  cbn [unescape] in Hs. case_bool_decide as Hc.
  - subst c. destruct s as [|a [|b s]]; try done.
    destruct (hex_val a) as [u|] eqn:Ha; [|done]. destruct (hex_val b) as [v|] eqn:Hb; [|done].
    destruct (unescape s) as [t'|] eqn:Hu; [|done]. injection Hs as <-.
    assert (a ≠ slash) by (by intros ->). assert (b ≠ slash) by (by intros ->).
    destruct (strings_Split_cons s slash) as (w & ws & Hw). cbn [strings_Split] in Hx. rewrite Hw in Hx.
    rewrite !bool_decide_false in Hx by done. injection Hx as <- <-. simpl in Hle.
    destruct (IH s t' w ws ltac:(lia) Hu Hw) as (y & ys & HF & ->). inversion HF; subst.
    exists (String (ascii_of_N (Z.to_N (16 * u + v))) y), ys. split.
    + constructor; [|done]. cbn [unescape]. rewrite bool_decide_true by done. rewrite Ha, Hb. by rewrite H4.
    + symmetry. apply (strings_Join_head (String _ "")).
  - destruct (unescape s) as [t'|] eqn:Hu; [|done]. injection Hs as <-. simpl in Hle.
    destruct (strings_Split_cons s slash) as (w & ws & Hw). cbn [strings_Split] in Hx. rewrite Hw in Hx.
    destruct (IH s t' w ws ltac:(lia) Hu Hw) as (y & ys & HF & ->).
    case_bool_decide as Hsl; injection Hx as <- <-.
    + subst c. exists "", (y :: ys). split; [by constructor|]. by rewrite strings_Join_cons.
    + inversion HF; subst. exists (String c y), ys. split.
      * constructor; [|done]. cbn [unescape]. rewrite bool_decide_false by done. by rewrite H2.
      * symmetry. apply (strings_Join_head (String c "")).
Qed.

Lemma mux_match_spec pats path p :
  mux_match pats path = Some p → p ∈ pats ∧ pt_matches (path_segments path) p = true.
Proof.
  unfold mux_match. set (f := λ best p, _).
  enough (∀ pats best, foldl f best pats = Some p →
            best = Some p ∨ p ∈ pats ∧ pt_matches (path_segments path) p = true) as Hall.
  { intros [?|?]%Hall; done. }
  clear pats. intros pats. induction pats as [|q pats IH]; intros best; simpl; [by left|].
  intros [Hb|[Hin Hm]]%IH; [|right; split; [by right|done]].
  unfold f in Hb. destruct (pt_matches (path_segments path) q) eqn:Hq; [|by left].
  destruct best as [b|]; [destruct (more_specific q b)|]; simplify_eq; [|by left|];
    right; split; try done; by left.
Qed.
Lemma mux_handled routes r p r' :
  mux routes r = Handled p r' →
  r' = r ∧ p ∈ routes ∧ pt_matches (path_segments (rq_EscapedPath r)) (parse_pattern p) = true.
Proof.
  unfold mux, findHandler. set (path := if str_eqb _ _ then _ else _).
  destruct (tree_redirect _ _ _); [done|].
  destruct (negb (str_eqb (rq_Method r) "CONNECT") && negb (str_eqb path (rq_EscapedPath r))) eqn:Hc; [done|].
  assert (path = rq_EscapedPath r) as ->.
  { subst path. destruct (str_eqb (rq_Method r) "CONNECT"); [done|]. simpl in Hc.
    by apply negb_false_iff, str_eqb_eq in Hc. }
  destruct (mux_match _ _) as [q|] eqn:Hm; [|done]. intros [= <- <-].
  apply mux_match_spec in Hm as [Hin Hm]. apply list_elem_of_fmap in Hin as (p & -> & Hin).
  assert (pt_text (parse_pattern p) = p) as -> by (unfold parse_pattern; by destruct (strings_HasSuffix _ _)).
  done.
Qed.

Lemma well_formed_path r :
  well_formed r = true → path_segments (rq_EscapedPath r) ≠ [] →
  URL_Path r = strings_Join ("" :: path_segments (rq_EscapedPath r)) "/".
Proof.
  unfold well_formed, URL_Path, path_segments. intros [Hp Hu%bool_decide_eq_true]%andb_true_iff Hne.
  destruct (unescape (rq_EscapedPath r)) as [t|] eqn:Ht; [|done].
  destruct (strings_Split_cons (rq_EscapedPath r) slash) as (x & xs & Hx). rewrite Hx in *. cbn [tail] in *.
  destruct (unescape_segments _ _ _ _ Ht Hx) as (y & ys & HF & ->). inversion HF as [|? ? ? ? Hy HF' ]; subst.
  assert (path_unescape <$> xs = ys) as ->.
  { clear -HF'. induction HF' as [|a b l l' Hab _ IH]; [done|]. rewrite fmap_cons, IH. unfold path_unescape. by rewrite Hab. }
  enough (x = "") as -> by (injection Hy as <-; unfold path_unescape; by rewrite Ht).
  apply orb_true_iff in Hp as [He%str_eqb_eq|(u & He)%strings_HasPrefix_spec]; rewrite He in Hx; simpl in Hx; simplify_eq.
  done.
Qed.

(** Without [..] cleaning only drops empty and [.] elements. *)
Lemma clean_elems_plain E acc :
  ".." ∉ E → clean_elems true E acc = reverse acc ++ filter (λ e, e ≠ "" ∧ e ≠ ".") E.
Proof.
  revert acc. induction E as [|e E IH]; intros acc HE; cbn [clean_elems]; [by rewrite filter_nil, app_nil_r|].
  apply not_elem_of_cons in HE as [He HE]. rewrite filter_cons.
  destruct (decide (e = "" ∨ e = ".")) as [Hd|Hd].
  - rewrite decide_False by tauto. destruct Hd as [-> | ->]; cbn; by apply IH.
  - rewrite decide_True by tauto. rewrite !(proj2 (str_eqb_ne _ _)) by naive_solver. simpl.
    rewrite IH by done. by rewrite reverse_cons, <-app_assoc.
Qed.
Lemma strings_Join_prefix l1 l2 :
  l1 ≠ [] → l2 ≠ [] → strings_Join (l1 ++ l2) "/" = strings_Join l1 "/" +:+ "/" +:+ strings_Join l2 "/".
Proof.
  intros H1 H2. induction l1 as [|x l1 IH]; [done|]. destruct l1 as [|y l1].
  - destruct l2; [done|]. apply strings_Join_cons.
  - simpl app in *. by rewrite !strings_Join_cons, IH, !str_app_assoc.
Qed.

(** ** Who reaches the API *)

(** What a tree route's handler takes for the namespace. *)
Definition ns_text (route : string) (r : HttpRequest) : string := str_drop (String.length route) (URL_Path r).
Definition tree_routes : list string := ["/api/namespace/"; "/api/resources/"].

Lemma clean_of_tree route ns :
  route ∈ tree_routes →
  let p := path_Clean (route +:+ ns) in
  is_api p = true ∧ p ≠ slackActionsPath
  ∨ ".." ∈ strings_Split ns slash ∧ (2 ≤ length (strings_Split ns slash))%nat.
Proof.
  intros Hr p. destruct (decide (".." ∈ strings_Split ns slash ∧ (2 ≤ length (strings_Split ns slash))%nat)) as [Hd|Hd]; [by right|].
  left. assert (∃ name, name ∈ ["namespace"; "resources"] ∧ route = "/api/" +:+ name +:+ "/") as (name & Hn & ->).
  { apply elem_of_cons in Hr as [-> |Hr%list_elem_of_singleton]; [exists "namespace"|exists "resources"; subst]; split; try done; set_solver. }
  assert (strings_Split (("/api/" +:+ name +:+ "/") +:+ ns) slash = "" :: "api" :: name :: strings_Split ns slash) as Hs.
  { rewrite !str_app_assoc. apply elem_of_cons in Hn as [-> |Hn%list_elem_of_singleton]; [|subst name]; done. }
  assert (p = "/" +:+ strings_Join (clean_elems true (strings_Split ns slash) [name; "api"]) "/") as ->.
  { subst p. unfold path_Clean. rewrite Hs.
    apply elem_of_cons in Hn as [-> |Hn%list_elem_of_singleton]; [|subst name]; done. }
  destruct (decide (".." ∈ strings_Split ns slash)) as [Hdd|Hdd].
  - destruct (strings_Split ns slash) as [|e [|e' E]]; [by apply not_elem_of_nil in Hdd| |exfalso; apply Hd; split; [done|simpl; lia]].
    apply list_elem_of_singleton in Hdd as <-.
    apply elem_of_cons in Hn as [-> |Hn%list_elem_of_singleton]; [|subst name]; done.
  - rewrite clean_elems_plain by done. set (l := filter _ _).
    change (reverse [name; "api"]) with ["api"; name].
    destruct l as [|x l].
    + apply elem_of_cons in Hn as [-> |Hn%list_elem_of_singleton]; [|subst name]; done.
    + rewrite (strings_Join_prefix ["api"; name] (x :: l)) by done. set (rest := strings_Join (x :: l) "/").
      apply elem_of_cons in Hn as [-> |Hn%list_elem_of_singleton]; [|subst name]; split; done.
Qed.

Definition has_token (s : Server) (r : HttpRequest) : Prop :=
  sv_token s ≠ "" ∧ Header_Get r "Authorization" = "Bearer " +:+ sv_token s.
Lemma bearer_spec r token : bearer r token = true → Header_Get r "Authorization" = "Bearer " +:+ token.
Proof.
  unfold bearer, strings_TrimPrefix. intros [Hp Ht%str_eqb_eq]%andb_true_iff. rewrite Hp in Ht.
  apply strings_HasPrefix_spec in Hp as [t He]. rewrite He in *. f_equal.
  rewrite <-Ht. symmetry. apply str_drop_app.
Qed.
Lemma authorize_handled s next r p r' :
  authorize s next r = Handled p r' →
  next r = Handled p r' ∧
  (is_api (path_Clean (URL_Path r)) = false ∨ path_Clean (URL_Path r) = slackActionsPath ∨ has_token s r).
Proof.
  unfold authorize. intros H. case_match eqn:Hc.
  - split; [done|]. apply orb_true_iff in Hc as [?%negb_true_iff|?%str_eqb_eq]; auto.
  - case_match eqn:Ht; [done|]. case_match eqn:Hb; [|done]. split; [done|]. right. right.
    split; [by apply str_eqb_ne|by apply bearer_spec].
Qed.
Lemma api_not_health p : p ∈ apiRouteTable → p ∉ health_routes.
Proof. revert p. apply Forall_forall, (bool_decide_unpack _). vm_compute. done. Qed.
Lemma clean_route p : p ∈ apiRouteTable → is_api (path_Clean p) = true ∧ path_Clean p ≠ slackActionsPath.
Proof. revert p. apply Forall_forall, (bool_decide_unpack _). vm_compute. done. Qed.
Section served.
Context (bad_url : string → bool).
Lemma toLeader_handled s next r p r' : toLeader bad_url s next r = Handled p r' → next r = Handled p r'.
Proof. unfold toLeader. intros H. by repeat case_match. Qed.
(** What reached a handler of a controller: the request itself, by a route
    its segments match, past the token. *)
Lemma serve_handled s r p r' :
  (serve bad_url s r).2 = Handled p r' → p ∉ health_routes →
  r' = r ∧ well_formed r = true ∧ p ∈ server_routes
  ∧ pt_matches (path_segments (rq_EscapedPath r)) (parse_pattern p) = true
  ∧ (is_api (path_Clean (URL_Path r)) = false ∨ path_Clean (URL_Path r) = slackActionsPath ∨ has_token s r).
Proof.
  unfold serve. intros H Hp. destruct (well_formed r); [|done]. simpl in H.
  destruct (sv_healthOnly s); cbn [snd] in H.
  { apply mux_handled in H as (_ & Hin & _). done. }
  apply toLeader_handled, authorize_handled in H as [H Ha]. apply mux_handled in H as (-> & Hin & Hm). done.
Qed.
Lemma route_path r p :
  well_formed r = true → p ∈ apiRouteTable →
  pt_matches (path_segments (rq_EscapedPath r)) (parse_pattern p) = true →
  if bool_decide (p ∈ tree_routes) then URL_Path r = p +:+ ns_text p r else URL_Path r = p.
Proof.
  intros Hw Hp Hm.
  assert (pt_multi (parse_pattern p) = bool_decide (p ∈ tree_routes)
          ∧ strings_Join ("" :: pt_segs (parse_pattern p)) "/" = (if bool_decide (p ∈ tree_routes) then str_take (String.length p - 1) p else p)
          ∧ (bool_decide (p ∈ tree_routes) = true → p = str_take (String.length p - 1) p +:+ "/")
          ∧ pt_segs (parse_pattern p) ≠ []) as (Hmu & Hj & Htr & Hne).
  { revert Hp. clear. revert p. apply Forall_forall. repeat (apply Forall_cons; split); [..|by apply Forall_nil].
    all: split_and!; done. }
  unfold pt_matches in Hm. rewrite Hmu in Hm. case_bool_decide as Ht.
  - assert (∃ x xs, path_segments (rq_EscapedPath r) = pt_segs (parse_pattern p) ++ x :: xs) as (x & xs & Hs).
    { clear -Hm. revert Hm. generalize (path_segments (rq_EscapedPath r)). induction (pt_segs (parse_pattern p)) as [|a l IH]; intros [|b segs]; cbn [below]; try done.
      - by exists b, segs.
      - intros [->%str_eqb_eq Hb]%andb_true_iff. apply IH in Hb as (x & xs & ->). by exists x, xs. }
    assert (URL_Path r = p +:+ strings_Join (x :: xs) "/") as HP.
    { rewrite well_formed_path by (try done; rewrite Hs; by destruct (pt_segs _)).
      rewrite Hs. change ("" :: pt_segs (parse_pattern p) ++ x :: xs) with (("" :: pt_segs (parse_pattern p)) ++ x :: xs).
      rewrite strings_Join_prefix by done. rewrite Hj. by rewrite <-str_app_assoc, <-(Htr eq_refl). }
    unfold ns_text. rewrite HP. by rewrite str_drop_app.
  - apply bool_decide_eq_true in Hm. rewrite well_formed_path, <-Hm; [done|done|]. by rewrite <-Hm.
Qed.

(** C10: A request that reaches an API handler carried the token; or it is for a
    namespace named by a path with [..] in it, which no namespace is. *)
Theorem api_needs_token s r p r' :
  (serve bad_url s r).2 = Handled p r' → p ∈ apiRouteTable →
  r' = r ∧
  (has_token s r
   ∨ p ∈ tree_routes ∧ let elems := strings_Split (ns_text p r) slash in
                       ".." ∈ elems ∧ (2 ≤ length elems)%nat).
Proof.
  intros H Hp. apply serve_handled in H as (-> & Hw & _ & Hm & Ha); [|by apply api_not_health].
  split; [done|]. destruct Ha as [Ha|[Ha|Ha]]; [right|right|by left].
  all: pose proof (route_path r p Hw Hp Hm) as HP; case_bool_decide as Ht.
  all: try (split; [done|]; cbv zeta; destruct (clean_of_tree p (ns_text p r) Ht) as [[Hi Hs]|Hd]; [|done];
            rewrite HP in Ha; congruence).
  all: exfalso; rewrite HP in Ha; destruct (clean_route p Hp); congruence.
Qed.

(** A request is sent to the leader only by a standby, unless it was sent
    already; what it sends says so, and whoever gets it keeps it. *)
Theorem forwarded_once s r base r' :
  (serve bad_url s r).2 = Forwarded base r' →
  Header_Get r proxiedHeader = "" ∧ sv_leader s = Some (LeaderAt base)
  ∧ r' = Header_Set proxiedHeader "1" r
  ∧ ∀ s' base' r'', (serve bad_url s' r').2 ≠ Forwarded base' r''.
Proof.
  assert (∀ l r b r', mux l r ≠ Forwarded b r') as Hmux.
  { intros l q b q'. unfold mux. by destruct (findHandler _ _). }
  assert (∀ s next r b r', (∀ r b r', next r ≠ Forwarded b r') → authorize s next r ≠ Forwarded b r') as Hau.
  { intros s0 next q b q' Hn. unfold authorize. repeat case_match; done. }
  assert (∀ s r b r', (serve bad_url s r).2 = Forwarded b r' →
            Header_Get r proxiedHeader = "" ∧ sv_leader s = Some (LeaderAt b) ∧ r' = Header_Set proxiedHeader "1" r) as Hone.
  { clear s r base r'. intros s r b r'. unfold serve. destruct (well_formed r); [|done]. simpl.
    destruct (sv_healthOnly s); cbn [snd]; [by intros ?%Hmux|]. unfold toLeader.
    destruct (sv_leader s) as [l|] eqn:Hl; [|by intros ?%Hau; auto].
    case_match eqn:Hc; [by intros ?%Hau; auto|]. apply orb_false_iff in Hc as [_ Hh%negb_false_iff%str_eqb_eq].
    destruct l; [|done]. case_match; [by intros ?%Hau; auto|]. case_match; [done|]. by intros [= -> <-]. }
  intros H. pose proof (Hone _ _ _ _ H) as (Hh & Hl & ->). split_and!; try done.
  intros s' b' r'' (Hh' & _)%Hone. unfold Header_Get, Header_Set in Hh'. simpl in Hh'.
  by rewrite lookup_insert_eq in Hh'.
Qed.

(** The events of the agents and the callbacks of Slack are not behind the
    dashboard's token, and nothing but them and the pages is. *)
Theorem open_routes s r p r' :
  (serve bad_url s r).2 = Handled p r' → sv_token s = "" →
  p ∈ health_routes ++ [IngestPath; slackActionsPath; "/"]
  ∨ p ∈ tree_routes ∧ ".." ∈ strings_Split (ns_text p r) slash.
Proof.
  intros H Ht. destruct (decide (p ∈ health_routes)) as [?|Hh]; [left; set_solver|].
  destruct (decide (p ∈ apiRouteTable)) as [Hp|Hp].
  - right. apply api_needs_token in H as [_ [[? _]|(? & ? & _)]]; done.
  - left. apply serve_handled in H as (_ & _ & Hin & _); [|done]. unfold server_routes in Hin. set_solver.
Qed.
End served.

(** The token is passed by where the cleaned path leads, not by where the
    multiplexer goes: with its dots escaped, or in a CONNECT, a path that
    climbs out of the API reaches a handler without a token. *)
Theorem dotdot_skips_the_token :
  RoutingDemo.ask RoutingDemo.controller (RoutingDemo.request "GET" "/api/namespace/%2e%2e/%2e%2e/x" None)
    = Handled "/api/namespace/" (RoutingDemo.request "GET" "/api/namespace/%2e%2e/%2e%2e/x" None)
  ∧ RoutingDemo.ask RoutingDemo.controller (RoutingDemo.request "CONNECT" "/api/resources/../../x" None)
    = Handled "/api/resources/" (RoutingDemo.request "CONNECT" "/api/resources/../../x" None).
Proof. split; vm_compute; reflexivity. Qed.

Lemma api_needs_token_witness :
  let r := RoutingDemo.request "GET" "/api/namespace/shop" (Some "Bearer tok") in
  r = r ∧ (has_token RoutingDemo.controller r
           ∨ "/api/namespace/" ∈ tree_routes ∧ let elems := strings_Split (ns_text "/api/namespace/" r) slash in
                                               ".." ∈ elems ∧ (2 ≤ length elems)%nat).
Proof.
  apply (api_needs_token (λ _, false) RoutingDemo.controller (RoutingDemo.request "GET" "/api/namespace/shop" (Some "Bearer tok"))).
  - vm_compute. reflexivity.
  - unfold apiRouteTable. set_solver.
Defined.
