(* ===== verification/SlackActions.v ===== *)
(** * Approvals over HTTP: internal/httpapi/slack_actions.go, approvals.go,
    cmd/auto-agent/approvals.go

    The Approve and Reject buttons of Slack, verified by Slack's request
    signature (HMAC-SHA256), and the approvals page, against the queue as the
    server sees it ([ApprovalQueue]); the adapter gives it the queue of
    [Approvals]. *)
From S2P Require Import Prelude GoStd Policy Gate K8s Fixes Approvals Wire ApprovalsStore.
From S2P Require Import Calendar Sha256 Routing.
From Stdlib Require Import Ascii.
#[local] Open Scope Z_scope.
#[local] Open Scope agent_scope.

(** ** crypto/hmac with SHA-256 *)
Definition bytes_string (l : list Z) : string := String.string_of_list_ascii ((λ b, ascii_of_N (Z.to_N b)) <$> l).
Definition hmac_key (key : string) : list Z :=
  let k := str_bytes (if (64 <? String.length key)%nat then bytes_string (sha256_sum key) else key) in
  k ++ replicate (64 - length k) 0.
Definition hmac_sha256 (key msg : string) : list Z :=
  let pad z := bytes_string (Z.lxor z <$> hmac_key key) in
  sha256_sum (pad 92 +:+ bytes_string (sha256_sum (pad 54 +:+ msg))).

(** RFC 4231, test cases 2 and 6. *)
Example hmac_vectors :
  hex_encode (hmac_sha256 "Jefe" "what do ya want for nothing?")
    = "5bdcc146bf60754e6a042426089575c75a003f089d2739839dec58b964ec3843"
  ∧ hex_encode (hmac_sha256 (bytes_string (replicate 131 170)) "Test Using Larger Than Block-Size Key - Hash Key First")
    = "60e431591ee0b67f0d8a26aacbf5b77f8e0bc6213728c5140546040f0ee37f54".
Proof. vm_compute. done. Qed.

(** ** Slack's signature *)
Definition slackSignatureMaxAge : Duration := 5 * minute.
Inductive signature_error := BadTimestamp (ts : string) | OutsideWindow | SignatureMismatch.
(** [time.Unix(sec, 0)]. *)
Definition time_of_Unix (sec : Z) : Time := wrap64 (sec + unix_epoch) * second.
Definition slack_signature (secret ts body : string) : string :=
  "v0=" +:+ hex_encode (hmac_sha256 secret ("v0:" +:+ ts +:+ ":" +:+ body)).
Definition verifySlackSignature (secret : string) (r : HttpRequest) (body : string) (now : Time) : option signature_error :=
  let ts := Header_Get r "X-Slack-Request-Timestamp" in
  match strconv_Atoi ts with
  | None => Some (BadTimestamp ts)
  | Some sec =>
    let age := time_Sub now (time_of_Unix sec) in
    if (slackSignatureMaxAge <? age) || (age <? dur_neg slackSignatureMaxAge) then Some OutsideWindow
    else if str_eqb (slack_signature secret ts body) (Header_Get r "X-Slack-Signature") then None
    else Some SignatureMismatch
  end.

(** ** The form and the payload: [url.ParseQuery] *)
Fixpoint plus_to_space (s : string) : string :=
  match s with
  | EmptyString => ""
  | String c s' => String (if bool_decide (c = "+"%char) then " "%char else c) (plus_to_space s')
  end.
(** A plus that is written [%2B] stays. *)
Definition QueryUnescape (s : string) : option string := unescape (plus_to_space s).
(** A pair: [None] makes the whole an error, an empty one is left out. *)
Definition query_pair (s : string) : option (option (string * string)) :=
  if strings_Contains s ";" then None
  else if str_eqb s "" then Some None
  else let '(k, v) := default (s, "") (strings_cut s "="%char) in
       match QueryUnescape k, QueryUnescape v with
       | Some k, Some v => Some (Some (k, v))
       | _, _ => None
       end.
Definition ParseQuery (s : string) : option (list (string * string)) :=
  omap id <$> mapM query_pair (strings_Split s "&"%char).
Definition Values_Get (vs : list (string * string)) (k : string) : string :=
  match filter (λ kv, kv.1 = k) vs with (_, v) :: _ => v | [] => "" end.
Example query_values :
  (λ vs, (Values_Get vs "payload", Values_Get vs "x")) <$> ParseQuery "a=1&payload=%7B%22t%22%3A+1%2B1%7D&payload=2"
    = Some ("{" +:+ dq +:+ "t" +:+ dq +:+ ": 1+1}", "")
  ∧ ParseQuery "a=1;b" = None ∧ ParseQuery "a=%zz" = None ∧ ParseQuery "" = Some [].
Proof. vm_compute. done. Qed.

Record SlackAction := mkAction { sa_ActionID : string; sa_Value : string }.
Record SlackPayload := mkPayload {
  sl_Type : string; sl_UserID : string; sl_Username : string; sl_Actions : list SlackAction
}.

(** ** The queue as the server sees it *)
Record ApprovalItem := mkItem {
  it_ID : string; it_Namespace : string; it_Workload : string; it_Reason : string; it_Action : string;
  it_Change : string; it_Summary : string; it_State : string; it_By : string; it_Result : string;
  it_Created : string; it_Expires : string
}.
(** An error: its text, and the one of the server's that it matches. *)
Inductive approval_kind := ErrApprovalNotFound | ErrApprovalConflict.
Record failure := mkFailure { fl_text : string; fl_kind : option approval_kind }.
Class ApprovalQueue (S : Type) := {
  aq_List : st S (list ApprovalItem);
  aq_Approve : string → string → st S (string + failure);
  aq_Reject : string → string → st S (option failure);
  aq_IsApprover : string → bool
}.

(** What a handler answers. *)
Inductive response {A : Type} :=
| RespJSON (a : A) | RespText (status : Z) (text : string) | RespStatus (status : Z).
Arguments response : clear implicits.

Section handlers.
Context {S : Type}.

(** The queue is nil off the controller. *)
Context (queue : option (ApprovalQueue S)).
Definition dashboardRejecter : string := "dashboard".
Definition approvalStatus (e : failure) : Z :=
  match fl_kind e with Some ErrApprovalNotFound => 404 | Some ErrApprovalConflict => 409 | None => 503 end.
Definition listed (allowNS : option (string → bool)) (it : ApprovalItem) : bool :=
  match allowNS with
  | None => true
  | Some f => str_eqb (it_Namespace it) "" || f (it_Namespace it)
  end.
Definition handleApprovals (allowNS : option (string → bool)) (r : HttpRequest)
    : st S (response (list ApprovalItem + string)) :=
  match queue with
  | None => return! RespText 503 "approvals are served by the controller"
  | Some q =>
    if str_eqb (rq_Method r) "GET" then
      let! items := aq_List in
      return! RespJSON (inl (filter (λ it, listed allowNS it = true) items))
    else if str_eqb (rq_Method r) "DELETE" then
      let id := Query_Get r "id" in
      if str_eqb id "" then return! RespText 400 "id required"
      else
        let! e := aq_Reject id dashboardRejecter in
        match e with
        | Some e => return! RespText (approvalStatus e) (fl_text e)
        | None => return! RespJSON (inr id)
        end
    else return! RespText 405 "method not allowed"
  end.

Definition not_approver (user : string) : string := user +:+ " is not a listed approver; nothing was changed.".
Definition slackApprove (q : ApprovalQueue S) (id user : string) : st S string :=
  if negb (aq_IsApprover user) then return! not_approver user
  else
    let! r := aq_Approve id user in
    match r with
    | inr e => return! ("Approval " +:+ id +:+ " was not applied: " +:+ fl_text e)
    | inl msg => return! ("Approved by " +:+ user +:+ ". " +:+ msg)
    end.
Definition slackReject (q : ApprovalQueue S) (id user : string) : st S string :=
  if negb (aq_IsApprover user) then return! not_approver user
  else
    let! e := aq_Reject id user in
    match e with
    | Some e => return! ("Approval " +:+ id +:+ " was not rejected: " +:+ fl_text e)
    | None => return! ("Rejected by " +:+ user +:+ "; nothing was changed.")
    end.

Definition maxBody : nat := Z.to_nat (2 ^ 20).
(** [json.Unmarshal] of the payload; the secret, and the clock's reading. *)
Context (json_payload : string → option SlackPayload) (signingSecret : string) (now : Time).
Definition slack_action (p : SlackPayload) (a : SlackAction) : st S string :=
  let user := "slack:" +:+ sl_UserID p in
  if str_eqb (sa_ActionID a) "approve_fix" then
    match queue with
    | Some q => slackApprove q (sa_Value a) user
    | None => return! ("Approve is not available: no approvers are set, no action was taken (requested by "
                       +:+ sl_Username p +:+ ")")
    end
  else if str_eqb (sa_ActionID a) "reject_fix" then
    match queue with
    | Some q => slackReject q (sa_Value a) user
    | None => return! "Reject is not available, no action was taken"
    end
  else return! ("Unknown action: " +:+ sa_ActionID a).
(** [SlackActionHandler.ServeHTTP]: the text of the answer, for the first
    action of the payload. *)
Definition slack_callback (body : string) : st S (response string) :=
  match ParseQuery body with
  | None => return! RespText 400 "parse"
  | Some values =>
    let payloadStr := Values_Get values "payload" in
    if str_eqb payloadStr "" then return! RespText 400 "no payload"
    else match json_payload payloadStr with
         | None => return! RespText 400 "parse payload"
         | Some p =>
           if negb (str_eqb (sl_Type p) "block_actions") then return! RespStatus 200
           else match sl_Actions p with
                | a :: _ => let! t := slack_action p a in return! RespJSON t
                | [] => return! RespStatus 200
                end
         end
  end.
Definition SlackServeHTTP (r : HttpRequest) : st S (response string) :=
  if negb (str_eqb (rq_Method r) "POST") then return! RespText 405 "POST required"
  else if str_eqb signingSecret "" then return! RespText 503 "slack actions disabled: set SLACK_SIGNING_SECRET"
  else match rq_Body r with
       | None => return! RespText 400 "read body"
       | Some b =>
         let body := str_take maxBody b in
         match verifySlackSignature signingSecret r body now with
         | Some _ => return! RespText 401 "invalid signature"
         | None => slack_callback body
         end
       end.
End handlers.

(** ** The buttons that call back: postApprovalButtons of internal/kube/approvals.go *)
Record SlackButton := mkButton { bt_Text : string; bt_Style : string; bt_ActionID : string; bt_Value : string }.
Inductive SlackBlock := SectionBlock (mrkdwn : string) | ActionsBlock (buttons : list SlackButton).
Definition approvalBlocks {C} (p : pendingApproval C) : list SlackBlock := [
  SectionBlock ("*Approve to fix* `" +:+ pa_id p +:+ "`: " +:+ m_SuggestMsg (pa_m p) +:+ nl +:+ pa_summary p);
  ActionsBlock [mkButton "Approve" "primary" "approve_fix" (pa_id p);
                mkButton "Reject" "danger" "reject_fix" (pa_id p)]].
(** The blocks are posted when the client can; an error is only logged. *)
Definition postApprovalButtons {C W} (PostBlocks : option (list SlackBlock → W → W)) (p : pendingApproval C) (w : W) : W :=
  match PostBlocks with Some post => post (approvalBlocks p) w | None => w end.
(** The payload of a click: the action of the button, by the user. *)
Definition click (userID username : string) (b : SlackButton) : SlackPayload :=
  mkPayload "block_actions" userID username [mkAction (bt_ActionID b) (bt_Value b)].
Definition buttons_of (l : list SlackBlock) : list SlackButton :=
  mjoin ((λ b, match b with ActionsBlock bs => bs | SectionBlock _ => [] end) <$> l).

(** A click on a button of a pending change is a decision on that change and
    no other, by the user who clicked. *)
Theorem buttons_decide_their_change {C S} (q : ApprovalQueue S) (p : pendingApproval C) userID username b body json_payload :
  b ∈ buttons_of (approvalBlocks p) →
  (∃ vs, ParseQuery body = Some vs ∧ Values_Get vs "payload" ≠ ""
     ∧ json_payload (Values_Get vs "payload") = Some (click userID username b)) →
  let user := "slack:" +:+ userID in
  slack_callback (Some q) json_payload body
  = (let! t := (if str_eqb (bt_Text b) "Approve" then slackApprove q (pa_id p) user else slackReject q (pa_id p) user) in
     return! RespJSON t).
Proof.
  intros Hb (vs & Hvs & Hne & Hp). unfold slack_callback. rewrite Hvs. cbv zeta.
  rewrite (proj2 (str_eqb_ne _ _)) by done. rewrite Hp.
  cbn in Hb. rewrite !elem_of_cons in Hb. destruct Hb as [->|[->|Hb]]; [done..|by apply elem_of_nil in Hb].
Qed.

(** ** The queue behind it: cmd/auto-agent/approvals.go *)
Section adapter.
Context {C Spec W : Type} `{!ClusterAPI C Spec, !ConfigMapAPI W, !QueueCodec, !RangeOrder}.
Context (env : Env) (others : nat → W → W) (fix_error_text : fix_error → string) (retries : nat).
(** [Error] of what the store and the API server answer. *)
Context (store_text : approval_error → string).
Definition approval_text (e : approval_error) : string :=
  match e with
  | ErrApprovalsOff => "approvals are off: set approvals.groups"
  | ErrApprovalUnknown => "no such approval on this replica"
  | ErrApprovalDecided state => "approval already decided: " +:+ state
  | ErrNotApprover => "not a listed approver"
  | errApprovalQueueFull => "approval queue is full"
  | errApprovalID | errApprovalStore _ => store_text e
  end.
Definition approvalErr (e : approval_error) : failure :=
  mkFailure (approval_text e)
    (match e with
     | ErrApprovalUnknown => Some ErrApprovalNotFound
     | ErrApprovalDecided _ => Some ErrApprovalConflict
     | _ => None
     end).
Definition item_of (v : ApprovalView) : ApprovalItem :=
  mkItem (av_ID v) (av_Namespace v) (av_Workload v) (av_Reason v) (av_Action v) (av_Change v)
    (av_Summary v) (av_State v) (av_By v) (av_Result v)
    (format_RFC3339 (av_Created v)) (format_RFC3339 (av_Expires v)).
Definition approvalsAPI (oa : option Approvals) : ApprovalQueue (QSys C W) := {|
  aq_List := let! vs := ListApprovals env others fix_error_text oa in return! (item_of <$> vs);
  aq_Approve id user :=
    let! r := ApproveFix env others fix_error_text retries oa id user in
    return! (match r with inl msg => inl msg | inr e => inr (approvalErr e) end);
  aq_Reject id by_ :=
    let! e := RejectFix env others fix_error_text retries oa id by_ in
    return! (approvalErr <$> e);
  aq_IsApprover user := IsApprover oa user
|}.
(** Off the controller there is no queue. *)
Definition approvalsFor (controller : bool) (oa : option Approvals) : option (ApprovalQueue (QSys C W)) :=
  if controller then Some (approvalsAPI oa) else None.
End adapter.

(** ** What the buttons and the page can do *)

Lemma signature_checked secret r body now :
  verifySlackSignature secret r body now = None →
  ∃ sec, strconv_Atoi (Header_Get r "X-Slack-Request-Timestamp") = Some sec
         ∧ - slackSignatureMaxAge ≤ now - time_of_Unix sec ≤ slackSignatureMaxAge
         ∧ Header_Get r "X-Slack-Signature"
           = slack_signature secret (Header_Get r "X-Slack-Request-Timestamp") body.
Proof.
  unfold verifySlackSignature. destruct (strconv_Atoi _) as [sec|]; [|done]. intros H. exists sec.
  case_match eqn:Hw; [done|]. case_match eqn:Hs; [|done]. apply str_eqb_eq in Hs.
  apply orb_false_iff in Hw as [H1%Z.ltb_ge H2%Z.ltb_ge].
  rewrite dur_neg_pos in H2 by (vm_compute; split; congruence).
  unfold time_Sub, min_int64, max_int64, slackSignatureMaxAge, minute, second in *. split_and!; [done|lia..|done].
Qed.

Section reach.
Context {C Spec W : Type} `{!ClusterAPI C Spec, !ConfigMapAPI W, !ConfigMapView W,
  !ConfigMapLaws W, !QueueCodec, !RangeOrder}.
Context (env : Env) (others : nat → W → W) (fix_error_text : fix_error → string) (retries : nat).
Context (Hothers : ∀ n w, later w (others n w)) (store_text : approval_error → string).
Implicit Types (s : QSys C W).

Definition quiet s s' : Prop := same_cluster (qs_gate s) (qs_gate s').
#[local] Instance quiet_preorder : PreOrder quiet.
Proof. unfold quiet. split; [by intros s|]. intros s1 s2 s3 ??. by etrans. Qed.

Lemma RejectFix_quiet oa id by_ : keeps quiet (RejectFix env others fix_error_text retries oa id by_).
Proof.
  intros s. unfold RejectFix. destruct oa as [a|]; [|done]. destruct (Enabled _); [|done]. cbn [negb].
  match goal with |- context [updateQueue _ _ _ a ?st] => set (stp := st) end.
  assert (local_step stp) as Hstp.
  { intros s0. unfold stp, get_items, run_step, set_items, st_bind. set (b := bool_decide _).
    destruct (maybe_clock env b s0) as (Hc & _ & Hw).
    destruct ((if b then on_gate (clock env) else st_ret 0) s0) as [now s1]. by cbn in *. }
  apply (bind_spec (λ r, quiet s r.2)); [apply (updateQueue_moves others fix_error_text retries Hothers a stp s Hstp)|].
  intros [m|e] s1 H1; cbn [fst snd] in *; [|done]. rewrite bind_tt. cbn [fst snd st_ret]. etrans; [exact H1|].
  unfold quiet, on_gate. pose proof (audit_cluster env m "rejected" ("rejected by " +:+ by_) (qs_gate s1)).
  by destruct (audit _ _ _ _ _).
Qed.
Lemma ListApprovals_quiet oa : keeps quiet (ListApprovals env others fix_error_text oa).
Proof.
  unfold ListApprovals. destruct oa as [a|]; [|by intros s].
  apply keeps_bind; [apply _|..].
  - destruct (ap_store a) as [ns|]; [|by intros s]. intros s.
    apply (bind_spec (λ r, quiet s r.2)); [|done]. unfold reloadLocked.
    apply (bind_spec (λ r, quiet s r.2)).
    + by destruct (loadQueue_spec others fix_error_text Hothers ns s) as ([? _] & _).
    + intros [[recs v]|e] s1 H1; done.
  - intros _. apply keeps_bind; [apply _|..].
    + intros s. by destruct (maybe_clock env true s).
    + intros now. apply keeps_bind; [apply _|by intros s|]. intros q.
      apply keeps_bind; [apply _|by intros s|]. intros _. by intros s.
Qed.

Abbreviation api := (approvalsAPI env others fix_error_text retries store_text).
(** What approving [id] as [user] does, from [s]. *)
Definition approved_from (a : Approvals) (id user : string) s s' : Prop :=
  user ∈ ap_approvers a
  ∧ approve_contract env fix_error_text a id user s (ApproveFix env others fix_error_text retries (Some a) id user s)
  ∧ s' = (ApproveFix env others fix_error_text retries (Some a) id user s).2.

Lemma slack_action_reach oa p act s :
  let r := slack_action (Some (api oa)) p act s in
  quiet s r.2
  ∨ sa_ActionID act = "approve_fix" ∧ ∃ a, oa = Some a ∧ approved_from a (sa_Value act) ("slack:" +:+ sl_UserID p) s r.2.
Proof.
  cbv zeta. unfold slack_action. case_match eqn:Ha.
  - apply str_eqb_eq in Ha. unfold slackApprove. cbn [aq_IsApprover approvalsAPI].
    destruct (IsApprover oa _) eqn:Hi; cbn [negb]; [|by left].
    right. split; [done|]. unfold IsApprover in Hi. destruct oa as [a|]; [|done].
    apply andb_true_iff in Hi as [_ Hu%bool_decide_eq_true]. exists a. split; [done|]. split_and!; [done| |].
    + by apply ApproveFix_contract.
    + cbn [aq_Approve approvalsAPI]. unfold st_bind. destruct (ApproveFix _ _ _ _ _ _ _ s) as [[m|e] s1]; done.
  - left. case_match; [|done]. unfold slackReject. cbn [aq_IsApprover approvalsAPI].
    destruct (IsApprover oa _); [|done]. cbn [negb aq_Reject approvalsAPI].
    pose proof (RejectFix_quiet oa (sa_Value act) ("slack:" +:+ sl_UserID p) s) as Hq.
    unfold st_bind. destruct (RejectFix _ _ _ _ _ _ _ s) as [[e|] s1]; exact Hq.
Qed.

(** C6: A Slack callback changes the cluster only when Slack signed it: with the
    secret, for this body, with a timestamp within five minutes of now; and
    only for one Approve of its payload, by a listed approver, as
    [ApproveFix] promises. *)
Theorem slack_acts_as_signed oa json_payload secret now r s :
  let s' := (SlackServeHTTP (Some (api oa)) json_payload secret now r s).2 in
  quiet s s'
  ∨ rq_Method r = "POST" ∧ secret ≠ ""
    ∧ ∃ body sec a p act more,
        str_take maxBody <$> rq_Body r = Some body
        ∧ strconv_Atoi (Header_Get r "X-Slack-Request-Timestamp") = Some sec
        ∧ - slackSignatureMaxAge ≤ now - time_of_Unix sec ≤ slackSignatureMaxAge
        ∧ Header_Get r "X-Slack-Signature"
          = slack_signature secret (Header_Get r "X-Slack-Request-Timestamp") body
        ∧ (ParseQuery body ≫= λ vs, json_payload (Values_Get vs "payload")) = Some p
        ∧ sl_Actions p = act :: more ∧ sa_ActionID act = "approve_fix" ∧ oa = Some a
        ∧ approved_from a (sa_Value act) ("slack:" +:+ sl_UserID p) s s'.
Proof.
  cbv zeta. unfold SlackServeHTTP. case_match eqn:Hm; [by left|]. apply negb_false_iff, str_eqb_eq in Hm.
  case_match eqn:Hs; [by left|]. apply str_eqb_ne in Hs. destruct (rq_Body r) as [b|] eqn:Hb; [|by left].
  destruct (verifySlackSignature _ _ _ _) eqn:Hv; [by left|].
  apply signature_checked in Hv as (sec & Hts & Hw & Hsig). unfold slack_callback.
  destruct (ParseQuery _) as [vs|] eqn:Hq; [|by left]. case_match; [by left|].
  destruct (json_payload _) as [p|] eqn:Hp; [|by left]. case_match; [by left|].
  destruct (sl_Actions p) as [|act more] eqn:Ha; [by left|].
  assert (∀ (m : st (QSys C W) string), ((let! t := m in return! RespJSON (A := string) t) s).2 = (m s).2) as ->
    by (intros m; unfold st_bind; by destruct (m s)).
  destruct (slack_action_reach oa p act s) as [Hd|(Hid & a & -> & Hap)]; [by left|]. right.
  split_and!; [done..|]. eexists _, sec, a, p, act, more. destruct Hw. split_and!; try done. cbn. by rewrite Hq.
Qed.

(** The approvals page of the dashboard lists and rejects; whatever it is
    asked, the cluster stays as it is. *)
Theorem dashboard_never_approves controller oa allowNS r s :
  quiet s (handleApprovals (approvalsFor env others fix_error_text retries store_text controller oa) allowNS r s).2.
Proof.
  unfold handleApprovals, approvalsFor. destruct controller; [|done]. case_match; [|case_match; [|done]].
  - cbn [aq_List approvalsAPI]. unfold st_bind. pose proof (ListApprovals_quiet oa s).
    by destruct (ListApprovals _ _ _ _ s).
  - case_match; [done|]. cbn [aq_Reject approvalsAPI]. unfold st_bind.
    pose proof (RejectFix_quiet oa (Query_Get r "id") dashboardRejecter s) as Hq.
    destruct (RejectFix _ _ _ _ _ _ _ s) as [[e|] s1]; exact Hq.
Qed.
End reach.

Module SlackDemo.
Import QueueDemo.
#[export] Existing Instances range_sorted wire_codec SimpleAPI.api SimpleAPI.view SimpleAPI.laws QueueDemo.cluster.
Definition api (oa : option Approvals) : ApprovalQueue sys :=
  approvalsAPI env others no_text 4 (λ _, "store error") oa.
Definition secret : string := "8f742231b10e8888abcd99yyyzzz85a5".
(** The payloads of the demo, as if they were JSON. *)
Definition json (s : string) : option SlackPayload :=
  if str_eqb s "approve id1" then Some (mkPayload "block_actions" "U1" "ann" [mkAction "approve_fix" "id1"])
  else if str_eqb s "intruder" then Some (mkPayload "block_actions" "U2" "bob" [mkAction "approve_fix" "id1"])
  else None.
Definition sent : Time := GateDemo.now.
Definition request (body sig : string) : HttpRequest :=
  mkRequest "POST" slackActionsPath
    {["X-Slack-Request-Timestamp" := itoa (time_Unix sent); "X-Slack-Signature" := sig]} ∅ (Some body).
Definition signed (body : string) : HttpRequest := request body (slack_signature secret (itoa (time_Unix sent)) body).
Definition post (r : HttpRequest) (now : Time) (s : sys) : response string * sys :=
  SlackServeHTTP (Some (api (Some queue))) json secret now r s.
End SlackDemo.

(** A signed Approve runs the change; the same request is refused without
    the signature, later than five minutes, or from someone not listed. *)
Example slack_runs :
  (SlackDemo.post (SlackDemo.signed "payload=approve+id1") SlackDemo.sent QueueDemo.proposed.2).1
    = RespJSON ("Approved by slack:U1. _Action_: resumed deployment web." +:+ nl)
  ∧ (SlackDemo.post (SlackDemo.signed "payload=approve+id1") (SlackDemo.sent + 301 * second) QueueDemo.proposed.2).1
    = RespText 401 "invalid signature"
  ∧ (SlackDemo.post (SlackDemo.request "payload=approve+id1" "v0=00") SlackDemo.sent QueueDemo.proposed.2).1
    = RespText 401 "invalid signature"
  ∧ (SlackDemo.post (SlackDemo.signed "payload=intruder") SlackDemo.sent QueueDemo.proposed.2).1
    = RespJSON "slack:U2 is not a listed approver; nothing was changed.".
Proof. vm_compute. done. Qed.

#[local] Existing Instances range_sorted wire_codec SimpleAPI.api SimpleAPI.view SimpleAPI.laws QueueDemo.cluster.
Lemma slack_acts_as_signed_witness :
  let s := QueueDemo.proposed.2 in
  let r := SlackDemo.signed "payload=approve+id1" in
  quiet s (SlackDemo.post r SlackDemo.sent s).2
  ∨ rq_Method r = "POST" ∧ SlackDemo.secret ≠ ""
    ∧ ∃ body sec a p act more,
        str_take maxBody <$> rq_Body r = Some body
        ∧ strconv_Atoi (Header_Get r "X-Slack-Request-Timestamp") = Some sec
        ∧ - slackSignatureMaxAge ≤ SlackDemo.sent - time_of_Unix sec ≤ slackSignatureMaxAge
        ∧ Header_Get r "X-Slack-Signature"
          = slack_signature SlackDemo.secret (Header_Get r "X-Slack-Request-Timestamp") body
        ∧ (ParseQuery body ≫= λ vs, SlackDemo.json (Values_Get vs "payload")) = Some p
        ∧ sl_Actions p = act :: more ∧ sa_ActionID act = "approve_fix" ∧ Some QueueDemo.queue = Some a
        ∧ approved_from QueueDemo.env QueueDemo.others QueueDemo.no_text 4 a (sa_Value act)
            ("slack:" +:+ sl_UserID p) s (SlackDemo.post r SlackDemo.sent s).2.
Proof.
  apply (slack_acts_as_signed QueueDemo.env QueueDemo.others QueueDemo.no_text 4 QueueDemo.others_later
    (λ _, "store error") (Some QueueDemo.queue) SlackDemo.json SlackDemo.secret SlackDemo.sent
    (SlackDemo.signed "payload=approve+id1") QueueDemo.proposed.2).
Defined.
