(* ===== verification/HttpReads.v ===== *)
(** * The dashboard's reads and the event ingest: internal/httpapi/http.go,
    api_extended.go, ingest.go

    Each handler with the reads of the cluster it makes, in order, and what
    it answers.  The watch scope is a function of the namespace, or none. *)
From S2P Require Import Prelude GoStd K8s Events Fixes Calendar.
From S2P Require Import Routing SlackActions.
From Stdlib Require Import Ascii.
#[local] Open Scope Z_scope.
#[local] Open Scope agent_scope.

(** ** Events of the log *)
Section log.
Context (recorder : Recorder).
(** [limit]: at most 500, 50 when it is not a positive number. *)
Definition events_limit (r : HttpRequest) : Z :=
  match strconv_Atoi (Query_Get r "limit") with
  | Some n => if 0 <? n then Z.min n 500 else 50
  | None => 50
  end.
(** With a type the newest [2 n] events are searched for it. *)
Definition handleEvents (r : HttpRequest) : list Event :=
  let n := events_limit r in
  let typeFilter := Query_Get r "type" in
  let allEvents := Recent (n * 2) recorder in
  take (Z.to_nat n)
    (if str_eqb typeFilter "" then allEvents else filter (λ e, ev_Type e = typeFilter) allEvents).
Definition handleStats : Z * gmap string Z := (Recorder_Count recorder, Stats recorder).

Record fixRow := mkFixRow {
  fr_timestamp : Time; fr_namespace : string; fr_workload : string; fr_reason : string;
  fr_action : string; fr_status : string; fr_detail : string; fr_verifiedAt : Time
}.
Definition verified_fixes : list fixRow :=
  (λ e, mkFixRow (ev_Timestamp e) (ev_Namespace e) (ev_Workload e) (ev_Reason e) "fix" "fixed"
          (ev_Message e) (ev_Timestamp e))
  <$> filter (λ e, ev_Action e = "verified-fix") (Recent 0 recorder).
End log.

(** ** Event ingest: ingest.go *)
Section ingest.
(** [json.Decode] of a body read up to a number of bytes: the batch or an
    error; and the redaction rules. *)
Context (decode_batch : Z → string → list Event + string) (redact_String : string → string).
Definition ingest_event (e : Event) : Event :=
  let e := ev_set_ID 0 e in
  mkEvent (ev_ID e) (ev_Timestamp e) (ev_Type e) (ev_Severity e) (ev_Namespace e) (ev_Workload e)
    (ev_Pod e) (ev_Node e) (ev_Reason e) (redact_String (ev_Message e)) (ev_Action e) (ev_LogURL e)
    (ev_PRURL e) (ev_TicketURL e) (ev_Result e) (ev_Rung e).
Definition maxIngestBody : Z := 2 ^ 20.
Definition read_batch (body : option string) : list Event + string :=
  match body with None => inr "unexpected EOF" | Some b => decode_batch maxIngestBody b end.
Definition nsAllowed (allowNS : option (string → bool)) (ns : string) : bool :=
  match allowNS with Some f => f ns | None => false end.
Definition ingested (allowNS : option (string → bool)) (batch : list Event) : list Event :=
  ingest_event <$> filter (λ e, ev_Namespace e = "" ∨ nsAllowed allowNS (ev_Namespace e) = true) batch.

(** The sink: [Record], and the controller's log when there is one. *)
Context {S : Type} (Record_ : Event → st S unit) (recorder : S → option Recorder).
Fixpoint record_each (es : list Event) : st S unit :=
  match es with [] => return! tt | e :: es' => Record_ e ;;; record_each es' end.
Definition handleIngest (token : string) (sink : bool) (allowNS : option (string → bool)) (r : HttpRequest)
    : st S (response (list Event)) :=
  if str_eqb token "" || negb sink then return! RespText 503 "event ingest disabled on this pod"
  else if negb (bearer r token) then return! RespText 401 "unauthorized"
  else if str_eqb (rq_Method r) "GET" then
    let! s := st_get in
    match recorder s with
    | None => return! RespText 503 "no event log on this pod"
    | Some rc => return! RespJSON (Recent 0 rc)
    end
  else if negb (str_eqb (rq_Method r) "POST") then return! RespText 405 "method not allowed"
  else match read_batch (rq_Body r) with
       | inr e => return! RespText 400 ("bad batch: " +:+ e)
       | inl batch =>
         if (MaxBatch <? length batch)%nat then return! RespText 413 "batch too large"
         else record_each (ingested allowNS batch) ;;; return! RespStatus 204
       end.
End ingest.

(** ** The cluster as the pages show it *)

(** The reason a container waits for, since when it runs, and how it ended:
    the reason and its exit code. *)
Record CState := mkCState { st_Waiting : option string; st_StartedAt : option Time; st_Ended : option (string * Z) }.
Definition st_Running (s : CState) : bool := bool_decide (is_Some (st_StartedAt s)).
Definition st_Terminated (s : CState) : option string := fst <$> st_Ended s.
Record ContainerStatus := mkStatus {
  cs_Name : string; cs_Image : string; cs_Ready : bool; cs_RestartCount : Z; cs_State : CState
}.
Record Container := mkContainer {
  ct_Name : string; ct_Image : string; ct_Requests : gmap string Quantity; ct_Limits : gmap string Quantity
}.
Record Pod := mkPod {
  p_Name : string; p_Namespace : string; p_Phase : string; p_NodeName : string; p_PodIP : string;
  p_Creation : Time; p_Containers : list Container; p_Statuses : list ContainerStatus; p_InitStatuses : list ContainerStatus
}.
Record Deployment := mkDeployment {
  d_Name : string; d_Replicas : option Z; d_ReadyReplicas : Z; d_UpdatedReplicas : Z;
  d_AvailableReplicas : Z; d_Creation : Time; d_Containers : list Container (* of its template *)
}.
Record StatefulSet := mkStatefulSet { ss_Name : string; ss_Replicas : option Z; ss_Containers : list Container }.
Record ServicePort := mkPort { sp_Port : Z; sp_Protocol : string; sp_NodePort : Z }.
Record Service := mkService {
  s_Name : string; s_Type : string; s_ClusterIP : string; s_Ports : list ServicePort; s_Creation : Time
}.
Record KubeEvent := mkKubeEvent {
  ke_Namespace : string; ke_Kind : string; ke_Name : string; ke_Type : string; ke_Reason : string;
  ke_Message : string; ke_Count : Z; ke_Source : string; ke_Last : Time; ke_Creation : Time
}.
Record Node := mkNode {
  n_Name : string; n_Conditions : list (string * string * string); (* type, status, message *) n_Labels : gmap string string;
  n_Version : string; n_OS : string; n_Arch : string; n_CPU : string; n_Memory : Z;
  n_Unschedulable : bool; n_Creation : Time;
  n_Cores : float64; n_Bytes : float64; (* its capacity, as floats *)
  n_Addresses : list (string * string); n_Runtime : string; n_PodsCapacity : string
}.

Record podSummary := mkSummary {
  ps_Total : Z; ps_Running : Z; ps_Pending : Z; ps_Failed : Z; ps_Succeeded : Z; ps_CrashLoop : Z; ps_NotReady : Z
}.
Definition count {A} (f : A → bool) (l : list A) : Z := Z.of_nat (length (filter (λ a, f a = true) l)).
Definition crash_looping (cs : ContainerStatus) : bool := bool_decide (st_Waiting (cs_State cs) = Some "CrashLoopBackOff").
Definition runs_unready (cs : ContainerStatus) : bool := st_Running (cs_State cs) && negb (cs_Ready cs).
(** One pass over the pods, adding each to the counts. *)
Definition add_pod (s : podSummary) (p : Pod) : podSummary :=
  let one phase := if str_eqb (p_Phase p) phase then 1 else 0 in
  mkSummary (ps_Total s) (ps_Running s + one "Running") (ps_Pending s + one "Pending")
    (ps_Failed s + one "Failed") (ps_Succeeded s + one "Succeeded")
    (ps_CrashLoop s + count crash_looping (p_Statuses p)) (ps_NotReady s + count runs_unready (p_Statuses p)).
Definition summarizePods (pods : list Pod) : podSummary :=
  foldl add_pod (mkSummary (Z.of_nat (length pods)) 0 0 0 0 0 0) pods.

(** The first status of a container that says why it does not run. *)
Definition nonempty (o : option string) : option string :=
  match o with Some r => if str_eqb r "" then None else Some r | None => None end.
Fixpoint first_some {A B} (f : A → option B) (l : list A) : option B :=
  match l with [] => None | a :: l' => match f a with Some b => Some b | None => first_some f l' end end.
Definition container_status (cs : ContainerStatus) : option string :=
  match nonempty (st_Waiting (cs_State cs)) with
  | Some r => Some r
  | None => nonempty (st_Terminated (cs_State cs))
  end.
Definition init_status (cs : ContainerStatus) : option string :=
  match nonempty (st_Waiting (cs_State cs)) with
  | Some r => Some ("Init:" +:+ r)
  | None => if bool_decide (st_Terminated (cs_State cs) = Some "Error") then Some "Init:Error" else None
  end.
Definition podStatus (p : Pod) : string :=
  match first_some container_status (p_Statuses p) with
  | Some r => r
  | None => default (p_Phase p) (first_some init_status (p_InitStatuses p))
  end.
Definition nodeStatus (n : Node) : string :=
  match filter (λ c, c.1.1 = "Ready") (n_Conditions n) with
  | c :: _ => if str_eqb c.1.2 "True" then "Ready" else "NotReady"
  | [] => "Unknown"
  end.
Definition age (now t : Time) : string :=
  let d := time_Sub now t in
  if d <? minute then itoa (f64_int (dur_in second d)) +:+ "s"
  else if d <? hour then itoa (f64_int (dur_in minute d)) +:+ "m"
  else if d <? 24 * hour then itoa (f64_int (dur_in hour d)) +:+ "h"
  else itoa (f64_int (f64_div (dur_in hour d) (f64_of_Z 24))) +:+ "d".
Definition formatMemory (bytes : Z) : string :=
  let gi := f64_div (f64_of_Z bytes) (f64_of_Z (2 ^ 30)) in
  if f64_leb (f64_of_Z 1) gi then fmt_1f gi +:+ "Gi"
  else fmt_0f (f64_div (f64_of_Z bytes) (f64_of_Z (2 ^ 20))) +:+ "Mi".
Example ages_and_sizes :
  age (90 * second) 0 = "1m" ∧ age (50 * hour) 0 = "2d" ∧ age 0 (5 * second) = "-5s" ∧ age (59 * second + 999 * millisecond) 0 = "59s"
  ∧ formatMemory (16 * 2 ^ 30 - 2 ^ 29) = "15.5Gi" ∧ formatMemory (500 * 2 ^ 20) = "500Mi".
Proof. vm_compute. done. Qed.

(** ** The handlers of the cluster *)

(** What the API server answers: a list, or an error; where the handler
    takes an error for an empty list, [None]. *)
Class HttpAPI := {
  h_namespaces : list (string * string) + string; (* name and phase *)
  h_pods : string → option (list Pod);
  h_pods_error : string → option string; (* of the same list *)
  h_deployments : string → option (list Deployment);
  h_statefulsets : string → option (list StatefulSet);
  h_services : string → option (list Service);
  h_jobs : string → option Z;
  h_nodes : list Node + string;
  h_events : string → list KubeEvent + string (* of a namespace, or of all for the empty one *)
}.
Record cread := mkRead { cr_resource : string; cr_ns : string }.
Abbreviation reading := (st (list cread)).
Definition look {A} (resource ns : string) (a : A) : reading A :=
  st_modify (λ l, l ++ [mkRead resource ns]) ;;; return! a.

Record nsOverview := mkOverview {
  ov_Name : string; ov_Phase : string; ov_Pods : podSummary; ov_Deployments : Z; ov_Services : Z; ov_Jobs : Z
}.
Definition no_pods : podSummary := summarizePods [].
Definition size {A} (o : option (list A)) : Z := match o with Some l => Z.of_nat (length l) | None => 0 end.
Record containerDetail := mkContainerDetail {
  cd_Name : string; cd_Image : string; cd_State : string; cd_Ready : bool; cd_Restarts : Z
}.
Record podDetail := mkPodDetail {
  pd_Name : string; pd_Namespace : string; pd_Phase : string; pd_Node : string; pd_IP : string;
  pd_Ready : string; pd_Status : string; pd_Restarts : Z; pd_Age : string; pd_Containers : list containerDetail
}.
Record deployDetail := mkDeployDetail {
  dd_Name : string; dd_Ready : string; dd_UpToDate : Z; dd_Available : Z; dd_Age : string
}.
Record svcDetail := mkSvcDetail {
  sd_Name : string; sd_Type : string; sd_ClusterIP : string; sd_Ports : string; sd_Age : string
}.
Record nsDetail := mkNsDetail {
  nd_Pods : list podDetail; nd_Deployments : list deployDetail; nd_Services : list svcDetail
}.
Record nodeInfo := mkNodeInfo {
  ni_Name : string; ni_Status : string; ni_Roles : string; ni_Version : string; ni_OS : string; ni_Arch : string;
  ni_CPU : string; ni_Memory : string; ni_Pods : Z; ni_MemoryPressure : bool; ni_DiskPressure : bool;
  ni_Unschedulable : bool; ni_Age : string
}.
Record k8sEvent := mkK8sEvent {
  k_Timestamp : string; k_Namespace : string; k_Kind : string; k_Name : string; k_Type : string;
  k_Reason : string; k_Message : string; k_Count : Z; k_Source : string; k_Age : string
}.

Definition container_detail (cs : ContainerStatus) : containerDetail :=
  mkContainerDetail (cs_Name cs) (cs_Image cs)
    (if st_Running (cs_State cs) then "Running"
     else match st_Waiting (cs_State cs), st_Terminated (cs_State cs) with
          | Some r, _ => r
          | None, Some r => r
          | None, None => ""
          end) (cs_Ready cs) (cs_RestartCount cs).
Definition pod_detail (now : Time) (p : Pod) : podDetail :=
  mkPodDetail (p_Name p) (p_Namespace p) (p_Phase p) (p_NodeName p) (p_PodIP p)
    (itoa (count cs_Ready (p_Statuses p)) +:+ "/" +:+ itoa (Z.of_nat (length (p_Containers p)))) (podStatus p)
    (foldl (λ n cs, wrap32 (n + cs_RestartCount cs)) 0 (p_Statuses p)) (age now (p_Creation p))
    (container_detail <$> p_Statuses p).
Definition deploy_detail (now : Time) (d : Deployment) : deployDetail :=
  mkDeployDetail (d_Name d) (itoa (d_ReadyReplicas d) +:+ "/" +:+ itoa (default 1 (d_Replicas d)))
    (d_UpdatedReplicas d) (d_AvailableReplicas d) (age now (d_Creation d)).
Definition port_text (p : ServicePort) : string :=
  itoa (sp_Port p) +:+ "/" +:+ sp_Protocol p
  +:+ (if 0 <? sp_NodePort p then ":" +:+ itoa (sp_NodePort p) else "").
Definition svc_detail (now : Time) (s : Service) : svcDetail :=
  mkSvcDetail (s_Name s) (s_Type s) (s_ClusterIP s) (strings_Join (port_text <$> s_Ports s) ", ") (age now (s_Creation s)).
Definition condition_true (n : Node) (t : string) : bool :=
  existsb (λ c, str_eqb c.1.1 t && str_eqb c.1.2 "True") (n_Conditions n).
(** One label of the node, as the loop over them meets it. *)
Definition role_step (roles k : string) : string :=
  if str_eqb k "node-role.kubernetes.io/control-plane" then "control-plane"
  else if str_eqb k "node-role.kubernetes.io/worker"
  then (if str_eqb roles "" then "" else roles +:+ ",") +:+ "worker"
  else roles.
Definition node_roles (labels : list string) : string :=
  let roles := foldl role_step "" labels in if str_eqb roles "" then "worker" else roles.
Definition event_detail (now : Time) (e : KubeEvent) : k8sEvent :=
  let ts := if time_IsZero (ke_Last e) then ke_Creation e else ke_Last e in
  mkK8sEvent (format_RFC3339 ts) (ke_Namespace e) (ke_Kind e) (ke_Name e) (ke_Type e) (ke_Reason e)
    (ke_Message e) (ke_Count e) (ke_Source e) (age now ts).

Section cluster.
Context `{!HttpAPI, !RangeOrder} (allowNS : option (string → bool)) (now : Time).
Abbreviation allowed := (nsAllowed allowNS).

Definition overview (ns phase : string) : reading nsOverview :=
  let! pods := look "pods" ns (h_pods ns) in
  let! deploys := look "deployments" ns (h_deployments ns) in
  let! svcs := look "services" ns (h_services ns) in
  let! jobs := look "jobs" ns (h_jobs ns) in
  return! mkOverview ns phase (default no_pods (summarizePods <$> pods)) (size deploys) (size svcs) (default 0 jobs).
Fixpoint overviews (l : list (string * string)) : reading (list nsOverview) :=
  match l with
  | [] => return! []
  | (ns, phase) :: l' =>
    if negb (allowed ns) then overviews l'
    else let! o := overview ns phase in let! os := overviews l' in return! (o :: os)
  end.
Definition handleCluster : reading (response (list nsOverview)) :=
  let! l := look "namespaces" "" h_namespaces in
  match l with
  | inr e => return! RespText 500 e
  | inl l => let! os := overviews l in return! RespJSON os
  end.

Definition handleNamespace (r : HttpRequest) : reading (response nsDetail) :=
  let ns := ns_text "/api/namespace/" r in
  if str_eqb ns "" then return! RespText 400 "namespace required"
  else if negb (allowed ns) then return! RespText 403 "namespace is outside the watch scope"
  else
    let! pods := look "pods" ns (h_pods ns) in
    let! deploys := look "deployments" ns (h_deployments ns) in
    let! svcs := look "services" ns (h_services ns) in
    return! RespJSON (mkNsDetail (pod_detail now <$> default [] pods) (deploy_detail now <$> default [] deploys)
                        (svc_detail now <$> default [] svcs)).

(** The pods of the watched namespaces, by node: those that have one. *)
Definition place (m : gmap string (list Pod)) (p : Pod) : gmap string (list Pod) :=
  if str_eqb (p_NodeName p) "" then m else <[p_NodeName p := default [] (m !! p_NodeName p) ++ [p]]> m.
Fixpoint place_all (l : list string) (m : gmap string (list Pod)) : reading (gmap string (list Pod)) :=
  match l with
  | [] => return! m
  | ns :: l' =>
    if negb (allowed ns) then place_all l' m
    else let! pods := look "pods" ns (h_pods ns) in place_all l' (foldl place m (default [] pods))
  end.
Definition watchedPodsByNode : reading (gmap string (list Pod)) :=
  let! l := look "namespaces" "" h_namespaces in
  match l with inr _ => return! ∅ | inl l => place_all (l.*1) ∅ end.
Definition node_info (byNode : gmap string (list Pod)) (n : Node) : nodeInfo :=
  mkNodeInfo (n_Name n) (nodeStatus n) (node_roles (range_map (n_Labels n)).*1) (n_Version n) (n_OS n) (n_Arch n)
    (n_CPU n) (formatMemory (n_Memory n)) (size (byNode !! n_Name n))
    (condition_true n "MemoryPressure") (condition_true n "DiskPressure") (n_Unschedulable n) (age now (n_Creation n)).
Definition handleNodes : reading (response (list nodeInfo)) :=
  let! l := look "nodes" "" h_nodes in
  match l with
  | inr e => return! RespText 500 e
  | inl nodes => let! byNode := watchedPodsByNode in return! RespJSON (node_info byNode <$> nodes)
  end.

(** The last 200 events of the list, the last first. *)
Definition handleK8sEvents (r : HttpRequest) : reading (response (list k8sEvent)) :=
  let ns := Query_Get r "namespace" in
  if negb (str_eqb ns "") && negb (allowed ns) then return! RespText 403 "namespace is outside the watch scope"
  else
    let! l := look "events" ns (h_events ns) in
    match l with
    | inr e => return! RespText 500 e
    | inl l =>
      let items := filter (λ e, allowed (ke_Namespace e) = true) l in
      return! RespJSON (event_detail now <$> reverse (lastn 200 items))
    end.
End cluster.

(** ** What the handlers read and answer *)
Section scope.
Context `{!HttpAPI, !RangeOrder} (allowNS : option (string → bool)) (now : Time).

(** A read of a watched namespace, or of all of the cluster: the lists of
    namespaces, of nodes, and of events. *)
Definition read_ok (c : cread) : Prop :=
  nsAllowed allowNS (cr_ns c) = true
  ∨ cr_ns c = "" ∧ cr_resource c ∈ ["namespaces"; "nodes"; "events"].
Definition more_reads (l l' : list cread) : Prop := ∃ rs, l' = l ++ rs ∧ Forall read_ok rs.
#[local] Instance more_reads_preorder : PreOrder more_reads.
Proof.
  split; [intros l; exists []; by rewrite app_nil_r|].
  intros l1 l2 l3 (a & -> & Ha) (b & -> & Hb). exists (a ++ b). rewrite app_assoc. split; [done|by apply Forall_app].
Qed.
Lemma look_ok {A} resource ns (a : A) : read_ok (mkRead resource ns) → keeps more_reads (look resource ns a).
Proof. intros Hr l. exists [mkRead resource ns]. split; [done|by apply Forall_singleton]. Qed.
Ltac reads :=
  repeat first [ apply (keeps_bind more_reads); [|intros ?] | apply (keeps_ret more_reads) | apply look_ok | case_match ].
Lemma overviews_ok l : keeps more_reads (overviews allowNS l).
Proof.
  induction l as [|[ns phase] l IH]; cbn [overviews]; [apply (keeps_ret more_reads)|].
  destruct (nsAllowed allowNS ns) eqn:Hn; cbn [negb]; [|exact IH].
  unfold overview. reads; try exact IH; by left.
Qed.
Lemma place_all_ok l m : keeps more_reads (place_all allowNS l m).
Proof.
  revert m. induction l as [|ns l IH]; intros m; cbn [place_all]; [apply (keeps_ret more_reads)|].
  destruct (nsAllowed allowNS ns) eqn:Hn; cbn [negb]; [|apply IH].
  apply (keeps_bind more_reads); [|intros pods; apply IH]. apply look_ok. by left.
Qed.

(** C38: Whoever asks and for what, the pages read only watched namespaces and
    the lists of namespaces, nodes and events; and of the events only those
    of watched namespaces are shown, at most two hundred. *)
Theorem pages_read_in_scope r l :
  more_reads l (handleCluster allowNS l).2 ∧ more_reads l (handleNamespace allowNS now r l).2
  ∧ more_reads l (handleNodes allowNS now l).2 ∧ more_reads l (handleK8sEvents allowNS now r l).2
  ∧ ∀ es, (handleK8sEvents allowNS now r l).1 = RespJSON es →
          (length es ≤ 200)%nat ∧ Forall (λ e, nsAllowed allowNS (k_Namespace e) = true) es.
Proof.
  revert l. assert (∀ (P Q R T U : list cread → Prop), (∀ l, P l) → (∀ l, Q l) → (∀ l, R l) → (∀ l, T l) → (∀ l, U l) →
    ∀ l, P l ∧ Q l ∧ R l ∧ T l ∧ U l) as Hall by naive_solver.
  apply Hall; clear Hall.
  - change (keeps more_reads (handleCluster allowNS)). unfold handleCluster. reads; [by right; split; [|left]|].
    apply overviews_ok.
  - change (keeps more_reads (handleNamespace allowNS now r)). unfold handleNamespace. case_match; [apply (keeps_ret more_reads)|].
    destruct (nsAllowed allowNS _) eqn:Hn; cbn [negb]; [|apply (keeps_ret more_reads)]. reads; by left.
  - change (keeps more_reads (handleNodes allowNS now)). unfold handleNodes, watchedPodsByNode.
    reads; try apply place_all_ok; by right; split; [|set_solver].
  - change (keeps more_reads (handleK8sEvents allowNS now r)). unfold handleK8sEvents. case_match eqn:Hns; [apply (keeps_ret more_reads)|].
    reads. apply andb_false_iff in Hns as [Hn|Hn]; apply negb_false_iff in Hn; [right|by left].
    apply str_eqb_eq in Hn. split; [done|set_solver].
  - intros l es. unfold handleK8sEvents, look. case_match; [done|]. cbn. destruct (h_events _) as [evs|]; [|done].
    intros [= <-]. set (items := filter _ evs).
    rewrite length_fmap, length_reverse, lastn_length. split; [lia|].
    apply Forall_fmap, Forall_reverse, Forall_forall. intros e He.
    assert (e ∈ items) as Hin by (unfold lastn in He; rewrite <-(take_drop (length items - 200) items); set_solver).
    by apply list_elem_of_filter in Hin as [? _].
Qed.
End scope.

(** ** The log's page *)

Lemma recent_take {A} n (l : list A) : 0 < n → recent n l = take (Z.to_nat n) (reverse l).
Proof. intros Hn. rewrite recent_pos by done. unfold lastn, reverse. by rewrite <-!rev_alt, firstn_rev. Qed.
Lemma Recent_take n m r : 0 < n ≤ m → Recent n r = take (Z.to_nat n) (Recent m r).
Proof.
  intros Hn. unfold Recent. rewrite !recent_take by lia. rewrite take_take. f_equal. lia.
Qed.
Lemma events_limit_range r : 1 ≤ events_limit r ≤ 500.
Proof. unfold events_limit. destruct (strconv_Atoi _); [|lia]. destruct (Z.ltb_spec 0 z); lia. Qed.

(** A page of the log: at most as many events as asked for and five hundred;
    without a type the newest; with one those of the type among the newest
    twice as many, newest first. *)
Theorem handleEvents_page rc r :
  let n := events_limit r in let typ := Query_Get r "type" in
  (Z.of_nat (length (handleEvents rc r)) ≤ n ≤ 500)
  ∧ (typ = "" → handleEvents rc r = Recent n rc)
  ∧ (typ ≠ "" → Forall (λ e, ev_Type e = typ) (handleEvents rc r)
                ∧ handleEvents rc r `sublist_of` Recent (2 * n) rc
                ∧ (∀ e, e ∈ Recent (2 * n) rc → ev_Type e = typ →
                        e ∈ handleEvents rc r ∨ Z.of_nat (length (handleEvents rc r)) = n)).
Proof.
  cbv zeta. pose proof (events_limit_range r) as Hn. unfold handleEvents.
  set (n := events_limit r) in *. set (typ := Query_Get r "type").
  rewrite (Z.mul_comm n 2). split; [rewrite length_take; lia|]. split.
  - intros ->. rewrite str_eqb_refl. symmetry. apply Recent_take. lia.
  - intros Ht%str_eqb_ne. rewrite Ht. set (l := filter _ _). split_and!.
    + apply Forall_take, Forall_forall. by intros e [? _]%list_elem_of_filter.
    + trans l; [apply sublist_take|apply sublist_filter].
    + intros e He Hty. rewrite length_take. destruct (Nat.le_gt_cases (length l) (Z.to_nat n)).
      * left. rewrite take_ge by done. by apply list_elem_of_filter.
      * right. lia.
Qed.

(** ** What the ingest stores *)
Section stores.
Context (decode_batch : Z → string → list Event + string) (redact_String : string → string).
Context {S : Type} (Record_ : Event → st S unit) (recorder : S → option Recorder).

(** The log changes only by a POST with the agents' token and a batch of at
    most two hundred events: those without a namespace or in a watched one
    are recorded, in order, without the id they came with and with their
    message redacted; nothing else is. *)
Theorem ingest_stores_watched_redacted token sink allowNS r s :
  let s' := (handleIngest decode_batch redact_String Record_ recorder token sink allowNS r s).2 in
  (s' = s ∧ (handleIngest decode_batch redact_String Record_ recorder token sink allowNS r s).1 ≠ RespStatus 204)
  ∨ token ≠ "" ∧ Header_Get r "Authorization" = "Bearer " +:+ token ∧ rq_Method r = "POST"
    ∧ ∃ batch body, rq_Body r = Some body ∧ decode_batch maxIngestBody body = inl batch
        ∧ (length batch ≤ 200)%nat
        ∧ s' = (record_each Record_ (ingested redact_String allowNS batch) s).2
        ∧ Forall2 (λ e e', (ev_Namespace e = "" ∨ nsAllowed allowNS (ev_Namespace e) = true)
                           ∧ ev_ID e' = 0 ∧ ev_Message e' = redact_String (ev_Message e)
                           ∧ ev_Namespace e' = ev_Namespace e)
            (filter (λ e, ev_Namespace e = "" ∨ nsAllowed allowNS (ev_Namespace e) = true) batch)
            (ingested redact_String allowNS batch).
Proof.
  cbv zeta. unfold handleIngest. case_match eqn:Ht; [by left|]. apply orb_false_iff in Ht as [Ht%str_eqb_ne _].
  case_match eqn:Hb; [by left|]. apply negb_false_iff, bearer_spec in Hb.
  case_match; [left; unfold st_bind; cbn; by destruct (recorder s)|].
  case_match eqn:Hm; [by left|]. apply negb_false_iff, str_eqb_eq in Hm.
  destruct (rq_Body r) as [body|] eqn:Hbody; [|by left]. cbn [read_batch].
  destruct (decode_batch _ _) as [batch|] eqn:Hd; [|by left].
  destruct (Nat.ltb_spec MaxBatch (length batch)); [by left|]. right. split_and!; [done..|].
  exists batch, body. split_and!; [done..| |].
  - unfold st_bind. by destruct (record_each _ _ s).
  - unfold ingested. apply Forall2_fmap_r, Forall_Forall2_diag, Forall_forall.
    by intros e [Hw _]%list_elem_of_filter.
Qed.
End stores.

(** A node with both role labels shows one role or two, as the map's order
    has it. *)
Theorem node_roles_depend_on_order :
  let cp := "node-role.kubernetes.io/control-plane" in let w := "node-role.kubernetes.io/worker" in
  [cp; w] ≡ₚ [w; cp] ∧ node_roles [cp; w] = "control-plane,worker" ∧ node_roles [w; cp] = "control-plane".
Proof. cbv zeta. split; [apply Permutation_swap|]. vm_compute. done. Qed.

(** A page of one type misses what lies further back than twice its size. *)
Definition log_of (types : list string) : Recorder :=
  foldl (λ rc t, (Recorder_Record 1 (mkEvent 0 1 t "" "" "" "" "" "" "" "" "" "" "" "" "") rc).1) (NewRecorder 0) types.
Theorem typed_page_misses_events :
  let rc := log_of ["fix"; "info"; "info"] in
  let r := mkRequest "GET" "/api/events" ∅ {["limit" := "1"; "type" := "fix"]} (Some "") in
  handleEvents rc r = [] ∧ "fix" ∈ ev_Type <$> rc_events rc.
Proof. vm_compute. split; [done|left]. Qed.

Lemma summarizePods_counts pods :
  let s := summarizePods pods in
  let phase p := count (λ q, str_eqb (p_Phase q) p) pods in
  ps_Total s = Z.of_nat (length pods) ∧ ps_Running s = phase "Running" ∧ ps_Pending s = phase "Pending"
  ∧ ps_Failed s = phase "Failed" ∧ ps_Succeeded s = phase "Succeeded"
  ∧ ps_CrashLoop s = count crash_looping (mjoin (p_Statuses <$> pods))
  ∧ ps_NotReady s = count runs_unready (mjoin (p_Statuses <$> pods)).
Proof.
  cbv zeta. unfold summarizePods.
  assert (∀ {A} (f : A → bool) l x, count f (l ++ [x]) = count f l + if f x then 1 else 0) as Hc.
  { intros A f l x. unfold count. rewrite filter_app, length_app, filter_cons, filter_nil.
    case_decide as Hd; [rewrite Hd|destruct (f x); [done|]]; simpl; lia. }
  assert (∀ {A} (f : A → bool) l l', count f (l ++ l') = count f l + count f l') as Ha.
  { intros A f l l'. unfold count. rewrite filter_app, length_app. lia. }
  set (s0 := λ n : nat, mkSummary (Z.of_nat n) 0 0 0 0 0 0). change (mkSummary _ 0 0 0 0 0 0) with (s0 (length pods)).
  generalize (length pods) as n. intros n. induction pods as [|p pods IH] using rev_ind; [done|].
  rewrite foldl_app. cbn [foldl]. destruct IH as (H1 & H2 & H3 & H4 & H5 & H6 & H7).
  rewrite !Hc, fmap_app, join_app, !Ha. cbn [fmap list_fmap mjoin list_join add_pod ps_Total ps_Running ps_Pending ps_Failed ps_Succeeded ps_CrashLoop ps_NotReady].
  rewrite H1, H2, H3, H4, H5, H6, H7, !app_nil_r. done.
Qed.
