(* ===== verification/Replication.v ===== *)
(** * Replication: events between the pods, end to end

    The requests of internal/events ([Forwarder.post], [fetchLog]) through
    the servers that receive them: [toLeader] and the multiplexer of Routing,
    [handleIngest] of HttpReads and the [Tee] behind it, as run.go wires them.
    The network is the controllers by their base address; the JSON of events
    is a parameter. *)
From S2P Require Import Prelude GoStd Policy Events Routing SlackActions HttpReads.
#[local] Open Scope Z_scope.
#[local] Open Scope agent_scope.

(** ** The requests *)
Definition forward_headers (routed : bool) (token : string) : gmap string string :=
  let h : gmap string string := {["Content-Type" := "application/json"; "Authorization" := "Bearer " +:+ token]} in
  if routed then <[proxiedHeader := "1"]> h else h.
(** [post]: to the ingest path of a base address. *)
Definition post_request (routed : bool) (token body : string) : HttpRequest :=
  mkRequest "POST" IngestPath (forward_headers routed token) ∅ (Some body).
(** [fetchLog]: a peer's own log, not the leader's. *)
Definition fetch_request (token : string) : HttpRequest :=
  mkRequest "GET" IngestPath {["Authorization" := "Bearer " +:+ token; proxiedHeader := "1"]} ∅ (Some "").

(** ** The controllers *)
(** A controller: its server, the namespaces it allows, its log, whether it
    leads, and the forwarder of its copies. *)
Record Pod := mkPod {
  pd_server : Server; pd_allow : option (string → bool); pd_log : Recorder; pd_leading : bool; pd_copy : Forwarder
}.
Notation network := (gmap string Pod).

Section network.
Context (bad_url : string → bool) (encode : list Event → string) (decode_batch : Z → string → list Event + string)
  (redact_String : string → string) (now : Time).

(** [Tee.Record]. *)
Definition record_at (e : Event) (t : tee_target) (p : Pod) : Pod :=
  match t with
  | TeeLocal => mkPod (pd_server p) (pd_allow p) (Recorder_Record now e (pd_log p)).1 (pd_leading p) (pd_copy p)
  | TeeCopy => mkPod (pd_server p) (pd_allow p) (pd_log p) (pd_leading p) (Forwarder_Record now e (pd_copy p)).1
  end.
Definition sink_Record (e : Event) : st Pod unit :=
  st_modify (λ p, foldl (λ p t, record_at e t p) p (Tee_Record true (Some (pd_leading p)))).
Definition ingest (r : HttpRequest) : st Pod (response (list Event)) :=
  λ p, handleIngest decode_batch redact_String sink_Record (λ p, Some (pd_log p))
         (sv_internalToken (pd_server p)) true (pd_allow p) r p.
(** A request sent to a base address, and on to the leader when the server
    there says so; [None]: nobody answers, or another handler does. *)
Fixpoint deliver (fuel : nat) (base : string) (r : HttpRequest) (net : network)
  : option (response (list Event)) * network :=
  match fuel, net !! base with
  | S fuel, Some p =>
    match (serve bad_url (pd_server p) r).2 with
    | Handled route r' =>
        if str_eqb route IngestPath then let a := ingest r' p in (Some a.1, <[base := a.2]> net) else (None, net)
    | Forwarded leader r' =>
        match deliver fuel leader r' net with
        | (None, net') => (Some (RespText 502 "leader unreachable"), net')
        | a => a
        end
    | Refused status _ text => (Some (RespText status text), net)
    | Redirected _ | NotFound => (Some (RespStatus 404), net)
    end
  | _, _ => (None, net)
  end.
(** A standby sends a request on once ([Routing.forwarded_once]). *)
Definition hops : nat := 2.

Definition response_status (a : response (list Event)) : Z :=
  match a with RespJSON _ => 200 | RespText s _ => s | RespStatus s => s end.
Definition post (routed : bool) (token base : string) (batch : list Event) (net : network) : bool * network :=
  let a := deliver hops base (post_request routed token (encode batch)) net in
  (match a.1 with Some r => response_status r `quot` 100 =? 2 | None => false end, a.2).
(** The posts of [Flush]: the first failure ends them. *)
Fixpoint posts (routed : bool) (token : string) (bases : list string) (batch : list Event) (net : network)
  : bool * network :=
  match bases with
  | [] => (true, net)
  | b :: bases' =>
    let a := post routed token b batch net in
    if a.1 then posts routed token bases' batch a.2 else (false, a.2)
  end.
(** [Flush] with nothing recorded meanwhile; [bases] is [None] when the peers
    cannot be listed. *)
Definition flush (routed : bool) (token : string) (bases : option (list string)) (f : Forwarder) (net : network)
  : bool * Forwarder * network :=
  let '(batch, lastSeq) := flush_begin f in
  if bool_decide (batch = []) then (true, f, net)
  else match bases with
       | None => (false, f, net)
       | Some bases => let a := posts routed token bases batch net in
                       (a.1, if a.1 then flush_end lastSeq f else f, a.2)
       end.
Definition fetchLog (token : string) (net : network) (url : string) : option (list Event) :=
  match (deliver hops (strings_TrimSuffix url IngestPath) (fetch_request token) net).1 with
  | Some (RespJSON evts) => Some evts
  | _ => None
  end.

(** ** What becomes of a request *)
(** A controller after a batch. *)
Definition stored (batch : list Event) (p : Pod) : Pod :=
  (record_each sink_Record (ingested redact_String (pd_allow p) batch) p).2.
(** A controller that takes batches with this token. *)
Definition takes (token : string) (p : Pod) : Prop :=
  sv_healthOnly (pd_server p) = false ∧ sv_internalToken (pd_server p) = token ∧ token ≠ "".
Definition sendable (batch : list Event) : Prop :=
  (length batch ≤ MaxBatch)%nat ∧ decode_batch maxIngestBody (encode batch) = inl batch.

Lemma ingest_mux r : rq_EscapedPath r = IngestPath → rq_Method r ≠ "CONNECT" →
  mux server_routes r = Handled IngestPath r.
Proof.
  intros Hp Hm. unfold mux, findHandler. rewrite Hp. unfold URL_Path. rewrite Hp.
  rewrite (proj2 (str_eqb_ne _ _) Hm). cbn [negb andb].
  replace (cleanPath IngestPath) with IngestPath by (vm_compute; reflexivity).
  replace (path_unescape IngestPath) with IngestPath by (vm_compute; reflexivity).
  rewrite str_eqb_refl. cbn [negb andb].
  replace (tree_redirect (parse_pattern <$> server_routes) IngestPath IngestPath) with (@None string)
    by (vm_compute; reflexivity).
  by replace (route_of (mux_match (parse_pattern <$> server_routes) IngestPath)) with (RouteTo IngestPath)
    by (vm_compute; reflexivity).
Qed.
(** What the server of a controller does with a request to the ingest path. *)
Lemma serve_ingest s r : rq_EscapedPath r = IngestPath → rq_Method r ≠ "CONNECT" → sv_healthOnly s = false →
  (serve bad_url s r).2 =
  match sv_leader s with
  | None => Handled IngestPath r
  | Some l =>
    if negb (str_eqb (Header_Get r proxiedHeader) "") then Handled IngestPath r
    else match l with
         | NoLeader err => Refused 503 [("Retry-After", "2")] ("no leader yet: " +:+ err)
         | LeaderAt base =>
           if str_eqb base "" then Handled IngestPath r
           else if bad_url base then Refused 502 [] "bad leader address"
           else Forwarded base (Header_Set proxiedHeader "1" r)
         end
  end.
Proof.
  intros Hp Hm Hh. unfold serve, well_formed. rewrite Hp, Hh.
  replace (str_eqb IngestPath "" || strings_HasPrefix IngestPath "/") with true by (vm_compute; reflexivity).
  rewrite bool_decide_eq_true_2 by (vm_compute; discriminate). cbn [negb andb snd].
  assert (∀ q, rq_EscapedPath q = IngestPath → rq_Method q ≠ "CONNECT" →
            authorize s (mux server_routes) q = Handled IngestPath q) as Hau.
  { intros q Hq Hmq. unfold authorize, URL_Path. rewrite Hq.
    replace (is_api (path_Clean (path_unescape IngestPath))) with false by (vm_compute; reflexivity).
    cbn [negb orb]. by apply ingest_mux. }
  unfold toLeader, URL_Path. rewrite Hp.
  replace (is_api (path_Clean (path_unescape IngestPath)) || strings_HasPrefix (path_Clean (path_unescape IngestPath)) "/internal/")
    with true by (vm_compute; reflexivity). cbn [negb orb].
  by destruct (sv_leader s) as [[]|]; rewrite ?Hau by done.
Qed.
Lemma bearer_own token r : Header_Get r "Authorization" = "Bearer " +:+ token → bearer r token = true.
Proof.
  intros H. unfold bearer, strings_TrimPrefix. rewrite H.
  assert (strings_HasPrefix ("Bearer " +:+ token) "Bearer " = true) as -> by (apply strings_HasPrefix_spec; by exists token).
  rewrite str_drop_app. apply str_eqb_refl.
Qed.
Lemma Header_Set_other k v r k' : k ≠ k' → Header_Get (Header_Set k v r) k' = Header_Get r k'.
Proof. intros H. unfold Header_Get, Header_Set. cbn. by rewrite lookup_insert_ne. Qed.

(** A batch, and a request for the log, at the controller they end at. *)
Lemma ingest_post token batch r p : takes token p → sendable batch → rq_Method r = "POST" →
  Header_Get r "Authorization" = "Bearer " +:+ token → rq_Body r = Some (encode batch) →
  ingest r p = (RespStatus 204, stored batch p).
Proof.
  intros (_ & Ht & Hne) [Hl Hd] Hm Ha Hb. unfold ingest, handleIngest. rewrite Ht, (proj2 (str_eqb_ne _ _) Hne). cbn [orb negb].
  rewrite (bearer_own _ _ Ha). cbn [negb]. rewrite Hm, Hb.
  replace (str_eqb "POST" "GET") with false by done. replace (negb (str_eqb "POST" "POST")) with false by done. cbn [read_batch].
  rewrite Hd. destruct (Nat.ltb_spec MaxBatch (length batch)); [lia|]. unfold st_bind, stored.
  by destruct (record_each sink_Record _ p) as [[] p'].
Qed.
Lemma ingest_get token r p : takes token p → rq_Method r = "GET" → Header_Get r "Authorization" = "Bearer " +:+ token →
  ingest r p = (RespJSON (Recent 0 (pd_log p)), p).
Proof.
  intros (_ & Ht & Hne) Hm Ha. unfold ingest, handleIngest. rewrite Ht, (proj2 (str_eqb_ne _ _) Hne). cbn [orb negb].
  rewrite (bearer_own _ _ Ha). cbn [negb]. by rewrite Hm.
Qed.

(** What storing a batch does to a controller: its log, and the copies it
    makes when it leads; nothing else. *)
Lemma stored_spec batch p :
  let kept := ingested redact_String (pd_allow p) batch in
  stored batch p = mkPod (pd_server p) (pd_allow p) (foldl (λ r e, (Recorder_Record now e r).1) (pd_log p) kept) (pd_leading p)
    (if pd_leading p then foldl (λ f e, (Forwarder_Record now e f).1) (pd_copy p) kept else pd_copy p).
Proof.
  unfold stored. cbv zeta. generalize (ingested redact_String (pd_allow p) batch). intros es. revert p.
  induction es as [|e es IH]; intros [sv al lg ld cp]; [by destruct ld|]. cbn [record_each]. unfold st_bind at 1.
  unfold sink_Record at 1. cbn. rewrite IH. by destruct ld.
Qed.
Lemma deliver_here n base r net p : net !! base = Some p → (serve bad_url (pd_server p) r).2 = Handled IngestPath r →
  deliver (S n) base r net = (Some (ingest r p).1, <[base := (ingest r p).2]> net).
Proof. intros Hp Hs. cbn [deliver]. by rewrite Hp, Hs, str_eqb_refl. Qed.

(** Where a controller keeps what it is sent: with itself when it leads or
    knows of no leader function, else with the leader. *)
Definition home (net : network) (base : string) : option string :=
  match net !! base with
  | None => None
  | Some p =>
    match sv_leader (pd_server p) with
    | None => Some base
    | Some (NoLeader _) => None
    | Some (LeaderAt b) => if str_eqb b "" then Some base else if bad_url b then None else Some b
    end
  end.

(** C24: A batch an agent posts to any controller is stored once, by the leader
    that controller names, whatever the leader thinks; a copy the leader
    posts is stored where it lands.  No other controller changes. *)
Theorem batch_is_stored_once (routed : bool) token base h batch net p q :
  sendable batch → net !! base = Some p → takes token p →
  (if routed then h = base else home net base = Some h) → net !! h = Some q → takes token q →
  post routed token base batch net = (true, <[h := stored batch q]> net).
Proof.
  intros Hs Hp Htp Hh Hq Htq. unfold post.
  set (r := post_request routed token (encode batch)).
  assert (∀ r', rq_Method r' = "POST" → Header_Get r' "Authorization" = "Bearer " +:+ token → rq_Body r' = Some (encode batch) →
    (serve bad_url (pd_server q) r').2 = Handled IngestPath r' →
    ∀ n, deliver (S n) h r' net = (Some (RespStatus 204), <[h := stored batch q]> net)) as Hhere.
  { intros r' Hm Ha Hb Hsv n. rewrite (deliver_here n h r' net q Hq Hsv). by rewrite (ingest_post token batch) by done. }
  assert (Header_Get r "Authorization" = "Bearer " +:+ token) as Hauth by by destruct routed.
  assert (deliver hops base r net = (Some (RespStatus 204), <[h := stored batch q]> net)) as ->; [|done].
  pose proof (serve_ingest (pd_server p) r eq_refl ltac:(done) (proj1 Htp)) as Hsv. destruct routed.
  - subst h. rewrite Hp in Hq. injection Hq as ->. apply Hhere; try done. rewrite Hsv. by destruct (sv_leader (pd_server q)).
  - unfold home in Hh. rewrite Hp in Hh.
    replace (negb (str_eqb (Header_Get r proxiedHeader) "")) with false in Hsv by done.
    destruct (sv_leader (pd_server p)) as [[b|]|] eqn:El; [|done|].
    2:{ injection Hh as <-. rewrite Hp in Hq. injection Hq as ->. by apply Hhere. }
    destruct (str_eqb b "").
    { injection Hh as <-. rewrite Hp in Hq. injection Hq as ->. by apply Hhere. }
    destruct (bad_url b); [done|]. injection Hh as <-. unfold hops. cbn [deliver]. rewrite Hp, Hsv.
    set (r' := Header_Set proxiedHeader "1" r).
    pose proof (serve_ingest (pd_server q) r' eq_refl ltac:(done) (proj1 Htq)) as Hsq.
    assert (Header_Get r' "Authorization" = "Bearer " +:+ token) as Ha' by (unfold r'; by rewrite Header_Set_other).
    rewrite Hq. assert ((serve bad_url (pd_server q) r').2 = Handled IngestPath r') as Hr'.
    { rewrite Hsq. replace (negb (str_eqb (Header_Get r' proxiedHeader) "")) with true
        by (unfold r', Header_Get, Header_Set; cbn; by rewrite lookup_insert_eq).
      by destruct (sv_leader (pd_server q)). }
    rewrite Hr', str_eqb_refl. by rewrite (ingest_post token batch) by done.
Qed.

Lemma stored_takes token batch p : takes token p → takes token (stored batch p).
Proof. intros H. by rewrite stored_spec. Qed.
(** The leader's flush copies its events to every standby that takes them,
    and to no other; then they leave the buffer. *)
Lemma posts_stored token bases batch net : sendable batch → NoDup bases →
  Forall (λ b, ∃ p, net !! b = Some p ∧ takes token p) bases →
  ∃ net', posts true token bases batch net = (true, net')
    ∧ ∀ b, net' !! b = if decide (b ∈ bases) then stored batch <$> net !! b else net !! b.
Proof.
  intros Hs Hnd. revert net. induction Hnd as [|b bases Hb Hnd IH]; intros net Hall.
  { exists net. split; [done|]. intros b. by rewrite decide_False by apply not_elem_of_nil. }
  apply Forall_cons in Hall as [(p & Hp & Ht) Hall]. cbn [posts].
  rewrite (batch_is_stored_once true token b b batch net p p Hs Hp Ht eq_refl Hp Ht). cbn [fst snd].
  destruct (IH (<[b := stored batch p]> net)) as (net' & Hr & Hn).
  { rewrite Forall_forall in Hall |- *. intros x Hx. destruct (Hall x Hx) as (q & Hq & Hq'). exists q.
    rewrite lookup_insert_ne; [done|]. by intros ->. }
  exists net'. split; [done|]. intros x. rewrite Hn. destruct (decide (x = b)) as [->|Hne].
  - rewrite decide_False by done. rewrite decide_True by set_solver. by rewrite lookup_insert_eq, Hp.
  - rewrite lookup_insert_ne by done. destruct (decide (x ∈ bases)).
    + by rewrite decide_True by set_solver.
    + by rewrite decide_False by set_solver.
Qed.
Theorem copies_reach_every_standby token bases f net :
  let '(batch, lastSeq) := flush_begin f in
  sendable batch → NoDup bases → Forall (λ b, ∃ p, net !! b = Some p ∧ takes token p) bases →
  ∃ net', flush true token (Some bases) f net = (true, if bool_decide (batch = []) then f else flush_end lastSeq f, net')
    ∧ ∀ b, net' !! b = if decide (b ∈ bases ∧ batch ≠ []) then stored batch <$> net !! b else net !! b.
Proof.
  destruct (flush_begin f) as [batch lastSeq] eqn:Ef. intros Hs Hnd Hall. unfold flush. rewrite Ef.
  case_bool_decide as He.
  { exists net. split; [done|]. intros b. by rewrite decide_False by tauto. }
  destruct (posts_stored token bases batch net Hs Hnd Hall) as (net' & Hr & Hn). rewrite Hr. exists net'.
  split; [done|]. intros b. rewrite Hn. destruct (decide (b ∈ bases)).
  - by rewrite decide_True by done.
  - by rewrite decide_False by tauto.
Qed.

(** A peer answers with its own log, whoever leads. *)
Lemma fetch_own token net b p : net !! b = Some p → takes token p →
  fetchLog token net (b +:+ IngestPath) = Some (Recent 0 (pd_log p)).
Proof.
  intros Hp Ht. unfold fetchLog, hops. rewrite strings_TrimSuffix_app.
  rewrite (deliver_here 1 b (fetch_request token) net p Hp).
  - by rewrite (ingest_get token) by done.
  - rewrite serve_ingest by (try done; apply Ht). by destruct (sv_leader (pd_server p)).
Qed.
(** A controller that starts with an empty log gets that of the first peer
    that answers with events, in its order and as much of it as it holds. *)
Theorem new_controller_has_the_history clock token dead b bs net n p :
  Forall (λ d, fetchLog token net (d +:+ IngestPath) = None ∨ fetchLog token net (d +:+ IngestPath) = Some []) dead →
  net !! b = Some p → takes token p → rc_events (pd_log p) ≠ [] →
  Forall (λ e, ev_Timestamp e ≠ 0) (rc_events (pd_log p)) →
  let r := Backfill clock (Some (dead ++ b :: bs)) (fetchLog token net) (NewRecorder n) in
  r.1 = Some (Recorder_Count (pd_log p))
  ∧ ev_set_ID 0 <$> rc_events r.2 = lastn (Z.to_nat (rc_maxLen (NewRecorder n))) (ev_set_ID 0 <$> rc_events (pd_log p)).
Proof.
  intros Hd Hp Ht Hne Hts.
  destruct (Backfill_copies clock dead b bs (fetchLog token net) n (pd_log p) Hd (fetch_own token net b p Hp Ht) Hne Hts) as (H1 & H2 & _).
  done.
Qed.
End network.

(** ** Runs *)
Module ReplicationDemo.
Definition ev (reason : string) : Event := mkEvent 0 7 Incident SevWarning "shop" "web" "" "" reason "" "" "" "" "" "" "".
(** A codec that knows one batch, the one-event batches of these runs. *)
Definition encode (l : list Event) : string := match l with [e] => ev_Reason e | _ => "" end.
Definition decode (max : Z) (s : string) : list Event + string := if str_eqb s "" then inr "too large" else inl [ev s].
Definition pod (leading : bool) : Pod :=
  mkPod (mkServer "tok" "int" (Some (LeaderAt (if leading then "" else "http://a"))) false) (Some (λ _, true)) (NewRecorder 10) leading
    (NewForwarder "").
Definition reasons (net : network) (b : string) : list string := match net !! b with Some p => ev_Reason <$> rc_events (pd_log p) | None => [] end.
Definition send := post (λ _, false) encode decode (λ s, s) 5.
(** The flush of a controller's copies, to the others. *)
Definition copy_from (a : string) (bases : list string) (net : network) : network :=
  match net !! a with
  | None => net
  | Some p => let r := flush (λ _, false) encode decode (λ s, s) 5 true "int" (Some bases) (pd_copy p) net in
              match r.2 !! a with
              | Some p' => <[a := mkPod (pd_server p') (pd_allow p') (pd_log p') (pd_leading p') r.1.2]> r.2
              | None => r.2
              end
  end.
Definition net : network := {["http://a" := pod true; "http://b" := pod false]}.
Definition both_lead : network := {["http://a" := pod true; "http://b" := pod true]}.
End ReplicationDemo.
Import ReplicationDemo.

(** An event posted to the standby is in the leader's log, and after the
    next copy in the standby's. *)
Example event_runs :
  let net1 := (send false "int" "http://b" [ev "OOM"] net).2 in
  reasons net1 "http://a" = ["OOM"] ∧ reasons net1 "http://b" = []
  ∧ reasons (copy_from "http://a" ["http://b"] net1) "http://b" = ["OOM"]
  ∧ reasons (copy_from "http://b" ["http://a"] (copy_from "http://a" ["http://b"] net1)) "http://a" = ["OOM"].
Proof. vm_compute. done. Qed.
(** The header keeps a request from bouncing, not an event: two controllers
    that both lead, as one that has not noticed yet does, copy the copies
    back, without end. *)
Example two_leaders_bounce_copies :
  let round n := copy_from "http://b" ["http://a"] (copy_from "http://a" ["http://b"] n) in
  let net1 := (send false "int" "http://a" [ev "OOM"] both_lead).2 in
  reasons net1 "http://a" = ["OOM"] ∧ reasons (round net1) "http://a" = ["OOM"; "OOM"]
  ∧ reasons (round (round net1)) "http://a" = ["OOM"; "OOM"; "OOM"].
Proof. vm_compute. done. Qed.
(** A flush that fails at one standby is made again for all: the others
    store the batch each time. *)
Example failed_peer_doubles_copies :
  let net1 := (send false "int" "http://a" [ev "OOM"] net).2 in
  let try n := copy_from "http://a" ["http://b"; "http://gone"] n in
  reasons (try (try net1)) "http://b" = ["OOM"; "OOM"].
Proof. vm_compute. done. Qed.
(** A batch the controller refuses stays at the head of the buffer: it is
    sent again as it is, and the events behind it wait. *)
Lemma refused_batch_stays bad_url enc dec red now token base f net :
  (post bad_url enc dec red now false token base (flush_begin f).1 net).1 = false →
  (flush bad_url enc dec red now false token (Some [base]) f net).1.2 = f.
Proof.
  unfold flush. destruct (flush_begin f) as [batch lastSeq]. cbn [fst]. intros H. case_bool_decide; [done|].
  cbn [posts]. by rewrite H.
Qed.
Lemma batch_is_stored_once_witness :
  let q := pod true in
  send false "int" "http://b" [ev "OOM"] net = (true, <["http://a" := stored (λ s, s) 5 [ev "OOM"] q]> net)
  ∧ rc_events (pd_log (stored (λ s, s) 5 [ev "OOM"] q)) = [ev_set_ID 1 (ev "OOM")].
Proof.
  intros q. split; [|vm_compute; reflexivity].
  apply (batch_is_stored_once (λ _, false) encode decode (λ s, s) 5 false "int" "http://b" "http://a" [ev "OOM"] net (pod false) q).
  - split; [apply (bool_decide_unpack _); vm_compute; exact I|reflexivity].
  - reflexivity.
  - split; [reflexivity|]. split; [reflexivity|discriminate].
  - reflexivity.
  - reflexivity.
  - split; [reflexivity|]. split; [reflexivity|discriminate].
Defined.
