(* ===== verification/Detectors.v ===== *)
(** * Detectors: what the checks of the leader share

    A check reads the cluster, finds problems, and reports them
    ([Findings.report]); a finding may carry a proposed change.  Whatever it
    finds, a check changes nothing itself: [QuietQueue] says what the
    approval queue must keep for that, and the queue of Approvals keeps it. *)
From S2P Require Import Prelude GoStd Policy RateLimit Guards Events Escalation Gate Kube.
From S2P Require Import K8s Fixes Approvals Wire ApprovalsStore Findings Jobs PodStates.
#[local] Open Scope Z_scope.
#[local] Open Scope agent_scope.

Definition dur_Round_minute (d : Duration) : Duration :=
  let r := Z.abs d mod minute in
  let base := Z.abs d - r in
  Z.sgn d * (if 2 * r <? minute then base else base + minute).
(** [d.Round(time.Minute)] as it prints. *)
Definition minutes_text (d : Duration) : string := dur_String_seconds (dur_Round_minute d).

Section each.
Context {S : Type} (R : S → S → Prop) `{!PreOrder R}.
Fixpoint st_each {A} (f : A → st S unit) (l : list A) : st S unit :=
  match l with [] => return! tt | a :: l' => f a ;;; st_each f l' end.
Lemma keeps_each {A} (f : A → st S unit) l : (∀ a, keeps R (f a)) → keeps R (st_each f l).
Proof.
  intros Hf. induction l as [|a l IH]; cbn [st_each]; [apply (keeps_ret R)|].
  apply (keeps_bind R); [apply Hf|by intros _].
Qed.
End each.

(** ** The queue of a check, and what it leaves alone *)
Class QuietQueue {C S : Type} `{!ProposalQueue C S} (R : S → S → Prop) := {
  qq_preorder :: PreOrder R;
  qq_gate {A} (m : st (GState C) A) : keeps same_but_told m → keeps R (pq_gate m);
  qq_queue m t : keeps R (pq_queue m t);
  qq_buttons : keeps R pq_buttons
}.

Section checks.
Context {C S : Type} `{!ProposalQueue C S} (env : Env).
Definition read_cluster {A} (f : C → A) : st S A :=
  pq_gate (let! s := st_get in return! f (gs_cluster s)).
Definition check_clock : st S Time := pq_gate (C := C) (clock env).
Definition tell_one (f : finding C) : st S unit := let! _ := report env f in return! tt.
Definition tell_each (fs : list (finding C)) : st S unit := st_each tell_one fs.
(** Once in a window of its own, by [Dedup.CheckFor]. *)
Definition once_in (ttl : Duration) (key : string) (m : st S unit) : st S unit :=
  let! ok := pq_gate (C := C) (dedup_check_for env key ttl) in
  match ok with Some true => m | _ => return! tt end.
Definition watched_of `{!PodReads C} : st S (list string) :=
  read_cluster (λ c, watchedNamespaces (env_Policy env) (namespaces_of c)).
(** A pass over the watched namespaces that lists one kind of object in each;
    a list that fails is left out. *)
Definition for_listed `{!PodReads C} {A} (list_in : string → C → list A + string) (f : string → list A → st S unit)
    : st S unit :=
  let! nss := watched_of in
  st_each (λ ns, let! l := read_cluster (list_in ns) in
                 match l with inl l => f ns l | inr _ => return! tt end) nss.

(** A list that is needed: nothing more is done without it. *)
Definition needing {A} (f : C → A + string) (k : A → st S unit) : st S unit :=
  let! l := read_cluster f in match l with inl a => k a | inr _ => return! tt end.

Context (R : S → S → Prop) `{!QuietQueue R}.
Lemma read_quiet {A} (f : C → A) : keeps R (read_cluster f).
Proof. apply qq_gate. intros s. by repeat split. Qed.
Lemma check_clock_quiet : keeps R check_clock.
Proof. apply qq_gate. intros s. by repeat split. Qed.
Lemma report_quiet (f : finding C) : keeps R (report env f).
Proof.
  unfold report. apply (keeps_bind R); [apply qq_gate, dedup_check_told|].
  intros [[]|]; try apply (keeps_ret R). apply (keeps_bind R).
  { destruct (fn_Proposal f); [|apply (keeps_ret R)]. apply (keeps_bind R); [apply qq_queue|]. intros ?. apply (keeps_ret R). }
  intros q. apply (keeps_bind R); [apply qq_gate, postSlack_told|]. intros _.
  apply (keeps_bind R); [destruct q as [[[] ?]|]; [apply qq_buttons|apply (keeps_ret R)..]|]. intros _.
  apply (keeps_bind R); [apply qq_gate, tell_told|]. intros _. apply (keeps_ret R).
Qed.
Lemma tell_one_quiet f : keeps R (tell_one f).
Proof. apply (keeps_bind R); [apply report_quiet|]. intros _. apply (keeps_ret R). Qed.
Lemma tell_each_quiet fs : keeps R (tell_each fs).
Proof. apply (keeps_each R). apply tell_one_quiet. Qed.
Lemma once_in_quiet ttl key m : keeps R m → keeps R (once_in ttl key m).
Proof.
  intros Hm. apply (keeps_bind R); [apply qq_gate|intros [[]|]; try done; apply (keeps_ret R)].
  unfold dedup_check_for. solve_told.
Qed.
Lemma for_listed_quiet `{!PodReads C} {A} (list_in : string → C → list A + string) f :
  (∀ ns l, keeps R (f ns l)) → keeps R (for_listed list_in f).
Proof.
  intros Hf. apply (keeps_bind R); [apply read_quiet|]. intros nss. apply (keeps_each R). intros ns.
  apply (keeps_bind R); [apply read_quiet|]. intros [l|]; [apply Hf|apply (keeps_ret R)].
Qed.
Lemma needing_quiet {A} (f : C → A + string) (k : A → st S unit) : (∀ a, keeps R (k a)) → keeps R (needing f k).
Proof. intros Hk. apply (keeps_bind R); [apply read_quiet|]. intros [a|]; [apply Hk|apply (keeps_ret R)]. Qed.
End checks.
#[export] Hint Resolve read_quiet check_clock_quiet report_quiet tell_one_quiet tell_each_quiet : agent.
(** A pass is quiet when its steps are. *)
Ltac quiet_step :=
  lazymatch goal with
  | |- ∀ _, _ => intros ?
  | |- keeps ?R (for_listed _ _ _) => apply (for_listed_quiet _ R)
  | |- keeps ?R (needing _ _) => apply (needing_quiet R)
  | |- keeps ?R (once_in _ _ _ _) => apply (once_in_quiet _ R)
  | |- keeps ?R (st_each _ _) => apply (keeps_each R)
  | |- keeps ?R (tell_one _ _) => apply (tell_one_quiet _ R)
  | |- keeps ?R (tell_each _ _) => apply (tell_each_quiet _ R)
  | |- keeps ?R (check_clock _) => apply (check_clock_quiet _ R)
  | |- keeps ?R (read_cluster _) => apply (read_quiet R)
  | |- keeps ?R (watched_of _) => apply (read_quiet R)
  | |- keeps ?R (st_ret _) => apply (keeps_ret R)
  | |- keeps ?R (st_bind _ _) => apply (keeps_bind R)
  | |- keeps _ (match ?x with _ => _ end) => destruct x
  end.
Ltac quiet_pass := repeat quiet_step.

(** ** The stored queue as the checks' queue *)
Section stored.
Context {C Spec W : Type} `{!ClusterAPI C Spec, !ConfigMapAPI W, !ConfigMapView W,
  !ConfigMapLaws W, !QueueCodec, !RangeOrder}.
Context (env : Env) (others : nat → W → W) (fix_error_text : fix_error → string) (retries : nat)
  (fmt_RFC3339 : Time → string).
Context (Hothers : ∀ n w, later w (others n w)).
(** The queue, the random ids, the texts of its errors, and the client that
    posts the buttons. *)
Context (oa : option Approvals) (new_id : nat → option string) (err_text : approval_error → string)
  (post_buttons : st (GState C) unit) (Hpost : keeps same_but_told post_buttons).

#[export] Instance stored_queue : ProposalQueue C (QSys C W) := {|
  pq_gate A m := on_gate m;
  pq_queue m summary := λ s,
    (let! r := queueApproval env others fix_error_text retries fmt_RFC3339 oa m summary (new_id (qs_calls s)) err_text in
     return! (bool_decide (r.1.1 ≠ None) && r.1.2, r.2)) s;
  pq_buttons := on_gate post_buttons
|}.
Definition only_queued (s s' : QSys C W) : Prop := same_cluster (qs_gate s) (qs_gate s').
#[export] Instance only_queued_preorder : PreOrder only_queued.
Proof. unfold only_queued. split; [by intros s|]. intros s1 s2 s3 ??. by etrans. Qed.
Lemma on_gate_quiet {A} (m : st (GState C) A) : keeps same_but_told m → keeps only_queued (on_gate (W := W) m).
Proof. intros Hm s. unfold on_gate, only_queued. destruct (Hm (qs_gate s)) as [H1 _]. by destruct (m (qs_gate s)). Qed.
Lemma propose_local ttl m summary now id :
  local_step (run_step (W := W) (propose_step (C := C) ttl m summary now id)).
Proof. intros s. unfold run_step, get_items, set_items, st_bind. cbn. done. Qed.
Lemma queueApproval_quiet m summary id :
  keeps only_queued (queueApproval env others fix_error_text retries fmt_RFC3339 oa m summary id err_text).
Proof.
  unfold queueApproval. destruct oa as [a|]; [|apply (keeps_ret _)].
  case_match; [apply (keeps_ret _)|]. case_match; [apply (keeps_ret _)|].
  apply (keeps_bind _); [apply on_gate_quiet; intros s; by repeat split|]. intros now.
  apply (keeps_bind _); [|intros [[? ?]|?]; apply (keeps_ret _)]. unfold propose.
  case_match; [apply (keeps_ret _)|]. intros s. by apply updateQueue_moves, propose_local.
Qed.
#[export] Instance stored_quiet : QuietQueue (C := C) only_queued.
Proof.
  split; [apply _|intros A m; apply on_gate_quiet| |by apply on_gate_quiet].
  intros m t s. cbn [pq_queue stored_queue].
  exact (keeps_bind only_queued _ _ (queueApproval_quiet m t (new_id (qs_calls s))) (λ r, keeps_ret only_queued _) s).
Qed.
End stored.
