(* ===== verification/WorkloadChecks.v ===== *)
(** * Workload checks: internal/kube/workload_extended.go

    Stuck StatefulSets and DaemonSets, autoscalers at their maximum, missed
    CronJob runs, forgotten pauses and ReplicaSets that cannot create pods:
    what each check finds and the change it proposes. *)
From S2P Require Import Prelude GoStd Policy RateLimit Guards Events Escalation Gate Kube.
From S2P Require Import K8s Fixes Findings PodStates Detectors.
From Stdlib Require Import Ascii.
#[local] Open Scope Z_scope.
#[local] Open Scope agent_scope.

(** ** Objects *)

(** A pod selector: [None] when it does not parse or selects everything. *)
Abbreviation Selector := (option string).
Record StatefulSet := mkStatefulSet {
  ss_Namespace : string; ss_Name : string; ss_Replicas : option Z; ss_ReadyReplicas : Z;
  ss_Selector : Selector; ss_PodManagementPolicy : string
}.
Record DaemonSet := mkDaemonSet {
  ds_Namespace : string; ds_Name : string; ds_Selector : Selector; ds_Generation : Z; ds_ObservedGeneration : Z;
  ds_NumberReady : Z; ds_Desired : Z; ds_Current : Z; ds_Updated : Z
}.
(** A condition of an autoscaler, a ReplicaSet or a Deployment. *)
Record Condition := mkCondition {
  co_Type : string; co_Status : string; co_Reason : string; co_Message : string; co_Transition : Time
}.
Record HPA := mkHPA {
  hp_Namespace : string; hp_Name : string; hp_TargetKind : string; hp_TargetName : string;
  hp_Min : option Z; hp_Max : Z; hp_Current : Z; hp_Desired : Z; hp_Conditions : list Condition
}.
Record CronJob := mkCronJob {
  cj_Namespace : string; cj_Name : string; cj_Suspend : option bool; cj_Active : Z; cj_Concurrency : string
}.
Record PausedDeployment := mkPaused {
  pd_Namespace : string; pd_Name : string; pd_Paused : bool; pd_Conditions : list Condition
}.
Record ReplicaSetStatus := mkReplicaSetStatus {
  rs_Name : string; rs_Wanted : option Z; rs_Replicas : Z; rs_Conditions : list Condition
}.
Class WorkloadReads (C : Type) := {
  statefulsets_in : string → C → list StatefulSet + string;
  daemonsets_in : string → C → list DaemonSet + string;
  selected_pods : string → string → C → list Pod + string; (* namespace, selector *)
  hpas_in : string → C → list HPA + string;
  cronjobs_in : string → C → list CronJob + string;
  events_of : string → string → C → list KEvent; (* of an object; none when the read fails *)
  pausable_in : string → C → list PausedDeployment + string;
  replicasets_of : string → C → list ReplicaSetStatus + string
}.
Definition condition (cs : list Condition) (t : string) : option Condition :=
  head (filter (λ c, co_Type c = t) cs).

(** ** Pods that are not ready *)
Definition stuckFor : Duration := 5 * minute.
(** For how long, and whether the pod is ready. *)
Definition notReadyFor (now : Time) (p : Pod) : Duration * bool :=
  match filter (λ c, pc_Type c = "Ready") (p_Conditions p) with
  | c :: _ => if str_eqb (pc_Status c) "True" then (0, true) else (time_Sub now (pc_Transition c), false)
  | [] => (time_Sub now (p_Creation p), false)
  end.
Definition ordinal (name : string) : Z :=
  let digits := match strings_LastIndex name "-"%char with Some i => str_drop (S i) name | None => name end in
  default (2 ^ 30) (strconv_Atoi digits).
Definition lowest_step (now : Time) (best : option (Pod * Duration)) (p : Pod) : option (Pod * Duration) :=
  let '(d, ready) := notReadyFor now p in
  if ready : bool then best
  else match best with
       | None => Some (p, d)
       | Some (b, _) => if ordinal (p_Name p) <? ordinal (p_Name b) then Some (p, d) else best
       end.
Definition lowestNotReady (now : Time) (pods : list Pod) : option (Pod * Duration) :=
  foldl (lowest_step now) None pods.
Definition waiting_reason (cs : ContainerStatus) : option string :=
  match cs_Waiting cs with
  | Some w => if str_eqb (w_Reason w) "" then None else Some (cs_Name cs +:+ ": " +:+ w_Reason w)
  | None => None
  end.
Definition waitingState (p : Pod) : string :=
  default (p_Phase p) (head (omap waiting_reason (p_InitStatuses p ++ p_Statuses p))).
Definition eventTime (e : KEvent) : Time :=
  if negb (time_IsZero (ke_LastTimestamp e)) then ke_LastTimestamp e
  else if negb (time_IsZero (ke_EventTime e)) then ke_EventTime e else ke_Creation e.

Definition hpaLimitedFor : Duration := 15 * minute.
Definition missedLookback : Duration := hour.
Definition pausedFor : Duration := hour.
(** Half again the current maximum, in 32 bits, never above the ceiling. *)
Definition proposeMaxReplicas (max ceiling : Z) : Z :=
  let p := wrap32 (max + Z.quot (wrap32 (max + 1)) 2) in
  if (0 <? ceiling) && (ceiling <? p) then ceiling else p.
Definition pausedSince (d : PausedDeployment) : Time :=
  match filter (λ c, co_Type c = "Progressing" ∧ co_Reason c = "DeploymentPaused") (pd_Conditions d) with
  | c :: _ => co_Transition c
  | [] => 0
  end.

Section findings.
Context {C Spec : Type} `{!ClusterAPI C Spec} (now : Time).
Definition a_finding (reason ns wl pod node sev : string) (rung : Rung) (subject summary : string)
    (details : list string) (fix_ : string) : finding C :=
  mkFinding C reason ns wl pod node sev rung None None summary details fix_ subject "".
Definition with_proposal (m : option (mutation C)) (f : finding C) : finding C :=
  mkFinding C (fn_Reason f) (fn_Namespace f) (fn_Workload f) (fn_Pod f) (fn_Node f) (fn_Severity f) (fn_Rung f)
    (Some RungApprove) m (fn_Summary f) (fn_Details f) (fn_Fix f) (fn_Subject f) (fn_approval f).

Definition statefulSetFinding (sts : StatefulSet) (blocker : Pod) (since : Duration) : finding C :=
  a_finding "StatefulSetStuck" (ss_Namespace sts) ("statefulset/" +:+ ss_Name sts) (p_Name blocker) ""
    Events.SevWarning RungGuided ""
    (itoa (ss_ReadyReplicas sts) +:+ "/" +:+ itoa (default 1 (ss_Replicas sts)) +:+ " ready; pod `" +:+ p_Name blocker
     +:+ "` has not been ready for " +:+ minutes_text since)
    (("State: " +:+ waitingState blocker)
     :: if str_eqb (ss_PodManagementPolicy sts) "Parallel" then []
        else ["Ordered startup: every higher ordinal waits for this pod"])
    ("find why `" +:+ p_Name blocker +:+ "` is not ready: `kubectl describe pod " +:+ p_Name blocker +:+ " -n "
     +:+ ss_Namespace sts +:+ "`").

(** A pod of a DaemonSet that is stuck: how it is told, and its name. *)
Definition stuck_pod (p : Pod) : option (string * string) :=
  let '(since, ready) := notReadyFor now p in
  if negb ready && (stuckFor <=? since)
  then Some ("`" +:+ p_Name p +:+ "` on `" +:+ p_NodeName p +:+ "` (" +:+ waitingState p +:+ ")", p_Name p) else None.
Definition daemonSetFinding (ns : string) (ds : DaemonSet) (pods : list Pod) : option (finding C) :=
  let found := omap stuck_pod pods in
  let stuck := sort_strings found.*1 in let stuckNames := sort_strings found.*2 in
  let rolled := (ds_Generation ds =? ds_ObservedGeneration ds) && (ds_Desired ds <=? ds_Updated ds) in
  let unscheduled := wrap32 (ds_Desired ds - ds_Current ds) in
  if bool_decide (stuck = []) && (negb rolled || (unscheduled <=? 0)) then None
  else
    let f := a_finding "DaemonSetMissing" ns ("daemonset/" +:+ ds_Name ds) "" "" Events.SevWarning RungGuided ""
      (itoa (wrap32 (ds_Desired ds - ds_NumberReady ds)) +:+ " of " +:+ itoa (ds_Desired ds) +:+ " nodes lack a ready pod")
      ((if bool_decide (stuck = []) then []
        else ["Not ready for 5m0s or more: " +:+ strings_Join stuck ", "])
       ++ (if rolled && (0 <? unscheduled)
           then [itoa unscheduled +:+ " node(s) have no pod at all: check taints, tolerations and node selectors"] else []))
      ("describe the stuck pods (`kubectl describe pod <name> -n " +:+ ns +:+ "`); deleting one recreates it on its node") in
    Some (if bool_decide (stuck = []) then f
          else with_proposal (proposeDeleteStuck (ds_Namespace ds) (ds_Name ds) stuckNames) f).

Definition hpa_target (h : HPA) : string := str_map lower_ascii (hp_TargetKind h) +:+ "/" +:+ hp_TargetName h.
(** Held at the maximum, which is not also the minimum, for long enough. *)
Definition held_at_max (h : HPA) : option Condition :=
  match condition (hp_Conditions h) "ScalingLimited" with
  | Some c =>
    if negb (match hp_Min h with Some m => hp_Max h <=? m | None => false end)
       && str_eqb (co_Status c) "True" && str_eqb (co_Reason c) "TooManyReplicas"
       && (hpaLimitedFor <=? time_Sub now (co_Transition c))
    then Some c else None
  | None => None
  end.
Definition hpa_maxed (ceiling : Z) (h : HPA) : option (finding C) :=
  match held_at_max h with
  | None => None
  | Some c =>
    let max := hp_Max h in let proposed := proposeMaxReplicas max ceiling in
    let f fix_ := a_finding "HPAMaxedOut" (hp_Namespace h) (hpa_target h) "" "" Events.SevWarning RungGuided (hp_Name h)
      ("autoscaler `" +:+ hp_Name h +:+ "` held at maxReplicas " +:+ itoa max +:+ " for "
       +:+ minutes_text (time_Sub now (co_Transition c)) +:+ " while load asks for more")
      ["Current " +:+ itoa (hp_Current h) +:+ ", desired " +:+ itoa (hp_Desired h) +:+ ". " +:+ co_Message c] fix_ in
    Some (if proposed <=? max
          then f ("maxReplicas is already at the policy ceiling of " +:+ itoa ceiling
                  +:+ "; make each replica handle more load, or raise the ceiling deliberately")
          else with_proposal (proposeHPAMax (hp_Namespace h) (hp_Name h) max (hpa_target h) proposed)
                 (f ("raise maxReplicas from " +:+ itoa max +:+ " to " +:+ itoa proposed
                     +:+ " (half again, within the policy ceiling of " +:+ itoa ceiling
                     +:+ "), or make each replica handle more load")))
  end.
Definition hpa_blind (h : HPA) : option (finding C) :=
  match condition (hp_Conditions h) "ScalingActive" with
  | Some c =>
    if str_eqb (co_Status c) "False" && negb (str_eqb (co_Reason c) "ScalingDisabled")
    then Some (a_finding "HPAScalingFailed" (hp_Namespace h) (hpa_target h) "" "" Events.SevWarning RungGuided (hp_Name h)
      ("autoscaler `" +:+ hp_Name h +:+ "` cannot compute its metrics") [co_Reason c +:+ ": " +:+ co_Message c]
      "check that metrics-server (or the custom metrics adapter) is running and that the target pods set resource requests")
    else None
  | None => None
  end.

Definition missed_event (cj : CronJob) (e : KEvent) : bool :=
  str_eqb (ke_Kind e) "CronJob" && str_eqb (ke_Name e) (cj_Name cj)
  && (str_eqb (ke_Reason e) "MissSchedule" || str_eqb (ke_Reason e) "TooManyMissedTimes")
  && negb (missedLookback <? time_Sub now (eventTime e)).
Definition cronjob_missed (ns : string) (cj : CronJob) (evs : list KEvent) : option (finding C) :=
  match filter (λ e, missed_event cj e = true) evs with
  | [] => None
  | e :: _ =>
    Some (with_proposal (proposeRunNow (cj_Namespace cj) (cj_Name cj) now)
      (a_finding "CronJobMissed" ns ("cronjob/" +:+ cj_Name cj) "" "" Events.SevWarning RungGuided ""
         ("missed a scheduled start: " +:+ ke_Message e)
         ["Active jobs: " +:+ itoa (cj_Active cj) +:+ ", concurrency policy " +:+ cj_Concurrency cj]
         ("if the previous run is still going, it blocks this one; set startingDeadlineSeconds so a late start still runs, "
          +:+ "or run it now: `kubectl create job --from=cronjob/" +:+ cj_Name cj +:+ " " +:+ cj_Name cj
          +:+ "-manual -n " +:+ ns +:+ "`")))
  end.

Definition paused_long (d : PausedDeployment) : bool :=
  pd_Paused d && negb (time_IsZero (pausedSince d)) && (pausedFor <=? time_Sub now (pausedSince d)).
Definition pausedFinding (ns : string) (d : PausedDeployment) : finding C :=
  with_proposal (proposeResume (pd_Namespace d) (pd_Name d))
    (a_finding "DeploymentPaused" ns ("deployment/" +:+ pd_Name d) "" "" Events.SevInfo RungGuided ""
       ("paused for " +:+ minutes_text (time_Sub now (pausedSince d)) +:+ ": no rollout happens, including fixes") []
       ("if the pause was not meant to last: `kubectl rollout resume deployment/" +:+ pd_Name d +:+ " -n " +:+ ns +:+ "`")).

Definition replicaSetFindings (ns : string) (rs : ReplicaSetStatus) : list (finding C) :=
  (λ c, a_finding "ReplicaSetFailure" ns ("replicaset/" +:+ rs_Name rs) "" "" Events.SevCritical RungGuided ""
     ("cannot create pods: " +:+ itoa (rs_Replicas rs) +:+ " of " +:+ itoa (default 1 (rs_Wanted rs)) +:+ " exist")
     [co_Reason c +:+ ": " +:+ co_Message c]
     "the message names the cause: usually a ResourceQuota, a LimitRange or an admission webhook refusing the pod")
  <$> filter (λ c, co_Type c = "ReplicaFailure" ∧ co_Status c = "True") (rs_Conditions rs).
End findings.

(** ** The passes *)
Section passes.
Context {C Spec S : Type} `{!ClusterAPI C Spec, !PodReads C, !WorkloadReads C, !ProposalQueue C S} (env : Env).
Definition ownedPods (ns : string) (sel : Selector) : st S (option (list Pod)) :=
  match sel with
  | None => return! None
  | Some sel => let! l := read_cluster (selected_pods ns sel) in
                return! (match l with inl l => Some l | inr _ => None end)
  end.
Definition check_statefulset (now : Time) (ns : string) (sts : StatefulSet) : st S unit :=
  if default 1 (ss_Replicas sts) <=? ss_ReadyReplicas sts then return! tt
  else
    let! pods := ownedPods ns (ss_Selector sts) in
    match pods with
    | None => return! tt
    | Some pods => match lowestNotReady now pods with
                   | Some (blocker, since) =>
                     if stuckFor <=? since then tell_one env (statefulSetFinding sts blocker since) else return! tt
                   | None => return! tt
                   end
    end.
Definition CheckStatefulSetStuck : st S unit :=
  let! now := check_clock env in
  for_listed env statefulsets_in (λ ns, st_each (check_statefulset now ns)).
Definition check_daemonset (now : Time) (ns : string) (ds : DaemonSet) : st S unit :=
  if ds_Desired ds <=? ds_NumberReady ds then return! tt
  else
    let! pods := ownedPods ns (ds_Selector ds) in
    match pods with
    | None => return! tt
    | Some pods => tell_each env (option_list (daemonSetFinding now ns ds pods))
    end.
Definition CheckDaemonSetMissing : st S unit :=
  let! now := check_clock env in
  for_listed env daemonsets_in (λ ns, st_each (check_daemonset now ns)).
Definition checkHPA (now : Time) (h : HPA) : st S unit :=
  tell_each env (option_list (hpa_maxed now (MaxReplicas (env_Policy env)) h) ++ option_list (hpa_blind h)).
Definition CheckHPAIssues : st S unit :=
  let! now := check_clock env in
  for_listed env hpas_in (λ _, st_each (checkHPA now)).
Definition check_cronjob (now : Time) (ns : string) (cj : CronJob) : st S unit :=
  if bool_decide (cj_Suspend cj = Some true) then return! tt
  else let! evs := read_cluster (events_of ns (cj_Name cj)) in
       tell_each env (option_list (cronjob_missed now ns cj evs)).
Definition CheckCronJobMissed : st S unit :=
  let! now := check_clock env in
  for_listed env cronjobs_in (λ ns, st_each (check_cronjob now ns)).
Definition check_paused (now : Time) (ns : string) (d : PausedDeployment) : st S unit :=
  if paused_long now d
  then once_in env (24 * hour) (dedupKey ns (pd_Name d) "DeploymentPausedDaily") (tell_one env (pausedFinding now ns d))
  else return! tt.
Definition CheckDeploymentPaused : st S unit :=
  let! now := check_clock env in
  for_listed env pausable_in (λ ns, st_each (check_paused now ns)).
Definition CheckReplicaSetFailure : st S unit :=
  for_listed env replicasets_of (λ ns, st_each (λ rs, tell_each env (replicaSetFindings ns rs))).
End passes.

(** ** What the passes change *)
Section quiet.
Context {C Spec S : Type} `{!ClusterAPI C Spec, !PodReads C, !WorkloadReads C, !ProposalQueue C S} (env : Env).
Context (R : S → S → Prop) `{!QuietQueue (C := C) R}.
Lemma ownedPods_quiet ns sel : keeps R (ownedPods (C := C) ns sel).
Proof. unfold ownedPods. destruct sel; quiet_pass. Qed.
(** Whatever they find, the passes over workloads leave alone what the queue
    of proposals leaves alone. *)
Lemma workload_passes_quiet :
  keeps R (CheckStatefulSetStuck (C := C) env) ∧ keeps R (CheckDaemonSetMissing (C := C) env)
  ∧ keeps R (CheckHPAIssues (C := C) env) ∧ keeps R (CheckCronJobMissed (C := C) env)
  ∧ keeps R (CheckDeploymentPaused (C := C) env) ∧ keeps R (CheckReplicaSetFailure (C := C) env).
Proof.
  split_and!.
  - unfold CheckStatefulSetStuck, check_statefulset. quiet_pass; apply ownedPods_quiet.
  - unfold CheckDaemonSetMissing, check_daemonset. quiet_pass; apply ownedPods_quiet.
  - unfold CheckHPAIssues, checkHPA. quiet_pass.
  - unfold CheckCronJobMissed, check_cronjob. quiet_pass.
  - unfold CheckDeploymentPaused, check_paused. quiet_pass.
  - unfold CheckReplicaSetFailure. quiet_pass.
Qed.
End quiet.

(** ** What is found *)

(** The blocker of a StatefulSet: none when every pod is ready; else the
    not-ready pod of the lowest ordinal, the first of several. *)
Theorem lowestNotReady_spec now pods :
  match lowestNotReady now pods with
  | None => ∀ p, p ∈ pods → (notReadyFor now p).2 = true
  | Some (b, d) => ∃ before after, pods = before ++ b :: after
      ∧ notReadyFor now b = (d, false)
      ∧ (∀ p, p ∈ before → (notReadyFor now p).2 = false → ordinal (p_Name b) < ordinal (p_Name p))
      ∧ (∀ p, p ∈ after → (notReadyFor now p).2 = false → ordinal (p_Name b) ≤ ordinal (p_Name p))
  end.
Proof.
  unfold lowestNotReady. induction pods as [|p pods IH] using rev_ind; [by intros p ?%elem_of_nil|].
  rewrite foldl_app. cbn [foldl]. set (best := foldl _ None pods) in *. clearbody best. unfold lowest_step.
  destruct (notReadyFor now p) as [d [|]] eqn:Hp.
  { destruct best as [[b d']|].
    - destruct IH as (l & r & -> & Hb & H1 & H2). exists l, (r ++ [p]). rewrite <-app_assoc. split_and!; try done.
      intros q [Hq| ->%list_elem_of_singleton]%elem_of_app Hr; [by apply H2|]. by rewrite Hp in Hr.
    - intros q [Hq| ->%list_elem_of_singleton]%elem_of_app; [by apply IH|]. by rewrite Hp. }
  destruct best as [[b d']|].
  - destruct IH as (l & r & -> & Hb & H1 & H2). destruct (Z.ltb_spec (ordinal (p_Name p)) (ordinal (p_Name b))) as [Hlt|Hge].
    + exists (l ++ b :: r), []. split_and!; try done; [|by intros ? ?%elem_of_nil].
      intros q Hq Hr. rewrite elem_of_app, elem_of_cons in Hq.
      destruct Hq as [Hq|[->|Hq]]; [specialize (H1 q Hq Hr)| |specialize (H2 q Hq Hr)]; lia.
    + exists l, (r ++ [p]). rewrite <-app_assoc. split_and!; try done.
      intros q [Hq| ->%list_elem_of_singleton]%elem_of_app Hr; [by apply H2|done].
  - exists pods, []. split_and!; try done; [|by intros ? ?%elem_of_nil].
    intros q Hq Hr. rewrite (IH q Hq) in Hr. done.
Qed.

Lemma proposeMaxReplicas_exact max ceiling :
  0 ≤ max ≤ 1431655764 →
  proposeMaxReplicas max ceiling
  = if 0 <? ceiling then Z.min (max + (max + 1) / 2) ceiling else max + (max + 1) / 2.
Proof.
  intros Hm. unfold proposeMaxReplicas. rewrite (wrap32_id (max + 1)) by (unfold int32_ok; lia).
  rewrite Z.quot_div_nonneg by lia.
  assert (0 ≤ (max + 1) / 2 ≤ 715827882) by (split; [apply Z.div_pos; lia|apply Z.lt_succ_r, Z.div_lt_upper_bound; lia]).
  rewrite wrap32_id by (unfold int32_ok; lia).
  destruct (Z.ltb_spec 0 ceiling); cbn [andb]; [|done]. destruct (Z.ltb_spec ceiling (max + (max + 1) / 2)); lia.
Qed.

Section proposals.
Context {C Spec : Type} `{!ClusterAPI C Spec} (now : Time).
(** What the checks propose is confined: an autoscaler's maximum is raised,
    within the policy's ceiling when there is one; the pods to delete are
    pods of the DaemonSet that have not been ready for five minutes. *)
Theorem proposals_confined :
  (∀ ceiling h (f : finding C) m, hpa_maxed now ceiling h = Some f → fn_Proposal f = Some m →
     ∃ to, proposeHPAMax (hp_Namespace h) (hp_Name h) (hp_Max h) (hpa_target h) to = Some m
           ∧ hp_Max h < to ∧ (0 < ceiling → to ≤ ceiling))
  ∧ (∀ ns ds pods (f : finding C) m, daemonSetFinding now ns ds pods = Some f → fn_Proposal f = Some m →
     ∃ names, proposeDeleteStuck (ds_Namespace ds) (ds_Name ds) names = Some m ∧ names ≠ []
              ∧ ∀ n, n ∈ names → ∃ p d, p ∈ pods ∧ p_Name p = n ∧ notReadyFor now p = (d, false) ∧ stuckFor ≤ d).
Proof.
  split.
  - intros ceiling h f m. unfold hpa_maxed. destruct (held_at_max now h); [|done]. intros [= <-].
    case_match eqn:Hle; [done|]. intros Hm. exists (proposeMaxReplicas (hp_Max h) ceiling). split_and!; [done|lia|].
    unfold proposeMaxReplicas. case_match eqn:Hc; [lia|]. apply andb_false_iff in Hc. lia.
  - intros ns ds pods f m. unfold daemonSetFinding. set (found := omap _ pods). case_match; [done|]. intros [= <-].
    case_bool_decide as Hs; [done|]. intros Hm. exists (sort_strings found.*2). split_and!; [done| |].
    + intros Hn. apply Hs. destruct found as [|x l]; [done|]. exfalso.
      assert (x.2 ∈ sort_strings (x :: l).*2) as Hin by (apply elem_of_sort_strings; left). rewrite Hn in Hin. by apply elem_of_nil in Hin.
    + intros n ((text & n') & -> & Hin)%elem_of_sort_strings%list_elem_of_fmap.
      apply list_elem_of_omap in Hin as (p & Hp & Hst). unfold stuck_pod in Hst.
      destruct (notReadyFor now p) as [d []] eqn:Hnr; [done|]. cbn in Hst. destruct (Z.leb_spec stuckFor d); [|done].
      injection Hst as <- <-. by exists p, d.
Qed.
End proposals.
