(* ===== verification/NetChecks.v ===== *)
(** * Network checks: internal/kube/netchecks.go and the network half of
    storage_network.go

    Sandbox failures per node, the network pods of kube-system, Services
    that no NetworkPolicy lets traffic into, DNS, load balancers without an
    address, and Ingress backends and certificates that are missing.  The
    queries to Prometheus (conntrack, CoreDNS) are in MetricChecks. *)
From S2P Require Import Prelude GoStd Policy RateLimit Guards Events Escalation Gate Kube.
From S2P Require Import K8s Fixes Findings PodStates Workloads Detectors WorkloadChecks.
From Stdlib Require Import Ascii.
#[local] Open Scope Z_scope.
#[local] Open Scope agent_scope.

(** ** Objects *)
Inductive IntOrString := IntPort (n : Z) | StrPort (s : string).
Definition port_String (p : IntOrString) : string := match p with IntPort n => itoa n | StrPort s => s end.
Record ContainerPort := mkContainerPort { cp_Name : string; cp_Port : Z }.
(** A pod as the policies see it: labels, and the ports of its containers. *)
Record NetPod := mkNetPod { np_Labels : gmap string string; np_Ports : list ContainerPort }.
Record NetService := mkNetService {
  nv_Namespace : string; nv_Name : string; nv_Selector : gmap string string; nv_Type : string;
  nv_TargetPorts : list IntOrString; nv_LBIngress : nat; nv_Creation : Time
}.
Record PolicyPort := mkPolicyPort { pp_Port : option IntOrString; pp_EndPort : option Z }.
Abbreviation PolicyRule := (list PolicyPort) (only parsing).
Record NetworkPolicy {Sel : Type} := mkNetworkPolicy {
  nw_Name : string; nw_PodSelector : Sel; nw_Types : list string; nw_Ingress : list PolicyRule
}.
Arguments NetworkPolicy : clear implicits.
(** An Ingress: the Service of its default backend; per rule the host and,
    when there are any, paths with their Services; its TLS entries. *)
Record Ingress := mkIngress {
  ig_Namespace : string; ig_Name : string; ig_Default : option string;
  ig_Rules : list (string * option (list (string * option string)));
  ig_TLS : list (string * list string)
}.
Record NetEvent := mkNetEvent { ne_Event : KEvent; ne_Host : string }.
(** The label selectors of the API machinery: does one select the labels,
    when it parses. *)
Class NetReads (C Sel : Type) := {
  sel_Matches : Sel → gmap string string → option bool;
  policies_in : string → C → list (NetworkPolicy Sel) + string;
  net_services_in : string → C → list NetService + string;
  net_pods_in : string → C → list NetPod + string;
  ingresses_in : string → C → list Ingress + string;
  net_events_in : string → C → list NetEvent + string;
  pods_labelled : string → string → C → list Pod + string; (* namespace, label *)
  tls_secrets_in : string → C → list string + string
}.

(** ** NetworkPolicies *)

(** The number and the name of a target port on a pod. *)
Definition names_port (target : IntOrString) (cp : ContainerPort) : bool :=
  match target with
  | StrPort s => str_eqb (cp_Name cp) s
  | IntPort n => cp_Port cp =? n
  end.
Definition resolvePort (target : IntOrString) (p : NetPod) : Z * string :=
  match filter (λ cp, names_port target cp = true) (np_Ports p) with
  | cp :: _ => (cp_Port cp, cp_Name cp)
  | [] => match target with IntPort n => (n, "") | StrPort s => (0, s) end
  end.
Definition port_allows (num : Z) (name : string) (rp : PolicyPort) : bool :=
  match pp_Port rp with
  | None => true
  | Some (StrPort s) => str_eqb s name && negb (str_eqb name "")
  | Some (IntPort n) =>
    negb (num =? 0) && (n <=? num)
    && ((num =? n) || match pp_EndPort rp with Some e => num <=? e | None => false end)
  end.
Definition rule_allows (num : Z) (name : string) (rule : PolicyRule) : bool :=
  bool_decide (rule = []) || existsb (port_allows num name) rule.

Section policies.
Context {C Sel : Type} `{!NetReads C Sel}.
Definition restricts_ingress (pol : NetworkPolicy Sel) : bool :=
  bool_decide (nw_Types pol = []) || bool_decide ("Ingress" ∈ nw_Types pol).
Definition applies_to (p : NetPod) (pol : NetworkPolicy Sel) : bool :=
  bool_decide (sel_Matches (C := C) (nw_PodSelector pol) (np_Labels p) = Some true) && restricts_ingress pol.
Definition ingressPolicies (p : NetPod) (pols : list (NetworkPolicy Sel)) : list (NetworkPolicy Sel) :=
  filter (λ pol, applies_to p pol = true) pols.
Definition portAllowed (target : IntOrString) (p : NetPod) (pols : list (NetworkPolicy Sel)) : bool :=
  let '(num, name) := resolvePort target p in
  existsb (λ pol, existsb (rule_allows num name) (nw_Ingress pol)) pols.
Definition backing_pods (svc : NetService) (pods : list NetPod) : list NetPod :=
  filter (λ p, selects (nv_Selector svc) (np_Labels p) = true) pods.
(** The policies of the pods when none of the pods can be reached. *)
Fixpoint blocked_by (target : IntOrString) (backing : list NetPod) (pols : list (NetworkPolicy Sel))
    : option (list string) :=
  match backing with
  | [] => Some []
  | p :: backing' =>
    let applied := ingressPolicies p pols in
    if bool_decide (length applied = 0%nat) || portAllowed target p applied then None
    else app (nw_Name <$> applied) <$> blocked_by target backing' pols
  end.
Definition block_finding (svc : NetService) (target : IntOrString) (names : list string) : finding C :=
  a_finding "NetworkPolicyBlocksService" (nv_Namespace svc) ("service/" +:+ nv_Name svc) "" "" Events.SevCritical
    RungGuided (port_String target)
    ("no NetworkPolicy allows traffic in to port " +:+ port_String target +:+ ", so the Service drops every connection")
    ["Policies selecting its pods: " +:+ strings_Join (sort_strings (remove_dups names)) ", "]
    ("add an ingress rule for port " +:+ port_String target
     +:+ " to one of these policies, from the clients that need it").
Definition policyBlocks (svc : NetService) (pods : list NetPod) (pols : list (NetworkPolicy Sel)) : list (finding C) :=
  if bool_decide (nv_Selector svc = ∅) then []
  else match backing_pods svc pods with
       | [] => []
       | backing => omap (λ target, block_finding svc target <$> blocked_by target backing pols) (nv_TargetPorts svc)
       end.
End policies.

(** ** Ingress *)
Record ingressBackend := mkBackend { ib_service : string; ib_where : string }.
Definition ingressBackends (ing : Ingress) : list ingressBackend :=
  (match ig_Default ing with Some s => [mkBackend s "default backend"] | None => [] end)
  ++ mjoin ((λ rule, omap (λ path, match path.2 with
                                   | Some s => if str_eqb s "" then None
                                               else Some (mkBackend s ("host " +:+ strconv_Quote rule.1 +:+ " path "
                                                                      +:+ strconv_Quote path.1))
                                   | None => None
                                   end) (default [] rule.2)) <$> ig_Rules ing).

Definition lbPendingFor : Duration := 5 * minute.
Definition eventLookback : Duration := 10 * minute.
Definition systemNetworkPods : list string := [
  "k8s-app=kube-proxy"; "k8s-app=calico-node"; "k8s-app=cilium"; "app=flannel"; "k8s-app=aws-node";
  "name=weave-net"; "app=antrea"; "app=kindnet"].
(** Of a sorted list: one of each run. *)
Fixpoint dedupe_after (prev : string) (l : list string) : list string :=
  match l with
  | [] => []
  | s :: l' => if str_eqb s prev then dedupe_after s l' else s :: dedupe_after s l'
  end.
Definition dedupe (l : list string) : list string :=
  match l with [] => [] | s :: l' => s :: dedupe_after s l' end.
Definition trunc (s : string) (n : nat) : string :=
  if (n <? String.length s)%nat then str_take n s +:+ "..." else s.

Section findings.
Context {C Sel : Type} `{!NetReads C Sel}.
Definition backendProblem (ing : Ingress) (b : ingressBackend) (services : list string) (slices : list EndpointSlice)
    : option (finding C) :=
  let f reason summary fix_ :=
    Some (a_finding (C := C) reason (ig_Namespace ing) ("ingress/" +:+ ig_Name ing) "" "" Events.SevCritical RungGuided
            (ib_service b) summary ["Route: " +:+ ib_where b] fix_) in
  if negb (bool_decide (ib_service b ∈ services)) then
    f "IngressBackendMissing" ("routes to Service `" +:+ ib_service b +:+ "`, which does not exist")
      "create the Service or correct the backend name in the Ingress"
  else if readyEndpoints slices (ib_service b) =? 0 then
    f "IngressNoBackends"
      ("routes to Service `" +:+ ib_service b +:+ "`, which has no ready endpoint: requests get 502 or 503")
      "see the NoEndpoints finding for that Service: its selector or its pods' readiness"
  else None.
Definition tls_missing (ns : string) (ing : Ingress) (have : list string) : list (finding C) :=
  (λ t, a_finding "IngressTLSSecretMissing" ns ("ingress/" +:+ ig_Name ing) "" "" Events.SevCritical RungGuided t.1
     ("TLS secret `" +:+ t.1 +:+ "` for " +:+ strings_Join t.2 ", "
      +:+ " does not exist, so HTTPS fails or falls back to a default certificate") []
     ("create the secret, or check the cert-manager Certificate that should issue it (`kubectl describe certificate -n "
      +:+ ns +:+ "`)"))
  <$> filter (λ t, t.1 ≠ "" ∧ t.1 ∉ have) (ig_TLS ing).
Definition lb_pending (now : Time) (ns : string) (svc : NetService) : option (finding C) :=
  if negb (str_eqb (nv_Type svc) "LoadBalancer") || (0 <? nv_LBIngress svc)%nat
     || (time_Sub now (nv_Creation svc) <? lbPendingFor)
  then None
  else Some (a_finding "LoadBalancerPending" ns ("service/" +:+ nv_Name svc) "" "" Events.SevWarning RungAlert ""
    ("no external address after " +:+ minutes_text (time_Sub now (nv_Creation svc))) []
    ("the cause is usually outside the cluster: cloud load balancer quota, the IP pool, or a missing controller; `kubectl describe service "
     +:+ nv_Name svc +:+ " -n " +:+ ns +:+ "` shows its events")).
Definition dns_health (pods : list Pod) : option (finding C) :=
  let ready := length (filter (λ p, (notReadyFor 0 p).2 = true) pods) in
  let f reason sev summary :=
    Some (a_finding (C := C) reason "kube-system" "coredns" "" "" sev RungGuided "" summary []
      "describe the CoreDNS pods (`kubectl -n kube-system describe pods -l k8s-app=kube-dns`) and read their logs") in
  if bool_decide (length pods = 0%nat) || bool_decide (ready = length pods) then None
  else if bool_decide (ready = 0%nat) then
    f "DNSDown" Events.SevCritical
      ("no CoreDNS pod is ready (0/" +:+ itoa (Z.of_nat (length pods)) +:+ "): name resolution fails for every pod")
  else f "DNSDegraded" Events.SevWarning
    (itoa (Z.of_nat ready) +:+ "/" +:+ itoa (Z.of_nat (length pods)) +:+ " CoreDNS pods ready").
Definition network_pod_down (now : Time) (sel : string) (p : Pod) : option (finding C) :=
  let '(since, ready) := notReadyFor now p in
  if (ready : bool) || (since <? stuckFor) then None
  else Some (a_finding "NetworkPodDown" "kube-system" (ownerName p) (p_Name p) (p_NodeName p) Events.SevCritical RungGuided
    (p_NodeName p)
    ("`" +:+ p_Name p +:+ "` (" +:+ sel +:+ ") on node `" +:+ p_NodeName p
     +:+ "` is not ready: pod networking or Services fail there")
    ["State: " +:+ waitingState p]
    ("`kubectl -n kube-system describe pod " +:+ p_Name p +:+ "`; deleting it recreates it on that node")).

(** The failures by node: the pods, and the last message. *)
Definition sandbox_add (ns : string) (m : gmap string (list string * string)) (e : NetEvent)
    : gmap string (list string * string) :=
  let ev := ne_Event e in
  if str_eqb (ke_Reason ev) "FailedCreatePodSandBox" || str_eqb (ke_Reason ev) "NetworkNotReady" then
    let node := if str_eqb (ne_Host e) "" then "unknown" else ne_Host e in
    <[node := ((default ([], "") (m !! node)).1 ++ [ns +:+ "/" +:+ ke_Name ev], ke_Message ev)]> m
  else m.
Definition sandbox_finding (node : string) (pods : list string) (sample : string) : finding C :=
  a_finding "PodSandboxFailed" "" ("node/" +:+ node) "" node Events.SevCritical RungGuided ""
    (itoa (Z.of_nat (length pods)) +:+ " pod(s) cannot get a network on this node")
    ["Pods: " +:+ strings_Join (dedupe (sort_strings pods)) ", "; "Latest: " +:+ trunc sample 200]
    "the CNI on this node is failing: check its pod there (Calico, Cilium, Flannel, aws-node), the node's IP pool and the CNI config".
End findings.
(** Of events with more to them than [KEvent] holds. *)
Definition recent_events {A} (event : A → KEvent) (now : Time) (evs : list A) : list A :=
  filter (λ e, time_Sub now (eventTime (event e)) ≤ eventLookback) evs.

(** ** The passes *)
Section passes.
Context {C Sel S : Type} `{!NetReads C Sel, !PodReads C, !WorkloadAPI C, !RangeOrder, !ProposalQueue C S} (env : Env).
Definition CheckNetworkPolicyBlocks : st S unit :=
  for_listed env policies_in (λ ns pols,
    if bool_decide (length pols = 0%nat) then return! tt
    else needing (net_services_in ns) (λ svcs,
         needing (net_pods_in ns) (λ pods,
         st_each (λ svc, tell_each env (policyBlocks svc pods pols)) svcs))).
Definition checkIngressBackends : st S unit :=
  for_listed env ingresses_in (λ ns ings,
    if bool_decide (length ings = 0%nat) then return! tt
    else needing (net_services_in ns) (λ svcs,
         needing (slices_in ns) (λ slices,
         st_each (λ ing, tell_each env
           (omap (λ b, backendProblem ing b (nv_Name <$> svcs) slices) (ingressBackends ing))) ings))).
(** The secrets' names are read only with the opt-in grant, and only inside
    the fix ceiling. *)
Definition checkIngressTLS (TLSCertCheck : bool) : st S unit :=
  if negb TLSCertCheck then return! tt
  else
    let! nss := watched_of env in
    st_each (λ ns,
      if negb (InCeiling (env_Policy env) ns) then return! tt
      else needing (ingresses_in ns) (λ ings,
           if bool_decide (length ings = 0%nat) then return! tt
           else needing (tls_secrets_in ns) (λ have,
                st_each (λ ing, tell_each env (tls_missing ns ing have)) ings))) nss.
Definition checkLoadBalancerPending : st S unit :=
  let! now := check_clock env in
  for_listed env net_services_in (λ ns, st_each (λ svc, tell_each env (option_list (lb_pending now ns svc)))).
Definition checkDNSHealth : st S unit :=
  if negb (Watched (env_Policy env) "kube-system") then return! tt
  else needing (pods_labelled "kube-system" "k8s-app=kube-dns") (λ pods,
       if bool_decide (length pods = 0%nat)
       then needing (pods_labelled "kube-system" "app.kubernetes.io/name=coredns")
              (λ pods, tell_each env (option_list (dns_health pods)))
       else tell_each env (option_list (dns_health pods))).
Definition CheckNetworkIssues (TLSCertCheck : bool) : st S unit :=
  checkDNSHealth ;;; checkLoadBalancerPending ;;; checkIngressBackends ;;; checkIngressTLS TLSCertCheck.
(** A list that fails ends the pass. *)
Fixpoint network_pods (now : Time) (sels : list string) : st S unit :=
  match sels with
  | [] => return! tt
  | sel :: sels' =>
    needing (pods_labelled "kube-system" sel) (λ pods,
      tell_each env (omap (network_pod_down now sel) pods) ;;; network_pods now sels')
  end.
Definition CheckSystemNetworkPods : st S unit :=
  if negb (Watched (env_Policy env) "kube-system") then return! tt
  else let! now := check_clock env in network_pods now systemNetworkPods.
Fixpoint sandbox_all (nss : list string) (m : gmap string (list string * string)) : st S (gmap string (list string * string)) :=
  match nss with
  | [] => return! m
  | ns :: nss' =>
    let! l := read_cluster (net_events_in ns) in
    match l with
    | inr _ => sandbox_all nss' m
    | inl evs => let! now := check_clock env in
                 sandbox_all nss' (foldl (sandbox_add ns) m (recent_events ne_Event now evs))
    end
  end.
Definition CheckSandboxFailures : st S unit :=
  let! nss := watched_of env in
  let! m := sandbox_all nss ∅ in
  tell_each env ((λ nm, sandbox_finding nm.1 nm.2.1 nm.2.2) <$> range_map m).
End passes.

(** ** What is reported *)
Section exact.
Context {C Sel : Type} `{!NetReads C Sel}.
Implicit Types (pol : NetworkPolicy Sel).

(** What a rule lets in, for a port with that number and name: everything,
    or a port listed by name, by number, or within a range. *)
Definition lets_in (rule : PolicyRule) (num : Z) (name : string) : Prop :=
  rule = [] ∨ ∃ rp, rp ∈ rule ∧
    match pp_Port rp with
    | None => True
    | Some (StrPort s) => s = name ∧ name ≠ ""
    | Some (IntPort n) => num ≠ 0 ∧ (num = n ∨ ∃ e, pp_EndPort rp = Some e ∧ n ≤ num ≤ e)
    end.
Lemma rule_allows_spec num name rule : rule_allows num name rule = true ↔ lets_in rule num name.
Proof.
  unfold rule_allows, lets_in. rewrite orb_true_iff, bool_decide_eq_true, existsb_exists.
  split; (intros [?|(rp & Hin & H)]; [by left|right; exists rp; rewrite list_elem_of_In in *; split; [done|]]).
  - unfold port_allows in H. destruct (pp_Port rp) as [[n|s]|]; [|by apply andb_true_iff in H as [->%str_eqb_eq ?%negb_true_iff%str_eqb_ne]|done].
    rewrite !andb_true_iff, negb_true_iff, Z.eqb_neq, Z.leb_le, orb_true_iff, Z.eqb_eq in H.
    destruct H as [[? ?] [?|He]]; [by auto|]. destruct (pp_EndPort rp) as [e|]; [|done]. apply Z.leb_le in He. split; [done|].
    right. by exists e.
  - unfold port_allows. destruct (pp_Port rp) as [[n|s]|]; [|destruct H as [-> Hn]; by rewrite str_eqb_refl, (proj2 (str_eqb_ne _ _) Hn)|done].
    rewrite !andb_true_iff, negb_true_iff, Z.eqb_neq, Z.leb_le, orb_true_iff, Z.eqb_eq.
    destruct H as [? [->|(e & -> & ? & ?)]]; (split; [split; [done|lia]|]); [by left|right; by apply Z.leb_le].
Qed.

(** The policies that select the pod and restrict what comes in. *)
Definition restricts pol (p : NetPod) : Prop :=
  sel_Matches (C := C) (nw_PodSelector pol) (np_Labels p) = Some true ∧ (nw_Types pol = [] ∨ "Ingress" ∈ nw_Types pol).
Lemma elem_of_ingressPolicies p pols pol : pol ∈ ingressPolicies (C := C) p pols ↔ pol ∈ pols ∧ restricts pol p.
Proof.
  unfold ingressPolicies, applies_to, restricts_ingress, restricts.
  rewrite list_elem_of_filter, andb_true_iff, orb_true_iff, !bool_decide_eq_true. tauto.
Qed.
(** Nothing gets in to the target port of the pod. *)
Definition unreachable (target : IntOrString) (pols : list (NetworkPolicy Sel)) (p : NetPod) : Prop :=
  (∃ pol, pol ∈ pols ∧ restricts pol p)
  ∧ ∀ pol rule, pol ∈ pols → restricts pol p → rule ∈ nw_Ingress pol →
      ¬ lets_in rule (resolvePort target p).1 (resolvePort target p).2.
Lemma unreachable_spec target pols p :
  bool_decide (length (ingressPolicies (C := C) p pols) = 0%nat) || portAllowed target p (ingressPolicies (C := C) p pols) = false
  ↔ unreachable target pols p.
Proof.
  unfold unreachable, portAllowed. destruct (resolvePort target p) as [num name]. cbn [fst snd].
  rewrite orb_false_iff, bool_decide_eq_false, <-not_true_iff_false, existsb_exists. split.
  - intros [Hne Hno]. split.
    + destruct (ingressPolicies p pols) as [|pol l] eqn:E; [done|]. exists pol. apply elem_of_ingressPolicies. rewrite E. left.
    + intros pol rule Hin Hr Hru Hl. apply Hno. exists pol. split; [by apply list_elem_of_In, elem_of_ingressPolicies|].
      apply existsb_exists. exists rule. split; [by apply list_elem_of_In|by apply rule_allows_spec].
  - intros [(pol & Hin & Hr) Hno]. split.
    + intros Hl. apply length_zero_iff_nil in Hl. assert (pol ∈ ingressPolicies (C := C) p pols) as Hi by by apply elem_of_ingressPolicies.
      rewrite Hl in Hi. by apply elem_of_nil in Hi.
    + intros (q & [Hq Hqr]%list_elem_of_In%elem_of_ingressPolicies & (rule & Hru & Ha)%existsb_exists).
      apply (Hno q rule); [done..|by apply list_elem_of_In|by apply rule_allows_spec].
Qed.
Lemma blocked_by_spec target backing pols :
  is_Some (blocked_by (C := C) target backing pols) ↔ ∀ p, p ∈ backing → unreachable target pols p.
Proof.
  induction backing as [|p l IH]; cbn [blocked_by]; [split; [intros _ ? ?%elem_of_nil; done|by eexists]|].
  pose proof (unreachable_spec target pols p) as Hp. case_match.
  - split; [by intros []|]. intros Hall. assert (unreachable target pols p) as Hu by (apply Hall; left).
    apply Hp in Hu. congruence.
  - rewrite fmap_is_Some, IH. split; [|intros Hall q Hq; apply Hall; by right].
    intros Hall q [->|Hq]%elem_of_cons; [by apply Hp|by apply Hall].
Qed.

(** A port of a Service is reported exactly when the Service selects some
    pod and each of the pods it selects is under policies that restrict
    what comes in, with no rule of them that lets the port in. *)
Theorem policyBlocks_exact svc pods pols target :
  let selected p := p ∈ pods ∧ nv_Selector svc ⊆ np_Labels p in
  target ∈ nv_TargetPorts svc →
  (∃ names, block_finding (C := C) svc target names ∈ policyBlocks (C := C) svc pods pols
            ∧ Some names = blocked_by (C := C) target (backing_pods svc pods) pols)
  ↔ nv_Selector svc ≠ ∅ ∧ (∃ p, selected p) ∧ ∀ p, selected p → unreachable target pols p.
Proof.
  intros selected Ht.
  assert (∀ p, p ∈ backing_pods svc pods ↔ selected p) as Hb.
  { intros p. unfold backing_pods, selects. rewrite list_elem_of_filter, bool_decide_eq_true. unfold selected. tauto. }
  assert ((∀ p, p ∈ backing_pods svc pods → unreachable target pols p) ↔ ∀ p, selected p → unreachable target pols p) as Hall by (by setoid_rewrite Hb).
  rewrite <-Hall, <-blocked_by_spec. unfold policyBlocks. case_bool_decide as Hs.
  { split; [by intros (? & ?%elem_of_nil & _)|tauto]. }
  destruct (backing_pods svc pods) as [|p0 l] eqn:E.
  { split; [by intros (? & ?%elem_of_nil & _)|]. intros (_ & (p & Hp%Hb) & _). by apply elem_of_nil in Hp. }
  rewrite <-E. split.
  - intros (names & _ & Hn). split_and!; [done|exists p0; apply Hb; left|by exists names].
  - intros (_ & _ & names & Hn). exists names. split; [|done]. apply list_elem_of_omap. exists target. split; [done|]. by rewrite Hn.
Qed.
End exact.

Section quiet.
Context {C Sel S : Type} `{!NetReads C Sel, !PodReads C, !WorkloadAPI C, !RangeOrder, !ProposalQueue C S} (env : Env).
Context (R : S → S → Prop) `{!QuietQueue (C := C) R}.
Lemma network_passes_quiet tls :
  keeps R (CheckNetworkPolicyBlocks (Sel := Sel) env) ∧ keeps R (CheckNetworkIssues (Sel := Sel) env tls)
  ∧ keeps R (CheckSystemNetworkPods (Sel := Sel) env) ∧ keeps R (CheckSandboxFailures (Sel := Sel) env).
Proof.
  split_and!.
  - unfold CheckNetworkPolicyBlocks. quiet_pass.
  - unfold CheckNetworkIssues, checkDNSHealth, checkLoadBalancerPending, checkIngressBackends, checkIngressTLS. quiet_pass.
  - unfold CheckSystemNetworkPods. destruct (negb _); [apply (keeps_ret R)|]. apply (keeps_bind R); [apply (check_clock_quiet _ R)|]. intros now.
    induction systemNetworkPods as [|sel sels IH]; cbn [network_pods]; quiet_pass. exact IH.
  - unfold CheckSandboxFailures. apply (keeps_bind R); [apply (read_quiet R)|]. intros nss.
    apply (keeps_bind R); [|intros m; apply (tell_each_quiet _ R)]. generalize (∅ : gmap string (list string * string)).
    induction nss as [|ns nss IH]; intros m; cbn [sandbox_all]; quiet_pass; apply IH.
Qed.
End quiet.
