(* ===== verification/ClusterChecks.v ===== *)
(** * Cluster checks: storage, deletion, disruption and nodes

    The storage half of [storage_network.go]; [lifecycle.go] (finalizers that
    hold a deletion, disruption budgets that allow none); [pvc.go] (claims
    that stay pending); [nodecheck.go] and [node_extended.go]. *)
From S2P Require Import Prelude GoStd Policy RateLimit Guards Events Escalation Gate Kube.
From S2P Require Import K8s Fixes Findings PodStates Handlers Detectors WorkloadChecks.
From Stdlib Require Import Ascii.
#[local] Open Scope Z_scope.
#[local] Open Scope agent_scope.

(** ** Objects *)
Record PVC := mkPVC {
  pv_Namespace : string; pv_Name : string; pv_Phase : string; pv_Class : option string;
  pv_Size : option string; pv_AccessModes : string (* as [%v] prints them *);
  pv_Creation : Time; pv_Deletion : option Time; pv_Finalizers : list string
}.
Record Namespace := mkNamespace {
  na_Name : string; na_Deletion : option Time; na_SpecFinalizers : list string; na_Finalizers : list string;
  na_Conditions : list Condition
}.
Record PDB := mkPDB {
  pb_Namespace : string; pb_Name : string; pb_Creation : Time; pb_Expected : Z; pb_Allowed : Z;
  pb_CurrentHealthy : Z; pb_DesiredHealthy : Z; pb_Conditions : list Condition
}.
Record NodeCondition := mkNodeCondition {
  nc_Type : string; nc_Status : string; nc_Reason : string; nc_Message : string; nc_Transition : Time; nc_Heartbeat : Time
}.
(** Of each taint the key and when it was added. *)
Record Node := mkNode {
  n_Name : string; n_Unschedulable : bool; n_Annotations : gmap string string;
  n_Taints : list (string * option Time); n_Conditions : list NodeCondition; n_Kubelet : string; n_OS : string
}.
Class ClusterReads (C : Type) := {
  pvcs_in : string → C → list PVC + string;
  (* by name: is it annotated as the default one *)
  storageclasses : C → gmap string bool + string;
  claims_of : Pod → list string;
  all_namespaces : C → list Namespace + string;
  pdbs_in : string → C → list PDB + string;
  all_nodes : C → list Node + string;
  pods_on : string → string → C → list Pod + string; (* namespace, node *)
  events_about : string → string → C → list KEvent
}.

(** ** Storage classes: storage_network.go *)
Definition defaultClassAnnotation : string := "storageclass.kubernetes.io/is-default-class".
Section findings.
Context {C : Type} (now : Time).
Definition pvcLost (ns : string) (pvc : PVC) : finding C :=
  a_finding "PVCLost" ns ("pvc/" +:+ pv_Name pvc) "" "" Events.SevCritical RungGuided ""
    "the PersistentVolume behind this claim is gone; its data may be lost" []
    "restore the data from a backup into a new volume, then recreate the claim".
Definition classProblem (pvc : PVC) (classes : gmap string bool) : option (finding C) :=
  let f reason summary fix_ :=
    Some (a_finding (C := C) reason (pv_Namespace pvc) ("pvc/" +:+ pv_Name pvc) "" "" Events.SevCritical RungGuided ""
            summary [] fix_) in
  match pv_Class pvc with
  | Some name =>
    if str_eqb name "" || bool_decide (is_Some (classes !! name)) then None
    else f "StorageClassNotFound" ("names StorageClass `" +:+ name +:+ "`, which does not exist")
           "create that StorageClass, or recreate the claim with one from `kubectl get storageclass`"
  | None =>
    if bool_decide (true ∈ (map_to_list classes).*2) then None
    else f "NoDefaultStorageClass"
           "names no StorageClass and the cluster has no default one, so nothing will provision it"
           ("mark a class as default (`kubectl annotate storageclass <name> " +:+ defaultClassAnnotation
            +:+ "=true`) or set storageClassName on the claim")
  end.
(** The classes are [None] when they could not be read. *)
Definition storage_finding (classes : option (gmap string bool)) (ns : string) (pvc : PVC) : option (finding C) :=
  if str_eqb (pv_Phase pvc) "Lost" then Some (pvcLost ns pvc)
  else if str_eqb (pv_Phase pvc) "Pending" then classes ≫= classProblem pvc
  else None.

(** ** Finalizers and budgets: lifecycle.go *)
Definition finalizerStuckAfter : Duration := 15 * minute.
Definition pdbBlockedAfter : Duration := 30 * minute.
Definition finalizerOwners : list (string * string) := [
  ("kubernetes", "the namespace controller in kube-controller-manager, which waits until everything inside the namespace is gone");
  ("kubernetes.io/pvc-protection", "the pvc-protection controller in kube-controller-manager, which waits until no pod uses the claim");
  ("kubernetes.io/pv-protection", "the pv-protection controller in kube-controller-manager, which waits until the volume is unbound");
  ("foregroundDeletion", "the garbage collector, which waits for dependents to be deleted first");
  ("orphan", "the garbage collector, which orphans dependents first")].
Definition finalizerOwner (f : string) : string :=
  match filter (λ o, o.1 = f) finalizerOwners with
  | o :: _ => o.2
  | [] => if strings_HasPrefix f "external-attacher/" then "the CSI external-attacher for that driver"
          else "the controller that added it; if that controller was uninstalled, nothing will ever remove it"
  end.
Definition describeFinalizers (fs : list string) : list string :=
  (λ f, "- `" +:+ f +:+ "`: " +:+ finalizerOwner f) <$> fs.
Definition namespace_stuck (n : Namespace) : option (finding C) :=
  dt ← na_Deletion n;
  if time_Sub now dt <? finalizerStuckAfter then None
  else Some (a_finding "NamespaceStuckTerminating" (na_Name n) ("namespace/" +:+ na_Name n) "" "" Events.SevWarning
    RungGuided (na_Name n) ("namespace has been terminating for " +:+ minutes_text (time_Sub now dt))
    (((λ c, co_Type c +:+ ": " +:+ co_Message c) <$> filter (λ c, co_Status c = "True") (na_Conditions n))
     ++ describeFinalizers (na_SpecFinalizers n ++ na_Finalizers n))
    "the conditions above name what is left; delete or unblock those objects first, and if a discovery failure is listed, fix or remove the broken APIService. Removing a finalizer by hand skips that controller's cleanup").
Definition pvc_held (pvc : PVC) : option Duration :=
  dt ← pv_Deletion pvc;
  if bool_decide (pv_Finalizers pvc = []) || (time_Sub now dt <? finalizerStuckAfter) then None
  else Some (time_Sub now dt).
Definition pvc_stuck (users : list string) (pvc : PVC) (held : Duration) : finding C :=
  a_finding "PVCStuckTerminating" (pv_Namespace pvc) ("pvc/" +:+ pv_Name pvc) "" "" Events.SevWarning RungGuided
    (pv_Name pvc) ("claim has been terminating for " +:+ minutes_text held)
    (describeFinalizers (pv_Finalizers pvc)
     ++ if bool_decide (users = []) then [] else ["Still mounted by: `" +:+ strings_Join users "`, `" +:+ "`"])
    "stop or delete the pods that still use the claim; the protection finalizer is then removed on its own".
Definition pdb_blocks (pdb : PDB) : option (finding C) :=
  if (pb_Expected pdb =? 0) || (0 <? pb_Allowed pdb) then None
  else
    let since := match condition (pb_Conditions pdb) "DisruptionAllowed" with
                 | Some c => co_Transition c | None => pb_Creation pdb end in
    if time_Sub now since <? pdbBlockedAfter then None
    else Some (a_finding "PDBBlocksDisruption" (pb_Namespace pdb) ("pdb/" +:+ pb_Name pdb) "" "" Events.SevWarning
      RungGuided (pb_Name pdb) ("disruption budget has allowed no eviction for " +:+ minutes_text (time_Sub now since))
      ["Healthy " +:+ itoa (pb_CurrentHealthy pdb) +:+ " of " +:+ itoa (pb_Expected pdb) +:+ " expected, "
       +:+ itoa (pb_DesiredHealthy pdb) +:+ " required."]
      (if pb_CurrentHealthy pdb <? pb_DesiredHealthy pdb
       then "pods covered by the budget are unhealthy, so no disruption is allowed; fix those pods first"
       else "the budget allows no disruption even with every pod healthy, so drains and upgrades hang; use maxUnavailable: 1, or add a replica above minAvailable")).

(** ** Pending claims: pvc.go *)
Definition pvcPendingFor : Duration := 5 * minute.
Definition event_newer (a b : KEvent) : Prop := eventTime b ≤ eventTime a.
#[export] Instance event_newer_dec : RelDecision event_newer.
Proof. intros a b. unfold event_newer. apply _. Defined.
Definition newestEvent (evs : list KEvent) (name : string) : option KEvent :=
  head (merge_sort event_newer (filter (λ e, ke_Name e = name) evs)).
Definition pendingPVCFinding (pvc : PVC) (latest : option KEvent) : finding C :=
  a_finding "PVCPending" (pv_Namespace pvc) ("pvc/" +:+ pv_Name pvc) "" "" Events.SevWarning RungGuided ""
    ("Pending for " +:+ minutes_text (time_Sub now (pv_Creation pvc)))
    (("StorageClass `" +:+ default "<default>" (pv_Class pvc) +:+ "`, size " +:+ default "unknown" (pv_Size pvc)
      +:+ ", access modes " +:+ pv_AccessModes pvc)
     :: match latest with
        | Some e => ["Latest event: " +:+ ke_Type e +:+ " " +:+ ke_Reason e +:+ ": " +:+ ke_Message e]
        | None => []
        end)
    ("check that the StorageClass exists, its provisioner is running and has capacity: `kubectl describe pvc "
     +:+ pv_Name pvc +:+ " -n " +:+ pv_Namespace pvc +:+ "`").
Definition pends_long (pvc : PVC) : bool :=
  str_eqb (pv_Phase pvc) "Pending" && negb (time_Sub now (pv_Creation pvc) <? pvcPendingFor).
(** A claim that waits for its first consumer is pending by design. *)
Definition pvc_pending (pvc : PVC) (evs : list KEvent) : option (finding C) :=
    let latest := newestEvent evs (pv_Name pvc) in
    if bool_decide (ke_Reason <$> latest = Some "WaitForFirstConsumer") then None
    else Some (pendingPVCFinding pvc latest).

(** ** Nodes: nodecheck.go, node_extended.go *)
Definition nodeNotReadyFor : Duration := 2 * minute.
Definition cordonedFor : Duration := hour.
Definition skewAhead : Duration := 2 * minute.
Definition skewBehind : Duration := 15 * minute.
Definition nodeCondition (n : Node) (t : string) : option NodeCondition :=
  head (filter (λ c, nc_Type c = t) (n_Conditions n)).
Definition is_true (c : NodeCondition) : bool := str_eqb (nc_Status c) "True".
Definition runtimeDown (c : NodeCondition) : bool :=
  negb (is_true c) && strings_Contains (str_map lower_ascii (nc_Message c)) "container runtime".
Definition not_ready (n : Node) : option NodeCondition :=
  match nodeCondition n "Ready" with
  | Some c => if is_true c || runtimeDown c || (time_Sub now (nc_Transition c) <? nodeNotReadyFor) then None else Some c
  | None => None
  end.
Definition node_not_ready (n : Node) (c : NodeCondition) (pods : Z) : finding C :=
  a_finding "NodeNotReady" "" ("node/" +:+ n_Name n) "" (n_Name n) Events.SevCritical RungAlert ""
    ("NotReady for " +:+ minutes_text (time_Sub now (nc_Transition c)) +:+ " (" +:+ nc_Reason c +:+ ")")
    [nc_Message c; "Kubelet " +:+ n_Kubelet n +:+ ", " +:+ n_OS n +:+ "; watched pods on the node: " +:+ itoa pods]
    "the cause is on the node: check the kubelet and container runtime logs, disk, memory and network there".
Definition node_finding (n : Node) (reason sev : string) (rung : Rung) (summary : string) (details : list string)
    (fix_ : string) : finding C :=
  a_finding reason "" ("node/" +:+ n_Name n) "" (n_Name n) sev rung "" summary details fix_.
(** When the taint of the cordon was added, by the last one of its key. *)
Definition cordoned_since (n : Node) : option Time :=
  foldl (λ since t, if str_eqb t.1 "node.kubernetes.io/unschedulable" then t.2 else since) None (n_Taints n).
Definition forgottenCordon (n : Node) : option (finding C) :=
  if negb (n_Unschedulable n) || bool_decide (n_Annotations n !! "auto-agent.io/cordoned" = Some "true") then None
  else if negb (default false (is_true <$> nodeCondition n "Ready")) then None
  else match cordoned_since n with
       | Some since =>
         if time_Sub now since <? cordonedFor then None
         else Some (node_finding n "CordonedForgotten" Events.SevInfo RungGuided
           ("Ready but cordoned for " +:+ minutes_text (time_Sub now since) +:+ "; nothing new is scheduled here") []
           ("if the maintenance is done: `kubectl uncordon " +:+ n_Name n +:+ "`"))
       | None => None
       end.
Definition clockSkew (n : Node) : option (finding C) :=
  match nodeCondition n "Ready" with
  | Some c =>
    let gap := time_Sub now (nc_Heartbeat c) in
    if negb (is_true c) || time_IsZero (nc_Heartbeat c) || ((dur_neg skewAhead <? gap) && (gap <? skewBehind)) then None
    else Some (node_finding n "ClockSkew" Events.SevWarning RungAlert
      (if gap <? 0
       then "the node's heartbeat is " +:+ dur_String_seconds (dur_Round_second (dur_neg gap)) +:+ " in the future: its clock runs ahead"
       else "the node reports Ready with a heartbeat " +:+ dur_String_seconds (dur_Round_second gap) +:+ " old: its clock may run behind")
      [] "check NTP or chrony on the node; certificates and leases fail when clocks drift")
  | None => None
  end.
Definition nodeFindings (n : Node) : list (finding C) :=
  option_list (match nodeCondition n "PIDPressure" with
    | Some c => if is_true c then Some (node_finding n "PIDPressure" Events.SevCritical RungAlert
        "too many processes; the kubelet may evict pods" []
        "find the pod forking processes (a runaway sidecar or a fork bomb); set pod PID limits") else None
    | None => None end)
  ++ option_list (match nodeCondition n "NetworkUnavailable" with
    | Some c => if is_true c then Some (node_finding n "NetworkUnavailable" Events.SevCritical RungAlert
        "pod networking is not configured on this node" [nc_Message c]
        "check the CNI plugin's pod on this node (Calico, Cilium, Flannel) and the node's network setup") else None
    | None => None end)
  ++ option_list (match nodeCondition n "Ready" with
    | Some c => if runtimeDown c && (nodeNotReadyFor <=? time_Sub now (nc_Transition c))
                then Some (node_finding n "ContainerRuntimeDown" Events.SevCritical RungAlert
        "the container runtime is not ready" [nc_Reason c +:+ ": " +:+ nc_Message c]
        "restart and inspect containerd (or the configured runtime) and the kubelet on this node") else None
    | None => None end)
  ++ option_list (forgottenCordon n) ++ option_list (clockSkew n).
End findings.

(** ** The passes *)
Section passes.
Context {C S : Type} `{!ClusterReads C, !PodReads C, !ProposalQueue C S} (env : Env).
Definition CheckStorageIssues : st S unit :=
  let! l := read_cluster storageclasses in
  let classes := match l with inl m => Some m | inr _ => None end in
  for_listed env pvcs_in (λ ns pvcs, tell_each env (omap (storage_finding classes ns) pvcs)).
Definition podsUsingClaim (ns claim : string) : st S (list string) :=
  let! l := read_cluster (pods_in ns) in
  return! (match l with inl pods => p_Name <$> filter (λ p, claim ∈ claims_of p) pods | inr _ => [] end).
Definition checkPVCStuck (now : Time) (pvc : PVC) : st S unit :=
  match pvc_held now pvc with
  | None => return! tt
  | Some held => let! users := podsUsingClaim (pv_Namespace pvc) (pv_Name pvc) in tell_one env (pvc_stuck users pvc held)
  end.
Definition CheckStuckFinalizers : st S unit :=
  let! now := check_clock env in
  let! l := read_cluster all_namespaces in
  (match l with
   | inl nss => tell_each env (omap (namespace_stuck now) (filter (λ n, Watched (env_Policy env) (na_Name n) = true) nss))
   | inr _ => return! tt
   end) ;;;
  for_listed env pvcs_in (λ _, st_each (checkPVCStuck now)).
Definition CheckDisruptionBudgets : st S unit :=
  let! now := check_clock env in
  for_listed env pdbs_in (λ _ pdbs, tell_each env (omap (pdb_blocks now) pdbs)).
(** The ticket of a claim that was told is the server's: the effect is the
    ticket's key, title and text. *)
Definition check_pending (ticket : string → string → string → string → st S unit) (now : Time) (ns : string) (pvc : PVC)
    : st S unit :=
  if negb (pends_long now pvc) then return! tt
  else
  let! evs := read_cluster (events_about ns (pv_Name pvc)) in
  match pvc_pending now pvc evs with
  | None => return! tt
  | Some f =>
    let! told := report env f in
    if bool_decide (told = Some true)
    then ticket ns ("pvc-" +:+ ns +:+ "-" +:+ pv_Name pvc) ("PVC Pending: " +:+ ns +:+ "/" +:+ pv_Name pvc) (message f)
    else return! tt
  end.
Definition CheckPendingPVCs (ticket : string → string → string → string → st S unit) : st S unit :=
  let! now := check_clock env in
  for_listed env pvcs_in (λ ns, st_each (check_pending ticket now ns)).
Fixpoint podsOnNode (node : string) (nss : list string) : st S Z :=
  match nss with
  | [] => return! 0
  | ns :: nss' =>
    let! l := read_cluster (pods_on ns node) in
    let! n := podsOnNode node nss' in
    return! (n + match l with
                 | inl pods => Z.of_nat (length (filter (λ p, p_NodeName p = node) pods))
                 | inr _ => 0
                 end)
  end.
Definition check_node (now : Time) (n : Node) : st S unit :=
  match not_ready now n with
  | None => return! tt
  | Some c => let! nss := watched_of env in
              let! pods := podsOnNode (n_Name n) nss in
              tell_one env (node_not_ready now n c pods)
  end.
Definition CheckNodeHealth : st S unit :=
  let! l := read_cluster all_nodes in
  match l with
  | inr _ => return! tt
  | inl nodes => let! now := check_clock env in st_each (check_node now) nodes
  end.
Definition tell_node (f : finding C) : st S unit :=
  if str_eqb (fn_Reason f) "CordonedForgotten"
  then once_in env (24 * hour) (dedupKey "" (fn_Node f) "CordonedDaily") (tell_one env f)
  else tell_one env f.
Definition CheckNodeExtended : st S unit :=
  let! l := read_cluster all_nodes in
  match l with
  | inr _ => return! tt
  | inl nodes => let! now := check_clock env in st_each (λ n, st_each tell_node (nodeFindings now n)) nodes
  end.
End passes.

(** ** What the passes change *)
Section quiet.
Context {C S : Type} `{!ClusterReads C, !PodReads C, !ProposalQueue C S} (env : Env).
Context (R : S → S → Prop) `{!QuietQueue (C := C) R}.
Lemma podsOnNode_quiet node nss : keeps R (podsOnNode (C := C) node nss).
Proof. induction nss as [|ns nss IH]; cbn [podsOnNode]; quiet_pass. exact IH. Qed.
Lemma cluster_passes_quiet ticket :
  (∀ a b c d, keeps R (ticket a b c d)) →
  keeps R (CheckStorageIssues (C := C) env) ∧ keeps R (CheckStuckFinalizers (C := C) env)
  ∧ keeps R (CheckDisruptionBudgets (C := C) env) ∧ keeps R (CheckPendingPVCs (C := C) env ticket)
  ∧ keeps R (CheckNodeHealth (C := C) env) ∧ keeps R (CheckNodeExtended (C := C) env).
Proof.
  intros Ht. split_and!.
  - unfold CheckStorageIssues. quiet_pass.
  - unfold CheckStuckFinalizers, checkPVCStuck, podsUsingClaim. quiet_pass.
  - unfold CheckDisruptionBudgets. quiet_pass.
  - unfold CheckPendingPVCs, check_pending. quiet_pass; try apply (report_quiet _ R); apply Ht.
  - unfold CheckNodeHealth, check_node. quiet_pass. apply podsOnNode_quiet.
  - unfold CheckNodeExtended, tell_node. quiet_pass.
Qed.
End quiet.

(** ** Each trouble is told by one check *)
Section once.
Context {C : Type} (now : Time).
Lemma runtime_reason n :
  "ContainerRuntimeDown" ∈ fn_Reason <$> nodeFindings (C := C) now n
  ↔ ∃ c, nodeCondition n "Ready" = Some c ∧ runtimeDown c = true ∧ nodeNotReadyFor ≤ time_Sub now (nc_Transition c).
Proof.
  unfold nodeFindings. rewrite !fmap_app, !elem_of_app. split.
  - intros [H|[H|[H|[H|H]]]]; apply list_elem_of_fmap in H as (f & Hr & Hf); rewrite elem_of_option_list in Hf.
    1,2: repeat case_match; try done; by injection Hf as <-.
    2: unfold forgottenCordon in Hf; repeat case_match; try done; by injection Hf as <-.
    2: unfold clockSkew in Hf; repeat case_match; try done; by injection Hf as <-.
    destruct (nodeCondition n "Ready") as [c|]; [|done]. case_match eqn:E; [|done].
    apply andb_true_iff in E as [? ?%Z.leb_le]. by exists c.
  - intros (c & -> & Hr & Ht). do 2 right. left. apply Z.leb_le in Ht. rewrite Hr, Ht. left.
Qed.
(** A node that has not been ready for two minutes is told once: as the
    container runtime's trouble when its message names the runtime, and else
    as not ready. *)
Theorem node_down_told_once n c :
  nodeCondition n "Ready" = Some c → is_true c = false → nodeNotReadyFor ≤ time_Sub now (nc_Transition c) →
  if runtimeDown c
  then not_ready now n = None ∧ "ContainerRuntimeDown" ∈ fn_Reason <$> nodeFindings (C := C) now n
  else not_ready now n = Some c ∧ "ContainerRuntimeDown" ∉ fn_Reason <$> nodeFindings (C := C) now n.
Proof.
  intros Hc Hn Ht. unfold not_ready. rewrite Hc, Hn.
  destruct (runtimeDown c) eqn:Hr; cbn [orb]; split; try done.
  - apply runtime_reason. by exists c.
  - by rewrite (proj2 (Z.ltb_ge _ _) Ht).
  - intros (c' & Hc' & ? & _)%runtime_reason. congruence.
Qed.
End once.
