(* ===== verification/SecurityChecks.v ===== *)
(** * Security checks: internal/kube/security.go, quotas.go, anomalies.go

    Certificates that expire, pods a LimitRange, an admission webhook or RBAC
    refused, quotas nearly used up, and the anomaly rules of policies.  The
    regular expressions of security.go are written as readers. *)
From S2P Require Import Prelude GoStd Policy RateLimit Guards Events Escalation Gate Kube.
From S2P Require Import K8s Fixes Metrics Calendar Scheduling Findings PodStates Detectors WorkloadChecks NetChecks.
From Stdlib Require Import Ascii.
#[local] Open Scope Z_scope.
#[local] Open Scope agent_scope.

(** ** Objects *)

(** What is read of an X.509 certificate. *)
Record Certificate := mkCertificate { cert_NotAfter : Time; cert_CommonName : string }.
Record TLSSecret := mkTLSSecret { ts_Namespace : string; ts_Name : string; ts_crt : string }.
Record SecEvent := mkSecEvent { se_Event : KEvent; se_Namespace : string }.
Record ResourceQuota := mkQuota {
  rq_Namespace : string; rq_Name : string; rq_Hard : gmap string Quantity; rq_Used : gmap string Quantity
}.
Class SecurityReads (C : Type) := {
  secrets_of_tls : string → C → list TLSSecret + string;
  limitranges_in : string → C → list string + string; (* their names *)
  sec_events_in : string → C → list SecEvent + string;
  quotas_in : string → C → list ResourceQuota + string
}.

(** ** Refusals *)

(** The first place where a reader finds what it looks for. *)
Fixpoint first_match {A} (here : string → option A) (s : string) : option A :=
  match here s, s with
  | Some a, _ => Some a
  | None, String _ s' => first_match here s'
  | None, EmptyString => None
  end.
Definition is_space (c : ascii) : bool :=
  bool_decide (c ∈ [" "; "009"; "010"; "012"; "013"]%char).
(** The longest prefix of characters that pass, and the rest. *)
Fixpoint span (f : ascii → bool) (s : string) : string * string :=
  match s with
  | String c s' => if f c then (String c (span f s').1, (span f s').2) else ("", s)
  | EmptyString => ("", "")
  end.
Definition quoted (s : string) : option (string * string) :=
  '(name, rest) ← strings_CutS s dq;
  if str_eqb name "" then None else Some (name, rest).

(** [limitRangeRefusal], on the folded text: letter case is ignored. *)
Definition usage_per (s : string) : option unit :=
  rest ← (match cut_prefix s "minimum " with Some r => Some r | None => cut_prefix s "maximum " end);
  let '(word, rest) := span (λ c, negb (is_space c)) rest in
  if negb (str_eqb word "") && (strings_HasPrefix rest " usage per container" || strings_HasPrefix rest " usage per pod")
  then Some tt else None.
Definition limitRangeRefusal (message : string) : bool :=
  let s := fold_ascii message in
  bool_decide (is_Some (first_match usage_per s)) || strings_Contains s "limitrange".

(** [webhookRefusal]: the webhook's name, and whether it answered. *)
Inductive webhook_refusal := Denied (name : string) | Unreachable (name : string).
Definition webhook_here (s : string) : option webhook_refusal :=
  let denied := rest ← cut_prefix s ("admission webhook " +:+ dq);
                '(name, rest) ← quoted rest;
                if strings_HasPrefix rest " denied" then Some (Denied name) else None in
  match denied with
  | Some w => Some w
  | None => rest ← cut_prefix s ("failed calling webhook " +:+ dq);
            '(name, _) ← quoted rest; Some (Unreachable name)
  end.
Definition webhookRefusal (message : string) : option webhook_refusal := first_match webhook_here message.

(** [rbacRefusal]: the resource. *)
Definition is_lower (c : ascii) : bool :=
  let n := N_of_ascii c in ((97 <=? n) && (n <=? 122))%N.
Definition rbac_here (s : string) : option string :=
  rest ← cut_prefix s "cannot ";
  let '(verb, rest) := span is_lower rest in
  if str_eqb verb "" then None
  else rest ← cut_prefix rest (" resource " +:+ dq); '(name, _) ← quoted rest; Some name.
Definition rbacRefusal (message : string) : option string := first_match rbac_here message.

Definition certWarnDays : float64 := Eval vm_compute in f64_of_Z 30.
Definition quotaUsageThreshold : float64 := Eval vm_compute in f64_const 9 1.
Definition f64_100 : float64 := Eval vm_compute in f64_of_Z 100.
Definition f64_1 : float64 := Eval vm_compute in f64_of_Z 1.
Definition f64_24 : float64 := Eval vm_compute in f64_of_Z 24.
(** Negation flips the sign, of zero too. *)
Definition f64_neg (f : float64) : float64 := SpecFloat.SFopp f.

Section findings.
Context {C Spec : Type} `{!ClusterAPI C Spec} (now : Time).
(** [pem.Decode] and [x509.ParseCertificate]: the first certificate of a
    text, if it holds one. *)
Context (parse_certificate : string → option Certificate).

Definition days_left (cert : Certificate) : float64 :=
  f64_div (dur_in hour (time_Sub (cert_NotAfter cert) now)) f64_24.
Definition certFinding (s : TLSSecret) : option (finding C) :=
  match parse_certificate (ts_crt s) with
  | None => None
  | Some cert =>
    let days := days_left cert in
    let f reason sev summary :=
      a_finding reason (ts_Namespace s) ("secret/" +:+ ts_Name s) "" "" sev RungGuided "" summary
        ["Subject " +:+ cert_CommonName cert +:+ ", not after " +:+ format_date (cert_NotAfter cert)]
        ("renew it; with cert-manager: `cmctl renew -n " +:+ ts_Namespace s +:+ " <certificate>`") in
    if f64_ltb days f64_zero
    then Some (f "CertExpired" Events.SevCritical
                 ("the certificate expired " +:+ fmt_0f (f64_neg days) +:+ " days ago"))
    else if f64_ltb days certWarnDays
    then Some (f "CertExpiringSoon" Events.SevWarning
                 ("the certificate expires in " +:+ fmt_0f days +:+ " days"))
    else None
  end.

Definition eventFinding (e : SecEvent) (reason summary fix_ : string) : finding C :=
  let ev := se_Event e in
  a_finding reason (se_Namespace e) (str_map lower_ascii (ke_Kind ev) +:+ "/" +:+ ke_Name ev) "" ""
    Events.SevWarning RungGuided "" summary [ke_Message ev] fix_.
Definition limitrange_finding (ns : string) (e : SecEvent) : option (finding C) :=
  if str_eqb (ke_Reason (se_Event e)) "FailedCreate" && limitRangeRefusal (ke_Message (se_Event e))
  then Some (eventFinding e "LimitRangeViolation" "a LimitRange refused the pod"
               ("set requests and limits within the namespace's LimitRange (`kubectl describe limitrange -n " +:+ ns +:+ "`)"))
  else None.
Definition webhook_finding (e : SecEvent) : option (finding C) :=
  let reason := ke_Reason (se_Event e) in
  if negb (str_eqb reason "FailedCreate") && negb (str_eqb reason "FailedUpdate") then None
  else match webhookRefusal (ke_Message (se_Event e)) with
       | None => None
       | Some (Denied name) =>
         Some (eventFinding e "WebhookBlocking" ("admission webhook `" +:+ name +:+ "` denied the request")
                 "read the webhook's message; change the object or ask the webhook's owner")
       | Some (Unreachable name) =>
         Some (eventFinding e "WebhookBlocking" ("admission webhook `" +:+ name +:+ "` could not be reached")
                 "the webhook's Service has no ready pod or its certificate is wrong; with failurePolicy Fail every matching request is refused until it answers")
       end.
Definition rbac_finding (e : SecEvent) : option (finding C) :=
  match rbacRefusal (ke_Message (se_Event e)) with
  | None => None
  | Some resource =>
    Some (eventFinding e "RBACDenied" ("refused by RBAC on `" +:+ resource +:+ "`")
            "grant the ServiceAccount the verb on that resource with a Role and RoleBinding, or stop the call")
  end.

(** ** Quotas *)
Definition quota_finding (rq : ResourceQuota) (name : string) : option (finding C) :=
  hard ← rq_Hard rq !! name;
  used ← rq_Used rq !! name;
  if f64_leb (q_float hard) f64_zero then None
  else
    let ratio := f64_div (q_float used) (q_float hard) in
    if f64_ltb ratio quotaUsageThreshold then None
    else
      let full := f64_leb f64_1 ratio in
      Some (a_finding "QuotaExhaustion" (rq_Namespace rq) ("resourcequota/" +:+ rq_Name rq) "" ""
              (if full then Events.SevCritical else Events.SevWarning) RungGuided name
              ("`" +:+ name +:+ "` at " +:+ fmt_0f (f64_mul ratio f64_100) +:+ "%: " +:+ q_text used +:+ " of "
               +:+ q_text hard +:+ " used" +:+ (if full then ", exhausted" else "")) []
              "raise the quota if the usage is expected, or free the resource; new pods needing it are refused at 100%").
Definition quotaFindings (rq : ResourceQuota) : list (finding C) :=
  omap (quota_finding rq) (sort_strings (map_to_list (rq_Hard rq)).*1).

(** ** Anomaly rules *)
Definition rule_threshold (r : crd.AnomalyRule) : float64 :=
  if f64_leb (crd.an_ZScoreThreshold r) f64_zero then f64_1 else crd.an_ZScoreThreshold r.
Definition anomaly_finding (ns : string) (pol : crd.Policy) (r : crd.AnomalyRule) (val : float64)
    : option (finding C) :=
  let threshold := rule_threshold r in
  if f64_leb val threshold then None
  else Some (a_finding "Anomaly" ns ("policy/" +:+ crd.Name pol) "" "" Events.SevWarning RungGuided (crd.an_Name r)
         ("rule `" +:+ crd.an_Name r +:+ "` fired: " +:+ fmt_4f val +:+ " is above " +:+ fmt_4f threshold)
         ["PromQL: `" +:+ crd.an_PromQL r +:+ "`"]
         (if str_eqb (crd.RunbookURL pol) ""
          then "compare with the workload's recent deploys and baselines on the dashboard"
          else "follow the runbook: " +:+ crd.RunbookURL pol)).
End findings.

(** ** The passes *)
Section passes.
Context {C Spec Sel S : Type} `{!ClusterAPI C Spec, !PodReads C, !NetReads C Sel, !SecurityReads C, !PromServer C, !RangeOrder,
  !ProposalQueue C S} (env : Env).
Context (parse_certificate : string → option Certificate).
(** Secrets are read only with the opt-in grant, and only inside the fix
    ceiling; each is told once a day. *)
Definition check_secret (now : Time) (ns : string) (s : TLSSecret) : st S unit :=
  match certFinding (C := C) now parse_certificate s with
  | Some f => once_in env (24 * hour) (dedupKey ns (ts_Name s) (fn_Reason f +:+ "Daily")) (tell_one env f)
  | None => return! tt
  end.
Definition checkCertExpiry (TLSCertCheck : bool) : st S unit :=
  if negb TLSCertCheck then return! tt
  else
    let! now := check_clock env in
    let! nss := watched_of env in
    st_each (λ ns,
      if negb (InCeiling (env_Policy env) ns) then return! tt
      else needing (secrets_of_tls ns) (st_each (check_secret now ns))) nss.
(** [recentEvents]: none when the list fails. *)
Definition recent_in (ns : string) (f : SecEvent → option (finding C)) : st S unit :=
  needing (sec_events_in ns) (λ evs,
    let! now := check_clock env in
    tell_each env (omap f (recent_events se_Event now evs))).
Definition checkLimitRangeViolations : st S unit :=
  for_listed env limitranges_in (λ ns lrs,
    if bool_decide (length lrs = 0%nat) then return! tt else recent_in ns (limitrange_finding ns)).
Definition CheckSecurityIssues (TLSCertCheck : bool) : st S unit :=
  checkCertExpiry TLSCertCheck ;;; checkLimitRangeViolations.
Definition CheckWebhookBlocking : st S unit :=
  let! nss := watched_of env in st_each (λ ns, recent_in ns webhook_finding) nss.
Definition CheckRBACDenied : st S unit :=
  let! nss := watched_of env in st_each (λ ns, recent_in ns rbac_finding) nss.
Definition CheckResourceQuotas : st S unit :=
  for_listed env quotas_in (λ ns, st_each (λ rq,
    st_each (λ f, once_in env hour (dedupKey ns (fn_Workload f) ("quota-" +:+ fn_Subject f)) (tell_one env f))
      (quotaFindings rq))).
(** The store of the policies and the metrics provider are never nil on the
    leader. *)
Definition check_rule (p : Provider) (ns : string) (pol : crd.Policy) (r : crd.AnomalyRule) : st S unit :=
  if str_eqb (crd.an_PromQL r) "" then return! tt
  else let! v := read_cluster (QueryInstant p (crd.an_PromQL r)) in
       match v with
       | inl val => tell_each env (option_list (anomaly_finding ns pol r val))
       | inr _ => return! tt
       end.
Definition CheckAnomalies (p : Provider) : st S unit :=
  st_each (λ ns,
    if negb (Watched (env_Policy env) ns) then return! tt
    else st_each (λ pol, st_each (check_rule p ns pol) (crd.Anomalies pol)) (crd.List (env_CRD env) ns))
    (match env_CRD env with Some s => crd.AllNamespaces s | None => [] end).
End passes.

(** ** What the readers find *)

Lemma first_match_spec {A} (here : string → option A) s a :
  first_match here s = Some a ↔
  ∃ pre rest, s = pre +:+ rest ∧ here rest = Some a
              ∧ ∀ pre' rest', s = pre' +:+ rest' → (String.length pre' < String.length pre)%nat → here rest' = None.
Proof.
  revert a. induction s as [|c s IH]; intros a; cbn [first_match].
  - destruct (here "") as [x|] eqn:E; split.
    + intros [= ->]. exists "", "". split_and!; [done..|]. intros; simpl in *; lia.
    + intros ([|? ?] & [|? ?] & Hs & Hh & _); try done. congruence.
    + done.
    + intros ([|? ?] & [|? ?] & Hs & Hh & _); try done. congruence.
  - destruct (here (String c s)) as [x|] eqn:E; split.
    + intros [= ->]. exists "", (String c s). split_and!; [done..|]. intros; simpl in *; lia.
    + intros ([|d pre] & rest & Hs & Hh & Hmin).
      * rewrite str_app_nil_l in Hs. congruence.
      * specialize (Hmin "" (String c s) eq_refl). simpl in Hmin. rewrite Hmin in E by lia. done.
    + intros (pre & rest & -> & Hh & Hmin)%IH. exists (String c pre), rest. split_and!; [done..|].
      intros [|d pre'] rest' Hs Hl; [rewrite str_app_nil_l in Hs; by subst|].
      rewrite str_app_cons in Hs. injection Hs as <- Hs. apply (Hmin pre'); [done|]. simpl in Hl. lia.
    + intros ([|d pre] & rest & Hs & Hh & Hmin); [rewrite str_app_nil_l in Hs; congruence|].
      rewrite str_app_cons in Hs. injection Hs as <- Hs. apply IH. exists pre, rest. split_and!; [done..|].
      intros pre' rest' Hs' Hl. apply (Hmin (String c pre')); [by rewrite str_app_cons, Hs'|simpl; lia].
Qed.
Lemma first_match_none {A} (here : string → option A) s :
  first_match here s = None ↔ ∀ pre rest, s = pre +:+ rest → here rest = None.
Proof.
  induction s as [|c s IH]; cbn [first_match].
  - split; [|intros Hn; specialize (Hn "" "" eq_refl); by rewrite Hn].
    intros Hn [|? ?] [|? ?] Hs; try done. by destruct (here "").
  - destruct (here (String c s)) as [x|] eqn:E.
    + split; [done|]. intros Hn. specialize (Hn "" (String c s) eq_refl). congruence.
    + rewrite IH. split.
      * intros Hn [|d pre] rest Hs; [rewrite str_app_nil_l in Hs; by subst|].
        rewrite str_app_cons in Hs. injection Hs as _ Hs. by apply (Hn pre).
      * intros Hn pre rest ->. by apply (Hn (String c pre)).
Qed.
Lemma cut_prefix_spec s p r : cut_prefix s p = Some r ↔ s = p +:+ r.
Proof.
  unfold cut_prefix. destruct (strings_HasPrefix s p) eqn:E.
  - apply strings_HasPrefix_spec in E as [t ->]. rewrite str_drop_app. split; [by intros [= ->]|].
    intros Ht. f_equal. by apply (inj (String.append p)).
  - split; [done|]. intros ->. assert (strings_HasPrefix (p +:+ r) p = true) by (apply strings_HasPrefix_spec; eauto). congruence.
Qed.
Lemma CutS_byte c s a b : strings_CutS s (String c "") = Some (a, b) ↔ s = a +:+ String c b ∧ no_byte c a.
Proof.
  revert a b. induction s as [|d s IH]; intros a b.
  { split; [done|]. by intros [Hs _]; destruct a. }
  assert (strings_CutS (String d s) (String c "") =
          if bool_decide (c = d) then Some ("", s)
          else (λ p, (String d p.1, p.2)) <$> strings_CutS s (String c "")) as ->.
  { unfold strings_CutS. cbn [strings_Index strings_HasPrefix]. destruct (bool_decide (c = d)) eqn:E.
    - assert (strings_HasPrefix s "" = true) as -> by (by destruct s).
      pose proof (str_drop_app (String d "") s) as Hd. simpl in *. f_equal. f_equal. exact Hd.
    - cbn [andb]. destruct (strings_Index s (String c "")) as [i|]; [|done]. cbn. f_equal. }
  case_bool_decide as Hc.
  - subst d. split; [intros [= <- <-]; done|]. intros [Hs Hn].
    destruct a as [|x a]; [by injection Hs as <-|]. rewrite str_app_cons in Hs. injection Hs as <- _.
    by apply no_byte_cons in Hn as [].
  - split.
    + intros ([x y] & Hp & [= -> ->])%fmap_Some. apply IH in Hp as [-> Hn]. split; [done|].
      change (String d x) with (String d "" +:+ x). apply no_byte_app. split; [|done].
      unfold no_byte. simpl. by rewrite bool_decide_false.
    + intros [Hs Hn]. destruct a as [|x a]; [rewrite str_app_nil_l in Hs; congruence|].
      rewrite str_app_cons in Hs. injection Hs as <- Hs. apply no_byte_cons in Hn as [_ Hn].
      apply fmap_Some. exists (a, b). split; [by apply IH|done].
Qed.
Lemma quoted_spec s name rest :
  quoted s = Some (name, rest) ↔ s = name +:+ dq +:+ rest ∧ name ≠ "" ∧ no_byte "034" name.
Proof.
  unfold quoted. change dq with (String "034" ""). destruct (strings_CutS s _) as [[n r]|] eqn:E.
  - apply CutS_byte in E as [-> Hn]. simpl. unfold str_eqb. case_bool_decide as H0.
    + split; [done|]. subst n. intros (Hs & Hne & Hb). destruct name as [|x name]; [done|].
      rewrite str_app_cons in Hs. injection Hs as <- _. by apply no_byte_cons in Hb as [].
    + split; [intros [= -> ->]; done|]. intros (Hs & _ & Hb).
      assert (strings_CutS (n +:+ String "034" r) (String "034" "") = Some (name, rest)) as H1 by (by apply CutS_byte).
      assert (strings_CutS (n +:+ String "034" r) (String "034" "") = Some (n, r)) as H2 by (by apply CutS_byte).
      congruence.
  - split; [done|]. intros (-> & _ & Hb). exfalso.
    assert (strings_CutS (name +:+ String "034" rest) (String "034" "") = Some (name, rest)) by (by apply CutS_byte).
    unfold "+:+" in *. simpl in *. congruence.
Qed.
Fixpoint str_all (f : ascii → bool) (s : string) : bool :=
  match s with String c s' => f c && str_all f s' | EmptyString => true end.
(** A run of characters that pass, up to one that does not. *)
Lemma span_run f a c b : str_all f a = true → f c = false → span f (a +:+ String c b) = (a, String c b).
Proof.
  intros Ha Hc. induction a as [|x a IH]; [simpl; by rewrite Hc|].
  cbn [str_all] in Ha. apply andb_true_iff in Ha as [Hx Ha]. rewrite str_app_cons. cbn [span]. by rewrite Hx, IH.
Qed.
Lemma span_split f s : s = (span f s).1 +:+ (span f s).2 ∧ str_all f (span f s).1 = true.
Proof.
  induction s as [|c s [IH1 IH2]]; [done|]. cbn [span]. destruct (f c) eqn:E; cbn [fst snd]; [|done].
  cbn [str_all]. rewrite E, str_app_cons. split; [by rewrite <-IH1|done].
Qed.

(** What a message of RBAC says: the words the API server denies with. *)
Definition rbac_denial (resource s : string) : Prop :=
  ∃ pre verb post, s = pre +:+ "cannot " +:+ verb +:+ " resource " +:+ dq +:+ resource +:+ dq +:+ post
    ∧ verb ≠ "" ∧ str_all is_lower verb = true ∧ resource ≠ "" ∧ no_byte "034" resource.
Lemma rbac_here_spec s r :
  rbac_here s = Some r ↔
  ∃ verb post, s = "cannot " +:+ verb +:+ " resource " +:+ dq +:+ r +:+ dq +:+ post
    ∧ verb ≠ "" ∧ str_all is_lower verb = true ∧ r ≠ "" ∧ no_byte "034" r.
Proof.
  unfold rbac_here. split.
  - intros (rest & Hr%cut_prefix_spec & H)%bind_Some. pose proof (span_split is_lower rest) as [Hs Ha].
    destruct (span is_lower rest) as [verb rest1]. cbn [fst snd] in *. unfold str_eqb in H. case_bool_decide as Hv; [done|].
    apply bind_Some in H as (rest2 & H2%cut_prefix_spec & H).
    apply bind_Some in H as ([name post] & (H3 & Hn & Hb)%quoted_spec & [= <-]).
    exists verb, post. split_and!; try done. by rewrite Hr, Hs, H2, H3, !str_app_assoc.
  - intros (verb & post & -> & Hv & Ha & Hr & Hb). apply bind_Some. eexists. split; [by apply cut_prefix_spec|].
    assert (span is_lower (verb +:+ " resource " +:+ dq +:+ r +:+ dq +:+ post)
            = (verb, " resource " +:+ dq +:+ r +:+ dq +:+ post)) as -> by (by apply (span_run is_lower verb " "%char)).
    unfold str_eqb. rewrite bool_decide_false by done.
    apply bind_Some. eexists. split; [apply cut_prefix_spec; by rewrite <-(str_app_assoc " resource " dq)|].
    apply bind_Some. exists (r, post). split; [by apply quoted_spec|done].
Qed.

(** A message is read as a denial by RBAC exactly when it holds one, and the
    resource reported is that of a denial in it. *)
Theorem rbacRefusal_exact message :
  match rbacRefusal message with
  | Some resource => rbac_denial resource message
  | None => ∀ resource, ¬ rbac_denial resource message
  end.
Proof.
  unfold rbacRefusal. destruct (first_match rbac_here message) as [r|] eqn:E.
  - apply first_match_spec in E as (pre & rest & -> & (verb & post & -> & ?)%rbac_here_spec & _).
    exists pre, verb, post. done.
  - intros r (pre & verb & post & Hm & Hrest).
    rewrite first_match_none in E. specialize (E pre _ Hm).
    assert (rbac_here ("cannot " +:+ verb +:+ " resource " +:+ dq +:+ r +:+ dq +:+ post) = Some r) by (apply rbac_here_spec; eauto).
    congruence.
Qed.

(** ** What is reported *)
Section exact.
Context {C Spec : Type} `{!ClusterAPI C Spec}.
(** A quota resource that is nearly used up. *)
Definition nearly_used (rq : ResourceQuota) (name : string) : bool :=
  match rq_Hard rq !! name, rq_Used rq !! name with
  | Some hard, Some used =>
    negb (f64_leb (q_float hard) f64_zero)
    && negb (f64_ltb (f64_div (q_float used) (q_float hard)) quotaUsageThreshold)
  | _, _ => false
  end.
Lemma quota_finding_spec rq name :
  match quota_finding (C := C) rq name with
  | Some f => nearly_used rq name = true ∧ fn_Subject f = name
  | None => nearly_used rq name = false
  end.
Proof.
  unfold quota_finding, nearly_used. destruct (rq_Hard rq !! name) as [hard|]; [|done].
  destruct (rq_Used rq !! name) as [used|]; [|done]. cbn [mbind option_bind].
  destruct (f64_leb (q_float hard) f64_zero); [done|]. by destruct (f64_ltb _ _).
Qed.
(** A quota is reported once for each resource nearly used up, in the order
    of the names, and for no other. *)
Theorem quotaFindings_exact rq :
  fn_Subject <$> quotaFindings (C := C) rq
  = filter (λ n, nearly_used rq n = true) (sort_strings (map_to_list (rq_Hard rq)).*1).
Proof.
  unfold quotaFindings. induction (sort_strings _) as [|n l IH]; [done|]. cbn [omap list_omap].
  pose proof (quota_finding_spec rq n) as Hn. rewrite filter_cons. destruct (quota_finding rq n) as [f|].
  - destruct Hn as [Hn <-]. rewrite decide_True by done. cbn. by f_equal.
  - rewrite decide_False by (by rewrite Hn). done.
Qed.

(** A query whose answer is not a number fires every rule: it is not below
    the threshold. *)
Theorem anomaly_fires_on_NaN ns pol r : is_Some (anomaly_finding (C := C) ns pol r SpecFloat.S754_nan).
Proof. unfold anomaly_finding. by eexists. Qed.
End exact.

Section quiet.
Context {C Spec Sel S : Type} `{!ClusterAPI C Spec, !PodReads C, !NetReads C Sel, !SecurityReads C, !PromServer C, !RangeOrder,
  !ProposalQueue C S} (env : Env).
Context (R : S → S → Prop) `{!QuietQueue (C := C) R} (parse_certificate : string → option Certificate).
Lemma recent_in_quiet ns f : keeps R (recent_in (C := C) env ns f).
Proof. unfold recent_in. quiet_pass. Qed.
Lemma security_passes_quiet tls p :
  keeps R (CheckSecurityIssues (C := C) env parse_certificate tls) ∧ keeps R (CheckWebhookBlocking (C := C) env)
  ∧ keeps R (CheckRBACDenied (C := C) env) ∧ keeps R (CheckResourceQuotas (C := C) env)
  ∧ keeps R (CheckAnomalies (C := C) env p).
Proof.
  split_and!.
  - unfold CheckSecurityIssues, checkCertExpiry, checkLimitRangeViolations, check_secret. quiet_pass. apply recent_in_quiet.
  - unfold CheckWebhookBlocking. quiet_pass. apply recent_in_quiet.
  - unfold CheckRBACDenied. quiet_pass. apply recent_in_quiet.
  - unfold CheckResourceQuotas. quiet_pass.
  - unfold CheckAnomalies, check_rule. quiet_pass.
Qed.
End quiet.

Example security_messages :
  limitRangeRefusal "minimum cpu usage per Container is 100m" = true
  ∧ limitRangeRefusal "MAXIMUM memory u" = false
  ∧ webhookRefusal ("x: admission webhook " +:+ dq +:+ "a.b" +:+ dq +:+ " denied the request") = Some (Denied "a.b")
  ∧ webhookRefusal ("failed calling webhook " +:+ dq +:+ "a.b" +:+ dq +:+ ": timeout") = Some (Unreachable "a.b")
  ∧ rbacRefusal ("User x cannot list resource " +:+ dq +:+ "pods" +:+ dq) = Some "pods"
  ∧ rbacRefusal "cannot allocate memory" = None.
Proof. vm_compute. done. Qed.
