(* ===== verification/MetricChecks.v ===== *)
(** * Metric checks: internal/kube/promchecks.go and the Prometheus checks of
    netchecks.go

    Throttled containers, claims nearly full, the control plane, the
    connection tracking tables and CoreDNS, from the samples of PromQL
    queries.  Without Prometheus, or when a query fails, a check does
    nothing. *)
From S2P Require Import Prelude GoStd Policy RateLimit Guards Events Escalation Gate Kube.
From S2P Require Import K8s Fixes Metrics Findings PodStates Detectors WorkloadChecks NetChecks ClusterChecks.
From Stdlib Require Import Ascii SpecFloat.
#[local] Open Scope Z_scope.
#[local] Open Scope agent_scope.

(** ** Thresholds *)
Definition throttleRatioMin : float64 := Eval vm_compute in f64_const 25 2.
Definition volumeWarnRatio : float64 := Eval vm_compute in f64_const 85 2.
Definition volumeCritRatio : float64 := Eval vm_compute in f64_const 95 2.
Definition etcdLeaderChanges : float64 := Eval vm_compute in f64_of_Z 3.
Definition etcdQuotaRatio : float64 := Eval vm_compute in f64_const 8 1.
Definition growthFactor : float64 := Eval vm_compute in f64_const 15 1.
Definition conntrackFullRatio : float64 := Eval vm_compute in f64_const 9 1.
Definition coreDNSErrorRatio : float64 := Eval vm_compute in f64_const 5 2.
Definition coreDNSSlowSeconds : float64 := Eval vm_compute in f64_const 5 1.
Definition percent (v : float64) : float64 := f64_mul v (f64_of_Z 100).
Definition f64_geb (a b : float64) : bool := f64_leb b a.

Definition roundUp (v step : Z) : Z := wrap64 (Z.quot (wrap64 (v + step - 1)) step * step).
Definition proposedMilli (milli : Z) : Z := roundUp (f64_int (f64_mul (f64_of_Z milli) growthFactor)) 50.
(** [math.Ceil] and the conversion to an integer. *)
Definition f64_ceil_int (f : float64) : Z :=
  match f with
  | S754_finite false m e => if 0 <=? e then Z.pos m * 2 ^ e else - (- Z.pos m / 2 ^ (- e))
  | S754_finite true m e => if 0 <=? e then - (Z.pos m * 2 ^ e) else - (Z.pos m / 2 ^ (- e))
  | _ => 0
  end.
Definition proposedGi (bytes : Z) : Z :=
  f64_ceil_int (f64_div (f64_mul (f64_of_Z bytes) growthFactor) (f64_of_Z (2 ^ 30))).

(** Of ASCII text. *)
Definition is_metrics_char (c : ascii) : bool :=
  let n := N_of_ascii c in
  ((97 <=? n) && (n <=? 122) || (48 <=? n) && (n <=? 57))%N || bool_decide (c ∈ ["-"; "."]%char).
Definition metricsLabel (s : string) : string := str_map (λ c, if is_metrics_char c then c else "_"%char) s.
Definition firstLabel (l : gmap string string) (keys : list string) : string :=
  default "unknown" (head (filter (λ v, v ≠ "") (omap (λ k, l !! k) keys))).

(** ** Objects *)

(** A container's CPU: the limit in thousandths, and the limit and the
    request as they print. *)
Record CPU := mkCPU { cpu_milli : Z; cpu_limit : string; cpu_request : string }.
Class MetricObjects (C : Type) := {
  container_cpu : Pod → string → CPU; (* of a container of the pod's spec *)
  milli_text : Z → string; (* a quantity of so many thousandths, as it prints *)
  capacity_of : PVC → Z * string; (* in bytes, and as it prints *)
  class_expands : string → C → bool (* an unreadable class does not *)
}.

(** [objCache]: the objects of each namespace, listed once in a pass. *)
Definition objCache (T : Type) : Type := gmap string (gmap string T).
Section cache.
Context {C S T : Type} `{!ProposalQueue C S} (list_in : string → C → list T + string) (name : T → string).
Definition by_name (l : list T) : gmap string T := foldl (λ m x, <[name x := x]> m) ∅ l.
Definition cache_get (ns n : string) (cache : objCache T) : st S (option T * objCache T) :=
  match cache !! ns with
  | Some m => return! (m !! n, cache)
  | None =>
    let! l := read_cluster (list_in ns) in
    let m := match l with inl l => by_name l | inr _ => ∅ end in
    return! (m !! n, <[ns := m]> cache)
  end.
End cache.

(** ** Findings *)
Section findings.
Context {C Spec : Type} `{!ClusterAPI C Spec, !MetricObjects C}.
Implicit Types (s : Sample).
Definition throttled_finding (ns podName cname : string) s (p : Pod) : option (finding C) :=
  match containerSpec p cname with
  | None => None
  | Some _ =>
    let cpu := container_cpu p cname in
    if cpu_milli cpu =? 0 then None
    else
      let proposed := milli_text (proposedMilli (cpu_milli cpu)) in
      let f := a_finding "CPUThrottled" ns (ownerName p) podName (p_NodeName p) Events.SevWarning RungGuided
                 (podName +:+ "/" +:+ cname)
                 ("container `" +:+ cname +:+ "` is throttled in " +:+ fmt_0f (percent (sm_Value s)) +:+ " percent of CPU periods")
                 ["CPU limit " +:+ cpu_limit cpu +:+ ", request " +:+ cpu_request cpu +:+ "."]
                 ("raise the CPU limit of `" +:+ cname +:+ "` from " +:+ cpu_limit cpu +:+ " to " +:+ proposed
                  +:+ ", or remove the CPU limit and keep the request; throttling adds latency even when the node has idle CPU") in
      Some (match proposeCPULimit p cname proposed with
            | inl (Some m) => with_proposal (Some m) f
            | _ => f
            end)
  end.
Definition volumeExpandable (pvc : PVC) (c : C) : bool * string :=
  match pv_Class pvc with
  | None => (false, "none")
  | Some name => if str_eqb name "" then (false, "none") else (class_expands name c, name)
  end.
Definition volume_finding (ns claim : string) s (pvc : PVC) (expandable : bool) (class : string) : finding C :=
  let sev := if f64_geb (sm_Value s) volumeCritRatio then Events.SevCritical else Events.SevWarning in
  let '(bytes, text) := capacity_of pvc in
  let summary := "claim is " +:+ fmt_0f (percent (sm_Value s)) +:+ " percent full" in
  let f := a_finding "VolumeAlmostFull" ns ("pvc/" +:+ claim) "" "" sev RungGuided claim summary in
  if expandable && negb (bytes =? 0) then
    let gi := itoa (proposedGi bytes) in
    with_proposal (proposeExpandPVC ns claim (proposedGi bytes))
      (f ["Capacity " +:+ text +:+ "; StorageClass `" +:+ class +:+ "` allows expansion."]
         ("expand the claim to " +:+ gi +:+ "Gi: `kubectl patch pvc -n " +:+ ns +:+ " " +:+ claim +:+ " -p '{" +:+ dq +:+ "spec" +:+ dq
          +:+ ":{" +:+ dq +:+ "resources" +:+ dq +:+ ":{" +:+ dq +:+ "requests" +:+ dq +:+ ":{" +:+ dq +:+ "storage" +:+ dq
          +:+ ":" +:+ dq +:+ gi +:+ "Gi" +:+ dq +:+ "}}}}'`"))
  else f ["Capacity " +:+ text +:+ "; StorageClass `" +:+ class +:+ "` does not allow expansion."]
         "free space or move the data to a larger volume; this class cannot be expanded in place".

(** A control plane query, and what makes a sample of it a finding. *)
Record etcdCheck := mkEtcdCheck {
  ec_reason : string; ec_query : string; ec_bad : float64 → bool; ec_sev : string;
  ec_summary : float64 → string; ec_fix : string
}.
Definition etcdChecks : list etcdCheck := [
  mkEtcdCheck "EtcdNoLeader" "max by (instance) (etcd_server_has_leader)" (λ v, SFeqb v f64_zero) Events.SevCritical
    (λ _, "etcd member has no leader; the API server cannot write")
    "check etcd member health and the network between control plane nodes";
  mkEtcdCheck "EtcdLeaderChurn" "sum by (instance) (increase(etcd_server_leader_changes_seen_total[1h]))"
    (λ v, f64_ltb etcdLeaderChanges v) Events.SevWarning
    (λ v, "etcd changed leader " +:+ fmt_0f v +:+ " times in the last hour")
    "usually slow disks or a congested network between control plane nodes; check etcd disk fsync latency";
  mkEtcdCheck "EtcdDBNearQuota" "max by (instance) (etcd_mvcc_db_total_size_in_bytes / etcd_server_quota_backend_bytes)"
    (λ v, f64_geb v etcdQuotaRatio) Events.SevWarning
    (λ v, "etcd database is at " +:+ fmt_0f (percent v) +:+ " percent of its quota")
    "compact and defragment etcd; at the quota etcd raises an alarm and refuses writes"].
Definition etcd_finding (c : etcdCheck) s : option (finding C) :=
  if ec_bad c (sm_Value s)
  then Some (a_finding (ec_reason c) "" ("etcd/" +:+ sm_label s "instance") "" "" (ec_sev c) RungAlert
               (sm_label s "instance") (ec_summary c (sm_Value s)) [] (ec_fix c))
  else None.
Definition apiReplacements : list (string * string) := [
  ("cronjobs.batch", "batch/v1"); ("horizontalpodautoscalers.autoscaling", "autoscaling/v2");
  ("ingresses.networking.k8s.io", "networking.k8s.io/v1"); ("ingresses.extensions", "networking.k8s.io/v1");
  ("poddisruptionbudgets.policy", "policy/v1"); ("podsecuritypolicies.policy", "nothing: use Pod Security Admission");
  ("endpointslices.discovery.k8s.io", "discovery.k8s.io/v1"); ("events.events.k8s.io", "events.k8s.io/v1");
  ("runtimeclasses.node.k8s.io", "node.k8s.io/v1"); ("csistoragecapacities.storage.k8s.io", "storage.k8s.io/v1");
  ("flowschemas.flowcontrol.apiserver.k8s.io", "flowcontrol.apiserver.k8s.io/v1");
  ("prioritylevelconfigurations.flowcontrol.apiserver.k8s.io", "flowcontrol.apiserver.k8s.io/v1");
  ("customresourcedefinitions.apiextensions.k8s.io", "apiextensions.k8s.io/v1");
  ("mutatingwebhookconfigurations.admissionregistration.k8s.io", "admissionregistration.k8s.io/v1");
  ("validatingwebhookconfigurations.admissionregistration.k8s.io", "admissionregistration.k8s.io/v1");
  ("componentstatuses.", "nothing: use the API server /readyz and /livez endpoints")].
Definition deprecated_finding s : finding C :=
  let group := sm_label s "group" in let res := sm_label s "resource" in let removed := sm_label s "removed_release" in
  let gv := if str_eqb group "" then sm_label s "version" else group +:+ "/" +:+ sm_label s "version" in
  let replacement := match head (filter (λ r, r.1 = res +:+ "." +:+ group) apiReplacements) with
                     | Some r => r.2
                     | None => "the stable version listed in the Kubernetes deprecation guide"
                     end in
  let announced := negb (str_eqb removed "") in
  a_finding "DeprecatedAPIInUse" "" ("api/" +:+ gv +:+ "/" +:+ res) "" ""
    (if announced then Events.SevWarning else Events.SevInfo) RungGuided (gv +:+ "/" +:+ res)
    ("something requested deprecated `" +:+ gv +:+ "` `" +:+ res +:+ "`")
    [if announced then "Removed in Kubernetes " +:+ removed +:+ ": upgrading to it breaks whatever still calls this API."
     else "Deprecated with no removal release announced yet."]
    ("move manifests, charts and clients to " +:+ replacement +:+ "; the API server audit log names the caller").

Definition conntrack_finding s : option (finding C) :=
  if f64_ltb (sm_Value s) conntrackFullRatio then None
  else let node := firstLabel (sm_Labels s) ["node"; "instance"] in
       Some (a_finding "ConntrackNearFull" "" ("node/" +:+ node) "" node Events.SevWarning RungAlert ""
               ("the connection tracking table is " +:+ fmt_0f (percent (sm_Value s))
                +:+ " percent full; new connections are dropped when it fills") []
               "find the pods opening many short connections; raise net.netfilter.nf_conntrack_max on the node if the load is expected").
Definition dns_errors_finding s : option (finding C) :=
  if f64_geb (sm_Value s) coreDNSErrorRatio
  then Some (a_finding "CoreDNSErrors" "" "coredns" "" "" Events.SevCritical RungGuided ""
               (fmt_1f (percent (sm_Value s)) +:+ " percent of DNS answers are SERVFAIL") []
               "read the CoreDNS logs; SERVFAIL usually means the upstream resolvers fail or a forward zone is wrong")
  else None.
Definition dns_slow_finding s : option (finding C) :=
  if f64_geb (sm_Value s) coreDNSSlowSeconds
  then Some (a_finding "CoreDNSSlow" "" "coredns" "" "" Events.SevWarning RungGuided ""
               ("the 99th percentile DNS answer takes " +:+ fmt_2f (sm_Value s) +:+ "s") []
               "scale CoreDNS, add NodeLocal DNSCache, or check the upstream resolvers' latency")
  else None.
End findings.

(** ** The passes *)
Section passes.
Context {C Spec S : Type} `{!ClusterAPI C Spec, !PodReads C, !ClusterReads C, !MetricObjects C, !PromServer C,
  !ProposalQueue C S} (env : Env).
(** [deps.Metrics], which may be nil. *)
Context (provider : option Provider).
Definition queryVector (q : string) : st S (option (list Sample)) :=
  match provider with
  | None => return! None
  | Some p => let! v := read_cluster (QueryVector p q) in
              return! (match v with inl l => Some l | inr _ => None end)
  end.
Definition with_samples (q : string) (k : list Sample → st S unit) : st S unit :=
  let! v := queryVector q in match v with Some l => k l | None => return! tt end.
Definition watchMatcher : st S string :=
  let! nss := watched_of env in return! strings_Join (sort_strings (metricsLabel <$> nss)) "|".

(** A sample is looked at when its value is not below the threshold and its
    namespace is watched. *)
Definition looked_at (min : float64) (s : Sample) : bool :=
  negb (f64_ltb (sm_Value s) min) && Watched (env_Policy env) (sm_label s "namespace").
Definition throttle_query (nsRe : string) : string :=
  let rate what := "sum by (namespace, pod, container) (rate(container_cpu_cfs_" +:+ what +:+ "_total{namespace=~" +:+ dq
    +:+ nsRe +:+ dq +:+ ",container!=" +:+ dq +:+ dq +:+ "}[5m]))" in
  rate "throttled_periods" +:+ " / " +:+ rate "periods".
Fixpoint throttled_all (l : list Sample) (pods : objCache Pod) : st S unit :=
  match l with
  | [] => return! tt
  | s :: l' =>
    if negb (looked_at throttleRatioMin s) then throttled_all l' pods
    else
      let ns := sm_label s "namespace" in
      let! r := cache_get pods_in p_Name ns (sm_label s "pod") pods in
      (match r.1 with
       | Some p => tell_each env (option_list (throttled_finding ns (sm_label s "pod") (sm_label s "container") s p))
       | None => return! tt
       end) ;;;
      throttled_all l' r.2
  end.
Definition checkCPUThrottling (nsRe : string) : st S unit :=
  with_samples (throttle_query nsRe) (λ l, throttled_all l ∅).
Definition volume_query (nsRe : string) : string :=
  let side what := "max by (namespace, persistentvolumeclaim) (kubelet_volume_stats_" +:+ what +:+ "_bytes{namespace=~" +:+ dq
    +:+ nsRe +:+ dq +:+ "})" in
  side "used" +:+ " / " +:+ side "capacity".
Fixpoint volumes_all (l : list Sample) (claims : objCache PVC) : st S unit :=
  match l with
  | [] => return! tt
  | s :: l' =>
    if negb (looked_at volumeWarnRatio s) then volumes_all l' claims
    else
      let ns := sm_label s "namespace" in let claim := sm_label s "persistentvolumeclaim" in
      let! r := cache_get pvcs_in pv_Name ns claim claims in
      (match r.1 with
       | Some pvc => let! e := read_cluster (volumeExpandable pvc) in
                     tell_one env (volume_finding ns claim s pvc e.1 e.2)
       | None => return! tt
       end) ;;;
      volumes_all l' r.2
  end.
Definition checkVolumeFullness (nsRe : string) : st S unit :=
  with_samples (volume_query nsRe) (λ l, volumes_all l ∅).
Definition CheckResourcePressure : st S unit :=
  let! nsRe := watchMatcher in
  if str_eqb nsRe "" then return! tt else checkCPUThrottling nsRe ;;; checkVolumeFullness nsRe.
Definition checkEtcd : st S unit :=
  st_each (λ c, with_samples (ec_query c) (λ l, tell_each env (omap (etcd_finding c) l))) etcdChecks.
Definition checkDeprecatedAPIs : st S unit :=
  with_samples "max by (group, version, resource, removed_release) (apiserver_requested_deprecated_apis)"
    (λ l, tell_each env (deprecated_finding <$> l)).
Definition CheckControlPlane : st S unit := checkEtcd ;;; checkDeprecatedAPIs.
Definition CheckConntrack : st S unit :=
  with_samples "node_nf_conntrack_entries / node_nf_conntrack_entries_limit"
    (λ l, tell_each env (omap conntrack_finding l)).
Definition CheckCoreDNS : st S unit :=
  with_samples ("sum(rate(coredns_dns_responses_total{rcode=" +:+ dq +:+ "SERVFAIL" +:+ dq
                +:+ "}[5m])) / sum(rate(coredns_dns_responses_total[5m]))")
    (λ l, tell_each env (omap dns_errors_finding l)) ;;;
  with_samples "histogram_quantile(0.99, sum(rate(coredns_dns_request_duration_seconds_bucket[5m])) by (le))"
    (λ l, tell_each env (omap dns_slow_finding l)).

(** ** What the passes change *)
Context (R : S → S → Prop) `{!QuietQueue (C := C) R}.
Lemma with_samples_quiet q k : (∀ l, keeps R (k l)) → keeps R (with_samples q k).
Proof. intros Hk. unfold with_samples, queryVector. quiet_pass. apply Hk. Qed.
Lemma cache_get_quiet {T} (list_in : string → C → list T + string) (name : T → string) ns n cache :
  keeps R (cache_get list_in name ns n cache).
Proof. unfold cache_get. quiet_pass. Qed.
Lemma throttled_all_quiet l pods : keeps R (throttled_all l pods).
Proof.
  revert pods. induction l as [|s l IH]; intros pods; cbn [throttled_all]; [quiet_pass|].
  destruct (negb _); [apply IH|]. apply (keeps_bind R); [apply cache_get_quiet|]. intros r.
  apply (keeps_bind R); [quiet_pass|]. intros _. apply IH.
Qed.
Lemma volumes_all_quiet l claims : keeps R (volumes_all l claims).
Proof.
  revert claims. induction l as [|s l IH]; intros claims; cbn [volumes_all]; [quiet_pass|].
  destruct (negb _); [apply IH|]. apply (keeps_bind R); [apply cache_get_quiet|]. intros r.
  apply (keeps_bind R); [quiet_pass|]. intros _. apply IH.
Qed.
Lemma metric_passes_quiet :
  keeps R CheckResourcePressure ∧ keeps R CheckControlPlane ∧ keeps R CheckConntrack ∧ keeps R CheckCoreDNS.
Proof.
  split_and!.
  - unfold CheckResourcePressure, watchMatcher, checkCPUThrottling, checkVolumeFullness. quiet_pass.
    + apply with_samples_quiet. intros l. apply throttled_all_quiet.
    + apply with_samples_quiet. intros l. apply volumes_all_quiet.
  - unfold CheckControlPlane, checkEtcd, checkDeprecatedAPIs. quiet_pass; apply with_samples_quiet; intros l; quiet_pass.
  - apply with_samples_quiet. intros l. quiet_pass.
  - unfold CheckCoreDNS. apply (keeps_bind R); [|intros _]; apply with_samples_quiet; intros l; quiet_pass.
Qed.
End passes.

(** ** What is reported *)

(** A value that is not a number is not below any threshold: a container
    with no CPU periods counts as throttled, and a claim of no known
    capacity as nearly full. *)
Theorem NaN_sample_is_looked_at env labels min :
  Watched (env_Policy env) (default "" (labels !! "namespace")) = true →
  looked_at env min (mkSample labels S754_nan) = true.
Proof. intros Hw. unfold looked_at, sm_label. cbn. by rewrite Hw. Qed.
Lemma NaN_sample_is_looked_at_witness :
  let labels := {["namespace" := "shop"]} in
  Watched (env_Policy (GateDemo.env Fix)) (default "" (labels !! "namespace")) = true
  ∧ looked_at (GateDemo.env Fix) throttleRatioMin (mkSample labels S754_nan) = true.
Proof.
  intros labels. assert (Watched (env_Policy (GateDemo.env Fix)) (default "" (labels !! "namespace")) = true) as Hw
    by (vm_compute; reflexivity).
  split; [exact Hw|]. apply NaN_sample_is_looked_at. exact Hw.
Defined.

(** A test of every number of a range, by halves. *)
Fixpoint forall_range (f : Z → bool) (n : nat) (lo : Z) : bool :=
  match n with
  | O => f lo
  | S n' => forall_range f n' lo && forall_range f n' (lo + 2 ^ Z.of_nat n')
  end.
Lemma forall_range_spec f n lo : forall_range f n lo = true → ∀ z, lo ≤ z < lo + 2 ^ Z.of_nat n → f z = true.
Proof.
  revert lo. induction n as [|n IH]; intros lo Hf z Hz.
  - cbn in Hf. simpl in Hz. by replace z with lo by lia.
  - rewrite Nat2Z.inj_succ, Z.pow_succ_r in Hz by lia. apply andb_true_iff in Hf as [H1 H2].
    destruct (decide (z < lo + 2 ^ Z.of_nat n)); [apply (IH lo H1); lia|apply (IH _ H2); lia].
Qed.

(** The proposed CPU limit is the next multiple of 50 thousandths from half
    again the limit, for limits to four cores. *)
Definition raises_cpu (milli : Z) : bool :=
  (3 * milli - 1 <=? 2 * proposedMilli milli) && (2 * proposedMilli milli <? 3 * milli + 100)
  && (proposedMilli milli mod 50 =? 0).
Theorem cpu_proposal_raises milli : 1 ≤ milli ≤ 4096 → raises_cpu milli = true.
Proof.
  intros Hm. apply (forall_range_spec raises_cpu 12 1); [vm_compute; done|]. change (2 ^ Z.of_nat 12) with 4096. lia.
Qed.
