(* ===== verification/NetProbe.v ===== *)
(** * NetProbe: the network probes of a node agent (internal/kube/netprobe.go)

    Every agent checks from its own node what the workloads there depend on:
    cluster DNS, Services through their ClusterIPs, egress.  A failure is
    told when it is the second in a row; a pass dials a bounded sample of
    the Services, and the sample rotates. *)
From S2P Require Import Prelude GoStd Policy RateLimit Guards Events Escalation Gate Kube.
From S2P Require Import Findings PodStates Workloads Detectors WorkloadChecks.
From Stdlib Require Import Ascii.
#[local] Open Scope Z_scope.
#[local] Open Scope agent_scope.

Definition probeFailuresBeforeReport : Z := 2.
Definition dnsSlowAfter : Duration := second.
Definition serviceProbeSample : Z := 20.

(** [config.Probes]; the interval is the ticker's. *)
Record Probes := mkProbes {
  pb_DNS : bool; pb_ClusterDomain : string; pb_ExternalName : string; pb_Services : bool; pb_EgressTarget : string
}.
(** What the probes reach: the error of a lookup, and of a connection. *)
Class ProbeNet (C : Type) := {
  resolve : string → C → option string;
  dial : string → C → option string
}.
Record ProbeService := mkProbeService {
  po_Name : string; po_ClusterIP : string; po_Ports : list (string * Z) (* protocol and port *)
}.
Class ProbeReads (C : Type) := { probe_services : string → C → list ProbeService + string }.

(** [took.Round(time.Millisecond)] as it prints, of a second or more. *)
Definition dur_Round_ms (d : Duration) : Duration :=
  let r := d mod millisecond in if 2 * r <? millisecond then d - r else d - r + millisecond.
Fixpoint trim_zeros (s : string) : string :=
  match s with
  | String c s' => let t := trim_zeros s' in if str_eqb t "" && bool_decide (c = "0"%char) then "" else String c t
  | EmptyString => ""
  end.
Definition ms_digits (ms : Z) : string := itoa (ms / 100) +:+ itoa (ms / 10 mod 10) +:+ itoa (ms mod 10).
Definition dur_String_ms (d : Duration) : string :=
  let frac := trim_zeros (ms_digits (d mod second / millisecond)) in
  strings_TrimSuffix (dur_String_seconds d) "s" +:+ (if str_eqb frac "" then "" else "." +:+ frac) +:+ "s".
Definition JoinHostPort (host port : string) : string :=
  if strings_Contains host ":" then "[" +:+ host +:+ "]:" +:+ port else host +:+ ":" +:+ port.

(** ** The targets *)
Record probeTarget := mkTarget { tg_key : string; tg_svc : string; tg_addr : string }.
Definition tcp_port (s : ProbeService) : option Z :=
  snd <$> head (filter (λ p, p.1 = "" ∨ p.1 = "TCP") (po_Ports s)).
Definition service_target (ns : string) (slices : list EndpointSlice) (s : ProbeService) : option probeTarget :=
  if str_eqb (po_ClusterIP s) "" || str_eqb (po_ClusterIP s) "None" || (readyEndpoints slices (po_Name s) =? 0) then None
  else port ← tcp_port s;
       Some (mkTarget (ns +:+ "/" +:+ po_Name s +:+ ":" +:+ itoa port) (ns +:+ "/" +:+ po_Name s)
               (JoinHostPort (po_ClusterIP s) (itoa port))).
Definition key_le (a b : probeTarget) : Prop := String.le (tg_key a) (tg_key b).
#[export] Instance key_le_dec : RelDecision key_le.
Proof. intros a b. unfold key_le. apply _. Defined.
(** The targets of one pass: a window of the list, which wraps. *)
Definition sampled (offset : Z) (targets : list probeTarget) : list probeTarget :=
  let n := Z.of_nat (length targets) in
  omap (λ i, targets !! Z.to_nat ((offset + Z.of_nat i) `mod` n)) (seq 0 (Z.to_nat (Z.min n serviceProbeSample))).
Definition next_offset (offset : Z) (targets : list probeTarget) : Z :=
  let n := Z.of_nat (length targets) in
  if 0 <? n then (offset + serviceProbeSample) `mod` n else offset.

(** ** The prober *)
Section prober.
Context {C : Type} `{!PodReads C, !WorkloadAPI C, !ProbeNet C, !ProbeReads C} (env : Env).
(** The consecutive failures by probe, and the rotation. *)
Record prober := mkProber { np_fails : gmap string Z; np_offset : Z }.
Abbreviation M := (st (prober * GState C)).
Definition gated {A} (m : st (GState C) A) : M A := λ s, let r := m s.2 in (r.1, (s.1, r.2)).
Definition fails_of (key : string) (p : prober) : Z := default 0 (np_fails p !! key).
Definition failed (key : string) : M bool := λ s,
  let n := fails_of key s.1 + 1 in
  (n =? probeFailuresBeforeReport, (mkProber (<[key := n]> (np_fails s.1)) (np_offset s.1), s.2)).
Definition ok (key : string) : M unit := λ s,
  (tt, (mkProber (delete key (np_fails s.1)) (np_offset s.1), s.2)).
(** A failure that is the second in a row is told. *)
Definition fail_told (key : string) (f : finding C) : M unit :=
  let! due := failed key in if due : bool then gated (tell_one env f) else return! tt.
Definition nodeFinding (reason sev : string) (rung : Rung) (subject summary fix_ : string) : finding C :=
  a_finding reason "" ("node/" +:+ env_NodeName env) "" (env_NodeName env) sev rung subject summary [] fix_.
Definition look {A} (f : C → A) : M A := gated (read_cluster f).
Definition twice : string := itoa probeFailuresBeforeReport.

Definition probeDNS (host : string) (internal : bool) : M unit :=
  let! start := gated (clock env) in
  let! err := look (resolve host) in
  let! fin := gated (clock env) in
  let took := time_Sub fin start in
  match err with
  | Some e =>
    let '(fix_, rung) :=
      if internal
      then ("check CoreDNS (and NodeLocal DNSCache) and this node's network: pods here cannot resolve Service names", RungGuided)
      else ("the upstream DNS servers do not answer; check the cluster's forwarders and the node's resolvers", RungAlert) in
    fail_told ("dns:" +:+ host) (nodeFinding "DNSResolutionFailed" Events.SevCritical rung host
      ("cannot resolve `" +:+ host +:+ "` from this node, " +:+ twice +:+ " times in a row: " +:+ e) fix_)
  | None =>
    ok ("dns:" +:+ host) ;;;
    if dnsSlowAfter <? took
    then fail_told ("dnsslow:" +:+ host) (nodeFinding "DNSSlow" Events.SevWarning RungGuided host
           ("resolving `" +:+ host +:+ "` took " +:+ dur_String_ms (dur_Round_ms took) +:+ ", " +:+ twice +:+ " times in a row")
           "look at CoreDNS latency and load, and at NodeLocal DNSCache on this node")
    else ok ("dnsslow:" +:+ host)
  end.

Definition ns_targets (ns : string) : M (list probeTarget) :=
  let! svcs := look (probe_services ns) in
  match svcs with
  | inr _ => return! []
  | inl svcs =>
    let! slices := look (slices_in ns) in
    return! (match slices with inl sl => omap (service_target ns sl) svcs | inr _ => [] end)
  end.
Fixpoint all_targets (nss : list string) : M (list probeTarget) :=
  match nss with
  | [] => return! []
  | ns :: nss' => let! l := ns_targets ns in let! l' := all_targets nss' in return! (l ++ l')
  end.
Definition serviceTargets : M (list probeTarget) :=
  let! nss := gated (watched_of env) in
  let! l := all_targets nss in
  return! merge_sort key_le l.
Definition probe_service (t : probeTarget) : M unit :=
  let! err := look (dial (tg_addr t)) in
  match err with
  | Some e =>
    fail_told ("svc:" +:+ tg_key t) (nodeFinding "ServiceUnreachable" Events.SevCritical RungGuided (tg_svc t)
      ("cannot reach Service `" +:+ tg_svc t +:+ "` from this node although it has ready endpoints: " +:+ e)
      "pods on this node cannot use the Service: check kube-proxy (or the CNI's Service handling) on this node")
  | None => ok ("svc:" +:+ tg_key t)
  end.
Definition probeServices : M unit :=
  let! targets := serviceTargets in
  let! s := st_get in
  st_each probe_service (sampled (np_offset s.1) targets) ;;;
  st_modify (λ s, (mkProber (np_fails s.1) (next_offset (np_offset s.1) targets), s.2)).
Definition probeEgress (target : string) : M unit :=
  let! err := look (dial target) in
  match err with
  | Some e =>
    fail_told "egress" (nodeFinding "EgressBlocked" Events.SevWarning RungAlert target
      ("cannot reach `" +:+ target +:+ "` from this node: " +:+ e)
      "check egress NetworkPolicies, the node's routes, NAT gateway and firewall")
  | None => ok "egress"
  end.
Definition probeOnce (cfg : Probes) : M unit :=
  (if pb_DNS cfg
   then probeDNS ("kubernetes.default.svc." +:+ pb_ClusterDomain cfg) true ;;;
        if str_eqb (pb_ExternalName cfg) "" then return! tt else probeDNS (pb_ExternalName cfg) false
   else return! tt) ;;;
  (if pb_Services cfg then probeServices else return! tt) ;;;
  if str_eqb (pb_EgressTarget cfg) "" then return! tt else probeEgress (pb_EgressTarget cfg).
End prober.
Arguments prober : clear implicits.

(** ** The rotation *)
Definition offset_after (j : nat) (targets : list probeTarget) (o : Z) : Z := Nat.iter j (λ o, next_offset o targets) o.
Lemma offset_after_mod j targets o :
  targets ≠ [] → offset_after j targets o `mod` Z.of_nat (length targets)
                 = (o + serviceProbeSample * Z.of_nat j) `mod` Z.of_nat (length targets).
Proof.
  intros Hne. assert (0 < Z.of_nat (length targets)) as Hn by (destruct targets; [done|simpl; lia]).
  induction j as [|j IH]; [by rewrite Z.mul_0_r, Z.add_0_r|].
  change (offset_after (S j) targets o) with (next_offset (offset_after j targets o) targets).
  unfold next_offset. assert ((0 <? Z.of_nat (length targets)) = true) as -> by blia.
  rewrite Z.mod_mod, Z.add_mod, IH, <-Z.add_mod by lia. f_equal. rewrite Nat2Z.inj_succ. lia.
Qed.
Lemma elem_of_sampled o targets t :
  t ∈ sampled o targets ↔
  ∃ i, (0 ≤ i < Z.min (Z.of_nat (length targets)) serviceProbeSample)
       ∧ targets !! Z.to_nat ((o + i) `mod` Z.of_nat (length targets)) = Some t.
Proof.
  unfold sampled. rewrite list_elem_of_omap. split.
  - intros (i & Hi & Ht). apply elem_of_seq in Hi. exists (Z.of_nat i). split; [lia|done].
  - intros (i & Hi & Ht). exists (Z.to_nat i). rewrite elem_of_seq, Z2Nat.id by lia. split; [lia|done].
Qed.
(** While the Services stay the same, each is dialled within as many passes
    as it takes to go through them twenty at a time, wherever the rotation
    stands. *)
Theorem every_service_is_dialled targets o k t :
  (Z.of_nat (length targets) ≤ serviceProbeSample * Z.of_nat k) → t ∈ targets →
  ∃ j, (j < k)%nat ∧ t ∈ sampled (offset_after j targets o) targets.
Proof.
  intros Hk [m Hm]%list_elem_of_lookup. pose proof (lookup_lt_Some _ _ _ Hm) as Hlt.
  set (n := Z.of_nat (length targets)) in *. unfold serviceProbeSample in *.
  set (d := (Z.of_nat m - o) `mod` n). pose proof (Z.mod_pos_bound (Z.of_nat m - o) n ltac:(lia)) as Hd. fold d in Hd.
  assert (0 ≤ d / 20 ∧ d = 20 * (d / 20) + d `mod` 20 ∧ 0 ≤ d `mod` 20 < 20) as (Hj & Heq & Hi).
  { split_and!; [apply Z.div_pos; lia|apply Z.div_mod; lia|apply Z.mod_pos_bound; lia..]. }
  exists (Z.to_nat (d / 20)). split; [lia|]. apply elem_of_sampled. exists (d `mod` 20). fold n. unfold serviceProbeSample.
  split; [lia|]. rewrite Z.add_mod by lia. rewrite offset_after_mod by (by intros ->). fold n. unfold serviceProbeSample.
  rewrite <-Z.add_mod, Z2Nat.id by lia.
  assert ((o + 20 * (d / 20) + d `mod` 20) `mod` n = Z.of_nat m) as ->; [|by rewrite Nat2Z.id].
  replace (o + 20 * (d / 20) + d `mod` 20) with (o + d) by lia.
  unfold d. rewrite Z.add_mod_idemp_r by lia. replace (o + (Z.of_nat m - o)) with (Z.of_nat m) by lia.
  apply Z.mod_small. lia.
Qed.

Lemma every_service_is_dialled_witness :
  let targets := (λ i, mkTarget (itoa (Z.of_nat i)) "" "") <$> seq 0 45 in
  let t := mkTarget "44" "" "" in
  (Z.of_nat (length targets) ≤ serviceProbeSample * Z.of_nat 3) ∧ t ∈ targets
  ∧ ∃ j, (j < 3)%nat ∧ t ∈ sampled (offset_after j targets 37) targets.
Proof.
  intros targets t.
  assert (Z.of_nat (length targets) ≤ serviceProbeSample * Z.of_nat 3) as Hk by (vm_compute; congruence).
  assert (t ∈ targets) as Ht by (apply (list_elem_of_lookup_2 _ 44); reflexivity).
  split; [exact Hk|split; [exact Ht|]]. apply every_service_is_dialled; [exact Hk|exact Ht].
Defined.

(** ** What is told *)
Section told.
Context {C : Type} `{!PodReads C, !WorkloadAPI C, !ProbeNet C, !ProbeReads C} (env : Env).
Implicit Types (s : prober * GState C).

(** The length of the run of failures a list of results ends with. *)
Definition streak (n : Z) (bs : list bool) : Z := foldl (λ (n : Z) (b : bool), if b then n + 1 else 0) n bs.
Lemma fails_of_insert key n p o : fails_of key (mkProber (<[key := n]> (np_fails p)) o) = n.
Proof. unfold fails_of. cbn. by rewrite lookup_insert_eq. Qed.
Lemma fails_of_delete key p o : fails_of key (mkProber (delete key (np_fails p)) o) = 0.
Proof. unfold fails_of. cbn. by rewrite lookup_delete_eq. Qed.

Lemma probeEgress_step target s :
  let s' := (probeEgress env target s).2 in
  match dial target (gs_cluster s.2) with
  | None => fails_of "egress" s'.1 = 0 ∧ s'.2 = s.2
  | Some e => fails_of "egress" s'.1 = fails_of "egress" s.1 + 1
      ∧ ∃ f, s'.2 = if fails_of "egress" s.1 + 1 =? 2 then (tell_one env (f : finding C) s.2).2 else s.2
  end.
Proof.
  unfold probeEgress, look, gated, read_cluster, st_bind, fail_told. destruct s as [p g]. cbn [fst snd].
  destruct (dial target (gs_cluster g)) as [e|] eqn:Hd; cbn -[tell_one].
  - rewrite Hd. cbn -[tell_one]. unfold failed, st_bind. cbn -[tell_one fails_of]. unfold probeFailuresBeforeReport.
    destruct (fails_of "egress" p + 1 =? 2) eqn:E; cbn -[tell_one fails_of]; rewrite fails_of_insert; (split; [done|]).
    + by eexists.
    + by exists (a_finding "" "" "" "" "" "" RungAlert "" "" [] "").
  - rewrite Hd. cbn -[fails_of]. by rewrite fails_of_delete.
Qed.

(** Egress passes, with whatever happens to the agent and the cluster in
    between; the results of the connections. *)
Fixpoint egress_run (target : string) (between : list (GState C → GState C)) s : list bool * (prober * GState C) :=
  match between with
  | [] => ([], s)
  | f :: fs =>
    let g := f s.2 in
    let r := egress_run target fs (probeEgress env target (s.1, g)).2 in
    (bool_decide (is_Some (dial target (gs_cluster g))) :: r.1, r.2)
  end.
(** The count is that of the failures in a row; with [probeEgress_step], a
    pass tells of a failure exactly when it is the second in a row. *)
Theorem egress_counts_in_a_row target between s :
  let r := egress_run target between s in
  fails_of "egress" r.2.1 = streak (fails_of "egress" s.1) r.1.
Proof.
  cbv zeta. revert s. induction between as [|f fs IH]; intros s; [done|]. cbn [egress_run fst snd].
  rewrite IH. cbn [streak foldl]. fold (streak). unfold streak. f_equal.
  pose proof (probeEgress_step target (s.1, f s.2)) as Hs. cbn [fst snd] in Hs.
  destruct (dial target (gs_cluster (f s.2))) as [e|]; [rewrite bool_decide_true by done|rewrite bool_decide_false by (by intros [])]; tauto.
Qed.

(** A lookup that fails leaves the count of slow lookups: two slow ones with
    a failure between them are told as two in a row. *)
Theorem slow_count_survives_failure host internal s e :
  resolve host (gs_cluster s.2) = Some e →
  fails_of ("dnsslow:" +:+ host) (probeDNS env host internal s).2.1 = fails_of ("dnsslow:" +:+ host) s.1.
Proof.
  intros He. unfold probeDNS, look, gated, read_cluster, clock, fail_told, failed, st_bind. cbn. rewrite He.
  destruct internal; (destruct (_ =? probeFailuresBeforeReport); cbn; unfold fails_of; cbn;
    rewrite lookup_insert_ne by done; done).
Qed.

(** The probes read and tell; they change neither the cluster nor the
    budgets of the gate. *)
Definition gate_told s s' : Prop := same_but_told s.2 s'.2.
#[local] Instance gate_told_preorder : PreOrder gate_told.
Proof. unfold gate_told. split; [by intros s|]. intros s1 s2 s3 ??. by etrans. Qed.
Lemma gated_told {A} (m : st (GState C) A) : keeps same_but_told m → keeps gate_told (gated m).
Proof. intros Hm s. apply Hm. Qed.
Lemma clock_told : keeps (same_but_told (C := C)) (clock env).
Proof. intros s. by repeat split. Qed.
Lemma look_told {A} (f : C → A) : keeps gate_told (look f).
Proof. apply gated_told. intros s. by repeat split. Qed.
Lemma ok_told key : keeps gate_told (ok (C := C) key).
Proof. intros s. unfold gate_told, ok. by cbn. Qed.
Lemma fail_told_told key (f : finding C) : fn_Proposal f = None → keeps gate_told (fail_told env key f).
Proof.
  intros Hf. unfold fail_told. apply (keeps_bind gate_told); [intros s; unfold gate_told, failed; by cbn|].
  intros [|]; [|apply (keeps_ret gate_told)]. apply gated_told. unfold tell_one.
  apply (keeps_bind same_but_told); [by apply report_told|]. intros ?. apply (keeps_ret same_but_told).
Qed.
Lemma watched_told : keeps same_but_told (watched_of (C := C) env).
Proof. intros s. by repeat split. Qed.
Ltac probe_pass := repeat first
  [ lazymatch goal with
    | |- ∀ _, _ => intros ?
    | |- keeps _ (look _) => apply look_told
    | |- keeps _ (ok _) => apply ok_told
    | |- keeps _ (fail_told _ _ _) => by apply fail_told_told
    | |- keeps _ (gated (clock _)) => apply gated_told, clock_told
    | |- keeps _ (gated (watched_of _)) => apply gated_told, watched_told
    | |- keeps _ (st_ret _) => apply (keeps_ret gate_told)
    | |- keeps _ (st_bind _ _) => apply (keeps_bind gate_told)
    | |- keeps _ (st_each _ _) => apply (keeps_each gate_told)
    | |- keeps _ (match ?x with _ => _ end) => destruct x
    end ].
Lemma all_targets_told nss : keeps gate_told (all_targets (C := C) nss).
Proof. induction nss as [|ns nss IH]; cbn [all_targets]; unfold ns_targets; probe_pass. exact IH. Qed.
Theorem probes_only_tell cfg s : same_but_told s.2 (probeOnce env cfg s).2.2.
Proof.
  revert s. change (keeps gate_told (probeOnce (C := C) env cfg)).
  unfold probeOnce, probeServices, serviceTargets, probeDNS, probeEgress, probe_service. probe_pass.
  - apply all_targets_told.
  - intros s. by unfold gate_told.
  - intros s. by unfold gate_told.
Qed.
End told.
