(* ===== verification/Retention.v ===== *)
(** * Retention: removal of old log bundles (internal/kube/retention.go)

    A directory of the log store is a tree.  [cleanOldFiles] walks it and
    removes what was last modified before the cutoff, then the directories
    that leaves empty, by their paths, deepest first. *)
From S2P Require Import Prelude GoStd.
#[local] Open Scope Z_scope.

(** ** The file tree

    A file's modification time, unless its information cannot be read; the
    entries of a directory in the order a walk visits them, unless it cannot
    be read.  What is [stuck] cannot be removed. *)
Inductive tree :=
| File (info : option Time) (stuck : bool)
| Dir (listable stuck : bool) (entries : list (string * tree)).
Section tree_ind.
Context (P : tree → Prop).
Context (Hfile : ∀ i s, P (File i s)).
Context (Hdir : ∀ l s es, Forall (λ e, P e.2) es → P (Dir l s es)).
Fixpoint tree_rect' (t : tree) : P t :=
  match t with
  | File i s => Hfile i s
  | Dir l s es =>
    Hdir l s es ((fix go es : Forall (λ e, P e.2) es :=
      match es with
      | [] => List.Forall_nil _
      | e :: es' => List.Forall_cons _ e es' (tree_rect' e.2) (go es')
      end) es)
  end.
End tree_ind.

(** ** The clean-up *)

(** [filepath.WalkDir] with the function of [cleanOldFiles]: what is left of
    a tree, and how many files were removed. *)
Fixpoint clean (cutoff : Time) (t : tree) : option tree * Z :=
  match t with
  | File (Some m) stuck => if time_Before m cutoff && negb stuck then (None, 1) else (Some t, 0)
  | File None _ => (Some t, 0)
  | Dir false _ _ => (Some t, 0)
  | Dir true s es =>
    let r := (λ e, (e.1, clean cutoff e.2)) <$> es in
    (Some (Dir true s (omap (λ e, (λ t, (e.1, t)) <$> e.2.1) r)), foldr Z.add 0 ((λ e, e.2.2) <$> r))
  end.
(** The directories under a root, by their paths, as a walk meets them. *)
Fixpoint dirs_under (t : tree) : list (list string) :=
  match t with
  | Dir true _ es =>
    mjoin ((λ e, (λ p, e.1 :: p) <$> (match e.2 with Dir _ _ _ => [[]] | File _ _ => [] end ++ dirs_under e.2)) <$> es)
  | _ => []
  end.
Definition is_empty_dir (t : tree) : bool :=
  match t with Dir true false [] => true | _ => false end.
(** [os.ReadDir] and [os.Remove] of the directory at a path. *)
Fixpoint remove_at (p : list string) (t : tree) : tree :=
  match p, t with
  | n :: p', Dir true s es =>
    Dir true s (omap (λ e,
      if str_eqb e.1 n
      then match p' with
           | [] => if is_empty_dir e.2 then None else Some e
           | _ => Some (e.1, remove_at p' e.2)
           end
      else Some e) es)
  | _, _ => t
  end.
Definition removeEmptyDirs (t : tree) : tree := foldr remove_at t (dirs_under t).
(** A root that is a file can go itself. *)
Definition cleanOldFiles (cutoff : Time) (base : option tree) : option tree * Z :=
  match base with
  | None => (None, 0)
  | Some t => let r := clean cutoff t in (removeEmptyDirs <$> r.1, r.2)
  end.
(** The cutoff of a number of days: a duration is 64 bits wide. *)
Definition retention_days (days : Z) : Z := if days <=? 0 then 7 else days.
Definition maxAge (days : Z) : Duration := wrap64 (wrap64 (retention_days days * 24) * hour).
Definition cutoff_at (now : Time) (days : Z) : Time := time_Add now (dur_neg (maxAge days)).
Definition retention_runs (store : string) : bool := str_eqb store "efs" || str_eqb store "".
(** One round of [StartLogRetention]. *)
Definition retention_round (store : string) (days : Z) (now : Time) (base : option tree) : option tree :=
  if retention_runs store then (cleanOldFiles (cutoff_at now days) base).1 else base.

(** ** What is left *)

(** The files of a tree, by path. *)
Definition under {A} (n : string) (l : list (list string * A)) : list (list string * A) := (λ f, (n :: f.1, f.2)) <$> l.
Fixpoint files (t : tree) : list (list string * (option Time * bool)) :=
  match t with
  | File i s => [([], (i, s))]
  | Dir _ _ es => mjoin ((λ e, under e.1 (files e.2)) <$> es)
  end.
(** A file goes: its directories can be read, it is older than the cutoff,
    and it can be removed. *)
Definition goes (cutoff : Time) (i : option Time) (stuck : bool) : bool :=
  match i with Some m => time_Before m cutoff && negb stuck | None => false end.
Fixpoint left_over (cutoff : Time) (t : tree) : list (list string * (option Time * bool)) :=
  match t with
  | File i s => if goes cutoff i s then [] else [([], (i, s))]
  | Dir false _ _ => files t
  | Dir true _ es => mjoin ((λ e, under e.1 (left_over cutoff e.2)) <$> es)
  end.
Definition files_of (o : option tree) : list (list string * (option Time * bool)) :=
  match o with Some t => files t | None => [] end.

Lemma clean_entries cutoff (es : list (string * tree)) :
  Forall (λ e, files_of (clean cutoff e.2).1 = left_over cutoff e.2) es →
  mjoin ((λ e, under e.1 (files e.2)) <$>
         omap (λ e : string * (option tree * Z), (λ t, (e.1, t)) <$> e.2.1) ((λ e, (e.1, clean cutoff e.2)) <$> es))
  = mjoin ((λ e, under e.1 (left_over cutoff e.2)) <$> es).
Proof.
  induction 1 as [|e es He _ IH]; [done|]. cbn [fmap list_fmap omap list_omap fst snd].
  change (mjoin (?x :: ?l)) with (x ++ mjoin l). rewrite <-IH, <-He. unfold files_of.
  destruct (clean cutoff e.2).1 as [t'|]; [done|]. done.
Qed.
(** What the walk leaves is what does not go, under its path, in order. *)
Lemma clean_files cutoff t : files_of (clean cutoff t).1 = left_over cutoff t.
Proof.
  induction t as [i s|l s es IH] using tree_rect'.
  - destruct i as [m|]; [|done]. cbn. by destruct (_ && _).
  - destruct l; [|done]. by apply clean_entries.
Qed.

(** ** The directories left empty *)

(** The same by recursion: a directory goes when nothing is left in it. *)
Definition drop_empty (n : string) (t : tree) : option (string * tree) := if is_empty_dir t then None else Some (n, t).
Fixpoint sweep (t : tree) : tree :=
  match t with
  | Dir true s es => Dir true s (omap (λ e, drop_empty e.1 (sweep e.2)) es)
  | _ => t
  end.
Fixpoint distinct (t : tree) : Prop :=
  match t with
  | Dir _ _ es => NoDup es.*1 ∧ foldr (λ e P, distinct e.2 ∧ P) True es
  | File _ _ => True
  end.
Lemma distinct_entries (es : list (string * tree)) : foldr (λ e P, distinct e.2 ∧ P) True es ↔ Forall (λ e, distinct e.2) es.
Proof.
  induction es as [|e es IH]; [by split|]. cbn. rewrite IH. split; [by intros []; constructor|by inversion 1].
Qed.

(** The directories of one entry. *)
Definition block (e : string * tree) : list (list string) :=
  (λ p, e.1 :: p) <$> (match e.2 with Dir _ _ _ => [[]] | File _ _ => [] end ++ dirs_under e.2).
Definition at_entry (n : string) (f : tree → tree) (es : list (string * tree)) : list (string * tree) :=
  (λ e, if str_eqb e.1 n then (e.1, f e.2) else e) <$> es.
Lemma remove_at_entry n p s f es :
  p ≠ [] → remove_at (n :: p) (Dir true s (at_entry n f es)) = Dir true s (at_entry n (λ t, remove_at p (f t)) es).
Proof.
  intros Hp. cbn [remove_at]. f_equal. unfold at_entry. induction es as [|e es IH]; [done|].
  cbn [fmap list_fmap omap list_omap]. rewrite IH. destruct p as [|q p]; [done|].
  destruct (str_eqb e.1 n) eqn:E; cbn [fst snd]; by rewrite E.
Qed.
Lemma remove_under_entry n ps s es :
  Forall (λ p, p ≠ []) ps →
  foldr remove_at (Dir true s es) ((λ p, n :: p) <$> ps) = Dir true s (at_entry n (λ t, foldr remove_at t ps) es).
Proof.
  induction 1 as [|p ps Hp _ IH]; cbn [fmap list_fmap foldr].
  - f_equal. unfold at_entry. induction es as [|[m t] es IHes]; [done|]. cbn. rewrite <-IHes. by destruct (str_eqb m n).
  - rewrite IH, remove_at_entry by done. done.
Qed.
Lemma dirs_under_nonempty t : Forall (λ p, p ≠ []) (dirs_under t).
Proof.
  destruct t as [|[] s es]; [constructor| |constructor]. cbn [dirs_under].
  induction es as [|e es IH]; [constructor|]. apply Forall_app. split; [|exact IH].
  apply Forall_forall. intros p (q & -> & _)%list_elem_of_fmap. done.
Qed.
(** Entries with other names are left alone. *)
Lemma at_entry_other n f es : n ∉ es.*1 → at_entry n f es = es.
Proof.
  intros Hn. unfold at_entry. induction es as [|e es IH]; [done|]. rewrite fmap_cons, not_elem_of_cons in Hn.
  destruct Hn as [Hne Hn]. cbn [fmap list_fmap]. rewrite (IH Hn). unfold str_eqb. by rewrite bool_decide_false by congruence.
Qed.
Lemma drop_other n (es : list (string * tree)) :
  n ∉ es.*1 → omap (λ e, if str_eqb e.1 n then if is_empty_dir e.2 then None else Some e else Some e) es = es.
Proof.
  intros Hn. induction es as [|e es IH]; [done|]. rewrite fmap_cons, not_elem_of_cons in Hn. destruct Hn as [Hne Hn].
  cbn [omap list_omap]. unfold str_eqb at 1. rewrite bool_decide_false by congruence. by rewrite (IH Hn).
Qed.
Lemma remove_block e s pre post :
  e.1 ∉ pre.*1 → e.1 ∉ post.*1 → foldr remove_at e.2 (dirs_under e.2) = sweep e.2 →
  foldr remove_at (Dir true s (pre ++ e :: post)) (block e)
  = Dir true s (pre ++ option_list (drop_empty e.1 (sweep e.2)) ++ post).
Proof.
  intros Hpre Hpost Hsw. destruct e as [n t]. cbn [fst snd] in *. unfold block. cbn [fst snd].
  rewrite fmap_app, foldr_app, remove_under_entry by apply dirs_under_nonempty.
  assert (at_entry n (λ t0, foldr remove_at t0 (dirs_under t)) (pre ++ (n, t) :: post) = pre ++ (n, sweep t) :: post) as ->.
  { unfold at_entry. rewrite fmap_app, fmap_cons. fold (at_entry n (λ t0, foldr remove_at t0 (dirs_under t)) pre).
    fold (at_entry n (λ t0, foldr remove_at t0 (dirs_under t)) post). rewrite !at_entry_other by done. cbn [fst snd].
    unfold str_eqb. by rewrite bool_decide_true, Hsw by done. }
  destruct t as [i st|l st es]; [done|]. cbn [fmap list_fmap foldr remove_at]. f_equal.
  rewrite omap_app, (drop_other n pre Hpre). f_equal. cbn [omap list_omap fst snd]. unfold str_eqb at 1.
  rewrite bool_decide_true, (drop_other n post Hpost) by done. unfold drop_empty. by destruct (is_empty_dir _).
Qed.
Definition swept (e : string * tree) : option (string * tree) := drop_empty e.1 (sweep e.2).
Lemma swept_names es n : n ∈ (omap swept es).*1 → n ∈ es.*1.
Proof.
  intros (e & -> & (e0 & He0 & Hs)%list_elem_of_omap)%list_elem_of_fmap. unfold swept, drop_empty in Hs.
  destruct (is_empty_dir _); [done|]. injection Hs as <-. apply list_elem_of_fmap. by exists e0.
Qed.
Lemma sweep_entries s pre es :
  NoDup (pre ++ es).*1 → Forall (λ e, foldr remove_at e.2 (dirs_under e.2) = sweep e.2) es →
  foldr remove_at (Dir true s (pre ++ es)) (mjoin (block <$> es)) = Dir true s (pre ++ omap swept es).
Proof.
  intros Hnd Hall. revert pre Hnd. induction Hall as [|e es He _ IH]; intros pre Hnd; [done|].
  cbn [fmap list_fmap]. change (mjoin (block e :: (block <$> es))) with (block e ++ mjoin (block <$> es)).
  rewrite foldr_app. specialize (IH (pre ++ [e])). rewrite <-!app_assoc in IH. cbn [app] in IH. rewrite IH by done.
  rewrite fmap_app, fmap_cons in Hnd. apply NoDup_app in Hnd as (_ & Hdis & Hnd). apply NoDup_cons in Hnd as [Hn _].
  rewrite remove_block; [| |by intros Hin%swept_names|done].
  - f_equal. f_equal. change (drop_empty e.1 (sweep e.2)) with (swept e). cbn [omap list_omap]. by destruct (swept e).
  - intros Hin. apply (Hdis _ Hin). by left.
Qed.
(** Removing by path, deepest first, is the recursion. *)
Lemma removeEmptyDirs_sweep t : distinct t → removeEmptyDirs t = sweep t.
Proof.
  unfold removeEmptyDirs. induction t as [|l s es IH] using tree_rect'; [done|]. intros [Hnd Hd].
  destruct l; [|done]. rewrite distinct_entries in Hd.
  change (dirs_under (Dir true s es)) with (mjoin (block <$> es)).
  apply (sweep_entries s []); [done|]. clear Hnd. induction IH as [|e es He _ IHes]; [constructor|].
  inversion Hd; subst. constructor; [by apply He|by apply IHes].
Qed.
Lemma sweep_files t : files (sweep t) = files t.
Proof.
  induction t as [|l s es IH] using tree_rect'; [done|]. destruct l; [|done]. cbn [sweep files].
  induction IH as [|e es He _ IHes]; [done|]. cbn [fmap list_fmap omap list_omap].
  change (mjoin (?x :: ?l)) with (x ++ mjoin l). rewrite <-IHes, <-He. unfold drop_empty.
  destruct (is_empty_dir (sweep e.2)) eqn:E; [|done]. destruct (sweep e.2) as [|[] [] []]; done.
Qed.
(** No directory that could be removed is empty, below the root. *)
Fixpoint no_empty (t : tree) : Prop :=
  match t with
  | Dir true _ es => foldr (λ e P, is_empty_dir e.2 = false ∧ no_empty e.2 ∧ P) True es
  | _ => True
  end.
Lemma sweep_no_empty t : no_empty (sweep t).
Proof.
  induction t as [|l s es IH] using tree_rect'; [done|]. destruct l; [|done]. cbn [sweep no_empty].
  induction IH as [|e es He _ IHes]; [done|]. cbn [omap list_omap]. unfold drop_empty at 1.
  destruct (is_empty_dir (sweep e.2)) eqn:E; [done|]. by cbn.
Qed.
Lemma clean_distinct cutoff t : distinct t → match (clean cutoff t).1 with Some t' => distinct t' | None => True end.
Proof.
  induction t as [i s|l s es IH] using tree_rect'.
  { intros _. destruct i; [|done]. cbn. by destruct (_ && _). }
  destruct l; [|done]. intros [Hnd Hd]. rewrite distinct_entries in Hd. cbn [clean fst distinct]. rewrite distinct_entries.
  induction IH as [|e es He _ IHes]; [by split; constructor|]. cbn [fmap list_fmap omap list_omap fst snd] in *.
  apply NoDup_cons in Hnd as [Hn Hnd]. inversion Hd as [|? ? Hd1 Hd2]; subst. destruct (IHes Hnd Hd2) as [IH1 IH2].
  specialize (He Hd1). destruct (clean cutoff e.2).1 as [t'|]; [|done]. cbn [fmap option_fmap option_map list_fmap fst].
  split; [apply NoDup_cons; split; [|done]|by constructor].
  intros (x & Hx & (y & (z & -> & Hz)%list_elem_of_fmap & Hy)%list_elem_of_omap)%list_elem_of_fmap.
  apply fmap_Some in Hy as (t0 & _ & ->). apply Hn. apply list_elem_of_fmap. by exists z.
Qed.
Lemma clean_counts cutoff t : (clean cutoff t).2 = Z.of_nat (length (files t)) - Z.of_nat (length (left_over cutoff t)).
Proof.
  induction t as [i s|l s es IH] using tree_rect'.
  { destruct i as [m|]; [|done]. cbn. by destruct (_ && _). }
  destruct l; [|cbn; lia]. cbn [clean snd files left_over].
  induction IH as [|e es He _ IHes]; [done|]. cbn [fmap list_fmap foldr fst snd].
  change (mjoin (?x :: ?l)) with (x ++ mjoin l). rewrite !length_app, IHes, He. unfold under. rewrite !length_fmap. lia.
Qed.

(** A clean-up removes exactly the files that go: those last modified before
    the cutoff, in directories that can be read, that can be removed.  What
    stays keeps its path, the count is the number removed, and no directory
    that could be removed is left empty. *)
Theorem cleanOldFiles_exact cutoff t :
  distinct t →
  let r := cleanOldFiles cutoff (Some t) in
  files_of r.1 = left_over cutoff t
  ∧ r.2 = Z.of_nat (length (files t)) - Z.of_nat (length (left_over cutoff t))
  ∧ match r.1 with Some t' => no_empty t' | None => True end.
Proof.
  intros Hd. cbn [cleanOldFiles fst snd]. pose proof (clean_distinct cutoff t Hd) as Hc.
  rewrite clean_counts, <-!clean_files. destruct (clean cutoff t).1 as [t'|]; [|done].
  cbn [fmap option_fmap option_map files_of]. rewrite removeEmptyDirs_sweep, sweep_files by done.
  split_and!; [done..|apply sweep_no_empty].
Qed.

(** More than 106751 days overflow the duration: the cutoff is then in the
    future, and every file goes that was not modified after it. *)
Theorem long_retention_removes_recent_files :
  let now := 63_000_000_000 * second in
  now < cutoff_at now 200000
  ∧ cleanOldFiles (cutoff_at now 200000) (Some (Dir true false [("new.log", File (Some now) false)]))
    = (Some (Dir true false []), 1).
Proof. vm_compute. done. Qed.

Lemma cleanOldFiles_exact_witness :
  let old := File (Some (10 * hour)) false in
  let t := Dir true false [("a", Dir true false [("x.log", old); ("y.log", File (Some (50 * hour)) false)]);
                           ("b", Dir true false [("d", Dir true false [("z.log", old)])])] in
  let r := cleanOldFiles (20 * hour) (Some t) in
  r = (Some (Dir true false [("a", Dir true false [("y.log", File (Some (50 * hour)) false)])]), 2)
  ∧ files_of r.1 = left_over (20 * hour) t ∧ r.2 = Z.of_nat (length (files t)) - Z.of_nat (length (left_over (20 * hour) t)).
Proof.
  intros old t r. split; [vm_compute; reflexivity|].
  assert (distinct t) as Hd.
  { cbn. repeat split; try (apply (bool_decide_unpack _); vm_compute; exact I). }
  destruct (cleanOldFiles_exact (20 * hour) t Hd) as (H1 & H2 & _). split; [exact H1|exact H2].
Defined.
