(* ===== verification/SelfCheck.v ===== *)
(** * SelfCheck: the agent's own dependencies (internal/kube/selfcheck.go)

    The endpoints that are set are asked; what does not answer is told, once
    per deduplication window. *)
From S2P Require Import Prelude GoStd Policy RateLimit Guards Events Escalation Gate Findings.
#[local] Open Scope Z_scope.
#[local] Open Scope agent_scope.

(** A GET of a URL: the status, or the error of the request. *)
Class HttpGet (C : Type) := { http_get : string → C → Z + string }.
Record SelfCheckEndpoints := mkEndpoints { PrometheusURL : string; SlackWebhookURL : string; AlertmanagerURL : string }.

Section selfcheck.
Context {C : Type} `{!HttpGet C} (env : Env).
Definition httpCheck (url : string) (c : C) : option string :=
  match http_get url c with
  | inr e => Some e
  | inl status => if 500 <=? status then Some ("status " +:+ itoa status) else None
  end.
Definition issue_of (url path : string) (text : string → string) (c : C) : list string :=
  if str_eqb url "" then [] else match httpCheck (url +:+ path) c with Some e => [text e] | None => [] end.
Definition issues (e : SelfCheckEndpoints) (c : C) : list string :=
  issue_of (PrometheusURL e) "/-/healthy" (λ err, "Prometheus unreachable (" +:+ PrometheusURL e +:+ "): " +:+ err) c
  ++ issue_of (SlackWebhookURL e) "" (λ err, "Slack webhook unreachable: " +:+ err) c
  ++ issue_of (AlertmanagerURL e) "/-/healthy" (λ err, "Alertmanager unreachable (" +:+ AlertmanagerURL e +:+ "): " +:+ err) c.
Definition self_message (l : list string) : string :=
  "*Agent Self-Check Failed*" +:+ nl +:+ foldr (λ i acc, "- " +:+ i +:+ nl +:+ acc) "" l.
Definition SelfCheck (e : SelfCheckEndpoints) : st (GState C) unit :=
  let! l := (let! s := st_get in return! issues e (gs_cluster s)) in
  if bool_decide (l = []) then return! tt
  else
    let! ok := dedup_check env (dedupKey "" "self" "SelfCheckFailed") in
    match ok with
    | Some true =>
      postSlack (self_message l) ;;;
      recordEvent env (mkEvent 0 0 Events.Info Events.SevWarning "" "" "" "" "SelfCheckFailed"
        (itoa (Z.of_nat (length l)) +:+ " dependency issues detected") "" "" "" "" "" "")
    | _ => return! tt
    end.

(** Nothing is told when every endpoint that is set answers below 500; and
    whatever happens, the cluster and the budgets stay as they are. *)
Theorem SelfCheck_tells e s :
  ((∀ url, url ∈ [PrometheusURL e +:+ "/-/healthy"; SlackWebhookURL e; AlertmanagerURL e +:+ "/-/healthy"] →
      ∃ status, http_get url (gs_cluster s) = inl status ∧ status < 500) →
   (SelfCheck e s).2 = s)
  ∧ same_but_told s (SelfCheck e s).2.
Proof.
  split.
  - intros Hok. assert (issues e (gs_cluster s) = []) as Hi.
    { unfold issues, issue_of, httpCheck.
      assert (∀ url text, url ∈ [PrometheusURL e +:+ "/-/healthy"; SlackWebhookURL e; AlertmanagerURL e +:+ "/-/healthy"] →
        match match http_get url (gs_cluster s) with
              | inr err => Some err
              | inl status => if 500 <=? status then Some ("status " +:+ itoa status) else None
              end with Some err => [text err] | None => [] end = ([] : list string)) as Hu.
      { intros url text (status & -> & Hs)%Hok. assert ((500 <=? status) = false) as -> by blia. done. }
      rewrite str_app_nil_r. rewrite !Hu by set_solver. by repeat case_match. }
    unfold SelfCheck, st_bind, st_get, st_ret. by rewrite Hi.
  - revert s. change (keeps same_but_told (SelfCheck e)). unfold SelfCheck.
    apply (keeps_bind same_but_told); [intros s; by repeat split|]. intros l. case_bool_decide; [apply (keeps_ret _)|].
    apply (keeps_bind same_but_told); [apply dedup_check_told|]. intros [[]|]; try apply (keeps_ret same_but_told).
    apply (keeps_bind same_but_told); [apply postSlack_told|]. intros _. apply recordEvent_told.
Qed.
End selfcheck.
