(* ===== verification/Compliance.v ===== *)
(** * Compliance: internal/kube/compliance.go

    The report computed from the event log: incidents, those a verified fix
    followed, blocked and performed actions.  The log may hold the events of
    several nodes in any order; the report does not depend on it. *)
From S2P Require Import Prelude GoStd Events Calendar.
#[local] Open Scope Z_scope.

Record ComplianceReport := mkReport {
  cr_Period : string; cr_TotalIncidents : Z; cr_AutoRemediated : Z; cr_ManualRequired : Z; cr_Blocked : Z;
  cr_AvgMTTRSeconds : float64; cr_IncidentsByReason : gmap string Z; cr_IncidentsByNs : gmap string Z;
  cr_ActionsByType : gmap string Z; cr_RemediationRate : float64; cr_UptimeSeconds : float64
}.
Definition workload_key (e : Event) : string := ev_Namespace e +:+ "/" +:+ ev_Workload e.
Definition is_verified_fix (e : Event) : bool :=
  str_eqb (ev_Type e) Action && str_eqb (ev_Action e) "verified-fix".
(** The times of the verified fixes of a workload. *)
Definition fix_times (evts : list Event) (k : string) : list Time :=
  ev_Timestamp <$> filter (λ e, is_verified_fix e = true ∧ workload_key e = k) evts.
Definition after_step (t : Time) (best : option Time) (x : Time) : option Time :=
  if negb (time_Before x t) && match best with Some b => time_Before x b | None => true end then Some x else best.
(** The earliest time at or after [t]. *)
Definition firstAfter (ts : list Time) (t : Time) : option Time := foldl (after_step t) None ts.

(** The counts of the loop. *)
Record tally := mkTally {
  ta_total : Z; ta_auto : Z; ta_blocked : Z; ta_mttr : Duration;
  ta_reasons : gmap string Z; ta_ns : gmap string Z; ta_actions : gmap string Z
}.
Definition bump (k : string) (m : gmap string Z) : gmap string Z := <[k := default 0 (m !! k) + 1]> m.
Definition count_event (fixes : string → list Time) (since : Time) (t : tally) (e : Event) : tally :=
  if time_Before (ev_Timestamp e) since then t
  else if str_eqb (ev_Type e) Incident then
    let fixed := firstAfter (fixes (workload_key e)) (ev_Timestamp e) in
    mkTally (ta_total t + 1) (ta_auto t + match fixed with Some _ => 1 | None => 0 end) (ta_blocked t)
      (match fixed with Some x => wrap64 (ta_mttr t + time_Sub x (ev_Timestamp e)) | None => ta_mttr t end)
      (bump (ev_Reason e) (ta_reasons t)) (bump (ev_Namespace e) (ta_ns t)) (ta_actions t)
  else if str_eqb (ev_Type e) Audit then
    if str_eqb (ev_Result e) "success" then
      mkTally (ta_total t) (ta_auto t) (ta_blocked t) (ta_mttr t) (ta_reasons t) (ta_ns t) (bump (ev_Action e) (ta_actions t))
    else if str_eqb (ev_Result e) "blocked" then
      mkTally (ta_total t) (ta_auto t) (ta_blocked t + 1) (ta_mttr t) (ta_reasons t) (ta_ns t) (ta_actions t)
    else t
  else t.
Definition no_tally : tally := mkTally 0 0 0 0 ∅ ∅ ∅.
Definition ComplianceFromEvents (evts : list Event) (since now started : Time) : ComplianceReport :=
  let t := foldl (count_event (fix_times evts) since) no_tally evts in
  mkReport (format_date since +:+ " to " +:+ format_date now)
    (ta_total t) (ta_auto t) (ta_total t - ta_auto t) (ta_blocked t)
    (if 0 <? ta_auto t then f64_div (dur_in second (ta_mttr t)) (f64_of_Z (ta_auto t)) else f64_zero)
    (ta_reasons t) (ta_ns t) (ta_actions t)
    (if 0 <? ta_total t
     then f64_mul (f64_div (f64_of_Z (ta_auto t)) (f64_of_Z (ta_total t))) (f64_of_Z 100) else f64_zero)
    (dur_in second (time_Sub now started)).

(** ** The order of the log *)
Lemma foldl_perm {A B} (f : A → B → A) l l' a :
  (∀ a x y, f (f a x) y = f (f a y) x) → l ≡ₚ l' → foldl f a l = foldl f a l'.
Proof.
  intros Hf Hp. revert a. induction Hp as [|x l l' _ IH|x y l|l1 l2 l3 _ IH1 _ IH2]; intros a; cbn [foldl]; auto.
  - by rewrite Hf.
  - by rewrite IH1.
Qed.
Lemma after_step_comm t b x y : after_step t (after_step t b x) y = after_step t (after_step t b y) x.
Proof.
  unfold after_step, time_Before.
  destruct (Z.ltb_spec x t), (Z.ltb_spec y t); cbn [negb andb]; try done; try (by destruct b);
    destruct b as [b|]; repeat match goal with |- context [?u <? ?v] => destruct (Z.ltb_spec u v) end; cbn; try done;
    repeat match goal with |- context [?u <? ?v] => destruct (Z.ltb_spec u v) end; cbn; try done; try (f_equal; lia); lia.
Qed.
Lemma firstAfter_spec ts t :
  match firstAfter ts t with
  | Some x => x ∈ ts ∧ t ≤ x ∧ ∀ y, y ∈ ts → t ≤ y → x ≤ y
  | None => ∀ y, y ∈ ts → y < t
  end.
Proof.
  unfold firstAfter. induction ts as [|y ts IH] using rev_ind; [by intros y ?%elem_of_nil|].
  rewrite foldl_app. cbn [foldl]. set (b := foldl _ None ts) in *. clearbody b. unfold after_step, time_Before.
  destruct (Z.ltb_spec y t); cbn [negb andb].
  - destruct b as [x|]; [|intros z [?| ->%list_elem_of_singleton]%elem_of_app; [by apply IH|done]].
    destruct IH as (? & ? & Hm). split_and!; [set_solver|done|].
    intros z [?| ->%list_elem_of_singleton]%elem_of_app ?; [by apply Hm|lia].
  - destruct b as [x|]; [destruct (Z.ltb_spec y x)|].
    + destruct IH as (? & ? & Hm). split_and!; [set_solver|done|].
      intros z [Hz| ->%list_elem_of_singleton]%elem_of_app ?; [|done]. specialize (Hm z Hz). lia.
    + destruct IH as (? & ? & Hm). split_and!; [set_solver|done|].
      intros z [?| ->%list_elem_of_singleton]%elem_of_app ?; [by apply Hm|lia].
    + split_and!; [set_solver|done|]. intros z [Hz| ->%list_elem_of_singleton]%elem_of_app ?; [|done].
      specialize (IH z Hz). lia.
Qed.
Lemma bump_comm k k' m : bump k (bump k' m) = bump k' (bump k m).
Proof.
  unfold bump. destruct (decide (k = k')) as [->|Hne]; [done|].
  rewrite !lookup_insert_ne by done. by rewrite insert_insert_ne.
Qed.
Lemma wrap64_add_l a b : wrap64 (wrap64 a + b) = wrap64 (a + b).
Proof.
  unfold wrap64. f_equal. replace ((a + 2 ^ 63) mod 2 ^ 64 - 2 ^ 63 + b + 2 ^ 63) with ((a + 2 ^ 63) mod 2 ^ 64 + b) by lia.
  rewrite Z.add_mod_idemp_l by done. f_equal. lia.
Qed.
Lemma count_event_comm fixes since t e e' :
  count_event fixes since (count_event fixes since t e) e' = count_event fixes since (count_event fixes since t e') e.
Proof.
  unfold count_event.
  destruct (time_Before (ev_Timestamp e) since), (time_Before (ev_Timestamp e') since); try done.
  destruct (str_eqb (ev_Type e) Incident), (str_eqb (ev_Type e') Incident); cbn;
    try (destruct (str_eqb (ev_Type e) Audit); destruct (str_eqb (ev_Result e) "success"), (str_eqb (ev_Result e) "blocked"); done);
    try (destruct (str_eqb (ev_Type e') Audit); destruct (str_eqb (ev_Result e') "success"), (str_eqb (ev_Result e') "blocked"); done).
  - destruct (firstAfter _ (ev_Timestamp e)), (firstAfter _ (ev_Timestamp e')); f_equal; try lia; try apply bump_comm.
    rewrite !wrap64_add_l. f_equal. lia.
  - destruct (str_eqb (ev_Type e) Audit), (str_eqb (ev_Type e') Audit); try done;
    destruct (str_eqb (ev_Result e) "success"), (str_eqb (ev_Result e) "blocked"),
      (str_eqb (ev_Result e') "success"), (str_eqb (ev_Result e') "blocked"); cbn; f_equal; try done; apply bump_comm.
Qed.

Lemma fix_times_perm evts evts' k t :
  evts ≡ₚ evts' → firstAfter (fix_times evts k) t = firstAfter (fix_times evts' k) t.
Proof.
  intros Hp. apply foldl_perm; [apply after_step_comm|]. unfold fix_times. by rewrite Hp.
Qed.
(** The report is the same for the log in any order. *)
Theorem compliance_any_order evts evts' since now started :
  evts ≡ₚ evts' → ComplianceFromEvents evts since now started = ComplianceFromEvents evts' since now started.
Proof.
  intros Hp. unfold ComplianceFromEvents.
  assert (foldl (count_event (fix_times evts) since) no_tally evts
          = foldl (count_event (fix_times evts') since) no_tally evts') as ->; [|done].
  rewrite (foldl_perm _ evts evts' _ (count_event_comm (fix_times evts) since) Hp).
  assert (∀ l a, foldl (count_event (fix_times evts) since) a l = foldl (count_event (fix_times evts') since) a l) as Hs; [|apply Hs].
  intros l. induction l as [|e l IH]; intros a; [done|]. cbn [foldl]. rewrite IH. f_equal.
  unfold count_event. by rewrite (fix_times_perm evts evts' (workload_key e) (ev_Timestamp e) Hp).
Qed.

(** ** What it counts *)
Definition counted (evts : list Event) (since : Time) (f : Event → bool) : Z :=
  Z.of_nat (length (filter (λ e, since ≤ ev_Timestamp e ∧ f e = true) evts)).
Definition is_incident (e : Event) : bool := str_eqb (ev_Type e) Incident.
(** A verified fix of the workload came at or after the incident. *)
Definition remediated (evts : list Event) (e : Event) : bool :=
  existsb (λ x, is_verified_fix x && str_eqb (workload_key x) (workload_key e) && (ev_Timestamp e <=? ev_Timestamp x)) evts.
Lemma remediated_spec evts e :
  remediated evts e = match firstAfter (fix_times evts (workload_key e)) (ev_Timestamp e) with Some _ => true | None => false end.
Proof.
  pose proof (firstAfter_spec (fix_times evts (workload_key e)) (ev_Timestamp e)) as H. unfold remediated.
  destruct (firstAfter _ _) as [t|].
  - apply existsb_exists. destruct H as (Hin & Ht & _). apply list_elem_of_fmap in Hin as (x & -> & ([Hf Hk] & Hx)%list_elem_of_filter).
    exists x. rewrite list_elem_of_In in Hx. rewrite Hf, Hk, str_eqb_refl. split; [done|by apply Z.leb_le].
  - apply not_true_iff_false. intros (x & Hx & Hc)%existsb_exists. apply andb_true_iff in Hc as [[Hf Hk%str_eqb_eq]%andb_true_iff Ht%Z.leb_le].
    specialize (H (ev_Timestamp x)). rewrite <-list_elem_of_In in Hx.
    assert (ev_Timestamp x ∈ fix_times evts (workload_key e)) as Hin by (apply list_elem_of_fmap; exists x; split; [done|by apply list_elem_of_filter]).
    specialize (H Hin). lia.
Qed.
Lemma counted_snoc evts e since f :
  counted (evts ++ [e]) since f = counted evts since f + if negb (time_Before (ev_Timestamp e) since) && f e then 1 else 0.
Proof.
  unfold counted, time_Before. rewrite filter_app, length_app, filter_cons, filter_nil.
  destruct (Z.ltb_spec (ev_Timestamp e) since); cbn [negb andb].
  - rewrite decide_False by (intros []; lia). simpl. lia.
  - destruct (f e) eqn:Hf; [rewrite decide_True by done|rewrite decide_False by (intros []; done)]; simpl; lia.
Qed.
(** The counts: of the incidents since then, those a verified fix of the
    workload followed count as remediated and the others as manual; a
    blocked action is an audit event that says so. *)
Theorem compliance_counts evts since now started :
  let r := ComplianceFromEvents evts since now started in
  cr_TotalIncidents r = counted evts since is_incident
  ∧ cr_AutoRemediated r = counted evts since (λ e, is_incident e && remediated evts e)
  ∧ cr_ManualRequired r = counted evts since (λ e, is_incident e && negb (remediated evts e))
  ∧ cr_Blocked r = counted evts since (λ e, str_eqb (ev_Type e) Audit && str_eqb (ev_Result e) "blocked")
  ∧ 0 ≤ cr_AutoRemediated r ≤ cr_TotalIncidents r.
Proof.
  cbv zeta. unfold ComplianceFromEvents. cbn [cr_TotalIncidents cr_AutoRemediated cr_ManualRequired cr_Blocked].
  set (fixes := fix_times evts).
  assert (∀ l, let t := foldl (count_event fixes since) no_tally l in
    ta_total t = counted l since is_incident ∧ ta_auto t = counted l since (λ e, is_incident e && remediated evts e)
    ∧ ta_total t - ta_auto t = counted l since (λ e, is_incident e && negb (remediated evts e))
    ∧ ta_blocked t = counted l since (λ e, str_eqb (ev_Type e) Audit && str_eqb (ev_Result e) "blocked")) as Hall.
  { intros l. cbv zeta. induction l as [|e l IH] using rev_ind; [done|]. rewrite foldl_app. cbn [foldl].
    set (t := foldl _ no_tally l) in *. clearbody t. rewrite !counted_snoc. destruct IH as (H1 & H2 & H3 & H4).
    rewrite remediated_spec. unfold count_event, is_incident in *. fold fixes. cbv beta.
    destruct (time_Before (ev_Timestamp e) since); cbn [negb andb]; [split_and!; lia|].
    destruct (str_eqb (ev_Type e) Incident) eqn:Hi; cbn [negb andb].
    - apply str_eqb_eq in Hi. rewrite Hi. change (str_eqb Incident Audit) with false. cbn.
      destruct (firstAfter (fixes (workload_key e)) (ev_Timestamp e)); cbn; split_and!; lia.
    - destruct (str_eqb (ev_Type e) Audit); cbn [andb]; [|split_and!; lia].
      destruct (str_eqb (ev_Result e) "success") eqn:Hs; [apply str_eqb_eq in Hs; rewrite Hs; change (str_eqb "success" "blocked") with false; cbn; split_and!; lia|].
      destruct (str_eqb (ev_Result e) "blocked"); cbn; split_and!; lia. }
  destruct (Hall evts) as (H1 & H2 & H3 & H4). split_and!; [done..| |]; unfold counted in *; lia.
Qed.

Example compliance_runs :
  let ev t typ ns reason action result := mkEvent 0 t typ "" ns "web" "" "" reason "" action "" "" "" result "" in
  let r := ComplianceFromEvents
    [ev (20 * second) Incident "shop" "OOM" "" ""; ev (50 * second) Action "shop" "OOM" "verified-fix" "";
     ev (30 * second) Incident "pay" "OOM" "" ""; ev (5 * second) Incident "shop" "Old" "" "";
     ev (31 * second) Audit "pay" "OOM" "evict_pod" "blocked"] (10 * second) (60 * second) 0 in
  (cr_TotalIncidents r, cr_AutoRemediated r, cr_ManualRequired r, cr_Blocked r) = (2, 1, 1, 1)
  ∧ (fmt_1f (cr_AvgMTTRSeconds r), fmt_1f (cr_RemediationRate r)) = ("30.0", "50.0").
Proof. vm_compute. done. Qed.
