(* ===== verification/Passes.v ===== *)
(** * Passes: the leader's checks with the approval queue behind them

    The checks of WorkloadChecks, NetChecks, ClusterChecks, SecurityChecks
    and MetricChecks, run with the stored queue of Approvals: a change they
    propose waits there for an approver, and none of them touches the
    cluster. *)
From S2P Require Import Prelude GoStd Policy RateLimit Guards Events Escalation Gate Kube.
From S2P Require Import K8s Fixes Approvals Wire ApprovalsStore Calendar Metrics Findings PodStates Workloads.
From S2P Require Import Detectors WorkloadChecks NetChecks ClusterChecks SecurityChecks MetricChecks.
#[local] Open Scope Z_scope.
#[local] Open Scope agent_scope.

Section passes.
Context {C Spec W Sel : Type} `{!ClusterAPI C Spec, !ConfigMapAPI W, !ConfigMapView W,
  !ConfigMapLaws W, !QueueCodec, !RangeOrder}.
Context `{!PodReads C, !WorkloadAPI C, !WorkloadReads C, !NetReads C Sel, !ClusterReads C,
  !SecurityReads C, !MetricObjects C, !PromServer C}.
(** [x509.ParseCertificate] of the first PEM block, and the provider. *)
Context (parse_certificate : string → option Certificate) (provider : Provider).
Context (env : Env) (others : nat → W → W) (fix_error_text : fix_error → string) (retries : nat).
Context (Hothers : ∀ n w, later w (others n w)).
Context (oa : option Approvals) (new_id : nat → option string) (err_text : approval_error → string)
  (post_buttons : st (GState C) unit) (Hpost : keeps same_but_told post_buttons).
(** The ticket of a pending claim, opened with the agent's state at hand. *)
Context (ticket : string → string → string → string → st (QSys C W) unit).

#[local] Instance queue_of : ProposalQueue C (QSys C W) :=
  stored_queue env others fix_error_text retries format_RFC3339 oa new_id err_text post_buttons.
Definition leader_passes (tls : bool) : list (st (QSys C W) unit) := [
  CheckStatefulSetStuck (C := C) env; CheckDaemonSetMissing (C := C) env; CheckHPAIssues (C := C) env;
  CheckCronJobMissed (C := C) env; CheckDeploymentPaused (C := C) env; CheckReplicaSetFailure (C := C) env;
  CheckNetworkPolicyBlocks (Sel := Sel) (C := C) env; CheckNetworkIssues (Sel := Sel) (C := C) env tls;
  CheckSystemNetworkPods (Sel := Sel) (C := C) env; CheckSandboxFailures (Sel := Sel) (C := C) env;
  CheckStorageIssues (C := C) env; CheckStuckFinalizers (C := C) env; CheckDisruptionBudgets (C := C) env;
  CheckPendingPVCs (C := C) env ticket; CheckNodeHealth (C := C) env; CheckNodeExtended (C := C) env;
  CheckSecurityIssues (C := C) env parse_certificate tls; CheckWebhookBlocking (C := C) env;
  CheckRBACDenied (C := C) env; CheckResourceQuotas (C := C) env; CheckAnomalies (C := C) env provider;
  CheckResourcePressure (C := C) env (Some provider); CheckControlPlane (C := C) env (Some provider);
  CheckConntrack (C := C) env (Some provider); CheckCoreDNS (C := C) env (Some provider)].

Lemma leader_passes_quiet tls p :
  (∀ a b c d, keeps only_queued (ticket a b c d)) → p ∈ leader_passes tls → keeps only_queued p.
Proof.
  intros Ht. revert p. apply Forall_forall.
  assert (QuietQueue (C := C) only_queued) as Hq by (by apply stored_quiet).
  destruct (workload_passes_quiet (C := C) env only_queued) as (?&?&?&?&?&?).
  destruct (network_passes_quiet (C := C) (Sel := Sel) env only_queued tls) as (?&?&?&?).
  destruct (cluster_passes_quiet (C := C) env only_queued ticket Ht) as (?&?&?&?&?&?).
  destruct (security_passes_quiet (C := C) env only_queued parse_certificate tls provider) as (?&?&?&?&?).
  destruct (metric_passes_quiet (C := C) env (Some provider) only_queued) as (?&?&?&?).
  repeat (apply Forall_cons; split; [done|]). by apply Forall_nil.
Qed.

(** Whatever the checks find, and whatever change they propose for it, they
    leave the cluster as it is: after any passes in any order no change has
    been made; a proposal only waits in the queue. *)
Theorem passes_only_propose tls passes s :
  (∀ a b c d, keeps only_queued (ticket a b c d)) →
  Forall (λ p, p ∈ leader_passes tls) passes →
  same_cluster (qs_gate s) (qs_gate (foldl (λ s p, (p s).2) s passes)).
Proof.
  intros Ht Hps. change (only_queued s (foldl (λ s p, (p s).2) s passes)).
  assert (∀ p, p ∈ leader_passes tls → keeps only_queued p) as Hall by (intros p; by apply leader_passes_quiet).
  revert s. induction Hps as [|p ps Hp _ IH]; intros s; cbn [foldl]; [done|].
  etrans; [exact (Hall p Hp s)|apply IH].
Qed.
End passes.

(** ** A run *)
Module PassesDemo.
Import QueueDemo.
#[export] Existing Instances range_sorted wire_codec SimpleAPI.api SimpleAPI.view SimpleAPI.laws QueueDemo.cluster.
(** An autoscaler at its maximum, and a Service no policy lets traffic into. *)
#[export] Instance pods : PodReads Z :=
  {| pods_in _ _ := inl []; events_in _ _ := inl []; namespaces_of _ := Some ["shop"; "kube-system"] |}.
#[export] Instance workloads : WorkloadReads Z := {|
  statefulsets_in _ _ := inl []; daemonsets_in _ _ := inl []; selected_pods _ _ _ := inl [];
  hpas_in _ _ := inl [mkHPA "shop" "web" "Deployment" "web" (Some 2) 10 10 10
                        [mkCondition "ScalingLimited" "True" "TooManyReplicas" "the desired count is more than the maximum" 0]];
  cronjobs_in _ _ := inl []; events_of _ _ _ := []; pausable_in _ _ := inl []; replicasets_of _ _ := inl [] |}.
Definition web : NetService := mkNetService "shop" "web" {["app" := "web"]} "ClusterIP" [StrPort "http"; IntPort 9090] 0 0.
Definition web_pod : NetPod := mkNetPod {["app" := "web"]} [mkContainerPort "http" 8080; mkContainerPort "metrics" 9090].
Definition policy : NetworkPolicy (gmap string string) :=
  mkNetworkPolicy (gmap string string) "deny" ∅ ["Ingress"] [[mkPolicyPort (Some (IntPort 9000)) (Some 9100)]].
#[export] Instance network : NetReads Z (gmap string string) := {|
  sel_Matches sel labels := Some (selects sel labels);
  policies_in _ _ := inl [policy]; net_services_in _ _ := inl [web]; net_pods_in _ _ := inl [web_pod];
  ingresses_in _ _ := inl []; net_events_in _ _ := inl []; pods_labelled _ _ _ := inl [];
  tls_secrets_in _ _ := inl [] |}.
#[export] Instance deployments : WorkloadAPI Z := {|
  deployments_in _ _ := inl []; replicasets_in _ _ := inl []; get_deploy _ _ _ := inr "not found";
  update_deploy _ _ _ c := (c, None); conflict_text := "conflict"; failed_pods _ _ := inl [];
  services_in _ _ := inl []; slices_in _ _ := inl []; selector_text _ := "" |}.
#[export] Instance cluster_reads : ClusterReads Z := {|
  pvcs_in _ _ := inl []; storageclasses _ := inl ∅; claims_of _ := []; all_namespaces _ := inl [];
  pdbs_in _ _ := inl []; all_nodes _ := inl []; pods_on _ _ _ := inl []; events_about _ _ _ := [] |}.
#[export] Instance security_reads : SecurityReads Z := {|
  secrets_of_tls _ _ := inl []; limitranges_in _ _ := inl []; sec_events_in _ _ := inl []; quotas_in _ _ := inl [] |}.
#[export] Instance metric_objects : MetricObjects Z := {|
  container_cpu _ _ := mkCPU 0 "0" "0"; milli_text n := pretty n; capacity_of _ := (0, "0"); class_expands _ _ := false |}.
(** A node whose connection tracking table is full; no other query has
    samples. *)
#[export] Instance prom : PromServer Z := {|
  prom_get q _ := inl (200, q);
  prom_decode q := inl (mkAnswer "success"
    (if str_eqb q "node_nf_conntrack_entries / node_nf_conntrack_entries_limit"
     then [({["instance" := "10.0.0.1:9100"]}, Some "0.99")] else [])) |}.
Definition provider : Provider := Prom.
Definition no_ticket (_ _ _ _ : string) : st sys unit := return! tt.
Definition passes : list (st sys unit) :=
  leader_passes (Sel := gmap string string) (λ _, None) provider env others no_text 4 (Some queue) (λ n, Some "id1") (λ _, "error")
    (return! tt) no_ticket false.
Definition after : sys := foldl (λ s p, (p s).2) start passes.
End PassesDemo.
#[local] Existing Instances range_sorted wire_codec SimpleAPI.api SimpleAPI.view SimpleAPI.laws QueueDemo.cluster.
#[local] Existing Instances PassesDemo.pods PassesDemo.workloads PassesDemo.network PassesDemo.deployments
  PassesDemo.cluster_reads PassesDemo.security_reads PassesDemo.metric_objects PassesDemo.prom.

(** One pass over each: the change of the autoscaler waits, and nothing was
    called on the cluster. *)
Example passes_run :
  (λ q, (m_ActionType (pa_m q), m_SuggestMsg (pa_m q), pa_state q)) <$> (qs_items PassesDemo.after !! "id1")
    = Some ("raise_hpa_max", "raise maxReplicas of autoscaler web from 10 to 15", "pending")
  ∧ gs_cluster (qs_gate PassesDemo.after) = 0
  ∧ fn_Summary <$> policyBlocks (C := Z) PassesDemo.web [PassesDemo.web_pod] [PassesDemo.policy]
    = ["no NetworkPolicy allows traffic in to port http, so the Service drops every connection"].
Proof. vm_compute. done. Qed.

Lemma passes_only_propose_witness :
  size (qs_items PassesDemo.after) = 1%nat
  ∧ same_cluster (qs_gate QueueDemo.start) (qs_gate PassesDemo.after).
Proof.
  split; [vm_compute; reflexivity|].
  apply (passes_only_propose (Sel := gmap string string) (λ _, None) PassesDemo.provider QueueDemo.env QueueDemo.others QueueDemo.no_text 4
    QueueDemo.others_later (Some QueueDemo.queue) (λ n, Some "id1") (λ _, "error") (return! tt)
    (keeps_ret same_but_told tt) PassesDemo.no_ticket false).
  - intros a b c d s. by unfold only_queued.
  - apply Forall_forall. done.
Defined.

Lemma policyBlocks_exact_witness :
  let target := StrPort "http" in
  target ∈ nv_TargetPorts PassesDemo.web
  ∧ ((∃ names, block_finding (C := Z) PassesDemo.web target names
                 ∈ policyBlocks (C := Z) PassesDemo.web [PassesDemo.web_pod] [PassesDemo.policy]
               ∧ Some names = blocked_by (C := Z) target (backing_pods PassesDemo.web [PassesDemo.web_pod]) [PassesDemo.policy])
     ↔ nv_Selector PassesDemo.web ≠ ∅
       ∧ (∃ p, p ∈ [PassesDemo.web_pod] ∧ nv_Selector PassesDemo.web ⊆ np_Labels p)
       ∧ ∀ p, p ∈ [PassesDemo.web_pod] ∧ nv_Selector PassesDemo.web ⊆ np_Labels p →
              unreachable (C := Z) target [PassesDemo.policy] p).
Proof.
  intros target. assert (target ∈ nv_TargetPorts PassesDemo.web) as Ht by (left).
  split; [exact Ht|]. apply policyBlocks_exact. exact Ht.
Defined.
