(* ===== verification/Confinement.v ===== *)
(** * Confinement: what each component can change, and where

    A view of the cluster per namespace (the empty name for the objects
    without one).  The API calls stay in the namespace they name
    ([NamespacedCalls], the documented scope of each call), and the gate runs
    a change only in fix mode and in the fix scope, and audits it.  Together
    ([accounted]): whatever a component of the agent does, a namespace looks
    as before unless its policy may fix there and a new audit entry tells of a
    change there.  Agent composes these facts along the runs of the whole
    agent. *)
From S2P Require Import Prelude GoStd Policy RateLimit Guards Events Escalation Gate Kube.
From S2P Require Import FixTracker Learning Calendar Fixes Findings GitopsContent Scheduling PodStates.
From S2P Require Import K8s Approvals Wire ApprovalsQueue ApprovalsStore Routing SlackActions Detectors.
From S2P Require Import Reload Scaler Nodes Handlers Workloads Jobs Watcher.
#[local] Open Scope Z_scope.
#[local] Open Scope agent_scope.

(** The policy may change things there. *)
Definition may_fix (p : Policy) (ns : string) : Prop := Mode_ p = Fix ∧ in_fix_scope p ns.
#[export] Instance may_fix_dec p ns : Decision (may_fix p ns).
Proof. unfold may_fix, in_fix_scope. apply _. Defined.

(** The audit entry of a change carried out there, in the mode of the policy. *)
Definition entry_for (p : Policy) (ns : string) (e : AuditEntry) : Prop :=
  au_Namespace e = ns ∧ au_Mode e = Mode_ p ∧ (au_Result e = "success" ∨ au_Result e = "failed").
(** The policy may change things there, and new entries of the audit log
    tell that it did. *)
Definition accountable (p : Policy) (new : list AuditEntry) (ns : string) : Prop :=
  may_fix p ns ∧ ∃ e, e ∈ new ∧ entry_for p ns e.
#[export] Instance entry_for_dec p ns e : Decision (entry_for p ns e).
Proof. unfold entry_for. apply _. Defined.
#[export] Instance accountable_dec p new ns : Decision (accountable p new ns).
Proof.
  refine (cast_if_and (decide (may_fix p ns)) (decide (Exists (entry_for p ns) new)));
    unfold accountable; rewrite <-?Exists_exists; tauto.
Defined.

(** The namespace a call on the API names. *)
Definition call_namespace {Spec} (k : kubeCall Spec) : string :=
  match k with
  | PatchHPAMaxReplicas ns _ _ | PatchDeploymentPaused ns _ _ | PatchPVCStorage ns _ _
  | DeletePod ns _ | CreateJob ns _ | PatchCPULimit _ ns _ _ _ => ns
  end.

Section view.
Context {C V : Type} (view : string → C → V).
Implicit Types (c : C) (s : GState C) (m : mutation C).

(** Two clusters that look alike but in [ns]. *)
Definition only_in (ns : string) c c' : Prop := ∀ ns', ns' ≠ ns → view ns' c' = view ns' c.
Definition nowhere c c' : Prop := ∀ ns, view ns c' = view ns c.
#[export] Instance only_in_preorder ns : PreOrder (only_in ns).
Proof. unfold only_in. split; [done|]. intros x y z Hx Hy n Hn. by rewrite Hy, Hx. Qed.

(** What the calls can change: a namespaced call nothing of another
    namespace, a call on a node nothing of any, and the GitOps repository is
    not in the cluster. *)
Class NamespacedCalls (Spec : Type) `{!HandlerServices C, !NodeAPI C, !ScalerAPI C, !ReloadAPI C, !WorkloadAPI C,
    !JobAPI C, !ClusterAPI C Spec} : Prop := {
  nc_delete_pod ns name c : only_in ns c (delete_pod ns name c).1;
  nc_commit ch c : nowhere c (gitops_commit ch c).1;
  nc_open ch c : nowhere c (gitops_open ch c).1;
  nc_patch_node name b mark c : only_in "" c (patch_node name b mark c).1;
  nc_evict ns name c : only_in ns c (evict_pod ns name c).1;
  nc_scale ns name n anno ts c : only_in ns c (patch_scale ns name n anno ts c).1;
  nc_template k ns name key hash c : only_in ns c (patch_template k ns name key hash c).1;
  nc_update ns name d c : only_in ns c (update_deploy ns name d c).1;
  nc_job ns name c : only_in ns c (delete_job ns name c).1;
  nc_kube (k : kubeCall Spec) c : only_in (call_namespace k) c (kube_call k c).1
}.

(** A mutation that stays in its namespace. *)
Definition local_change m : Prop := ∀ c, only_in (m_Namespace m) c (m_Apply m c).1.

(** [accounted p]: what a policy does not answer for is as it was. *)
Definition accounted_by (p : Policy) (new : list AuditEntry) s s' : Prop :=
  audits (gs_trace s') = audits (gs_trace s) ++ new
  ∧ ∀ ns, ¬ accountable p new ns → view ns (gs_cluster s') = view ns (gs_cluster s).
Definition accounted (p : Policy) s s' : Prop := ∃ new, accounted_by p new s s'.
Lemma accountable_app p l l' ns : ¬ accountable p (l ++ l') ns → ¬ accountable p l ns ∧ ¬ accountable p l' ns.
Proof. unfold accountable. intros H. split; intros (? & e & ? & ?); apply H; (split; [done|exists e; set_solver]). Qed.
#[export] Instance accounted_preorder p : PreOrder (accounted p).
Proof.
  split; [intros s; exists []; split; [by rewrite app_nil_r|done]|].
  intros x y z (l & Hl & Hx) (l' & Hl' & Hy). exists (l ++ l'). split; [by rewrite Hl', Hl, app_assoc|].
  intros ns [H1 H2]%accountable_app. by rewrite Hy, Hx.
Qed.
Definition accounted_r {T} (p : Policy) (s s' : T * GState C) : Prop := accounted p s.2 s'.2.
#[export] Instance accounted_r_preorder {T} p : PreOrder (@accounted_r T p).
Proof. unfold accounted_r. split; [by intros s|]. intros x y z ??. by etrans. Qed.

Lemma same_cluster_accounted p s s' : same_cluster s s' → accounted p s s'.
Proof. intros (Hc & _ & [l Hl]). exists l. split; [done|]. intros ns _. by rewrite Hc. Qed.
Lemma frame_accounted p s s' : gs_cluster s' = gs_cluster s → gs_trace s' = gs_trace s → accounted p s s'.
Proof. intros. by apply same_cluster_accounted, same_cluster_frame. Qed.
Lemma told_accounted p s s' : same_but_told s s' → accounted p s s'.
Proof. intros [Hc _]. by apply same_cluster_accounted. Qed.

(** The gate carries a local change through where it may, and says so in the
    audit log. *)
Lemma gate_accounted env m :
  env_AuditLog env = true → local_change m → keeps (accounted (env_Policy env)) (applyMutation env m).
Proof.
  intros Hlog Hl s. destruct (gate_cluster env m s) as [Hc Hw]. pose proof (gate_same env m s) as Hs.
  pose proof (gate_audited env m s Hlog) as Ha. unfold cluster_effect in Hc. unfold audited in Ha.
  destruct (applyMutation env m s) as [[o msg] s']; cbn [fst snd] in *.
  destruct (decide (o = gateApplied ∨ o = gateFailed)) as [Ho|Ho]; [|apply same_cluster_accounted, Hs; tauto].
  assert (gs_cluster s' = (m_Apply m (gs_cluster s)).1) as Hrun by (by destruct Ho as [->| ->]; apply Hc).
  destruct (decide (o = gateSkipped)) as [->|_]; [by destruct Ho|]. destruct Ha as (detail & Ha & _).
  eexists. split; [exact Ha|]. intros ns Hns. rewrite Hrun. apply Hl. intros ->. apply Hns. split; [by apply Hw|].
  eexists. split; [by left|]. split_and!; [done|done|]. cbn [au_Result]. by destruct Ho as [->| ->]; auto.
Qed.

Lemma right_accounted {T A} p (m : st (GState C) A) : keeps (accounted p) m → keeps (accounted_r (T := T) p) (st_right m).
Proof. intros Hm [t s]. specialize (Hm s). unfold accounted_r, st_right. cbn. by destruct (m s). Qed.
Lemma left_accounted {T A} p (m : st T A) : keeps (accounted_r p) (st_left (T := GState C) m).
Proof. intros [t s]. unfold accounted_r, st_left. cbn. by destruct (m t). Qed.
Lemma nothing_accounted {A} p (m : st (option FixTracker * GState C) A) : keeps nothing m → keeps (accounted_r p) m.
Proof. intros Hm s. destruct (Hm s) as [_ Hc]. by apply same_cluster_accounted. Qed.
Lemma same_accounted {A} p (m : st (GState C) A) : keeps same_cluster m → keeps (accounted p) m.
Proof. intros Hm s. by apply same_cluster_accounted. Qed.
End view.
#[export] Hint Extern 0 (accounted _ _ _ _) => exact (frame_accounted _ _ _ _ eq_refl eq_refl) : core.
#[export] Hint Extern 0 (accounted_r _ _ _ _) => exact (frame_accounted _ _ _ _ eq_refl eq_refl) : core.
#[export] Hint Resolve nothing_accounted same_accounted left_accounted : agent.

(** ** The components one by one *)
Section components.
Context {C Spec V : Type} `{!HandlerServices C, !NodeAPI C, !ScalerAPI C, !ReloadAPI C, !WorkloadAPI C,
  !JobAPI C, !ClusterAPI C Spec, !PodReads C, !ClusterReader C, !YAML, !RangeOrder}.
Context (view : string → C → V) `{!NamespacedCalls view Spec} (env : Env) (hd : HandlerDeps).
Context (Hlog : env_AuditLog env = true).
Implicit Types (m : mutation C).
Abbreviation U := (accounted view (env_Policy env)).
Abbreviation UR := (accounted_r view (env_Policy env)).

Lemma gate_right {T} m :
  local_change view m → keeps (accounted_r (T := T) view (env_Policy env)) (st_right (applyMutation env m)).
Proof. intros Hl. by apply right_accounted, gate_accounted. Qed.
Lemma read_accounted {A} (f : C → A) : keeps UR (Handlers.read f).
Proof. intros s. by apply frame_accounted. Qed.

(** *** A pod's trouble *)
Ltac quiet_part := apply nothing_accounted; solve
  [ auto with agent | apply gate_nothing; auto with agent | apply gate_nothing; unfold postSlack, fireAlert, recordEvent, auditAction, dedup_check, dedup_check_for; solve_keeps ].
Lemma track_accounted a b c d e : keeps UR (track (C := C) env a b c d e).
Proof.
  intros s. destruct (track_spec env a b c d e s) as [Hc _]. by apply same_cluster_accounted.
Qed.
Lemma tryFixAction_accounted ns wl pod labels reason act (apply_ : C → C * option string) a b :
  (∀ c, only_in view ns c (apply_ c).1) →
  keeps UR (tryFixAction env ns wl pod labels reason act apply_ a b).
Proof.
  intros Hl. unfold tryFixAction. apply (keeps_bind UR); [by apply gate_right|]. intros r.
  destruct (negb _); [apply (keeps_ret UR)|]. apply (keeps_bind UR); [apply track_accounted|]. intros _.
  apply (keeps_bind UR); [quiet_part|intros _; apply (keeps_ret UR)].
Qed.
(** A pull request changes the repository, nothing in the cluster. *)
Lemma pull_request_accounted ch :
  keeps UR (Handlers.gate (λ g : GState C, let o := gitops_open ch (gs_cluster g) in (o.2, set_cluster o.1 g))).
Proof.
  intros [ft g]. exists []. split; [by rewrite app_nil_r|]. intros ns _.
  exact (nc_open view ch (gs_cluster g) ns).
Qed.
Ltac handler_step := first
  [ quiet_part | apply read_accounted | apply pull_request_accounted
  | apply tryFixAction_accounted; intros ?; apply (nc_delete_pod view)
  | apply gate_right; intros ? ? ?; apply (nc_commit view _ _)
  | apply (keeps_ret UR) | apply (keeps_get UR) | apply (keeps_bind UR); [|intros ?]
  | match goal with |- keeps _ (match ?x with _ => _ end) => destruct x end ].
Lemma memoryBumpGitOps_accounted p ns wl c lim url : keeps UR (memoryBumpGitOps env hd p ns wl c lim url).
Proof. unfold memoryBumpGitOps, memoryBumpChange, live_commit, open_pr. repeat handler_step. Qed.
Lemma handle_accounted p pr : keeps UR (handle env hd p pr).
Proof.
  destruct pr; cbn [handle]; unfold handleInitContainerFailure, handleCrashLoop, handleImagePullBackOff, handleOOM,
    handleNotReady, try_delete; repeat first [apply memoryBumpGitOps_accounted|handler_step];
    apply nothing_accounted; first [apply handleConfigError_nothing|apply handleRestartStorm_nothing
      |apply handleAdditionalPodIssue_nothing|apply handlePending_nothing].
Qed.

(** *** A node under pressure *)
Lemma dedup_check_accounted key : keeps U (dedup_check env key).
Proof. intros s. by apply told_accounted, dedup_check_told. Qed.
Lemma postSlack_accounted msg : keeps U (postSlack msg).
Proof. apply same_accounted. unfold postSlack. solve_keeps. Qed.
Lemma evict_all_accounted pods t : keeps U (evict_all env pods t).
Proof.
  revert t. induction pods as [|p pods IH]; intros t; cbn [evict_all]; [apply (keeps_ret U)|].
  destruct (negb (evictable env p)); [done|]. apply (keeps_bind U); [apply (keeps_get U)|]. intros s.
  apply (keeps_bind U).
  - apply gate_accounted; [done|]. intros c. apply (nc_evict view).
  - intros r. case_bool_decide; [apply (keeps_ret U)|done].
Qed.
Lemma handleNodePressure_accounted n : keeps U (handleNodePressure env n).
Proof.
  assert (Hp : ∀ b mark r a su sg, keeps U (applyMutation env (node_mutation n r a su sg (patch_node (n_Name n) b mark)))).
  { intros. apply gate_accounted; [done|]. intros c. apply (nc_patch_node view). }
  unfold handleNodePressure, pressure_resolved, relieve, cordon, uncordon.
  repeat first [ apply Hp | apply dedup_check_accounted | apply postSlack_accounted | apply evict_all_accounted
    | apply (keeps_ret U) | apply (keeps_get U) | apply (keeps_bind U); [|intros ?]
    | match goal with |- keeps _ (match ?x with _ => _ end) => destruct x end ].
Qed.
Lemma run_job_accounted j : keeps UR (run_job env hd j).
Proof. destruct j as [p pr|n]; cbn [run_job]; [apply handle_accounted|apply right_accounted, handleNodePressure_accounted]. Qed.

(** *** The scaler *)
Lemma scale_read_accounted {A} (f : C → A) : keeps U (Scaler.read f).
Proof. intros s. by apply frame_accounted. Qed.
Lemma inCooldown_accounted d key cd : keeps U (inCooldown env d key cd).
Proof. intros s. unfold inCooldown. by destruct (last_scaled d key). Qed.
Lemma scaleDeployment_accounted d a b anno r act : keeps U (scaleDeployment env d a b anno r act).
Proof.
  unfold scaleDeployment. apply (keeps_bind U); [by intros s|]. intros now. apply gate_accounted; [done|]. intros c. apply (nc_scale view).
Qed.
Lemma scaling_event_accounted ns d r msg : keeps U (scaling_event env ns d r msg).
Proof. apply same_accounted. unfold scaling_event, recordEvent. solve_keeps. Qed.
Lemma query_active_accounted q : keeps U (query_active (C := C) q).
Proof.
  unfold query_active. destruct (str_eqb q ""); [apply (keeps_ret U)|].
  apply (keeps_bind U); [apply scale_read_accounted|]. intros ?. apply (keeps_ret U).
Qed.
Lemma evaluateGates_accounted gates : keeps U (evaluateGates (C := C) gates).
Proof.
  unfold evaluateGates. repeat first [ apply query_active_accounted | apply (keeps_ret U)
    | apply (keeps_bind U); [|intros ?] | match goal with |- keeps _ (match ?x with _ => _ end) => destruct x end ].
Qed.
Ltac scaler_step := first
  [ apply scale_read_accounted | apply inCooldown_accounted | apply scaleDeployment_accounted | apply scaling_event_accounted
  | apply evaluateGates_accounted | apply postSlack_accounted | apply (keeps_ret U) | apply (keeps_bind U); [|intros ?]
  | match goal with |- keeps _ (match ?x with _ => _ end) => destruct x end ].
Lemma scale_one_accounted gates learning ns d : keeps U (scale_one env gates learning ns d).
Proof. unfold scale_one, leave_to_hpa, deploymentHasHPA, scale_up, scale_down. repeat scaler_step. Qed.
Lemma EvaluateAndScale_accounted gates learning : keeps U (EvaluateAndScale env gates learning).
Proof.
  assert (Hall : ∀ ns ds, keeps U (scale_all env gates learning ns ds)).
  { intros ns ds. induction ds as [|d ds IH]; cbn [scale_all]; [apply (keeps_ret U)|].
    apply (keeps_bind U); [apply scale_one_accounted|]. intros ?. apply (keeps_bind U); [done|]. intros ?. apply (keeps_ret U). }
  unfold EvaluateAndScale. apply (keeps_bind U); [apply scale_read_accounted|]. intros l.
  generalize (watchedNamespaces (env_Policy env) l). intros nss.
  induction nss as [|ns nss IH]; cbn [scale_namespaces]; [apply (keeps_ret U)|].
  apply (keeps_bind U); [apply scale_read_accounted|]. intros dl. apply (keeps_bind U); [destruct dl; [done|apply (keeps_ret U)]|].
  intros ?. apply (keeps_bind U); [done|]. intros ?. apply (keeps_ret U).
Qed.

(** *** Rollouts, Jobs and evicted pods *)
Lemma retry_update_local n ns name f (c : C) : only_in view ns c (retry_update n ns name f c).1.
Proof.
  revert c. induction n as [|n IH]; intros c; cbn [retry_update]; [done|].
  destruct (get_deploy ns name c) as [d|e]; [|done].
  pose proof (nc_update view ns name (f d) c) as Hu. destruct (update_deploy ns name (f d) c) as [c' [[]|]]; cbn in *; try done.
  by etrans; [exact Hu|apply IH].
Qed.
Lemma delete_pods_local ns names (c : C) : only_in view ns c (delete_pods ns names c).1.
Proof.
  revert c. induction names as [|n names IH]; intros c; cbn [delete_pods]; [done|].
  pose proof (nc_delete_pod view ns n c) as Hd. destruct (delete_pod ns n c) as [c1 err]. specialize (IH c1).
  destruct (delete_pods ns names c1) as [c2 [k errs]]. cbn in *. by destruct err; etrans.
Qed.
Lemma delete_jobs_local ns names (c : C) : only_in view ns c (delete_jobs ns names c).1.
Proof.
  revert c. induction names as [|n names IH]; intros c; cbn [delete_jobs]; [done|].
  pose proof (nc_job view ns n c) as Hd. destruct (delete_job ns n c) as [c1 err]. specialize (IH c1).
  destruct (delete_jobs ns names c1) as [c2 errs]. cbn in *. by etrans.
Qed.
Ltac pass_step := first
  [ quiet_part | apply read_accounted | apply tryFixAction_accounted; intros c; apply retry_update_local
  | apply gate_right; intros c; first [apply delete_pods_local|apply delete_jobs_local]
  | apply (keeps_ret UR) | apply (keeps_get UR) | apply (keeps_bind UR); [|intros ?]
  | match goal with |- keeps _ (match ?x with _ => _ end) => destruct x end ].
Lemma each_ns_accounted f nss : (∀ ns, keeps UR (f ns)) → keeps UR (each_ns (C := C) f nss).
Proof.
  intros Hf. induction nss as [|ns nss IH]; cbn [each_ns]; [apply (keeps_ret UR)|].
  apply (keeps_bind UR); [apply Hf|by intros _].
Qed.
Lemma watched_ns_accounted : keeps UR (watched_ns (C := C) env).
Proof. apply read_accounted. Qed.

Lemma handleStuckRollout_accounted d : keeps UR (handleStuckRollout env hd d).
Proof. unfold handleStuckRollout, rollbackDeployment. repeat pass_step. Qed.
Lemma CheckStuckRollouts_accounted : keeps UR (CheckStuckRollouts env hd).
Proof.
  assert (Hall : ∀ ns l, keeps UR (stuck_all env hd ns l)).
  { intros ns l. induction l as [|d l IH]; cbn [stuck_all]; [apply (keeps_ret UR)|].
    apply (keeps_bind UR); [|by intros _].
    repeat first [apply handleStuckRollout_accounted | pass_step]. }
  unfold CheckStuckRollouts. apply (keeps_bind UR); [apply watched_ns_accounted|]. intros nss. apply each_ns_accounted. intros ns.
  repeat first [apply Hall | pass_step].
Qed.
Lemma CleanupEvictedPods_accounted : keeps UR (CleanupEvictedPods (C := C) env).
Proof.
  unfold CleanupEvictedPods. apply (keeps_bind UR); [apply watched_ns_accounted|]. intros nss. apply each_ns_accounted. intros ns.
  unfold cleanup_ns. repeat pass_step.
Qed.
Lemma handleFailedJob_accounted j : keeps UR (handleFailedJob (C := C) env j).
Proof. unfold handleFailedJob, job_logs, cleanupOldFailedJobs. repeat pass_step. Qed.
Lemma CheckFailedJobs_accounted : keeps UR (CheckFailedJobs (C := C) env).
Proof.
  assert (Hall : ∀ ns now l, keeps UR (check_jobs (C := C) env ns now l)).
  { intros ns now l. induction l as [|j l IH]; cbn [check_jobs]; [apply (keeps_ret UR)|].
    apply (keeps_bind UR); [|by intros _]. unfold check_job.
    repeat first [apply handleFailedJob_accounted | pass_step]. }
  unfold CheckFailedJobs. apply (keeps_bind UR); [apply watched_ns_accounted|]. intros nss. apply each_ns_accounted. intros ns.
  repeat first [apply Hall | pass_step].
Qed.

(** *** Config reload *)
Lemma reading_accounted {A} (f : C → A) : keeps UR (reading f).
Proof. intros s. by apply frame_accounted. Qed.
Lemma modify_r_accounted f : keeps UR (modify_r (C := C) f).
Proof. apply left_accounted. Qed.
Lemma now_accounted : keeps UR (now_M (C := C) env).
Proof. apply right_accounted. by intros s. Qed.
Ltac reload_step := first
  [ apply reading_accounted | apply modify_r_accounted | apply now_accounted
  | solve [apply right_accounted, same_accounted; unfold recordEvent; solve_keeps]
  | apply gate_right; intros c; apply (nc_template view)
  | apply right_accounted; intros s; apply told_accounted, report_told; reflexivity
  | apply (keeps_ret UR) | apply (keeps_get UR) | apply (keeps_bind UR); [|intros ?]
  | match goal with |- keeps _ (match ?x with _ => _ end) => destruct x end ].
Lemma startWave_accounted on p : keeps UR (startWave (C := C) env on p).
Proof. unfold startWave. repeat reload_step. Qed.
Lemma queueChange_accounted ns ref a b ann : keeps UR (queueChange (C := C) env ns ref a b ann).
Proof. unfold queueChange. repeat reload_step. Qed.
Lemma skip_rest_accounted id l : keeps UR (skip_rest (C := C) id l).
Proof. induction l; cbn [skip_rest]; unfold recordOutcome; repeat first [done|reload_step]. Qed.
Lemma failWave_accounted w cur d : keeps UR (failWave (C := C) env w cur d).
Proof. unfold failWave, recordOutcome, finishWave. repeat first [apply skip_rest_accounted|reload_step]. Qed.
Lemma restart_rest_accounted on w l : keeps UR (restart_rest (C := C) env on w l).
Proof.
  induction l as [|wl l IH]; cbn [restart_rest]; unfold restartForReload, recordOutcome, finishWave;
    repeat first [done|reload_step].
Qed.
Lemma advanceWave_accounted on w : keeps UR (advanceWave (C := C) env on w).
Proof.
  unfold advanceWave, verifyReload, recordOutcome.
  repeat first [apply failWave_accounted|apply restart_rest_accounted|reload_step].
Qed.
Lemma reloadTick_accounted on leading : keeps UR (reloadTick (C := C) env on leading).
Proof.
  assert (Hs : ∀ ps, keeps UR (start_all (C := C) env on ps)).
  { induction ps; cbn [start_all]; repeat first [done|apply startWave_accounted|reload_step]. }
  assert (Ha : ∀ ws, keeps UR (advance_all (C := C) env on ws)).
  { induction ws; cbn [advance_all]; repeat first [done|apply advanceWave_accounted|reload_step]. }
  unfold reloadTick. repeat first [apply Hs|apply Ha|reload_step].
Qed.

(** *** Verification of fixes, and the checks that only tell *)
Lemma VerifyFixes_same : keeps (λ s s', same_cluster s.2 s'.2) (VerifyFixes (C := C) env).
Proof.
  set (R := λ s s' : FixTracker * GState C, same_cluster s.2 s'.2).
  assert (PreOrder R) by (unfold R; split; [by intros s|]; intros x y z ??; by etrans).
  assert (Hl : ∀ A (m : st FixTracker A), keeps R (st_left m)) by (intros A m [t s]; unfold R, st_left; cbn; by destruct (m t)).
  assert (Hr : ∀ A (m : st (GState C) A), keeps same_cluster m → keeps R (st_right m)).
  { intros A m Hm [t s]. specialize (Hm s). unfold R, st_right. cbn. by destruct (m s). }
  assert (Hall : ∀ todo still, keeps R (verify_all (C := C) env todo still)).
  { induction todo as [|r todo IH]; intros still; cbn [verify_all]; [apply (keeps_ret R)|].
    apply (keeps_bind R); [|done]. unfold verify_record.
    repeat first [ by intros s | apply Hl | apply Hr; unfold escalate, recordEvent; solve_keeps
      | apply (keeps_ret R) | apply (keeps_bind R); [|intros ?]
      | match goal with |- keeps _ (match ?x with _ => _ end) => destruct x end ]. }
  unfold VerifyFixes. apply (keeps_bind R); [apply (keeps_get R)|]. intros s.
  apply (keeps_bind R); [apply Hall|]. intros still. apply Hl.
Qed.
Lemma VerifyFixes_accounted : keeps UR (VerifyFixes (C := C) env).
Proof. intros s. apply same_cluster_accounted, VerifyFixes_same. Qed.
Lemma tell_finding_told (f : finding C) : fn_Proposal f = None → keeps same_but_told (tell_finding env f).
Proof.
  intros Hf. unfold tell_finding. apply (keeps_bind same_but_told); [by apply report_told|].
  intros ?. apply (keeps_ret same_but_told).
Qed.
Lemma check_failed_all_told what reason f nss :
  (∀ ns p, fn_Proposal (f ns p) = None) → keeps same_but_told (check_failed_all (C := C) env what reason f nss).
Proof.
  intros Hf. induction nss as [|ns nss IH]; cbn [check_failed_all]; [apply (keeps_ret same_but_told)|].
  apply (keeps_bind same_but_told); [apply (keeps_get same_but_told)|]. intros s.
  apply (keeps_bind same_but_told); [|by intros _]. generalize (match failed_pods ns (gs_cluster s) with inl l => l | inr _ => [] end).
  intros l. induction l as [|p l IHl]; cbn [check_failed]; [apply (keeps_ret same_but_told)|].
  apply (keeps_bind same_but_told); [|by intros _]. destruct (what p); [|apply (keeps_ret same_but_told)].
  apply (keeps_bind same_but_told); [unfold dedup_check_for; solve_told|].
  intros [[]|]; try apply (keeps_ret same_but_told). by apply tell_finding_told.
Qed.
Lemma CheckDeadlineExceeded_told : keeps same_but_told (CheckDeadlineExceeded (C := C) env).
Proof.
  unfold CheckDeadlineExceeded. apply (keeps_bind same_but_told); [apply (keeps_get same_but_told)|].
  intros s. by apply check_failed_all_told.
Qed.
Lemma CheckEphemeralStorageFull_told : keeps same_but_told (CheckEphemeralStorageFull (C := C) env).
Proof.
  unfold CheckEphemeralStorageFull. apply (keeps_bind same_but_told); [apply (keeps_get same_but_told)|].
  intros s. by apply check_failed_all_told.
Qed.
Lemma CheckServiceEndpoints_told : keeps same_but_told (CheckServiceEndpoints (C := C) env).
Proof.
  unfold CheckServiceEndpoints. apply (keeps_bind same_but_told); [by intros s|]. intros now.
  apply (keeps_bind same_but_told); [apply (keeps_get same_but_told)|]. intros s. apply tell_all_told.
  apply Forall_forall. intros f (l & Hf & (ns & -> & _)%list_elem_of_fmap)%list_elem_of_join.
  unfold service_findings in Hf. repeat case_match; try (by apply elem_of_nil in Hf).
  apply list_elem_of_fmap in Hf as (svc & -> & _). unfold serviceFinding. by repeat case_match.
Qed.

(** *** The fixes that wait for an approver *)
Lemma fix_pods_local ns pods (c : C) : only_in view ns c (Fixes.delete_pods ns pods c).1.
Proof.
  revert c. induction pods as [|p pods IH]; intros c; cbn [Fixes.delete_pods]; [done|].
  pose proof (nc_kube view (DeletePod ns p) c) as Hk. destruct (kube_call (DeletePod ns p) c) as [c' [e|]]; [exact Hk|].
  by etrans; [exact Hk|apply IH].
Qed.
Lemma buildFix_local s m : buildFix s = inl m → local_change view m.
Proof.
  intros Hb c. unfold buildFix, cpuLimitFix in Hb. repeat case_match; simplify_eq/=;
    first [ match goal with |- only_in _ _ _ (kube_call ?k _).1 => exact (nc_kube view k c) end | apply fix_pods_local | idtac ].
  destruct (get_cronjob _ _ c) as [cj|e]; [|done].
  exact (nc_kube view (CreateJob (fx_Namespace s) (jobFromCronJob cj (fx_Job s))) c).
Qed.
Lemma stored_change_local text r : local_change view (pa_m (fromRecord (C := C) text r)).
Proof.
  unfold fromRecord. destruct (buildFix (ar_Fix r)) as [m|e] eqn:Hb; [by eapply buildFix_local|done].
Qed.
End components.

(** *** Approving *)
Section approving.
Context {C Spec V W : Type} `{!HandlerServices C, !NodeAPI C, !ScalerAPI C, !ReloadAPI C, !WorkloadAPI C,
  !JobAPI C, !ClusterAPI C Spec, !ConfigMapAPI W, !ConfigMapView W, !ConfigMapLaws W, !QueueCodec, !RangeOrder}.
Context (view : string → C → V) `{!NamespacedCalls view Spec} (env : Env) (Hlog : env_AuditLog env = true).
Context (others : nat → W → W) (Hothers : ∀ n w, later w (others n w)) (text : fix_error → string) (retries : nat).
Definition accounted_q (s s' : QSys C W) : Prop := accounted view (env_Policy env) (qs_gate s) (qs_gate s').
#[export] Instance accounted_q_preorder : PreOrder accounted_q.
Proof. unfold accounted_q. split; [by intros s|]. intros x y z ??. by etrans. Qed.
Abbreviation UQ := accounted_q.

(** A stored change is rebuilt from its record, so it stays in the namespace
    its record names. *)
Lemma stored_items_local ns (w : W) q id p :
  stored_items (C := C) text ns w = Some q → q !! id = Some p → local_change view (pa_m p).
Proof.
  intros Hst Hp. destruct (stored_items_filed text ns w q Hst id p Hp) as [_ <-]. apply stored_change_local.
  exact _.
Qed.
Lemma ApproveFix_accounted a ns id user :
  ap_store a = Some ns → keeps UQ (ApproveFix env others text retries (Some a) id user).
Proof.
  intros Ha s. unfold accounted_q. pose proof (ApproveFix_contract env others text retries Hothers a id user s) as Hc.
  unfold approve_contract in Hc. destruct (ApproveFix env others text retries (Some a) id user s) as [[msg|e] s']; cbn [fst snd] in *.
  2: by apply same_cluster_accounted.
  destruct Hc as (m & s2 & H1 & Hrec & _ & _ & H2). unfold approval_recorded in Hrec. rewrite Ha in Hrec.
  destruct Hrec as (w0 & q0 & q1 & _ & Hst & _ & _ & (p & now & Hp & _ & _ & _ & Hm & _)).
  assert (Hl : local_change view (approved_by user m)) by (rewrite <-Hm; exact (stored_items_local ns w0 q0 id p Hst Hp)).
  etrans; [by apply same_cluster_accounted, H1|]. etrans; [by apply (gate_accounted view env (approved_by user m) Hlog)|].
  by apply same_cluster_accounted.
Qed.
Lemma quiet_accounted {A} (m : st (QSys C W) A) : keeps quiet m → keeps UQ m.
Proof. intros Hm s. apply same_cluster_accounted, Hm. Qed.

(** The callbacks of Slack and the approvals page. *)
Context (store_text : approval_error → string) (queue : Approvals) (ns_store : string) (Hstore : ap_store queue = Some ns_store).
Abbreviation api := (approvalsAPI env others text retries store_text (Some queue)).
Lemma slack_action_accounted p act : keeps UQ (slack_action (Some api) p act).
Proof.
  intros s. destruct (slack_action_reach env others text retries Hothers store_text (Some queue) p act s)
    as [Hq|(_ & a & [= <-] & _ & _ & ->)]; [by apply same_cluster_accounted|by apply (ApproveFix_accounted queue ns_store)].
Qed.
Lemma SlackServeHTTP_accounted json_payload secret now r : keeps UQ (SlackServeHTTP (Some api) json_payload secret now r).
Proof.
  unfold SlackServeHTTP, slack_callback. repeat first
    [ apply (keeps_ret UQ)
    | apply (keeps_bind UQ); [apply slack_action_accounted|intros ?]
    | match goal with |- keeps _ (match ?x with _ => _ end) => destruct x end ].
Qed.
Lemma handleApprovals_accounted allowNS r : keeps UQ (handleApprovals (Some api) allowNS r).
Proof.
  unfold handleApprovals. cbn [aq_List aq_Reject approvalsAPI]. repeat first
    [ apply (keeps_ret UQ) | by apply quiet_accounted, ListApprovals_quiet | by apply quiet_accounted, RejectFix_quiet
    | apply (keeps_bind UQ); [|intros ?]
    | match goal with |- keeps _ (match ?x with _ => _ end) => destruct x end ].
Qed.
End approving.
