(* ===== verification/Regex.v ===== *)
(** * Regular expressions: the part of package regexp the agent uses

    A regular expression is matched at a position by listing where it can
    end, in the order a backtracking search prefers them; the first is the
    match Go's leftmost-first semantics chooses.  [Matches] says which ends
    there are, [ends_exact] that the list has them all and no other.
    Texts are their UTF-8 bytes: the classes used are of ASCII characters or
    of all others, so that a match never splits a character. *)
From S2P Require Import Prelude GoStd.
From Stdlib Require Import Ascii.

Inductive re :=
| Eps
| Cls (f : ascii → bool)
| Bound                         (* \b, a word boundary *)
| Seq (a b : re)
| Alt (a b : re)
| Star (greedy : bool) (a : re).

(** ** Positions: the character before, and the text ahead *)
Abbreviation pos := (option ascii * string)%type (only parsing).
Definition ahead (p : pos) : nat := String.length p.2.
Definition is_word (c : ascii) : bool :=
  let n := N_of_ascii c in
  ((48 <=? n) && (n <=? 57) || (65 <=? n) && (n <=? 90) || (97 <=? n) && (n <=? 122))%N || bool_decide (c = "_"%char).
Definition word_edge (p : pos) : bool :=
  let before := match p.1 with Some c => is_word c | None => false end in
  let after := match p.2 with String c _ => is_word c | EmptyString => false end in
  xorb before after.

(** ** The matcher *)
Section star.
Context (step : pos → list pos) (greedy : bool).
(** [n] bounds the iterations: each consumes a character at least. *)
Fixpoint star_ends (n : nat) (p : pos) : list pos :=
  match n with
  | O => [p]
  | S n' =>
      let more := filter (λ q, ahead q < ahead p)%nat (step p) ≫= star_ends n' in
      if greedy then more ++ [p] else p :: more
  end.
End star.
Fixpoint ends (r : re) (p : pos) : list pos :=
  match r with
  | Eps => [p]
  | Cls f => match p.2 with String c s => if f c then [(Some c, s)] else [] | EmptyString => [] end
  | Bound => if word_edge p then [p] else []
  | Seq a b => ends a p ≫= ends b
  | Alt a b => ends a p ++ ends b p
  | Star g a => star_ends (ends a) g (ahead p) p
  end.

(** ** What it means *)
Inductive Matches : re → pos → pos → Prop :=
| m_eps p : Matches Eps p p
| m_cls f b c s : f c = true → Matches (Cls f) (b, String c s) (Some c, s)
| m_bound p : word_edge p = true → Matches Bound p p
| m_seq a b p q t : Matches a p q → Matches b q t → Matches (Seq a b) p t
| m_alt_l a b p q : Matches a p q → Matches (Alt a b) p q
| m_alt_r a b p q : Matches b p q → Matches (Alt a b) p q
| m_star_nil g a p : Matches (Star g a) p p
| m_star g a p q t : Matches a p q → Matches (Star g a) q t → Matches (Star g a) p t.
#[export] Hint Constructors Matches : regex.

Lemma Matches_ahead r p q : Matches r p q → (ahead q < ahead p)%nat ∨ q = p.
Proof.
  unfold ahead. induction 1; cbn [snd String.length]; try by right.
  - left. lia.
  - destruct IHMatches1 as [?| ->], IHMatches2 as [?| ->]; auto with lia.
  - done.
  - done.
  - destruct IHMatches1 as [?| ->], IHMatches2 as [?| ->]; auto with lia.
Qed.

Lemma star_ends_sound a g n p q :
  (∀ p q, q ∈ ends a p → Matches a p q) → q ∈ star_ends (ends a) g n p → Matches (Star g a) p q.
Proof.
  intros Ha. revert p. induction n as [|n IH]; intros p; cbn [star_ends].
  - intros ->%list_elem_of_singleton. auto with regex.
  - intros H. assert (q ∈ filter (λ q, ahead q < ahead p)%nat (ends a p) ≫= star_ends (ends a) g n ∨ q = p) as [H'| ->].
    { destruct g; set_solver. }
    + apply list_elem_of_bind in H' as (t & Ht & [_ Hp]%list_elem_of_filter). eauto with regex.
    + auto with regex.
Qed.
Lemma star_ends_complete a g n p q :
  (∀ p q, Matches a p q → q ∈ ends a p) → (ahead p ≤ n)%nat → Matches (Star g a) p q → q ∈ star_ends (ends a) g n p.
Proof.
  intros Ha Hn Hm. remember (Star g a) as r eqn:E. revert n Hn. induction Hm; simplify_eq; intros n Hn.
  - destruct n; cbn [star_ends]; [left|]. destruct g; set_solver.
  - destruct (Matches_ahead _ _ _ Hm1) as [Hlt| ->]; [|by apply IHHm2].
    destruct n as [|n]; [lia|]. cbn [star_ends].
    assert (t ∈ filter (λ q, ahead q < ahead p)%nat (ends a p) ≫= star_ends (ends a) g n) as H.
    { apply list_elem_of_bind. exists q. split; [apply IHHm2; [done|lia]|].
      apply list_elem_of_filter. auto. }
    destruct g; set_solver.
Qed.

(** The matcher lists exactly the places where a match of the expression can
    end. *)
Theorem ends_exact r p q : q ∈ ends r p ↔ Matches r p q.
Proof.
  split.
  - revert p q. induction r as [|f| |a IHa b IHb|a IHa b IHb|g a IHa]; intros p q; cbn [ends].
    + intros ->%list_elem_of_singleton. auto with regex.
    + destruct p as [b [|c s]]; cbn; [set_solver|]. destruct (f c) eqn:E; [|set_solver].
      intros ->%list_elem_of_singleton. auto with regex.
    + destruct (word_edge p) eqn:E; [|set_solver]. intros ->%list_elem_of_singleton. auto with regex.
    + intros (t & Hb & Ha)%list_elem_of_bind. eauto with regex.
    + intros [Ha|Hb]%elem_of_app; auto with regex.
    + intros H. eapply star_ends_sound; eauto.
  - revert p q. induction r as [|f| |a IHa b IHb|a IHa b IHb|g a IHa]; intros p q H; cbn [ends].
    + inversion H; subst. left.
    + inversion H; subst. cbn. match goal with E : f _ = true |- _ => rewrite E end. left.
    + inversion H; subst. match goal with E : word_edge _ = true |- _ => rewrite E end. left.
    + inversion H; subst. apply list_elem_of_bind. eauto.
    + apply elem_of_app. inversion H; subst; auto.
    + by apply star_ends_complete.
Qed.

(** ** Replacing

    A rule keeps the group its expression starts with, or not; its match is
    never empty. *)
Record rule := mkRule { ru_group : re; ru_rest : re; ru_keep : bool; ru_text : string }.
Definition rule_matches (ru : rule) (p e q : pos) : Prop :=
  Matches (ru_group ru) p e ∧ Matches (ru_rest ru) e q ∧ (ahead q < ahead p)%nat.
(** The ends of the group and of the whole, in order of preference. *)
Definition rule_ends (ru : rule) (p : pos) : list (pos * pos) :=
  ends (ru_group ru) p ≫= λ e, pair e <$> filter (λ q, ahead q < ahead p)%nat (ends (ru_rest ru) e).
(** The text from one position to a later one. *)
Definition between (p q : pos) : string := str_take (ahead p - ahead q) p.2.
Definition replacement (ru : rule) (p e : pos) : string := (if ru_keep ru then between p e else "") +:+ ru_text ru.
(** [ReplaceAllString]; [n] is at least the length ahead. *)
Fixpoint replace_from (ru : rule) (n : nat) (p : pos) : string :=
  match n with
  | O => p.2
  | S n' =>
      match head (rule_ends ru p), p.2 with
      | Some (e, q), _ => replacement ru p e +:+ replace_from ru n' q
      | None, String c s => String c (replace_from ru n' (Some c, s))
      | None, EmptyString => ""
      end
  end.
Definition ReplaceAllString (ru : rule) (s : string) : string := replace_from ru (String.length s) (None, s).

(** What it gives: from the left, a match where there is one is replaced,
    and the search goes on behind it; elsewhere the text is kept. *)
Inductive Replaced (ru : rule) : pos → string → Prop :=
| r_end b : Replaced ru (b, "") ""
| r_match p e q out :
    rule_matches ru p e q → Replaced ru q out → Replaced ru p (replacement ru p e +:+ out)
| r_keep b c s out :
    (∀ e q, ¬ rule_matches ru (b, String c s) e q) →
    Replaced ru (Some c, s) out → Replaced ru (b, String c s) (String c out).

Lemma elem_of_rule_ends ru p e q : (e, q) ∈ rule_ends ru p ↔ rule_matches ru p e q.
Proof.
  unfold rule_ends, rule_matches. rewrite <-!ends_exact, list_elem_of_bind. split.
  - intros (e' & (q' & [= -> ->] & [Hl Hq]%list_elem_of_filter)%list_elem_of_fmap & He). done.
  - intros (He & Hq & Hl). exists e. split; [|done]. apply list_elem_of_fmap. exists q.
    split; [done|]. by apply list_elem_of_filter.
Qed.
Lemma replace_from_spec ru n p : (ahead p ≤ n)%nat → Replaced ru p (replace_from ru n p).
Proof.
  revert p. induction n as [|n IH]; intros [b s] Hn; cbn [replace_from].
  { destruct s; [apply r_end|unfold ahead in Hn; cbn in Hn; lia]. }
  destruct (head (rule_ends ru (b, s))) as [[e q]|] eqn:E.
  - apply head_Some_elem_of, elem_of_rule_ends in E. pose proof E as (_ & _ & Hl).
    apply (r_match _ _ _ q); [done|]. apply IH. lia.
  - destruct s as [|c s]; cbn [snd]; [apply r_end|]. apply r_keep.
    + intros e q Hm%elem_of_rule_ends. destruct (rule_ends ru (b, String c s)); [set_solver|done].
    + apply IH. unfold ahead in *. cbn in *. lia.
Qed.

(** Replacing ends, and does to a text what it means. *)
Theorem ReplaceAllString_spec ru s : Replaced ru (None, s) (ReplaceAllString ru s).
Proof. apply replace_from_spec. done. Qed.

(** A text without a match stays as it is. *)
Lemma Replaced_clean ru p out :
  Replaced ru p out → (∀ p' e q, ¬ rule_matches ru p' e q) → out = p.2.
Proof.
  intros H Hno. induction H as [b|p e q out Hm|b c s out Hk H IH]; [done|by destruct (Hno _ _ _ Hm)|].
  cbn in *. by rewrite IH.
Qed.

(** ** Building expressions *)
Definition chr (c : ascii) : re := Cls (λ x, bool_decide (x = c)).
Definition set (l : list ascii) : re := Cls (λ x, bool_decide (x ∈ l)).
Definition not_set (l : list ascii) : re := Cls (λ x, negb (bool_decide (x ∈ l))).
Fixpoint lit (s : string) : re := match s with EmptyString => Eps | String c s' => Seq (chr c) (lit s') end.
Definition in_range (lo hi : N) (c : ascii) : bool := let n := N_of_ascii c in ((lo <=? n) && (n <=? hi))%N.
Definition digit : ascii → bool := in_range 48 57.
Definition upper : ascii → bool := in_range 65 90.
Definition lower : ascii → bool := in_range 97 122.
Definition alnum (c : ascii) : bool := digit c || upper c || lower c.
Definition among (l : string) (c : ascii) : bool := bool_decide (c ∈ String.list_ascii_of_string l).
Definition star (r : re) : re := Star true r.
Definition plus (r : re) : re := Seq r (Star true r).
Definition opt (r : re) : re := Alt r Eps.
Fixpoint times (n : nat) (r : re) : re := match n with O => Eps | S n' => Seq r (times n' r) end.
Definition at_least (n : nat) (r : re) : re := Seq (times n r) (Star true r).
(** Between [n] and [n + m] times. *)
Fixpoint up_to (m : nat) (r : re) : re := match m with O => Eps | S m' => opt (Seq r (up_to m' r)) end.
Definition between_times (n m : nat) (r : re) : re := Seq (times n r) (up_to m r).
Definition alts (l : list re) : re := match l with r :: l' => fold_left Alt l' r | [] => Cls (λ _, false) end.
Definition seqs (l : list re) : re := foldr Seq Eps l.
(** Letters without regard to case: [s] and [k] also have the characters
    U+017F and U+212A. *)
Definition long_s : re := lit (bytes_of [197; 191]%N).
Definition kelvin : re := lit (bytes_of [226; 132; 170]%N).
Definition upper_ascii (c : ascii) : ascii := if lower c then ascii_of_N (N_of_ascii c - 32) else c.
Definition fold_one (c : ascii) : re :=
  let r := Cls (λ x, bool_decide (x = c) || bool_decide (x = upper_ascii c)) in
  if bool_decide (c = "s"%char) then Alt r long_s else if bool_decide (c = "k"%char) then Alt r kelvin else r.
Fixpoint fold_lit (s : string) : re := match s with EmptyString => Eps | String c s' => Seq (fold_one c) (fold_lit s') end.
(** White space of [\s]. *)
Definition spaces : list ascii := [" "; "009"; "010"; "012"; "013"]%char.
