(* ===== verification/Base64.v ===== *)
(** * Base64: the standard encoding of package encoding/base64

    [EncodeToString] and [DecodeString] of [StdEncoding], with the round
    trip. *)
From S2P Require Import Prelude GoStd.
From Stdlib Require Import Ascii.

Definition alphabet : string := "ABCDEFGHIJKLMNOPQRSTUVWXYZabcdefghijklmnopqrstuvwxyz0123456789+/".
Definition digit_of (i : N) : ascii := default "="%char (String.get (N.to_nat i) alphabet).
Fixpoint index_in (s : string) (c : ascii) (i : N) : option N :=
  match s with
  | EmptyString => None
  | String c' s' => if bool_decide (c' = c) then Some i else index_in s' c (i + 1)%N
  end.
Definition value_of (c : ascii) : option N := index_in alphabet c 0.

(** The four digits of three bytes. *)
Definition d0 (a : N) : ascii := digit_of (a / 4).
Definition d1 (a b : N) : ascii := digit_of (a mod 4 * 16 + b / 16).
Definition d2 (b c : N) : ascii := digit_of (b mod 16 * 4 + c / 64).
Definition d3 (c : N) : ascii := digit_of (c mod 64).
Fixpoint EncodeToString (s : string) : string :=
  match s with
  | EmptyString => ""
  | String a EmptyString => let a := N_of_ascii a in String (d0 a) (String (d1 a 0) "==")
  | String a (String b EmptyString) =>
      let a := N_of_ascii a in let b := N_of_ascii b in String (d0 a) (String (d1 a b) (String (d2 b 0) "="))
  | String a (String b (String c s')) =>
      let a := N_of_ascii a in let b := N_of_ascii b in let c := N_of_ascii c in
      String (d0 a) (String (d1 a b) (String (d2 b c) (String (d3 c) (EncodeToString s'))))
  end.

Definition b0 (i j : N) : ascii := ascii_of_N (i * 4 + j / 16).
Definition b1 (j k : N) : ascii := ascii_of_N (j mod 16 * 16 + k / 4).
Definition b2 (k l : N) : ascii := ascii_of_N (k mod 4 * 64 + l).
(** Padding ends the text; [None] is corrupt input. *)
Fixpoint decode (s : string) : option string :=
  match s with
  | EmptyString => Some ""
  | String w (String x (String y (String z s'))) =>
      i ← value_of w; j ← value_of x;
      if bool_decide (y = "="%char) then
        if bool_decide (z = "="%char ∧ s' = "") then Some (String (b0 i j) "") else None
      else
        k ← value_of y;
        if bool_decide (z = "="%char) then
          if bool_decide (s' = "") then Some (String (b0 i j) (String (b1 j k) "")) else None
        else
          l ← value_of z; r ← decode s';
          Some (String (b0 i j) (String (b1 j k) (String (b2 k l) r)))
  | _ => None
  end.
(** Line ends are ignored wherever they are. *)
Fixpoint unfold_lines (s : string) : string :=
  match s with
  | EmptyString => ""
  | String c s' => if bool_decide (c = "010"%char ∨ c = "013"%char) then unfold_lines s' else String c (unfold_lines s')
  end.
Definition DecodeString (s : string) : option string := decode (unfold_lines s).

(** ** The round trip *)
Definition good_digit (i : N) : Prop :=
  value_of (digit_of i) = Some i ∧ digit_of i ≠ "="%char ∧ digit_of i ≠ "010"%char ∧ digit_of i ≠ "013"%char.
Lemma digit_good i : (i < 64)%N → good_digit i.
Proof.
  intros H. assert (Forall (λ n, value_of (digit_of (N.of_nat n)) = Some (N.of_nat n) ∧ digit_of (N.of_nat n) ≠ "="%char
    ∧ digit_of (N.of_nat n) ≠ "010"%char ∧ digit_of (N.of_nat n) ≠ "013"%char) (seq 0 64)) as Hall
    by (apply (bool_decide_unpack _); vm_compute; exact I).
  rewrite Forall_forall in Hall. specialize (Hall (N.to_nat i)). rewrite N2Nat.id in Hall.
  apply Hall, elem_of_seq. lia.
Qed.

(** What the digits hold: less than 64 each, and together the bytes. *)
Ltac digits := zify; Z.to_euclidean_division_equations; lia.
Lemma digits_small (a b c : N) : (a < 256 → b < 256 → c < 256 →
  a / 4 < 64 ∧ a mod 4 * 16 + b / 16 < 64 ∧ b mod 16 * 4 + c / 64 < 64 ∧ c mod 64 < 64)%N.
Proof. intros. split_and!; digits. Qed.
Lemma bytes_back (a b c : N) : (a < 256 → b < 256 → c < 256 →
  a / 4 * 4 + (a mod 4 * 16 + b / 16) / 16 = a
  ∧ (a mod 4 * 16 + b / 16) mod 16 * 16 + (b mod 16 * 4 + c / 64) / 4 = b
  ∧ (b mod 16 * 4 + c / 64) mod 4 * 64 + c mod 64 = c)%N.
Proof. intros. split_and!; digits. Qed.
Lemma read_back (A B C : ascii) (a := N_of_ascii A) (b := N_of_ascii B) (c := N_of_ascii C) :
  good_digit (a / 4) ∧ good_digit (a mod 4 * 16 + b / 16) ∧ good_digit (b mod 16 * 4 + c / 64) ∧ good_digit (c mod 64)
  ∧ b0 (a / 4) (a mod 4 * 16 + b / 16) = A ∧ b1 (a mod 4 * 16 + b / 16) (b mod 16 * 4 + c / 64) = B
  ∧ b2 (b mod 16 * 4 + c / 64) (c mod 64) = C.
Proof.
  pose proof (N_ascii_bounded A). pose proof (N_ascii_bounded B). pose proof (N_ascii_bounded C).
  destruct (digits_small a b c) as (?&?&?&?); [done..|]. destruct (bytes_back a b c) as (E1&E2&E3); [done..|].
  unfold b0, b1, b2. rewrite E1, E2, E3. unfold a, b, c. rewrite !ascii_N_embedding.
  split_and!; try apply digit_good; done.
Qed.

(** What is encoded reads back, and is one line. *)
Lemma unfold_digit i s : good_digit i → unfold_lines (String (digit_of i) s) = String (digit_of i) (unfold_lines s).
Proof. intros (_ & _ & H1 & H2). cbn. rewrite bool_decide_eq_false_2; [done|]. intros [?|?]; done. Qed.
Lemma unfold_encode : ∀ s, unfold_lines (EncodeToString s) = EncodeToString s.
Proof.
  fix IH 1. intros [|A [|B [|C s]]]; [done| | |].
  - destruct (read_back A zero zero) as (H1 & H2 & _). cbn [EncodeToString]. unfold d0, d1.
    by rewrite (unfold_digit _ _ H1), (unfold_digit _ _ H2).
  - destruct (read_back A B zero) as (H1 & H2 & H3 & _). cbn [EncodeToString]. unfold d0, d1, d2.
    by rewrite (unfold_digit _ _ H1), (unfold_digit _ _ H2), (unfold_digit _ _ H3).
  - destruct (read_back A B C) as (H1 & H2 & H3 & H4 & _). cbn [EncodeToString]. unfold d0, d1, d2, d3.
    by rewrite (unfold_digit _ _ H1), (unfold_digit _ _ H2), (unfold_digit _ _ H3), (unfold_digit _ _ H4), IH.
Qed.
Lemma decode_encode : ∀ s, decode (EncodeToString s) = Some s.
Proof.
  fix IH 1. intros [|A [|B [|C s]]]; [done| | |].
  - destruct (read_back A zero zero) as ((H1 & _) & (H2 & _) & _ & _ & E & _). cbn [EncodeToString decode].
    unfold d0, d1. change (N_of_ascii zero) with 0%N in *. by rewrite H1, H2; cbn; rewrite E.
  - destruct (read_back A B zero) as ((H1 & _) & (H2 & _) & (H3 & N3 & _) & _ & E1 & E2 & _).
    cbn [EncodeToString decode]. unfold d0, d1, d2. change (N_of_ascii zero) with 0%N in *.
    rewrite H1, H2. cbn [mbind option_bind]. rewrite bool_decide_eq_false_2, H3 by done. cbn. by rewrite E1, E2.
  - destruct (read_back A B C) as ((H1 & _) & (H2 & _) & (H3 & N3 & _) & (H4 & N4 & _) & E1 & E2 & E3).
    cbn [EncodeToString decode]. unfold d0, d1, d2, d3.
    rewrite H1, H2. cbn [mbind option_bind]. rewrite bool_decide_eq_false_2, H3 by done. cbn [mbind option_bind].
    rewrite bool_decide_eq_false_2, H4 by done. cbn [mbind option_bind]. rewrite IH. cbn. by rewrite E1, E2, E3.
Qed.

(** Every content survives the trip through the encoding. *)
Theorem base64_roundtrip s : DecodeString (EncodeToString s) = Some s.
Proof. unfold DecodeString. rewrite unfold_encode. apply decode_encode. Qed.
