(* ===== verification/Http.v ===== *)
(** * HTTP: the requests the agent sends to other services

    A request, the answers a server gives, and a run that sends some: it
    carries the server's state and what was sent, in order.  The server is a
    parameter.  [truncBody] is of internal/integrations. *)
From S2P Require Import Prelude GoStd.
#[local] Open Scope Z_scope.
#[local] Open Scope agent_scope.

(** ** Requests *)

(** A payload as [encoding/json] writes it. *)
Inductive json :=
| JString (s : string) | JInt (z : Z) | JTime (t : Z) | JList (l : list json) | JObject (m : list (string * json)).
Definition JStrings (l : list string) : json := JList (JString <$> l).
Definition JMap (m : gmap string string) : json := JObject ((λ kv : string * string, (kv.1, JString kv.2)) <$> map_to_list m).

Record request := mkRequest {
  rq_Method : string; rq_URL : string; rq_Headers : list (string * string); rq_Body : option json
}.
(** An answer: its status, what of the body could be read, and the error
    that ended the reading. *)
Record response := mkResponse { rs_Status : Z; rs_Body : string; rs_ReadErr : option string }.
Definition json_type : string * string := ("Content-Type", "application/json").
(** A server: a request that cannot be built or sent is an error. *)
Class HttpServer (W : Type) := { http_do : request → W → (response + string) * W }.

(** The server, and what it was sent. *)
Notation net W := (W * list request)%type.
Definition send {W} `{!HttpServer W} (r : request) : st (net W) (response + string) :=
  λ s, let a := http_do r s.1 in (a.1, (a.2, s.2 ++ [r])).

(** ** Results: a value or an error *)
Section results.
Context {S : Type}.
Definition fails {A} (e : string) : st S (A + string) := return! inr e.
Definition gives {A} (a : A) : st S (A + string) := return! inl a.
Definition and_then {A B} (m : st S (A + string)) (k : A → st S (B + string)) : st S (B + string) :=
  let! r := m in match r with inl a => k a | inr e => fails e end.
Definition wrapped {A} (text : string) (m : st S (A + string)) : st S (A + string) :=
  let! r := m in return! (match r with inl a => inl a | inr e => inr (text +:+ ": " +:+ e) end).
Definition decoded {A} (text : string) (r : A + string) : st S (A + string) :=
  return! (match r with inl a => inl a | inr e => inr (text +:+ ": " +:+ e) end).
End results.

Definition truncBody (b : string) : string :=
  if (200 <? String.length b)%nat then str_take 200 b +:+ "..." else b.
Definition status_error (r : request) (a : response) : string :=
  rq_Method r +:+ " " +:+ rq_URL r +:+ ": " +:+ itoa (rs_Status a) +:+ " " +:+ truncBody (rs_Body a).

(** ** Traces

    [sends m P]: what [m] sends, as a list, satisfies [P] together with the
    result. *)
Section traces.
Context {W M : Type}.
#[local] Notation net := (W * list M)%type.
Definition sends {A} (m : st net A) (P : list M → A → Prop) : Prop :=
  ∀ s, ∃ l, (m s).2.2 = s.2 ++ l ∧ P l (m s).1.
Lemma sends_ret {A} (a : A) (P : list M → A → Prop) : P [] a → sends (return! a) P.
Proof. intros H s. exists []. by rewrite app_nil_r. Qed.
Lemma sends_bind {A B} (m : st net A) (k : A → st net B) (P : list M → A → Prop) (Q : list M → B → Prop) :
  sends m P → (∀ l a, P l a → sends (k a) (λ l' b, Q (l ++ l') b)) → sends (st_bind m k) Q.
Proof.
  intros Hm Hk s. unfold st_bind. destruct (Hm s) as (l & Hl & HP). destruct (m s) as [a s'] eqn:E. cbn in *.
  destruct (Hk l a HP s') as (l' & Hl' & HQ). exists (l ++ l'). split; [|done]. by rewrite Hl', Hl, (assoc_L (++)).
Qed.
Lemma sends_weaken {A} (m : st net A) (P Q : list M → A → Prop) :
  sends m P → (∀ l a, P l a → Q l a) → sends m Q.
Proof. intros Hm H s. destruct (Hm s) as (l & ? & ?). eauto. Qed.
Lemma sends_and_then {A B} (m : st net (A + string)) (k : A → st net (B + string))
  (P : list M → A + string → Prop) (Q : list M → B + string → Prop) :
  sends m P → (∀ l e, P l (inr e) → Q l (inr e)) →
  (∀ l a, P l (inl a) → sends (k a) (λ l' b, Q (l ++ l') b)) → sends (and_then m k) Q.
Proof.
  intros Hm He Hk. eapply sends_bind; [exact Hm|]. intros l [a|e] H; [by apply Hk|].
  apply sends_ret. rewrite app_nil_r. by apply He.
Qed.
Lemma sends_wrapped {A} text (m : st net (A + string)) (P : list M → A + string → Prop) :
  sends m (λ l r, match r with inl a => P l (inl a) | inr e => P l (inr (text +:+ ": " +:+ e)) end) →
  sends (wrapped text m) P.
Proof.
  intros Hm. eapply sends_bind; [exact Hm|]. intros l r H. apply sends_ret. rewrite app_nil_r. by destruct r.
Qed.
Lemma sends_wrapped_any {A} text (m : st net (A + string)) (P : list M → Prop) :
  sends m (λ l _, P l) → sends (wrapped text m) (λ l _, P l).
Proof. intros H. apply sends_wrapped. eapply sends_weaken; [exact H|]. by intros l [a|e]. Qed.
Lemma sends_at {A} (m : st net A) (P : list M → A → Prop) s :
  sends m P → ∃ l, (m s).2.2 = s.2 ++ l ∧ P l (m s).1.
Proof. intros H. apply H. Qed.

(** A run that sends the requests of a script in their order, stops at the
    first that fails, and succeeds only after all. *)
Definition follows {A} (script : list M) (l : list M) (r : A + string) : Prop :=
  l `prefix_of` script ∧ match r with inl _ => l = script | inr _ => True end.
End traces.

(** ** Dialogues

    What a client and a server say to each other.  A dialogue is done, gives
    up, or asks, and reads the answer: an answer that cannot be read ends it
    with an error, and what was read says how it goes on. *)
Inductive dialogue {M R X A : Type} :=
| Done (a : A)
| GiveUp
| Ask (m : M) (read : R → option X) (next : X → dialogue).
Arguments dialogue : clear implicits.
(** The questions and answers of a dialogue, and its result. *)
Fixpoint followed {M R X A} (d : dialogue M R X A) (l : list (M * R)) (r : A + string) : Prop :=
  match d with
  | Done a => l = [] ∧ r = inl a
  | GiveUp => l = [] ∧ ∃ e, r = inr e
  | Ask m read next =>
    ∃ a l', l = (m, a) :: l'
      ∧ match read a with Some x => followed (next x) l' r | None => l' = [] ∧ ∃ e, r = inr e end
  end.
(** One dialogue, and then another from its result. *)
Fixpoint followed_by {M R X A B} (d : dialogue M R X A) (k : A → dialogue M R X B) : dialogue M R X B :=
  match d with
  | Done a => k a
  | GiveUp => GiveUp
  | Ask m read next => Ask m read (λ x, followed_by (next x) k)
  end.
Lemma followed_then {M R X A B} (d : dialogue M R X A) (k : A → dialogue M R X B) l r l' r' :
  followed d l r →
  match r with inl a => followed (k a) l' r' | inr _ => l' = [] ∧ ∃ e, r' = inr e end →
  followed (followed_by d k) (l ++ l') r'.
Proof.
  revert l. induction d as [a| |m read next IH]; intros l; cbn [followed followed_by].
  - intros [-> ->]. done.
  - intros [-> [e ->]]. done.
  - intros (a & rest & -> & H) Hr. exists a, (rest ++ l'). split; [done|].
    destruct (read a) as [x|]; [by apply IH|]. destruct H as [-> [e ->]]. done.
Qed.

(** The server's side: what it answers to a question. *)
Class Answers (W M R : Type) := answer : M → W → R * W.
Section dialogues.
Context {W M R : Type} `{!Answers W M R}.
#[local] Notation net := (W * list M)%type.
Fixpoint served (w : W) (l : list (M * R)) (w' : W) : Prop :=
  match l with
  | [] => w' = w
  | (m, a) :: l => (answer m w).1 = a ∧ served (answer m w).2 l w'
  end.
Lemma served_app w l l' w1 w2 : served w l w1 → served w1 l' w2 → served w (l ++ l') w2.
Proof. revert w. induction l as [|[m a] l IH]; intros w; cbn; [by intros ->|]. intros [? ?] ?. split; [done|]. by apply IH. Qed.
(** [talks m P]: what [m] asks and is answered, by the server as it is when
    it is asked, satisfies [P] together with the result. *)
Definition talks {A} (m : st net A) (P : list (M * R) → A → Prop) : Prop :=
  ∀ s, ∃ l, served s.1 l (m s).2.1 ∧ (m s).2.2 = s.2 ++ l.*1 ∧ P l (m s).1.
Lemma talks_ret {A} (a : A) (P : list (M * R) → A → Prop) : P [] a → talks (return! a) P.
Proof. intros H s. exists []. by rewrite app_nil_r. Qed.
Lemma talks_bind {A B} (m : st net A) (k : A → st net B) (P : list (M * R) → A → Prop) (Q : list (M * R) → B → Prop) :
  talks m P → (∀ l a, P l a → talks (k a) (λ l' b, Q (l ++ l') b)) → talks (st_bind m k) Q.
Proof.
  intros Hm Hk s. unfold st_bind. destruct (Hm s) as (l & Hw & Hl & HP). destruct (m s) as [a s'] eqn:E. cbn in *.
  destruct (Hk l a HP s') as (l' & Hw' & Hl' & HQ). exists (l ++ l'). split_and!; [by eapply served_app| |done].
  by rewrite Hl', Hl, fmap_app, (assoc_L (++)).
Qed.
Lemma talks_weaken {A} (m : st net A) (P Q : list (M * R) → A → Prop) :
  talks m P → (∀ l a, P l a → Q l a) → talks m Q.
Proof. intros Hm H s. destruct (Hm s) as (l & ? & ? & ?). eauto. Qed.
(** A program that holds a dialogue. *)
Definition holds {X A} (m : st net (A + string)) (d : dialogue M R X A) : Prop := talks m (followed d).
Lemma holds_gives {X A} (a : A) : holds (X := X) (gives a) (Done a).
Proof. by apply talks_ret. Qed.
Lemma holds_fails {X A} e : holds (X := X) (A := A) (fails e) GiveUp.
Proof. apply talks_ret. split; [done|by exists e]. Qed.
Lemma holds_and_then {X A B} (m : st net (A + string)) (k : A → st net (B + string)) (d : dialogue M R X A) e :
  holds m d → (∀ a, holds (k a) (e a)) → holds (and_then m k) (followed_by d e).
Proof.
  intros Hm Hk. eapply talks_bind; [exact Hm|]. intros l [a|x] H.
  - eapply talks_weaken; [apply Hk|]. intros l' r Hr. by apply (followed_then d e l (inl a)).
  - apply talks_ret. apply (followed_then d e l (inr x)); [done|]. split; [done|by exists x].
Qed.
Lemma followed_wrap {X A} text (d : dialogue M R X A) l r :
  followed d l r → followed d l (match r with inl a => inl a | inr e => inr (text +:+ ": " +:+ e) end).
Proof.
  revert l. induction d as [a| |m read next IH]; intros l; cbn [followed].
  - by intros [-> ->].
  - intros [-> [e ->]]. split; [done|by eexists].
  - intros (a & l' & -> & H). exists a, l'. split; [done|]. destruct (read a); [by apply IH|].
    destruct H as [-> [e ->]]. split; [done|by eexists].
Qed.
Lemma holds_wrapped {X A} text (m : st net (A + string)) (d : dialogue M R X A) : holds m d → holds (wrapped text m) d.
Proof.
  intros Hm. eapply talks_bind; [exact Hm|]. intros l r H. apply talks_ret. rewrite app_nil_r. by apply followed_wrap.
Qed.
(** One question, and what is made of the answer. *)
Lemma holds_ask {X A} (m : M) (f : R → A + string) (read : R → option X) (made : X → A) :
  (∀ a, match read a with Some x => f a = inl (made x) | None => ∃ e, f a = inr e end) →
  holds (λ s : net, let a := answer m s.1 in (f a.1, (a.2, s.2 ++ [m]))) (Ask m read (λ x, Done (made x))).
Proof.
  intros Hf s. exists [(m, (answer m s.1).1)]. split_and!; [done|done|]. exists (answer m s.1).1, []. split; [done|].
  specialize (Hf (answer m s.1).1). cbn. by destruct (read _).
Qed.
End dialogues.
#[export] Instance http_answers {W} `{!HttpServer W} : Answers W request (response + string) := http_do.

Lemma sends_send {W} `{!HttpServer W} r (P : list request → response + string → Prop) :
  (∀ a, P [r] a) → sends (W := W) (send r) P.
Proof. intros H s. exists [r]. split; [done|apply H]. Qed.
