(* ===== verification/Tickets.v ===== *)
(** * Tickets: internal/integrations/tickets.go

    The clients of GitHub Issues and Jira: an issue is found by its key and
    told of again, or opened.  The server and the decoding of its answers
    are parameters; log lines are left out. *)
From S2P Require Import Prelude GoStd Regex Redact Base64 Http.
#[local] Open Scope Z_scope.
#[local] Open Scope agent_scope.

Record Ticket := mkTicket { tk_Title : string; tk_Body : string; tk_Labels : list string; tk_Assignees : list string }.
Definition redactTicket (t : Ticket) : Ticket :=
  mkTicket (redact_String (tk_Title t)) (redact_String (tk_Body t)) (tk_Labels t) (tk_Assignees t).

Section clients.
Context {W : Type} `{!HttpServer W}.
(** [time.Now().UTC()] as it prints. *)
Context (now : string).

(** A request and what a 2xx or 1xx answer holds; what could not be read of
    the body is missing from it. *)
Definition exchange (r : request) : st (net W) (string + string) :=
  let! a := send r in
  match a with
  | inr e => fails e
  | inl a => if 300 <=? rs_Status a then fails (status_error r a) else gives (rs_Body a)
  end.

(** ** GitHub Issues *)
Record ghIssue := mkIssue { gi_Number : Z; gi_State : string; gi_HTMLURL : string; gi_Body : string }.
(** [json.Unmarshal] of the answers to a search, and to a new issue. *)
Context (dec_search : string → (Z * list ghIssue) + string) (dec_created : string → string + string).
Record githubIssues := mkGithub { gh_token : string; gh_repo : string }.
Definition apiBase : string := "https://api.github.com".

Definition gh_headers (g : githubIssues) : list (string * string) :=
  [("Authorization", "Bearer " +:+ gh_token g); ("Accept", "application/vnd.github+json");
   ("X-GitHub-Api-Version", "2022-11-28")].
Definition gh_doMutate (g : githubIssues) (method url : string) (payload : json) : st (net W) (string + string) :=
  exchange (mkRequest method url (gh_headers g ++ [json_type]) (Some payload)).
Definition gh_search_url (g : githubIssues) (key : string) : string :=
  apiBase +:+ "/search/issues?q=repo:" +:+ gh_repo g +:+ "+%22auto-agent-key:+" +:+ key +:+ "%22+in:body&per_page=1".
Definition gh_search (g : githubIssues) (key : string) : request :=
  mkRequest "GET" (gh_search_url g key) (gh_headers g) None.
(** The first issue found, if there is one. *)
Definition gh_findByKey (g : githubIssues) (key : string) : st (net W) (option ghIssue + string) :=
  and_then (exchange (gh_search g key)) (λ body,
    match dec_search body with
    | inr e => fails e
    | inl (total, items) => gives (if total =? 0 then None else head items)
    end).
Definition gh_issues_url (g : githubIssues) : string := apiBase +:+ "/repos/" +:+ gh_repo g +:+ "/issues".
Definition gh_issue_url (g : githubIssues) (i : ghIssue) : string := gh_issues_url g +:+ "/" +:+ itoa (gi_Number i).
Definition gh_marker (key : string) : string := "<!-- auto-agent-key: " +:+ key +:+ " -->".
Definition gh_new_issue (key : string) (t : Ticket) : json :=
  JObject ([("title", JString ("[auto-agent] " +:+ tk_Title t)); ("body", JString (gh_marker key +:+ nl +:+ nl +:+ tk_Body t))]
           ++ (if bool_decide (tk_Labels t = []) then [] else [("labels", JStrings (tk_Labels t))])
           ++ (if bool_decide (tk_Assignees t = []) then [] else [("assignees", JStrings (tk_Assignees t))])).
Definition gh_comment (t : Ticket) : json :=
  JObject [("body", JString ("**Auto-agent update** (" +:+ now +:+ ")" +:+ nl +:+ nl +:+ tk_Body t))].
(** What is told of an issue that exists; a reopening that fails comes with
    its address. *)
Definition gh_update (g : githubIssues) (i : ghIssue) (t : Ticket) : st (net W) (string * option string + string) :=
  and_then (wrapped "tickets/github: add comment"
              (gh_doMutate g "POST" (gh_issue_url g i +:+ "/comments") (gh_comment t))) (λ _,
    if str_eqb (gi_State i) "closed" then
      let! r := gh_doMutate g "PATCH" (gh_issue_url g i) (JObject [("state", JString "open")]) in
      gives (gi_HTMLURL i, match r with
                           | inl _ => None
                           | inr e => Some ("tickets/github: commented on #" +:+ itoa (gi_Number i) +:+ " but could not reopen it: " +:+ e)
                           end)
    else gives (gi_HTMLURL i, None)).
Definition gh_create (g : githubIssues) (key : string) (t : Ticket) : st (net W) (string * option string + string) :=
  and_then (wrapped "tickets/github: create issue" (gh_doMutate g "POST" (gh_issues_url g) (gh_new_issue key t))) (λ body,
    and_then (decoded "parse issue response" (dec_created body)) (λ url, gives (url, None))).
(** [CreateOrUpdate]: the address with the error beside it, or the error. *)
Definition gh_CreateOrUpdate (g : githubIssues) (key : string) (t : Ticket) : st (net W) (string * option string + string) :=
  let t := redactTicket t in
  if str_eqb (gh_token g) "" then fails "tickets/github: GITHUB_TOKEN not configured"
  else and_then (wrapped "tickets/github: search" (gh_findByKey g key)) (λ existing,
         match existing with Some i => gh_update g i t | None => gh_create g key t end).

(** ** Jira *)
(** [json.Unmarshal] of a search, to the keys found, and of a new issue. *)
Context (dec_jira_search : string → (Z * list string) + string) (dec_jira_key : string → string + string).
Record jiraClient := mkJira { ji_token : string; ji_email : string; ji_baseURL : string; ji_project : string }.
Fixpoint trim_slashes (n : nat) (s : string) : string :=
  match n with
  | O => s
  | S n' => if strings_HasSuffix s "/" then trim_slashes n' (strings_TrimSuffix s "/") else s
  end.
Definition NewJira (token baseURL project email : string) : jiraClient :=
  mkJira token email (trim_slashes (String.length baseURL) baseURL) project.
Definition ji_headers (j : jiraClient) : list (string * string) :=
  [("Authorization", "Basic " +:+ EncodeToString (ji_email j +:+ ":" +:+ ji_token j)); json_type; ("Accept", "application/json")].
Definition ji_doPost (j : jiraClient) (url : string) (payload : json) : st (net W) (string + string) :=
  exchange (mkRequest "POST" url (ji_headers j) (Some payload)).
Definition jql (j : jiraClient) (key : string) : string :=
  "project = " +:+ dq +:+ ji_project j +:+ dq +:+ " AND summary ~ " +:+ dq +:+ "auto-agent:" +:+ key +:+ dq
  +:+ " AND status != Done ORDER BY created DESC".
Definition ji_search (j : jiraClient) (key : string) : request :=
  mkRequest "POST" (ji_baseURL j +:+ "/rest/api/3/search") (ji_headers j)
    (Some (JObject [("jql", JString (jql j key)); ("maxResults", JInt 1); ("fields", JStrings ["key"; "summary"; "status"])])).
Definition ji_findByKey (j : jiraClient) (key : string) : st (net W) (option string + string) :=
  and_then (exchange (ji_search j key))
    (λ body, match dec_jira_search body with
             | inr e => fails e
             | inl (total, issues) => gives (if total =? 0 then None else head issues)
             end).
(** A document of one paragraph. *)
Definition ji_doc (text : string) : json :=
  JObject [("type", JString "doc"); ("version", JInt 1);
           ("content", JList [JObject [("type", JString "paragraph");
              ("content", JList [JObject [("type", JString "text"); ("text", JString text)]])]])].
Definition ji_new_issue (j : jiraClient) (key : string) (t : Ticket) : json :=
  JObject [("fields", JObject ([("project", JObject [("key", JString (ji_project j))]); ("issuetype", JObject [("name", JString "Bug")]);
      ("summary", JString ("[auto-agent:" +:+ key +:+ "] " +:+ tk_Title t)); ("description", ji_doc (tk_Body t))]
      ++ (if bool_decide (tk_Labels t = []) then [] else [("labels", JStrings (tk_Labels t))])))].
Definition ji_browse (j : jiraClient) (issue : string) : string := ji_baseURL j +:+ "/browse/" +:+ issue.
Definition ji_update (j : jiraClient) (issue : string) (t : Ticket) : st (net W) (string * option string + string) :=
  and_then (wrapped "tickets/jira: add comment"
      (ji_doPost j (ji_baseURL j +:+ "/rest/api/3/issue/" +:+ issue +:+ "/comment")
         (JObject [("body", ji_doc ("Auto-agent update (" +:+ now +:+ "): " +:+ tk_Body t))])))
    (λ _, gives (ji_browse j issue, None)).
Definition ji_create (j : jiraClient) (key : string) (t : Ticket) : st (net W) (string * option string + string) :=
  and_then (wrapped "tickets/jira: create issue" (ji_doPost j (ji_baseURL j +:+ "/rest/api/3/issue") (ji_new_issue j key t)))
    (λ body, and_then (decoded "parse Jira response" (dec_jira_key body)) (λ issue, gives (ji_browse j issue, None))).
Definition ji_CreateOrUpdate (j : jiraClient) (key : string) (t : Ticket) : st (net W) (string * option string + string) :=
  let t := redactTicket t in
  if str_eqb (ji_token j) "" || str_eqb (ji_baseURL j) "" then fails "tickets/jira: JIRA_TOKEN or JIRA_BASE_URL not configured"
  else and_then (wrapped "tickets/jira: search" (ji_findByKey j key)) (λ existing,
    match existing with Some issue => ji_update j issue t | None => ji_create j key t end).
(** [NewNopTicketer]. *)
Definition nop_CreateOrUpdate (key : string) (t : Ticket) : st (net W) (string * option string + string) :=
  gives ("(ticketing disabled)", None).
End clients.

(** ** What is opened *)
Section theorems.
Context {W : Type} `{!HttpServer W} (now : string).
Context (dec_search : string → (Z * list ghIssue) + string) (dec_created : string → string + string).
Context (dec_jira_search : string → (Z * list string) + string) (dec_jira_key : string → string + string).

Lemma app_longer (a b : string) : b ≠ "" → a +:+ b ≠ a.
Proof.
  intros Hb H. apply (f_equal String.length) in H. rewrite str_length_app in H. destruct b; [done|cbn in H; lia].
Qed.
Lemma sends_exchange (r : request) : sends (exchange (W := W) r) (λ l _, l = [r]).
Proof.
  eapply sends_bind; [by apply (sends_send r (λ l _, l = [r]))|]. intros l [a|e] ->; cbn.
  - destruct (300 <=? _); by apply sends_ret.
  - by apply sends_ret.
Qed.
(** A client in general: it searches with one request, and then either tells
    of the issue found, in at most two requests none of which opens an issue,
    or opens one. *)
Section upsert.
Context {I R : Type} (find : st (net W) (option I + string)) (update : I → st (net W) (R + string))
  (create : st (net W) (R + string)) (search opening : request) (text : string) (opens : request → Prop).
Hypothesis find_sends : sends find (λ l _, l = [search]).
Hypothesis update_sends : ∀ i, sends (update i) (λ l _, (length l ≤ 2)%nat ∧ Forall (λ q, ¬ opens q) l).
Hypothesis create_sends : sends create (λ l _, l = [opening]).
Hypothesis search_opens_nothing : ¬ opens search.
Definition upsert : st (net W) (R + string) :=
  and_then (wrapped text find) (λ existing, match existing with Some i => update i | None => create end).
Lemma upsert_opens s :
  ∃ l, (upsert s).2.2 = s.2 ++ l ∧ (length l ≤ 3)%nat
       ∧ ∀ q, q ∈ l → opens q → (find s).1 = inl None ∧ l = [search; q].
Proof.
  destruct (sends_at _ _ s find_sends) as (l0 & E0 & ->). unfold upsert, and_then, wrapped, st_bind, st_ret.
  destruct (find s) as [[[i|]|e] s1]; cbn [fst snd] in *.
  - destruct (sends_at _ _ s1 (update_sends i)) as (l & E & Hl & Hn). exists (search :: l).
    rewrite E, E0, <-(assoc_L (++)). split; [done|]. split; [cbn; lia|].
    intros q [->|Hq]%elem_of_cons Ho; [done|]. rewrite Forall_forall in Hn. by destruct (Hn q Hq).
  - destruct (sends_at _ _ s1 create_sends) as (l & E & ->). exists [search; opening].
    rewrite E, E0, <-(assoc_L (++)). split; [done|]. split; [cbn; lia|].
    intros q Hq Ho. split; [done|]. set_unfold in Hq. destruct Hq as [->|[->|[]]]; done.
  - exists [search]. split; [done|]. split; [cbn; lia|]. intros q ->%list_elem_of_singleton. done.
Qed.
End upsert.

(** The requests that open an issue. *)
Definition gh_opens (g : githubIssues) (q : request) : Prop := rq_Method q = "POST" ∧ rq_URL q = gh_issues_url g.
Definition ji_opens (j : jiraClient) (q : request) : Prop := rq_URL q = ji_baseURL j +:+ "/rest/api/3/issue".

Lemma gh_find_sends g key : sends (gh_findByKey (W := W) dec_search g key)
  (λ l _, l = [gh_search g key]).
Proof.
  eapply sends_and_then; [apply sends_exchange|done|]. intros l b ->.
  destruct (dec_search b) as [[total items]|e]; by apply sends_ret.
Qed.
Lemma gh_update_sends g i t :
  sends (gh_update (W := W) now g i t) (λ l _, (length l ≤ 2)%nat ∧ Forall (λ q, ¬ gh_opens g q) l).
Proof.
  unfold gh_update.
  assert (¬ gh_opens g (mkRequest "POST" (gh_issue_url g i +:+ "/comments") (gh_headers g ++ [json_type]) (Some (gh_comment now t))))
    as H1.
  { intros [_ H]. cbn in H. revert H. unfold gh_issue_url. rewrite !str_app_assoc. by apply app_longer. }
  eapply sends_and_then.
  - apply sends_wrapped_any, sends_exchange.
  - intros l e ->. cbn. split; [lia|]. by apply Forall_singleton.
  - intros l a ->. destruct (str_eqb _ _).
    + eapply sends_bind; [apply sends_exchange|]. intros l b ->. apply sends_ret. split; [cbn; lia|].
      apply Forall_cons. split; [done|]. apply Forall_singleton. by intros [H _].
    + apply sends_ret. split; [cbn; lia|]. by apply Forall_singleton.
Qed.
Lemma gh_create_sends g key t :
  sends (gh_create (W := W) dec_created g key t)
    (λ l _, l = [mkRequest "POST" (gh_issues_url g) (gh_headers g ++ [json_type]) (Some (gh_new_issue key t))]).
Proof.
  eapply sends_and_then.
  - apply sends_wrapped_any, sends_exchange.
  - done.
  - intros l a ->. destruct (dec_created a); by apply sends_ret.
Qed.

Lemma ji_find_sends j key : sends (ji_findByKey (W := W) dec_jira_search j key) (λ l _, l = [ji_search j key]).
Proof.
  eapply sends_and_then; [apply sends_exchange|done|]. intros l b ->.
  destruct (dec_jira_search b) as [[total items]|e]; by apply sends_ret.
Qed.
Lemma ji_update_sends j i t :
  sends (ji_update (W := W) now j i t) (λ l _, (length l ≤ 2)%nat ∧ Forall (λ q, ¬ ji_opens j q) l).
Proof.
  assert (ji_baseURL j +:+ "/rest/api/3/issue/" +:+ i +:+ "/comment" ≠ ji_baseURL j +:+ "/rest/api/3/issue") as H.
  { intros E. apply (app_longer (ji_baseURL j +:+ "/rest/api/3/issue") ("/" +:+ i +:+ "/comment")); [done|].
    rewrite str_app_assoc. exact E. }
  eapply sends_and_then; [apply sends_wrapped_any, sends_exchange| |].
  - intros l e ->. cbn. split; [lia|]. by apply Forall_singleton.
  - intros l a ->. apply sends_ret. split; [cbn; lia|]. by apply Forall_singleton.
Qed.
Lemma ji_create_sends j key t :
  sends (ji_create (W := W) dec_jira_key j key t)
    (λ l _, l = [mkRequest "POST" (ji_baseURL j +:+ "/rest/api/3/issue") (ji_headers j) (Some (ji_new_issue j key t))]).
Proof.
  eapply sends_and_then; [apply sends_wrapped_any, sends_exchange|done|].
  intros l a ->. destruct (dec_jira_key a); by apply sends_ret.
Qed.
Lemma ji_search_opens j key : ¬ ji_opens j (ji_search j key).
Proof. unfold ji_opens. cbn. intros [=]%(inj (String.append _)). Qed.

(** C17: An issue is opened at most once per call, and only when the search has
    answered that there is none with the key: a search that fails, or that
    finds one, opens nothing. *)
Theorem ticket_opened_only_when_missing g j key t s :
  (let r := gh_CreateOrUpdate now dec_search dec_created g key t s in
   ∃ l, r.2.2 = s.2 ++ l ∧ (length l ≤ 3)%nat
        ∧ ∀ q, q ∈ l → gh_opens g q → (gh_findByKey dec_search g key s).1 = inl None ∧ l = [gh_search g key; q])
  ∧ (let r := ji_CreateOrUpdate now dec_jira_search dec_jira_key j key t s in
     ∃ l, r.2.2 = s.2 ++ l ∧ (length l ≤ 3)%nat
          ∧ ∀ q, q ∈ l → ji_opens j q → (ji_findByKey dec_jira_search j key s).1 = inl None ∧ l = [ji_search j key; q]).
Proof.
  split; cbv zeta.
  - unfold gh_CreateOrUpdate. destruct (str_eqb _ _).
    { exists []. rewrite app_nil_r. split; [done|]. split; [cbn; lia|set_solver]. }
    destruct (upsert_opens _ _ _ _ _ "tickets/github: search" (gh_opens g) (gh_find_sends g key)
      (λ i, gh_update_sends g i (redactTicket t)) (gh_create_sends g key (redactTicket t)) ltac:(by intros [H _]) s)
      as (l & E & Hl & H).
    exists l. split; [exact E|]. split; [done|]. intros q Hq Ho. exact (H q Hq Ho).
  - unfold ji_CreateOrUpdate. destruct (_ || _).
    { exists []. rewrite app_nil_r. split; [done|]. split; [cbn; lia|set_solver]. }
    destruct (upsert_opens _ _ _ _ _ "tickets/jira: search" (ji_opens j) (ji_find_sends j key)
      (λ i, ji_update_sends j i (redactTicket t)) (ji_create_sends j key (redactTicket t)) ltac:(apply ji_search_opens) s)
      as (l & E & Hl & H).
    exists l. split; [exact E|]. split; [done|]. intros q Hq Ho. exact (H q Hq Ho).
Qed.
End theorems.
