(* ===== verification/PullRequests.v ===== *)
(** * Pull requests: internal/integrations/gitops.go

    The clients of GitHub and GitLab: a file of the base branch is read, a
    change is proposed on a branch of its own, or committed to the base
    branch.  The server and the decoding of its answers are parameters; log
    lines are left out. *)
From S2P Require Import Prelude GoStd Regex Redact Base64 Http.
From Stdlib Require Import Ascii.
#[local] Open Scope Z_scope.
#[local] Open Scope agent_scope.

Record GitOpsChange := mkChange {
  ch_FilePath : string; ch_Content : string; ch_Title : string; ch_Body : string; ch_Branch : string
}.
(** [settingsFrom]: the author's name and email, both or neither. *)
Definition settingsFrom (name email : string) : string * string :=
  if str_eqb name "" || str_eqb email "" then ("", "") else (name, email).
Inductive read_error := ErrFileNotFound | ErrRead (text : string).

Section clients.
Context {W : Type} `{!HttpServer W}.
(** [time.Now().Unix()]. *)
Context (now_unix : Z).

(** A request and what a 1xx or 2xx answer holds. *)
Definition fetch (r : request) : st (net W) (string + string) :=
  let! a := send r in
  match a with
  | inr e => fails e
  | inl a =>
      match rs_ReadErr a with
      | Some e => fails ("read response: " +:+ e)
      | None => if 300 <=? rs_Status a then fails (status_error r a) else gives (rs_Body a)
      end
  end.
(** The same, but for a path that is missing. *)
Definition fetch_optional (r : request) : st (net W) (option string + string) :=
  let! a := send r in
  match a with
  | inr e => fails e
  | inl a =>
      if rs_Status a =? 404 then gives None
      else match rs_ReadErr a with
           | Some e => fails ("read response: " +:+ e)
           | None => if 300 <=? rs_Status a then fails (status_error r a) else gives (Some (rs_Body a))
           end
  end.
Definition branch_of (ch : GitOpsChange) : string :=
  if str_eqb (ch_Branch ch) "" then "auto-agent/" +:+ itoa now_unix else ch_Branch ch.
(** The text of a change is redacted, its content is not. *)
Definition redact_change (ch : GitOpsChange) : GitOpsChange :=
  mkChange (ch_FilePath ch) (ch_Content ch) (redact_String (ch_Title ch)) (redact_String (ch_Body ch)) (ch_Branch ch).

(** ** GitHub *)
(** [json.Unmarshal] of a file, a reference, a file's hash, a commit and a
    pull request; and what base64 says of a text it cannot decode. *)
Context (dec_file : string → (string * string) + string) (dec_ref dec_sha dec_commit dec_pull : string → string + string)
  (decode_error : string → string).
Record githubClient := mkGithub { gh_token : string; gh_repo : string; gh_base : string; gh_author : string * string }.
Definition apiBase : string := "https://api.github.com".
Definition gh_repo_url (g : githubClient) : string := apiBase +:+ "/repos/" +:+ gh_repo g.
Definition gh_auth (g : githubClient) : list (string * string) :=
  [("Authorization", "Bearer " +:+ gh_token g); ("Accept", "application/vnd.github+json")].
Definition gh_version : string * string := ("X-GitHub-Api-Version", "2022-11-28").
Definition gh_get (g : githubClient) (url : string) : request := mkRequest "GET" url (gh_auth g ++ [gh_version]) None.
Definition gh_change (g : githubClient) (method url : string) (payload : json) : request :=
  mkRequest method url (gh_auth g ++ [json_type; gh_version]) (Some payload).

Definition gh_file_url (g : githubClient) (path : string) : string := gh_repo_url g +:+ "/contents/" +:+ path.
Fixpoint drop_newlines (s : string) : string :=
  match s with
  | EmptyString => ""
  | String c s' => if bool_decide (c = "010"%char) then drop_newlines s' else String c (drop_newlines s')
  end.
Definition gh_ReadFile (g : githubClient) (path : string) : st (net W) (string + read_error) :=
  let! r := fetch_optional (gh_get g (gh_file_url g path +:+ "?ref=" +:+ gh_base g)) in
  return! (match r with
    | inr e => inr (ErrRead ("gitops/github: read " +:+ path +:+ ": " +:+ e))
    | inl None => inr ErrFileNotFound
    | inl (Some body) =>
        match dec_file body with
        | inr e => inr (ErrRead ("gitops/github: parse " +:+ path +:+ ": " +:+ e))
        | inl (content, encoding) =>
            if negb (str_eqb encoding "base64")
            then inr (ErrRead ("gitops/github: " +:+ path +:+ " has encoding " +:+ strconv_Quote encoding))
            else match DecodeString (drop_newlines content) with
                 | None => inr (ErrRead ("gitops/github: decode " +:+ path +:+ ": " +:+ decode_error content))
                 | Some data => inl data
                 end
        end
    end).
Definition gh_getRef (g : githubClient) (ref : string) : st (net W) (string + string) :=
  and_then (fetch (gh_get g (gh_repo_url g +:+ "/git/ref/heads/" +:+ ref))) (λ body, decoded "parse ref" (dec_ref body)).
Definition gh_createRef (g : githubClient) (branch sha : string) : request :=
  gh_change g "POST" (gh_repo_url g +:+ "/git/refs")
    (JObject [("ref", JString ("refs/heads/" +:+ branch)); ("sha", JString sha)]).
Definition gh_who (g : githubClient) : json :=
  JObject [("name", JString (gh_author g).1); ("email", JString (gh_author g).2)].
Definition gh_put_payload (g : githubClient) (branch content message sha : string) : json :=
  JObject ([("message", JString message); ("content", JString (EncodeToString content)); ("branch", JString branch)]
           ++ (if str_eqb sha "" then [] else [("sha", JString sha)])
           ++ (if str_eqb (gh_author g).1 "" then [] else [("author", gh_who g); ("committer", gh_who g)])).
(** The hash of the file on the branch, empty when it is missing there. *)
Definition gh_lookup (g : githubClient) (branch path : string) : st (net W) (string + string) :=
  and_then (wrapped ("look up " +:+ path) (fetch_optional (gh_get g (gh_file_url g path +:+ "?ref=" +:+ branch))))
    (λ body, match body with
             | None => gives ""
             | Some b => decoded ("look up " +:+ path +:+ ": parse") (dec_sha b)
             end).
Definition gh_createOrUpdateFile (g : githubClient) (branch path content message : string) : st (net W) (string + string) :=
  and_then (gh_lookup g branch path) (λ sha,
    fetch (gh_change g "PUT" (gh_file_url g path) (gh_put_payload g branch content message sha))).
Definition gh_createPR (g : githubClient) (branch title body : string) : st (net W) (string + string) :=
  and_then (fetch (gh_change g "POST" (gh_repo_url g +:+ "/pulls")
                     (JObject [("title", JString title); ("body", JString body); ("head", JString branch);
                               ("base", JString (gh_base g))])))
    (λ resp, decoded "parse PR response" (dec_pull resp)).
Definition gh_OpenPR (g : githubClient) (ch : GitOpsChange) : st (net W) (string + string) :=
  let ch := redact_change ch in
  if str_eqb (gh_token g) "" then fails "gitops/github: GIT_TOKEN not configured"
  else
    let branch := branch_of ch in
    and_then (wrapped "gitops/github: get base ref" (gh_getRef g (gh_base g))) (λ sha,
    and_then (wrapped "gitops/github: create branch" (fetch (gh_createRef g branch sha))) (λ _,
    and_then (wrapped "gitops/github: commit file"
                (gh_createOrUpdateFile g branch (ch_FilePath ch) (ch_Content ch) ("auto-agent: " +:+ ch_Title ch))) (λ _,
    wrapped "gitops/github: create PR" (gh_createPR g branch (ch_Title ch) (ch_Body ch))))).
Definition gh_Commit (g : githubClient) (ch : GitOpsChange) : st (net W) (string + string) :=
  if str_eqb (gh_token g) "" then fails "gitops/github: GIT_TOKEN not configured"
  else
    let title := redact_String (ch_Title ch) in
    and_then (wrapped ("gitops/github: commit to " +:+ gh_base g)
                (gh_createOrUpdateFile g (gh_base g) (ch_FilePath ch) (ch_Content ch) ("auto-agent: " +:+ title))) (λ body,
    decoded "gitops/github: parse commit" (dec_commit body)).

(** ** GitLab *)
(** [json.Unmarshal] of a commit and a merge request. *)
Context (dec_web_url : string → string + string).
Record gitlabClient := mkGitlab {
  gl_token : string; gl_project : string; gl_base : string; gl_author : string * string
}.
Definition gl_baseURL : string := "https://gitlab.com".
Definition gl_api (g : gitlabClient) : string := gl_baseURL +:+ "/api/v4/projects/" +:+ gl_project g.
Definition gl_auth (g : gitlabClient) : list (string * string) := [("PRIVATE-TOKEN", gl_token g)].
Definition gl_post (g : gitlabClient) (url : string) (payload : json) : request :=
  mkRequest "POST" url (gl_auth g ++ [json_type]) (Some payload).
Fixpoint urlEncodePath (s : string) : string :=
  match s with
  | EmptyString => ""
  | String c s' => if bool_decide (c = "/"%char) then "%2F" +:+ urlEncodePath s' else String c (urlEncodePath s')
  end.
Definition gl_file_url (g : gitlabClient) (path : string) : string := gl_api g +:+ "/repository/files/" +:+ urlEncodePath path.
(** [fileAction]: whether the commit creates the file or updates it. *)
Definition gl_fileAction (g : gitlabClient) (branch path : string) : st (net W) (string + string) :=
  let! a := send (mkRequest "HEAD" (gl_file_url g path +:+ "?ref=" +:+ branch) (gl_auth g) None) in
  match a with
  | inr e => fails ("gitops/gitlab: file check: " +:+ e)
  | inl a =>
      if rs_Status a =? 404 then gives "create"
      else if (200 <=? rs_Status a) && (rs_Status a <? 300) then gives "update"
      else fails ("gitops/gitlab: file check for " +:+ path +:+ ": status " +:+ itoa (rs_Status a))
  end.
Definition gl_commit_payload (g : gitlabClient) (branch action : string) (ch : GitOpsChange) : json :=
  JObject ([("branch", JString branch); ("commit_message", JString ("auto-agent: " +:+ ch_Title ch));
            ("actions", JList [JObject [("action", JString action); ("file_path", JString (ch_FilePath ch));
                                        ("content", JString (ch_Content ch))]])]
           ++ (if str_eqb (gl_author g).1 "" then []
               else [("author_name", JString (gl_author g).1); ("author_email", JString (gl_author g).2)])).
Definition gl_commitFile (g : gitlabClient) (branch : string) (ch : GitOpsChange) : st (net W) (string + string) :=
  and_then (gl_fileAction g branch (ch_FilePath ch)) (λ action,
    wrapped "gitops/gitlab: commit"
      (fetch (gl_post g (gl_api g +:+ "/repository/commits") (gl_commit_payload g branch action ch)))).
Definition gl_openMR (g : gitlabClient) (branch : string) (ch : GitOpsChange) : st (net W) (string + string) :=
  and_then (wrapped "gitops/gitlab: create MR"
              (fetch (gl_post g (gl_api g +:+ "/merge_requests")
                        (JObject [("source_branch", JString branch); ("target_branch", JString (gl_base g));
                                  ("title", JString (ch_Title ch)); ("description", JString (ch_Body ch))])))) (λ body,
    decoded "parse MR response" (dec_web_url body)).
Definition gl_branch (g : gitlabClient) (branch : string) : request :=
  gl_post g (gl_api g +:+ "/repository/branches") (JObject [("branch", JString branch); ("ref", JString (gl_base g))]).
Definition gl_OpenPR (g : gitlabClient) (ch : GitOpsChange) : st (net W) (string + string) :=
  let ch := redact_change ch in
  if str_eqb (gl_token g) "" then fails "gitops/gitlab: GIT_TOKEN not configured"
  else
    let branch := branch_of ch in
    and_then (wrapped "gitops/gitlab: create branch" (fetch (gl_branch g branch))) (λ _,
    and_then (gl_commitFile g branch ch) (λ _, gl_openMR g branch ch)).
Definition gl_Commit (g : gitlabClient) (ch : GitOpsChange) : st (net W) (string + string) :=
  let ch := mkChange (ch_FilePath ch) (ch_Content ch) (redact_String (ch_Title ch)) (ch_Body ch) (ch_Branch ch) in
  if str_eqb (gl_token g) "" then fails "gitops/gitlab: GIT_TOKEN not configured"
  else and_then (gl_commitFile g (gl_base g) ch) (λ body, decoded "gitops/gitlab: parse commit" (dec_web_url body)).
Definition gl_ReadFile (g : gitlabClient) (path : string) : st (net W) (string + read_error) :=
  let r := mkRequest "GET" (gl_file_url g path +:+ "/raw?ref=" +:+ gl_base g) (gl_auth g) None in
  let! a := send r in
  return! (match a with
    | inr e => inr (ErrRead ("gitops/gitlab: read " +:+ path +:+ ": " +:+ e))
    | inl a =>
        if rs_Status a =? 404 then inr ErrFileNotFound
        else match rs_ReadErr a with
             | Some e => inr (ErrRead ("read response: " +:+ e))
             | None => if 300 <=? rs_Status a
                       then inr (ErrRead ("gitops/gitlab: read " +:+ path +:+ ": " +:+ itoa (rs_Status a) +:+ " " +:+ truncBody (rs_Body a)))
                       else inl (rs_Body a)
             end
    end).
End clients.

(** ** What is said *)
Section dialogues.
Context {W : Type} `{!HttpServer W} (now_unix : Z).
Context (dec_file : string → (string * string) + string) (dec_ref dec_sha dec_commit dec_pull : string → string + string)
  (dec_web_url : string → string + string).
Abbreviation talk := (dialogue request (response + string) string string).

(** How an answer is read: the body of one that was accepted, what is decoded
    of it, the hash of a file that may be missing, and whether a commit
    creates or updates a file. *)
Definition accepted (a : response + string) : option string :=
  match a with
  | inl r => if bool_decide (rs_ReadErr r = None) && (rs_Status r <? 300) then Some (rs_Body r) else None
  | inr _ => None
  end.
Definition decodes (dec : string → string + string) (a : response + string) : option string :=
  body ← accepted a; match dec body with inl x => Some x | inr _ => None end.
Definition hash_of (a : response + string) : option string :=
  match a with inl r => if rs_Status r =? 404 then Some "" else decodes dec_sha a | inr _ => None end.
Definition action_of (a : response + string) : option string :=
  match a with
  | inl r => if rs_Status r =? 404 then Some "create"
             else if (200 <=? rs_Status r) && (rs_Status r <? 300) then Some "update" else None
  | inr _ => None
  end.

(** Writing the file to a branch, with the hash it has there. *)
Definition gh_put_dialogue (g : githubClient) (branch : string) (ch : GitOpsChange) (next : string → talk) : talk :=
  Ask (gh_get g (gh_file_url g (ch_FilePath ch) +:+ "?ref=" +:+ branch)) hash_of (λ fsha,
  Ask (gh_change g "PUT" (gh_file_url g (ch_FilePath ch))
         (gh_put_payload g branch (ch_Content ch) ("auto-agent: " +:+ redact_String (ch_Title ch)) fsha)) accepted next).
Definition gh_pr_dialogue (g : githubClient) (ch : GitOpsChange) : talk :=
  let branch := branch_of now_unix ch in
  Ask (gh_get g (gh_repo_url g +:+ "/git/ref/heads/" +:+ gh_base g)) (decodes dec_ref) (λ sha,
  Ask (gh_createRef g branch sha) accepted (λ _,
  gh_put_dialogue g branch ch (λ _,
  Ask (gh_change g "POST" (gh_repo_url g +:+ "/pulls")
         (JObject [("title", JString (redact_String (ch_Title ch))); ("body", JString (redact_String (ch_Body ch)));
                   ("head", JString branch); ("base", JString (gh_base g))])) (decodes dec_pull) Done))).
Definition gl_commit_dialogue (g : gitlabClient) (branch : string) (ch : GitOpsChange) (next : string → talk) : talk :=
  Ask (mkRequest "HEAD" (gl_file_url g (ch_FilePath ch) +:+ "?ref=" +:+ branch) (gl_auth g) None) action_of (λ action,
  Ask (gl_post g (gl_api g +:+ "/repository/commits") (gl_commit_payload g branch action (redact_change ch))) accepted next).
Definition gl_mr_dialogue (g : gitlabClient) (ch : GitOpsChange) : talk :=
  let branch := branch_of now_unix ch in
  Ask (gl_branch g branch) accepted (λ _,
  gl_commit_dialogue g branch ch (λ _,
  Ask (gl_post g (gl_api g +:+ "/merge_requests")
         (JObject [("source_branch", JString branch); ("target_branch", JString (gl_base g));
                   ("title", JString (redact_String (ch_Title ch))); ("description", JString (redact_String (ch_Body ch)))]))
    (decodes dec_web_url) Done)).

Lemma holds_fetch r : holds (fetch (W := W) r) (Ask r accepted Done).
Proof.
  intros s. unfold fetch, st_bind, send. exists [(r, (http_do r s.1).1)]. cbn [fst snd].
  destruct (http_do r s.1) as [[a|e] w] eqn:E; cbn [fst snd].
  - assert (accepted (inl a) = match rs_ReadErr a with Some _ => None | None => if 300 <=? rs_Status a then None else Some (rs_Body a) end) as Ha.
    { unfold accepted. destruct (rs_ReadErr a); [done|]. cbn. destruct (300 <=? _) eqn:?, (_ <? 300) eqn:?; try done; blia. }
    destruct (rs_ReadErr a); [|destruct (300 <=? _)]; cbn; unfold answer, http_answers; rewrite E;
      (split_and!; [done|done|done|]); exists (inl a), []; rewrite Ha; (split; [done|]); cbn; eauto.
  - cbn. unfold answer, http_answers. rewrite E. split_and!; [done..|]. exists (inr e), []. cbn. eauto.
Qed.
(** A question and what is read of its answer. *)
Lemma holds_read (m : st (net W) (string + string)) q text dec :
  holds m (Ask q accepted Done) → holds (and_then m (λ b, decoded text (dec b))) (Ask q (decodes dec) Done).
Proof.
  intros Hm s. destruct (Hm s) as (l & Hw & Hl & a & l' & -> & H). unfold and_then, st_bind.
  destruct (m s) as [r s']. cbn in *. exists [(q, a)]. unfold decodes.
  destruct (accepted a) as [x|] eqn:Ea; destruct H as [-> H].
  - subst r. cbn. split_and!; [exact (proj1 Hw)|exact (proj2 Hw)|done|]. exists a, []. rewrite Ea. cbn.
    destruct (dec x); cbn; eauto.
  - destruct H as [e ->]. cbn. split_and!; [exact (proj1 Hw)|exact (proj2 Hw)|done|]. exists a, []. rewrite Ea. cbn. eauto.
Qed.
Lemma holds_lookup g branch path :
  holds (gh_lookup (W := W) dec_sha g branch path) (Ask (gh_get g (gh_file_url g path +:+ "?ref=" +:+ branch)) hash_of Done).
Proof.
  set (q := gh_get _ _). intros s. unfold gh_lookup, wrapped, fetch_optional, and_then, st_bind, send.
  exists [(q, (http_do q s.1).1)]. fold q. destruct (http_do q s.1) as [[a|e] w] eqn:E; cbn [fst snd].
  2:{ cbn. unfold answer, http_answers. rewrite E. split_and!; [done..|]. exists (inr e), []. cbn. eauto. }
  assert (hash_of (inl a) = if rs_Status a =? 404 then Some ""
    else match rs_ReadErr a with Some _ => None
         | None => if 300 <=? rs_Status a then None else match dec_sha (rs_Body a) with inl x => Some x | inr _ => None end end) as Ha.
  { unfold hash_of, decodes, accepted. destruct (_ =? 404); [done|]. destruct (rs_ReadErr a); [done|]. cbn.
    destruct (300 <=? _) eqn:?, (_ <? 300) eqn:?; try done; blia. }
  destruct (rs_Status a =? 404); [|destruct (rs_ReadErr a); [|destruct (300 <=? _); [|destruct (dec_sha (rs_Body a)) eqn:Ed]]];
    cbn; rewrite ?Ed; unfold answer, http_answers; rewrite E;
    (split_and!; [done|done|done|]); exists (inl a), []; rewrite Ha, ?Ed; (split; [done|]); cbn; eauto.
Qed.
Lemma holds_fileAction g branch path :
  holds (gl_fileAction (W := W) g branch path)
    (Ask (mkRequest "HEAD" (gl_file_url g path +:+ "?ref=" +:+ branch) (gl_auth g) None) action_of Done).
Proof.
  set (q := mkRequest _ _ _ _). intros s. unfold gl_fileAction, st_bind, send.
  exists [(q, (http_do q s.1).1)]. fold q. destruct (http_do q s.1) as [[a|e] w] eqn:E; cbn [fst snd].
  - unfold action_of. destruct (rs_Status a =? 404) eqn:E4; [|destruct (_ && _) eqn:E2];
      cbn; unfold answer, http_answers; rewrite E; (split_and!; [done|done|done|]); exists (inl a), []; cbn; rewrite E4, ?E2; cbn; eauto.
  - cbn. unfold answer, http_answers. rewrite E. split_and!; [done..|]. exists (inr e), []. cbn. eauto.
Qed.

Lemma gh_file_holds g branch ch :
  holds (gh_createOrUpdateFile (W := W) dec_sha g branch (ch_FilePath ch) (ch_Content ch)
           ("auto-agent: " +:+ redact_String (ch_Title ch))) (gh_put_dialogue g branch ch Done).
Proof. apply (holds_and_then _ _ _ _ (holds_lookup _ _ _)). intros fsha. apply holds_fetch. Qed.
Lemma gl_commit_holds g branch ch :
  holds (gl_commitFile (W := W) g branch (redact_change ch)) (gl_commit_dialogue g branch ch Done).
Proof. apply (holds_and_then _ _ _ _ (holds_fileAction _ _ _)). intros action. apply holds_wrapped, holds_fetch. Qed.

(** C16: A proposal writes one branch alone, the change's own, in one dialogue
    with the server: GitHub is asked for the base branch's commit, the branch
    is created from the very commit it answered, the one file is written
    there with the very hash it has there, and the merge is asked for; with
    GitLab the branch is created, the file committed as created or updated
    as the server said, and the merge asked for.  Each step is taken only
    when the server accepted the ones before it; the first it refuses, or
    whose answer cannot be read, is the last and makes the result an error;
    and the result is the address that was read of the last answer.  What is
    said is redacted. *)
Theorem proposal_follows_its_script g gl ch :
  gh_token g ≠ "" → gl_token gl ≠ "" →
  holds (gh_OpenPR (W := W) now_unix dec_ref dec_sha dec_pull g ch) (gh_pr_dialogue g ch)
  ∧ holds (gl_OpenPR (W := W) now_unix dec_web_url gl ch) (gl_mr_dialogue gl ch).
Proof.
  intros Hg Hl. split.
  - unfold gh_OpenPR. rewrite (bool_decide_eq_false_2 _ Hg : str_eqb _ _ = false).
    apply (holds_and_then _ _ (Ask _ _ Done)); [by apply holds_wrapped, holds_read, holds_fetch|]. intros sha.
    apply (holds_and_then _ _ (Ask _ _ Done)); [apply holds_wrapped, holds_fetch|]. intros _.
    apply (holds_and_then _ _ (gh_put_dialogue _ _ _ Done)); [apply holds_wrapped, (gh_file_holds g _ ch)|]. intros _.
    by apply holds_wrapped, holds_read, holds_fetch.
  - unfold gl_OpenPR. rewrite (bool_decide_eq_false_2 _ Hl : str_eqb _ _ = false).
    apply (holds_and_then _ _ (Ask _ _ Done)); [apply holds_wrapped, holds_fetch|]. intros _.
    apply (holds_and_then _ _ (gl_commit_dialogue _ _ _ Done)); [apply (gl_commit_holds gl _ ch)|]. intros _.
    by apply holds_read, holds_wrapped, holds_fetch.
Qed.

(** A live commit writes the base branch with the hash it found there, or
    not at all. *)
Theorem commit_is_guarded g ch :
  gh_token g ≠ "" →
  holds (gh_Commit (W := W) dec_sha dec_commit g ch)
    (followed_by (gh_put_dialogue g (gh_base g) ch Done)
       (λ body, match dec_commit body with inl x => Done x | inr _ => GiveUp end)).
Proof.
  intros Ht. unfold gh_Commit. rewrite (bool_decide_eq_false_2 _ Ht : str_eqb _ _ = false).
  apply holds_and_then; [apply holds_wrapped, (gh_file_holds g _ ch)|]. intros body. unfold decoded.
  destruct (dec_commit body); [apply holds_gives|apply holds_fails].
Qed.

Lemma unfold_drop c : unfold_lines (drop_newlines c) = unfold_lines c.
Proof.
  induction c as [|x c IH]; [done|]. cbn [drop_newlines unfold_lines]. case_bool_decide as H.
  - subst x. rewrite bool_decide_eq_true_2 by auto. done.
  - cbn [unfold_lines]. by rewrite IH.
Qed.
(** What a client writes is read back as it was, from an answer that breaks
    its encoding into lines in any way. *)
Theorem written_file_reads_back decode_error g path content lines body s s' :
  fetch_optional (gh_get g (gh_file_url g path +:+ "?ref=" +:+ gh_base g)) s = (inl (Some body), s') →
  dec_file body = inl (lines, "base64") → unfold_lines lines = EncodeToString content →
  gh_ReadFile (W := W) dec_file decode_error g path s = (inl content, s').
Proof.
  intros H Hd Hl. unfold gh_ReadFile, st_bind. rewrite H, Hd. cbn -[DecodeString].
  unfold DecodeString. by rewrite unfold_drop, Hl, decode_encode.
Qed.
End dialogues.

(** A server that takes everything but the second request. *)
Module PrDemo.
#[export] Instance server : HttpServer nat :=
  { http_do _ w := (inl (mkResponse (if (w =? 1)%nat then 422 else 200) "" None), S w) }.
Definition g : githubClient := mkGithub "token" "acme/shop" "main" ("", "").
Definition gl : gitlabClient := mkGitlab "token" "acme%2Fshop" "main" ("", "").
Definition ch : GitOpsChange := mkChange "values.yaml" "memory: 256Mi" "raise memory" "for web" "".
Definition open (w : nat) : (string + string) * (nat * list request) :=
  gh_OpenPR 7 (λ _, inl "abc") (λ _, inl "def") (λ _, inl "https://pr/1") g ch (w, []).
End PrDemo.
#[local] Existing Instance PrDemo.server.
Lemma proposal_follows_its_script_witness :
  let open := PrDemo.open in
  (rq_URL <$> (open 0%nat).2.2 = ["https://api.github.com/repos/acme/shop/git/ref/heads/main";
                                   "https://api.github.com/repos/acme/shop/git/refs"]
   ∧ match (open 0%nat).1 with inl _ => False | inr _ => True end)
  ∧ (length (open 2%nat).2.2 = 5%nat ∧ (open 2%nat).1 = inl "https://pr/1")
  ∧ holds (W := nat) (gh_OpenPR 7 (λ _, inl "abc") (λ _, inl "def") (λ _, inl "https://pr/1") PrDemo.g PrDemo.ch)
      (gh_pr_dialogue 7 (λ _, inl "abc") (λ _, inl "def") (λ _, inl "https://pr/1") PrDemo.g PrDemo.ch).
Proof.
  intros open. split; [split; vm_compute; [reflexivity|exact I]|]. split; [split; vm_compute; reflexivity|].
  apply (proposal_follows_its_script (W := nat) 7 (λ _, inl "abc") (λ _, inl "def") (λ _, inl "https://pr/1")
    (λ _, inl "https://mr/1") PrDemo.g PrDemo.gl PrDemo.ch); vm_compute; discriminate.
Defined.
