(* ===== verification/Outgoing.v ===== *)
(** * Outgoing clients: internal/slack, internal/alertmanager, internal/llm,
      internal/httpx and the channels of internal/escalation

    What each client sends for a text, over the servers of [Http] and a mail
    server that is a parameter as they are.  Log lines and counters are left
    out; a payload's fields stand in the order the code writes them.  The
    last theorem takes in the clients of [Tickets] and [PullRequests]. *)
From S2P Require Import Prelude GoStd Escalation NetProbe Regex Http Redact Tickets PullRequests.
From S2P Require SlackActions.
From Stdlib Require Import Ascii.
#[local] Open Scope Z_scope.
#[local] Open Scope agent_scope.

(** ** httpx

    A client as its timeout, in seconds. *)
Definition Client (hc : option Z) (timeout : Z) : Z := default timeout hc.
(** A text cut at a length, with a mark. *)
Definition cut (s : string) (n : nat) (mark : string) : string :=
  if (n <? String.length s)%nat then str_take n s +:+ mark else s.

Module slack.
Record Client := mkSlack { defaultHook : string; client : Z; channels : gmap string string }.
Definition New (hook : string) (timeoutSec : Z) (hc : option Z) : Client :=
  mkSlack hook (Outgoing.Client hc (if timeoutSec <=? 0 then 5 else timeoutSec)) ∅.
Definition RegisterChannel (channel webhookURL : string) (c : Client) : Client :=
  mkSlack (defaultHook c) (client c) (<[channel := webhookURL]> (channels c)).
Definition resolveChannel (c : Client) (channel : string) : string :=
  if str_eqb channel "" then defaultHook c else default (defaultHook c) (channels c !! channel).
Section posts.
Context {W : Type} `{!HttpServer W}.
(** A payload at a hook: what a transport and a status other than 200 are
    reported as. *)
Definition post (hook : string) (payload : json) (failed status : string) : st (net W) (option string) :=
  let! a := send (mkRequest "POST" hook [json_type] (Some payload)) in
  return! (match a with
           | inr e => Some (failed +:+ e)
           | inl a => if rs_Status a =? 200 then None else Some (status +:+ itoa (rs_Status a))
           end).
Definition postTo (hook text : string) : st (net W) (option string) :=
  let text := redact_String text in
  if str_eqb hook "" then return! None
  else post hook (JObject [("text", JString text)]) "slack: post: " "slack: status ".
Definition postBlocksTo (hook : string) (blocks : list (list (string * any))) : st (net W) (option string) :=
  let blocks := Value (AMaps blocks) in
  if str_eqb hook "" then return! None
  else post hook (JObject [("blocks", to_json blocks)]) "slack: post blocks: " "slack: blocks status ".
(** The blocks of [postApprovalButtons], as the payload it builds. *)
Definition block_payload (b : SlackActions.SlackBlock) : list (string * any) :=
  match b with
  | SlackActions.SectionBlock text =>
      [("type", AString "section"); ("text", AStrings [("type", "mrkdwn"); ("text", text)])]
  | SlackActions.ActionsBlock buttons =>
      [("type", AString "actions");
       ("elements", AMaps ((λ b, [("type", AString "button");
                                   ("text", AStrings [("type", "plain_text"); ("text", SlackActions.bt_Text b)]);
                                   ("style", AString (SlackActions.bt_Style b)); ("action_id", AString (SlackActions.bt_ActionID b));
                                   ("value", AString (SlackActions.bt_Value b))]) <$> buttons))]
  end.
Definition Post (c : Client) (text : string) : st (net W) (option string) := postTo (defaultHook c) text.
Definition PostToChannel (c : Client) (channel text : string) : st (net W) (option string) :=
  postTo (resolveChannel c channel) text.
Definition PostBlocks (c : Client) (blocks : list (list (string * any))) : st (net W) (option string) :=
  postBlocksTo (defaultHook c) blocks.
Definition PostBlocksToChannel (c : Client) (channel : string) (blocks : list (list (string * any))) : st (net W) (option string) :=
  postBlocksTo (resolveChannel c channel) blocks.
End posts.
End slack.

Module alertmanager.
(** A time that is not set is Go's zero time. *)
Record Alert := mkAlert {
  al_Labels : gmap string string; al_Annotations : gmap string string;
  al_StartsAt : option Z; al_EndsAt : option Z; al_GeneratorURL : string
}.
(** A client as its address. *)
Definition New (url : string) : option string := if str_eqb url "" then None else Some url.
Definition time_json (t : option Z) : json :=
  match t with Some t => JTime t | None => JString "0001-01-01T00:00:00Z" end.
Definition alert_json (a : Alert) : json :=
  JObject ([("labels", JMap (al_Labels a)); ("annotations", JMap (al_Annotations a)); ("startsAt", time_json (al_StartsAt a));
            ("endsAt", time_json (al_EndsAt a))]
           ++ (if str_eqb (al_GeneratorURL a) "" then [] else [("generatorURL", JString (al_GeneratorURL a))])).
Definition redacted (a : Alert) : Alert :=
  mkAlert (al_Labels a) (redact_Map (al_Annotations a)) (al_StartsAt a) (al_EndsAt a) (al_GeneratorURL a).
Section fires.
Context {W : Type} `{!HttpServer W}.
Definition Fire (c : option string) (alerts : list Alert) : st (net W) (option string) :=
  match c with
  | None => return! None
  | Some url =>
      if str_eqb url "" then return! None
      else
        let out := redacted <$> alerts in
        let! a := send (mkRequest "POST" (url +:+ "/api/v2/alerts") [json_type] (Some (JList (alert_json <$> out)))) in
        return! (match a with
                 | inr e => Some ("alertmanager: post: " +:+ e)
                 | inl a => if 300 <=? rs_Status a
                            then Some ("alertmanager: status " +:+ itoa (rs_Status a) +:+ ": " +:+ str_take 512 (rs_Body a))
                            else None
                 end)
  end.
Definition incident_alert (now : Z) (reason namespace workload pod message severity : string) : Alert :=
  mkAlert (list_to_map [("alertname", "AutoAgentIncident"); ("reason", reason); ("namespace", namespace);
                        ("workload", workload); ("severity", severity)])
    (list_to_map [("summary", "[auto-agent] " +:+ reason +:+ " in " +:+ namespace +:+ "/" +:+ workload);
                  ("description", message); ("pod", pod)]) (Some now) None "".
Definition FireIncident (now : Z) (c : option string) (reason namespace workload pod message severity : string) : st (net W) unit :=
  let! _ := Fire c [incident_alert now reason namespace workload pod message severity] in return! ().
Definition breaker_alert (now : Z) (namespace workload : string) : Alert :=
  mkAlert (list_to_map [("alertname", "AutoAgentCircuitBreaker"); ("namespace", namespace); ("workload", workload);
                        ("severity", "critical")])
    (list_to_map [("summary", "[auto-agent] Circuit breaker tripped for " +:+ namespace +:+ "/" +:+ workload);
                  ("description", "Too many remediation actions on this workload within the last hour. Manual investigation required.")])
    (Some now) None "".
Definition FireCircuitBreaker (now : Z) (c : option string) (namespace workload : string) : st (net W) unit :=
  let! _ := Fire c [breaker_alert now namespace workload] in return! ().
End fires.
End alertmanager.

Module llm.
Record Client := mkLLM { url : string; key : string; model : string; enabled : bool; client : Z }.
Definition New (url key model : string) (enabled : bool) (timeoutSec : Z) (hc : option Z) : Client :=
  mkLLM url key model enabled (Outgoing.Client hc (if timeoutSec <=? 0 then 10 else timeoutSec)).
Definition Enabled (c : Client) : bool := enabled c && negb (str_eqb (url c) "") && negb (str_eqb (key c) "").
Definition maxCtxLen : nat := 4000.
Definition system_prompt : string :=
  "You are an SRE assistant. Diagnose the Kubernetes issue and suggest a fix. Be concise (3-5 sentences max).".
(** What the user's message says. *)
Definition prompt (title diagContext : string) : string :=
  redact_String title +:+ nl +:+ nl +:+ cut (redact_String diagContext) maxCtxLen (nl +:+ "... (truncated)").
Definition ask (c : Client) (text : string) : request :=
  mkRequest "POST" (url c) [("Authorization", "Bearer " +:+ key c); json_type]
    (Some (JObject [("model", JString (model c));
                    ("messages", JList [JObject [("role", JString "system"); ("content", JString system_prompt)];
                                        JObject [("role", JString "user"); ("content", JString text)]]);
                    ("max_tokens", JInt 200)])).
Section asks.
Context {W : Type} `{!HttpServer W}.
(** The contents of the choices an answer decodes to. *)
Context (dec_choices : response → option (list string)).
Definition Diagnose (c : Client) (title diagContext : string) : st (net W) string :=
  if negb (Enabled c) then return! ""
  else
    let! a := send (ask c (prompt title diagContext)) in
    return! (match a with
             | inr _ => ""
             | inl a => if negb (rs_Status a =? 200) then ""
                        else match dec_choices a with Some (text :: _) => text | _ => "" end
             end).
Definition DiagnoseWithFallback (c : Client) (title diagContext : string) : st (net W) string :=
  let! advice := Diagnose c title diagContext in
  return! (if str_eqb advice "" then "" else nl +:+ "_LLM diagnosis_: " +:+ advice +:+ nl).
End asks.
End llm.

(** ** PagerDuty, OpsGenie and email: internal/escalation/escalation.go *)
Module escalation.
Definition redacted (inc : Incident) : Incident :=
  mkIncident (redact_String (inc_Title inc)) (redact_String (inc_Body inc)) (inc_Severity inc) (inc_Namespace inc)
    (inc_Workload inc) (inc_Source inc).
Definition pagerduty_payload (routingKey : string) (inc : Incident) : json :=
  JObject [("routing_key", JString routingKey); ("event_action", JString "trigger");
           ("payload", JObject [
              ("summary", JString ("[auto-agent] " +:+ inc_Title inc)); ("source", JString "auto-agent");
              ("severity", JString (pdSeverity (inc_Severity inc))); ("component", JString (inc_Workload inc));
              ("group", JString (inc_Namespace inc));
              ("custom_details", JObject [("namespace", JString (inc_Namespace inc)); ("workload", JString (inc_Workload inc));
                                          ("body", JString (truncate (inc_Body inc) 500))])])].
Definition opsgenie_payload (inc : Incident) : json :=
  JObject [("message", JString ("[auto-agent] " +:+ inc_Title inc)); ("description", JString (truncate (inc_Body inc) 1000));
           ("priority", JString (ogPriority (inc_Severity inc)));
           ("tags", JStrings ["auto-agent"; inc_Namespace inc; inc_Workload inc]);
           ("details", JObject [("namespace", JString (inc_Namespace inc)); ("workload", JString (inc_Workload inc))])].
Section posts.
Context {W : Type} `{!HttpServer W}.
Definition postJSON (url : string) (payload : json) (headers : list (string * string)) : st (net W) (option string) :=
  let! a := send (mkRequest "POST" url (json_type :: headers) (Some payload)) in
  return! (match a with
           | inr e => Some e
           | inl a =>
               if 300 <=? rs_Status a
               then Some ("status " +:+ itoa (rs_Status a)
                          +:+ match rs_ReadErr a with
                              | Some e => " (body unreadable: " +:+ e +:+ ")"
                              | None => ": " +:+ str_take 512 (rs_Body a)
                              end)
               else None
           end).
Definition Trigger (routingKey : string) (inc : Incident) : st (net W) (option string) :=
  postJSON "https://events.pagerduty.com/v2/enqueue" (pagerduty_payload routingKey (redacted inc)) [].
Definition Create (apiKey : string) (inc : Incident) : st (net W) (option string) :=
  postJSON "https://api.opsgenie.com/v2/alerts" (opsgenie_payload (redacted inc)) [("Authorization", "GenieKey " +:+ apiKey)].
End posts.

(** *** Email

    The steps of a delivery, each of which may fail, and the question of
    whether the server has an extension. *)
Inductive mail_step :=
| Dial (addr : string) | SetDeadline | Greet (host : string) | StartTLS (server : string) | Auth (user pass host : string)
| Mail (from : string) | Rcpt (to : string) | Data | Write (msg : string) | EndData | Quit | Close
| Extension (name : string).
Class MailServer (W : Type) := { mail_do : mail_step → W → option string * W; mail_extension : string → W → bool * W }.
Record EmailClient := mkEmail {
  em_host : string; em_port : string; em_user : string; em_pass : string; em_from : string; em_to : string
}.
Definition NewEmail (host port user pass from to : string) : EmailClient :=
  mkEmail host (if str_eqb port "" then "587" else port) user pass from to.
Definition upper_ascii (c : ascii) : ascii :=
  let n := nat_of_ascii c in if (97 <=? n)%nat && (n <=? 122)%nat then ascii_of_nat (n - 32) else c.
(** [strings.ToUpper] of a severity, which is ASCII. *)
Definition to_upper (s : string) : string := str_map upper_ascii s.
Definition crlf : string := String "013" nl.
Definition message (e : EmailClient) (inc : Incident) : string :=
  "Subject: [auto-agent][" +:+ to_upper (inc_Severity inc) +:+ "] " +:+ inc_Title inc +:+ crlf
  +:+ "From: " +:+ em_from e +:+ crlf +:+ "To: " +:+ em_to e +:+ crlf +:+ "Content-Type: text/plain" +:+ crlf +:+ crlf
  +:+ inc_Body inc +:+ nl +:+ nl +:+ "Namespace: " +:+ inc_Namespace inc +:+ nl +:+ "Workload: " +:+ inc_Workload inc.
Definition recipients (e : EmailClient) : list string := strings_TrimSpace <$> strings_Split (em_to e) ","%char.

Section mails.
Context {W : Type} `{!MailServer W}.
Definition mail_run : Type := W * list mail_step.
Definition step (c : mail_step) : st mail_run (unit + string) :=
  λ s, let a := mail_do c s.1 in (match a.1 with None => inl () | Some e => inr e end, (a.2, s.2 ++ [c])).
Definition extension (name : string) : st mail_run bool := λ s, let a := mail_extension name s.1 in (a.1, (a.2, s.2 ++ [Extension name])).
Fixpoint steps (l : list mail_step) : st mail_run (unit + string) :=
  match l with [] => gives () | c :: l => and_then (step c) (λ _, steps l) end.
(** [deliver], with a deadline: the connection is closed whatever fails. *)
Definition converse (e : EmailClient) (msg : string) : st mail_run (unit + string) :=
  and_then (steps [SetDeadline; Greet (em_host e)]) (λ _,
    let! tls := extension "STARTTLS" in
    and_then (steps (if tls then [StartTLS (em_host e)] else [])) (λ _,
      and_then (if str_eqb (em_user e) "" then gives ()
                else let! ok := extension "AUTH" in
                     if ok then step (Auth (em_user e) (em_pass e) (em_host e))
                     else fails "smtp: server does not support AUTH") (λ _,
        steps (Mail (em_from e) :: (Rcpt <$> recipients e) ++ [Data; Write msg; EndData; Quit])))).
Definition deliver (e : EmailClient) (msg : string) : st mail_run (unit + string) :=
  and_then (step (Dial (JoinHostPort (em_host e) (em_port e)))) (λ _,
    let! r := converse e msg in
    let! _ := step Close in
    return! r).
Definition Send (e : EmailClient) (inc : Incident) : st mail_run (unit + string) := deliver e (message e (redacted inc)).

(** *** The conversation *)
(** What the server's side of a step is: it went well or was refused, or
    whether the extension is there. *)
Inductive mail_reply := Well | Refused (e : string) | Has (b : bool).
#[export] Instance mail_answers : Answers W mail_step mail_reply := λ c w,
  match c with
  | Extension name => let a := mail_extension name w in (Has a.1, a.2)
  | _ => let a := mail_do c w in (match a.1 with None => Well | Some e => Refused e end, a.2)
  end.
Definition well (r : mail_reply) : option bool := match r with Well => Some true | _ => None end.
Definition has (r : mail_reply) : option bool := match r with Has b => Some b | _ => None end.
Abbreviation talk := (dialogue mail_step mail_reply bool unit).
(** Steps of which each has to go well before the next. *)
Definition all_well (l : list mail_step) : talk := foldr (λ c d, Ask c well (λ _, d)) (Done ()) l.
Definition closing (e : EmailClient) (msg : string) : talk :=
  all_well (Mail (em_from e) :: (Rcpt <$> recipients e) ++ [Data; Write msg; EndData; Quit]).
Definition login (e : EmailClient) (d : talk) : talk :=
  if str_eqb (em_user e) "" then d
  else Ask (Extension "AUTH") has (λ ok, if ok then Ask (Auth (em_user e) (em_pass e) (em_host e)) well (λ _, d) else GiveUp).
Definition conversation (e : EmailClient) (msg : string) : talk :=
  Ask SetDeadline well (λ _, Ask (Greet (em_host e)) well (λ _,
  Ask (Extension "STARTTLS") has (λ tls,
    if tls then Ask (StartTLS (em_host e)) well (λ _, login e (closing e msg)) else login e (closing e msg)))).

Definition asks (c : mail_step) : Prop := match c with Extension _ => False | _ => True end.
Lemma step_talks c : asks c →
  talks (step c) (λ l r, ∃ a, l = [(c, a)] ∧ match a with Well => r = inl () | Refused e => r = inr e | Has _ => False end).
Proof.
  intros Hc s. unfold step. exists [(c, (answer c s.1).1)].
  assert (answer c s.1 = (match (mail_do c s.1).1 with None => Well | Some e => Refused e end, (mail_do c s.1).2)) as E by (by destruct c).
  cbn [fst snd served]. rewrite E. split_and!; [done|done|done|]. eexists. split; [done|]. cbn.
  by destruct (mail_do c s.1).1.
Qed.
Lemma step_holds c : asks c → holds (step c) (Ask c well (λ _, Done ())).
Proof.
  intros Hc. eapply talks_weaken; [by apply step_talks|]. intros l r (a & -> & H). exists a, []. split; [done|].
  destruct a; cbn; [by subst|split; [done|by eexists]|done].
Qed.
Lemma steps_hold l : Forall asks l → holds (steps l) (all_well l).
Proof.
  induction 1 as [|c l Hc _ IH]; [apply holds_gives|].
  apply (holds_and_then (step c) _ (Ask c well (λ _, Done ())) (λ _, all_well l)); [by apply step_holds|]. by intros [].
Qed.
(** An extension is asked for, and what follows depends on the answer. *)
Lemma extension_holds name {A} (k : bool → st mail_run (A + string)) d :
  (∀ b, holds (k b) (d b)) → holds (let! b := extension name in k b) (Ask (Extension name) has d).
Proof.
  intros Hk. eapply (talks_bind _ _ (λ l b, l = [(Extension name, Has b)])).
  - intros s. unfold extension. exists [(Extension name, Has (mail_extension name s.1).1)]. by cbn.
  - intros l b ->. eapply talks_weaken; [apply Hk|]. intros l r H. exists (Has b), l. by split.
Qed.
Lemma closing_asks e msg : Forall asks (Mail (em_from e) :: (Rcpt <$> recipients e) ++ [Data; Write msg; EndData; Quit]).
Proof.
  constructor; [done|]. apply Forall_app. split; [apply Forall_fmap, Forall_true; done|by repeat constructor].
Qed.
Lemma login_holds e msg :
  holds (and_then (if str_eqb (em_user e) "" then gives ()
                   else let! ok := extension "AUTH" in
                        if ok then step (Auth (em_user e) (em_pass e) (em_host e))
                        else fails "smtp: server does not support AUTH")
           (λ _, steps (Mail (em_from e) :: (Rcpt <$> recipients e) ++ [Data; Write msg; EndData; Quit])))
    (login e (closing e msg)).
Proof.
  unfold login. destruct (str_eqb _ _).
  - apply (holds_and_then _ _ (Done ()) (λ _, closing e msg)); [apply holds_gives|]. intros []. apply steps_hold, closing_asks.
  - eapply talks_weaken.
    + apply (holds_and_then _ _ (Ask (Extension "AUTH") has (λ ok : bool,
        if ok then Ask (Auth (em_user e) (em_pass e) (em_host e)) well (λ _, Done ()) else GiveUp))
        (λ _, closing e msg)); [|intros []; apply steps_hold, closing_asks].
      apply extension_holds. intros []; [by apply step_holds|apply holds_fails].
    + intros l r (a & l' & -> & H). exists a, l'. split; [done|]. by destruct (has a) as [[]|].
Qed.
Lemma converse_holds e msg : holds (converse e msg) (conversation e msg).
Proof.
  apply (holds_and_then _ _ (all_well [SetDeadline; Greet (em_host e)])
    (λ _, Ask (Extension "STARTTLS") has (λ tls,
      if tls then Ask (StartTLS (em_host e)) well (λ _, login e (closing e msg)) else login e (closing e msg)))); [apply steps_hold; by repeat constructor|].
  intros []. apply extension_holds. intros [].
  - apply (holds_and_then _ _ (all_well [StartTLS (em_host e)]) (λ _, login e (closing e msg))); [apply steps_hold; by repeat constructor|].
    intros []. apply login_holds.
  - apply (holds_and_then _ _ (Done ()) (λ _, login e (closing e msg))); [apply holds_gives|]. intros []. apply login_holds.
Qed.

(** C18: A delivery dials, and when that goes well holds one conversation and
    closes the connection, whatever the server answers.  In the conversation
    each step is taken only when the server took the ones before it well, and
    the first one it refuses is the last before the connection is closed and
    makes the delivery an error: so TLS is started when the server has it,
    and neither credentials nor message follow when it fails; the credentials
    go only to a server that says it takes them, and without that nothing is
    sent; the message goes after every recipient was accepted; and success
    means that every step went well. *)
Theorem delivery_keeps_to_its_script e inc :
  let msg := message e (redacted inc) in
  let dial := Dial (JoinHostPort (em_host e) (em_port e)) in
  talks (Send e inc) (λ l r,
    (∃ x, l = [(dial, Refused x)] ∧ r = inr x)
    ∨ ∃ body closed, l = (dial, Well) :: body ++ [(Close, closed)] ∧ followed (conversation e msg) body r).
Proof.
  intros msg dial. unfold Send, deliver, and_then at 1. eapply talks_bind; [by apply step_talks|].
  intros l r (a & -> & H). destruct a as [|x|b]; subst; [| |done].
  - eapply talks_bind; [apply converse_holds|]. intros l r Hl.
    eapply talks_bind; [by apply step_talks|]. intros l' r' (a & -> & _). apply talks_ret.
    right. exists l, a. rewrite app_nil_r. by split.
  - apply talks_ret. left. by exists x.
Qed.
End mails.
End escalation.

(** ** Nothing leaves unredacted *)
Section unredacted.
Context {W : Type} `{!HttpServer W, !escalation.MailServer W}.
(** What is read of the answers, and the clock, as each client takes them. *)
Context (now : string) (clock : Z) (dec_choices : response → option (list string))
  (dec_search : string → (Z * list ghIssue) + string) (dec_created : string → string + string)
  (dec_jira_search : string → (Z * list string) + string) (dec_jira_key : string → string + string)
  (dec_ref dec_sha dec_commit dec_pull dec_web_url : string → string + string).

(** C11: The clients of the services outside the cluster put texts on the
    network only through the rules: two incidents whose title and text the
    rules make equal cannot be told apart by what Slack, Alertmanager, the
    language model, GitHub, GitLab, Jira, PagerDuty, OpsGenie or the mail
    server is sent, nor by what the agent learns from their answers; and
    neither can two block messages whose texts, wherever in them, the rules
    make equal, those of an approval among them.  The events that go to the
    agent's own controllers are not of these: the forwarder sends them as
    they are. *)
Theorem nothing_leaves_unredacted t t' b b' :
  redact_String t = redact_String t' → redact_String b = redact_String b' →
  (∀ hook, slack.postTo (W := W) hook t = slack.postTo hook t')
  ∧ (∀ hook bs bs', alike (AMaps bs) (AMaps bs') → slack.postBlocksTo (W := W) hook bs = slack.postBlocksTo hook bs')
  ∧ (∀ hook buttons, slack.postBlocksTo (W := W) hook (slack.block_payload <$> [SlackActions.SectionBlock t; SlackActions.ActionsBlock buttons])
                     = slack.postBlocksTo hook (slack.block_payload <$> [SlackActions.SectionBlock t'; SlackActions.ActionsBlock buttons]))
  ∧ (∀ c reason ns wl pod sev, alertmanager.FireIncident (W := W) clock c reason ns wl pod b sev
                               = alertmanager.FireIncident clock c reason ns wl pod b' sev)
  ∧ (∀ c, llm.DiagnoseWithFallback (W := W) dec_choices c t b = llm.DiagnoseWithFallback dec_choices c t' b')
  ∧ (∀ g key ls us, gh_CreateOrUpdate (W := W) now dec_search dec_created g key (mkTicket t b ls us)
                    = gh_CreateOrUpdate now dec_search dec_created g key (mkTicket t' b' ls us))
  ∧ (∀ j key ls us, ji_CreateOrUpdate (W := W) now dec_jira_search dec_jira_key j key (mkTicket t b ls us)
                    = ji_CreateOrUpdate now dec_jira_search dec_jira_key j key (mkTicket t' b' ls us))
  ∧ (∀ g gl p x br, gh_OpenPR (W := W) clock dec_ref dec_sha dec_pull g (mkChange p x t b br)
                    = gh_OpenPR clock dec_ref dec_sha dec_pull g (mkChange p x t' b' br)
                    ∧ gh_Commit (W := W) dec_sha dec_commit g (mkChange p x t b br)
                      = gh_Commit dec_sha dec_commit g (mkChange p x t' b br)
                    ∧ gl_OpenPR (W := W) clock dec_web_url gl (mkChange p x t b br)
                      = gl_OpenPR clock dec_web_url gl (mkChange p x t' b' br)
                    ∧ gl_Commit (W := W) dec_web_url gl (mkChange p x t b br)
                      = gl_Commit dec_web_url gl (mkChange p x t' b br))
  ∧ (∀ key e sev ns wl src, escalation.Trigger (W := W) key (mkIncident t b sev ns wl src)
                            = escalation.Trigger key (mkIncident t' b' sev ns wl src)
                            ∧ escalation.Create (W := W) key (mkIncident t b sev ns wl src)
                              = escalation.Create key (mkIncident t' b' sev ns wl src)
                            ∧ escalation.Send (W := W) e (mkIncident t b sev ns wl src)
                              = escalation.Send e (mkIncident t' b' sev ns wl src)).
Proof.
  intros Ht Hb. repeat split; intros.
  - unfold slack.postTo. by rewrite Ht.
  - unfold slack.postBlocksTo. by rewrite (Value_alike (AMaps bs) (AMaps bs')).
  - unfold slack.postBlocksTo. cbn -[redact_String]. by rewrite Ht.
  - unfold alertmanager.FireIncident, alertmanager.Fire, alertmanager.redacted, alertmanager.incident_alert, redact_Map.
    cbn -[redact_String]. rewrite !fmap_insert. by rewrite Hb.
  - unfold llm.DiagnoseWithFallback, llm.Diagnose, llm.prompt. by rewrite Ht, Hb.
  - unfold gh_CreateOrUpdate, redactTicket. cbn -[redact_String]. by rewrite Ht, Hb.
  - unfold ji_CreateOrUpdate, redactTicket. cbn -[redact_String]. by rewrite Ht, Hb.
  - unfold gh_OpenPR, redact_change. cbn -[redact_String]. by rewrite Ht, Hb.
  - unfold gh_Commit. cbn -[redact_String]. by rewrite Ht.
  - unfold gl_OpenPR, redact_change. cbn -[redact_String]. by rewrite Ht, Hb.
  - unfold gl_Commit. cbn -[redact_String]. by rewrite Ht.
  - unfold escalation.Trigger, escalation.redacted. cbn -[redact_String]. by rewrite Ht, Hb.
  - unfold escalation.Create, escalation.redacted. cbn -[redact_String]. by rewrite Ht, Hb.
  - unfold escalation.Send, escalation.redacted. cbn -[redact_String]. by rewrite Ht, Hb.
Qed.
End unredacted.

Lemma nothing_leaves_unredacted_witness :
  let H : HttpServer unit := Build_HttpServer _ (λ _ w, (inl (mkResponse 200 "" None), w)) in
  let M : escalation.MailServer unit := escalation.Build_MailServer _ (λ _ w, (None, w)) (λ _ w, (true, w)) in
  redact_String "login of alice@example.com: password=hunter2" = redact_String "login of bob.b@example.org: password=correcthorse"
  ∧ ∀ hook, slack.postTo (W := unit) hook "login of alice@example.com: password=hunter2"
            = slack.postTo hook "login of bob.b@example.org: password=correcthorse".
Proof.
  intros H M. assert (redact_String "login of alice@example.com: password=hunter2"
    = redact_String "login of bob.b@example.org: password=correcthorse") as E by (vm_compute; reflexivity).
  split; [exact E|].
  apply (nothing_leaves_unredacted (W := unit) "" 0 (λ _, None) (λ _, inr "") (λ _, inr "") (λ _, inr "") (λ _, inr "")
    (λ _, inr "") (λ _, inr "") (λ _, inr "") (λ _, inr "") (λ _, inr "") _ _ "" "" E eq_refl).
Defined.
