(* ===== verification/Cost.v ===== *)
(** * The cost page: internal/httpapi/cost.go

    Prices from the settings, the figures of Kubecost or OpenCost when one is
    configured and answers, and the page computed from the cluster otherwise.
    Floats are binary64, each operation rounded on its own.  The decoding of
    an answer is a parameter; log lines and counters are left out. *)
From S2P Require Import Prelude GoStd Config K8s Http Routing SlackActions HttpReads.
From Stdlib Require Import Ascii SpecFloat.
#[local] Open Scope Z_scope.
#[local] Open Scope agent_scope.

(** ** Numbers *)
(** [math.Round]: halves away from zero. *)
Definition math_Round (f : float64) : float64 :=
  match f with
  | S754_finite s m e =>
    if 0 <=? e then f
    else let n := (Z.pos m + 2 ^ (- e - 1)) / 2 ^ (- e) in
         if n =? 0 then S754_zero s else f64_of_Z (cond_Zopp s n)
  | _ => f
  end.
Definition rounded (scale : Z) (f : float64) : float64 := f64_div (math_Round (f64_mul f (f64_of_Z scale))) (f64_of_Z scale).
Definition round1 : float64 → float64 := rounded 10.
Definition round2 : float64 → float64 := rounded 100.
Definition round3 : float64 → float64 := rounded 1000.
Definition round4 : float64 → float64 := rounded 10000.
Definition parseFloat (v : string) (def : float64) : float64 :=
  if str_eqb v "" then def else default def (strconv_ParseFloat v).
Definition orDefault (v def : string) : string := if str_eqb v "" then def else v.
Definition safePct (used total : float64) : float64 :=
  if f64_leb total f64_zero then f64_zero else f64_mul (f64_div used total) (f64_of_Z 100).
Definition Ki : float64 := f64_of_Z 1024.
Definition Mi : float64 := f64_of_Z (2 ^ 20).
Definition Gi : float64 := f64_of_Z (2 ^ 30).

(** ** Prices *)
Record CostConfig := mkCostConfig {
  CPUPerHour : float64; MemPerGiBHour : float64; HoursPerMonth : float64; Source : string; Currency : string;
  InstancePrices : gmap string float64; KubecostURL : string; OpenCostURL : string
}.
Definition set_Source (s : string) (c : CostConfig) : CostConfig :=
  mkCostConfig (CPUPerHour c) (MemPerGiBHour c) (HoursPerMonth c) s (Currency c) (InstancePrices c) (KubecostURL c) (OpenCostURL c).
Definition add_price (m : gmap string float64) (pair : string) : gmap string float64 :=
  match strings_CutS (strings_TrimSpace pair) "=" with
  | Some (name, price) => match strconv_ParseFloat price with Some v => <[name := v]> m | None => m end
  | None => m
  end.
Definition instance_prices (text : string) : gmap string float64 :=
  if str_eqb text "" then ∅ else foldl add_price ∅ (strings_Split text ","%char).
Definition source_of (c : config.Cost) : string :=
  if negb (str_eqb (config.co_KubecostURL c) "") then "kubecost"
  else if negb (str_eqb (config.co_OpenCostURL c) "") then "opencost"
  else if negb (str_eqb (config.co_CPUPerHour c) "") then "manual" else "default".
Definition newCostConfig (c : config.Cost) : CostConfig :=
  let prices := instance_prices (config.co_InstancePrices c) in
  mkCostConfig (parseFloat (config.co_CPUPerHour c) (f64_const 5 2)) (parseFloat (config.co_MemPerGiBHour c) (f64_const 5 3))
    (f64_of_Z 730) (if bool_decide (prices = ∅) then source_of c else "instance-type")
    (orDefault (config.co_Currency c) "USD") prices (config.co_KubecostURL c) (config.co_OpenCostURL c).
(** Prices that are known. *)
Definition awsPricing : list (string * float64) :=
  [("t3.micro", f64_const 104 4); ("t3.small", f64_const 208 4); ("t3.medium", f64_const 416 4);
   ("t3.large", f64_const 832 4); ("t3.xlarge", f64_const 1664 4); ("t3a.micro", f64_const 94 4);
   ("t3a.small", f64_const 188 4); ("t3a.medium", f64_const 376 4); ("t3a.large", f64_const 752 4);
   ("m5.large", f64_const 96 3); ("m5.xlarge", f64_const 192 3); ("m5.2xlarge", f64_const 384 3);
   ("m5.4xlarge", f64_const 768 3); ("m5a.large", f64_const 86 3); ("m5a.xlarge", f64_const 172 3);
   ("m5a.2xlarge", f64_const 344 3); ("m6i.large", f64_const 96 3); ("m6i.xlarge", f64_const 192 3);
   ("m6i.2xlarge", f64_const 384 3); ("m6g.medium", f64_const 385 4); ("m6g.large", f64_const 77 3);
   ("m6g.xlarge", f64_const 154 3); ("m6g.2xlarge", f64_const 308 3); ("m7g.medium", f64_const 408 4);
   ("m7g.large", f64_const 816 4); ("m7g.xlarge", f64_const 1632 4); ("c5.large", f64_const 85 3);
   ("c5.xlarge", f64_const 17 2); ("c5.2xlarge", f64_const 34 2); ("c5.4xlarge", f64_const 68 2);
   ("c6g.large", f64_const 68 3); ("c6g.xlarge", f64_const 136 3); ("c6g.2xlarge", f64_const 272 3);
   ("c6i.large", f64_const 85 3); ("c6i.xlarge", f64_const 17 2); ("c6i.2xlarge", f64_const 34 2);
   ("c7g.large", f64_const 725 4); ("c7g.xlarge", f64_const 145 3); ("r5.large", f64_const 126 3);
   ("r5.xlarge", f64_const 252 3); ("r5.2xlarge", f64_const 504 3); ("r6g.large", f64_const 1008 4);
   ("r6g.xlarge", f64_const 2016 4); ("r6i.large", f64_const 126 3); ("r6i.xlarge", f64_const 252 3);
   ("n2-standard-2", f64_const 971 4); ("n2-standard-4", f64_const 1942 4);
   ("n2-standard-8", f64_const 3885 4); ("e2-medium", f64_const 335 4); ("e2-standard-2", f64_const 67 3);
   ("e2-standard-4", f64_const 134 3); ("n2d-standard-2", f64_const 845 4);
   ("n2d-standard-4", f64_const 169 3); ("Standard_B2s", f64_const 416 4); ("Standard_B2ms", f64_const 832 4);
   ("Standard_D2s_v3", f64_const 96 3); ("Standard_D4s_v3", f64_const 192 3);
   ("Standard_D8s_v3", f64_const 384 3); ("Standard_D2as_v4", f64_const 86 3);
   ("Standard_D4as_v4", f64_const 172 3)].
Definition known (l : list (string * float64)) (name : string) : option float64 := snd <$> head (filter (λ p, p.1 = name) l).
Definition nodeHourlyRate (c : CostConfig) (instanceType : string) (cpuCores memGiB : float64) : float64 * string :=
  let computed := (f64_add (f64_mul cpuCores (CPUPerHour c)) (f64_mul memGiB (MemPerGiBHour c)), "computed") in
  if str_eqb instanceType "" then computed
  else match InstancePrices c !! instanceType with
       | Some price => (price, "instance-type")
       | None => match known awsPricing instanceType with Some price => (price, "aws-known") | None => computed end
       end.
Definition calcCost (c : CostConfig) (cpuCores memMiB : float64) : float64 :=
  f64_mul (f64_add (f64_mul cpuCores (CPUPerHour c)) (f64_mul (f64_div memMiB Ki) (MemPerGiBHour c))) (HoursPerMonth c).

(** ** What is asked for *)
Definition request_of (m : gmap string Quantity) (name : string) (scale : float64 → float64) (sum : float64) : float64 :=
  match m !! name with Some q => f64_add sum (scale (q_float q)) | None => sum end.
Definition in_Mi (f : float64) : float64 := f64_div f Mi.
(** [podResourceRequests] and [templateResourceRequests]. *)
Definition resource_requests (l : list Container) : float64 * float64 :=
  foldl (λ s c, (request_of (ct_Requests c) "cpu" id s.1, request_of (ct_Requests c) "memory" in_Mi s.2)) (f64_zero, f64_zero) l.

(** ** The page *)
Record nodeCost := mkNodeCost {
  nc_Name : string; nc_InstanceType : string; nc_CPUCores : float64; nc_MemoryGiB : float64; nc_Pods : Z; nc_Monthly : float64;
  nc_HourlyRate : float64; nc_CPUUsedPct : float64; nc_MemUsedPct : float64; nc_PriceSource : string
}.
Record namespaceCost := mkNamespaceCost {
  ns_Name : string; ns_Pods : Z; ns_CPUReq : float64; ns_MemReqMiB : float64; ns_Monthly : float64
}.
Record workloadCost := mkWorkloadCost {
  wc_Namespace : string; wc_Name : string; wc_Kind : string; wc_Replicas : Z; wc_CPUReq : float64; wc_MemReqMiB : float64;
  wc_Monthly : float64
}.
Record costSummary := mkCostSummary {
  su_TotalCPUCores : float64; su_TotalMemoryGiB : float64; su_AllocatedCPU : float64; su_AllocatedMemGiB : float64;
  su_CPUUtilization : float64; su_MemUtilization : float64; su_TotalPods : Z; su_TotalNodes : Z
}.
Record clusterCost := mkClusterCost {
  cl_TotalMonthly : float64; cl_NodeCost : float64; cl_WorkloadCost : float64; cl_WastedCost : float64;
  cl_Nodes : list nodeCost; cl_Namespaces : list namespaceCost; cl_TopWorkloads : list workloadCost;
  cl_Summary : costSummary; cl_Config : CostConfig
}.
Definition no_summary : costSummary := mkCostSummary f64_zero f64_zero f64_zero f64_zero f64_zero f64_zero 0 0.
Definition no_config : CostConfig := mkCostConfig f64_zero f64_zero f64_zero "" "" ∅ "" "".
(** A page with the figures of a source, and the page of no cluster. *)
Definition bare_cost (c : CostConfig) (total work : float64) (nss : list namespaceCost) : clusterCost :=
  mkClusterCost total f64_zero work f64_zero [] nss [] no_summary c.
Definition empty_cost : clusterCost := bare_cost no_config f64_zero f64_zero [].

(** *** Kubecost and OpenCost *)
Section allocation.
Context {W : Type} `{!HttpServer W}.
(** [json.Unmarshal] of the body: for each window, the costs by namespace in
    the order they are ranged over. *)
Context (dec_allocation : string → list (list (string * float64)) + string).
Definition maxAllocation : nat := Z.to_nat (2 * 2 ^ 20).
Definition allocation_cost (c : CostConfig) (source : string) (data : list (list (string * float64))) : clusterCost :=
  let rows := default [] (head data) in
  let sum := foldl (λ s (r : string * float64), f64_add s r.2) f64_zero rows in
  bare_cost (set_Source source c) sum sum ((λ r : string * float64, mkNamespaceCost r.1 0 f64_zero f64_zero (round2 r.2)) <$> rows).
Definition fetchAllocation (c : CostConfig) (source url : string) : st (net W) (clusterCost + string) :=
  let! a := send (Http.mkRequest "GET" url [] None) in
  match a with
  | inr e => fails (source +:+ ": " +:+ e)
  | inl a =>
    if negb (rs_Status a =? 200) then fails (source +:+ ": status " +:+ itoa (rs_Status a))
    else match rs_ReadErr a with
         | Some e => fails (source +:+ ": read: " +:+ e)
         | None => match dec_allocation (str_take maxAllocation (rs_Body a)) with
                   | inr e => fails (source +:+ ": parse: " +:+ e)
                   | inl data => gives (allocation_cost c source data)
                   end
         end
  end.
Definition fetchKubecostData (c : CostConfig) : st (net W) (clusterCost + string) :=
  fetchAllocation c "kubecost" (KubecostURL c +:+ "/model/allocation?window=30d&aggregate=namespace&accumulate=true").
Definition fetchOpenCostData (c : CostConfig) : st (net W) (clusterCost + string) :=
  fetchAllocation c "opencost" (OpenCostURL c +:+ "/allocation/compute?window=30d&aggregate=namespace&accumulate=true").
(** A source that is configured, or none. *)
Definition try_source (url : string) (fetch : st (net W) (clusterCost + string)) : st (net W) (option clusterCost) :=
  if str_eqb url "" then return! None
  else let! r := fetch in return! (match r with inl data => Some data | inr _ => None end).
Definition external (c : CostConfig) : st (net W) (option clusterCost) :=
  let! k := try_source (KubecostURL c) (fetchKubecostData c) in
  match k with
  | Some data => return! Some data
  | None => try_source (OpenCostURL c) (fetchOpenCostData c)
  end.
End allocation.

(** *** Computed from the cluster *)
Record totals := mkTotals {
  to_Nodes : list nodeCost; to_NodeCost : float64; to_CPU : float64; to_Mem : float64; to_AllocCPU : float64; to_AllocMem : float64
}.
Definition instance_type (n : Node) : string :=
  let label k := default "" (n_Labels n !! k) in
  if str_eqb (label "node.kubernetes.io/instance-type") "" then label "beta.kubernetes.io/instance-type"
  else label "node.kubernetes.io/instance-type".
(** The requests of a list of pods, summed pod by pod. *)
Definition pods_requests (l : list Pod) : float64 * float64 :=
  foldl (λ s p, let r := resource_requests (p_Containers p) in (f64_add s.1 r.1, f64_add s.2 r.2)) (f64_zero, f64_zero) l.
Definition add_node (c : CostConfig) (byNode : gmap string (list Pod)) (t : totals) (n : Node) : totals :=
  let cpuCores := n_Cores n in
  let memGiB := f64_div (n_Bytes n) Gi in
  let '(hourly, priceSource) := nodeHourlyRate c (instance_type n) cpuCores memGiB in
  let pods := default [] (byNode !! n_Name n) in
  let '(cpuReq, memReq) := pods_requests pods in
  let monthly := f64_mul hourly (HoursPerMonth c) in
  let memReqGiB := f64_div memReq Ki in
  mkTotals
    (to_Nodes t ++ [mkNodeCost (n_Name n) (instance_type n) cpuCores (round2 memGiB) (Z.of_nat (length pods)) (round2 monthly)
                      (round4 hourly) (round1 (safePct cpuReq cpuCores)) (round1 (safePct memReqGiB memGiB)) priceSource])
    (f64_add (to_NodeCost t) monthly) (f64_add (to_CPU t) cpuCores) (f64_add (to_Mem t) memGiB)
    (f64_add (to_AllocCPU t) cpuReq) (f64_add (to_AllocMem t) memReqGiB).
Definition no_totals : totals := mkTotals [] f64_zero f64_zero f64_zero f64_zero f64_zero.
Definition node_totals (c : CostConfig) (byNode : gmap string (list Pod)) (nodes : list Node) : totals :=
  foldl (add_node c byNode) no_totals nodes.

Definition namespace_cost (c : CostConfig) (ns : string) (pods : option (list Pod)) : namespaceCost :=
  let l := default [] pods in
  let '(cpu, mem) := pods_requests l in
  mkNamespaceCost ns (Z.of_nat (length l)) cpu mem (round2 (calcCost c cpu mem)).
Definition workload_cost (c : CostConfig) (ns kind name : string) (replicas : option Z) (l : list Container) : workloadCost :=
  let replicas := default 1 replicas in
  let '(cpu, mem) := resource_requests l in
  mkWorkloadCost ns name kind replicas (round3 cpu) (round1 mem)
    (round2 (calcCost c (f64_mul cpu (f64_of_Z replicas)) (f64_mul mem (f64_of_Z replicas)))).

(** [sortWorkloads]: the workload at [j] goes left while it costs more. *)
Fixpoint sift (j : nat) (w : list workloadCost) : list workloadCost :=
  match j with
  | O => w
  | S j' =>
    match w !! j', w !! j with
    | Some a, Some b => if f64_ltb (wc_Monthly a) (wc_Monthly b) then sift j' (<[j := a]> (<[j' := b]> w)) else w
    | _, _ => w
    end
  end.
Definition sortWorkloads (w : list workloadCost) : list workloadCost := foldl (λ w i, sift i w) w (seq 1 (length w - 1)).
Definition countAllPods (nss : list namespaceCost) : Z := foldl (λ t ns, t + ns_Pods ns) 0 nss.

(** The rows of the namespaces, their sum, and the workloads. *)
Record namespaces := mkNamespaces { na_rows : list namespaceCost; na_cost : float64; na_workloads : list workloadCost }.
Definition no_namespaces : namespaces := mkNamespaces [] f64_zero [].

Section page.
Context `{!HttpAPI} (allowNS : option (string → bool)).
Abbreviation allowed := (nsAllowed allowNS).
Definition add_namespace (c : CostConfig) (t : namespaces) (ns : string) : reading namespaces :=
  let! pods := look "pods" ns (h_pods ns) in
  let row := namespace_cost c ns pods in
  let! deploys := look "deployments" ns (h_deployments ns) in
  let! stss := look "statefulsets" ns (h_statefulsets ns) in
  return! mkNamespaces (na_rows t ++ [row]) (f64_add (na_cost t) (ns_Monthly row))
    (na_workloads t
     ++ ((λ d, workload_cost c ns "Deployment" (d_Name d) (d_Replicas d) (d_Containers d)) <$> default [] deploys)
     ++ ((λ s, workload_cost c ns "StatefulSet" (ss_Name s) (ss_Replicas s) (ss_Containers s)) <$> default [] stss)).
Fixpoint add_namespaces (c : CostConfig) (l : list string) (t : namespaces) : reading namespaces :=
  match l with
  | [] => return! t
  | ns :: l' => if negb (allowed ns) then add_namespaces c l' t else let! t := add_namespace c t ns in add_namespaces c l' t
  end.
Definition utilization (alloc total : float64) : float64 :=
  if f64_ltb f64_zero total then round1 (f64_mul (f64_div alloc total) (f64_of_Z 100)) else f64_zero.
Definition page_of (c : CostConfig) (t : totals) (n : namespaces) : clusterCost :=
  let wasted := round2 (f64_sub (to_NodeCost t) (na_cost n)) in
  mkClusterCost (round2 (to_NodeCost t)) (to_NodeCost t) (round2 (na_cost n))
    (if f64_ltb wasted f64_zero then f64_zero else wasted) (to_Nodes t) (na_rows n) (take 20 (sortWorkloads (na_workloads n)))
    (mkCostSummary (round1 (to_CPU t)) (round1 (to_Mem t)) (round2 (to_AllocCPU t)) (round2 (to_AllocMem t))
       (utilization (to_AllocCPU t) (to_CPU t)) (utilization (to_AllocMem t) (to_Mem t)) (countAllPods (na_rows n))
       (Z.of_nat (length (to_Nodes t)))) c.
(** A computed page never carries the name of a source that did not answer. *)
Definition computed_source (c : CostConfig) : CostConfig :=
  if bool_decide (Source c ∈ ["kubecost"; "opencost"]) then set_Source "computed" c else c.
Definition computed_cost (c : CostConfig) : reading (response clusterCost) :=
  let! nodes := look "nodes" "" h_nodes in
  match nodes with
  | inr e => return! RespText 500 e
  | inl nodes =>
    let! byNode := watchedPodsByNode allowNS in
    let t := node_totals c byNode nodes in
    let! l := look "namespaces" "" h_namespaces in
    let! n := add_namespaces c (match l with inl l => l.*1 | inr _ => [] end) no_namespaces in
    return! RespJSON (page_of (computed_source c) t n)
  end.

(** The handler: what it asks of the sources, and what it reads. *)
Context {W : Type} `{!HttpServer W} (dec_allocation : string → list (list (string * float64)) + string).
Definition handleCost (kc : bool) (c : CostConfig) : st (net W * list cread) (response clusterCost) :=
  λ s,
    if negb kc then (RespJSON empty_cost, s)
    else let a := external dec_allocation c s.1 in
         match a.1 with
         | Some data => (RespJSON data, (a.2, s.2))
         | None => let p := computed_cost c s.2 in (p.1, (a.2, p.2))
         end.
End page.

(** ** The order of floats

    Of two numbers that are not NaN one is at most the other, and the order
    is transitive: it is that of these triples. *)
Definition rank (f : float64) : Z * Z * Z :=
  match f with
  | S754_zero _ | S754_nan => (0, 0, 0)
  | S754_infinity s => (cond_Zopp s 2, 0, 0)
  | S754_finite s m e => (cond_Zopp s 1, cond_Zopp s e, cond_Zopp s (Z.pos m))
  end.
Definition rank_compare (a b : Z * Z * Z) : comparison :=
  match a.1.1 ?= b.1.1 with
  | Eq => match a.1.2 ?= b.1.2 with Eq => a.2 ?= b.2 | c => c end
  | c => c
  end.
Lemma compare_rank a b : f64_is_nan a = false → f64_is_nan b = false → SFcompare a b = Some (rank_compare (rank a) (rank b)).
Proof.
  destruct a as [| [] | | [] ma ea], b as [| [] | | [] mb eb]; try done; intros _ _.
  cbn [SFcompare]. f_equal. unfold rank_compare. cbn [rank fst snd cond_Zopp].
  rewrite !Z.compare_opp, Z.compare_refl, (Z.compare_antisym ea eb). destruct (ea ?= eb) eqn:E; try done. cbn [CompOpp].
  change (Z.pos mb ?= Z.pos ma) with (mb ?= ma)%positive. by rewrite (Pos.compare_antisym ma mb).
Qed.
Lemma ltb_rank a b : f64_is_nan a = false → f64_is_nan b = false →
  f64_ltb a b = true ↔ rank_compare (rank a) (rank b) = Lt.
Proof. intros Ha Hb. unfold f64_ltb, SFltb. rewrite compare_rank by done. by destruct (rank_compare _ _). Qed.
Lemma ge_trans a b c : f64_is_nan a = false → f64_is_nan b = false → f64_is_nan c = false →
  f64_ltb a b = false → f64_ltb b c = false → f64_ltb a c = false.
Proof.
  intros Ha Hb Hc Hab Hbc. apply not_true_iff_false. apply not_true_iff_false in Hab, Hbc.
  revert Hab Hbc. rewrite !ltb_rank by done. unfold rank_compare. destruct (rank a) as [[x y] z], (rank b) as [[x' y'] z'], (rank c) as [[x'' y''] z''].
  cbn [fst snd]. destruct (Z.compare_spec x x'), (Z.compare_spec x' x''), (Z.compare_spec x x''); try lia; try done;
    destruct (Z.compare_spec y y'), (Z.compare_spec y' y''), (Z.compare_spec y y''); try lia; try done;
    rewrite ?Z.compare_lt_iff; lia.
Qed.
Lemma ltb_asym a b : f64_ltb a b = true → f64_ltb b a = false.
Proof.
  destruct (f64_is_nan a) eqn:Ha; [by destruct a|]. destruct (f64_is_nan b) eqn:Hb; [destruct b; try done; by destruct a as [|[]| |[]]|].
  rewrite ltb_rank by done. intros H. apply not_true_iff_false. rewrite ltb_rank by done. revert H.
  unfold rank_compare. destruct (rank a) as [[x y] z], (rank b) as [[x' y'] z']. cbn [fst snd].
  rewrite (Z.compare_antisym x x'), (Z.compare_antisym y y'), (Z.compare_antisym z z').
  destruct (x ?= x'); try done. cbn. destruct (y ?= y'); try done. cbn. by destruct (z ?= z').
Qed.

(** ** The dearest workloads *)
Definition at_least (a b : workloadCost) : Prop := f64_ltb (wc_Monthly a) (wc_Monthly b) = false.
(** Where [sift] puts what is at the end of a list. *)
Lemma sift_spec l x r : ∃ l1 l2, l = l1 ++ l2 ∧ sift (length l) (l ++ x :: r) = l1 ++ x :: l2 ++ r
  ∧ Forall (λ y, f64_ltb (wc_Monthly y) (wc_Monthly x) = true) l2 ∧ ∀ y, last l1 = Some y → at_least y x.
Proof.
  revert r. induction l as [|y l IH] using rev_ind; intros r.
  - by exists [], [].
  - rewrite length_app, Nat.add_comm. cbn [length Nat.add sift].
    assert ((l ++ [y]) ++ x :: r = l ++ y :: x :: r) as -> by by rewrite <-(assoc_L (++)).
    rewrite (list_lookup_middle l (x :: r) y (length l)) by done.
    assert ((l ++ y :: x :: r) !! S (length l) = Some x) as ->
      by (rewrite (lookup_app_r l) by lia; by replace (S (length l) - length l)%nat with 1%nat by lia).
    destruct (f64_ltb _ _) eqn:Hlt.
    + assert (<[S (length l) := y]> (<[length l := x]> (l ++ y :: x :: r)) = l ++ x :: y :: r) as ->.
      { rewrite !insert_app_r_alt, Nat.sub_diag by lia. by replace (S (length l) - length l)%nat with 1%nat by lia. }
      destruct (IH (y :: r)) as (l1 & l2 & -> & E & H2 & H1). exists l1, (l2 ++ [y]).
      split_and!; [by rewrite (assoc_L (++))|by rewrite E, <-(assoc_L (++))| |done].
      apply Forall_app. split; [done|]. by apply Forall_singleton.
    + exists (l ++ [y]), []. split_and!; [by rewrite app_nil_r|by rewrite <-(assoc_L (++))|done|].
      intros z. rewrite last_snoc. by intros [= <-].
Qed.
Definition no_nan (w : list workloadCost) : Prop := Forall (λ x, f64_is_nan (wc_Monthly x) = false) w.

Lemma no_nan_perm w w' : w ≡ₚ w' → no_nan w → no_nan w'.
Proof. intros H. by apply Permutation_Forall. Qed.
Lemma at_least_trans w a b c : no_nan w → a ∈ w → b ∈ w → c ∈ w → at_least a b → at_least b c → at_least a c.
Proof. unfold no_nan. rewrite Forall_forall. intros H Ha Hb Hc. apply ge_trans; by apply H. Qed.
(** One round: the prefix stays sorted. *)
Lemma sift_sorts l x r : no_nan (l ++ [x]) → StronglySorted at_least l →
  ∃ l', l' ≡ₚ l ++ [x] ∧ sift (length l) (l ++ x :: r) = l' ++ r ∧ StronglySorted at_least l'.
Proof.
  intros Hn Hs. destruct (sift_spec l x r) as (l1 & l2 & -> & -> & H2 & H1).
  exists (l1 ++ x :: l2). split_and!; [|by rewrite <-(assoc_L (++))|].
  { rewrite <-(assoc_L (++)). f_equiv. by rewrite <-Permutation_cons_append. }
  apply StronglySorted_app in Hs as (H12 & Hs1 & Hs2).
  assert (∀ y, y ∈ l1 → at_least y x) as Hx.
  { intros y Hy. destruct (last l1) as [z|] eqn:El; [|by apply last_None in El as ->; apply elem_of_nil in Hy].
    specialize (H1 z eq_refl). apply last_Some in El as [l0 ->]. apply elem_of_app in Hy as [Hy|Hy].
    - apply (at_least_trans _ y z x Hn); [set_solver..| |done].
      apply StronglySorted_app in Hs1 as (H01 & _ & _). apply H01; [done|set_solver].
    - apply list_elem_of_singleton in Hy. by subst y. }
  apply StronglySorted_app. split_and!; [|done|].
  - intros y z Hy [->|Hz]%elem_of_cons; [by apply Hx|by apply H12].
  - constructor; [done|]. eapply Forall_impl; [exact H2|]. intros y. apply ltb_asym.
Qed.
Lemma sort_rounds k : ∀ l r, no_nan (l ++ r) → StronglySorted at_least l → (length l + k = length (l ++ r))%nat →
  ∃ l', l' ≡ₚ l ++ r ∧ foldl (λ w i, sift i w) (l ++ r) (seq (length l) k) = l' ∧ StronglySorted at_least l'.
Proof.
  induction k as [|k IH]; intros l r Hn Hs Hl; rewrite length_app in Hl.
  - destruct r; [|cbn in Hl; lia]. rewrite app_nil_r. by exists l.
  - destruct r as [|x r]; [cbn in Hl; lia|]. cbn [seq foldl].
    destruct (sift_sorts l x r) as (l' & Hp & -> & Hs'); [|done|].
    { unfold no_nan in *. rewrite Forall_app in Hn |- *. rewrite Forall_cons in Hn. rewrite Forall_singleton. tauto. }
    assert (length l' = S (length l)) as Hl' by (rewrite Hp, length_app; cbn; lia). rewrite <-Hl'.
    assert (l' ++ r ≡ₚ l ++ x :: r) as Hpp by by rewrite Hp, <-(assoc_L (++)).
    destruct (IH l' r) as (l'' & Hp' & E & Hs''); [by eapply no_nan_perm|done| |].
    { rewrite Hpp, Hl', length_app. cbn in *. lia. }
    exists l''. split; [by rewrite Hp'|done].
Qed.
Lemma sort_is_sorted w : no_nan w → sortWorkloads w ≡ₚ w ∧ StronglySorted at_least (sortWorkloads w).
Proof.
  intros Hn. destruct w as [|x w]; [by repeat constructor|]. unfold sortWorkloads. cbn [length]. rewrite Nat.sub_succ, Nat.sub_0_r.
  destruct (sort_rounds (length w) [x] w) as (l & Hp & E & Hs); [done|by repeat constructor|by cbn|].
  cbn [length app] in E. rewrite E. by split.
Qed.

(** The page shows the workloads that cost the most: what it shows is in
    order, and no workload it leaves out costs more than one it shows. *)
Theorem top_workloads_are_the_dearest c t n :
  no_nan (na_workloads n) →
  let top := cl_TopWorkloads (page_of c t n) in
  StronglySorted at_least top ∧ (length top = Nat.min 20 (length (na_workloads n)))
  ∧ ∃ rest, top ++ rest ≡ₚ na_workloads n ∧ ∀ x y, x ∈ top → y ∈ rest → at_least x y.
Proof.
  intros Hn. destruct (sort_is_sorted _ Hn) as [Hp Hs]. cbn [page_of cl_TopWorkloads].
  set (s := sortWorkloads (na_workloads n)) in *. rewrite <-(take_drop 20 s) in Hs, Hp.
  apply StronglySorted_app in Hs as (Hle & Hs & _). split; [done|]. split.
  - rewrite length_take, <-Hp, length_app, length_take, length_drop. lia.
  - exists (drop 20 s). split; [done|]. exact Hle.
Qed.

Lemma sift_perm j w : sift j w ≡ₚ w.
Proof.
  destruct (w !! j) as [x|] eqn:E; [|destruct j; [done|]; cbn; rewrite E; by destruct (w !! j)].
  rewrite <-(take_drop_middle w j x E). assert (length (take j w) = j) as Hj.
  { apply length_take_le. apply Nat.lt_le_incl. by eapply lookup_lt_Some. }
  destruct (sift_spec (take j w) x (drop (S j) w)) as (l1 & l2 & Hl & E' & _). rewrite Hj in E'. rewrite E', Hl.
  rewrite <-(assoc_L (++)). f_equiv. by rewrite (Permutation_middle l2).
Qed.
Lemma sort_perm w : sortWorkloads w ≡ₚ w.
Proof.
  unfold sortWorkloads. generalize (seq 1 (length w - 1)). intros l. revert w.
  induction l as [|i l IH]; intros w; [done|]. cbn [foldl]. by rewrite IH, sift_perm.
Qed.

(** ** Where the figures come from *)
Section honest.
Context `{!HttpAPI} (allowNS : option (string → bool)).
Context {W : Type} `{!HttpServer W} (dec_allocation : string → list (list (string * float64)) + string).
#[local] Existing Instance more_reads_preorder.
Abbreviation scoped := (more_reads allowNS).

Definition in_scope (t : namespaces) : Prop :=
  Forall (λ r, nsAllowed allowNS (ns_Name r) = true) (na_rows t)
  ∧ Forall (λ w, nsAllowed allowNS (wc_Namespace w) = true) (na_workloads t).
(** A run that reads within scope and ends with such a result. *)
Definition ends {A} (m : reading A) (Q : A → Prop) : Prop := ∀ s, scoped s (m s).2 ∧ Q (m s).1.
Lemma ends_ret {A} (a : A) (Q : A → Prop) : Q a → ends (return! a) Q.
Proof. by intros Ha s. Qed.
Lemma ends_bind {A B} (m : reading A) (k : A → reading B) (P : A → Prop) (Q : B → Prop) :
  ends m P → (∀ a, P a → ends (k a) Q) → ends (st_bind m k) Q.
Proof.
  intros Hm Hk s. unfold st_bind. destruct (Hm s) as [H1 HP]. destruct (m s) as [a s']. destruct (Hk a HP s') as [H2 HQ].
  split; [by etrans|done].
Qed.
Lemma ends_look {A} resource ns (a : A) : read_ok allowNS (mkRead resource ns) → ends (look resource ns a) (λ a', a' = a).
Proof. intros Hr s. split; [|done]. exists [mkRead resource ns]. split; [done|by apply Forall_singleton]. Qed.
Lemma ends_keeps {A} (m : reading A) : keeps scoped m → ends m (λ _, True).
Proof. intros Hm s. split; [apply Hm|done]. Qed.
Ltac reads := lazymatch goal with
  | |- ends (st_bind (look _ _ _) _) _ => eapply ends_bind; [apply ends_look|intros ? ->]
  | |- ends (return! _) _ => apply ends_ret end.

Lemma add_namespace_scoped c t ns : nsAllowed allowNS ns = true → in_scope t → ends (add_namespace c t ns) in_scope.
Proof.
  intros Hns [Hr Hw]. unfold add_namespace. repeat (reads; [by left|]). reads. split; cbn.
  - apply Forall_app. split; [done|]. apply Forall_singleton. unfold namespace_cost. by destruct (pods_requests _).
  - rewrite !Forall_app, !Forall_fmap. split_and!; [done| |]; apply Forall_true; intros x; cbn;
      unfold workload_cost; by destruct (resource_requests _).
Qed.
Lemma add_namespaces_scoped c l t : in_scope t → ends (add_namespaces allowNS c l t) in_scope.
Proof.
  revert t. induction l as [|ns l IH]; intros t Ht; cbn [add_namespaces]; [by apply ends_ret|].
  destruct (nsAllowed allowNS ns) eqn:Hns; cbn [negb]; [|by apply IH].
  eapply ends_bind; [by apply add_namespace_scoped|apply IH].
Qed.
(** What a computed page shows. *)
Definition page_in_scope (p : clusterCost) : Prop :=
  Forall (λ r, nsAllowed allowNS (ns_Name r) = true) (cl_Namespaces p)
  ∧ Forall (λ w, nsAllowed allowNS (wc_Namespace w) = true) (cl_TopWorkloads p).
Lemma page_of_scoped c t n : in_scope n → page_in_scope (page_of c t n).
Proof.
  intros [Hr Hw]. split; [done|]. cbn. apply Forall_take. by rewrite sort_perm.
Qed.
Lemma computed_source_spec c : Source (computed_source c) ∉ ["kubecost"; "opencost"].
Proof. unfold computed_source. case_bool_decide; [|done]. cbn. set_solver. Qed.
Lemma read_cluster resource : resource ∈ ["namespaces"; "nodes"; "events"] → read_ok allowNS (mkRead resource "").
Proof. intros Hr. by right. Qed.
Lemma byNode_ends : ends (watchedPodsByNode allowNS) (λ _, True).
Proof.
  unfold watchedPodsByNode. reads; [apply read_cluster; set_solver|].
  case_match; [|by apply ends_ret]. apply ends_keeps, place_all_ok.
Qed.
Lemma computed_cost_scoped c : ends (computed_cost allowNS c) (λ r, ∀ p, r = RespJSON p →
  page_in_scope p ∧ Source (cl_Config p) ∉ ["kubecost"; "opencost"]).
Proof.
  unfold computed_cost. reads; [apply read_cluster; set_solver|]. case_match; [|by apply ends_ret].
  eapply ends_bind; [apply byNode_ends|]. intros byNode _. cbv zeta. reads; [apply read_cluster; set_solver|].
  eapply ends_bind; [apply add_namespaces_scoped; by split|]. intros n Hn. apply ends_ret. intros p [= <-].
  split; [by apply page_of_scoped|apply computed_source_spec].
Qed.

Lemma fetch_source c source url s p :
  (fetchAllocation dec_allocation c source url s).1 = inl p → Source (cl_Config p) = source.
Proof.
  unfold fetchAllocation, st_bind. destruct (send _ s) as [[a|e] s']; [|done]. destruct (negb _); [done|].
  destruct (rs_ReadErr a); [done|]. destruct (dec_allocation _); [|done]. by intros [= <-].
Qed.
Lemma try_source_gives url (f : st (net W) (clusterCost + string)) s p :
  (try_source url f s).1 = Some p → url ≠ "" ∧ (f s).1 = inl p.
Proof.
  unfold try_source, st_bind, st_ret. destruct (str_eqb url "") eqn:E; [done|]. apply str_eqb_ne in E.
  destruct (f s) as [[q|e] s']; cbn; [|done]. intros [= ->]. done.
Qed.

(** A page that carries the name of Kubecost or of OpenCost is what that
    source answered, and then nothing of the cluster was read; any other is
    computed, from the watched namespaces alone: nothing else was read, and
    nothing else is shown. *)
Theorem cost_page_names_its_source c s :
  let r := handleCost allowNS dec_allocation true c s in
  scoped s.2 r.2.2
  ∧ ∀ p, r.1 = RespJSON p →
      let src := Source (cl_Config p) in
      (src = "kubecost" ∧ KubecostURL c ≠ "" ∧ (fetchKubecostData dec_allocation c s.1).1 = inl p ∧ r.2.2 = s.2)
      ∨ (src = "opencost" ∧ OpenCostURL c ≠ "" ∧ (∃ s', (fetchOpenCostData dec_allocation c s').1 = inl p) ∧ r.2.2 = s.2)
      ∨ (src ∉ ["kubecost"; "opencost"] ∧ page_in_scope p).
Proof.
  cbv zeta. unfold handleCost. cbn [negb]. destruct (external dec_allocation c s.1) as [[data|] s1] eqn:E; cbn [fst snd].
  - split; [reflexivity|]. intros p [= <-]. unfold external, st_bind in E.
    destruct (try_source (KubecostURL c) _ s.1) as [[k|] s2] eqn:Ek.
    + cbv [st_ret] in E. injection E as -> _. left.
      destruct (try_source_gives (KubecostURL c) (fetchKubecostData dec_allocation c) s.1 data) as [Hu Hf]; [by rewrite Ek|].
      split_and!; [by eapply fetch_source|done..].
    + right; left. destruct (try_source_gives (OpenCostURL c) (fetchOpenCostData dec_allocation c) s2 data) as [Hu Hf]; [by rewrite E|].
      split_and!; [by eapply fetch_source|done|by exists s2|done].
  - destruct (computed_cost_scoped c s.2) as [H1 H2]. split; [done|]. intros p Hp. right; right.
    destruct (H2 p Hp). done.
Qed.
End honest.

(** ** A run *)
#[local] Instance cost_api : HttpAPI := {|
  h_namespaces := inl [("shop", "Active"); ("kube-system", "Active")];
  h_pods ns := Some (if str_eqb ns "shop"
                     then [mkPod "web-1" "shop" "Running" "n1" "10.0.0.1" 0
                             [mkContainer "web" "web:1" {[ "cpu" := mkQuantity (f64_const 5 1) "500m";
                                                           "memory" := mkQuantity (f64_of_Z (2 ^ 30)) "1Gi" ]} ∅] [] []]
                     else []);
  h_pods_error _ := None;
  h_deployments ns := Some (if str_eqb ns "shop"
                            then [mkDeployment "small" (Some 1) 1 1 1 0 [mkContainer "c" "c:1" {[ "cpu" := mkQuantity (f64_const 1 1) "100m" ]} ∅];
                                  mkDeployment "web" (Some 2) 2 2 2 0 [mkContainer "web" "web:1" {[ "cpu" := mkQuantity (f64_const 5 1) "500m" ]} ∅]]
                            else []);
  h_statefulsets _ := Some []; h_services _ := None; h_jobs _ := None;
  h_nodes := inl [mkNode "n1" [] {[ "node.kubernetes.io/instance-type" := "m5.large" ]} "" "" "" "2" (2 ^ 33) false 0 (f64_of_Z 2) (f64_of_Z (2 ^ 33)) [] "" "110"];
  h_events _ := inl []
|}.
#[local] Instance cost_servers : HttpServer Z := {|
  http_do q w := (if strings_HasPrefix (Http.rq_URL q) "http://kubecost"
                  then inl (mkResponse 503 "" None) else inr "no route to host", w + 1) |}.
Definition cost_settings : config.Cost := config.mkCost "" "" "" "t9.huge=1.5, m5.large=0.1" "http://kubecost" "".
(** Kubecost does not answer, so the page is computed, and says so. *)
Example cost_run :
  let c := newCostConfig cost_settings in
  let '(r, (sent, reads)) := handleCost (Some (λ ns, str_eqb ns "shop")) (λ _, inr "not json") true c ((0, []), []) in
  match r with
  | RespJSON p =>
    Source c = "instance-type" ∧ Source (cl_Config p) = "instance-type" ∧ length sent.2 = 1%nat
    ∧ fmt_2f (cl_TotalMonthly p) = "73.00" ∧ fmt_2f (cl_WorkloadCost p) = "21.90" ∧ fmt_2f (cl_WastedCost p) = "51.10"
    ∧ (wc_Name <$> cl_TopWorkloads p) = ["web"; "small"] ∧ (ns_Name <$> cl_Namespaces p) = ["shop"]
    ∧ (nc_PriceSource <$> cl_Nodes p) = ["instance-type"]
  | _ => False
  end.
Proof. vm_compute. done. Qed.
Lemma top_workloads_are_the_dearest_witness :
  let c := newCostConfig cost_settings in
  let w name m := mkWorkloadCost "shop" name "Deployment" 1 f64_zero f64_zero (f64_of_Z m) in
  let n := mkNamespaces [] f64_zero [w "small" 3; w "web" 40; w "batch" 7] in
  no_nan (na_workloads n) ∧ StronglySorted at_least (cl_TopWorkloads (page_of c no_totals n)).
Proof.
  intros c w n. assert (no_nan (na_workloads n)) as Hn by (repeat constructor). split; [exact Hn|].
  apply (top_workloads_are_the_dearest c no_totals n Hn).
Defined.
