(* ===== verification/Resources.v ===== *)
(** * The resources pages: internal/httpapi/resources.go

    What the pods of each watched namespace ask for and are limited to, and
    whether the two fit.  The overview has a row for a namespace, the detail
    its pods. *)
From S2P Require Import Prelude GoStd K8s Http Routing SlackActions HttpReads Cost.
From Stdlib Require Import Ascii SpecFloat.
#[local] Open Scope Z_scope.
#[local] Open Scope agent_scope.

(** ** What a pod asks for *)
(** Requests and limits of cpu in cores and of memory in Mi. *)
Record asked := mkAsked { cpuReq : float64; cpuLim : float64; memReq : float64; memLim : float64 }.
Definition nothing : asked := mkAsked f64_zero f64_zero f64_zero f64_zero.
Definition podFullResources (p : Pod) : asked :=
  foldl (λ a c, mkAsked (request_of (ct_Requests c) "cpu" id (cpuReq a)) (request_of (ct_Limits c) "cpu" id (cpuLim a))
                  (request_of (ct_Requests c) "memory" in_Mi (memReq a)) (request_of (ct_Limits c) "memory" in_Mi (memLim a)))
    nothing (p_Containers p).

Definition f64_eqb (a b : float64) : bool := SFeqb a b.
Definition gt (a b : float64) : bool := f64_ltb b a.
Definition is_zero (a : float64) : bool := f64_eqb a f64_zero.
Definition five : float64 := f64_of_Z 5.
Definition classifyPod (a : asked) : string :=
  if is_zero (cpuLim a) && is_zero (memLim a) then "no-limits"
  else if is_zero (cpuReq a) && is_zero (memReq a) then "overuse"
  else if gt (cpuReq a) f64_zero && f64_ltb (cpuReq a) (f64_const 1 2) && gt (cpuLim a) (f64_const 1 1) then "underuse"
  else if gt (memReq a) f64_zero && f64_ltb (memReq a) (f64_of_Z 16) && gt (memLim a) (f64_of_Z 128) then "underuse"
  else if gt (cpuReq a) f64_zero && gt (f64_div (cpuLim a) (cpuReq a)) five then "overuse"
  else if gt (memReq a) f64_zero && gt (f64_div (memLim a) (memReq a)) five then "overuse"
  else "right-sized".
Definition classifyContainer (cpuReq cpuLim memReq memLim : string) : string :=
  if str_eqb cpuLim "-" && str_eqb memLim "-" then "no-limits"
  else if str_eqb cpuReq "-" && str_eqb memReq "-" then "no-requests" else "ok".
Definition effToColor (eff : string) : string :=
  if str_eqb eff "overuse" then "red" else if str_eqb eff "underuse" then "yellow"
  else if str_eqb eff "no-limits" then "red" else "green".
Definition effAdvice (eff : string) (a : asked) : string :=
  if str_eqb eff "no-limits" then "Set CPU and memory limits to prevent node exhaustion"
  else if str_eqb eff "overuse" then
    if is_zero (cpuReq a) then "Set CPU/memory requests: pod may be starving other workloads"
    else if gt (cpuReq a) f64_zero && gt (f64_div (cpuLim a) (cpuReq a)) five
    then "Limit/request ratio is " +:+ fmt_0f (f64_div (cpuLim a) (cpuReq a)) +:+ "x: reduce limits closer to actual usage"
    else "Resource limits too high relative to requests"
  else if str_eqb eff "underuse" then "Very low resource requests: pod may get throttled under load. Increase requests."
  else "".
Definition fmtCPU (cores : float64) : string :=
  if is_zero cores then "-"
  else if f64_ltb cores (f64_of_Z 1) then itoa (f64_int (f64_mul cores (f64_of_Z 1000))) +:+ "m" else fmt_1f cores.
Definition fmtMem (mi : float64) : string :=
  if is_zero mi then "-" else if f64_leb Ki mi then fmt_1f (f64_div mi Ki) +:+ "Gi" else fmt_0f mi +:+ "Mi".

(** ** The pages *)
Record nsResourceOverview := mkNsOverview {
  ro_Name : string; ro_Pods : Z; ro_CPURequests : float64; ro_CPULimits : float64; ro_MemRequestsMi : float64;
  ro_MemLimitsMi : float64; ro_Monthly : float64; ro_Overuse : Z; ro_Underuse : Z; ro_NoLimits : Z; ro_Healthy : Z
}.
Definition blank_overview (name : string) : nsResourceOverview :=
  mkNsOverview name 0 f64_zero f64_zero f64_zero f64_zero f64_zero 0 0 0 0.
Definition counted (eff : string) (o : nsResourceOverview) : nsResourceOverview :=
  let add c := if str_eqb eff c then 1 else 0 in
  mkNsOverview (ro_Name o) (ro_Pods o) (ro_CPURequests o) (ro_CPULimits o) (ro_MemRequestsMi o) (ro_MemLimitsMi o) (ro_Monthly o)
    (ro_Overuse o + add "overuse") (ro_Underuse o + add "underuse") (ro_NoLimits o + add "no-limits")
    (ro_Healthy o + if bool_decide (eff ∈ ["overuse"; "underuse"; "no-limits"]) then 0 else 1).
(** One pod added to the sums and the counts. *)
Definition add_asked (o : nsResourceOverview) (p : Pod) : nsResourceOverview :=
  let a := podFullResources p in
  counted (classifyPod a)
    (mkNsOverview (ro_Name o) (ro_Pods o) (f64_add (ro_CPURequests o) (cpuReq a)) (f64_add (ro_CPULimits o) (cpuLim a))
       (f64_add (ro_MemRequestsMi o) (memReq a)) (f64_add (ro_MemLimitsMi o) (memLim a)) (ro_Monthly o) (ro_Overuse o)
       (ro_Underuse o) (ro_NoLimits o) (ro_Healthy o)).
Definition with_pods (n : Z) (monthly : float64) (o : nsResourceOverview) : nsResourceOverview :=
  mkNsOverview (ro_Name o) n (ro_CPURequests o) (ro_CPULimits o) (ro_MemRequestsMi o) (ro_MemLimitsMi o) monthly (ro_Overuse o)
    (ro_Underuse o) (ro_NoLimits o) (ro_Healthy o).
Definition summary_of (c : CostConfig) (ns : string) (pods : list Pod) : nsResourceOverview :=
  let o := foldl add_asked (blank_overview ns) pods in
  with_pods (Z.of_nat (length pods)) (round2 (calcCost c (ro_CPURequests o) (ro_MemRequestsMi o))) o.
Definition rounded_row (o : nsResourceOverview) : nsResourceOverview :=
  mkNsOverview (ro_Name o) (ro_Pods o) (round3 (ro_CPURequests o)) (round3 (ro_CPULimits o)) (round1 (ro_MemRequestsMi o))
    (round1 (ro_MemLimitsMi o)) (ro_Monthly o) (ro_Overuse o) (ro_Underuse o) (ro_NoLimits o) (ro_Healthy o).

Record containerResource := mkContainerResource {
  cr_Name : string; cr_Image : string; cr_CPUReq : string; cr_CPULim : string; cr_MemReq : string; cr_MemLim : string;
  cr_Efficiency : string
}.
Record podResourceDetail := mkPodResource {
  rd_Name : string; rd_Namespace : string; rd_Node : string; rd_Status : string; rd_Age : string; rd_Restarts : Z;
  rd_Efficiency : string; rd_EffColor : string; rd_CPURequest : string; rd_CPULimit : string; rd_MemRequest : string;
  rd_MemLimit : string; rd_LimitReqRatio : float64; rd_Monthly : float64; rd_Containers : list containerResource; rd_Advice : string
}.
Record nsResourceDetail := mkNsResource { rn_Namespace : string; rn_Summary : nsResourceOverview; rn_Pods : list podResourceDetail }.
Definition quantity_text (m : gmap string Quantity) (name : string) : string := default "-" (q_text <$> m !! name).
Definition container_resource (c : Container) : containerResource :=
  let cpuReq := quantity_text (ct_Requests c) "cpu" in
  let cpuLim := quantity_text (ct_Limits c) "cpu" in
  let memReq := quantity_text (ct_Requests c) "memory" in
  let memLim := quantity_text (ct_Limits c) "memory" in
  mkContainerResource (ct_Name c) (ct_Image c) cpuReq cpuLim memReq memLim (classifyContainer cpuReq cpuLim memReq memLim).
Definition limit_ratio (a : asked) : float64 := if gt (cpuReq a) f64_zero then f64_div (cpuLim a) (cpuReq a) else f64_zero.
Definition pod_resource (now : Time) (c : CostConfig) (ns : string) (p : Pod) : podResourceDetail :=
  let a := podFullResources p in
  let eff := classifyPod a in
  mkPodResource (p_Name p) ns (p_NodeName p) (podStatus p) (age now (p_Creation p))
    (foldl (λ n cs, wrap32 (n + cs_RestartCount cs)) 0 (p_Statuses p)) eff (effToColor eff)
    (fmtCPU (cpuReq a)) (fmtCPU (cpuLim a)) (fmtMem (memReq a)) (fmtMem (memLim a)) (round2 (limit_ratio a))
    (round2 (calcCost c (cpuReq a) (memReq a))) (container_resource <$> p_Containers p) (effAdvice eff a).
Definition empty_detail : nsResourceDetail := mkNsResource "" (blank_overview "") [].

Section pages.
Context `{!HttpAPI} (allowNS : option (string → bool)) (now : Time) (kc : bool) (c : CostConfig).
Abbreviation allowed := (nsAllowed allowNS).
Definition overview_row (ns : string) : reading nsResourceOverview :=
  let! pods := look "pods" ns (h_pods ns) in
  return! (match pods with None => blank_overview ns | Some pods => rounded_row (summary_of c ns pods) end).
Fixpoint overview_rows (l : list string) : reading (list nsResourceOverview) :=
  match l with
  | [] => return! []
  | ns :: l' =>
    if negb (allowed ns) then overview_rows l'
    else let! o := overview_row ns in let! os := overview_rows l' in return! (o :: os)
  end.
Definition handleResources : reading (response (list nsResourceOverview)) :=
  if negb kc then return! RespJSON []
  else
    let! l := look "namespaces" "" h_namespaces in
    match l with
    | inr e => return! RespText 500 e
    | inl l => let! rows := overview_rows l.*1 in return! RespJSON rows
    end.
Definition handleResourcesNs (r : HttpRequest) : reading (response nsResourceDetail) :=
  if negb kc then return! RespJSON empty_detail
  else
    let ns := ns_text "/api/resources/" r in
    if str_eqb ns "" then return! RespText 400 "namespace required"
    else if negb (allowed ns) then return! RespText 403 "namespace is outside the watch scope"
    else
      let! pods := look "pods" ns (h_pods ns) in
      match h_pods_error ns with
      | Some e => return! RespText 500 e
      | None =>
        let pods := default [] pods in
        return! RespJSON (mkNsResource ns (summary_of c ns pods) (pod_resource now c ns <$> pods))
      end.
End pages.

(** ** How the pages agree *)
Example classes_and_sizes :
  let a cr cl mr ml := mkAsked cr cl mr ml in
  let z := f64_zero in
  classifyPod (a z z z z) = "no-limits" ∧ classifyPod (a z (f64_of_Z 1) z z) = "overuse"
  ∧ classifyPod (a (f64_const 5 3) (f64_of_Z 1) z z) = "underuse"
  ∧ classifyPod (a (f64_const 2 1) (f64_of_Z 1) z z) = "right-sized"
  ∧ classifyPod (a (f64_const 1 1) (f64_of_Z 1) z z) = "overuse"
  ∧ fmtCPU (f64_const 25 2) = "250m" ∧ fmtCPU (f64_const 15 1) = "1.5" ∧ fmtMem (f64_of_Z 512) = "512Mi"
  ∧ fmtMem (f64_of_Z 1536) = "1.5Gi".
Proof. vm_compute. repeat split. Qed.
(** A pod of two containers that ask for 2 and 19 thousandths of a core is
    shown to ask for 20: the sum is a float just below 0.021, and is cut. *)
Example cpu_text_loses_a_thousandth :
  let ask m := mkContainer "c" "c:1" {[ "cpu" := mkQuantity (f64_const m 3) "" ]} ∅ in
  fmtCPU (cpuReq (podFullResources (mkPod "p" "shop" "Running" "n1" "" 0 [ask 2%positive; ask 19%positive] [] []))) = "20m".
Proof. vm_compute. done. Qed.

(** How many pods are in a class. *)
Definition in_class (eff : string) (l : list podResourceDetail) : Z := Z.of_nat (length (filter (λ d, rd_Efficiency d = eff) l)).
Definition classes : list string := ["overuse"; "underuse"; "no-limits"; "right-sized"].
Lemma classify_classes a : classifyPod a ∈ classes.
Proof. unfold classifyPod, classes. repeat case_match; set_solver. Qed.
(** The counts of an overview are those of a list of pods. *)
Definition counts_of (o : nsResourceOverview) (l : list podResourceDetail) : Prop :=
  ro_Overuse o = in_class "overuse" l ∧ ro_Underuse o = in_class "underuse" l ∧ ro_NoLimits o = in_class "no-limits" l
  ∧ ro_Healthy o = in_class "right-sized" l.
Lemma in_class_snoc eff l d : in_class eff (l ++ [d]) = in_class eff l + (if str_eqb (rd_Efficiency d) eff then 1 else 0).
Proof.
  unfold in_class, str_eqb. rewrite filter_app, length_app. case_bool_decide as E.
  - rewrite filter_cons_True, filter_nil by done. cbn [length]. lia.
  - rewrite filter_cons_False, filter_nil by done. cbn [length]. lia.
Qed.
Lemma summary_counts now c ns pods o l :
  counts_of o l → counts_of (foldl add_asked o pods) (l ++ (pod_resource now c ns <$> pods)).
Proof.
  revert o l. induction pods as [|p pods IH]; intros o l H; [by rewrite app_nil_r|].
  rewrite fmap_cons, cons_middle, (assoc_L (++)). apply IH.
  destruct H as (H1 & H2 & H3 & H4). unfold counts_of. rewrite !in_class_snoc.
  unfold add_asked, counted. cbn [ro_Overuse ro_Underuse ro_NoLimits ro_Healthy pod_resource rd_Efficiency].
  rewrite H1, H2, H3, H4. pose proof (classify_classes (podFullResources p)) as Hc. set_unfold in Hc.
  destruct Hc as [->|[->|[->|[->|[]]]]]; done.
Qed.
Lemma counts_total l : Forall (λ d, rd_Efficiency d ∈ classes) l →
  in_class "overuse" l + in_class "underuse" l + in_class "no-limits" l + in_class "right-sized" l = Z.of_nat (length l).
Proof.
  induction l as [|d l IH] using rev_ind; [done|]. intros [Hl Hd]%Forall_app. rewrite Forall_singleton in Hd.
  rewrite !in_class_snoc, length_app. specialize (IH Hl). cbn [length]. set_unfold in Hd.
  destruct Hd as [->|[->|[->|[->|[]]]]];
    repeat match goal with |- context [str_eqb ?a ?b] =>
      let v := eval vm_compute in (str_eqb a b) in change (str_eqb a b) with v end; lia.
Qed.

Section agree.
Context `{!HttpAPI} (allowNS : option (string → bool)) (now : Time) (c : CostConfig).
Lemma overview_rows_spec l s : (overview_rows allowNS c l s).1 =
  (λ ns, match h_pods ns with None => blank_overview ns | Some pods => rounded_row (summary_of c ns pods) end)
  <$> filter (λ ns, nsAllowed allowNS ns = true) l.
Proof.
  revert s. induction l as [|ns l IH]; intros s; [done|]. cbn [overview_rows].
  destruct (nsAllowed allowNS ns) eqn:E; cbn [negb].
  - rewrite filter_cons_True by done. rewrite fmap_cons, <-(IH (s ++ [mkRead "pods" ns])).
    generalize (overview_rows allowNS c l). intros m. cbn. unfold st_bind. by destruct (m _).
  - rewrite filter_cons_False by (by rewrite E). apply IH.
Qed.
(** The two pages agree: the row the overview has for a namespace is the
    detail's summary, rounded for show, and its counts are those of the
    detail's pods, each of which is in one class. *)
Theorem resources_pages_agree r l pods s s' :
  let ns := ns_text "/api/resources/" r in
  h_namespaces = inl l → ns ∈ l.*1 → ns ≠ "" → nsAllowed allowNS ns = true → h_pods ns = Some pods → h_pods_error ns = None →
  ∃ rows d, (handleResources allowNS true c s).1 = RespJSON rows ∧ (handleResourcesNs allowNS now true c r s').1 = RespJSON d
    ∧ rounded_row (rn_Summary d) ∈ rows ∧ (rd_Name <$> rn_Pods d) = (p_Name <$> pods) ∧ counts_of (rn_Summary d) (rn_Pods d)
    ∧ ro_Overuse (rn_Summary d) + ro_Underuse (rn_Summary d) + ro_NoLimits (rn_Summary d) + ro_Healthy (rn_Summary d)
      = ro_Pods (rn_Summary d).
Proof.
  intros ns Hl Hin Hne%str_eqb_ne Ha Hp He.
  exists ((overview_rows allowNS c l.*1 (s ++ [mkRead "namespaces" ""])).1), (mkNsResource ns (summary_of c ns pods) (pod_resource now c ns <$> pods)).
  split_and!.
  - unfold handleResources, look. cbn. rewrite Hl. unfold st_bind. by destruct (overview_rows _ _ _ _).
  - unfold handleResourcesNs. cbn [negb]. fold ns. rewrite Hne, Ha. cbn. by rewrite He, Hp.
  - rewrite overview_rows_spec. apply list_elem_of_fmap. exists ns. rewrite Hp. split; [done|]. by apply list_elem_of_filter.
  - cbn. by rewrite <-list_fmap_compose.
  - cbn. apply (summary_counts now c ns pods (blank_overview ns) []). done.
  - destruct (summary_counts now c ns pods (blank_overview ns) []) as (H1 & H2 & H3 & H4); [done|].
    cbn in *. rewrite H1, H2, H3, H4. rewrite counts_total; [by rewrite length_fmap|].
    apply Forall_fmap, Forall_true. intros p. apply classify_classes.
Qed.
End agree.
