(* ===== verification/Storage.v ===== *)
(** * Log bundles: internal/storage/storage.go, s3sdk.go

    Where a bundle goes: a file under a base directory, an object of a
    bucket, or nowhere.  Paths are those of Unix ([path/filepath]); the file
    system, S3 and the JSON of a record are parameters. *)
From S2P Require Import Prelude GoStd Config Calendar Http Handlers.
From Stdlib Require Import Ascii.
#[local] Open Scope Z_scope.
#[local] Open Scope agent_scope.

(** ** path/filepath *)
Module filepath.
(** A path as [Clean] leaves it. *)
Record path := mkPath { rooted : bool; elems : list string }.
(** One element: [out] holds those before it, the last first. *)
Definition push (root : bool) (out : list string) (e : string) : list string :=
  if bool_decide (e ∈ [""; "."]) then out
  else if str_eqb e ".." then
    match out with
    | [] => if root then [] else [".."]
    | x :: out' => if str_eqb x ".." then ".." :: out else out'
    end
  else e :: out.
Definition slash : ascii := "/"%char.
Definition parse (s : string) : path :=
  let r := strings_HasPrefix s "/" in mkPath r (reverse (foldl (push r) [] (strings_Split s slash))).
Definition text (p : path) : string :=
  if rooted p then "/" +:+ strings_Join (elems p) "/"
  else match elems p with [] => "." | l => strings_Join l "/" end.
Definition Clean (s : string) : string := text (parse s).
Definition Join (l : list string) : string :=
  match filter (λ s, s ≠ "") l with [] => "" | l => Clean (strings_Join l "/") end.
(** [Dir] of a clean path. *)
Definition Dir (s : string) : string := let p := parse s in text (mkPath (rooted p) (removelast (elems p))).
(** What is left of two lists after what they share. *)
Fixpoint differ (a b : list string) : list string * list string :=
  match a, b with
  | x :: a', y :: b' => if str_eqb x y then differ a' b' else (a, b)
  | _, _ => (a, b)
  end.
(** The elements of a target, of which [.] is one. *)
Definition target_elems (p : path) : list string :=
  match elems p with [] => if rooted p then [] else ["."] | l => l end.
Definition Rel (basepath targpath : string) : option string :=
  let b := parse basepath in
  let t := parse targpath in
  if str_eqb (text b) (text t) then Some "."
  else if negb (Bool.eqb (rooted b) (rooted t)) then None
  else
    let '(b', t') := differ (elems b) (target_elems t) in
    if bool_decide (head b' = Some "..") then None
    else Some (strings_Join (((λ _, "..") <$> b') ++ t') "/").
End filepath.
Import filepath.

(** ** The sinks *)
Record Record_ := mkRecord {
  re_Timestamp : Time; re_Namespace : string; re_Workload : string; re_Pod : string; re_Container : string; re_Node : string;
  re_Reason : string; re_Message : string; re_LastLogs : string; re_Events : list string; re_Extras : list (string * string)
}.
Inductive Sink := S3 (bucket prefix : string) | FS (base : string) | Nop.
Definition newFSSink (base : string) : Sink := FS (if str_eqb base "" then "/var/log/auto-agent" else base).
(** [NewSink]; [s3_error]: why a client of S3 cannot be made. *)
Definition NewSink (s3_error : option string) (c : config.Storage) : Sink :=
  if str_eqb (config.so_Store c) "s3" then
    let mirror := newFSSink "/var/log/auto-agent/s3mirror" in
    if str_eqb (config.so_S3Bucket c) "" then mirror
    else match s3_error with Some _ => mirror | None => S3 (config.so_S3Bucket c) (config.so_S3Prefix c) end
  else if str_eqb (config.so_Store c) "none" then Nop
  else newFSSink (config.so_EFSPath c).

(** What a sink does: it makes a directory with those above it, writes a
    file, or puts an object. *)
Inductive store_step := MkdirAll (dir : string) | WriteFile (name content : string) | PutObject (bucket key content : string).
Class Store (W : Type) := { store_do : store_step → W → option string * W }.

Section sinks.
Context {W : Type} `{!Store W}.
(** [json.MarshalIndent] and [json.Marshal]. *)
Context (marshal : Record_ → string + string).
Definition store_run : Type := W * list store_step.
Definition do_step (c : store_step) : st store_run (unit + string) :=
  λ s, let a := store_do c s.1 in (match a.1 with None => inl () | Some e => inr e end, (a.2, s.2 ++ [c])).
Definition leaves (rel : option string) : bool :=
  match rel with None => true | Some rel => str_eqb rel ".." || strings_HasPrefix rel "../" end.
Definition fs_Save (base key : string) (r : Record_) : st store_run (string + string) :=
  match marshal r with
  | inr e => fails ("storage: marshal: " +:+ e)
  | inl b =>
    let p := Join [base; key +:+ ".json"] in
    if leaves (Rel base p) then fails ("storage: key " +:+ strconv_Quote key +:+ " leaves " +:+ base)
    else and_then (wrapped "storage: mkdir" (do_step (MkdirAll (Dir p)))) (λ _,
         and_then (wrapped "storage: write" (do_step (WriteFile p b))) (λ _, gives p))
  end.
Definition s3_Save (bucket prefix key : string) (r : Record_) : st store_run (string + string) :=
  let k := if str_eqb prefix "" then key else prefix +:+ "/" +:+ key in
  match marshal r with
  | inr e => fails ("s3: marshal: " +:+ e)
  | inl b => and_then (wrapped "s3: put object" (do_step (PutObject bucket (k +:+ ".json") b)))
               (λ _, gives ("s3://" +:+ bucket +:+ "/" +:+ k +:+ ".json"))
  end.
Definition Save (s : Sink) (key : string) (r : Record_) : st store_run (string + string) :=
  match s with
  | S3 bucket prefix => s3_Save bucket prefix key r
  | FS base => fs_Save base key r
  | Nop => gives "(logging disabled)"
  end.
End sinks.

Example paths :
  Clean "/a/./b/../c//d/" = "/a/c/d" ∧ Clean "../x/.." = ".." ∧ Clean "" = "." ∧ Join ["/var/log"; "../../../etc/x.json"] = "/etc/x.json"
  ∧ Rel "/var/log" "/var/log/a/b" = Some "a/b" ∧ Rel "/a/b/c" "/a/c/d" = Some "../../c/d" ∧ Rel "a/b" "a/b/." = Some "."
  ∧ Rel ".." "a" = None ∧ Rel "." "a/b" = Some "a/b" ∧ Rel "/a" "a" = None ∧ Rel "../../a/b" "../../a/b/c/d" = Some "c/d"
  ∧ Dir "/var/log/x.json" = "/var/log" ∧ Dir "x.json" = "." ∧ Dir "/x" = "/".
Proof. vm_compute. done. Qed.

(** ** Clean paths *)
Definition ordinary (e : string) : Prop := e ≠ "" ∧ e ≠ "." ∧ e ≠ ".." ∧ no_byte slash e.
Definition clean (root : bool) (l : list string) : Prop :=
  ∃ n l', l = repeat ".." n ++ l' ∧ Forall ordinary l' ∧ (root = true → n = O).
Lemma push_ordinary root out e : ordinary e → push root out e = e :: out.
Proof.
  intros (H1 & H2 & H3 & _). unfold push. rewrite bool_decide_eq_false_2 by set_solver.
  by rewrite (bool_decide_eq_false_2 _ H3 : str_eqb e ".." = false).
Qed.
Lemma push_all_ordinary root out l : Forall ordinary l → foldl (push root) out l = reverse l ++ out.
Proof.
  intros Hl. revert out. induction Hl as [|e l He _ IH]; intros out; [done|]. cbn [foldl].
  by rewrite push_ordinary, IH, reverse_cons, <-(assoc_L (++)).
Qed.
Lemma push_up root n : (root = true → n = O) → foldl (push root) [] (repeat ".." n) = repeat ".." n.
Proof.
  intros Hn. destruct root; [by rewrite Hn|]. clear Hn. induction n as [|n IH]; [done|].
  rewrite <-(Nat.add_1_r n), repeat_app, foldl_app, IH. clear IH. destruct n as [|n]; [done|].
  trans (".." :: ".." :: repeat ".." n); [done|]. cbn. f_equal. apply repeat_cons.
Qed.
Lemma push_clean root l : clean root l → foldl (push root) [] l = reverse l.
Proof.
  intros (n & l' & -> & Hl & Hn). rewrite foldl_app, push_up, push_all_ordinary, reverse_app by done. f_equal.
  clear. induction n as [|n IH]; [done|]. cbn [repeat]. rewrite reverse_cons, <-IH. apply repeat_cons.
Qed.
Lemma clean_nil root : clean root [].
Proof. by exists O, []. Qed.
Lemma clean_push root out e : no_byte slash e → clean root (reverse out) → clean root (reverse (push root out e)).
Proof.
  intros He Hc. unfold push. case_bool_decide as E1; [done|]. unfold str_eqb at 1. case_bool_decide as E2.
  - subst e. destruct out as [|x out]; [destruct root; [done|by exists 1%nat, []]|].
    destruct Hc as (n & l' & E & Hl & Hn). rewrite reverse_cons in E. unfold str_eqb. case_bool_decide as Ex.
    + subst x. exists (S n), l'. rewrite !reverse_cons, E. destruct l' as [|y l' _] using rev_ind.
      { rewrite !app_nil_r in *. split_and!; [symmetry; apply (repeat_cons n)|done|].
        intros ->. rewrite (Hn eq_refl) in E. by destruct (reverse out). }
      rewrite (assoc_L (++)) in E. apply app_inj_2 in E as [_ [= <-]]; [|done].
      apply Forall_app in Hl as [_ Hl]. rewrite Forall_singleton in Hl. by destruct Hl as (_ & _ & ? & _).
    + destruct l' as [|y l' _] using rev_ind.
      { rewrite app_nil_r in E. destruct n as [|n]; [by destruct (reverse out)|].
        cbn [repeat] in E. rewrite repeat_cons in E. apply app_inj_2 in E as [_ [= ->]]; done. }
      rewrite (assoc_L (++)) in E. apply app_inj_2 in E as [-> _]; [|done]. apply Forall_app in Hl as [Hl _]. by exists n, l'.
  - destruct Hc as (n & l' & E & Hl & Hn). exists n, (l' ++ [e]). rewrite reverse_cons, E, (assoc_L (++)).
    split_and!; [done| |done]. apply Forall_app. split; [done|]. apply Forall_singleton. split_and!; [set_solver..|done|done].
Qed.
Lemma parse_clean s : clean (rooted (parse s)) (elems (parse s)).
Proof.
  unfold parse. cbn [rooted elems]. set (r := strings_HasPrefix s "/").
  assert (Forall (no_byte slash) (strings_Split s slash)) as H by (apply Forall_forall; apply strings_Split_no_byte).
  assert (∀ l out, Forall (no_byte slash) l → clean r (reverse out) → clean r (reverse (foldl (push r) out l))) as Hf.
  { induction l as [|e l IH]; intros out Hl Hc; [done|]. apply Forall_cons in Hl as [He Hl]. cbn [foldl].
    apply IH; [done|]. by apply clean_push. }
  apply Hf; [done|]. apply clean_nil.
Qed.
Lemma clean_no_byte root l : clean root l → Forall (no_byte slash) l.
Proof.
  intros (n & l' & -> & Hl & _). apply Forall_app. split.
  - apply Forall_forall. intros x Hx%list_elem_of_In%repeat_spec. by subst x.
  - eapply Forall_impl; [exact Hl|]. by intros x (_ & _ & _ & ?).
Qed.
Lemma split_join_clean root l : clean root l → l ≠ [] → strings_Split (strings_Join l "/") slash = l.
Proof.
  intros Hc%clean_no_byte Hne. rewrite strings_Split_Join by done. clear Hne.
  induction Hc as [|x l Hx _ IH]; [done|]. rewrite fmap_cons. cbn. rewrite Hx. cbn. by f_equal.
Qed.
Lemma first_not_slash e s : e ≠ "" → no_byte slash e → strings_HasPrefix (e +:+ s) "/" = false.
Proof.
  intros He Hn. destruct e as [|c e]; [done|]. apply no_byte_cons in Hn as [Hc _].
  apply not_true_iff_false. intros [u Hu]%strings_HasPrefix_spec. rewrite !str_app_cons in Hu. cbn in Hu. by injection Hu as ->.
Qed.
(** A clean path reads back as itself. *)
Lemma parse_text p : clean (rooted p) (elems p) → parse (text p) = p.
Proof.
  destruct p as [[] l]; cbn [rooted elems]; intros Hc; unfold text, parse; cbn [rooted elems].
  - assert (∀ j, strings_Split ("/" +:+ j) slash = "" :: strings_Split j slash) as -> by (intros j; apply (strings_Split_app "" j slash)).
    assert (∀ j, strings_HasPrefix ("/" +:+ j) "/" = true) as -> by (intros j; by destruct j).
    f_equal. destruct (decide (l = [])) as [->|Hl]; [done|]. rewrite (split_join_clean _ _ Hc Hl).
    cbn [foldl]. change (push true [] "") with (@nil string). rewrite push_clean, reverse_involutive; done.
  - destruct l as [|x l]; [done|].
    assert (strings_HasPrefix (strings_Join (x :: l) "/") "/" = false) as ->.
    { assert (x ≠ "" ∧ no_byte slash x) as [Hx Hn].
      { pose proof (clean_no_byte _ _ Hc) as Hb. apply Forall_cons in Hb as [Hb _]. split; [|done].
        destruct Hc as ([|n] & l' & E & Hl & _); [|by injection E as -> _]. cbn in E. subst l'. apply Forall_cons in Hl as [Hl _]. apply Hl. }
      destruct l as [|y l]; [rewrite <-(str_app_nil_r x) at 1|rewrite strings_Join_cons]; by apply first_not_slash. }
    f_equal. rewrite (split_join_clean _ _ Hc) by done. by rewrite push_clean, reverse_involutive.
Qed.
Lemma text_parse_inj s s' : text (parse s) = text (parse s') → parse s = parse s'.
Proof. intros E. rewrite <-(parse_text (parse s)), <-(parse_text (parse s')), E; [done|apply parse_clean..]. Qed.

Lemma differ_spec a b : ∃ c, a = c ++ (differ a b).1 ∧ b = c ++ (differ a b).2.
Proof.
  revert b. induction a as [|x a IH]; intros [|y b]; try by exists []. cbn. unfold str_eqb. case_bool_decide; [|by exists []].
  subst y. destruct (IH b) as (c & H1 & H2). exists (x :: c). cbn. by rewrite <-H1, <-H2.
Qed.
Lemma leaves_up l : leaves (Some (strings_Join (".." :: l) "/")) = true.
Proof. destruct l as [|x l]; [done|]. rewrite strings_Join_cons.
  unfold leaves. apply orb_true_iff. right. apply strings_HasPrefix_spec. by exists (strings_Join (x :: l) "/").
Qed.
(** What does not leave a directory is in it. *)
Lemma stays_under base targ :
  leaves (Rel base targ) = false →
  ∃ rest, parse targ = mkPath (rooted (parse base)) (elems (parse base) ++ rest) ∧ Forall ordinary rest.
Proof.
  unfold Rel. set (b := parse base). set (t := parse targ).
  destruct (str_eqb (text b) (text t)) eqn:E.
  { intros _. exists []. apply str_eqb_eq, text_parse_inj in E. fold b t in E. rewrite app_nil_r, <-E. by destruct b. }
  apply str_eqb_ne in E. destruct (Bool.eqb (rooted b) (rooted t)) eqn:Er; [|done]. apply Bool.eqb_prop in Er. cbn [negb].
  destruct (differ_spec (elems b) (target_elems t)) as (c & H1 & H2).
  destruct (differ (elems b) (target_elems t)) as [b' t']. cbn [fst snd] in *. destruct (bool_decide _); [done|].
  destruct b' as [|x b']; [|cbn [fmap list_fmap app]; by rewrite leaves_up]. rewrite app_nil_r in H1. subst c. cbn [fmap list_fmap app]. intros Hrel.
  pose proof (parse_clean base : clean (rooted b) (elems b)) as Hb.
  pose proof (parse_clean targ : clean (rooted t) (elems t)) as Ht.
  assert (elems t = elems b ++ t') as Hel.
  { unfold target_elems in H2. destruct (elems t) eqn:Et; [|done]. destruct (rooted t) eqn:Rt; [done|].
    destruct (elems b) as [|y l] eqn:Eb.
    - exfalso. apply E. unfold text. by rewrite Er, Rt, Et, Eb.
    - cbn in H2. injection H2 as <- H2. symmetry in H2. apply app_nil in H2 as [-> ->].
      rewrite Er in Hb. destruct Hb as ([|n] & l' & El & Hl & _); [|done]. cbn in El. subst l'.
      apply Forall_cons in Hl as [(_ & Hd & _) _]. done. }
  exists t'. split; [rewrite Er, <-Hel; clearbody t; by destruct t|].
  destruct Ht as (n & l' & El & Hl & _). rewrite Hel in El. apply app_eq_app in El as (m & [[H3 H4]|[H3 H4]]).
  - subst l'. by apply Forall_app in Hl as [_ Hl].
  - destruct m as [|y m]; [cbn in H4; by rewrite H4|].
    assert (y = "..") as ->.
    { assert (y ∈ repeat ".." n) as Hy by (rewrite H3; set_solver). by apply list_elem_of_In, repeat_spec in Hy. }
    by rewrite H4, <-app_comm_cons, leaves_up in Hrel.
Qed.

Lemma join_starts base key : base ≠ "" → Join [base; key +:+ ".json"] = text (parse (base +:+ "/" +:+ key +:+ ".json")).
Proof.
  intros Hb. unfold Join. rewrite filter_cons_True, filter_cons_True, filter_nil; [|by destruct key|done].
  unfold Clean. by rewrite strings_Join_cons.
Qed.

(** ** Where bundles go *)
Section theorems.
Context {W : Type} `{!Store W} (marshal : Record_ → string + string).
(** The directory and the file of a bundle, below a base. *)
Definition bundle_steps (base : string) (rest : list string) (content : string) : list store_step :=
  let b := parse base in
  [MkdirAll (text (mkPath (rooted b) (removelast (elems b ++ rest)))); WriteFile (text (mkPath (rooted b) (elems b ++ rest))) content].
Lemma save_follows (a b : store_step) {A} (x : A) :
  sends (and_then (wrapped "storage: mkdir" (do_step (W := W) a)) (λ _,
         and_then (wrapped "storage: write" (do_step b)) (λ _, gives x))) (follows [a; b]).
Proof.
  assert (∀ c, sends (do_step (W := W) c) (λ l _, l = [c])) as Hstep by (intros c s; by exists [c]).
  eapply sends_and_then; [apply sends_wrapped_any, Hstep| |].
  - intros l e ->. split; [|done]. apply prefix_cons, prefix_nil.
  - intros l _ ->. eapply sends_and_then; [apply sends_wrapped_any, Hstep|by intros l e ->|].
    intros l _ ->. by apply sends_ret.
Qed.
(** C15: Whatever a key holds, a sink of the file system writes under its base
    directory alone: the file's path is the base's with ordinary names after
    it, none of which goes up; a key that would leave is refused before
    anything is done. *)
Theorem bundles_stay_under_base base key r :
  base ≠ "" →
  sends (fs_Save (W := W) marshal base key r) (λ l res,
    (l = [] ∧ ∃ e, res = inr e)
    ∨ ∃ rest content, marshal r = inl content ∧ Forall ordinary rest ∧ follows (bundle_steps base rest content) l res).
Proof.
  intros Hbase. unfold fs_Save. destruct (marshal r) as [b|e] eqn:Em; [|by apply sends_ret; left; eauto].
  set (p := Join _). destruct (leaves _) eqn:El; [by apply sends_ret; left; eauto|].
  destruct (stays_under base p El) as (rest & Hp & Hrest).
  assert (p = text (mkPath (rooted (parse base)) (elems (parse base) ++ rest))) as Hpt.
  { rewrite <-Hp. unfold p. rewrite join_starts by done. set (q := base +:+ _). by rewrite (parse_text (parse q)) by apply parse_clean. }
  assert (Dir p = text (mkPath (rooted (parse base)) (removelast (elems (parse base) ++ rest)))) as Hd by by unfold Dir; rewrite Hp.
  eapply sends_weaken; [apply (save_follows (MkdirAll (Dir p)) (WriteFile p b) p)|]. cbn beta. intros l res H. right.
  exists rest, b. split_and!; [done..|]. unfold bundle_steps. by rewrite <-Hpt, <-Hd.
Qed.

(** A part of a key: a name, or nothing. *)
Definition part (e : string) : Prop := e ≠ "." ∧ e ≠ ".." ∧ no_byte slash e.
Lemma parse_base base key : base ≠ "" → parse (base +:+ "/" +:+ key)
  = mkPath (rooted (parse base)) (reverse (foldl (push (rooted (parse base))) (reverse (elems (parse base))) (strings_Split key slash))).
Proof.
  intros Hb. unfold parse. cbn [rooted elems].
  assert (strings_HasPrefix (base +:+ "/" +:+ key) "/" = strings_HasPrefix base "/") as ->.
  { destruct base as [|c base]; [done|]. cbn. by destruct base. }
  rewrite (strings_Split_app base key slash : strings_Split (base +:+ "/" +:+ key) slash = _), foldl_app. by rewrite reverse_involutive.
Qed.
Lemma push_parts root out l : Forall (λ e, e = "" ∨ ordinary e) l →
  foldl (push root) out l = reverse (filter (λ e, e ≠ "") l) ++ out.
Proof.
  intros Hl. revert out. induction Hl as [|e l [->|He] _ IH]; intros out; [done| |]; cbn [foldl].
  - rewrite filter_cons_False by tauto. apply IH.
  - rewrite filter_cons_True by apply He. by rewrite push_ordinary, IH, reverse_cons, <-(assoc_L (++)).
Qed.
Lemma part_ordinary e : part e → e = "" ∨ ordinary e.
Proof. intros (H1 & H2 & H3). destruct (decide (e = "")); [by left|by right]. Qed.
Lemma leaves_ordinary l : Forall ordinary l → l ≠ [] → leaves (Some (strings_Join l "/")) = false.
Proof.
  intros Hl Hne. assert (strings_Split (strings_Join l "/") slash = l) as Hs
    by (apply (split_join_clean false); [by exists O, l|done]).
  assert (∀ u, l ≠ ".." :: u) as Hu.
  { intros u ->. apply Forall_cons in Hl as [(_ & _ & H & _) _]. done. }
  apply orb_false_iff. split.
  - apply str_eqb_ne. intros E. rewrite E in Hs. by apply (Hu []).
  - apply not_true_iff_false. intros [u E]%strings_HasPrefix_spec. rewrite E in Hs.
    apply (Hu (strings_Split u slash)). rewrite <-Hs. apply (strings_Split_app ".." u slash).
Qed.
Lemma differ_app a b : differ a (a ++ b) = ([], b).
Proof. induction a as [|x a IH]; [done|]. cbn. by rewrite str_eqb_refl. Qed.
Lemma under_stays base targ rest :
  parse targ = mkPath (rooted (parse base)) (elems (parse base) ++ rest) → Forall ordinary rest → rest ≠ [] →
  leaves (Rel base targ) = false.
Proof.
  intros Hp Hr Hne. unfold Rel. rewrite Hp. cbn [rooted elems]. destruct (str_eqb _ _); [done|].
  rewrite Bool.eqb_reflx. cbn [negb].
  assert (∀ r l, l ≠ [] → target_elems (mkPath r l) = l) as -> by (by intros ? []).
  2:{ by intros [_ ?]%app_nil. }
  rewrite differ_app. case_bool_decide as H; [done|]. by apply leaves_ordinary.
Qed.
Lemma split_key ns workload reason date pod : Forall part [ns; workload; reason; date; pod] →
  strings_Split ((ns +:+ "/" +:+ workload +:+ "/" +:+ reason +:+ "/" +:+ date +:+ "/" +:+ pod) +:+ ".json") slash
  = [ns; workload; reason; date; pod +:+ ".json"].
Proof.
  rewrite !Forall_cons. intros ((_ & _ & H1) & (_ & _ & H2) & (_ & _ & H3) & (_ & _ & H4) & (_ & _ & H5) & _).
  assert (no_byte slash (pod +:+ ".json")) as H6 by by apply no_byte_app.
  rewrite !str_app_assoc.
  assert (∀ a b, strings_Split (a +:+ "/" +:+ b) slash = strings_Split a slash ++ strings_Split b slash) as Hs
    by (intros a b; apply strings_Split_app).
  rewrite !Hs. unfold no_byte in *. by rewrite H1, H2, H3, H4, H6.
Qed.

(** A bundle whose parts are names is never refused: its file is under the
    base by its namespace, workload, reason, day and pod, and its address is
    given once it is written. *)
Theorem bundle_is_filed base ns workload reason pod t r b s :
  base ≠ "" → Forall part [ns; workload; reason; format_date t; pod] → marshal r = inl b →
  let names := filter (λ e, e ≠ "") [ns; workload; reason; format_date t; pod +:+ ".json"] in
  let file := text (mkPath (rooted (parse base)) (elems (parse base) ++ names)) in
  (∀ c w, (store_do c w).1 = None) →
  let res := fs_Save (W := W) marshal base (BuildKey ns workload pod reason t) r s in
  res.1 = inl file ∧ last res.2.2 = Some (WriteFile file b).
Proof.
  intros Hb Hparts Hm names file Hok. cbv zeta. set (key := BuildKey ns workload pod reason t).
  assert (Forall (λ e, e = "" ∨ ordinary e) [ns; workload; reason; format_date t; pod +:+ ".json"]) as Hord.
  { rewrite !Forall_cons in Hparts |- *. destruct Hparts as (H1 & H2 & H3 & H4 & H5 & _).
    split_and!; [by apply part_ordinary..| |done]. right. split_and!.
    - by destruct pod.
    - destruct pod as [|? [|]]; done.
    - destruct pod as [|? [|? [|]]]; done.
    - apply no_byte_app. split; [apply H5|done]. }
  assert (Forall ordinary names) as Hn.
  { unfold names. apply Forall_forall. intros e [He Hin]%list_elem_of_filter. rewrite Forall_forall in Hord.
    by destruct (Hord e Hin). }
  assert (names ≠ []) as Hne.
  { intros E. assert (pod +:+ ".json" ∈ names) as Hin by (apply list_elem_of_filter; split; [by destruct pod|set_solver]).
    rewrite E in Hin. by apply elem_of_nil in Hin. }
  set (q := base +:+ "/" +:+ key +:+ ".json").
  assert (parse q = mkPath (rooted (parse base)) (elems (parse base) ++ names)) as Hq.
  { unfold q. rewrite parse_base by done. unfold key, BuildKey. rewrite split_key by done. rewrite push_parts by done.
    by rewrite reverse_app, !reverse_involutive. }
  assert (Join [base; key +:+ ".json"] = file) as Hj by (rewrite join_starts by done; fold q; by rewrite Hq).
  assert (parse file = parse q) as Hf.
  { unfold file. rewrite <-Hq. apply parse_text, parse_clean. }
  unfold fs_Save. rewrite Hm, Hj, (under_stays base file names) by (rewrite ?Hf; done).
  unfold and_then, wrapped, do_step, st_bind, gives, st_ret. cbn. rewrite Hok. cbn. rewrite Hok. cbn. by rewrite last_snoc.
Qed.
End theorems.

(** A bundle is written where its key says, and a key that leaves is refused. *)
Lemma bundles_stay_under_base_witness :
  let H : Store unit := Build_Store _ (λ _ w, (None, w)) in
  let r := mkRecord 0 "prod" "web" "web-1" "app" "node-1" "OOMKilled" "" "" [] [] in
  let save key := fs_Save (W := unit) (λ _, inl "{}") "/var/log" key r in
  (save "prod/web" (tt, [])).2.2 = [MkdirAll "/var/log/prod"; WriteFile "/var/log/prod/web.json" "{}"]
  ∧ (save "../../etc/x" (tt, [])).2.2 = []
  ∧ sends (save "../../etc/x") (λ l res,
      (l = [] ∧ ∃ e, res = inr e)
      ∨ ∃ rest content, (inl "{}" : string + string) = inl content ∧ Forall ordinary rest ∧ follows (bundle_steps "/var/log" rest content) l res).
Proof.
  intros H r save. split; [vm_compute; reflexivity|]. split; [vm_compute; reflexivity|].
  apply (bundles_stay_under_base (W := unit) (λ _, inl "{}") "/var/log" "../../etc/x" r). discriminate.
Defined.
