(* ===== verification/TermView.v ===== *)
(** * What the terminal shows of each kind: internal/httpapi/terminal_get.go,
      terminal_describe.go

    The typed objects the API server answers with, the cells of a table's
    row, and the lines of a description.  [view] makes them those of the
    terminal of [Terminal].  Kinds of objects are ASCII. *)
From S2P Require Import Prelude GoStd K8s Http Routing SlackActions HttpReads Terminal.
From Stdlib Require Import Ascii.
#[local] Open Scope Z_scope.
#[local] Open Scope agent_scope.

(** ** Objects *)
Record Meta := mkMeta { m_ns : string; m_name : string; m_created : Time; m_labels : gmap string string; m_owners : list (string * string) }.
Record Cond := mkCond { c_Type : string; c_Status : string; c_Reason : string; c_Message : string }.
Record Scaled := mkScaled { sc_Replicas : option Z; sc_Ready : Z; sc_Updated : Z; sc_Containers : list Container }.
Record Endpoint := mkEndpoint { ep_Addresses : list string; ep_Ready : option bool }.
Record IngressRule := mkRule { ir_Host : string; ir_Paths : option (list (string * option string)) (* path, Service *) }.

Inductive KObj :=
| KPod (m : Meta) (p : Pod)
| KDeployment (m : Meta) (s : Scaled) (available : Z) (selector : option (gmap string string)) (strategy : string) (paused : bool)
    (conds : list Cond)
| KStatefulSet (m : Meta) (s : Scaled) (management currentRevision updateRevision : string)
| KDaemonSet (m : Meta) (desired current ready updated : Z) (nodeSelector : gmap string string)
| KReplicaSet (m : Meta) (replicas : option Z) (current ready : Z)
| KJob (m : Meta) (conds : list Cond) (active succeeded failed : Z) (completions : option Z) (containers : list Container)
| KCronJob (m : Meta) (schedule : string) (suspend : option bool) (active : list string) (last : option Time)
| KService (m : Meta) (type clusterIP : string) (ports : list (Z * string)) (selector : gmap string string)
| KEndpointSlice (m : Meta) (endpoints : list Endpoint)
| KIngress (m : Meta) (class : option string) (rules : list IngressRule) (defaultBackend : option string)
| KNetworkPolicy (m : Meta) (selector : gmap string string) (types : list string)
| KHPA (m : Meta) (kind name : string) (min : option Z) (max current desired : Z) (conds : list Cond)
| KPDB (m : Meta) (minAvailable maxUnavailable : option string) (allowed : Z)
| KPVC (m : Meta) (phase volume : string) (capacity class : option string) (requests : gmap string Quantity)
| KQuota (m : Meta) (hard used : gmap string Quantity)
| KConfigMap (m : Meta) (data binary : gmap string string)
| KEvent (m : Meta) (type reason kind name message : string) (times : Times)
| KPolicy (m : Meta)
| KNode (n : Node)
| KNamespace (m : Meta) (phase : string).

(** ** Cells *)
Definition ratio (a b : Z) : string := itoa a +:+ "/" +:+ itoa b.
Definition none_or (l : list string) : string :=
  match l with [] => "<none>" | _ => strings_Join (sort_strings l) "," end.
Definition joinMap (m : gmap string string) : string := none_or ((λ kv : string * string, kv.1 +:+ "=" +:+ kv.2) <$> map_to_list m).
Definition resourceList (m : gmap string Quantity) : string :=
  none_or ((λ kv : string * Quantity, kv.1 +:+ "=" +:+ q_text kv.2) <$> map_to_list m).
Definition images (l : list Container) : string := strings_Join (ct_Image <$> l) ",".
Definition replicas (p : option Z) : Z := default 1 p.
Definition trunc (s : string) (n : nat) : string := if (n <? String.length s)%nat then str_take n s +:+ "..." else s.
Definition endpoint_ready (ep : Endpoint) : bool := default true (ep_Ready ep).
Definition job_status (conds : list Cond) : string :=
  foldl (λ status c, if str_eqb (c_Type c) "Complete" && str_eqb (c_Status c) "True" then "Complete"
                     else if str_eqb (c_Type c) "Failed" && str_eqb (c_Status c) "True" then "Failed" else status) "Running" conds.
Definition quota_used (hard used : gmap string Quantity) : string :=
  strings_Join (sort_strings ((λ kv : string * Quantity,
    kv.1 +:+ ": " +:+ default "0" (q_text <$> used !! kv.1) +:+ "/" +:+ q_text kv.2) <$> map_to_list hard)) ", ".
Definition role_prefix : string := "node-role.kubernetes.io/".
Definition role_of (label : string) : option string :=
  if strings_HasPrefix label role_prefix then Some (strings_TrimPrefix label role_prefix) else None.
Definition term_roles (labels : gmap string string) : string := none_or (omap (λ kv : string * string, role_of kv.1) (map_to_list labels)).
Definition internal_ip (l : list (string * string)) : string :=
  foldl (λ ip (a : string * string), if str_eqb a.1 "InternalIP" then a.2 else ip) "" l.
(** Addresses that are ready, and all. *)
Definition ready_addresses (l : list Endpoint) : list string := mjoin (ep_Addresses <$> filter (λ ep, endpoint_ready ep = true) l).
Definition all_addresses (l : list Endpoint) : list string := mjoin (ep_Addresses <$> l).
Definition event_time (t : Times) : Time :=
  if negb (time_IsZero (t_Last t)) then t_Last t else if negb (time_IsZero (t_Event t)) then t_Event t else t_Creation t.

(** The name a kind has in the table of [get], its namespace and name. *)
Definition kind_of (o : KObj) : string :=
  match o with
  | KPod _ _ => "pods" | KDeployment _ _ _ _ _ _ _ => "deployments" | KStatefulSet _ _ _ _ _ => "statefulsets"
  | KDaemonSet _ _ _ _ _ _ => "daemonsets" | KReplicaSet _ _ _ _ => "replicasets" | KJob _ _ _ _ _ _ _ => "jobs"
  | KCronJob _ _ _ _ _ => "cronjobs" | KService _ _ _ _ _ => "services" | KEndpointSlice _ _ => "endpointslices"
  | KIngress _ _ _ _ => "ingresses" | KNetworkPolicy _ _ _ => "networkpolicies" | KHPA _ _ _ _ _ _ _ _ => "hpa"
  | KPDB _ _ _ _ => "pdb" | KPVC _ _ _ _ _ _ => "pvc" | KQuota _ _ _ => "resourcequotas" | KConfigMap _ _ _ => "configmaps"
  | KEvent _ _ _ _ _ _ _ => "events" | KPolicy _ => "autoremediationpolicies" | KNode _ => "nodes" | KNamespace _ _ => "namespaces"
  end.
(** The row of a table: its cells, and those of the wide one. *)
Section rows.
Context (now : Time).
Abbreviation age_of m := (age now (m_created m)).
Definition listPods (m : Meta) (p : Pod) : list string * list string :=
  ([ratio (count cs_Ready (p_Statuses p)) (Z.of_nat (length (p_Containers p))); podStatus p;
    itoa (foldl (λ n cs, wrap32 (n + cs_RestartCount cs)) 0 (p_Statuses p)); age_of m], [p_PodIP p; p_NodeName p]).
Definition listDeployments (m : Meta) (s : Scaled) (available : Z) (selector : option (gmap string string)) : list string * list string :=
  ([ratio (sc_Ready s) (replicas (sc_Replicas s)); itoa (sc_Updated s); itoa available; age_of m],
   [images (sc_Containers s); match selector with Some l => joinMap l | None => "<none>" end]).
Definition listStatefulSets (m : Meta) (s : Scaled) : list string * list string :=
  ([ratio (sc_Ready s) (replicas (sc_Replicas s)); age_of m], [images (sc_Containers s)]).
Definition listDaemonSets (m : Meta) (desired current ready updated : Z) (nodeSelector : gmap string string) : list string * list string :=
  ([itoa desired; itoa current; itoa ready; itoa updated; age_of m], [joinMap nodeSelector]).
Definition listReplicaSets (m : Meta) (r : option Z) (current ready : Z) : list string * list string :=
  ([itoa (replicas r); itoa current; itoa ready; age_of m],
   [match m_owners m with (kind, name) :: _ => to_lower kind +:+ "/" +:+ name | [] => "<none>" end]).
Definition listJobs (m : Meta) (conds : list Cond) (succeeded : Z) (completions : option Z) : list string * list string :=
  ([job_status conds; ratio succeeded (replicas completions); age_of m], []).
Definition listCronJobs (m : Meta) (schedule : string) (suspend : option bool) (active : list string) (last : option Time) : list string * list string :=
  ([schedule; fmt_t (default false suspend); itoa (Z.of_nat (length active)); match last with Some t => age now t | None => "<none>" end;
    age_of m], []).
Definition listServices (m : Meta) (type clusterIP : string) (ports : list (Z * string)) (selector : gmap string string) : list string * list string :=
  ([type; clusterIP; strings_Join ((λ p : Z * string, itoa p.1 +:+ "/" +:+ p.2) <$> ports) ","; age_of m], [joinMap selector]).
Definition listEndpointSlices (m : Meta) (eps : list Endpoint) : list string * list string :=
  ([default "" (m_labels m !! "kubernetes.io/service-name"); itoa (Z.of_nat (length (ready_addresses eps)));
    itoa (Z.of_nat (length (all_addresses eps))); age_of m], []).
Definition listIngresses (m : Meta) (class : option string) (rules : list IngressRule) : list string * list string :=
  ([default "<none>" class; strings_Join (ir_Host <$> rules) ","; age_of m], []).
Definition listNetworkPolicies (m : Meta) (selector : gmap string string) (types : list string) : list string * list string :=
  ([joinMap selector; strings_Join types ","; age_of m], []).
Definition listHPAs (m : Meta) (kind name : string) (min : option Z) (max current : Z) : list string * list string :=
  ([to_lower kind +:+ "/" +:+ name; itoa (replicas min); itoa max; itoa current; age_of m], []).
Definition listPDBs (m : Meta) (minA maxU : option string) (allowed : Z) : list string * list string :=
  ([default "N/A" minA; default "N/A" maxU; itoa allowed; age_of m], []).
Definition listPVCs (m : Meta) (phase volume : string) (capacity class : option string) : list string * list string :=
  ([phase; volume; default "" capacity; default "<none>" class; age_of m], []).
Definition listQuotas (m : Meta) (hard used : gmap string Quantity) : list string * list string :=
  ([quota_used hard used; age_of m], []).
Definition listConfigMaps (m : Meta) (data binary : gmap string string) : list string * list string :=
  ([itoa (Z.of_nat (base.size data + base.size binary)); age_of m], []).
Definition listEvents (type reason kind name message : string) (times : Times) : list string * list string :=
  ([type; reason; to_lower kind +:+ "/" +:+ name; trunc message 100; age now (event_time times)], []).
Definition listPolicies (m : Meta) : list string * list string :=
  ([age_of m], []).
Definition listNodes (n : Node) : list string * list string :=
  ([nodeStatus n; term_roles (n_Labels n); age now (n_Creation n); n_Version n], [internal_ip (n_Addresses n); n_OS n; n_Runtime n]).
Definition listNamespaces (m : Meta) (phase : string) : list string * list string :=
  ([phase; age_of m], []).
Definition cells (o : KObj) : list string * list string :=
  match o with
  | KPod m p => listPods m p
  | KDeployment m s available selector _ _ _ => listDeployments m s available selector
  | KStatefulSet m s _ _ _ => listStatefulSets m s
  | KDaemonSet m desired current ready updated nodeSelector => listDaemonSets m desired current ready updated nodeSelector
  | KReplicaSet m r current ready => listReplicaSets m r current ready
  | KJob m conds _ succeeded _ completions _ => listJobs m conds succeeded completions
  | KCronJob m schedule suspend active last => listCronJobs m schedule suspend active last
  | KService m type clusterIP ports selector => listServices m type clusterIP ports selector
  | KEndpointSlice m eps => listEndpointSlices m eps
  | KIngress m class rules _ => listIngresses m class rules
  | KNetworkPolicy m selector types => listNetworkPolicies m selector types
  | KHPA m kind name min max current _ _ => listHPAs m kind name min max current
  | KPDB m minA maxU allowed => listPDBs m minA maxU allowed
  | KPVC m phase volume capacity class _ => listPVCs m phase volume capacity class
  | KQuota m hard used => listQuotas m hard used
  | KConfigMap m data binary => listConfigMaps m data binary
  | KEvent _ type reason kind name message times => listEvents type reason kind name message times
  | KPolicy m => listPolicies m
  | KNode n => listNodes n
  | KNamespace m phase => listNamespaces m phase
  end.
End rows.

(** ** Descriptions *)
Definition add (label text : string) : string := pad 18 (label +:+ ":") +:+ " " +:+ text +:+ nl.
Definition section (title : string) : string := nl +:+ title +:+ ":" +:+ nl.
Definition text_line (s : string) : string := "  " +:+ s +:+ nl.
Definition lines (l : list string) : string := String.concat "" (text_line <$> l).
Definition conditions (l : list Cond) : string :=
  section "Conditions" +:+ lines ((λ c, c_Type c +:+ "=" +:+ c_Status c +:+ " (" +:+ c_Reason c +:+ ") " +:+ c_Message c) <$> l).
Definition named (m : Meta) : string := add "Name" (m_name m) +:+ add "Namespace" (m_ns m).

Section descriptions.
Context (now : Time).
Definition container_state (s : CState) : string :=
  match st_StartedAt s, st_Waiting s, st_Ended s with
  | Some t, _, _ => "Running since " +:+ age now t
  | None, Some r, _ => "Waiting: " +:+ r
  | None, None, Some (r, code) => "Terminated: " +:+ r +:+ ", exit " +:+ itoa code
  | None, None, None => "unknown"
  end.
Definition status_line (cs : ContainerStatus) : string :=
  cs_Name cs +:+ "  image " +:+ cs_Image cs +:+ "  ready " +:+ fmt_t (cs_Ready cs) +:+ "  restarts " +:+ itoa (cs_RestartCount cs)
  +:+ "  " +:+ container_state (cs_State cs).
Definition template_line (c : Container) : string :=
  ct_Name c +:+ "  image " +:+ ct_Image c +:+ "  requests " +:+ resourceList (ct_Requests c) +:+ "  limits " +:+ resourceList (ct_Limits c).
Definition slice_endpoints (o : KObj) : list Endpoint := match o with KEndpointSlice _ eps => eps | _ => [] end.
Definition path_lines (r : IngressRule) : list string :=
  (λ p : string * option string, ir_Host r +:+ p.1 +:+ " -> " +:+ default "<resource>" p.2) <$> default [] (ir_Paths r).
(** What is described of each kind. *)
Definition describePod (m : Meta) (p : Pod) : string :=
  named m +:+ add "Node" (p_NodeName p) +:+ add "Status" (podStatus p) +:+ add "IP" (p_PodIP p)
  +:+ add "Age" (age now (m_created m)) +:+ add "Labels" (joinMap (m_labels m))
  +:+ section "Containers" +:+ lines (status_line <$> p_Statuses p).
Definition describeDeployment (m : Meta) (s : Scaled) (available : Z) (strategy : string) (paused : bool) (conds : list Cond) : string :=
  named m +:+ add "Replicas" (itoa (replicas (sc_Replicas s)) +:+ " desired, " +:+ itoa (sc_Updated s) +:+ " updated, "
                              +:+ itoa available +:+ " available, " +:+ itoa (sc_Ready s) +:+ " ready")
  +:+ add "Strategy" strategy +:+ add "Paused" (fmt_t paused) +:+ add "Age" (age now (m_created m))
  +:+ conditions conds +:+ section "Containers" +:+ lines (template_line <$> sc_Containers s).
Definition describeStatefulSet (m : Meta) (s : Scaled) (management current update : string) : string :=
  named m +:+ add "Replicas" (itoa (replicas (sc_Replicas s)) +:+ " desired, " +:+ itoa (sc_Ready s) +:+ " ready, "
                              +:+ itoa (sc_Updated s) +:+ " updated")
  +:+ add "Pod management" management +:+ add "Revisions" ("current " +:+ current +:+ ", update " +:+ update)
  +:+ add "Images" (images (sc_Containers s)).
Definition describeJob (m : Meta) (conds : list Cond) (active succeeded failed : Z) (containers : list Container) : string :=
  named m +:+ add "Pods" (itoa active +:+ " active, " +:+ itoa succeeded +:+ " succeeded, " +:+ itoa failed +:+ " failed")
  +:+ add "Images" (images containers) +:+ conditions conds.
Definition describeService (m : Meta) (type clusterIP : string) (selector : gmap string string) (slices : option (list KObj)) : string :=
  named m +:+ add "Type" type +:+ add "Cluster IP" clusterIP +:+ add "Selector" (joinMap selector)
  +:+ match slices with
      | Some l => let ready := ready_addresses (mjoin (slice_endpoints <$> l)) in
                  add "Ready endpoints" (itoa (Z.of_nat (length ready)) +:+ " " +:+ strings_Join ready ",")
      | None => ""
      end.
Definition describePVC (m : Meta) (phase volume : string) (class : option string) (requests : gmap string Quantity) : string :=
  named m +:+ add "Status" phase +:+ add "Volume" volume
  +:+ match class with Some c => add "StorageClass" c | None => "" end +:+ add "Requested" (resourceList requests).
Definition describeHPA (m : Meta) (kind name : string) (min : option Z) (max current desired : Z) (conds : list Cond) : string :=
  named m +:+ add "Target" (kind +:+ "/" +:+ name)
  +:+ add "Replicas" ("min " +:+ itoa (replicas min) +:+ ", max " +:+ itoa max +:+ ", current " +:+ itoa current +:+ ", desired " +:+ itoa desired)
  +:+ conditions conds.
Definition describeIngress (m : Meta) (rules : list IngressRule) (backend : option string) : string :=
  named m +:+ match backend with Some s => add "Default backend" s | None => "" end
  +:+ section "Rules" +:+ lines (mjoin (path_lines <$> rules)).
Definition describeNode (n : Node) : string :=
  add "Name" (n_Name n) +:+ add "Status" (nodeStatus n) +:+ add "Version" (n_Version n)
  +:+ add "OS" (n_OS n +:+ " (" +:+ n_Arch n +:+ ")") +:+ add "Runtime" (n_Runtime n) +:+ add "Unschedulable" (fmt_t (n_Unschedulable n))
  +:+ add "Capacity" ("cpu " +:+ n_CPU n +:+ ", memory " +:+ formatMemory (n_Memory n) +:+ ", pods " +:+ n_PodsCapacity n)
  +:+ section "Conditions" +:+ lines ((λ c : string * string * string, c.1.1 +:+ "=" +:+ c.1.2 +:+ " (" +:+ c.2 +:+ ")") <$> n_Conditions n).
(** A description but for its events; [slices]: those of a Service, when they
    could be listed. *)
Definition description (o : KObj) (slices : option (list KObj)) : string :=
  match o with
  | KPod m p => describePod m p
  | KDeployment m s available _ strategy paused conds => describeDeployment m s available strategy paused conds
  | KStatefulSet m s management current update => describeStatefulSet m s management current update
  | KJob m conds active succeeded failed _ containers => describeJob m conds active succeeded failed containers
  | KService m type clusterIP _ selector => describeService m type clusterIP selector slices
  | KPVC m phase volume _ class requests => describePVC m phase volume class requests
  | KHPA m kind name min max current desired conds => describeHPA m kind name min max current desired conds
  | KIngress m _ rules backend => describeIngress m rules backend
  | KNode n => describeNode n
  | _ => ""
  end.
(** An event in a description. *)
Definition described_event (o : KObj) : string :=
  match o with
  | KEvent _ type reason _ _ message times => type +:+ "  " +:+ age now (event_time times) +:+ "  " +:+ reason +:+ ": " +:+ message
  | _ => ""
  end.
End descriptions.

(** ** The progress of a rollout: internal/httpapi/terminal_read.go

    Counts are 32-bit: differences wrap. *)
Record DeploymentProgress := mkDeploymentProgress {
  dp_Name : string; dp_Generation : Z; dp_Observed : Z; dp_Want : option Z; dp_Updated : Z; dp_Replicas : Z;
  dp_Available : Z; dp_Conditions : list Cond
}.
Record StatefulSetProgress := mkStatefulSetProgress {
  sp_Name : string; sp_Generation : Z; sp_Observed : Z; sp_Want : option Z; sp_Ready : Z; sp_Updated : Z;
  sp_Current : string; sp_Update : string
}.
Definition missed_deadline (c : Cond) : bool :=
  str_eqb (c_Type c) "Progressing" && str_eqb (c_Reason c) "ProgressDeadlineExceeded".
Definition deploymentRollout (d : DeploymentProgress) : string :=
  let want := default 1 (dp_Want d) in
  let name := strconv_Quote (dp_Name d) in
  let waiting := "Waiting for deployment " +:+ name +:+ " rollout to finish: " in
  match List.find missed_deadline (dp_Conditions d) with
  | Some c => "deployment " +:+ name +:+ " exceeded its progress deadline: " +:+ c_Message c
  | None =>
    if dp_Observed d <? dp_Generation d then "Waiting for deployment " +:+ name +:+ " spec update to be observed..."
    else if dp_Updated d <? want
    then waiting +:+ itoa (dp_Updated d) +:+ " of " +:+ itoa want +:+ " new replicas have been updated..."
    else if dp_Updated d <? dp_Replicas d
    then waiting +:+ itoa (wrap32 (dp_Replicas d - dp_Updated d)) +:+ " old replicas are pending termination..."
    else if dp_Available d <? dp_Updated d
    then waiting +:+ itoa (dp_Available d) +:+ " of " +:+ itoa (dp_Updated d) +:+ " updated replicas are available..."
    else "deployment " +:+ name +:+ " successfully rolled out"
  end.
Definition statefulSetRollout (s : StatefulSetProgress) : string :=
  let want := default 1 (sp_Want s) in
  if sp_Observed s <? sp_Generation s
  then "Waiting for statefulset " +:+ strconv_Quote (sp_Name s) +:+ " spec update to be observed..."
  else if sp_Ready s <? want then "Waiting for " +:+ itoa (wrap32 (want - sp_Ready s)) +:+ " pods to be ready..."
  else if negb (str_eqb (sp_Update s) (sp_Current s))
  then "Waiting for partitioned roll out to finish: " +:+ itoa (sp_Updated s) +:+ " out of " +:+ itoa want
       +:+ " new pods have been updated..."
  else "statefulset rolling update complete " +:+ itoa want +:+ " pods at revision " +:+ sp_Current s +:+ "...".
(** What [rollout status] gets: one of the two. *)
Definition rollout_text (r : DeploymentProgress + StatefulSetProgress) : string :=
  match r with inl d => deploymentRollout d | inr s => statefulSetRollout s end.

(** ** The help panel: internal/httpapi/terminal.go *)
Record helpPanel := mkHelp { hp_commands : list termCmd; hp_refused : list refusal_row; hp_rules : list string }.
Definition handleKubectlHelp : helpPanel := mkHelp termCommands neverAdded [
  "Read-only: every change goes through the mutation gate, its guardrails and the audit trail.";
  "Namespaced reads stay inside the watch scope; -A means every watched namespace.";
  "Secrets are never read; ConfigMaps show key names, not values; every output is redacted.";
  "Each command needs only the permissions the agent already holds."].

(** A Deployment is called rolled out only when its spec is observed, every
    replica asked for is of the new template and available, and none of the
    old is left. *)
Lemma rolled_out_is_done d :
  deploymentRollout d = "deployment " +:+ strconv_Quote (dp_Name d) +:+ " successfully rolled out" →
  List.find missed_deadline (dp_Conditions d) = None →
  dp_Generation d ≤ dp_Observed d ∧ default 1 (dp_Want d) ≤ dp_Updated d ∧ dp_Replicas d ≤ dp_Updated d
  ∧ dp_Updated d ≤ dp_Available d.
Proof.
  unfold deploymentRollout. intros H Hc. rewrite Hc in H.
  repeat (case_match; [by rewrite ?str_app_cons in H|]). split_and!; blia.
Qed.

(** ** The terminal over typed objects *)
Definition view (now : Time) (api : TermAPI) (typed : Obj → KObj) (rollout : Obj → DeploymentProgress + StatefulSetProgress)
  : TermAPI := {|
  Obj := Obj; o_ns := o_ns; o_name := o_name; o_phase := o_phase; o_selector := o_selector; o_owners := o_owners;
  o_revision := o_revision; o_involved := o_involved; o_times := o_times; list_objs := list_objs; get_obj := get_obj;
  get_logs := get_logs; review := review; server_version := server_version;
  columns _ o := cells now (typed o); details _ o slices := description now (typed o) ((λ l : list Obj, typed <$> l) <$> slices);
  event_cells := event_cells; event_line o := described_event now (typed o); progress o := rollout_text (rollout o); tabwriter := tabwriter;
  redact_String := redact_String
|}.

(** Every row fits the head of its table: for each kind of the table of
    [get] an object of that kind has a cell under each title, in the wide
    table too. *)
Theorem rows_fit_their_heads now o :
  ∃ k, k ∈ getKinds ∧ k_name k = kind_of o
       ∧ length (cells now o).1 = length (k_head k) ∧ length (cells now o).2 = length (k_wide k).
Proof.
  assert (∃ k, List.find (λ k, str_eqb (k_name k) (kind_of o)) getKinds = Some k
    ∧ length (cells now o).1 = length (k_head k) ∧ length (cells now o).2 = length (k_wide k)) as (k & Hf & H1 & H2)
    by (destruct o; eexists; (split; [reflexivity|split; reflexivity])).
  apply List.find_some in Hf as [Hin Hk]. exists k. split_and!; [by apply list_elem_of_In|by apply str_eqb_eq|done..].
Qed.
(** A row tells of a ConfigMap how many keys it has, and nothing of what they
    hold; no description is of one. *)
Theorem configmap_values_stay now m data binary data' binary' slices :
  (base.size data + base.size binary = base.size data' + base.size binary')%nat →
  cells now (KConfigMap m data binary) = cells now (KConfigMap m data' binary')
  ∧ description now (KConfigMap m data binary) slices = "".
Proof. intros H. split; [|done]. cbn. unfold listConfigMaps. by rewrite H. Qed.
Example rows_run :
  let m name := mkMeta "shop" name 0 {[ "app" := "web"; "tier" := "front" ]} [] in
  let now := 90 * minute in
  cells now (KPod (m "web-1") (mkPod "web-1" "shop" "Running" "n1" "10.0.0.1" 0 [mkContainer "web" "web:1" ∅ ∅]
                                [mkStatus "web" "web:1" true 2 (mkCState None (Some 0) None)] []))
  = (["1/1"; "Running"; "2"; "1h"], ["10.0.0.1"; "n1"])
  ∧ (cells now (KDeployment (m "web") (mkScaled None 1 1 [mkContainer "web" "web:1" ∅ ∅]) 1 (Some (m_labels (m "web"))) "RollingUpdate" false [])).2
    = ["web:1"; "app=web,tier=front"]
  ∧ (cells now (KConfigMap (m "settings") {[ "password" := "hunter2" ]} ∅)).1 = ["1"; "1h"]
  ∧ description now (KService (m "web") "ClusterIP" "10.1.0.1" [(80, "TCP")] {[ "app" := "web" ]})
      (Some [KEndpointSlice (m "web-a") [mkEndpoint ["10.0.0.1"; "10.0.0.2"] None; mkEndpoint ["10.0.0.3"] (Some false)]])
    = "Name:              web" +:+ nl +:+ "Namespace:         shop" +:+ nl +:+ "Type:              ClusterIP" +:+ nl
      +:+ "Cluster IP:        10.1.0.1" +:+ nl +:+ "Selector:          app=web" +:+ nl +:+ "Ready endpoints:   2 10.0.0.1,10.0.0.2" +:+ nl.
Proof. vm_compute. done. Qed.
Example rollouts_run :
  let d u a conds := deploymentRollout (mkDeploymentProgress "web" 2 2 (Some 3) u 3 a conds) in
  d 1 1 [] = "Waiting for deployment " +:+ dq +:+ "web" +:+ dq +:+ " rollout to finish: 1 of 3 new replicas have been updated..."
  ∧ d 3 2 [] = "Waiting for deployment " +:+ dq +:+ "web" +:+ dq +:+ " rollout to finish: 2 of 3 updated replicas are available..."
  ∧ d 3 3 [] = "deployment " +:+ dq +:+ "web" +:+ dq +:+ " successfully rolled out"
  ∧ statefulSetRollout (mkStatefulSetProgress "db" 1 1 (Some 2) 2 2 "r1" "r1") = "statefulset rolling update complete 2 pods at revision r1...".
Proof. vm_compute. done. Qed.
