(* ===== verification/Webhook.v ===== *)
(** * The webhook's server: internal/webhook/validator.go, mirror.go

    Its routes, how an admission review is read and answered, and the
    certificate it serves.  The decoding of a review and the files of the
    certificate are parameters; the rules are those of [Admission]. *)
From S2P Require Import Prelude GoStd Admission.
#[local] Open Scope Z_scope.
#[local] Open Scope agent_scope.

(** ** Reviews *)
(** What is read of a body, and the requests of a review: a kind and an
    object, with the identity an answer carries. *)
Record Request := mkReviewRequest { re_UID : string; re_Request : AdmissionRequest }.
Inductive answer (R : Type) := Rejected (status : Z) (text : string) | Reviewed (uid : string) (r : R).
Arguments Rejected {R}. Arguments Reviewed {R}.
Section reviews.
Context `{Decoder} (decode_pod : string → option podImages).
(** [UniversalDeserializer().Decode]: a review holds a request or none. *)
Context (decode_review : string → option (option Request)).
(** At most 1 MiB of a body is read; [None] is a read that fails. *)
Definition maxReview : nat := Z.to_nat (2 ^ 20).
Definition handleValidate (body : option string) (cfg : Config) : answer response :=
  match body with
  | None => Rejected 400 "read body"
  | Some b =>
    match decode_review (str_take maxReview b) with
    | None => Rejected 400 "decode"
    | Some None => Rejected 400 "no request"
    | Some (Some req) => Reviewed (re_UID req) (validate (re_Request req) cfg)
    end
  end.
Definition handleMutate (body : option string) (m : Mirror) : answer (option (list patchOp)) :=
  match body with
  | None => Rejected 400 "read body"
  | Some b =>
    match decode_review (str_take maxReview b) with
    | None | Some None => Rejected 400 "decode"
    | Some (Some req) => Reviewed (re_UID req) (mutate decode_pod m (re_Request req))
    end
  end.
(** [NewValidator]: the address, and what each path is answered with; the
    mirror has a path when it is on. *)
Definition validator_addr (port : Z) : string := ":" +:+ itoa (if port =? 0 then 8443 else port).
Inductive served := Validation (a : answer response) | Mutation (a : answer (option (list patchOp))) | Health.
Definition serve (cfg : Config) (m : Mirror) (path : string) (body : option string) : option served :=
  if str_eqb path "/validate" then Some (Validation (handleValidate body cfg))
  else if str_eqb path "/mutate" && Admission.Enabled m then Some (Mutation (handleMutate body m))
  else if str_eqb path "/healthz" then Some Health
  else None.
End reviews.

(** ** The certificate *)
Section certificates.
Context {C : Type}.
(** The certificate in use and when its file was changed. *)
Record certReloader := mkReloader { cr_cert : option C; cr_modTime : Time }.
(** What a handshake finds on disk: when the file was changed, and the pair
    it would load. *)
Record disk := mkDisk { dk_stat : Time + string; dk_pair : C + string }.
Definition new_reloader : certReloader := mkReloader None 0.
Definition get (d : disk) (c : certReloader) : (C + string) * certReloader :=
  match dk_stat d with
  | inr e => (inr ("serving certificate: " +:+ e), c)
  | inl t =>
    match cr_cert c, dk_pair d with
    | Some cert, p =>
        if t =? cr_modTime c then (inl cert, c)
        else match p with
             | inl fresh => (inl fresh, mkReloader (Some fresh) t)
             | inr _ => (inl cert, c)
             end
    | None, inl fresh => (inl fresh, mkReloader (Some fresh) t)
    | None, inr e => (inr ("serving certificate: " +:+ e), c)
    end
  end.
(** [Start]: no certificate, no server; then the port. *)
Definition Start (addr : string) (listen_error : option string) (d : disk) (c : certReloader) : option string * certReloader :=
  let '(r, c') := get d c in
  match r with
  | inr e => (Some ("webhook: " +:+ e), c')
  | inl _ => (match listen_error with Some e => Some ("webhook: listen on " +:+ addr +:+ ": " +:+ e) | None => None end, c')
  end.
(** A run of handshakes: what each is served. *)
Fixpoint handshakes (ds : list disk) (c : certReloader) : list (C + string) * certReloader :=
  match ds with
  | [] => ([], c)
  | d :: ds' => let '(r, c') := get d c in let '(rs, c'') := handshakes ds' c' in (r :: rs, c'')
  end.

(** The reference: the certificate served after a history of handshakes is
    the pair of the last one that found a file changed since the last pair
    that loaded, and could load it. *)
Fixpoint last_loaded (ds : list disk) (acc : option (Time * C)) : option (Time * C) :=
  match ds with
  | [] => acc
  | mkDisk (inl t) (inl fresh) :: ds' =>
      last_loaded ds' (match acc with
                       | Some (t0, _) => if t =? t0 then acc else Some (t, fresh)
                       | None => Some (t, fresh)
                       end)
  | _ :: ds' => last_loaded ds' acc
  end.
Definition holds (c : certReloader) (acc : option (Time * C)) : Prop :=
  match acc with Some (t, cert) => cr_cert c = Some cert ∧ cr_modTime c = t | None => cr_cert c = None end.
Lemma get_holds d c acc : holds c acc → holds (get d c).2 (last_loaded [d] acc).
Proof.
  destruct d as [[t|e] [fresh|e']], acc as [[t0 cert]|], c as [[cert'|] t1]; cbn; intros H; try done;
    try (by destruct H); try (destruct H as [[= ->] ->]; by destruct (t =? t0)).
Qed.
Lemma handshakes_hold ds c acc : holds c acc → holds (handshakes ds c).2 (last_loaded ds acc).
Proof.
  revert c acc. induction ds as [|d ds IH]; intros c acc H; [done|]. cbn [handshakes].
  apply (get_holds d) in H. destruct (get d c) as [r c']. cbn [snd] in H. apply IH in H.
  destruct (handshakes ds c') as [rs c'']. cbn [snd] in *.
  assert (last_loaded (d :: ds) acc = last_loaded ds (last_loaded [d] acc)) as -> by (by destruct d as [[?|?] [?|?]]). done.
Qed.
(** Renewed certificates are picked up, and a renewal that cannot be loaded
    costs nothing: after any handshakes the next one, if it finds the file,
    is served the new pair when the file has changed and loads, and
    otherwise the pair that loaded last; it fails only when none ever did. *)
Theorem renewals_are_picked_up ds d t :
  dk_stat d = inl t →
  let c := (handshakes ds new_reloader).2 in
  (get d c).1 = match last_loaded ds None, dk_pair d with
                | Some (t0, cert), inl fresh => inl (if t =? t0 then cert else fresh)
                | Some (_, cert), inr _ => inl cert
                | None, inl fresh => inl fresh
                | None, inr e => inr ("serving certificate: " +:+ e)
                end.
Proof.
  intros Hd c. assert (holds c (last_loaded ds None)) as H by by apply handshakes_hold.
  unfold get. rewrite Hd. destruct (last_loaded ds None) as [[t0 cert]|]; cbn in H.
  - destruct H as [-> ->]. destruct (t =? t0), (dk_pair d); done.
  - rewrite H. by destruct (dk_pair d).
Qed.
(** A handshake that cannot stat the file fails, whatever is loaded. *)
Lemma unreadable_file_refuses e p c : (get (mkDisk (inr e) p) c).1 = inr ("serving certificate: " +:+ e).
Proof. done. Qed.
End certificates.
Arguments certReloader : clear implicits.
Arguments disk : clear implicits.

Lemma renewals_are_picked_up_witness :
  let found t p := mkDisk (inl t) p in
  let ds := [found 1 (inl "first"); found 2 (inr "half written"); mkDisk (inr "gone") (inr "gone")] in
  (get (found 3 (inl "renewed")) (handshakes ds new_reloader).2).1 = inl "renewed"
  ∧ (get (found 3 (inr "half written")) (handshakes ds new_reloader).2).1 = inl "first".
Proof.
  intros found ds. split.
  - apply (renewals_are_picked_up ds (found 3 (inl "renewed")) 3 eq_refl).
  - apply (renewals_are_picked_up ds (found 3 (inr "half written")) 3 eq_refl).
Defined.
