(* ===== verification/Pages.v ===== *)
(** * The dashboard's pages of the agent itself: internal/httpapi/http.go
      (handleStatus), api_extended.go

    What each handler answers from the agent's own state: the status, the
    compliance report, the baselines, the rollouts, the dry-run log, the
    reloads and the fixes.  A tracker may be missing.  The scope page of
    internal/httpapi/scope.go calls the handlers of ScopeSettings. *)
From S2P Require Import Prelude GoStd Policy Guards Events Gate K8s ScopeSettings.
From S2P Require Import Learning FixTracker Reload Workloads Calendar Correlation Compliance.
From S2P Require Import Routing SlackActions HttpReads.
From Stdlib Require Import Ascii.
#[local] Open Scope Z_scope.
#[local] Open Scope agent_scope.

(** ** The status *)
Record AgentMeta := mkMeta { am_Version : string; am_Mode : string; am_NodeName : string; am_PodName : string }.
Record scopeStatus := mkScopeStatus { sp_FixAnywhere : bool; sp_FixScope : list string; sp_WatchAll : bool }.
Record statusPage := mkStatus {
  sg_version : string; sg_mode : string; sg_nodeName : string; sg_podName : string; sg_isLeader : bool; sg_ready : bool;
  sg_uptime : Duration; sg_startedAt : string; sg_eventCount : Z; sg_scope : option scopeStatus
}.
(** [isLeader], [policy]: what the functions say, if there are such. *)
Definition handleStatus (meta : AgentMeta) (isLeader : option bool) (ready : bool) (started now : Time) (rc : Recorder)
    (policy : option Policy) : statusPage :=
  mkStatus (am_Version meta) (match policy with Some p => Mode_ p | None => am_Mode meta end) (am_NodeName meta) (am_PodName meta)
    (default false isLeader) ready (time_Sub now started) (format_RFC3339 started) (Recorder_Count rc)
    ((λ p, mkScopeStatus (FixAnywhere p) (FixScope p) (WatchAll p)) <$> policy).

(** ** The trackers *)
Definition days_back (days : Z) : Duration := wrap64 (wrap64 (wrap64 (- days) * 24) * hour).
Definition compliance_since (now : Time) (r : HttpRequest) : Time :=
  let days := parseRevision (Query_Get r "days") in
  time_Add now (days_back (if 0 <? days then days else 30)).
Definition handleCompliance (rc : Recorder) (started now : Time) (r : HttpRequest) : ComplianceReport :=
  ComplianceFromEvents (Recent 0 rc) (compliance_since now r) now started.
Definition handleBaselines (now : Time) (lm : option LearningMode) : bool * option (gmap string WorkloadBaseline) :=
  match lm with None => (false, Some ∅) | Some lm => (IsLearning now lm, AllBaselines lm) end.
Definition handleDeploys (dt : option DeployTracker) : list DeployRecord := default [] (dt_deploys <$> dt).
Definition handleDryRun (d : option DryRunLog) : list DryRunEntry := default [] (DryRunLog_Recent 100 <$> d).
Definition handleReloads (allowNS : option (string → bool)) (rl : option Reloader) : list ReloadRecord :=
  filter (λ rec, nsAllowed allowNS (rr_Namespace rec) = true) (default [] (Records <$> rl)).

Record fixPage := mkFixPage {
  fp_fixed : list fixRow; fp_pending : list fixRow; fp_failed : list fixRow;
  fp_fixedCount : Z; fp_pendingCount : Z; fp_failedCount : Z
}.
Definition pending_row (p : FixRecord) : fixRow :=
  mkFixRow (FixTracker.fr_Timestamp p) (fr_Namespace p) (fr_Workload p) (fr_Reason p) (fr_Action p) "pending" "" 0.
Definition failed_row (p : FixRecord) : fixRow :=
  mkFixRow (FixTracker.fr_Timestamp p) (fr_Namespace p) (fr_Workload p) (fr_Reason p) (fr_Action p) "not-fixed" (fr_Detail p) 0.
Definition handleFixes (rc : Recorder) (ft : option FixTracker) : fixPage :=
  let fixed := verified_fixes rc in
  let pending := pending_row <$> default [] (Pending <$> ft) in
  let failed := failed_row <$> default [] (Failed <$> ft) in
  mkFixPage fixed pending failed (Z.of_nat (length fixed)) (Z.of_nat (length pending)) (Z.of_nat (length failed)).

(** ** What the pages show *)
(** The window of the report: the days asked for, thirty when that is not a
    positive number; a number of days above 106751 overflows. *)
Lemma compliance_window now r :
  let days := parseRevision (Query_Get r "days") in
  days ≤ 106751 →
  compliance_since now r = now - (if 0 <? days then days else 30) * (24 * hour).
Proof.
  cbv zeta. unfold compliance_since. generalize (parseRevision (Query_Get r "days")). intros days Hd.
  assert (∀ d, 0 < d ≤ 106751 → days_back d = - d * (24 * hour)) as Hb.
  { intros d H. unfold days_back. change hour with 3600000000000.
    rewrite (wrap64_id (- d)), (wrap64_id (- d * 24)), (wrap64_id (- d * 24 * 3600000000000))
      by (unfold int64_ok, min_int64, max_int64; lia). lia. }
  unfold time_Add. destruct (Z.ltb_spec 0 days); rewrite Hb by lia; lia.
Qed.
Example two_hundred_thousand_days :
  let r := mkRequest "GET" "/api/compliance" ∅ {[ "days" := "200000" ]} None in
  compliance_since 0 r = 1166744073709551616.
Proof. vm_compute. done. Qed.

(** Reloads are shown of watched namespaces alone, and all of those. *)
Lemma reloads_in_scope allowNS rl rec :
  rec ∈ handleReloads allowNS rl ↔ nsAllowed allowNS (rr_Namespace rec) = true ∧ ∃ r, rl = Some r ∧ rec ∈ Records r.
Proof.
  unfold handleReloads. rewrite list_elem_of_filter. destruct rl as [r|]; cbn; [naive_solver|].
  split; [intros [_ []%elem_of_nil]|intros [_ (? & ? & _)]; done].
Qed.
(** Every fix the tracker holds is on the page once, as pending or as
    failed; the fixed ones are those of the log. *)
Lemma fixes_page rc ft :
  let p := handleFixes rc (Some ft) in
  fp_pendingCount p = Z.of_nat (length (ft_pending ft)) ∧ fp_failedCount p = Z.of_nat (length (ft_failed ft))
  ∧ (fr_status <$> fp_pending p) = replicate (length (ft_pending ft)) "pending"
  ∧ fp_fixed p = verified_fixes rc.
Proof.
  cbv zeta. unfold handleFixes, Pending, Failed. cbn. rewrite !length_fmap, length_reverse. split_and!; try done.
  rewrite <-list_fmap_compose. induction (ft_pending ft) as [|x l IH]; [done|]. cbn. by f_equal.
Qed.

(** ** The scope page *)
(** [requestOrigin]; [remote] is the address of the peer. *)
Definition requestOrigin (remote : string) (r : HttpRequest) : string :=
  let fwd := Header_Get r "X-Forwarded-For" in
  if negb (str_eqb fwd "") && negb (str_eqb (Header_Get r proxiedHeader) "")
  then "dashboard via " +:+ strings_TrimSpace (hd "" (strings_Split fwd ","%char))
  else "dashboard via " +:+ match net_SplitHostPort remote with Some (host, _) => host | None => remote end.

Section scope.
Context {C W : Type} `{!ConfigMapAPI W} (env : Env).
(** [json.Decode] of a body of at most 64 KiB. *)
Context (decode : string → option scopeRequest).
(** [served]: the policy and the save function are set, as the controller's
    are. *)
Definition handleScope (served : bool) (ns : string) (listed : list string + string) (remote : string) (r : HttpRequest)
    : st (GState C * W) (scopeView + ScopeSettings.response) :=
  if negb served then return! inr (http_Error 503 "scope settings are served by the controller")
  else if str_eqb (rq_Method r) "GET" then return! getScope env listed
  else if str_eqb (rq_Method r) "PUT" then
    let! a := putScope env ns (rq_Body r ≫= decode) (requestOrigin remote r) in return! inr a
  else if str_eqb (rq_Method r) "DELETE" then
    let! a := saveScope env ns None (requestOrigin remote r) in return! inr a
  else return! inr (http_Error 405 "method not allowed").
(** Only PUT and DELETE touch the setting; the page itself is a read. *)
Lemma scope_page_reads served ns listed remote r s :
  rq_Method r ≠ "PUT" → rq_Method r ≠ "DELETE" → (handleScope served ns listed remote r s).2 = s.
Proof.
  intros Hp%str_eqb_ne Hd%str_eqb_ne. unfold handleScope. rewrite Hp, Hd.
  destruct served; [|done]. cbn [negb]. by destruct (str_eqb (rq_Method r) "GET").
Qed.
End scope.

(** The origin in the audit log is the caller's word: whoever holds the
    token names any address by sending the header a standby adds, and so
    does a client of a standby, which adds its own address behind the one
    the client sent. *)
Example origin_is_the_callers_word :
  let r := mkRequest "PUT" "/api/scope" {["X-Forwarded-For" := "10.1.1.1"; proxiedHeader := "1"]} ∅ None in
  let through_standby := Header_Set "X-Forwarded-For" "10.1.1.1, 10.0.0.9" r in
  requestOrigin "10.0.0.9:4312" r = "dashboard via 10.1.1.1"
  ∧ requestOrigin "10.0.0.2:8080" through_standby = "dashboard via 10.1.1.1".
Proof. vm_compute. done. Qed.
