(* ===== verification/Leader.v ===== *)
(** * The elector: internal/leader/leader.go

    What the callbacks of the lease election leave in the [Elector] that the
    rest of a controller asks.  The election is client-go's: what the theorem
    relies on of it is [one_run], as its documentation has it: [RunOrDie]
    tells of new leaders, starts leading at most once, and returns when it
    has stopped. *)
From S2P Require Import Prelude GoStd.
#[local] Open Scope Z_scope.

Record Elector := mkElector { el_leader : Z; el_current : option string }.
Definition IsLeader (e : Elector) : bool := el_leader e =? 1.
(** The empty identity before the first leader is seen. *)
Definition Leader (e : Elector) : string := default "" (el_current e).
Definition new_elector : Elector := mkElector 0 None.

(** [Start]: the identity it runs under, [None] when there is none and the
    process ends, and the timing of the lease. *)
Definition identity_of (identity : string) (hostname : string + string) : option string :=
  if str_eqb identity "" then match hostname with inl h => Some h | inr _ => None end else Some identity.
Definition LeaseDuration : Duration := 15 * second.
Definition RenewDeadline : Duration := 10 * second.
Definition RetryPeriod : Duration := 2 * second.
Inductive callback := OnStartedLeading | OnStoppedLeading | OnNewLeader (identity : string).
Definition on_callback (e : Elector) (c : callback) : Elector :=
  match c with
  | OnStartedLeading => mkElector 1 (el_current e)
  | OnStoppedLeading => mkElector 0 (el_current e)
  | OnNewLeader id => mkElector (el_leader e) (Some id)
  end.
Definition elector_after (l : list callback) : Elector := foldl on_callback new_elector l.

(** client-go refuses other timings: a lease outlives the deadline of its
    renewal, and that a try. *)
Lemma timing : RenewDeadline < LeaseDuration ∧ RetryPeriod < RenewDeadline.
Proof. done. Qed.

(** The last leader that was told. *)
Definition told (l : list callback) : list string := omap (λ c, match c with OnNewLeader id => Some id | _ => None end) l.
Lemma elector_tells l : Leader (elector_after l) = default "" (last (told l)).
Proof.
  unfold elector_after. induction l as [|c l IH] using rev_ind; [done|]. rewrite foldl_app. cbn [foldl].
  unfold told. rewrite omap_app. fold (told l). destruct c; cbn; rewrite ?app_nil_r; [exact IH|exact IH|]. by rewrite last_snoc.
Qed.

(** ** One run of RunOrDie *)
Definition news (l : list callback) : Prop := Forall (λ c, match c with OnNewLeader _ => True | _ => False end) l.
Definition one_run (l : list callback) : Prop :=
  ∃ before during, news before ∧ news during
    ∧ (l `prefix_of` before ++ [OnStoppedLeading] ∨ l `prefix_of` before ++ OnStartedLeading :: during ++ [OnStoppedLeading]).
Lemma news_no_stop l : news l → OnStoppedLeading ∉ l.
Proof. intros H Hin. unfold news in H. rewrite Forall_forall in H. exact (H _ Hin). Qed.
Lemma stop_is_last l l' before during : news before → news during →
  l ++ OnStoppedLeading :: l' `prefix_of` before ++ [OnStoppedLeading]
  ∨ l ++ OnStoppedLeading :: l' `prefix_of` before ++ OnStartedLeading :: during ++ [OnStoppedLeading] → l' = [].
Proof.
  intros Hb Hd H.
  assert (∀ m k, OnStoppedLeading ∉ m → (l ++ OnStoppedLeading :: l') ++ k = m ++ [OnStoppedLeading] → l' = []) as Hlast.
  { intros m k Hm E. destruct (l' ++ k) as [|c r] eqn:El using rev_ind.
    - by apply app_nil in El as [-> _].
    - clear IHr. rewrite <-(assoc_L (++)), <-app_comm_cons, El, app_comm_cons, (assoc_L (++)) in E.
      apply app_inj_tail in E as [E _]. exfalso. apply Hm. rewrite <-E. set_solver. }
  destruct H as [[k E]|[k E]]; symmetry in E.
  - apply (Hlast before k); [by apply news_no_stop|done].
  - rewrite app_comm_cons, (assoc_L (++)) in E. apply (Hlast (before ++ OnStartedLeading :: during) k); [|done].
    apply not_elem_of_app. split; [by apply news_no_stop|]. apply not_elem_of_cons. split; [done|by apply news_no_stop].
Qed.

(** A lost lease is never sought again.  [Start] runs the election once; when
    the lease is lost it has returned, so whatever happens later the process
    does not lead, and still names the leader it heard of last. *)
Theorem lost_lease_is_final l later :
  one_run (l ++ OnStoppedLeading :: later) →
  later = [] ∧ IsLeader (elector_after (l ++ OnStoppedLeading :: later)) = false
  ∧ Leader (elector_after (l ++ OnStoppedLeading :: later)) = default "" (last (told l)).
Proof.
  intros (before & during & Hb & Hd & H). assert (later = []) as -> by exact (stop_is_last l later before during Hb Hd H).
  split; [done|]. rewrite elector_tells. unfold told at 1. rewrite omap_app, app_nil_r. split; [|done].
  unfold elector_after. by rewrite foldl_app.
Qed.
Lemma lost_lease_is_final_witness :
  let l := [OnNewLeader "agent-a"; OnStartedLeading] in
  IsLeader (elector_after l) = true
  ∧ IsLeader (elector_after (l ++ [OnStoppedLeading])) = false
  ∧ Leader (elector_after (l ++ [OnStoppedLeading])) = "agent-a".
Proof.
  intros l. split; [reflexivity|].
  destruct (lost_lease_is_final l []) as (_ & H1 & H2); [|split; [exact H1|exact H2]].
  exists [OnNewLeader "agent-a"], []. split; [by repeat constructor|]. split; [constructor|]. right. done.
Defined.
