(* ===== verification/Run.v ===== *)
(** * Start-up and wiring: cmd/auto-agent/run.go, main.go, terminal_agent.go

    What a process of each role runs, the state its components start with,
    the groups of checks of the leader, the leadership notice, the address
    of the leader, the shutdown and the subcommands.  Goroutines enter as the
    steps they take. *)
From S2P Require Import Prelude GoStd Policy Config RateLimit Guards Events Escalation Gate Approvals Metrics Admission.
From S2P Require Import FixTracker Learning Correlation Routing Terminal NetProbe SelfCheck.
From Stdlib Require Import Ascii.
#[local] Open Scope Z_scope.

Abbreviation Conf := config.Config (only parsing).

(** ** Roles *)
Record roles := mkRoles { node : bool; controller : bool }.
Definition rolesFor (role : string) : option roles :=
  if str_eqb role config.RoleAll then Some (mkRoles true true)
  else if str_eqb role config.RoleNode then Some (mkRoles true false)
  else if str_eqb role config.RoleController then Some (mkRoles false true)
  else None.
Definition onlyNode (r : roles) : bool := node r && negb (controller r).
Definition podNS (conf : Conf) : string :=
  if str_eqb (config.PodNamespace conf) "" then "kube-system" else config.PodNamespace conf.

(** ** What stops the start *)
Inductive start_error :=
| ErrRole (role : string) | ErrNodeLink | ErrTracing (text : string)
| ErrMirrorPrefix | ErrMirrorAllowList | ErrMirrorWebhook
| ErrWebhook (text : string) | ErrMetrics (text : string) | ErrListen (text : string).

(** The image mirror: off, or complete. *)
Definition imageMirror (conf : Conf) : Mirror + start_error :=
  if negb (config.ImageMirrorEnabled conf) then inl (mkMirror "" [])
  else if str_eqb (config.ImageMirrorPrefix conf) "" then inr ErrMirrorPrefix
  else if bool_decide (config.ImageMirrorAllowList conf = []) then inr ErrMirrorAllowList
  else if negb (config.Enabled (config.c_Webhook conf)) then inr ErrMirrorWebhook
  else inl (mkMirror (config.ImageMirrorPrefix conf) (config.ImageMirrorAllowList conf)).
(** The admission webhook of a controller, [None] when it is off; the mirror
    is checked even then. *)
Definition startWebhook (conf : Conf) (rl : roles) : option (Admission.Config * Mirror) + start_error :=
  if negb (controller rl) then inl None
  else match imageMirror conf with
       | inr e => inr e
       | inl m =>
           let w := config.c_Webhook conf in
           if negb (config.Enabled w) then inl None
           else inl (Some (Admission.mkConfig (config.wh_RequireLimits w) (config.wh_RequireReadiness w)
                             (config.wh_BlockedImages w), m))
       end.

(** ** The events of the process *)

(** Where an event goes: to the controller, to the log, or to the log and,
    while leading, to the standbys. *)
Inductive sink := ToController (f : Forwarder) | ToLog | ToLogAndPeers.
Definition startEvents (conf : Conf) (rl : roles) : sink :=
  if onlyNode rl then ToController (NewForwarder (config.NodeName conf))
  else if negb (controller rl) || node rl then ToLog else ToLogAndPeers.

(** ** The state the components start with *)
Definition start_Policies (conf : Conf) : HotReloader :=
  WatchScope (NewHotReloader (config.c_Policy conf) (podNS conf) "auto-agent-config") ScopeConfigMap.
Definition dedup_ttl (pol : Policy) : Duration := wrap64 (DedupTTLSeconds pol * second).
Definition learning_period (conf : Conf) : Duration := wrap64 (wrap64 (config.LearningPeriodDays conf * 24) * hour).
Record trackers := mkTrackers {
  tr_dedup : Deduplicator; tr_deploys : DeployTracker; tr_dryRun : DryRunLog; tr_fixes : FixTracker;
  tr_learning : option LearningMode; tr_channels : gmap string string
}.
Definition newTrackers (conf : Conf) (now : Time) (baselines : file_read) : trackers := {|
  tr_dedup := NewDeduplicator (dedup_ttl (config.c_Policy conf));
  tr_deploys := NewDeployTracker 100;
  tr_dryRun := NewDryRunLog 200;
  tr_fixes := NewFixTracker 200;
  tr_learning := if config.LearningEnabled conf then Some (NewLearningMode now "" (learning_period conf) baselines) else None;
  tr_channels := config.SlackChannelWebhooks conf
|}.
(** [buildDeps]: what the gate reads and what it changes. *)
Definition start_Env (conf : Conf) (clock : nat → Time) (pol : Policy) (store : gmap string (list crd.Policy)) : Env := {|
  env_Policy := pol; env_Clock := clock;
  env_Quiet := Some (NewQuietHours (config.QuietHours conf)); env_CRD := Some store;
  env_AuditLog := true; env_Recorder := true;
  env_AlertManager := negb (str_eqb (config.AlertmanagerURL conf) "");
  env_Escalation :=
    let es := config.c_Escalation conf in
    Escalation.Configured (Some (NewChain (mkEscCfg (config.es_PagerDutyRoutingKey es) (config.es_OpsGenieAPIKey es)
                                             (config.es_SMTPHost es))));
  env_NodeName := config.NodeName conf
|}.
Definition buildDeps {C} (conf : Conf) (now : Time) (t : trackers) (c : C) : GState C :=
  let pol := config.c_Policy conf in
  mkGState C 0
    (Some (NewBlastRadiusTracker now (config.BlastRadiusMaxNamespaces conf) hour))
    (Some NewPolicyBudget)
    (Some (NewCircuitBreaker (config.CircuitBreakerThreshold conf) hour))
    (Some (NewActionLimiter (MaxActionsPer10m pol) (10 * minute)))
    (Some (NewActionLimiter (config.HousekeepingMaxPer10m conf) (10 * minute)))
    (Some (tr_dedup t)) (Some (tr_dryRun t)) c [].
Definition newApprovalQueue (conf : Conf) (rl : roles) : Approvals :=
  let q := NewApprovals (config.ap_TTL (config.c_Approvals conf)) (config.ap_Approvers (config.c_Approvals conf)) in
  if controller rl then StoreIn (podNS conf) q else q.
Definition endpoints (conf : Conf) : SelfCheckEndpoints :=
  mkEndpoints (config.PrometheusURL conf) (config.SlackWebhookURL conf) (config.AlertmanagerURL conf).
(** [newServer]: the routes of a node agent are its health alone. *)
Definition newServer (conf : Conf) (rl : roles) (leader : option leader_answer) : Server :=
  mkServer (config.DashboardToken conf) (config.InternalToken conf) leader (onlyNode rl).

(** [run] up to the point where the process serves: the errors of the
    tracer, of the webhook's listener and of the server's are parameters. *)
Record started := mkStarted {
  st_roles : roles; st_sink : sink; st_webhook : option (Admission.Config * Mirror); st_provider : Provider
}.
Definition run_start (tracing_err webhook_err listen_err : option string) (conf : Conf) : started + start_error :=
  match rolesFor (config.Role conf) with
  | None => inr (ErrRole (config.Role conf))
  | Some rl =>
    if onlyNode rl && (str_eqb (config.ControllerURL conf) "" || str_eqb (config.InternalToken conf) "")
    then inr ErrNodeLink
    else
      match tracing_err with
      | Some e => inr (ErrTracing e)
      | None =>
        match startWebhook conf rl with
        | inr e => inr e
        | inl wh =>
          match (if wh then webhook_err else None), NewProvider (config.MetricsProvider conf) (config.PrometheusURL conf),
                listen_err with
          | Some e, _, _ => inr (ErrWebhook e)
          | None, inr e, _ => inr (ErrMetrics e)
          | None, inl _, Some e => inr (ErrListen e)
          | None, inl p, None => inl (mkStarted rl (startEvents conf rl) wh p)
          end
        end
      end
  end.

(** ** What a process runs once it serves *)
Record RunOptions := mkOptions { ro_HTTPAddr : string; ro_EventsPath : string; ro_ForwardEvery : Duration }.
Definition withDefaults (o : RunOptions) : RunOptions := mkOptions
  (if str_eqb (ro_HTTPAddr o) "" then ":8080" else ro_HTTPAddr o)
  (if str_eqb (ro_EventsPath o) "" then "/var/log/auto-agent/events.jsonl" else ro_EventsPath o)
  (if ro_ForwardEvery o =? 0 then 5 * second else ro_ForwardEvery o).
(** [startLeader]: whether the process stands for election, and whether it
    can send requests to another leader. *)
Inductive election := NoElection | Elected (sends_on : bool).
Definition startLeader (rl : roles) : election :=
  if negb (controller rl) then NoElection else Elected (negb (node rl)).
Definition has_reloader (conf : Conf) (rl : roles) : bool := controller rl && config.rl_Enabled (config.c_Reload conf).
(** What [startWork] starts, in order; [LoopsDone_] is the mark of a process
    that has no loops. *)
Inductive activity :=
| Watchers | LogRetention | NetworkProbes | Ready | LoopsDone_ | WatchConfig_ | LeaderLoops_ | Announce.
#[export] Instance activity_eq_dec : EqDecision activity.
Proof. solve_decision. Defined.
Definition startWork (conf : Conf) (rl : roles) : list activity :=
  (if node rl then [Watchers; LogRetention; NetworkProbes] else []) ++ [Ready]
  ++ (if negb (controller rl) then [LoopsDone_]
      else (if has_reloader conf rl then [WatchConfig_] else []) ++ [LeaderLoops_; Announce]).
(** A role does its own work and no other's: pods are watched by node agents
    alone, the loops of the leader run in controllers alone, where there is an
    election, and nobody is ready before its watchers are. *)
Lemma roles_divide_the_work conf role rl : rolesFor role = Some rl →
  (Watchers ∈ startWork conf rl ↔ node rl = true) ∧ (LeaderLoops_ ∈ startWork conf rl ↔ startLeader rl ≠ NoElection)
  ∧ (node rl || controller rl = true)
  ∧ ∃ before after, startWork conf rl = before ++ Ready :: after ∧ Ready ∉ before ∧ Watchers ∉ after.
Proof.
  intros Hr. assert (rl ∈ [mkRoles true true; mkRoles true false; mkRoles false true]) as Hin.
  { unfold rolesFor in Hr. repeat case_match; simplify_eq; set_solver. }
  unfold startWork, startLeader, has_reloader. generalize (config.rl_Enabled (config.c_Reload conf)). intros b.
  repeat (apply elem_of_cons in Hin as [->|Hin]); [| | |by apply elem_of_nil in Hin];
    destruct b; cbn; (split_and!; [set_solver|set_solver|done|]).
  1-4: eexists [_; _; _], _; (split; [reflexivity|set_solver]).
  all: eexists [], _; (split; [reflexivity|set_solver]).
Qed.

(** ** The checks of the leader *)
Inductive check :=
| EvaluateAndScale | CheckAnomalies | VerifyFixes
| CheckFailedJobs | CheckStuckRollouts | CleanupEvictedPods | CheckServiceEndpoints | CheckPendingPVCs
| CheckNodeHealth | CheckNodeExtended | ScanDeployments | CheckDeadlineExceeded | CheckEphemeralStorageFull
| CheckStatefulSetStuck | CheckDaemonSetMissing | CheckHPAIssues | CheckCronJobMissed | CheckDeploymentPaused
| CheckReplicaSetFailure | CheckPodStates
| CheckResourceQuotas | CollectBaselines | CheckStorageIssues | CheckNetworkIssues | CheckSecurityIssues
| CheckWebhookBlocking | CheckRBACDenied | CheckStuckFinalizers | CheckDisruptionBudgets | CheckResourcePressure
| CheckControlPlane | CheckSandboxFailures | CheckSystemNetworkPods | CheckNetworkPolicyBlocks | CheckConntrack
| CheckCoreDNS
| SelfCheck_.
#[export] Instance check_eq_dec : EqDecision check.
Proof. solve_decision. Defined.
Record checkGroup := mkGroup { every : Duration; leaderOnly : bool; checks : list check }.
Definition leaderChecks (conf : Conf) : list checkGroup := [
  mkGroup (config.ScaleInterval conf) true [EvaluateAndScale; CheckAnomalies; VerifyFixes];
  mkGroup (config.JobInterval conf) true [CheckFailedJobs; CheckStuckRollouts; CleanupEvictedPods;
    CheckServiceEndpoints; CheckPendingPVCs; CheckNodeHealth; CheckNodeExtended;
    ScanDeployments; CheckDeadlineExceeded; CheckEphemeralStorageFull; CheckStatefulSetStuck;
    CheckDaemonSetMissing; CheckHPAIssues; CheckCronJobMissed; CheckDeploymentPaused;
    CheckReplicaSetFailure; CheckPodStates];
  mkGroup (config.QuotaInterval conf) true [CheckResourceQuotas; CollectBaselines; CheckStorageIssues;
    CheckNetworkIssues; CheckSecurityIssues; CheckWebhookBlocking; CheckRBACDenied;
    CheckStuckFinalizers; CheckDisruptionBudgets; CheckResourcePressure; CheckControlPlane;
    CheckSandboxFailures; CheckSystemNetworkPods; CheckNetworkPolicyBlocks; CheckConntrack; CheckCoreDNS];
  mkGroup (config.HealthInterval conf) false [SelfCheck_]].

(** One round of [leaderLoops]: group [i] is due.  [exec] is what a check
    does; whether the process leads is asked once, before the group. *)
Section loops.
Context {S : Type} (exec : check → S → S).
Definition run_group (g : checkGroup) (leads : bool) (s : S) : S :=
  if leaderOnly g && negb leads then s else foldl (λ s c, exec c s) s (checks g).
Definition loop_step (groups : list checkGroup) (s : S) (due : nat * bool) : S :=
  match groups !! due.1 with Some g => run_group g due.2 s | None => s end.
Definition leaderLoops (groups : list checkGroup) (s : S) (dues : list (nat * bool)) : S :=
  foldl (loop_step groups) s dues.
End loops.

(** ** The notice of a leader's term *)

(** One tick of [announceLeadership]: whether the process leads now, and
    whether it did at the last one; the posts made so far. *)
Definition announce_tick (st : bool * nat) (leads : bool) : bool * nat :=
  (leads, if leads && negb st.1 then S st.2 else st.2).
Definition announced (obs : list bool) : bool * nat := foldl announce_tick (false, 0%nat) obs.

(** ** Addresses *)

Definition httpPort (addr : string) : string :=
  match net_SplitHostPort addr with Some (_, port) => if str_eqb port "" then "8080" else port | None => "8080" end.

(** What the address functions read: the IP of a pod (an error when it
    cannot be read), and the controller pods of a namespace. *)
Record ctl_pod := mkCtlPod { cp_Name : string; cp_PodIP : string; cp_Phase : string }.
Class AddressReads (C : Type) := {
  pod_ip : string → string → C → string + string;
  controllers_in : string → C → list ctl_pod + string
}.
Section addresses.
Context {C : Type} `{!AddressReads C} (ns port : string).
Definition base_url (ip : string) : string := "http://" +:+ JoinHostPort ip port.
(** [newLeaderTarget]: the last identity asked for and its address are kept;
    an empty answer is the process itself. *)
Definition leader_target (leads : bool) (leader : string) (c : C) (cache : string * string)
  : (string + string) * (string * string) :=
  if leads then (inl "", cache)
  else if str_eqb leader "" then (inr "leader not elected yet", cache)
  else if str_eqb leader cache.1 then (inl cache.2, cache)
  else match pod_ip ns leader c with
       | inr e => (inr ("leader pod " +:+ ns +:+ "/" +:+ leader +:+ ": " +:+ e), cache)
       | inl ip =>
           if str_eqb ip "" then (inr ("leader pod " +:+ ns +:+ "/" +:+ leader +:+ " has no IP yet"), cache)
           else (inl (base_url ip), (leader, base_url ip))
       end.
(** [newPeerResolver]: the other running controllers. *)
Definition is_peer (self : string) (p : ctl_pod) : bool :=
  negb (str_eqb (cp_Name p) self || str_eqb (cp_PodIP p) "" || negb (str_eqb (cp_Phase p) "Running")).
Definition peers (self : string) (c : C) : list string + string :=
  match controllers_in ns c with
  | inr e => inr ("list controllers in " +:+ ns +:+ ": " +:+ e)
  | inl pods => inl (base_url ∘ cp_PodIP <$> filter (λ p, is_peer self p = true) pods)
  end.
End addresses.

(** ** Shutdown *)
Definition httpGrace : Duration := 5 * second.
Definition handlerGrace : Duration := 15 * second.
Definition drainGrace : Duration := 5 * second.
(** The grace period of the pod, from the chart. *)
Definition terminationGrace : Duration := 30 * second.

(** When each part would end by itself, from the start of the shutdown; the
    drain and the posts from when they are asked to. *)
Record ends := mkEnds {
  en_http : Duration; en_webhook : option Duration; en_handlers : Duration; en_loops : Duration;
  en_drain : Duration; en_tracing : Duration; en_slack : Duration
}.
Inductive stop_step :=
| ServerDown | WebhookDown | HandlersIdle | LoopsDone | DedupStopped | ForwardingStopped | Drained
| LogClosed | AuditClosed | TracesFlushed | NoticePosted.
(** A wait that starts at [t], for what ends at [f], for at most [budget]. *)
Definition wait (t f budget : Duration) : Duration := Z.max t (Z.min f (t + budget)).
(** The steps of [shutdown] with the times they end. *)
Definition shutdown (e : ends) (leading : bool) : list (stop_step * Duration) :=
  let t1 := wait 0 (en_http e) httpGrace in
  let t2 := match en_webhook e with Some f => wait t1 f (Z.max 0 (httpGrace - t1)) | None => t1 end in
  let t3 := wait t2 (en_handlers e) handlerGrace in
  let t4 := wait t3 (en_loops e) handlerGrace in
  let t5 := wait t4 (t4 + en_drain e) drainGrace in
  let t6 := wait t5 (t5 + en_tracing e) (Z.max 0 (httpGrace - t5)) in
  [(ServerDown, t1)] ++ (if en_webhook e then [(WebhookDown, t2)] else []) ++
  [(HandlersIdle, t3); (LoopsDone, t4); (DedupStopped, t4); (ForwardingStopped, t4); (Drained, t5);
   (LogClosed, t5); (AuditClosed, t5); (TracesFlushed, t6)]
  ++ (if leading then [(NoticePosted, t6 + en_slack e)] else []).
Definition finish (e : ends) (leading : bool) : Duration := List.fold_left Z.max (shutdown e leading).*2 0.

(** ** Pull requests and tickets *)
Inductive git_client := GitHub (token repo branch : string) (author : string * string)
                      | GitLab (token repo branch : string) (author : string * string).
Definition newGitOps (conf : Conf) : option git_client :=
  if str_eqb (config.GitToken conf) "" || str_eqb (config.GitOpsRepo conf) "" then None
  else
    let author := (config.GitOpsAuthorName conf, config.GitOpsAuthorEmail conf) in
    Some ((if str_eqb (config.GitOpsProvider conf) "gitlab" then GitLab else GitHub)
            (config.GitToken conf) (config.GitOpsRepo conf) (config.GitOpsBranch conf) author).
Definition gitops_live (conf : Conf) : bool := str_eqb (config.GitOpsMode conf) "live".
Inductive ticketer := Jira (token url project email : string) | GitHubIssues (token repo : string) | NopTicketer.
Definition newTicketer (conf : Conf) : option ticketer :=
  if negb (config.TicketsEnabled conf) then None
  else if str_eqb (config.TicketsProvider conf) "jira"
  then Some (Jira (config.JiraToken conf) (config.JiraBaseURL conf) (config.JiraProjectKey conf) (config.JiraEmail conf))
  else if str_eqb (config.TicketsProvider conf) "github"
  then Some (GitHubIssues (config.GitHubToken conf) (config.GitHubRepo conf))
  else Some NopTicketer.
(** The ticketer of a policy, with the agent's own credentials. *)
Definition ticketerFor (conf : Conf) : option (string → string → option ticketer) :=
  if negb (config.TicketsEnabled conf) then None
  else Some (λ provider project,
    if str_eqb provider "jira" then
      if str_eqb (config.JiraToken conf) "" || str_eqb (config.JiraBaseURL conf) "" then None
      else Some (Jira (config.JiraToken conf) (config.JiraBaseURL conf)
                   (if str_eqb project "" then config.JiraProjectKey conf else project) (config.JiraEmail conf))
    else if str_eqb provider "github" then
      if str_eqb (config.GitHubToken conf) "" then None
      else Some (GitHubIssues (config.GitHubToken conf) (if str_eqb project "" then config.GitHubRepo conf else project))
    else None).

(** ** The agent's own commands in the terminal *)
Definition orNowhere (s : string) : string := if str_eqb s "" then "nowhere" else s.
Definition keys (s : gset string) : string := strings_Join (sort_strings (elements s)) ", ".
Definition scopeSummary (pol : Policy) : string :=
  let watch := if (WatchList pol).2 then "all non-system namespaces" else strings_Join (WatchList pol).1 "," in
  "watch=" +:+ watch +:+ " fix=" +:+ strings_Join (FixScope pol) "," +:+ " anywhere=" +:+ fmt_t (FixAnywhere pol).
Definition term_Scope (pol : Policy) : string :=
  let watch := if (WatchList pol).2 then "every namespace except the system ones" else strings_Join (WatchList pol).1 ", " in
  let ceiling := if FixAnywhere pol
    then "every non-system namespace (rbac.fixAnywhere: a leaked token can disrupt any namespace)"
    else keys (FixCeiling pol) in
  let source := if FixOverride pol then "the Settings tab" else "Helm (agent.fixNamespaces)" in
  "Watch scope:  " +:+ watch +:+ nl +:+ "Fix scope:    " +:+ orNowhere (strings_Join (FixScope pol) ", ")
  +:+ " (from " +:+ source +:+ ")" +:+ nl +:+ "Fix ceiling:  " +:+ orNowhere ceiling +:+ nl
  +:+ "Mode:         " +:+ Mode_ pol.
Definition term_Status (version : string) (conf : Conf) (leads : bool) (pol : Policy) : string :=
  "Version:  " +:+ version +:+ nl +:+ "Role:     " +:+ config.Role conf +:+ nl
  +:+ "Pod:      " +:+ config.PodName conf +:+ " on " +:+ config.NodeName conf +:+ nl
  +:+ "Leader:   " +:+ fmt_t leads +:+ nl +:+ "Mode:     " +:+ Mode_ pol.
Definition termAgentFor (rl : roles) (version : string) (conf : Conf) (leads : bool) (pol : Policy)
  (preview : string → list GateCheck) : option TerminalAgent :=
  if negb (controller rl) then None
  else Some (mkAgent (term_Scope pol)
               (λ ns, (λ c, (gc_Check c, gc_Pass c, gc_Detail c)) <$> preview ns)
               (term_Status version conf leads pol)).

(** ** Subcommands *)

(** [restConfig]: in the cluster, or by the kubeconfig when the process is
    not in one. *)
Inductive in_cluster_error := ErrNotInCluster | ErrInCluster (e : string).
Definition restConfig {R} (inCluster : R + in_cluster_error) (kubeconfig : R + string) : R + string :=
  match inCluster with
  | inl rc => inl rc
  | inr (ErrInCluster e) => inr e
  | inr ErrNotInCluster =>
      match kubeconfig with
      | inl rc => inl rc
      | inr e => inr ("not in a cluster and no usable kubeconfig: " +:+ e)
      end
  end.
(** [newClients]: why there is no client, if there is none. *)
Definition newClients_error (kube dynamic : option string) : option string :=
  match kube, dynamic with
  | Some e, _ => Some ("kube client: " +:+ e)
  | None, Some e => Some ("dynamic client: " +:+ e)
  | None, None => None
  end.

(** [realMain]: the exit code and what is printed, line by line; the agent
    itself is a parameter, as are the clients. *)
Section main.
Context (version : string) (environ : list string).
Definition unknown_line (l : list string) : string := "unknown keys (not read by the agent): " +:+ strings_Join l ", ".
(** [None] is the end of the process by [klog.Fatalf]. *)
Definition checkConfig (get : Getenv) : option (Z * list string) :=
  match (config.Load get).2 with
  | inr _ => None
  | inl conf =>
      let unknown := config.UnknownKeys environ in
      let out := ["role=" +:+ config.Role conf +:+ " mode=" +:+ Mode_ (config.c_Policy conf) +:+ " "
                    +:+ scopeSummary (config.c_Policy conf); ""]
                 ++ config.Describe get
                 ++ [""; "reserved, not implemented yet (PLAN-002 phase 17): " +:+ strings_Join config.Reserved ", "; ""] in
      if bool_decide (unknown = []) then Some (0, out ++ ["no unknown keys"]) else Some (1, out ++ [unknown_line unknown])
  end.
Definition command (cmd : string) (get : Getenv) : option (Z * list string) :=
  if str_eqb cmd "version" then Some (0, [version])
  else if str_eqb cmd "check-config" then checkConfig get
  else Some (2, ["usage: auto-agent [version | check-config]"; "unknown command " +:+ strconv_Quote cmd]).
Definition realMain (args : list string) (get : Getenv) (clients_err : option string) (runAgent : Conf → option string)
  : option (Z * list string) :=
  let serve := match (config.Load get).2 with
               | inr _ => None
               | inl conf =>
                   let failed := match clients_err with Some _ => true | None => if runAgent conf then true else false end in
                   Some (if failed then 1 else 0, [])
               end in
  match args with
  | a :: _ => if strings_HasPrefix a "-" then serve else command a get
  | [] => serve
  end.
End main.

(** ** What a process that starts has *)

(** A process that serves is one its settings describe in full: its role is
    one of the three, a node agent knows its controller and the token, the
    image mirror of a controller is off or complete with the webhook that
    applies it, and Prometheus is used only with its address. *)
Theorem started_is_complete te we le conf s :
  run_start te we le conf = inl s →
  config.Role conf ∈ [config.RoleAll; config.RoleNode; config.RoleController]
  ∧ (onlyNode (st_roles s) = true → config.ControllerURL conf ≠ "" ∧ config.InternalToken conf ≠ ""
       ∧ st_webhook s = None ∧ ∃ f, st_sink s = ToController f)
  ∧ (controller (st_roles s) = true → config.ImageMirrorEnabled conf = true →
       ∃ w m, st_webhook s = Some (w, m) ∧ Admission.Enabled m = true)
  ∧ (st_provider s = Prom → config.PrometheusURL conf ≠ "").
Proof.
  unfold run_start. destruct (rolesFor _) as [rl|] eqn:Er; [|done].
  destruct (_ && _) eqn:En; [done|]. destruct te; [done|].
  destruct (startWebhook conf rl) as [wh|] eqn:Ew; [|done].
  destruct (if wh then we else None); [done|].
  destruct (NewProvider _ _) as [p|] eqn:Ep; [|done]. destruct le; [done|]. intros [= <-]. cbn.
  split_and!.
  - unfold rolesFor, str_eqb in Er. repeat case_bool_decide; set_solver.
  - intros Ho. rewrite Ho in En. unfold str_eqb in En. apply orb_false_iff in En as [?%bool_decide_eq_false ?%bool_decide_eq_false].
    unfold startWebhook in Ew. unfold onlyNode in Ho. apply andb_true_iff in Ho as [Hn Hc].
    rewrite Hc in Ew. split_and!; [done..|congruence|]. unfold startEvents, onlyNode. rewrite Hn, Hc. eauto.
  - intros Hc Hm. unfold startWebhook, imageMirror in Ew. rewrite Hc, Hm in Ew. cbn in Ew. unfold str_eqb in Ew.
    repeat case_bool_decide; try done. destruct (config.Enabled _); [|done]. injection Ew as <-.
    eexists _, _. split; [done|]. unfold Admission.Enabled, str_eqb. cbn. by rewrite !bool_decide_eq_false_2.
  - intros ->. unfold NewProvider, str_eqb in Ep. repeat case_bool_decide; congruence.
Qed.

(** Every interval of the leader's groups is positive, so that no ticker
    panics, and every check belongs to exactly one group. *)
Theorem leader_groups_tick get conf :
  (config.Load get).2 = inl conf →
  Forall (λ g, 0 < every g) (leaderChecks conf)
  ∧ ∀ c, length (filter (λ g, c ∈ checks g) (leaderChecks conf)) = 1%nat.
Proof.
  intros H. split; [|intros []; reflexivity].
  destruct (Load_settings get conf H) as [_ _ Hi _ _ _ _].
  repeat (apply Forall_cons in Hi as [[? _] Hi]). cbn [fst snd] in *. unfold pos_int in *.
  repeat (apply Forall_cons; split; [cbn; lia|]). by apply Forall_nil.
Qed.

(** While a process does not lead, its loops run the self check and nothing
    else, whatever becomes due. *)
Theorem standby_only_checks_itself {S} (exec : check → S → S) conf s dues :
  Forall (λ d, d.2 = false) dues →
  leaderLoops exec (leaderChecks conf) s dues =
    foldl (λ s (d : nat * bool), if bool_decide (d.1 = 3%nat) then exec SelfCheck_ s else s) s dues.
Proof.
  intros H. unfold leaderLoops. revert s. induction H as [|[i b] dues Hb _ IH]; intros s; cbn [foldl]; [done|].
  rewrite IH. f_equal. cbn in Hb. subst b. unfold loop_step. cbn [fst snd].
  destruct i as [|[|[|[|i]]]]; try done.
Qed.

(** ** One notice per term *)
(** The terms of leadership in what the ticks saw. *)
Fixpoint terms (before : bool) (obs : list bool) : nat :=
  match obs with
  | [] => 0
  | now :: obs' => (if now && negb before then 1 else 0) + terms now obs'
  end.
(** A controller posts its notice once in each term it leads, at its first
    tick, and its shutdown tells the standby exactly when it led at the
    last. *)
Theorem announced_once_per_term obs :
  announced obs = (default false (last obs), terms false obs).
Proof.
  unfold announced.
  assert (∀ b n, foldl announce_tick (b, n) obs = (default b (last obs), (n + terms b obs)%nat)) as H; [|apply H].
  induction obs as [|o obs IH]; intros b n; cbn [foldl terms]; [by rewrite Nat.add_0_r|].
  change (announce_tick (b, n) o) with (o, if o && negb b then S n else n). rewrite IH. f_equal.
  - rewrite last_cons. by destruct (last obs).
  - cbn. destruct (o && negb b); lia.
Qed.

(** ** The leader's address *)
Section leader_address.
Context {C : Type} `{!AddressReads C} (ns port : string).
(** What the resolver is asked: whether it leads, who leads, and the cluster
    at that time. *)
Definition ask : Type := bool * string * C.
Definition ask_leader (cache : string * string) (a : ask) : string * string :=
  (leader_target ns port a.1.1 a.1.2 a.2 cache).2.
Definition known (before : list ask) (cache : string * string) : Prop :=
  cache = ("", "") ∨ ∃ a ip, a ∈ before ∧ a.1.2 = cache.1 ∧ ip ≠ "" ∧ pod_ip ns cache.1 a.2 = inl ip
                         ∧ cache.2 = base_url port ip.
Lemma leader_target_known before cache a :
  known before cache → known (before ++ [a]) (ask_leader cache a).
Proof.
  intros Hk.
  assert (known (before ++ [a]) cache) as Hold.
  { destruct Hk as [->|(a' & ip & Ha & H)]; [by left|]. right. exists a', ip. split; [set_solver|done]. }
  destruct a as [[leads leader] c]. unfold ask_leader, leader_target. cbn.
  destruct leads; [done|]. unfold str_eqb. case_bool_decide; [done|]. case_bool_decide; [done|].
  destruct (pod_ip ns leader c) as [ip|] eqn:E; [|done]. case_bool_decide; [done|].
  right. exists (false, leader, c), ip. split; [set_solver|done].
Qed.

(** A standby proxies only to the pod that leads: any address it is given is
    one that pod had when it was asked for, now or before; and a leader
    never proxies. *)
Theorem leader_target_is_the_leader before leads leader c url :
  (leader_target ns port leads leader c (foldl ask_leader ("", "") before)).1 = inl url →
  if leads then url = ""
  else ∃ a ip, a ∈ before ++ [(false, leader, c)] ∧ a.1.2 = leader ∧ ip ≠ "" ∧ pod_ip ns leader a.2 = inl ip
               ∧ url = base_url port ip.
Proof.
  assert (known before (foldl ask_leader ("", "") before)) as Hk.
  { induction before as [|a before IH] using rev_ind; [by left|]. rewrite foldl_snoc. by apply leader_target_known. }
  unfold leader_target. destruct leads; [by intros [= <-]|]. unfold str_eqb. case_bool_decide as Hl; [done|].
  case_bool_decide as Hc.
  - intros [= <-]. destruct Hk as [E|(a & ip & Ha & H1 & H2 & H3 & H4)]; [by rewrite E in Hc|].
    exists a, ip. rewrite Hc. split_and!; [set_solver|done..].
  - destruct (pod_ip ns leader c) as [ip|] eqn:E; [|done]. case_bool_decide; [done|]. intros [= <-].
    exists (false, leader, c), ip. split_and!; [set_solver|done..].
Qed.
End leader_address.

(** ** The shutdown *)
Lemma wait_bounds t f b : 0 ≤ b → t ≤ wait t f b ≤ t + b.
Proof. unfold wait. lia. Qed.
Lemma wait_done t f b : 0 ≤ b → wait t f b = t + b ∨ f ≤ wait t f b.
Proof. unfold wait. lia. Qed.

(** A shutdown takes at most forty seconds and the last post; the event log
    and the audit log are closed only when the handlers and the loops are
    done or have each had fifteen seconds. *)
Theorem shutdown_waits_then_closes e leading step t :
  0 ≤ en_slack e → (step, t) ∈ shutdown e leading →
  0 ≤ t ≤ 40 * second + en_slack e
  ∧ (step = LogClosed ∨ step = AuditClosed →
     (en_handlers e ≤ t ∨ handlerGrace ≤ t) ∧ (en_loops e ≤ t ∨ handlerGrace ≤ t)).
Proof.
  intros Hs. unfold shutdown.
  set (t1 := wait 0 _ _). set (t2 := match en_webhook e with Some f => wait t1 f _ | None => t1 end).
  set (t3 := wait t2 _ _). set (t4 := wait t3 _ _). set (t5 := wait t4 _ _). set (t6 := wait t5 _ _).
  assert (0 ≤ t1 ≤ httpGrace) as H1 by (apply wait_bounds; done).
  assert (t1 ≤ t2 ≤ httpGrace) as H2.
  { unfold t2. destruct (en_webhook e) as [f|]; [|lia].
    pose proof (wait_bounds t1 f (Z.max 0 (httpGrace - t1))). lia. }
  assert (t2 ≤ t3 ≤ t2 + handlerGrace) as H3 by (apply wait_bounds; done).
  assert (t3 ≤ t4 ≤ t3 + handlerGrace) as H4 by (apply wait_bounds; done).
  assert (t4 ≤ t5 ≤ t4 + drainGrace) as H5 by (apply wait_bounds; done).
  assert (t5 ≤ t6 ≤ t5 + Z.max 0 (httpGrace - t5)) as H6 by (apply wait_bounds; lia).
  pose proof (wait_done t2 (en_handlers e) handlerGrace ltac:(done)) as D3. fold t3 in D3.
  pose proof (wait_done t3 (en_loops e) handlerGrace ltac:(done)) as D4. fold t4 in D4.
  assert (httpGrace = 5 * second ∧ handlerGrace = 15 * second ∧ drainGrace = 5 * second ∧ 0 < second)
    as (E1 & E2 & E3 & E4) by done.
  intros Hin. assert (0 ≤ t ≤ 40 * second + en_slack e ∧ (step = LogClosed ∨ step = AuditClosed → t = t5)) as [Hb Hc].
  { rewrite !elem_of_app in Hin. repeat setoid_rewrite elem_of_cons in Hin.
    destruct (en_webhook e), leading; set_unfold in Hin; naive_solver lia. }
  split; [done|]. intros Hl. rewrite (Hc Hl). lia.
Qed.

(** The budget of the pod does not cover it: a shutdown whose handlers and
    loops are slow is killed before it has closed its logs. *)
Theorem shutdown_outlives_its_grace : ∃ e t,
  en_slack e = 0 ∧ (AuditClosed, t) ∈ shutdown e false ∧ terminationGrace < t.
Proof.
  exists (mkEnds hour None hour hour hour 0 0), (40 * second).
  split_and!; [done| |done]. repeat (apply elem_of_cons; (by left) || right). 
Qed.
