(* ===== verification/Agent.v ===== *)
(** * Agent: the components together

    The state of a controller process: the hot reloader's policy, the pods'
    handlers that run, the trackers, the learned baselines, the config
    reloads, the prober, the approval queue (kept in the cluster, as
    [startApprovals] of Run sets it) and the gate.  A step is one run of one
    component, under a policy that is or was in force (a handler may have
    started under an older one); between steps anybody may change the
    cluster.  Each component's step is the definition of its own file; this
    file is the wiring of the watchers' callbacks, of the checks of
    [leaderLoops] and of the approvals as a step relation.

    The theorem joins Policy (no reload widens the grant), Gate (nothing runs
    outside the scope), and Confinement (each component reaches the cluster
    only through the gate); [change_is_on_disk] adds AuditFile (what the
    log's file holds). *)
From S2P Require Import Prelude GoStd Policy RateLimit Guards Events Escalation Gate Kube K8s.
From S2P Require Import Http Routing Fixes Approvals Wire ApprovalsStore SlackActions FixTracker Learning Calendar Scaler Metrics Findings Reload.
From S2P Require Import GitopsContent Nodes PodStates Handlers Watcher Workloads Jobs Detectors WorkloadChecks NetChecks Correlation.
From S2P Require Import ClusterChecks SecurityChecks MetricChecks NetProbe SelfCheck Baselines Passes Confinement.
From S2P Require Config Run AuditFile.
#[local] Open Scope Z_scope.
#[local] Open Scope agent_scope.

(** What the chart granted the process at its start. *)
Definition granted (p0 : Policy) (ns : string) : Prop :=
  if FixAnywhere p0 then ns ∉ System p0 else ns ∈ FixCeiling p0.

(** ** The state *)
Record agent {C W : Type} := mkAgent {
  ag_config : HotReloader;
  ag_seen : list Policy;            (* the policies in force so far *)
  ag_running : list job;
  ag_fixes : option FixTracker;
  ag_reloads : Reloader;
  ag_prober : prober;
  ag_learning : option LearningMode;
  ag_deploys : option DeployTracker;
  ag_items : gmap string (pendingApproval C);
  ag_world : W;                     (* the ConfigMaps *)
  ag_calls : nat;
  ag_gate : GState C
}.
Arguments agent : clear implicits.

Section state.
Context {C W : Type}.
Implicit Types a : agent C W.
(** Put a part of the state back. *)
Definition with_config (hr : HotReloader) a : agent C W :=
  mkAgent C W hr (ag_seen a ++ [hr_policy hr]) (ag_running a) (ag_fixes a) (ag_reloads a) (ag_prober a)
    (ag_learning a) (ag_deploys a) (ag_items a) (ag_world a) (ag_calls a) (ag_gate a).
Definition with_running (js : list job) a : agent C W :=
  mkAgent C W (ag_config a) (ag_seen a) js (ag_fixes a) (ag_reloads a) (ag_prober a)
    (ag_learning a) (ag_deploys a) (ag_items a) (ag_world a) (ag_calls a) (ag_gate a).
Definition with_gate (g : GState C) a : agent C W :=
  mkAgent C W (ag_config a) (ag_seen a) (ag_running a) (ag_fixes a) (ag_reloads a) (ag_prober a)
    (ag_learning a) (ag_deploys a) (ag_items a) (ag_world a) (ag_calls a) g.
Definition with_fixes (s : option FixTracker * GState C) a : agent C W :=
  mkAgent C W (ag_config a) (ag_seen a) (ag_running a) s.1 (ag_reloads a) (ag_prober a)
    (ag_learning a) (ag_deploys a) (ag_items a) (ag_world a) (ag_calls a) s.2.
Definition with_reloads (s : Reloader * GState C) a : agent C W :=
  mkAgent C W (ag_config a) (ag_seen a) (ag_running a) (ag_fixes a) s.1 (ag_prober a)
    (ag_learning a) (ag_deploys a) (ag_items a) (ag_world a) (ag_calls a) s.2.
Definition with_prober (s : prober * GState C) a : agent C W :=
  mkAgent C W (ag_config a) (ag_seen a) (ag_running a) (ag_fixes a) (ag_reloads a) s.1
    (ag_learning a) (ag_deploys a) (ag_items a) (ag_world a) (ag_calls a) s.2.
Definition with_learning (lm : option LearningMode) a : agent C W :=
  mkAgent C W (ag_config a) (ag_seen a) (ag_running a) (ag_fixes a) (ag_reloads a) (ag_prober a)
    lm (ag_deploys a) (ag_items a) (ag_world a) (ag_calls a) (ag_gate a).
Definition with_deploys (dt : option DeployTracker) a : agent C W :=
  mkAgent C W (ag_config a) (ag_seen a) (ag_running a) (ag_fixes a) (ag_reloads a) (ag_prober a)
    (ag_learning a) dt (ag_items a) (ag_world a) (ag_calls a) (ag_gate a).
Definition queue_state a : QSys C W := mkQSys C W (ag_gate a) (ag_items a) (ag_world a) (ag_calls a).
Definition with_queue (q : QSys C W) a : agent C W :=
  mkAgent C W (ag_config a) (ag_seen a) (ag_running a) (ag_fixes a) (ag_reloads a) (ag_prober a)
    (ag_learning a) (ag_deploys a) (qs_items q) (qs_world q) (qs_calls q) (qs_gate q).
Definition cluster_of a : C := gs_cluster (ag_gate a).
End state.

(** A pass over the fix tracker, where there is one. *)
Definition on_tracker {C} (m : st (FixTracker * GState C) unit) : st (option FixTracker * GState C) unit := λ s,
  match s.1 with
  | None => (tt, s)
  | Some ft => let r := m (ft, s.2) in (tt, (Some r.2.1, r.2.2))
  end.

(** ** The steps *)
Section agent.
Context {C Spec W Sel V : Type} `{!HandlerServices C, !NodeAPI C, !ScalerAPI C, !ReloadAPI C, !WorkloadAPI C, !JobAPI C,
  !ClusterAPI C Spec, !PodReads C, !ClusterReader C, !WorkloadReads C, !NetReads C Sel, !ClusterReads C,
  !SecurityReads C, !MetricObjects C, !PromServer C, !ProbeNet C, !ProbeReads C, !HttpGet C, !YAML, !RangeOrder}.
Context `{!ConfigMapAPI W, !ConfigMapView W, !ConfigMapLaws W, !QueueCodec}.
(** What [Deps] and the configuration hold for good. *)
Context (hd : HandlerDeps) (gates : ScalingGates) (rollouts_on : bool) (probes : Probes) (endpoints : SelfCheckEndpoints)
  (mkdir_ok write_ok : bool).
Context (queue : Approvals) (parse_certificate : string → option Certificate) (provider : Provider)
  (new_id : nat → option string) (err_text store_text : approval_error → string) (fix_error_text : fix_error → string) (retries : nat)
  (post_buttons : st (GState C) unit) (ticket : string → string → string → string → st (QSys C W) unit) (tls : bool).
(** What others do to the ConfigMaps between two of our calls. *)
Context (others : nat → W → W).
Implicit Types a : agent C W.

(** A run of a component on its part of the state. *)
Definition run_gate (m : st (GState C) unit) a : agent C W := with_gate (m (ag_gate a)).2 a.
Definition run_fixes (m : st (option FixTracker * GState C) unit) a : agent C W := with_fixes (m (ag_fixes a, ag_gate a)).2 a.
Definition run_queue (m : st (QSys C W) unit) a : agent C W := with_queue (m (queue_state a)).2 a.

(** *** The checks of the leader *)
Section checks.
Context (env : Env).
#[local] Instance agent_queue : ProposalQueue C (QSys C W) :=
  stored_queue env others fix_error_text retries format_RFC3339 (Some queue) new_id err_text post_buttons.
(** What a check named in run.go does; [None] is the panic of recording a
    reading in baselines that are null in their file. *)
Definition leader_check (c : Run.check) a : option (agent C W) :=
  match c with
  | Run.EvaluateAndScale => Some (run_gate (let! _ := EvaluateAndScale env gates (ag_learning a) in return! tt) a)
  | Run.CheckAnomalies => Some (run_queue (CheckAnomalies (C := C) env provider) a)
  | Run.VerifyFixes => Some (run_fixes (on_tracker (VerifyFixes env)) a)
  | Run.CheckFailedJobs => Some (run_fixes (CheckFailedJobs env) a)
  | Run.CheckStuckRollouts => Some (run_fixes (CheckStuckRollouts env hd) a)
  | Run.CleanupEvictedPods => Some (run_fixes (CleanupEvictedPods env) a)
  | Run.CheckServiceEndpoints => Some (run_gate (CheckServiceEndpoints env) a)
  | Run.CheckPendingPVCs => Some (run_queue (CheckPendingPVCs (C := C) env ticket) a)
  | Run.CheckNodeHealth => Some (run_queue (CheckNodeHealth (C := C) env) a)
  | Run.CheckNodeExtended => Some (run_queue (CheckNodeExtended (C := C) env) a)
  | Run.ScanDeployments => Some (with_deploys (ScanDeployments (env_Policy env) (cluster_of a) (ag_deploys a)) a)
  | Run.CheckDeadlineExceeded => Some (run_gate (CheckDeadlineExceeded env) a)
  | Run.CheckEphemeralStorageFull => Some (run_gate (CheckEphemeralStorageFull env) a)
  | Run.CheckStatefulSetStuck => Some (run_queue (CheckStatefulSetStuck (C := C) env) a)
  | Run.CheckDaemonSetMissing => Some (run_queue (CheckDaemonSetMissing (C := C) env) a)
  | Run.CheckHPAIssues => Some (run_queue (CheckHPAIssues (C := C) env) a)
  | Run.CheckCronJobMissed => Some (run_queue (CheckCronJobMissed (C := C) env) a)
  | Run.CheckDeploymentPaused => Some (run_queue (CheckDeploymentPaused (C := C) env) a)
  | Run.CheckReplicaSetFailure => Some (run_queue (CheckReplicaSetFailure (C := C) env) a)
  | Run.CheckPodStates => Some (run_gate (CheckPodStates env) a)
  | Run.CheckResourceQuotas => Some (run_queue (CheckResourceQuotas (C := C) env) a)
  | Run.CollectBaselines =>
      r ← CollectBaselines (env_Policy env) (λ k, env_Clock env (gs_tick (ag_gate a) + k)%nat) mkdir_ok write_ok
            (cluster_of a) (ag_learning a);
      Some (with_learning r.1 a)
  | Run.CheckStorageIssues => Some (run_queue (CheckStorageIssues (C := C) env) a)
  | Run.CheckNetworkIssues => Some (run_queue (CheckNetworkIssues (Sel := Sel) (C := C) env tls) a)
  | Run.CheckSecurityIssues => Some (run_queue (CheckSecurityIssues (C := C) env parse_certificate tls) a)
  | Run.CheckWebhookBlocking => Some (run_queue (CheckWebhookBlocking (C := C) env) a)
  | Run.CheckRBACDenied => Some (run_queue (CheckRBACDenied (C := C) env) a)
  | Run.CheckStuckFinalizers => Some (run_queue (CheckStuckFinalizers (C := C) env) a)
  | Run.CheckDisruptionBudgets => Some (run_queue (CheckDisruptionBudgets (C := C) env) a)
  | Run.CheckResourcePressure => Some (run_queue (CheckResourcePressure (C := C) env (Some provider)) a)
  | Run.CheckControlPlane => Some (run_queue (CheckControlPlane (C := C) env (Some provider)) a)
  | Run.CheckSandboxFailures => Some (run_queue (CheckSandboxFailures (Sel := Sel) (C := C) env) a)
  | Run.CheckSystemNetworkPods => Some (run_queue (CheckSystemNetworkPods (Sel := Sel) (C := C) env) a)
  | Run.CheckNetworkPolicyBlocks => Some (run_queue (CheckNetworkPolicyBlocks (Sel := Sel) (C := C) env) a)
  | Run.CheckConntrack => Some (run_queue (CheckConntrack (C := C) env (Some provider)) a)
  | Run.CheckCoreDNS => Some (run_queue (CheckCoreDNS (C := C) env (Some provider)) a)
  | Run.SelfCheck_ => Some (run_gate (SelfCheck env endpoints) a)
  end.
End checks.

(** *** The config reloads and the approvals *)
Inductive reload_op (env : Env) : st (Reloader * GState C) unit → Prop :=
| op_tick leading : reload_op env (reloadTick env rollouts_on leading)
| op_config_map old cur : reload_op env (configMapChanged env old cur)
| op_secret old cur : reload_op env (secretChanged env old cur).
Definition approvals_of (env : Env) : option (ApprovalQueue (QSys C W)) :=
  Some (approvalsAPI env others fix_error_text retries store_text (Some queue)).
(** A request of Slack, read with [json_payload], or of the dashboard. *)
Inductive approval_op (env : Env) : st (QSys C W) unit → Prop :=
| op_slack json_payload secret now r :
    approval_op env (let! _ := SlackServeHTTP (approvals_of env) json_payload secret now r in return! tt)
| op_page allowNS r : approval_op env (let! _ := handleApprovals (approvals_of env) allowNS r in return! tt).

(** A policy that is or was in force, and the audit log every process has. *)
Definition in_force (env : Env) a : Prop := env_Policy env ∈ ag_seen a ∧ env_AuditLog env = true.
Inductive agent_step : agent C W → agent C W → Prop :=
| ag_reload e a : agent_step a (with_config (on_event (ag_config a) e) a)
| ag_pod env p a :
    let r := on_pod env p (ag_running a) (ag_gate a) in
    in_force env a → agent_step a (with_gate r.2 (with_running r.1 a))
| ag_node env old new a : agent_step a (with_running (on_node env old new (ag_running a)) a)
| ag_handled env before j after a :
    in_force env a → ag_running a = before ++ j :: after →
    agent_step a (with_fixes (run_job env hd j (ag_fixes a, ag_gate a)).2 (with_running (before ++ after) a))
| ag_check env c a a' : in_force env a → leader_check env c a = Some a' → agent_step a a'
| ag_reload_op env m a : in_force env a → reload_op env m → agent_step a (with_reloads (m (ag_reloads a, ag_gate a)).2 a)
| ag_probe env a :
    in_force env a → agent_step a (with_prober (probeOnce env probes (ag_prober a, ag_gate a)).2 a)
| ag_approval_op env m a : in_force env a → approval_op env m → agent_step a (run_queue m a).
(** Anyone else may make of the cluster what they like. *)
Inductive others_step : agent C W → agent C W → Prop :=
| ag_others c a : others_step a (with_gate (set_cluster c (ag_gate a)) a).
Definition agent_run (a a' : agent C W) : Prop := rtc (λ x y, agent_step x y ∨ others_step x y) a a'.

(** ** Where a step leaves its traces *)
Section confined.
Context (view : string → C → V) `{!NamespacedCalls view Spec}.
Context (Hothers : ∀ n w, later w (others n w)) (Hpost : keeps same_but_told post_buttons)
  (Hticket : ∀ ns key title body, keeps only_queued (ticket ns key title body)).
Context (ns_store : string) (Hstore : ap_store queue = Some ns_store).
Abbreviation U env := (accounted view (env_Policy env)).

Lemma on_tracker_accounted p m :
  keeps (accounted_r view p) m → keeps (accounted_r view p) (on_tracker (C := C) m).
Proof. intros Hm [[ft|] s]; [exact (Hm (ft, s))|done]. Qed.
Lemma reload_op_accounted env m : env_AuditLog env = true → reload_op env m → keeps (accounted_r view (env_Policy env)) m.
Proof. intros ? []; [by apply (reloadTick_accounted view)|by apply (queueChange_accounted view)..]. Qed.
Lemma approval_op_accounted env m s :
  env_AuditLog env = true → approval_op env m → U env (qs_gate s) (qs_gate (m s).2).
Proof.
  intros Hlog [json_payload secret now r|allowNS r]; rewrite bind_tt; cbn [snd].
  - by apply (SlackServeHTTP_accounted view env Hlog others Hothers fix_error_text retries store_text queue ns_store).
  - by apply (handleApprovals_accounted view env others Hothers).
Qed.
Lemma run_gate_accounted p m a : keeps (accounted view p) m → accounted view p (ag_gate a) (ag_gate (run_gate m a)).
Proof. intros Hm. apply Hm. Qed.
Lemma run_fixes_accounted p m a : keeps (accounted_r view p) m → accounted view p (ag_gate a) (ag_gate (run_fixes m a)).
Proof. intros Hm. apply (Hm (ag_fixes a, ag_gate a)). Qed.
Lemma run_pass_quiet env m a :
  m ∈ leader_passes (Sel := Sel) parse_certificate provider env others fix_error_text retries (Some queue) new_id err_text
        post_buttons ticket tls →
  same_cluster (ag_gate a) (ag_gate (run_queue m a)).
Proof.
  intros Hm. by eapply (leader_passes_quiet (Sel := Sel) _ _ _ _ _ _ Hothers _ _ _ _ Hpost _ _ m Hticket Hm (queue_state a)).
Qed.
Lemma run_pass_accounted env m a :
  m ∈ leader_passes (Sel := Sel) parse_certificate provider env others fix_error_text retries (Some queue) new_id err_text
        post_buttons ticket tls →
  U env (ag_gate a) (ag_gate (run_queue m a)).
Proof.
  intros Hm. by apply same_cluster_accounted, (run_pass_quiet env).
Qed.
Ltac pass_found := repeat first [by left|right].
Lemma leader_check_accounted env c a a' : env_AuditLog env = true → leader_check env c a = Some a' → U env (ag_gate a) (ag_gate a').
Proof.
  intros Hlog. destruct c; cbn [leader_check]; try (intros [= <-]; apply run_pass_accounted; unfold leader_passes; pass_found; fail).
  - intros [= <-]. apply run_gate_accounted, (keeps_bind (U env)); [by apply (EvaluateAndScale_accounted view)|].
    intros ?. apply (keeps_ret (U env)).
  - intros [= <-]. by apply run_fixes_accounted, on_tracker_accounted, (VerifyFixes_accounted view).
  - intros [= <-]. by apply run_fixes_accounted, (CheckFailedJobs_accounted view).
  - intros [= <-]. by apply run_fixes_accounted, (CheckStuckRollouts_accounted view).
  - intros [= <-]. by apply run_fixes_accounted, (CleanupEvictedPods_accounted view).
  - intros [= <-]. apply run_gate_accounted. intros s. by apply told_accounted, CheckServiceEndpoints_told.
  - by intros [= <-].
  - intros [= <-]. apply run_gate_accounted. intros s. by apply told_accounted, CheckDeadlineExceeded_told.
  - intros [= <-]. apply run_gate_accounted. intros s. by apply told_accounted, CheckEphemeralStorageFull_told.
  - intros [= <-]. apply run_gate_accounted. intros s. by apply told_accounted, CheckPodStates_only_tells.
  - by intros (r & _ & [= <-])%bind_Some.
  - intros [= <-]. apply run_gate_accounted. intros s. apply told_accounted, SelfCheck_tells.
Qed.

(** The checks that hand a change to the gate themselves. *)
Definition acting (c : Run.check) : bool :=
  match c with
  | Run.EvaluateAndScale | Run.CheckFailedJobs | Run.CheckStuckRollouts | Run.CleanupEvictedPods => true
  | _ => false
  end.
Lemma told_cluster m a : keeps same_but_told m → same_cluster (ag_gate a) (ag_gate (run_gate m a)).
Proof. intros Hm. apply (Hm (ag_gate a)). Qed.
Lemma quiet_check env c a a' :
  acting c = false → leader_check env c a = Some a' → same_cluster (ag_gate a) (ag_gate a').
Proof.
  intros Hc. destruct c; try discriminate Hc; cbn [leader_check];
    try (intros [= <-]; apply (run_pass_quiet env); unfold leader_passes; pass_found; fail).
  - intros [= <-]. unfold run_fixes, on_tracker. cbn [fst snd ag_gate with_fixes]. destruct (ag_fixes a) as [ft|]; [|done].
    exact (VerifyFixes_same env (ft, ag_gate a)).
  - intros [= <-]. apply told_cluster, CheckServiceEndpoints_told.
  - by intros [= <-].
  - intros [= <-]. apply told_cluster, CheckDeadlineExceeded_told.
  - intros [= <-]. apply told_cluster, CheckEphemeralStorageFull_told.
  - intros [= <-]. apply told_cluster, CheckPodStates_only_tells.
  - by intros (r & _ & [= <-])%bind_Some.
  - intros [= <-]. apply told_cluster. intros s. apply SelfCheck_tells.
Qed.

(** Every step of the agent is a step of one policy in force. *)
Lemma agent_step_accounted a a' :
  agent_step a a' → nowhere view (cluster_of a) (cluster_of a')
    ∨ ∃ p, p ∈ ag_seen a ∧ accounted view p (ag_gate a) (ag_gate a').
Proof.
  intros [e a1|env p a1 r [Hf Hl]|env old new a1|env before j after a1 [Hf Hl] _|env c a1 a2 [Hf Hl] Hc|env m a1 [Hf Hl] Hm
    |env a1 [Hf Hl]|env m a1 [Hf Hl] Hm].
  1, 3: by left.
  all: right; exists (env_Policy env); split; [exact Hf|].
  - subst r. unfold on_pod. destruct (pod_delivered _ p); [|done].
    unfold handlePodUpdate. rewrite bind_answer. by apply same_cluster_accounted, dispatch_spec.
  - exact (run_job_accounted view env hd Hl j (ag_fixes a1, ag_gate a1)).
  - by apply (leader_check_accounted env c).
  - exact (reload_op_accounted env m Hl Hm (ag_reloads a1, ag_gate a1)).
  - apply told_accounted. apply (probes_only_tell env probes (ag_prober a1, ag_gate a1)).
  - exact (approval_op_accounted env m (queue_state a1) Hl Hm).
Qed.
End confined.

(** ** The policies of a run *)

(** Each policy a step may run under came from the reloader's start by the
    events of its ConfigMaps. *)
Definition traced (hr0 : HotReloader) a : Prop :=
  rtc hr_step hr0 (ag_config a) ∧ ∀ p, p ∈ ag_seen a → ∃ hr, rtc hr_step hr0 hr ∧ hr_policy hr = p.
Lemma leader_check_config env c a a' :
  leader_check env c a = Some a' → ag_config a' = ag_config a ∧ ag_seen a' = ag_seen a.
Proof.
  destruct c; cbn [leader_check]; try (by intros [= <-]). by intros (r & _ & [= <-])%bind_Some.
Qed.
Lemma agent_step_traced hr0 a a' : agent_step a a' → traced hr0 a → traced hr0 a'.
Proof.
  intros [e a1| | | |env c a1 a2 _ Hc| | | ] Ht; try exact Ht.
  2: { destruct (leader_check_config env c a1 a2 Hc) as [Hcf Hse]. unfold traced. by rewrite Hcf, Hse. }
  destruct Ht as [Hr Hs].
  assert (Hr' : rtc hr_step hr0 (on_event (ag_config a1) e)) by (eapply rtc_r; [exact Hr|by exists e]).
  split; [done|]. intros p [Hp| ->%list_elem_of_singleton]%elem_of_app; [by apply Hs|by eexists].
Qed.
Lemma agent_run_traced hr0 a a' : agent_run a a' → traced hr0 a → traced hr0 a'.
Proof.
  induction 1 as [|x y z [Hxy|Hxy] _ IH]; [done|by intros ?%(agent_step_traced _ _ _ Hxy)%IH|].
  intros Ht. apply IH. destruct Hxy. exact Ht.
Qed.
Lemma seen_grant p0 n cm scope p ns :
  (∃ hr, rtc hr_step (WatchScope (NewHotReloader p0 n cm) scope) hr ∧ hr_policy hr = p) →
  may_fix p ns → ns = "" ∨ granted p0 ns.
Proof.
  intros (hr & Hsteps & <-) [_ [?|Hf%Fixable_InCeiling%InCeiling_grant]]; [by left|]. right. unfold granted.
  assert (same_grant p0 (hr_policy hr)) as (-> & -> & ->); [|apply Hf].
  apply (steps_policy same_grant _ _ (λ _ _, conj eq_refl (conj eq_refl eq_refl))
    (λ _ _ _, conj eq_refl (conj eq_refl eq_refl)) Hsteps).
Qed.

(** What a step that changes a namespace answers for. *)
Lemma change_answered (view : string → C → V) (HV : NamespacedCalls view Spec) ns_store
    p0 n cm scope a0 a a' ns :
  (∀ n w, later w (others n w)) → keeps same_but_told post_buttons →
  (∀ ns key title body, keeps only_queued (ticket ns key title body)) →
  ap_store queue = Some ns_store →
  ag_config a0 = WatchScope (NewHotReloader p0 n cm) scope → ag_seen a0 = [hr_policy (ag_config a0)] →
  agent_run a0 a → agent_step a a' →
  view ns (cluster_of a') ≠ view ns (cluster_of a) →
  ∃ p new e, p ∈ ag_seen a ∧ may_fix p ns ∧ (ns = "" ∨ granted p0 ns)
    ∧ audits (gs_trace (ag_gate a')) = audits (gs_trace (ag_gate a)) ++ new ∧ e ∈ new ∧ entry_for p ns e.
Proof.
  intros Ho Hp Ht Hs Hc0 Hs0 Hrun Hstep Hchanged.
  assert (traced (ag_config a0) a0) as Htr.
  { split; [done|]. intros p. rewrite Hs0. intros ->%list_elem_of_singleton. by eexists. }
  destruct (agent_run_traced _ _ _ Hrun Htr) as [_ Hseen].
  destruct (agent_step_accounted view Ho Hp Ht ns_store Hs a a' Hstep) as [Hn|(p & Hin & new & Hnew & Hu)]; [by destruct Hchanged|].
  destruct (decide (accountable p new ns)) as [(Hm & e & He & Hfor)|Hm]; [|destruct Hchanged; by apply Hu].
  exists p, new, e. split_and!; try done. apply (seen_grant p0 n cm scope p); [|done]. rewrite <-Hc0. by apply Hseen.
Qed.

(** C1: The promise of the whole process.  However its components interleave,
    whatever the ConfigMaps become and whatever others do to the cluster in
    between, a step of the agent that changes what a namespace holds answers
    for it: a policy that is or was in force is in fix mode with that
    namespace in its fix scope, the chart granted the namespace when the
    process started ([""] is the objects without a namespace), and the step
    wrote an audit entry for the namespace, in that mode, that says the
    change succeeded or failed.  So an agent that was never in fix mode
    changes nothing, neither a ConfigMap nor the dashboard nor an approver can
    send it outside the ceiling, and it changes nothing silently. *)
Theorem agent_answers_for_its_changes (view : string → C → V) (HV : NamespacedCalls view Spec) ns_store
    p0 n cm scope a0 a a' ns :
  (∀ n w, later w (others n w)) → keeps same_but_told post_buttons →
  (∀ ns key title body, keeps only_queued (ticket ns key title body)) →
  ap_store queue = Some ns_store →
  ag_config a0 = WatchScope (NewHotReloader p0 n cm) scope → ag_seen a0 = [hr_policy (ag_config a0)] →
  agent_run a0 a → agent_step a a' →
  view ns (cluster_of a') ≠ view ns (cluster_of a) →
  ∃ p new e, p ∈ ag_seen a ∧ may_fix p ns ∧ (ns = "" ∨ granted p0 ns)
    ∧ audits (gs_trace (ag_gate a')) = audits (gs_trace (ag_gate a)) ++ new ∧ e ∈ new ∧ entry_for p ns e.
Proof. apply change_answered, HV. Qed.

(** And the answer is on disk: with the audit log of [Deps] fed by the gate,
    entry by entry, at whatever times, a change is a whole line of the log's
    file that names its namespace, its mode and how it ended, or a failure of
    the log was counted. *)
Theorem change_is_on_disk {Disk File} `{!AuditFile.AuditFiles Disk File, !AuditFile.AuditFilesLaws Disk File} (dir : string → string)
    (marshal : AuditFile.Entry → string + string) (at_ : nat → Time) path (disk : Disk)
    (view : string → C → V) (HV : NamespacedCalls view Spec) ns_store p0 n cm scope a0 a a' ns :
  (∀ n w, later w (others n w)) → keeps same_but_told post_buttons →
  (∀ ns key title body, keeps only_queued (ticket ns key title body)) →
  ap_store queue = Some ns_store →
  ag_config a0 = WatchScope (NewHotReloader p0 n cm) scope → ag_seen a0 = [hr_policy (ag_config a0)] →
  agent_run a0 a → agent_step a a' →
  view ns (cluster_of a') ≠ view ns (cluster_of a) →
  let log := foldl (AuditFile.run_call marshal) (AuditFile.NewAuditLog dir path disk)
    (imap (λ i e, AuditFile.CRecord (at_ i) (AuditFile.entry_of e)) (audits (gs_trace (ag_gate a')))) in
  (∃ p e i text before after, p ∈ ag_seen a ∧ may_fix p ns ∧ entry_for p ns e
    ∧ audits (gs_trace (ag_gate a')) !! i = Some e ∧ (length (audits (gs_trace (ag_gate a))) ≤ i)%nat
    ∧ marshal (AuditFile.stamped (at_ i) (AuditFile.entry_of e)) = inl text
    ∧ AuditFile.own_text log = before +:+ AuditFile.line_of text +:+ after)
  ∨ AuditFile.ru_failed log ≠ [].
Proof.
  intros Ho Hp Ht Hs Hc0 Hs0 Hrun Hstep Hchanged. cbv zeta.
  destruct (change_answered view HV ns_store p0 n cm scope a0 a a' ns Ho Hp Ht Hs Hc0 Hs0 Hrun Hstep Hchanged)
    as (p & new & e & Hin & Hm & _ & Hnew & He & Hfor).
  apply list_elem_of_lookup in He as [j Hj]. set (i := (length (audits (gs_trace (ag_gate a))) + j)%nat).
  assert (audits (gs_trace (ag_gate a')) !! i = Some e) as Hi.
  { rewrite Hnew, lookup_app_r by lia. by replace (i - _)%nat with j by lia. }
  set (calls := imap _ _).
  assert (AuditFile.CRecord (at_ i) (AuditFile.entry_of e) ∈ calls) as Hc.
  { apply list_elem_of_lookup. exists i. unfold calls. by rewrite list_lookup_imap, Hi. }
  destruct (AuditFile.recorded_entry_in_file dir marshal path disk calls _ _ Hc)
    as [(text & before & after & Hx & Hy)|Hf]; [left|right; exact Hf].
  exists p, e, i, text, before, after. split_and!; try done. unfold i. lia.
Qed.

(** A round of the leader's loop, as run.go runs it, is a run of the agent:
    the checks of the group one after another. *)
Definition exec env (c : Run.check) (oa : option (agent C W)) : option (agent C W) := oa ≫= leader_check env c.
Lemma leader_round_is_run env conf due a a' :
  in_force env a → Run.loop_step (exec env) (Run.leaderChecks conf) (Some a) due = Some a' → agent_run a a' ∧ in_force env a'.
Proof.
  intros Hf. unfold Run.loop_step. destruct (Run.leaderChecks conf !! due.1) as [g|]; [|intros [= <-]; by split; [apply rtc_refl|]].
  unfold Run.run_group. destruct (_ && _); [intros [= <-]; by split; [apply rtc_refl|]|].
  revert a Hf. induction (Run.checks g) as [|c cs IH]; intros a Hf; cbn [foldl]; [intros [= <-]; by split; [apply rtc_refl|]|].
  cbn [exec mbind option_bind]. destruct (leader_check env c a) as [a1|] eqn:Hc.
  - intros Hr. destruct (IH a1) as [Hrun Hf'].
    + unfold in_force. by destruct (leader_check_config env c a a1 Hc) as [_ ->].
    + done.
    + split; [|done]. eapply rtc_l; [|exact Hrun]. left. by eapply ag_check.
  - assert (∀ l, foldl (λ s c, exec env c s) None l = None) as -> by (by induction l). done.
Qed.

(** C30: Of the checks the leader runs, all but four (the scaler, failed jobs,
    stuck rollouts and evicted pods, which act through the gate) leave the
    cluster as it is: after any of these 33, in any order and as often as
    their groups are due, the cluster is the same, no change of a call has
    run, and the audit log has only grown. *)
Theorem checks_only_propose env cs a a' :
  (∀ n w, later w (others n w)) → keeps same_but_told post_buttons →
  (∀ ns key title body, keeps only_queued (ticket ns key title body)) →
  Forall (λ c, acting c = false) cs → foldl (λ oa c, exec env c oa) (Some a) cs = Some a' →
  same_cluster (ag_gate a) (ag_gate a').
Proof.
  intros Ho Hp Ht Hcs. revert a. induction Hcs as [|c cs Hc _ IH]; intros a; cbn [foldl]; [by intros [= <-]|].
  cbn [exec mbind option_bind]. destruct (leader_check env c a) as [a1|] eqn:E.
  - intros Hrest. etrans; [by apply (quiet_check Ho Hp Ht env c)|by apply IH].
  - assert (∀ l, foldl (λ s c, exec env c s) None l = None) as -> by (by induction l). done.
Qed.
End agent.

(** ** A run *)
Module AgentDemo.
(** A cluster that notes, per namespace, the changes made there. *)
Definition notes : Type := gmap string (list string).
Definition look (ns : string) (c : notes) : option (list string) := c !! ns.
Definition note (ns what : string) (c : notes) : notes := <[ns := default [] (c !! ns) ++ [what]]> c.
#[export] Instance yaml : YAML := WatcherDemo.yaml.
#[export] Existing Instances range_sorted wire_codec SimpleAPI.api SimpleAPI.view SimpleAPI.laws.
#[export] Instance services : HandlerServices notes := {|
  stream_logs _ _ _ _ _ := inl ("panic: nil map", None); object_events _ _ _ := inl [];
  sink_save key _ _ := inl ("efs/" +:+ key); diagnose _ _ _ := "";
  delete_pod ns name c := (note ns ("delete " +:+ name) c, None);
  gitops_read _ _ := inr "no file"; gitops_commit _ c := (c, ("", None)); gitops_open _ c := (c, inl "https://git/pr/1") |}.
#[export] Instance node_api : NodeAPI notes := {|
  patch_node name _ _ c := (note "" ("patch " +:+ name) c, None); pods_on_node _ _ := inl [];
  evict_pod ns name c := (note ns ("evict " +:+ name) c, None) |}.
#[export] Instance scaler_api : ScalerAPI notes := {|
  list_namespaces _ := None; list_deployments _ _ := inl []; list_hpas _ _ := inl [];
  avg_cpu _ _ _ := inr "no data"; query_instant _ _ := inr "no data";
  patch_scale ns name _ _ _ c := (note ns ("scale " +:+ name) c, None) |}.
#[export] Instance reload_api : ReloadAPI notes := {|
  list_templates _ _ _ := None; list_rollouts _ _ := None; get_deploy_health _ _ _ := None;
  get_stateful_health _ _ _ := None; get_daemon_health _ _ _ := None; get_rollout_phase _ _ _ := None;
  patch_template _ ns name _ _ c := (note ns ("restart " +:+ name) c, None) |}.
#[export] Instance workload_api : WorkloadAPI notes := {|
  deployments_in _ _ := inl []; replicasets_in _ _ := inl []; get_deploy _ _ _ := inr "not found";
  update_deploy ns name _ c := (note ns ("update " +:+ name) c, None); conflict_text := "conflict";
  failed_pods _ _ := inl []; services_in _ _ := inl []; slices_in _ _ := inl []; selector_text _ := "" |}.
#[export] Instance job_api : JobAPI notes := {|
  jobs_in _ _ := inl []; job_pods _ _ _ := inl []; delete_job ns name c := (note ns ("delete job " +:+ name) c, None) |}.
#[export] Instance cluster_api : ClusterAPI notes unit := {|
  kube_call k c := (note (call_namespace k) "call" c, None); get_cronjob _ _ _ := inr "not found" |}.
#[export] Instance reader : ClusterReader notes := {|
  get_deployment _ _ _ := inr FixTracker.NotFound; list_pods _ _ := inl [] |}.
#[export] Instance pod_reads : PodReads notes := {|
  pods_in _ _ := inl []; events_in _ _ := inl []; namespaces_of _ := Some ["shop"; "pay"] |}.
#[export] Instance workload_reads : WorkloadReads notes := {|
  statefulsets_in _ _ := inl []; daemonsets_in _ _ := inl []; selected_pods _ _ _ := inl []; hpas_in _ _ := inl [];
  cronjobs_in _ _ := inl []; events_of _ _ _ := []; pausable_in _ _ := inl []; replicasets_of _ _ := inl [] |}.
#[export] Instance net_reads : NetReads notes (gmap string string) := {|
  sel_Matches _ _ := None; policies_in _ _ := inl []; net_services_in _ _ := inl []; net_pods_in _ _ := inl [];
  ingresses_in _ _ := inl []; net_events_in _ _ := inl []; pods_labelled _ _ _ := inl []; tls_secrets_in _ _ := inl [] |}.
#[export] Instance cluster_reads : ClusterReads notes := {|
  pvcs_in _ _ := inl []; storageclasses _ := inl ∅; claims_of _ := []; all_namespaces _ := inl [];
  pdbs_in _ _ := inl []; all_nodes _ := inl []; pods_on _ _ _ := inl []; events_about _ _ _ := [] |}.
#[export] Instance security_reads : SecurityReads notes := {|
  secrets_of_tls _ _ := inl []; limitranges_in _ _ := inl []; sec_events_in _ _ := inl []; quotas_in _ _ := inl [] |}.
#[export] Instance metric_objects : MetricObjects notes := {|
  container_cpu _ _ := mkCPU 0 "0" "0"; milli_text n := pretty n; capacity_of _ := (0, "0"); class_expands _ _ := false |}.
#[export] Instance prom : PromServer notes := {| prom_get _ _ := inr "no answer"; prom_decode _ := inr "no answer" |}.
#[export] Instance net : ProbeNet notes := {| resolve _ _ := None; dial _ _ := None |}.
#[export] Instance probe_reads : ProbeReads notes := {| probe_services _ _ := inl [] |}.
#[export] Instance web : HttpGet notes := {| http_get _ _ := inl 200 |}.

Lemma note_only ns what c : only_in look ns c (note ns what c).
Proof. intros ns' Hne. apply lookup_insert_ne. by intros ->. Qed.
#[export] Instance laws : NamespacedCalls look unit.
Proof. split; intros; first [apply note_only|done]. Qed.

(** The process starts with the ceiling of shop, pay and web and no choice. *)
Definition state0 : GState notes :=
  mkGState _ 0 (Some (NewBlastRadiusTracker GateDemo.now 9 hour)) None None
    (Some (NewActionLimiter 10 (10 * minute))) None (Some (NewDeduplicator hour)) None ∅ [].
Definition config0 : HotReloader := WatchScope (NewHotReloader Demo.policy "auto-agent" "agent-config") ScopeConfigMap.
Definition start : agent notes SimpleAPI.World :=
  mkAgent _ _ config0 [hr_policy config0] [] (Some (NewFixTracker 9)) (NewReloader (mkReloadCfg "auto" minute))
    (mkProber ∅ 0) None None ∅ (∅, 0%nat) 0 state0.
(** An operator chooses shop; a pod of shop crash-loops; somebody else makes
    a change in pay; the handler ends. *)
Definition env_of (a : agent notes SimpleAPI.World) : Env :=
  mkEnv (hr_policy (ag_config a)) (λ _, GateDemo.now) None None true true true true "node-1".
Definition chosen := with_config (on_event (ag_config start) (Demo.choose "shop")) start.
Definition noticed :=
  let r := on_pod (env_of chosen) WatcherDemo.crash (ag_running chosen) (ag_gate chosen) in
  with_gate r.2 (with_running r.1 chosen).
Definition meddled := with_gate (set_cluster (note "pay" "rollout" ∅) (ag_gate noticed)) noticed.
Definition handled :=
  with_fixes (run_job (env_of chosen) WatcherDemo.hd (PodJob WatcherDemo.crash (CrashLoop "app"))
    (ag_fixes meddled, ag_gate meddled)).2 (with_running [] meddled).
Definition no_ticket (_ _ _ _ : string) : st (QSys notes SimpleAPI.World) unit := return! tt.
End AgentDemo.
#[local] Existing Instances AgentDemo.yaml AgentDemo.services AgentDemo.node_api AgentDemo.scaler_api AgentDemo.reload_api
  AgentDemo.workload_api AgentDemo.job_api AgentDemo.cluster_api AgentDemo.reader AgentDemo.pod_reads AgentDemo.workload_reads
  AgentDemo.net_reads AgentDemo.cluster_reads AgentDemo.security_reads AgentDemo.metric_objects AgentDemo.prom AgentDemo.net
  AgentDemo.probe_reads AgentDemo.web AgentDemo.laws range_sorted wire_codec SimpleAPI.api SimpleAPI.view SimpleAPI.laws.

(** With no choice made, the same trouble is only told. *)
Example agent_runs :
  cluster_of AgentDemo.handled !! "shop" = Some ["delete web-0"]
  ∧ cluster_of AgentDemo.handled !! "pay" = Some ["rollout"]
  ∧ gs_cluster (run_job (AgentDemo.env_of AgentDemo.start) WatcherDemo.hd (PodJob WatcherDemo.crash (CrashLoop "app"))
      (ag_fixes AgentDemo.start, ag_gate AgentDemo.start)).2.2 = ∅.
Proof. split_and!; vm_compute; reflexivity. Qed.

Lemma agent_answers_for_its_changes_witness :
  AgentDemo.look "shop" (cluster_of AgentDemo.handled) ≠ AgentDemo.look "shop" (cluster_of AgentDemo.meddled)
  ∧ ∃ p new e, p ∈ ag_seen AgentDemo.meddled ∧ may_fix p "shop" ∧ ("shop" = "" ∨ granted Demo.policy "shop")
    ∧ audits (gs_trace (ag_gate AgentDemo.handled)) = audits (gs_trace (ag_gate AgentDemo.meddled)) ++ new
    ∧ e ∈ new ∧ entry_for p "shop" e.
Proof.
  assert (AgentDemo.look "shop" (cluster_of AgentDemo.handled) ≠ AgentDemo.look "shop" (cluster_of AgentDemo.meddled)) as Hne
    by (vm_compute; discriminate).
  split; [exact Hne|].
  assert (in_force (AgentDemo.env_of AgentDemo.chosen) AgentDemo.chosen) as Hf by (split; [right; left|done]).
  apply (agent_answers_for_its_changes (Sel := gmap string string) (Spec := unit) WatcherDemo.hd (mkGates "" "" "") true
    (mkProbes false "" "" false "") (mkEndpoints "" "" "") true true QueueDemo.queue (λ _, None) Prom (λ n, Some "id1")
    (λ _, "error") (λ _, "error") QueueDemo.no_text 4 (return! tt) AgentDemo.no_ticket false QueueDemo.others
    AgentDemo.look AgentDemo.laws "auto-agent" Demo.policy "auto-agent" "agent-config" ScopeConfigMap
    AgentDemo.start AgentDemo.meddled AgentDemo.handled "shop"); try done.
  - apply QueueDemo.others_later.
  - apply (rtc_l _ _ AgentDemo.chosen); [left; by apply ag_reload with (e := Demo.choose "shop")|].
    apply (rtc_l _ _ AgentDemo.noticed).
    { left. unfold AgentDemo.noticed. cbv zeta. apply ag_pod. exact Hf. }
    apply rtc_once. right. apply ag_others.
  - by apply ag_handled with (before := []) (j := PodJob WatcherDemo.crash (CrashLoop "app")) (after := [])
      (env := AgentDemo.env_of AgentDemo.chosen) (a := AgentDemo.meddled).
Defined.

(** Six of them in a row, from the start. *)
Definition demo_checks : list Run.check :=
  [Run.CheckHPAIssues; Run.VerifyFixes; Run.CheckPodStates; Run.ScanDeployments; Run.CheckConntrack; Run.SelfCheck_].
Lemma checks_only_propose_witness :
  let env := AgentDemo.env_of AgentDemo.start in
  let check := leader_check (Sel := gmap string string) (Spec := unit) WatcherDemo.hd (mkGates "" "" "") (mkEndpoints "" "" "")
    true true QueueDemo.queue (λ _, None) Prom (λ n, Some "id1") (λ _, "error") QueueDemo.no_text 4 (return! tt)
    AgentDemo.no_ticket false QueueDemo.others env in
  ∃ a', foldl (λ oa c, oa ≫= check c) (Some AgentDemo.start) demo_checks = Some a'
    ∧ same_cluster (ag_gate AgentDemo.start) (ag_gate a').
Proof.
  intros env check.
  assert (is_Some (foldl (λ oa c, oa ≫= check c) (Some AgentDemo.start) demo_checks)) as [a' Ha'].
  { assert (match foldl (λ oa c, oa ≫= check c) (Some AgentDemo.start) demo_checks with Some _ => true | None => false end = true)
      as H by (vm_compute; reflexivity).
    by destruct (foldl _ _ _). }
  exists a'. split; [exact Ha'|].
  apply (checks_only_propose (Sel := gmap string string) (Spec := unit) WatcherDemo.hd (mkGates "" "" "")
    (mkEndpoints "" "" "") true true QueueDemo.queue (λ _, None) Prom (λ n, Some "id1")
    (λ _, "error") QueueDemo.no_text 4 (return! tt) AgentDemo.no_ticket false QueueDemo.others env demo_checks).
  - apply QueueDemo.others_later.
  - done.
  - done.
  - by repeat constructor.
  - exact Ha'.
Defined.
